(* ===== verification/_CoqProject ===== *)
-Q . S2P
Prelude.v
Mem.v
LibString.v
LibStringThms.v
Mmu.v
Kstate.v
Pmap.v
PmapRep.v
PmapOps.v
PmapUser.v
PmapThms.v
Env.v
EnvRep.v
EnvOps.v
EnvFree.v
EnvSched.v
Devices.v
Syscall.v
Trap.v
SyscallMem.v
SyscallEnv.v
KernelExample.v
KernelThms.v
UserMem.v
KernelLoop.v
SystemThms.v
Printfmt.v
PrintfmtOut.v
Kdebug.v
TextThms.v
Fs.v
Serv.v
FsCache.v
FsFile.v
FsIo.v
FsTrunc.v
FsThms.v
Xv6Log.v
Xv6Cache.v
Xv6Crash.v
Xv6Recover.v
Xv6Txn.v
Xv6Fs.v
Xv6Alloc.v
Xv6Thms.v
Threads.v
Dining.v
RwLock.v
ProdCons.v
ThreadsThms.v
Chksum.v
NetThms.v
Grep.v
Umalloc.v
UserThms.v
Xv6Pipe.v
PipeThms.v
Xv6Vm.v
Xv6VmRep.v
Xv6VmOps.v
Xv6VmUser.v
Xv6MemThms.v
Xv6Proc.v
Xv6ProcTree.v
Xv6ProcInv.v
Xv6ProcVm.v
Xv6ProcThms.v
ShParse.v
ShGrammar.v
ShThms.v
CondVar.v
CvProdCons.v
Zemaphore.v
CvThms.v
UserFork.v
UserForkOk.v
UserForkBody.v
UserForkThms.v
Xv6Console.v
Xv6ConsoleThms.v
