(* ===== verification/Prelude.v ===== *)
(** * Verification of the teaching kernels and thread programs: overview

    The repository collects material for learning operating systems.  Its
    programs are the JOS kernel of the 6.828 laboratories with its file server
    (src/xv6-rev11/lab6-net, the last and most complete of six laboratories),
    the xv6 kernel (src/xv6-rev11/expansion), and small programs with POSIX
    threads (src/threads-sema, src/threads-cv and their sibling directories).  This library models
    the parts of them listed below and proves what makes them correct.  This
    file is the prelude: machine integers, the monad of the models, its program
    logic, and the shared lemmas and tactics.

    ** How programs are modelled

    Words of [n] bits are elements of [Z] with the wrap-around written out
    ([u8], [u16], [u32], [s32]).  Code with state is a function in the monad
    [M S A] below: it returns ([Ok]), panics ([Panic]), never returns to its
    caller because it enters user mode or the idle loop ([Leave]), does
    something the C standard or the hardware leaves undefined ([Undef]), or
    exceeds the bound of a loop ([Diverge]).  [wp m Q s] says that [m] from [s]
    returns normally with [Q]; [wpe] also has a postcondition for [Leave].
    Both exclude the other outcomes, so every theorem stated with them is a
    theorem of total correctness: no panic, no undefined access, and loops
    that end within their bound.

    Bounds: a loop of the code that counts is a loop over the list of its
    indices.  A loop that tests a condition is [loop fuel]; the fuel is computed
    from the loop's own data (the number of pages of a range, the blocks of a
    file), and since running out is [Diverge] the [wp] theorems show that it is
    enough.  The string routines take their fuel as an argument and the theorems
    hold for every fuel beyond the length of the string.

    ** JOS memory (kern/pmap.c, kern/pmap.h, inc/mmu.h, inc/memlayout.h)

    Mem.v has byte-addressed memory, Mmu.v the address macros, Kstate.v the
    state of the kernel (physical memory, [pages], [envs], the lists, the TLB),
    Pmap.v every operation of pmap.c.  PmapRep.v states the abstract view: a map
    of page tables and a map from user pages to physical pages, with the exact
    reference count of every page.  PmapOps.v and PmapUser.v prove
    the operations against it; PmapThms.v has the contract: insertion and
    removal refine the update of the map, allocation and freeing are inverse,
    page_init establishes the invariant, user_mem_check is exact except for
    ranges that end at 2^32.

    ** JOS environments, scheduling and system calls (kern/env.c, kern/sched.c,
    kern/syscall.c, kern/trap.c)

    Env.v, Devices.v, Syscall.v and Trap.v translate the files.  EnvRep.v states
    the kernel invariant [kinv]: the abstract view of memory, a well-formed
    environment table and free list, and for each live environment its own
    directory.  EnvOps.v, EnvFree.v, EnvSched.v, SyscallMem.v and SyscallEnv.v
    prove that the operations keep it; KernelThms.v has the contracts, each
    applied to the state of KernelExample.v.  Freeing an environment returns
    every page it holds, a system call reports every error without changing the
    mappings, messages reach a waiting receiver, and the scheduler is round
    robin.  Two theorems show defects: a receiver that wants no page gets one at
    UTOP, and sys_cputs reads one byte too many.

    UserMem.v and KernelLoop.v put the pieces together: a step of
    the system is a store of the running user program or a trap with any
    registers, and [sys_inv] is the invariant of all reachable states.
    SystemThms.v: under any user program no trap makes the kernel panic, hang or
    do something undefined, except through the calls that [trap_ok] names, and
    user stores stay inside the user's own pages.  The last theorem is one of
    the exceptions, a page fault frame that the kernel checks only in part.

    ** JOS fork in the user library (lib/fork.c, lib/pgfault.c)

    UserFork.v has fork, duppage, the page fault handler and
    set_pgfault_handler as programs of the running environment over the models
    of the system calls; they read the page tables through the window at UVPT
    as the hardware translates it.  UserForkOk.v has what an environment sees of
    its own tables, duppage and the loop, UserForkBody.v fork as a whole and the
    handler, all proved from the contracts of the calls.
    UserForkThms.v: the child has a snapshot of the parent, a store to a page
    that is not shared faults in both, and the handler then makes a private copy
    that nobody else notices.  The bound of the loop is the number of pages it
    visits and one more.  No other environment runs in between, and fork's own
    stack is not in the memory of the model, so that the faults it takes on it
    are not part of it.

    ** JOS strings (lib/string.c)

    LibString.v has all the routines, LibStringThms.v what they compute; memmove
    is shown equal to a reference copy on every overlap and alignment.

    ** JOS formatted output and symbol lookup (lib/printfmt.c, lib/printf.c,
    lib/fprintf.c, kern/printf.c, kern/kdebug.c)

    Printfmt.v has the formatter over any putch, and the four functions that use
    it.  PrintfmtOut.v shows that formatting is calling putch on a text that
    depends only on the format and the arguments, so that each user of the
    formatter needs one lemma about its putch.  The recursion of the conversion
    e has depth two because the formats it uses have no such conversion; 64
    digits are enough for 64-bit numbers.  Kdebug.v has the symbol lookup and the
    correctness of its search.  TextThms.v: printing to memory stays in the
    buffer, a printed number is read back by strtol, the console gets the text
    in order, and the search finds the entry that contains the address; two of
    the functions return a wrong count and the search is wrong for entries at
    adjacent addresses.

    ** JOS file server (fs/fs.c, fs/bc.c, fs/ide.c, fs/serv.c)

    Fs.v has the block cache, which reads blocks on page faults, and the file
    system on it; Serv.v the requests.  FsCache.v shows that the cache is
    transparent: clients see one flat memory.  FsFile.v, FsIo.v and
    FsTrunc.v prove the bitmap, the block map, reading and writing, and
    truncation on that memory.  FsThms.v has the contracts: a write is read back,
    other files keep their bytes, shrinking frees exactly the blocks beyond the
    end, fs_sync puts the cache on the disk, and a full disk corrupts the
    indirect block pointer.

    ** xv6 log and file system (expansion/log.c, bio.c, memide.c, sleeplock.c,
    fs.c)

    Xv6Log.v has the buffer cache, the disk as the sequence of blocks written to
    it, and the log.  Xv6Cache.v proves the cache, Xv6Crash.v the exact writes
    of the log operations, Xv6Recover.v what a boot after a crash makes of any
    prefix of them, Xv6Txn.v operations inside a transaction and the
    reservations of concurrent calls.  Xv6Fs.v translates fs.c and Xv6Alloc.v
    proves the block allocator.  Xv6Thms.v: transactions are atomic under a crash
    at any block write and any number of crashes during recovery; recovery can
    be repeated; calls within their reservation find room in the header, but not
    with the log length of mkfs; balloc and bfree change exactly one bit.

    ** xv6 memory (expansion/kalloc.c, vm.c, memlayout.h)

    Xv6Vm.v has the page allocator, whose list runs through the free pages, and
    the operations on page tables, on physical memory by bytes.  Xv6VmRep.v
    states the abstract view, a list of free pages beside an address space with
    its tables and frames; Xv6VmOps.v and Xv6VmUser.v prove the operations,
    every branch that runs out of memory included.  The fuel of the loops is the
    number of pages of the range, and two more rounds.  Xv6MemThms.v: copyuvm
    makes a private copy, freevm gives back exactly what the space holds,
    allocuvm adds pages of zeros, copyout writes through the page table, and no
    path loses a page.

    ** xv6 processes (expansion/proc.c)

    Xv6Proc.v has the process table and the steps of fork, exit, wait, kill,
    growproc, sleep, wakeup, yield and the scheduler, which interleave freely.
    It sees memory through the class [Vm] with the laws [VmLaws]; Xv6ProcVm.v
    proves the laws for Xv6Vm.v.  Xv6ProcTree.v has the invariant of the table
    (parents, children in the making, sleepers in wait), Xv6ProcInv.v the
    invariant of the pages and that every step keeps both.  Xv6ProcThms.v: no
    interleaving loses, shares or frees a page twice or panics; a process in
    wait never misses a zombie; fork is exact.  Two theorems show defects: kill
    of pid 0 marks an unused slot, and a process that gives back all its memory
    makes its next fork panic.  A call into vm.c is one step, and the table that
    userinit leaves is the initial state.

    ** xv6 pipes (expansion/pipe.c; sleep, wakeup and kill of proc.c; spinlock.c)

    Xv6Pipe.v has one pipe and any number of processes, each a program counter
    in the code of pipewrite, piperead, pipeclose, kill, sleep or wakeup; a step
    is one test, assignment or lock operation, and the processes interleave
    freely.  It proves who holds which lock, and that the ring buffer is the
    queue of the bytes written and not yet read.  It also proves that a
    sleeping process still has its reason to sleep or is owed a wakeup by the
    holder of p->lock.  PipeThms.v: bytes come out in order and the locks never
    panic; no wakeup is lost if nobody is killed; a killed writer can leave a
    reader asleep for good.  A killed process goes on with its calls in the
    model, where the kernel would end it on its way to user mode.

    ** xv6 console (expansion/console.c)

    Xv6Console.v has the line editor consoleintr and consoleread on the ring of
    128 bytes with its three wrapping indices, a system of the keyboard and any
    number of readers, and the specification, a queue of finished lines and a
    line under edit, with the simulation.  Xv6ConsoleThms.v:
    the system refines the specification, the screen shows the text, and no
    reader sleeps over bytes it could read.  The loop that erases a line has
    INPUT_BUF rounds, as many as the ring has bytes.

    ** xv6 shell (the parser of expansion/sh.c)

    ShParse.v has the recursive descent parser on a line of bytes, its tree with
    the positions of the words, and nulterminate.  Every loop and recursive call
    takes a token, so the length of the line bounds them.  ShGrammar.v has the
    tokens of a line, the grammar as an inductive relation and that the parser
    accepts exactly its lines.  ShThms.v: parsecmd builds the one tree the
    grammar gives, the tree is well formed, its words are C strings in the
    buffer, and parsing inverts printing.

    ** xv6 user programs (expansion/grep.c, expansion/umalloc.c)

    Grep.v has the matcher and the loop over the lines; the fuel of the loops is
    the number of bytes and pieces of the input, each round takes one.  Umalloc.v
    has malloc and free on headers by address, with sbrk as the kernel computes
    it; addresses count units of 8 bytes and an unaligned end of the process is
    [Undef].  The list is circular, so free and malloc search at most once
    around it, malloc once more behind morecore.  UserThms.v: grep prints the
    lines in the language of the pattern but loses lines that arrive in pieces;
    malloc and free keep the heap partitioned into merged free blocks and
    disjoint blocks in use, and sizes near 2^32 and above 2^31 are mishandled.

    ** lwIP checksum (lab6-net/net/lwip/core/ipv4/inet_chksum.c)

    Chksum.v has the three variants and the sums over chains of buffers, and the
    algebra of one's complement sums: [same] is equality modulo 65535 that keeps
    the two zeros apart, and sums can be rewritten with it.  NetThms.v: all
    variants compute the sum of RFC 1071, a chain has the sum of its bytes, and
    a stored checksum verifies.

    ** Programs with threads (src/threads-sema, include/common_threads.h)

    Threads.v has threads as resumptions over shared semaphores and variables,
    every load and store a step of its own, and the step relation [cstep] that
    interleaves them.  Dining.v, RwLock.v and ProdCons.v translate three
    programs and prove an invariant of all their interleavings, with a measure.
    ThreadsThms.v: the philosophers finish and the variant with the other fork
    order can deadlock; the readers-writer lock excludes and its program ends
    with the right counter; the bounded buffer is a queue, never deadlocks and
    delivers everything.  The consumer's loop has a bound on its rounds; a
    consumer that would exceed it is stuck, which the theorem of progress
    excludes.

    ** Programs with condition variables (src/threads-cv/pc.c, pc_single_cv.c,
    threads-sema/zemaphore.h)

    CondVar.v has threads that sleep on condition variables: a signal wakes any
    one sleeper, and a configuration has a number of spurious wakeups still to
    come, over which the theorems quantify.  CvProdCons.v
    has the bounded buffer, Zemaphore.v the semaphore made from a mutex and a condition variable, each with an invariant of all
    interleavings and a measure.  CvThms.v: with two condition variables the
    buffer delivers everything and ends, with one it can deadlock; the semaphore
    refines the counting semaphore and loses no wakeup.

    ** Not modelled

    Hardware beyond memory, TLB, disk blocks and descriptor rings (device
    registers, interrupt controllers, boot code, assembly); the self tests
    (check_page and the like) and mem_init's boot sequence; more than
    one CPU inside the JOS kernel, which its big lock excludes.  Of JOS the rest of
    the user library (file descriptors, pipes, spawn), the user programs and the
    network server with the rest of lwIP.  Of xv6 the loading of programs and of
    segment and page table registers (exec.c, loaduvm, seginit, switchuvm beyond
    its tests), context switches, traps, file descriptors and system calls, the
    devices behind the console, the part of the shell that runs the commands,
    the other user programs, and mkfs.  Of the thread programs the small
    demonstrations of thread creation, joining and compare-and-swap.  The earlier laboratories (lab1 to
    lab5), which lab6-net contains, the other tutorial kernel (hurlex-doc) and
    the BPF scripts. *)
From Stdlib Require Export ZArith Lia.
From stdpp Require Export base numbers list gmap strings.

#[global] Open Scope Z_scope.

(** ** Machine integers

    An [n]-bit unsigned quantity of the C code is a [Z] in [0, 2^n); the
    conversions below are the wrap-around that C performs on assignment. *)

Definition u8 (x : Z) : Z := x `mod` 2^8.
Definition u16 (x : Z) : Z := x `mod` 2^16.
Definition u32 (x : Z) : Z := x `mod` 2^32.

(** The value of a 32-bit pattern read as a signed [int]. *)
Definition s32 (x : Z) : Z :=
  let y := u32 x in if y <? 2^31 then y else y - 2^32.

(** [x & m] used as a condition. *)
Definition flag (x m : Z) : bool := negb (Z.land x m =? 0).

Lemma u8_range x : 0 <= u8 x < 2^8.
Proof. apply Z.mod_pos_bound. lia. Qed.

Lemma u16_range x : 0 <= u16 x < 2^16.
Proof. apply Z.mod_pos_bound. lia. Qed.

Lemma u32_range x : 0 <= u32 x < 2^32.
Proof. apply Z.mod_pos_bound. lia. Qed.

Lemma u16_small x : 0 <= x < 2^16 -> u16 x = x.
Proof. apply Z.mod_small. Qed.

Lemma u32_small x : 0 <= x < 2^32 -> u32 x = x.
Proof. apply Z.mod_small. Qed.

Lemma u32_idemp x : u32 (u32 x) = u32 x.
Proof. apply u32_small, u32_range. Qed.

Lemma s32_range x : - 2^31 <= s32 x < 2^31.
Proof.
  unfold s32. pose proof (u32_range x) as H.
  destruct (Z.ltb_spec (u32 x) (2^31)); lia.
Qed.

Lemma s32_small x : - 2^31 <= x < 2^31 -> s32 x = x.
Proof.
  intros H. unfold s32, u32. destruct (Z_lt_le_dec x 0).
  - rewrite <- (Z.mod_unique x (2^32) (-1) (x + 2^32)) by lia.
    destruct (Z.ltb_spec (x + 2^32) (2^31)); lia.
  - rewrite Z.mod_small by lia. destruct (Z.ltb_spec x (2^31)); lia.
Qed.

(** ** Outcomes of kernel code

    A C function is a state transformer whose run ends in one of five ways. *)

Inductive out (S A : Type) : Type :=
| Ok (a : A) (s : S)        (* the call returned [a] *)
| Panic (msg : string)      (* panic(), or an assert() that failed *)
| Leave (s : S)             (* control left the kernel and does not return *)
| Undef                     (* undefined behaviour: bad pointer or index *)
| Diverge.                  (* a loop did not finish within its fuel *)
Arguments Ok {S A} a s.
Arguments Panic {S A} msg.
Arguments Leave {S A} s.
Arguments Undef {S A}.
Arguments Diverge {S A}.

Definition M (S A : Type) : Type := S -> out S A.

Section monad.
Context {S : Type}.

Definition ret {A} (a : A) : M S A := fun s => Ok a s.

Definition bind {A B} (m : M S A) (k : A -> M S B) : M S B := fun s =>
  match m s with
  | Ok a s' => k a s'
  | Panic msg => Panic msg
  | Leave s' => Leave s'
  | Undef => Undef
  | Diverge => Diverge
  end.

Definition gets {A} (f : S -> A) : M S A := fun s => Ok (f s) s.
Definition modify (f : S -> S) : M S unit := fun s => Ok tt (f s).
Definition panic {A} (msg : string) : M S A := fun _ => Panic msg.
Definition undef {A} : M S A := fun _ => Undef.
Definition leave {A} : M S A := fun s => Leave s.

(** [assert(b)] of inc/assert.h. *)
Definition assert_ (b : bool) (msg : string) : M S unit :=
  if b then ret tt else panic msg.

(** Dereference that must be defined. *)
Definition deref {A} (o : option A) : M S A :=
  match o with Some a => ret a | None => undef end.

(** A loop whose body says with [inl] that it goes round again and with
    [inr] that it is left ([break], [return], or a false condition). *)
Fixpoint loop {A B} (fuel : nat) (body : A -> M S (A + B)) (a : A) : M S B :=
  match fuel with
  | O => fun _ => Diverge
  | Datatypes.S n =>
      bind (body a) (fun r =>
        match r with inl a' => loop n body a' | inr b => ret b end)
  end.

(** [for (i in l) { r = f(i); if (r) return r; }]: the first [Some] ends
    the loop. *)
Fixpoint for_each {I B} (l : list I) (f : I -> M S (option B))
    : M S (option B) :=
  match l with
  | [] => ret None
  | i :: l' =>
      bind (f i) (fun r =>
        match r with Some b => ret (Some b) | None => for_each l' f end)
  end.

(** [for (i in l) f(i);] with no early exit. *)
Fixpoint for_ {I} (l : list I) (f : I -> M S unit) : M S unit :=
  match l with
  | [] => ret tt
  | i :: l' => bind (f i) (fun _ => for_ l' f)
  end.
End monad.

Declare Scope kern_scope.
Delimit Scope kern_scope with kern.
Notation "'let!' x ':=' m 'in' k" := (bind m (fun x => k))
  (at level 10, x pattern, m at level 100, k at level 200,
   format "'[v' 'let!'  x  ':='  m  'in' '/' k ']'") : kern_scope.
Notation "m ;;; k" := (bind m (fun _ => k))
  (at level 100, k at level 200, right associativity,
   format "'[v' m ;;; '/' k ']'") : kern_scope.
#[global] Open Scope kern_scope.

(** ** Reasoning about outcomes

    [wpe m Q E s]: run from [s], [m] neither panics, diverges nor hits
    undefined behaviour; it either returns with [Q] or leaves with [E].
    [wp] is the case of code that always returns. *)

Definition wpe {S A} (m : M S A) (Q : A -> S -> Prop) (E : S -> Prop) (s : S)
    : Prop :=
  match m s with
  | Ok a s' => Q a s'
  | Leave s' => E s'
  | _ => False
  end.

Definition wp {S A} (m : M S A) (Q : A -> S -> Prop) (s : S) : Prop :=
  wpe m Q (fun _ => False) s.

Section wp.
Context {S : Type}.
Implicit Types (s : S) (E : S -> Prop).

Lemma wpe_ret {A} (a : A) Q E s : Q a s -> wpe (ret a) Q E s.
Proof. done. Qed.

Lemma wpe_bind {A B} (m : M S A) (k : A -> M S B) Q E s :
  wpe m (fun a s' => wpe (k a) Q E s') E s -> wpe (bind m k) Q E s.
Proof. unfold wpe, bind. by destruct (m s). Qed.

Lemma wpe_bind_inv {A B} (m : M S A) (k : A -> M S B) Q E s :
  wpe (bind m k) Q E s -> wpe m (fun a s' => wpe (k a) Q E s') E s.
Proof. unfold wpe, bind. by destruct (m s). Qed.

Lemma wpe_mono {A} (m : M S A) Q Q' E E' s :
  wpe m Q E s ->
  (forall a s', Q a s' -> Q' a s') -> (forall s', E s' -> E' s') ->
  wpe m Q' E' s.
Proof. unfold wpe. destruct (m s); naive_solver. Qed.

Lemma wp_mono {A} (m : M S A) Q Q' s :
  wp m Q s -> (forall a s', Q a s' -> Q' a s') -> wp m Q' s.
Proof. intros H HQ. eapply wpe_mono; eauto. Qed.

Lemma wp_wpe {A} (m : M S A) Q Q' E s :
  wp m Q s -> (forall a s', Q a s' -> Q' a s') -> wpe m Q' E s.
Proof. intros H HQ. eapply wpe_mono; eauto; done. Qed.

(** What holds of a run that was made. *)
Lemma wp_run {A} (m : M S A) Q s a s' : wp m Q s -> m s = Ok a s' -> Q a s'.
Proof. unfold wp, wpe. intros H E. by rewrite E in H. Qed.

Lemma wp_ends {A} (m : M S A) Q s : wp m Q s -> exists a s', m s = Ok a s' /\ Q a s'.
Proof. unfold wp, wpe. destruct (m s) as [a s'| | | |]; try done. intros H. by exists a, s'. Qed.

Lemma wpe_gets {A} (f : S -> A) Q E s : Q (f s) s -> wpe (gets f) Q E s.
Proof. done. Qed.

Lemma wpe_modify (f : S -> S) Q E s : Q tt (f s) -> wpe (modify f) Q E s.
Proof. done. Qed.

Lemma wpe_assert b msg Q E s :
  b = true -> Q tt s -> wpe (assert_ b msg) Q E s.
Proof. by intros ->. Qed.

Lemma wpe_deref {A} (o : option A) a Q E s :
  o = Some a -> Q a s -> wpe (deref o) Q E s.
Proof. by intros ->. Qed.

Lemma wpe_leave {A} (Q : A -> S -> Prop) E s : E s -> wpe leave Q E s.
Proof. done. Qed.

(** Loops: an invariant and a measure that every further round lowers. *)
Lemma wpe_loop {A B} (body : A -> M S (A + B)) (I : A -> S -> Prop)
    (mu : A -> S -> nat) Q E :
  (forall a s, I a s ->
     wpe (body a) (fun r s' =>
       match r with
       | inl a' => I a' s' /\ (mu a' s' < mu a s)%nat
       | inr b => Q b s'
       end) E s) ->
  forall fuel a s, I a s -> (mu a s < fuel)%nat ->
  wpe (loop fuel body a) Q E s.
Proof.
  intros Hbody fuel. induction fuel as [|n IH]; intros a s HI Hmu; [lia|].
  simpl. apply wpe_bind. eapply wpe_mono; [by apply Hbody| |done].
  intros [a'|b] s'; simpl.
  - intros [HI' Hlt]. apply IH; [done|lia].
  - intros HQ. by apply wpe_ret.
Qed.

(** Counted loops: [I done rest] is indexed by what was processed. *)
Lemma wpe_for_each {I B} (f : I -> M S (option B)) (Inv : list I -> S -> Prop)
    (Q : option B -> S -> Prop) E l : forall pre s,
  Inv pre s ->
  (forall done i todo s', Inv done s' -> pre ++ l = done ++ i :: todo ->
     wpe (f i) (fun r s'' =>
       match r with
       | Some b => Q (Some b) s''
       | None => Inv (done ++ [i]) s''
       end) E s') ->
  (forall s', Inv (pre ++ l) s' -> Q None s') ->
  wpe (for_each l f) Q E s.
Proof.
  induction l as [|i l IH]; intros pre s HI Hbody Hend; simpl.
  - apply wpe_ret, Hend. by rewrite app_nil_r.
  - apply wpe_bind. eapply wpe_mono; [by eapply Hbody| |done].
    intros [b|] s' Hr; simpl; [by apply wpe_ret|].
    apply (IH (pre ++ [i])); [done| |].
    + intros d i' t s2 HI2 Heq. eapply Hbody; [done|].
      by rewrite <- Heq, <- app_assoc.
    + intros s2. rewrite <- app_assoc. apply Hend.
Qed.

Lemma wpe_for {I} (f : I -> M S unit) (Inv : list I -> S -> Prop) E l :
  forall pre s,
  Inv pre s ->
  (forall done i todo s', Inv done s' -> pre ++ l = done ++ i :: todo ->
     wpe (f i) (fun _ s'' => Inv (done ++ [i]) s'') E s') ->
  wpe (for_ l f) (fun _ s' => Inv (pre ++ l) s') E s.
Proof.
  induction l as [|i l IH]; intros pre s HI Hbody; simpl.
  - apply wpe_ret. by rewrite app_nil_r.
  - apply wpe_bind. eapply wpe_mono; [by eapply Hbody| |done].
    intros [] s' Hr; simpl.
    replace (pre ++ i :: l) with ((pre ++ [i]) ++ l)
      by (by rewrite <- app_assoc).
    apply (IH (pre ++ [i])); [done|].
    intros d i' t s2 HI2 Heq. eapply Hbody; [done|].
    by rewrite <- Heq, <- app_assoc.
Qed.
End wp.

(** One symbolic-execution step. *)
Ltac wp_step :=
  match goal with
  | |- wpe (bind _ _) _ _ _ => apply wpe_bind
  | |- wpe (ret _) _ _ _ => apply wpe_ret
  | |- wpe (gets _) _ _ _ => apply wpe_gets
  | |- wpe (modify _) _ _ _ => apply wpe_modify
  | |- wpe leave _ _ _ => apply wpe_leave
  | |- wpe (deref (Some _)) _ _ _ => eapply wpe_deref; [reflexivity|]
  end.
Ltac wp_steps := repeat (wp_step; cbn beta).

Lemma for_ext {S I} (f g : I -> M S unit) l :
  (forall i, f i = g i) -> for_ l f = for_ l g.
Proof. intros H. induction l as [|i l IH]; simpl; [done|]. by rewrite H, IH. Qed.

(** A loop that counts from 0 to [n]. *)
Lemma wp_for_seq {S} (f : Z -> M S unit) (I : Z -> S -> Prop) n s :
  0 <= n -> I 0 s ->
  (forall i s', 0 <= i < n -> I i s' -> wp (f i) (fun _ s'' => I (i + 1) s'') s') ->
  wp (for_ (seqZ 0 n) f) (fun _ s' => I n s') s.
Proof.
  intros Hn H0 Hstep.
  eapply wp_mono; [eapply wpe_for with (pre := [])
    (Inv := fun dn s' => I (Z.of_nat (length dn)) s')|].
  - exact H0.
  - intros dn i todo s' HI Heq. simpl in Heq.
    assert (seqZ 0 n !! length dn = Some i) as Hi
      by (rewrite Heq, lookup_app_r, Nat.sub_diag by lia; done).
    apply lookup_seqZ in Hi as [-> Hlt]. rewrite Z.add_0_l.
    eapply wp_wpe; [apply Hstep; [lia|exact HI]|]. intros [] s''. rewrite length_app. simpl.
    by replace (Z.of_nat (length dn + 1)) with (Z.of_nat (length dn) + 1) by lia.
  - intros [] s'. simpl app. rewrite length_seqZ. by rewrite Z2Nat.id.
Qed.

(** A counted loop that may be left early. *)
Lemma wp_for_each_upto {S B} (f : Z -> M S (option B)) (I : Z -> S -> Prop) (Q : option B -> S -> Prop) n s :
  0 <= n -> I 0 s ->
  (forall i s', 0 <= i < n -> I i s' -> wp (f i) (fun r s'' =>
     match r with Some b => Q (Some b) s'' | None => I (i + 1) s'' end) s') ->
  (forall s', I n s' -> Q None s') ->
  wp (for_each (seqZ 0 n) f) Q s.
Proof.
  intros Hn H0 Hstep Hend. eapply (wpe_for_each f (fun dn s' => I (Z.of_nat (length dn)) s')) with (pre := []).
  - exact H0.
  - intros dn i todo s' HI Heq. simpl in Heq.
    assert (seqZ 0 n !! length dn = Some i) as Hi
      by (rewrite Heq, lookup_app_r, Nat.sub_diag by lia; done).
    apply lookup_seqZ in Hi as [-> Hlt]. rewrite Z.add_0_l.
    eapply wp_mono; [apply Hstep; [lia|exact HI]|]. intros [b|] s'' Hr; [done|]. rewrite length_app. simpl.
    by replace (Z.of_nat (length dn + 1)) with (Z.of_nat (length dn) + 1) by lia.
  - intros s'. simpl app. rewrite length_seqZ. rewrite Z2Nat.id by lia. apply Hend.
Qed.

(** One that is never left early. *)
Lemma wp_for_each_seq {S B} (f : Z -> M S (option B)) (I : Z -> S -> Prop) n s :
  0 <= n -> I 0 s ->
  (forall i s', 0 <= i < n -> I i s' -> wp (f i) (fun r s'' => r = None /\ I (i + 1) s'') s') ->
  wp (for_each (seqZ 0 n) f) (fun r s' => r = None /\ I n s') s.
Proof.
  intros Hn H0 Hstep. apply (wp_for_each_upto f I); [done|done| |done].
  intros i s' Hi HI. eapply wp_mono; [by apply Hstep|]. by intros r s'' [-> HI'].
Qed.

Lemma for_each_fmap {S I J B} (g : I -> J) (f : J -> M S (option B)) l :
  for_each (g <$> l) f = for_each l (fun i => f (g i)).
Proof. induction l as [|i l IH]; [done|]. rewrite fmap_cons. cbn [for_each]. by rewrite IH. Qed.

(** ** Outcomes other than a return *)

Lemma bind_wp_eq {S A B} (c : M S A) (k : A -> M S B) Q s o :
  wp c Q s -> (forall a s', Q a s' -> k a s' = o) -> bind c k s = o.
Proof. unfold wp, wpe, bind. destruct (c s); [|done..]. auto. Qed.

Lemma bind_panic {S A B} (c : M S A) (k : A -> M S B) s msg :
  c s = Panic msg -> bind c k s = Panic msg.
Proof. unfold bind. by intros ->. Qed.

(** ** Bit fields *)

Lemma flag_testbit w i : 0 <= i -> flag w (Z.shiftl 1 i) = Z.testbit w i.
Proof.
  intros Hi. unfold flag. rewrite Z.shiftl_1_l. destruct (Z.testbit w i) eqn:E.
  - destruct (Z.eqb_spec (Z.land w (2^i)) 0) as [H|]; [|done].
    assert (Z.testbit (Z.land w (2^i)) i = true) as Ht
      by (rewrite Z.land_spec, E, Z.pow2_bits_true by lia; done).
    by rewrite H, Z.bits_0 in Ht.
  - assert (Z.land w (2^i) = 0) as ->; [|done]. apply Z.bits_inj'. intros j Hj.
    rewrite Z.land_spec, Z.bits_0, Z.pow2_bits_eqb by lia.
    destruct (Z.eqb_spec i j) as [<-|]; [by rewrite E|]. apply andb_false_r.
Qed.

Lemma land_mul_low n p m : 0 <= n -> 0 <= m < 2^n -> Z.land (p * 2^n) m = 0.
Proof.
  intros Hn Hm. apply Z.bits_inj'. intros i Hi. rewrite Z.land_spec, Z.bits_0.
  rewrite <- Z.shiftl_mul_pow2 by lia.
  rewrite Z.shiftl_spec by lia. destruct (Z_lt_le_dec i n).
  - by rewrite Z.testbit_neg_r by lia.
  - rewrite <- (Z.mod_small m (2^n)) by lia.
    rewrite (Z.mod_pow2_bits_high m) by lia. apply andb_false_r.
Qed.

(** A multiple of a power of two ORed with smaller bits is their sum. *)
Lemma lor_mul_low n p f : 0 <= n -> 0 <= f < 2^n -> Z.lor (p * 2^n) f = p * 2^n + f.
Proof.
  intros Hn Hf. pose proof (land_mul_low n p f Hn Hf) as Hz.
  rewrite <- Z.lxor_lor by done. symmetry. by apply Z.add_nocarry_lxor.
Qed.

(** Clearing the low bits. *)
Lemma land_lnot_ones n x : 0 <= n -> Z.land x (Z.lnot (Z.ones n)) = x / 2^n * 2^n.
Proof.
  intros Hn. rewrite <- Z.ldiff_land, Z.ldiff_ones_r by done.
  by rewrite Z.shiftl_mul_pow2, Z.shiftr_div_pow2 by done.
Qed.

(** ** Singly linked lists threaded through an array *)

Section chain.
Context {A : Type} (link : A -> option Z).

(** [chain m h l]: from the head [h] the links of [m] run through [l]. *)
Inductive chain (m : gmap Z A) : option Z -> list Z -> Prop :=
| chain_nil : chain m None []
| chain_cons p x l :
    m !! p = Some x -> chain m (link x) l -> chain m (Some p) (p :: l).

Lemma chain_insert m h l p x :
  chain m h l -> (p ∉ l) -> chain (<[p := x]> m) h l.
Proof.
  induction 1 as [|q y l Hq Hc IH]; intros Hp; [constructor|].
  apply not_elem_of_cons in Hp as [Hne Hp].
  econstructor; [by rewrite lookup_insert_ne|auto].
Qed.

(** Only the links matter. *)
Lemma chain_same_link m h l p x x' :
  chain m h l -> m !! p = Some x -> link x' = link x ->
  chain (<[p := x']> m) h l.
Proof.
  intros Hc Hp Hl. induction Hc as [|q y l Hq Hc IH]; [constructor|].
  destruct (decide (p = q)) as [->|Hne].
  - econstructor; [apply lookup_insert_eq|]. simplify_eq. by rewrite Hl.
  - econstructor; [by rewrite lookup_insert_ne|done].
Qed.

Lemma chain_elem m h l p : chain m h l -> p ∈ l -> is_Some (m !! p).
Proof.
  induction 1 as [|q y l Hq Hc IH]; intros Hp; [by apply elem_of_nil in Hp|].
  apply elem_of_cons in Hp as [->|Hp]; eauto.
Qed.

Lemma chain_head m h l : chain m h l -> h = head l.
Proof. by destruct 1. Qed.
End chain.

(** ** Parts of the state that code leaves alone *)

Definition keeps {S A B} (f : S -> B) (m : M S A) : Prop := forall s a s', m s = Ok a s' -> f s' = f s.

Create HintDb keeps.

Section keeps.
Context {S C : Type} (p : S -> C).
Local Notation keeps := (keeps p).

Lemma keeps_ret {A} (a : A) : keeps (ret a).
Proof. intros s x s' [= _ <-]. done. Qed.

Lemma keeps_gets {A} (f : S -> A) : keeps (gets f).
Proof. intros s x s' [= _ <-]. done. Qed.

Lemma keeps_modify f : (forall s, p (f s) = p s) -> keeps (modify f).
Proof. intros Hf s x s' [= _ <-]. apply Hf. Qed.

Lemma keeps_panic {A} msg : keeps (panic msg : M S A).
Proof. intros s x s' [=]. Qed.

Lemma keeps_undef {A} : keeps (undef : M S A).
Proof. intros s x s' [=]. Qed.

Lemma keeps_leave {A} : keeps (leave : M S A).
Proof. intros s x s' [=]. Qed.

Lemma keeps_deref {A} (o : option A) : keeps (deref o : M S A).
Proof. destruct o; [apply keeps_ret|apply keeps_undef]. Qed.

Lemma keeps_assert b msg : keeps (assert_ b msg : M S unit).
Proof. destruct b; [apply keeps_ret|apply keeps_panic]. Qed.

Lemma keeps_bind {A B} (m : M S A) (k : A -> M S B) : keeps m -> (forall a, keeps (k a)) -> keeps (bind m k).
Proof.
  intros Hm Hk s b s'. unfold bind. destruct (m s) as [a s1| | | |] eqn:E; try done.
  intros E'. rewrite (Hk a s1 b s' E'). by eapply Hm.
Qed.

Lemma keeps_for {I} (f : I -> M S unit) l : (forall i, keeps (f i)) -> keeps (for_ l f).
Proof.
  intros Hf. induction l as [|i l IH]; simpl; [apply keeps_ret|]. by apply keeps_bind.
Qed.

Lemma keeps_for_each {I B} (f : I -> M S (option B)) l : (forall i, keeps (f i)) -> keeps (for_each l f).
Proof.
  intros Hf. induction l as [|i l IH]; simpl; [apply keeps_ret|].
  apply keeps_bind; [done|]. intros [b|]; [apply keeps_ret|done].
Qed.

Lemma keeps_loop {A B} (f : A -> M S (A + B)) n : (forall a, keeps (f a)) -> forall a, keeps (loop n f a).
Proof.
  intros Hf. induction n as [|n IH]; intros a; [by intros s x s' [=]|]. simpl.
  apply keeps_bind; [done|]. intros [a'|b]; [apply IH|apply keeps_ret].
Qed.

Lemma wpe_keeps {A} (m : M S A) Q E s :
  keeps m -> wpe m Q E s -> wpe m (fun a s' => Q a s' /\ p s' = p s) E s.
Proof.
  unfold wpe. intros Hk. destruct (m s) as [a s'| | | |] eqn:Em; try done. intros HQ. split; [done|by eapply Hk].
Qed.
End keeps.

#[export] Hint Resolve keeps_ret keeps_gets keeps_panic keeps_undef keeps_leave keeps_deref keeps_assert : keeps.

(** One step per construct of the code; branches are split. *)
Ltac keep_steps :=
  repeat (cbv zeta; match goal with
  | |- forall _, _ => intro
  | |- keeps _ (bind _ _) => apply keeps_bind
  | |- keeps _ (for_ _ _) => apply keeps_for
  | |- keeps _ (for_each _ _) => apply keeps_for_each
  | |- keeps _ (loop _ _ _) => apply keeps_loop
  | |- keeps _ (modify _) => apply keeps_modify; done
  | |- keeps _ (match ?x with _ => _ end) => destruct x
  | |- keeps _ _ => solve [eauto with keeps nocore]
  end).
