(* ===== verification/Mem.v ===== *)
(** * Byte-addressed memory

    A memory is a finite map from addresses to bytes.  Addresses that were
    never written read as 0: the initial contents of RAM are part of the map,
    so a theorem that quantifies over the memory quantifies over them.
    32-bit words are little endian, as on the x86 that both kernels target. *)
From S2P Require Import Prelude.

Definition getb (m : gmap Z Z) (a : Z) : Z := u8 (default 0 (m !! a)).
Definition setb (m : gmap Z Z) (a v : Z) : gmap Z Z := <[a := u8 v]> m.

Definition read32 (m : gmap Z Z) (a : Z) : Z :=
  getb m a + 2^8 * getb m (a + 1) + 2^16 * getb m (a + 2) + 2^24 * getb m (a + 3).

Definition write32 (m : gmap Z Z) (a v : Z) : gmap Z Z :=
  setb (setb (setb (setb m a v) (a + 1) (v / 2^8)) (a + 2) (v / 2^16))
       (a + 3) (v / 2^24).

(** [n] bytes from [a] upwards, all set to [c]. *)
Fixpoint fill (m : gmap Z Z) (a c : Z) (n : nat) : gmap Z Z :=
  match n with
  | O => m
  | S n' => fill (setb m a c) (a + 1) c n'
  end.

(** The [n] bytes that start at [a]. *)
Fixpoint bytes_at (m : gmap Z Z) (a : Z) (n : nat) : list Z :=
  match n with
  | O => []
  | S n' => getb m a :: bytes_at m (a + 1) n'
  end.

(** Store a list of bytes from [a] upwards. *)
Fixpoint put_bytes (m : gmap Z Z) (a : Z) (l : list Z) : gmap Z Z :=
  match l with
  | [] => m
  | b :: l' => put_bytes (setb m a b) (a + 1) l'
  end.

Lemma getb_range m a : 0 <= getb m a < 2^8.
Proof. apply u8_range. Qed.

Lemma u8_idemp x : u8 (u8 x) = u8 x.
Proof. unfold u8. by rewrite Z.mod_mod by lia. Qed.

Lemma u8_getb m a : u8 (getb m a) = getb m a.
Proof. apply u8_idemp. Qed.

Lemma getb_setb m a b v : getb (setb m a v) b = if decide (a = b) then u8 v else getb m b.
Proof.
  unfold getb, setb. rewrite lookup_insert. case_decide; [|done].
  simpl. apply u8_idemp.
Qed.

Lemma getb_setb_eq m a v : getb (setb m a v) a = u8 v.
Proof. rewrite getb_setb. by case_decide. Qed.

Lemma getb_setb_ne m a b v : a <> b -> getb (setb m a v) b = getb m b.
Proof. intros. rewrite getb_setb. by case_decide. Qed.

Lemma read32_range m a : 0 <= read32 m a < 2^32.
Proof.
  unfold read32.
  pose proof (getb_range m a). pose proof (getb_range m (a + 1)).
  pose proof (getb_range m (a + 2)). pose proof (getb_range m (a + 3)). lia.
Qed.

(** The four bytes of [v] put together again. *)
Lemma bytes_of_u32 v :
  u8 v + 2^8 * u8 (v / 2^8) + 2^16 * u8 (v / 2^16) + 2^24 * u8 (v / 2^24) = u32 v.
Proof.
  unfold u8, u32.
  change (2^16) with (2^8 * 2^8). change (2^24) with (2^8 * 2^8 * 2^8).
  rewrite <- !Z.div_div by lia.
  pose proof (Z.div_mod v (2^8) ltac:(lia)).
  pose proof (Z.div_mod (v / 2^8) (2^8) ltac:(lia)).
  pose proof (Z.div_mod (v / 2^8 / 2^8) (2^8) ltac:(lia)).
  pose proof (Z.div_mod (v / 2^8 / 2^8 / 2^8) (2^8) ltac:(lia)).
  pose proof (Z.mod_pos_bound v (2^8) ltac:(lia)).
  pose proof (Z.mod_pos_bound (v / 2^8) (2^8) ltac:(lia)).
  pose proof (Z.mod_pos_bound (v / 2^8 / 2^8) (2^8) ltac:(lia)).
  pose proof (Z.mod_pos_bound (v / 2^8 / 2^8 / 2^8) (2^8) ltac:(lia)).
  apply (Z.mod_unique v (2^32) (v / 2^8 / 2^8 / 2^8 / 2^8)); lia.
Qed.

Lemma read32_write32_eq m a v : read32 (write32 m a v) a = u32 v.
Proof.
  unfold read32, write32. rewrite !getb_setb.
  repeat (case_decide; try lia). apply bytes_of_u32.
Qed.

Lemma read32_write32_ne m a b v :
  b + 4 <= a \/ a + 4 <= b -> read32 (write32 m a v) b = read32 m b.
Proof.
  intros H. unfold read32, write32. rewrite !getb_setb.
  by repeat (case_decide; try lia).
Qed.

Lemma getb_write32_ne m a b v :
  b < a \/ a + 4 <= b -> getb (write32 m a v) b = getb m b.
Proof.
  intros H. unfold write32. rewrite !getb_setb.
  by repeat (case_decide; try lia).
Qed.

(** The bytes of a little-endian word. *)
Lemma word_bytes b0 b1 b2 b3 :
  0 <= b0 < 2^8 -> 0 <= b1 < 2^8 -> 0 <= b2 < 2^8 -> 0 <= b3 < 2^8 ->
  let v := b0 + 2^8 * b1 + 2^16 * b2 + 2^24 * b3 in
  u8 v = b0 /\ u8 (v / 2^8) = b1 /\ u8 (v / 2^16) = b2 /\ u8 (v / 2^24) = b3.
Proof.
  intros H0 H1 H2 H3 v. unfold u8. repeat split.
  - symmetry. apply (Z.mod_unique v (2^8) (b1 + 2^8 * b2 + 2^16 * b3)); unfold v; lia.
  - assert (v / 2^8 = b1 + 2^8 * b2 + 2^16 * b3) as ->
      by (symmetry; apply (Z.div_unique v (2^8) _ b0); unfold v; lia).
    symmetry. apply (Z.mod_unique _ (2^8) (b2 + 2^8 * b3)); lia.
  - assert (v / 2^16 = b2 + 2^8 * b3) as ->
      by (symmetry; apply (Z.div_unique v (2^16) _ (b0 + 2^8 * b1)); unfold v; lia).
    symmetry. apply (Z.mod_unique _ (2^8) b3); lia.
  - assert (v / 2^24 = b3) as ->
      by (symmetry; apply (Z.div_unique v (2^24) _ (b0 + 2^8 * b1 + 2^16 * b2)); unfold v; lia).
    by rewrite Z.mod_small.
Qed.

Lemma getb_write32_read32 m a m1 c b :
  getb (write32 m a (read32 m1 c)) b =
    if decide (a <= b < a + 4) then getb m1 (c + (b - a)) else getb m b.
Proof.
  pose proof (word_bytes (getb m1 c) (getb m1 (c + 1)) (getb m1 (c + 2)) (getb m1 (c + 3))
    (getb_range _ _) (getb_range _ _) (getb_range _ _) (getb_range _ _)) as (E0 & E1 & E2 & E3).
  fold (read32 m1 c) in *. case_decide as H; [|apply getb_write32_ne; lia].
  unfold write32. rewrite !getb_setb, E0, E1, E2, E3.
  repeat case_decide; try lia; f_equal; lia.
Qed.

Lemma getb_fill m a c n b :
  getb (fill m a c n) b = if decide (a <= b < a + Z.of_nat n) then u8 c else getb m b.
Proof.
  revert m a. induction n as [|n IH]; intros m a; simpl.
  - case_decide; [lia|done].
  - rewrite IH, getb_setb. repeat (case_decide; try lia); done.
Qed.

Lemma read32_ext m m' a :
  (forall b, a <= b < a + 4 -> getb m b = getb m' b) -> read32 m a = read32 m' a.
Proof. intros H. unfold read32. rewrite !H by lia. done. Qed.

Lemma read32_fill_zero m a n b :
  a <= b -> b + 4 <= a + Z.of_nat n -> read32 (fill m a 0 n) b = 0.
Proof.
  intros H1 H2. unfold read32. rewrite !getb_fill.
  by repeat (case_decide; try lia).
Qed.

Lemma read32_fill_ne m a c n b :
  b + 4 <= a \/ a + Z.of_nat n <= b -> read32 (fill m a c n) b = read32 m b.
Proof.
  intros H. apply read32_ext. intros x Hx. rewrite getb_fill.
  case_decide; [lia|done].
Qed.

Lemma length_bytes_at m a n : length (bytes_at m a n) = n.
Proof. revert a. induction n; intros; simpl; auto. Qed.

Lemma bytes_at_lookup m a n i :
  (i < n)%nat -> bytes_at m a n !! i = Some (getb m (a + Z.of_nat i)).
Proof.
  revert a i. induction n as [|n IH]; intros a i Hi; [lia|].
  destruct i as [|i]; simpl.
  - do 2 f_equal. lia.
  - rewrite IH by lia. do 2 f_equal. lia.
Qed.

Lemma getb_put_bytes m a l b :
  getb (put_bytes m a l) b =
    match l !! Z.to_nat (b - a) with
    | Some v => if decide (a <= b) then u8 v else getb m b
    | None => getb m b
    end.
Proof.
  revert m a. induction l as [|v l IH]; intros m a; simpl.
  - done.
  - rewrite IH, getb_setb. destruct (decide (a = b)) as [->|Hne].
    + replace (b - b) with 0 by lia. simpl.
      replace (Z.to_nat (b - (b + 1))) with 0%nat by lia.
      destruct (l !! 0%nat); repeat (case_decide; try lia); done.
    + destruct (decide (a <= b)) as [Hle|Hgt].
      * replace (Z.to_nat (b - a)) with (S (Z.to_nat (b - (a + 1)))) by lia.
        simpl. destruct (l !! _); repeat (case_decide; try lia); done.
      * replace (Z.to_nat (b - a)) with 0%nat by lia. simpl.
        destruct (l !! _); repeat (case_decide; try lia); done.
Qed.

Lemma getb_put_bytes_in m a l i v :
  l !! i = Some v -> getb (put_bytes m a l) (a + Z.of_nat i) = u8 v.
Proof.
  intros H. rewrite getb_put_bytes.
  replace (Z.to_nat (a + Z.of_nat i - a)) with i by lia.
  rewrite H. case_decide; [done|lia].
Qed.

Lemma getb_put_bytes_out m a l b :
  b < a \/ a + Z.of_nat (length l) <= b -> getb (put_bytes m a l) b = getb m b.
Proof.
  intros H. rewrite getb_put_bytes.
  destruct (l !! Z.to_nat (b - a)) eqn:E; [|done].
  apply lookup_lt_Some in E. case_decide; [lia|done].
Qed.

Lemma read32_put_bytes_out m a l b :
  b + 4 <= a \/ a + Z.of_nat (length l) <= b ->
  read32 (put_bytes m a l) b = read32 m b.
Proof.
  intros H. apply read32_ext. intros x Hx. apply getb_put_bytes_out. lia.
Qed.

(** Copying a block of bytes to another place. *)
Lemma getb_copy m dst src n b :
  getb (put_bytes m dst (bytes_at m src n)) b =
    if decide (dst <= b < dst + Z.of_nat n) then getb m (src + (b - dst)) else getb m b.
Proof.
  case_decide as H.
  - rewrite getb_put_bytes, bytes_at_lookup by lia.
    replace (src + Z.of_nat (Z.to_nat (b - dst))) with (src + (b - dst)) by lia.
    case_decide; [|lia]. apply u8_idemp.
  - apply getb_put_bytes_out. rewrite length_bytes_at. lia.
Qed.

Lemma read32_copy m dst src n b :
  dst <= b -> b + 4 <= dst + Z.of_nat n ->
  read32 (put_bytes m dst (bytes_at m src n)) b = read32 m (src + (b - dst)).
Proof.
  intros H1 H2. unfold read32. rewrite !getb_copy.
  repeat (case_decide; try lia).
  replace (src + (b + 1 - dst)) with (src + (b - dst) + 1) by lia.
  replace (src + (b + 2 - dst)) with (src + (b - dst) + 2) by lia.
  by replace (src + (b + 3 - dst)) with (src + (b - dst) + 3) by lia.
Qed.

(** ** Words of a page *)

Definition word (m : gmap Z Z) (p i : Z) : Z := read32 m (p * 4096 + 4 * i).

Lemma word_range m p i : 0 <= word m p i < 2^32.
Proof. apply read32_range. Qed.

Lemma word_write_eq m p i v :
  word (write32 m (p * 4096 + 4 * i) v) p i = u32 v.
Proof. apply read32_write32_eq. Qed.

Lemma word_write_ne m p i q j v :
  0 <= i < 1024 -> 0 <= j < 1024 -> (p, i) <> (q, j) ->
  word (write32 m (p * 4096 + 4 * i) v) q j = word m q j.
Proof.
  intros Hi Hj Hne. apply read32_write32_ne.
  destruct (decide (p = q)) as [->|]; [|lia].
  assert (i <> j) by congruence. lia.
Qed.

Lemma word_fill_eq m p i :
  0 <= i < 1024 -> word (fill m (p * 4096) 0 (Z.to_nat 4096)) p i = 0.
Proof. intros Hi. apply read32_fill_zero; lia. Qed.

Lemma word_fill_ne m p c q i :
  p <> q -> 0 <= i < 1024 ->
  word (fill m (p * 4096) c (Z.to_nat 4096)) q i = word m q i.
Proof. intros Hne Hi. apply read32_fill_ne. lia. Qed.

Create HintDb mem discriminated.
Create Rewrite HintDb mem.
#[export] Hint Rewrite getb_setb_eq read32_write32_eq length_bytes_at : mem.
#[export] Hint Resolve read32_range getb_range u32_range : mem.
#[global] Opaque fill put_bytes bytes_at.
