(* ===== verification/LibString.v ===== *)
(** * lib/string.c of lab6-net

    The routines run on byte memory.  A loop that only a terminating zero byte
    stops takes its bound as the argument [fuel]; the theorems say that any
    bound beyond the string is enough. *)
From S2P Require Import Prelude Mem.

Definition B := M (gmap Z Z).
Definition ld (a : Z) : B Z := gets (fun m => getb m a).
Definition st (a b : Z) : B unit := modify (fun m => setb m a b).
Definition ld32 (a : Z) : B Z := gets (fun m => read32 m a).
Definition st32 (a v : Z) : B unit := modify (fun m => write32 m a v).

(** ** Strings *)

Definition strlen (fuel : nat) (s : Z) : B Z :=
  loop fuel (fun st => let '(s, n) := st in
    let! c := ld s in
    if c =? 0 then ret (inr n) else ret (inl (s + 1, n + 1))) (s, 0).

Definition strnlen (s size : Z) : B Z :=
  loop (S (Z.to_nat size)) (fun st => let '(s, size, n) := st in
    if 0 <? size then
      let! c := ld s in
      if c =? 0 then ret (inr n) else ret (inl (s + 1, size - 1, n + 1))
    else ret (inr n)) (s, size, 0).

Definition strcpy (fuel : nat) (dst src : Z) : B Z :=
  loop fuel (fun p => let '(d, s) := p in
    let! c := ld s in
    st d c ;;;
    if c =? 0 then ret (inr tt) else ret (inl (d + 1, s + 1))) (dst, src) ;;;
  ret dst.

Definition strcat (fuel : nat) (dst src : Z) : B Z :=
  let! len := strlen fuel dst in
  strcpy fuel (dst + len) src ;;;
  ret dst.

Definition strncpy (dst src size : Z) : B Z :=
  loop (S (Z.to_nat size)) (fun p => let '(i, d, s) := p in
    if i <? size then
      let! c := ld s in
      st d c ;;;
      let! c' := ld s in
      ret (inl (i + 1, d + 1, if c' =? 0 then s else s + 1))
    else ret (inr tt)) (0, dst, src) ;;;
  ret dst.

Definition strlcpy (dst src size : Z) : B Z :=
  if 0 <? size then
    let! d := loop (S (Z.to_nat size)) (fun p => let '(size, d, s) := p in
      let size' := size - 1 in
      if 0 <? size' then
        let! c := ld s in
        if c =? 0 then ret (inr d)
        else st d c ;;; ret (inl (size', d + 1, s + 1))
      else ret (inr d)) (size, dst, src) in
    st d 0 ;;;
    ret (d - dst)
  else ret 0.

Definition strcmp (fuel : nat) (p q : Z) : B Z :=
  loop fuel (fun pq => let '(p, q) := pq in
    let! a := ld p in
    let! b := ld q in
    if negb (a =? 0) && (a =? b) then ret (inl (p + 1, q + 1))
    else ret (inr (a - b))) (p, q).

Definition strncmp (p q n : Z) : B Z :=
  loop (S (Z.to_nat n)) (fun st => let '(n, p, q) := st in
    if 0 <? n then
      let! a := ld p in
      let! b := ld q in
      if negb (a =? 0) && (a =? b) then ret (inl (n - 1, p + 1, q + 1))
      else ret (inr (a - b))
    else ret (inr 0)) (n, p, q).

(** A null pointer is [None]. *)
Definition strchr (fuel : nat) (s c : Z) : B (option Z) :=
  loop fuel (fun s =>
    let! x := ld s in
    if x =? 0 then ret (inr None)
    else if x =? c then ret (inr (Some s)) else ret (inl (s + 1))) s.

Definition strfind (fuel : nat) (s c : Z) : B Z :=
  loop fuel (fun s =>
    let! x := ld s in
    if x =? 0 then ret (inr s)
    else if x =? c then ret (inr s) else ret (inl (s + 1))) s.

(** ** Memory

    The routines of the [#if ASM] branch, the one that is compiled: [rep stos]
    and [rep movs] run upwards or downwards in bytes or words. *)

Definition aligned (x : Z) : bool := x `mod` 4 =? 0.

Definition rep_stosb (d c n : Z) : B unit :=
  for_ (seqZ 0 n) (fun i => st (d + i) (u8 c)).
Definition rep_stosl (d c n : Z) : B unit :=
  for_ (seqZ 0 n) (fun i => st32 (d + 4 * i) c).

Definition memset (v c n : Z) : B Z :=
  if n =? 0 then ret v
  else if aligned v && aligned n then
    let c := Z.land c 0xFF in
    let c := Z.lor (Z.lor (Z.lor (Z.shiftl c 24) (Z.shiftl c 16)) (Z.shiftl c 8)) c in
    rep_stosl v c (n / 4) ;;; ret v
  else rep_stosb v c n ;;; ret v.

Definition movsb (d s : Z) : B unit := let! b := ld s in st d b.
Definition movsl (d s : Z) : B unit := let! w := ld32 s in st32 d w.

Definition rep_movsb (d s n : Z) : B unit :=
  for_ (seqZ 0 n) (fun i => movsb (d + i) (s + i)).
Definition rep_movsl (d s n : Z) : B unit :=
  for_ (seqZ 0 n) (fun i => movsl (d + 4 * i) (s + 4 * i)).
Definition std_rep_movsb (d s n : Z) : B unit :=
  for_ (seqZ 0 n) (fun i => movsb (d - i) (s - i)).
Definition std_rep_movsl (d s n : Z) : B unit :=
  for_ (seqZ 0 n) (fun i => movsl (d - 4 * i) (s - 4 * i)).

Definition memmove (dst src n : Z) : B Z :=
  (if (src <? dst) && (dst <? src + n) then
     let s := src + n in
     let d := dst + n in
     if aligned s && aligned d && aligned n
     then std_rep_movsl (d - 4) (s - 4) (n / 4)
     else std_rep_movsb (d - 1) (s - 1) n
   else if aligned src && aligned dst && aligned n
   then rep_movsl dst src (n / 4)
   else rep_movsb dst src n) ;;;
  ret dst.

Definition memcpy (dst src n : Z) : B Z := memmove dst src n.

Definition memcmp (v1 v2 n : Z) : B Z :=
  loop (S (Z.to_nat n)) (fun st => let '(n, s1, s2) := st in
    if 0 <? n then
      let! a := ld s1 in
      let! b := ld s2 in
      if negb (a =? b) then ret (inr (a - b))
      else ret (inl (n - 1, s1 + 1, s2 + 1))
    else ret (inr 0)) (n, v1, v2).

Definition memfind (s c n : Z) : B Z :=
  let ends := s + n in
  loop (S (Z.to_nat n)) (fun s =>
    if s <? ends then
      let! x := ld s in
      if x =? u8 c then ret (inr s) else ret (inl (s + 1))
    else ret (inr s)) s.

(** ** Numbers *)

(** The value of a digit character, if it is one. *)
Definition digit (c : Z) : option Z :=
  if (48 <=? c) && (c <=? 57) then Some (c - 48)
  else if (97 <=? c) && (c <=? 122) then Some (c - 97 + 10)
  else if (65 <=? c) && (c <=? 90) then Some (c - 65 + 10)
  else None.

(** Returns the value and [*endptr]; [long] is 32 bits and wraps. *)
Definition strtol (fuel : nat) (s base : Z) : B (Z * Z) :=
  let! s := loop fuel (fun s =>
    let! c := ld s in
    if (c =? 32) || (c =? 9) then ret (inl (s + 1)) else ret (inr s)) s in
  let! c := ld s in
  let '(s, neg) :=
    if c =? 43 then (s + 1, false) else if c =? 45 then (s + 1, true) else (s, false) in
  let! c0 := ld s in
  let! c1 := ld (s + 1) in
  let '(s, base) :=
    if ((base =? 0) || (base =? 16)) && ((c0 =? 48) && (c1 =? 120)) then (s + 2, 16)
    else if (base =? 0) && (c0 =? 48) then (s + 1, 8)
    else if base =? 0 then (s, 10) else (s, base) in
  let! r := loop fuel (fun st => let '(s, val) := st in
    let! c := ld s in
    match digit c with
    | None => ret (inr (s, val))
    | Some dig =>
        if base <=? dig then ret (inr (s, val))
        else ret (inl (s + 1, s32 (val * base + dig)))
    end) (s, 0) in
  let '(s, val) := r in
  ret (if neg then s32 (- val) else val, s).
