(* ===== verification/LibStringThms.v ===== *)
(** * What the routines of lib/string.c compute *)
From S2P Require Import Prelude Mem LibString.

(** ** memmove *)

(** [m'] is [m] with the bytes [lo, hi) of the destination already moved. *)
Definition moved (m : gmap Z Z) (d s lo hi : Z) (m' : gmap Z Z) : Prop :=
  forall b, getb m' b =
    if decide (d + lo <= b < d + hi) then getb m (s + (b - d)) else getb m b.

Lemma moved_empty m d s k : moved m d s k k m.
Proof. intros b. by rewrite decide_False by lia. Qed.

(** One more chunk of [w] bytes at offset [o], read from bytes that have not
    been overwritten yet. *)
Lemma moved_step m d s lo hi lo' hi' o w m1 m2 :
  moved m d s lo hi m1 -> lo <= hi -> 0 < w ->
  (forall b, getb m2 b =
     if decide (d + o <= b < d + o + w) then getb m1 (s + o + (b - (d + o))) else getb m1 b) ->
  (s + o + w <= d + lo \/ d + hi <= s + o) ->
  (o = hi /\ lo' = lo /\ hi' = hi + w \/ o + w = lo /\ lo' = o /\ hi' = hi) ->
  moved m d s lo' hi' m2.
Proof.
  intros H1 Hle Hw H2 Hdis Ho b. rewrite H2.
  destruct (decide (d + o <= b < d + o + w)) as [Hb|Hb].
  - rewrite H1, decide_False by lia. rewrite decide_True by lia. f_equal. lia.
  - rewrite H1. destruct (decide (d + lo <= b < d + hi)).
    + by rewrite decide_True by lia.
    + by rewrite decide_False by lia.
Qed.

Lemma movsb_ok m d s :
  wp (movsb d s) (fun _ m' => forall b, getb m' b =
    if decide (d <= b < d + 1) then getb m (s + (b - d)) else getb m b) m.
Proof.
  unfold wp, movsb, ld, st. wp_steps. intros b. rewrite getb_setb.
  destruct (decide (d = b)) as [->|].
  - rewrite decide_True by lia. unfold getb. rewrite u8_idemp. do 3 f_equal. lia.
  - by rewrite decide_False by lia.
Qed.

Lemma movsl_ok m d s :
  wp (movsl d s) (fun _ m' => forall b, getb m' b =
    if decide (d <= b < d + 4) then getb m (s + (b - d)) else getb m b) m.
Proof. unfold wp, movsl, ld32, st32. wp_steps. intros b. apply getb_write32_read32. Qed.

(** Upwards in steps of [w]. *)
Lemma rep_up_ok (f : Z -> Z -> B unit) w m d s n :
  (forall m d s, wp (f d s) (fun _ m' => forall b, getb m' b =
     if decide (d <= b < d + w) then getb m (s + (b - d)) else getb m b) m) ->
  0 < w -> 0 <= n -> d <= s \/ s + w * n <= d ->
  wp (for_ (seqZ 0 n) (fun i => f (d + w * i) (s + w * i)))
     (fun _ m' => moved m d s 0 (w * n) m') m.
Proof.
  intros Hf Hw Hn Hdis. apply (wp_for_seq _ (fun i => moved m d s 0 (w * i))); [done| |].
  { rewrite Z.mul_0_r. apply moved_empty. }
  intros i m1 Hi Hm. eapply wp_mono; [apply Hf|]. intros [] m2 H2.
  eapply (moved_step m d s 0 (w * i) _ _ (w * i) w); [done|nia|done|exact H2|nia|left].
  split; [done|]. split; [done|]. lia.
Qed.

(** Downwards from the end in steps of [w]. *)
Lemma rep_down_ok (f : Z -> Z -> B unit) w m d s n :
  (forall m d s, wp (f d s) (fun _ m' => forall b, getb m' b =
     if decide (d <= b < d + w) then getb m (s + (b - d)) else getb m b) m) ->
  0 < w -> 0 <= n -> s < d ->
  wp (for_ (seqZ 0 n) (fun i => f (d + w * n - w - w * i) (s + w * n - w - w * i)))
     (fun _ m' => moved m d s 0 (w * n) m') m.
Proof.
  intros Hf Hw Hn Hlt.
  eapply wp_mono; [apply (wp_for_seq _ (fun i => moved m d s (w * n - w * i) (w * n))); [done| |]|].
  - rewrite Z.mul_0_r, Z.sub_0_r. apply moved_empty.
  - intros i m1 Hi Hm. eapply wp_mono; [apply Hf|]. intros [] m2 H2.
    eapply (moved_step m d s (w * n - w * i) (w * n) _ _ (w * n - w - w * i) w);
      [done|nia|done| |nia|right].
    + intros b. rewrite H2.
      replace (d + (w * n - w - w * i)) with (d + w * n - w - w * i) by lia.
      replace (s + (w * n - w - w * i)) with (s + w * n - w - w * i) by lia. done.
    + split; [lia|]. split; [lia|done].
  - intros [] m'. by rewrite Z.sub_diag.
Qed.

Lemma aligned_mul x : aligned x = true -> 4 * (x / 4) = x.
Proof. unfold aligned. rewrite Z.eqb_eq. intros H. pose proof (Z.div_mod x 4). lia. Qed.

Lemma memmove_ok m dst src n :
  0 <= n -> wp (memmove dst src n) (fun r m' => r = dst /\ moved m dst src 0 n m') m.
Proof.
  intros Hn. unfold wp, memmove. wp_steps.
  eapply wp_wpe with (Q := fun _ m' => moved m dst src 0 n m'); [|intros [] m' H; by wp_steps].
  destruct ((src <? dst) && (dst <? src + n)) eqn:Hov.
  - apply andb_true_iff in Hov as [Hlt%Z.ltb_lt _].
    destruct (aligned (src + n) && aligned (dst + n) && aligned n) eqn:Ha.
    + apply andb_true_iff in Ha as [_ Ha]. apply aligned_mul in Ha as Hn4.
      pose proof (rep_down_ok movsl 4 m dst src (n / 4) movsl_ok ltac:(lia)
        ltac:(apply Z.div_pos; lia) Hlt) as H. rewrite Hn4 in H. exact H.
    + pose proof (rep_down_ok movsb 1 m dst src n movsb_ok ltac:(lia) Hn Hlt) as H.
      rewrite Z.mul_1_l in H. unfold std_rep_movsb.
      erewrite for_ext; [exact H|]. intros i. cbn beta. by rewrite Z.mul_1_l.
  - assert (dst <= src \/ src + n <= dst) as Hdis.
    { apply andb_false_iff in Hov as [?%Z.ltb_ge|?%Z.ltb_ge]; lia. }
    destruct (aligned src && aligned dst && aligned n) eqn:Ha.
    + apply andb_true_iff in Ha as [_ Ha]. apply aligned_mul in Ha as Hn4.
      pose proof (rep_up_ok movsl 4 m dst src (n / 4) movsl_ok ltac:(lia)
        ltac:(apply Z.div_pos; lia) ltac:(lia)) as H. rewrite Hn4 in H. exact H.
    + pose proof (rep_up_ok movsb 1 m dst src n movsb_ok ltac:(lia) Hn ltac:(lia)) as H.
      rewrite Z.mul_1_l in H. unfold rep_movsb.
      erewrite for_ext; [exact H|]. intros i. cbn beta. by rewrite Z.mul_1_l.
Qed.

(** C35: memmove moves [n] bytes correctly for every overlap of the two ranges,
    in each of its four code paths (upwards or downwards, bytes or words):
    afterwards the destination holds what the source held before, and every
    other byte is unchanged. *)
Theorem memmove_spec m dst src n :
  0 <= n ->
  wp (memmove dst src n) (fun r m' => r = dst /\ forall b, getb m' b =
    if decide (dst <= b < dst + n) then getb m (src + (b - dst)) else getb m b) m.
Proof.
  intros Hn. eapply wp_mono; [by apply memmove_ok|]. intros r m' [-> H]. split; [done|].
  intros b. rewrite H. by rewrite Z.add_0_r.
Qed.

Lemma memmove_spec_witness :
  wp (memmove 102 100 5) (fun r m' => r = 102 /\ forall b, getb m' b =
    if decide (102 <= b < 102 + 5) then getb (put_bytes ∅ 100 [1; 2; 3; 4; 5]) (100 + (b - 102))
    else getb (put_bytes ∅ 100 [1; 2; 3; 4; 5]) b) (put_bytes ∅ 100 [1; 2; 3; 4; 5]).
Proof. apply (memmove_spec _ 102 100 5). lia. Defined.

(** ** memset *)

Definition filled (m : gmap Z Z) (d c hi : Z) (m' : gmap Z Z) : Prop :=
  forall b, getb m' b = if decide (d <= b < d + hi) then u8 c else getb m b.

(** The byte [c] four times. *)
Lemma splat_ok c :
  let b := Z.land c 0xFF in
  Z.lor (Z.lor (Z.lor (Z.shiftl b 24) (Z.shiftl b 16)) (Z.shiftl b 8)) b
    = u8 c + 2^8 * u8 c + 2^16 * u8 c + 2^24 * u8 c.
Proof.
  intros b. assert (b = u8 c) as -> by (unfold b, u8; change 0xFF with (Z.ones 8); by rewrite Z.land_ones).
  pose proof (u8_range c). rewrite !Z.shiftl_mul_pow2 by lia.
  rewrite (lor_mul_low 24) by lia.
  replace (u8 c * 2^24 + u8 c * 2^16) with ((u8 c * 2^8 + u8 c) * 2^16) by lia.
  rewrite (lor_mul_low 16) by lia.
  replace ((u8 c * 2^8 + u8 c) * 2^16 + u8 c * 2^8) with ((u8 c * 2^16 + u8 c * 2^8 + u8 c) * 2^8) by lia.
  rewrite (lor_mul_low 8) by lia. lia.
Qed.

Lemma getb_write32_splat m a c b :
  getb (write32 m a (u8 c + 2^8 * u8 c + 2^16 * u8 c + 2^24 * u8 c)) b =
    if decide (a <= b < a + 4) then u8 c else getb m b.
Proof.
  pose proof (word_bytes (u8 c) (u8 c) (u8 c) (u8 c) (u8_range c) (u8_range c) (u8_range c)
    (u8_range c)) as (E0 & E1 & E2 & E3).
  unfold write32. rewrite !getb_setb, E0, E1, E2, E3. repeat case_decide; try lia; done.
Qed.

Lemma filled_step m d c hi w m1 m2 :
  filled m d c hi m1 -> 0 <= hi -> 0 < w ->
  (forall b, getb m2 b = if decide (d + hi <= b < d + hi + w) then u8 c else getb m1 b) ->
  filled m d c (hi + w) m2.
Proof.
  intros H1 Hh Hw H2 b. rewrite H2, H1. repeat case_decide; try done; lia.
Qed.

Lemma memset_ok m v c n :
  0 <= n ->
  wp (memset v c n) (fun r m' => r = v /\ forall b, getb m' b =
    if decide (v <= b < v + n) then u8 c else getb m b) m.
Proof.
  intros Hn. unfold wp, memset. destruct (Z.eqb_spec n 0) as [->|Hne].
  { wp_steps. split; [done|]. intros b. by rewrite decide_False by lia. }
  assert (filled m v c 0 m) as H0 by (intros b; by rewrite decide_False by lia).
  destruct (aligned v && aligned n) eqn:Ha; wp_steps.
  - apply andb_true_iff in Ha as [_ Ha%aligned_mul]. rewrite splat_ok.
    eapply wp_wpe; [apply (wp_for_seq _ (fun i => filled m v c (4 * i)));
      [apply Z.div_pos; lia|done|]|].
    + intros i m1 Hi H1. unfold wp, st32. wp_steps.
      replace (4 * (i + 1)) with (4 * i + 4) by lia.
      eapply filled_step; [exact H1|lia|lia|]. intros b. apply getb_write32_splat.
    + intros [] m' H. wp_steps. rewrite Ha in H. done.
  - eapply wp_wpe; [apply (wp_for_seq _ (fun i => filled m v c i)); [done|done|]|].
    + intros i m1 Hi H1. unfold wp, st. wp_steps. eapply filled_step; [exact H1|lia|lia|].
      intros b. rewrite getb_setb, u8_idemp. repeat case_decide; try done; lia.
    + intros [] m' H. by wp_steps.
Qed.

(** memset sets exactly the bytes [v, v+n) to the low byte of [c], whether
    it stores words or bytes. *)
Theorem memset_spec m v c n :
  0 <= n ->
  wp (memset v c n) (fun r m' => r = v /\ forall b, getb m' b =
    if decide (v <= b < v + n) then u8 c else getb m b) m.
Proof. apply memset_ok. Qed.

Lemma memset_spec_witness :
  wp (memset 100 0x141 8) (fun r m' => r = 100 /\ forall b, getb m' b =
    if decide (100 <= b < 100 + 8) then u8 0x141 else getb ∅ b) ∅.
Proof. apply (memset_spec ∅ 100 0x141 8). lia. Defined.

(** ** Strings *)

(** A zero-terminated string at [a]. *)
Definition cstr (m : gmap Z Z) (a : Z) (l : list Z) : Prop :=
  (forall i c, l !! i = Some c -> getb m (a + Z.of_nat i) = c /\ c <> 0) /\
  getb m (a + Z.of_nat (length l)) = 0.

Lemma cstr_nil m a : cstr m a [] -> getb m a = 0.
Proof. intros [_ H]. simpl in H. by rewrite Z.add_0_r in H. Qed.

Lemma cstr_cons m a c l : cstr m a (c :: l) -> getb m a = c /\ c <> 0 /\ cstr m (a + 1) l.
Proof.
  intros [H H0]. destruct (H O c eq_refl) as [H1 H2]. rewrite Z.add_0_r in H1.
  split; [done|]. split; [done|]. split.
  - intros i x Hx. specialize (H (S i) x Hx).
    by replace (a + 1 + Z.of_nat i) with (a + Z.of_nat (S i)) by lia.
  - by replace (a + 1 + Z.of_nat (length l)) with (a + Z.of_nat (length (c :: l))) by (simpl; lia).
Qed.

Lemma cstr_ext m m' a l :
  cstr m a l -> (forall b, a <= b <= a + Z.of_nat (length l) -> getb m' b = getb m b) ->
  cstr m' a l.
Proof.
  intros [H H0] He. split.
  - intros i c Hi. pose proof (lookup_lt_Some _ _ _ Hi). rewrite He by lia. by apply H.
  - by rewrite He by lia.
Qed.

Lemma strlen_loop m l : forall a n fuel,
  cstr m a l -> (length l < fuel)%nat ->
  wp (loop fuel (fun st => let '(s, n) := st in
        let! c := ld s in
        if c =? 0 then ret (inr n) else ret (inl (s + 1, n + 1))) (a, n))
     (fun r m' => r = n + Z.of_nat (length l) /\ m' = m) m.
Proof.
  induction l as [|c l IH]; intros a n fuel Hs Hf; destruct fuel as [|fuel]; simpl in Hf; try lia;
    unfold wp; simpl loop; unfold ld; wp_steps.
  - rewrite (cstr_nil _ _ Hs). wp_steps. simpl. split; [lia|done].
  - apply cstr_cons in Hs as (-> & Hc & Hs). destruct (Z.eqb_spec c 0); [done|]. wp_steps.
    eapply wp_mono; [apply (IH (a + 1) (n + 1) fuel Hs); lia|].
    intros r m' [-> ->]. simpl. split; [lia|done].
Qed.

(** strlen returns the number of bytes before the terminating zero. *)
Lemma strlen_ok m a l fuel :
  cstr m a l -> (length l < fuel)%nat ->
  wp (strlen fuel a) (fun r m' => r = Z.of_nat (length l) /\ m' = m) m.
Proof. intros Hs Hf. by apply (strlen_loop m l a 0). Qed.

(** ** strlcpy *)

(** [m'] is [m] with [l] stored from [a] and a zero after it. *)
Definition stored (m : gmap Z Z) (a : Z) (l : list Z) (m' : gmap Z Z) : Prop :=
  forall b, getb m' b =
    if decide (a <= b <= a + Z.of_nat (length l))
    then default 0 (l !! Z.to_nat (b - a)) else getb m b.

Lemma stored_nil m a : stored m a [] (setb m a 0).
Proof.
  intros b. rewrite getb_setb. simpl.
  repeat case_decide; try lia; done.
Qed.

Lemma stored_cons m a c l m' :
  0 <= c < 2^8 -> stored (setb m a c) (a + 1) l m' -> stored m a (c :: l) m'.
Proof.
  intros Hc H b. rewrite H, getb_setb. simpl length.
  destruct (decide (b = a)) as [->|Hne].
  - rewrite decide_False by lia. rewrite !decide_True by lia.
    rewrite Z.sub_diag. simpl. unfold u8. by rewrite Z.mod_small.
  - rewrite (decide_False (P := a = b)) by congruence.
    destruct (decide (a + 1 <= b <= a + 1 + Z.of_nat (length l))).
    + rewrite decide_True by lia.
      replace (Z.to_nat (b - a)) with (S (Z.to_nat (b - (a + 1)))) by lia. done.
    + by rewrite decide_False by lia.
Qed.

(** The loop and the final zero. *)
Lemma strlcpy_loop l : forall m size d s fuel,
  cstr m s l -> 0 < size -> (Z.to_nat size <= fuel)%nat ->
  d + size <= s \/ s + Z.of_nat (length l) < d ->
  wp (let! e := loop fuel (fun p => let '(size, d, s) := p in
        let size' := size - 1 in
        if 0 <? size' then
          let! c := ld s in
          if c =? 0 then ret (inr d)
          else st d c ;;; ret (inl (size', d + 1, s + 1))
        else ret (inr d)) (size, d, s) in
      st e 0 ;;; ret e)
     (fun r m' => r = d + Z.of_nat (length (take (Z.to_nat (size - 1)) l)) /\
        stored m d (take (Z.to_nat (size - 1)) l) m') m.
Proof.
  induction l as [|c l IH]; intros m size d s fuel Hs Hsz Hf Hdis;
    destruct fuel as [|fuel]; try lia; unfold wp; apply wpe_bind; simpl loop; unfold ld, st; wp_steps.
  - rewrite take_nil. simpl length.
    destruct (0 <? size - 1); wp_steps; [rewrite (cstr_nil _ _ Hs); wp_steps|];
      (split; [lia|apply stored_nil]).
  - destruct (Z.ltb_spec 0 (size - 1)) as [Hlt|Hge]; wp_steps.
    2:{ replace (Z.to_nat (size - 1)) with O by lia. simpl. split; [lia|apply stored_nil]. }
    pose proof (getb_range m s) as Hrg. pose proof Hs as (Hc & Hc0 & Hs')%cstr_cons.
    rewrite Hc in *. destruct (Z.eqb_spec c 0); [done|]. wp_steps.
    simpl length in Hdis.
    assert (cstr (setb m d c) (s + 1) l) as Hs2.
    { eapply cstr_ext; [exact Hs'|]. intros b Hb. apply getb_setb_ne. lia. }
    specialize (IH (setb m d c) (size - 1) (d + 1) (s + 1) fuel Hs2 ltac:(lia) ltac:(lia) ltac:(lia)).
    apply wpe_bind_inv in IH. eapply wpe_mono; [exact IH| |done].
    intros e m1 H. eapply wpe_mono; [exact H| |done]. intros r m' [-> Hst].
    replace (Z.to_nat (size - 1)) with (S (Z.to_nat (size - 1 - 1))) by lia. simpl.
    split; [lia|]. by apply stored_cons.
Qed.

(** Strlcpy copies at most [size - 1] characters of the source string,
    always terminates the destination with a zero byte inside the buffer,
    writes nothing else and returns the number of characters it copied; a
    buffer of size 0 is not touched. *)
Theorem strlcpy_spec m dst src size l :
  cstr m src l -> 0 <= size -> dst + size <= src \/ src + Z.of_nat (length l) < dst ->
  wp (strlcpy dst src size) (fun r m' =>
    if decide (size = 0) then r = 0 /\ m' = m
    else r = Z.min (Z.of_nat (length l)) (size - 1) /\
         stored m dst (take (Z.to_nat (size - 1)) l) m') m.
Proof.
  intros Hs Hsz Hdis. unfold wp, strlcpy. destruct (decide (size = 0)) as [->|Hne].
  { by wp_steps. }
  destruct (Z.ltb_spec 0 size) as [Hp|Hp]; [|lia]. apply wpe_bind.
  pose proof (strlcpy_loop l m size dst src (S (Z.to_nat size)) Hs ltac:(lia) ltac:(lia) Hdis) as H.
  apply wpe_bind_inv in H. eapply wpe_mono; [exact H| |done]. clear H.
  intros e m1 H. unfold st in *. wp_steps. unfold wpe in H. simpl in H.
  destruct H as [-> Hst]. split; [|exact Hst]. rewrite length_take. lia.
Qed.

Lemma strlcpy_spec_witness :
  wp (strlcpy 200 100 3) (fun r m' =>
    if decide (3 = 0) then r = 0 /\ m' = put_bytes ∅ 100 [65; 66; 67; 68; 0]
    else r = Z.min (Z.of_nat (length [65; 66; 67; 68])) (3 - 1) /\
         stored (put_bytes ∅ 100 [65; 66; 67; 68; 0]) 200
                (take (Z.to_nat (3 - 1)) [65; 66; 67; 68]) m') (put_bytes ∅ 100 [65; 66; 67; 68; 0]).
Proof.
  apply (strlcpy_spec _ 200 100 3); [|lia|simpl; lia]. split; [|by vm_compute].
  intros i c Hi. do 4 (destruct i as [|i]; [injection Hi as <-; by vm_compute|]).
  discriminate.
Defined.

(** ** strcmp *)

(** The difference of the first characters that differ, the terminating zero
    included. *)
Fixpoint diff (l1 l2 : list Z) : Z :=
  match l1, l2 with
  | [], [] => 0
  | [], b :: _ => - b
  | a :: _, [] => a
  | a :: l1', b :: l2' => if a =? b then diff l1' l2' else a - b
  end.

(** Lexicographic order. *)
Fixpoint lex_lt (l1 l2 : list Z) : bool :=
  match l1, l2 with
  | _, [] => false
  | [], _ :: _ => true
  | a :: l1', b :: l2' => (a <? b) || ((a =? b) && lex_lt l1' l2')
  end.

Lemma diff_lex l1 : forall l2,
  Forall (fun c => 0 < c) l1 -> Forall (fun c => 0 < c) l2 ->
  (diff l1 l2 = 0 <-> l1 = l2) /\ (diff l1 l2 < 0 <-> lex_lt l1 l2 = true).
Proof.
  induction l1 as [|a l1 IH]; intros [|b l2] H1 H2; simpl; [done| | |].
  - apply Forall_cons in H2 as [Hb _]. split; split; try done; lia.
  - apply Forall_cons in H1 as [Ha _]. split; split; try done; lia.
  - apply Forall_cons in H1 as [Ha H1]. apply Forall_cons in H2 as [Hb H2].
    destruct (IH l2 H1 H2) as [E L]. destruct (Z.eqb_spec a b) as [->|Hne].
    + rewrite E, L. split; [split; congruence|].
      destruct (Z.ltb_spec b b); [lia|]. done.
    + simpl. rewrite orb_false_r, Z.ltb_lt. split; split; try lia. congruence.
Qed.

Lemma cstr_pos m a l : cstr m a l -> Forall (fun c => 0 < c) l.
Proof.
  intros [H _]. apply Forall_lookup. intros i c Hi. destruct (H i c Hi) as [<- ?].
  pose proof (getb_range m (a + Z.of_nat i)). lia.
Qed.

Lemma strcmp_ok m l1 : forall l2 p q fuel,
  cstr m p l1 -> cstr m q l2 -> (length l1 < fuel)%nat ->
  wp (strcmp fuel p q) (fun r m' => r = diff l1 l2 /\ m' = m) m.
Proof.
  induction l1 as [|a l1 IH]; intros l2 p q fuel H1 H2 Hf; destruct fuel as [|fuel];
    simpl in Hf; try lia; unfold wp, strcmp; simpl loop; unfold ld; wp_steps.
  - rewrite (cstr_nil _ _ H1). simpl. wp_steps. split; [|done].
    destruct l2 as [|b l2]; [by rewrite (cstr_nil _ _ H2)|].
    apply cstr_cons in H2 as (-> & _). simpl. lia.
  - apply cstr_cons in H1 as (-> & Ha & H1). destruct (Z.eqb_spec a 0); [done|]. simpl.
    destruct l2 as [|b l2].
    + rewrite (cstr_nil _ _ H2). destruct (Z.eqb_spec a 0); [done|]. wp_steps. split; [lia|done].
    + apply cstr_cons in H2 as (-> & Hb & H2). destruct (Z.eqb_spec a b); wp_steps; [|done].
      apply (IH l2 (p + 1) (q + 1) fuel H1 H2). lia.
Qed.

(** strcmp returns 0 iff the strings are equal and a negative number iff
    the first is smaller in lexicographic order of unsigned bytes. *)
Theorem strcmp_spec m l1 l2 p q fuel :
  cstr m p l1 -> cstr m q l2 -> (length l1 < fuel)%nat ->
  wp (strcmp fuel p q) (fun r m' => m' = m /\ (r = 0 <-> l1 = l2) /\
    (r < 0 <-> lex_lt l1 l2 = true)) m.
Proof.
  intros H1 H2 Hf. eapply wp_mono; [by apply (strcmp_ok m l1 l2)|]. intros r m' [-> ->].
  split; [done|]. by apply diff_lex; eapply cstr_pos.
Qed.

Lemma strcmp_spec_witness :
  wp (strcmp 3 100 200) (fun r m' => m' = put_bytes (put_bytes ∅ 100 [65; 66; 0]) 200 [65; 200; 0] /\
    (r = 0 <-> [65; 66] = [65; 200]) /\ (r < 0 <-> lex_lt [65; 66] [65; 200] = true))
    (put_bytes (put_bytes ∅ 100 [65; 66; 0]) 200 [65; 200; 0]).
Proof.
  apply (strcmp_spec _ [65; 66] [65; 200]); [| |simpl; lia].
  - split; [|by vm_compute]. intros i c Hi.
    do 2 (destruct i as [|i]; [injection Hi as <-; by vm_compute|]). discriminate.
  - split; [|by vm_compute]. intros i c Hi.
    do 2 (destruct i as [|i]; [injection Hi as <-; by vm_compute|]). discriminate.
Defined.

(** ** strtol *)

(** The bytes [l] at [a]. *)
Definition text (m : gmap Z Z) (a : Z) (l : list Z) : Prop :=
  forall i c, l !! i = Some c -> getb m (a + Z.of_nat i) = c.

Lemma text_cons m a c l : text m a (c :: l) <-> getb m a = c /\ text m (a + 1) l.
Proof.
  split.
  - intros H. split; [rewrite <- (H O c eq_refl); f_equal; lia|].
    intros i x Hx. rewrite <- (H (S i) x Hx). f_equal. lia.
  - intros [H1 H2] [|i] x Hx; simpl in Hx; [injection Hx as <-; rewrite <- H1; f_equal; lia|].
    rewrite <- (H2 i x Hx). f_equal. lia.
Qed.

Lemma text_app m a l1 l2 :
  text m a (l1 ++ l2) -> text m a l1 /\ text m (a + Z.of_nat (length l1)) l2.
Proof.
  revert a. induction l1 as [|c l1 IH]; intros a H; simpl in *.
  - split; [by intros i c Hi|]. by rewrite Z.add_0_r.
  - apply text_cons in H as [H1 H2]. apply IH in H2 as [H2 H3].
    split; [by apply text_cons|].
    by replace (a + Z.of_nat (S (length l1))) with (a + 1 + Z.of_nat (length l1)) by lia.
Qed.

Definition number (base : Z) (v : Z) (ds : list Z) : Z :=
  fold_left (fun v d => v * base + d) ds v.

Lemma s32_eq a b : a `mod` 2^32 = b `mod` 2^32 -> s32 a = s32 b.
Proof. unfold s32, u32. by intros ->. Qed.

Lemma s32_mod a : (s32 a) `mod` 2^32 = a `mod` 2^32.
Proof.
  unfold s32, u32. case_match; [by rewrite Z.mod_mod|].
  replace (a `mod` 2^32 - 2^32) with (a `mod` 2^32 + (-1) * 2^32) by lia.
  rewrite Z.mod_add by lia. by rewrite Z.mod_mod.
Qed.

Lemma s32_mul_add a b c : s32 (s32 a * b + c) = s32 (a * b + c).
Proof.
  apply s32_eq. rewrite Z.add_mod, Z.mul_mod, s32_mod by lia.
  by rewrite <- Z.mul_mod, <- Z.add_mod by lia.
Qed.

Lemma s32_opp a : s32 (- s32 a) = s32 (- a).
Proof.
  apply s32_eq. replace (- s32 a) with (s32 a * -1) by lia. replace (- a) with (a * -1) by lia.
  rewrite Z.mul_mod, s32_mod by lia. by rewrite <- Z.mul_mod by lia.
Qed.

(** [c] is not a digit in this base. *)
Definition stops (base c : Z) : Prop :=
  match digit c with None => True | Some d => base <= d end.

Lemma digits_loop m base cs ds : forall a v fuel e,
  Forall2 (fun c d => digit c = Some d /\ d < base) cs ds -> stops base e ->
  text m a (cs ++ [e]) -> (length cs < fuel)%nat ->
  wp (loop fuel (fun st => let '(s, val) := st in
        let! c := ld s in
        match digit c with
        | None => ret (inr (s, val))
        | Some dig =>
            if base <=? dig then ret (inr (s, val))
            else ret (inl (s + 1, s32 (val * base + dig)))
        end) (a, s32 v))
     (fun r m' => r = (a + Z.of_nat (length cs), s32 (number base v ds)) /\ m' = m) m.
Proof.
  revert ds. induction cs as [|c cs IH]; intros ds a v fuel e H2 He Ht Hf;
    destruct fuel as [|fuel]; simpl in Hf; try lia; unfold wp; simpl loop; unfold ld; wp_steps;
    apply text_cons in Ht as [Hc Ht]; rewrite Hc.
  - apply Forall2_nil_inv_l in H2 as ->. unfold stops in He. simpl. rewrite Z.add_0_r.
    destruct (digit e) as [d|]; [destruct (Z.leb_spec base d); [|lia]|]; by wp_steps.
  - apply Forall2_cons_inv_l in H2 as (d & ds' & [Hd Hlt] & H2 & ->). rewrite Hd.
    destruct (Z.leb_spec base d); [lia|]. wp_steps. rewrite s32_mul_add.
    eapply wp_mono; [apply (IH ds' (a + 1) (v * base + d) fuel e H2 He Ht); lia|].
    intros r m' [-> ->]. split; [|done]. f_equal. simpl. lia.
Qed.

Lemma blanks_loop m ws : forall a fuel e,
  Forall (fun c => c = 32 \/ c = 9) ws -> e <> 32 -> e <> 9 ->
  text m a (ws ++ [e]) -> (length ws < fuel)%nat ->
  wp (loop fuel (fun s =>
        let! c := ld s in
        if (c =? 32) || (c =? 9) then ret (inl (s + 1)) else ret (inr s)) a)
     (fun r m' => r = a + Z.of_nat (length ws) /\ m' = m) m.
Proof.
  induction ws as [|c ws IH]; intros a fuel e Hw H32 H9 Ht Hf; destruct fuel as [|fuel];
    simpl in Hf; try lia; unfold wp; simpl loop; unfold ld; wp_steps;
    apply text_cons in Ht as [Hc Ht]; rewrite Hc.
  - destruct (Z.eqb_spec e 32), (Z.eqb_spec e 9); try done. simpl. wp_steps. split; [lia|done].
  - apply Forall_cons in Hw as [Hcw Hw].
    assert ((c =? 32) || (c =? 9) = true) as -> by (destruct Hcw as [->| ->]; done). wp_steps.
    eapply wp_mono; [apply (IH (a + 1) fuel e Hw H32 H9 Ht); lia|].
    intros r m' [-> ->]. simpl. split; [lia|done].
Qed.

Lemma digit_not_sign c d : digit c = Some d -> c <> 32 /\ c <> 9 /\ c <> 43 /\ c <> 45.
Proof. intros H. repeat split; intros ->; by vm_compute in H. Qed.

(** The sign character as written. *)
Definition sign_text (neg : option bool) : list Z :=
  match neg with None => [] | Some false => [43] | Some true => [45] end.

Lemma strtol_ok m a base ws neg cs ds e fuel :
  2 <= base <= 36 -> base <> 16 -> cs <> [] ->
  Forall (fun c => c = 32 \/ c = 9) ws ->
  Forall2 (fun c d => digit c = Some d /\ d < base) cs ds -> stops base e ->
  text m a (ws ++ sign_text neg ++ cs ++ [e]) -> (length ws + length cs < fuel)%nat ->
  wp (strtol fuel a base) (fun r m' => m' = m /\
    r = (s32 ((if bool_decide (neg = Some true) then -1 else 1) * number base 0 ds),
         a + Z.of_nat (length ws + length (sign_text neg) + length cs))) m.
Proof.
  intros Hb H16 Hcs Hws H2 He Ht Hf.
  destruct cs as [|c cs]; [done|]. pose proof H2 as (d & ds' & [Hd _] & _)%Forall2_cons_inv_l.
  destruct (digit_not_sign c d Hd) as (Hc32 & Hc9 & Hc43 & Hc45).
  pose proof (text_app _ _ _ _ Ht) as [_ Ht2]. apply text_app in Ht2 as [Hsg Hds].
  assert (exists x rest, sign_text neg ++ (c :: cs) ++ [e] = x :: rest /\ x <> 32 /\ x <> 9) as
    (x & rest & Hx & Hx32 & Hx9).
  { destruct neg as [[]|]; by eexists _, _. }
  rewrite Hx in Ht. unfold wp, strtol. wp_steps.
  eapply wp_wpe; [apply (blanks_loop m ws a fuel x); [done|done|done| |simpl in Hf; lia]|].
  { replace (ws ++ x :: rest) with ((ws ++ [x]) ++ rest) in Ht by (by rewrite <- app_assoc).
    by apply text_app in Ht as [Ht _]. }
  intros s1 m1 [-> ->]. unfold ld at 1. wp_steps.
  set (b := a + Z.of_nat (length ws)) in *.
  assert ((if getb m b =? 43 then (b + 1, false) else if getb m b =? 45 then (b + 1, true) else (b, false))
    = (b + Z.of_nat (length (sign_text neg)), bool_decide (neg = Some true))) as ->.
  { destruct neg as [[]|]; simpl in *.
    - apply text_cons in Hsg as [-> _]. done.
    - apply text_cons in Hsg as [-> _]. done.
    - rewrite Z.add_0_r in *. apply text_cons in Hds as [-> _].
      destruct (Z.eqb_spec c 43), (Z.eqb_spec c 45); done. }
  set (b' := b + Z.of_nat (length (sign_text neg))) in *. unfold ld at 1 2. wp_steps.
  destruct (Z.eqb_spec base 0); [lia|]. destruct (Z.eqb_spec base 16); [lia|]. simpl orb. cbn [andb].
  wp_steps. change 0 with (s32 0) at 1.
  eapply wp_wpe; [apply (digits_loop m base (c :: cs) ds b' 0 fuel e); [done|done|done|lia]|].
  intros [s2 v] m2 [[= -> ->] ->]. wp_steps. split; [done|]. f_equal.
  - case_bool_decide; [rewrite s32_opp; f_equal; lia|]. f_equal. lia.
  - unfold b', b. simpl length. lia.
Qed.

(** Strtol in an explicit base other than 16: after blanks and an optional
    sign it reads the longest run of digits, returns their value (reduced to a
    signed 32-bit integer) and the address of the first character it did not
    use. *)
Theorem strtol_spec m a base ws neg cs ds e fuel :
  2 <= base <= 36 -> base <> 16 -> cs <> [] ->
  Forall (fun c => c = 32 \/ c = 9) ws ->
  Forall2 (fun c d => digit c = Some d /\ d < base) cs ds -> stops base e ->
  text m a (ws ++ sign_text neg ++ cs ++ [e]) -> (length ws + length cs < fuel)%nat ->
  wp (strtol fuel a base) (fun r m' => m' = m /\
    r = (s32 ((if bool_decide (neg = Some true) then -1 else 1) * number base 0 ds),
         a + Z.of_nat (length ws + length (sign_text neg) + length cs))) m.
Proof. apply strtol_ok. Qed.

Lemma strtol_spec_witness :
  wp (strtol 10 100 10) (fun r m' => m' = put_bytes ∅ 100 [32; 45; 52; 50; 46] /\
    r = (s32 ((if bool_decide (Some true = Some true) then -1 else 1) * number 10 0 [4; 2]),
         100 + Z.of_nat (length [32] + length (sign_text (Some true)) + length [52; 50])))
    (put_bytes ∅ 100 [32; 45; 52; 50; 46]).
Proof.
  apply (strtol_spec _ 100 10 [32] (Some true) [52; 50] [4; 2] 46); try lia; try done.
  - repeat constructor.
  - repeat constructor; lia.
  - intros i c Hi. do 5 (destruct i as [|i]; [injection Hi as <-; by vm_compute|]). discriminate.
  - simpl. lia.
Defined.
