(* ===== verification/Mmu.v ===== *)
(** * x86 address arithmetic of JOS

    The macros of inc/mmu.h, inc/memlayout.h and inc/types.h, on 32-bit
    addresses kept as [Z] in [0, 2^32). *)
From S2P Require Import Prelude.

(** ** inc/mmu.h *)
Definition PGSIZE : Z := 4096.
Definition PGSHIFT : Z := 12.
Definition PTXSHIFT : Z := 12.
Definition PDXSHIFT : Z := 22.
Definition NPTENTRIES : Z := 1024.
Definition NPDENTRIES : Z := 1024.
Definition PTSIZE : Z := PGSIZE * NPTENTRIES.

Definition PGNUM (la : Z) : Z := Z.shiftr la PTXSHIFT.
Definition PDX (la : Z) : Z := Z.land (Z.shiftr la PDXSHIFT) 0x3FF.
Definition PTX (la : Z) : Z := Z.land (Z.shiftr la PTXSHIFT) 0x3FF.
Definition PGOFF (la : Z) : Z := Z.land la 0xFFF.
Definition PGADDR (d t o : Z) : Z :=
  u32 (Z.lor (Z.lor (Z.shiftl d PDXSHIFT) (Z.shiftl t PTXSHIFT)) o).

Definition PTE_P : Z := 0x001.
Definition PTE_W : Z := 0x002.
Definition PTE_U : Z := 0x004.
Definition PTE_PWT : Z := 0x008.
Definition PTE_PCD : Z := 0x010.
Definition PTE_D : Z := 0x040.
Definition PTE_AVAIL : Z := 0xE00.
Definition PTE_SYSCALL : Z := Z.lor (Z.lor (Z.lor PTE_AVAIL PTE_P) PTE_W) PTE_U.
Definition PTE_ADDR (pte : Z) : Z := Z.land pte (Z.lxor 0xFFFFFFFF 0xFFF).

Definition FL_IF : Z := 0x200.
Definition FL_IOPL_MASK : Z := 0x3000.

(** ** inc/memlayout.h *)
Definition KERNBASE : Z := 0xF0000000.
Definition IOPHYSMEM : Z := 0x0A0000.
Definition EXTPHYSMEM : Z := 0x100000.
Definition KSTACKTOP : Z := KERNBASE.
Definition KSTKSIZE : Z := 8 * PGSIZE.
Definition KSTKGAP : Z := 8 * PGSIZE.
Definition MMIOLIM : Z := KSTACKTOP - PTSIZE.
Definition MMIOBASE : Z := MMIOLIM - PTSIZE.
Definition ULIM : Z := MMIOBASE.
Definition UVPT : Z := ULIM - PTSIZE.
Definition UPAGES : Z := UVPT - PTSIZE.
Definition UENVS : Z := UPAGES - PTSIZE.
Definition UTOP : Z := UENVS.
Definition UXSTACKTOP : Z := UTOP.
Definition USTACKTOP : Z := UTOP - 2 * PGSIZE.
Definition MPENTRY_PADDR : Z := 0x7000.

(** Segment selectors. *)
Definition GD_KT : Z := 0x08.
Definition GD_UT : Z := 0x18.
Definition GD_UD : Z := 0x20.

(** ** inc/types.h *)
Definition ROUNDDOWN (a n : Z) : Z := u32 a - u32 a `mod` n.
Definition ROUNDUP (a n : Z) : Z := ROUNDDOWN (u32 (u32 a + n - 1)) n.

(** ** inc/error.h *)
Definition E_UNSPECIFIED : Z := 1.
Definition E_BAD_ENV : Z := 2.
Definition E_INVAL : Z := 3.
Definition E_NO_MEM : Z := 4.
Definition E_NO_FREE_ENV : Z := 5.
Definition E_FAULT : Z := 6.
Definition E_IPC_NOT_RECV : Z := 7.
Definition E_EOF : Z := 8.
Definition E_NO_DISK : Z := 9.
Definition E_MAX_OPEN : Z := 10.
Definition E_NOT_FOUND : Z := 11.
Definition E_BAD_PATH : Z := 12.
Definition E_FILE_EXISTS : Z := 13.

(** ** Arithmetic facts *)

Lemma PGNUM_div la : PGNUM la = la / 4096.
Proof. unfold PGNUM, PTXSHIFT. rewrite Z.shiftr_div_pow2 by lia. done. Qed.

Lemma land_3FF x : Z.land x 0x3FF = x `mod` 1024.
Proof. change 0x3FF with (Z.ones 10). rewrite Z.land_ones by lia. done. Qed.

Lemma land_FFF x : Z.land x 0xFFF = x `mod` 4096.
Proof. change 0xFFF with (Z.ones 12). rewrite Z.land_ones by lia. done. Qed.

Lemma PDX_div la : PDX la = (la / 2^22) `mod` 1024.
Proof.
  unfold PDX, PDXSHIFT. rewrite land_3FF, Z.shiftr_div_pow2 by lia. done.
Qed.

Lemma PTX_div la : PTX la = (la / 4096) `mod` 1024.
Proof.
  unfold PTX, PTXSHIFT. rewrite land_3FF, Z.shiftr_div_pow2 by lia. done.
Qed.

Lemma PGOFF_mod la : PGOFF la = la `mod` 4096.
Proof. apply land_FFF. Qed.

Lemma PDX_range la : 0 <= PDX la < 1024.
Proof. rewrite PDX_div. apply Z.mod_pos_bound. lia. Qed.

Lemma PTX_range la : 0 <= PTX la < 1024.
Proof. rewrite PTX_div. apply Z.mod_pos_bound. lia. Qed.

(** The page number of a user address from its two indices. *)
Lemma PGNUM_split la : 0 <= la < 2^32 -> PGNUM la = PDX la * 1024 + PTX la.
Proof.
  intros H. rewrite PGNUM_div, PDX_div, PTX_div.
  change (2^22) with (4096 * 1024). rewrite <- Z.div_div by lia.
  pose proof (Z.div_mod (la / 4096) 1024 ltac:(lia)).
  rewrite (Z.mod_small (la / 4096 / 1024)); [lia|].
  split; [apply Z.div_pos; [apply Z.div_pos|]; lia|].
  do 2 (apply Z.div_lt_upper_bound; [lia|]). lia.
Qed.

Lemma PDX_small la : 0 <= la < 2^32 -> PDX la = la / 2^22.
Proof.
  intros H. rewrite PDX_div. apply Z.mod_small.
  split; [apply Z.div_pos; lia|apply Z.div_lt_upper_bound; lia].
Qed.

Lemma PTE_ADDR_spec pte :
  0 <= pte < 2^32 -> PTE_ADDR pte = PGNUM pte * 4096.
Proof.
  intros H. unfold PTE_ADDR.
  change (Z.lxor 0xFFFFFFFF 0xFFF) with (Z.shiftl (Z.ones 20) 12).
  rewrite PGNUM_div. apply Z.bits_inj'. intros n Hn.
  rewrite Z.land_spec, Z.shiftl_spec by lia.
  change 4096 with (2^12). rewrite <- Z.shiftl_mul_pow2, <- Z.shiftr_div_pow2 by lia.
  rewrite Z.shiftl_spec by lia.
  destruct (Z_lt_le_dec n 12) as [Hlt|Hge].
  - rewrite !(Z.testbit_neg_r _ (n - 12)) by lia. by rewrite andb_false_r.
  - rewrite Z.shiftr_spec by lia. replace (n - 12 + 12) with n by lia.
    destruct (Z_lt_le_dec (n - 12) 20) as [Hl|Hg].
    + rewrite Z.ones_spec_low by lia. by rewrite andb_true_r.
    + rewrite Z.ones_spec_high by lia. rewrite andb_false_r.
      symmetry. rewrite <- (Z.mod_small pte (2^32)) by lia.
      apply Z.mod_pow2_bits_high. lia.
Qed.

Lemma PGNUM_page p : PGNUM (p * 4096) = p.
Proof. rewrite PGNUM_div. apply Z.div_mul. lia. Qed.

Lemma PGNUM_range la : 0 <= la < 2^32 -> 0 <= PGNUM la < 2^20.
Proof.
  intros H. rewrite PGNUM_div. split; [apply Z.div_pos; lia|].
  apply Z.div_lt_upper_bound; lia.
Qed.

Lemma ROUNDDOWN_range a n : 0 < n -> 0 <= ROUNDDOWN a n <= u32 a.
Proof.
  intros Hn. unfold ROUNDDOWN. pose proof (u32_range a).
  pose proof (Z.mod_pos_bound (u32 a) n Hn). split; [|lia].
  pose proof (Z.mod_le (u32 a) n). lia.
Qed.

Lemma ROUNDDOWN_pg a : ROUNDDOWN a 4096 = u32 a / 4096 * 4096.
Proof.
  unfold ROUNDDOWN. pose proof (Z.div_mod (u32 a) 4096 ltac:(lia)). lia.
Qed.

Lemma land_page_low p m : 0 <= m < 4096 -> Z.land (p * 4096) m = 0.
Proof. apply (land_mul_low 12). lia. Qed.

(** A page-aligned address ORed with flag bits is their sum. *)
Lemma lor_page_flags p f :
  0 <= f < 4096 -> Z.lor (p * 4096) f = p * 4096 + f.
Proof. apply (lor_mul_low 12). lia. Qed.

Lemma PGNUM_flags p f : 0 <= f < 4096 -> PGNUM (p * 4096 + f) = p.
Proof.
  intros Hf. rewrite PGNUM_div, Z.div_add_l by lia. rewrite Z.div_small; lia.
Qed.

Lemma lor_range a b n : 0 <= n -> 0 <= a < 2^n -> 0 <= b < 2^n -> 0 <= Z.lor a b < 2^n.
Proof.
  intros Hn Ha Hb. split; [apply Z.lor_nonneg; lia|].
  destruct (Z.eq_dec (Z.lor a b) 0) as [->|Hne]; [lia|].
  apply Z.log2_lt_pow2; [pose proof (Z.lor_nonneg a b); lia|].
  rewrite Z.log2_lor by lia.
  destruct (Z.eq_dec a 0) as [->|]; destruct (Z.eq_dec b 0) as [->|];
    [by rewrite Z.lor_0_l in Hne| | |];
    rewrite ?Z.max_lt_iff; apply Z.max_lub_lt;
    try (apply Z.log2_lt_pow2; lia);
    change (Z.log2 0) with 0;
    try (apply Z.le_lt_trans with (Z.log2 a); [apply Z.log2_nonneg|apply Z.log2_lt_pow2; lia]);
    try (apply Z.le_lt_trans with (Z.log2 b); [apply Z.log2_nonneg|apply Z.log2_lt_pow2; lia]).
Qed.

(** Tests on single flag bits survive the page frame address. *)
Lemma land_page_flags p f m :
  0 <= m < 4096 -> 0 <= f < 4096 -> Z.land (p * 4096 + f) m = Z.land f m.
Proof.
  intros Hm Hf. rewrite <- lor_page_flags by done.
  rewrite Z.land_lor_distr_l.
  rewrite land_page_low by done.
  apply Z.lor_0_l.
Qed.
