(* ===== verification/Kstate.v ===== *)
(** * The state of the JOS kernel (lab6-net)

    Physical memory is a byte map; the kernel's own C objects (the [pages]
    and [envs] arrays, the list heads, the static variables of pmap.c and
    env.c) are fields of one record.  A pointer into [pages] or [envs] is the
    index of the element, a null pointer is [None], and a kernel virtual
    address is a [Z] that [KERNBASE] relates to the physical one, which is
    the mapping mem_init sets up.  The record is what one CPU sees while it
    holds the big kernel lock; [cur_env] is [thiscpu->cpu_env]. *)
From S2P Require Import Prelude Mem Mmu.

(** struct PageInfo of inc/memlayout.h; [pp_ref] is a uint16_t. *)
Record PageInfo := mkPage { pp_link : option Z; pp_ref : Z }.

(** struct PushRegs and struct Trapframe of inc/trap.h. *)
Record PushRegs := mkRegs {
  reg_edi : Z; reg_esi : Z; reg_ebp : Z; reg_oesp : Z;
  reg_ebx : Z; reg_edx : Z; reg_ecx : Z; reg_eax : Z }.

Record Trapframe := mkTf {
  tf_regs : PushRegs; tf_es : Z; tf_ds : Z; tf_trapno : Z; tf_err : Z;
  tf_eip : Z; tf_cs : Z; tf_eflags : Z; tf_esp : Z; tf_ss : Z }.

Definition zero_regs : PushRegs := mkRegs 0 0 0 0 0 0 0 0.
Definition zero_tf : Trapframe := mkTf zero_regs 0 0 0 0 0 0 0 0 0.

Inductive env_stat :=
  ENV_FREE | ENV_DYING | ENV_RUNNABLE | ENV_RUNNING | ENV_NOT_RUNNABLE.
Inductive EnvType := ENV_TYPE_USER | ENV_TYPE_FS | ENV_TYPE_NS.

#[export] Instance env_stat_eq_dec : EqDecision env_stat.
Proof. solve_decision. Defined.
#[export] Instance EnvType_eq_dec : EqDecision EnvType.
Proof. solve_decision. Defined.

(** struct Env of inc/env.h.  [env_pgdir] is a kernel virtual address. *)
Record Env := mkEnv {
  env_tf : Trapframe; env_link : option Z; env_id : Z; env_parent_id : Z;
  env_type : EnvType; env_status : env_stat; env_runs : Z; env_cpunum : Z;
  env_pgdir : Z; env_pgfault_upcall : Z;
  env_ipc_recving : bool; env_ipc_dstva : Z; env_ipc_value : Z;
  env_ipc_from : Z; env_ipc_perm : Z }.

Definition LOG2NENV : Z := 10.
Definition NENV : Z := 1024.
Definition ENVX (envid : Z) : Z := Z.land envid (NENV - 1).
Definition ENVGENSHIFT : Z := 12.

Definition zero_env : Env :=
  mkEnv zero_tf None 0 0 ENV_TYPE_USER ENV_FREE 0 0 0 0 false 0 0 0 0.

(** The input buffer of kern/console.c. *)
Definition CONSBUFSIZE : Z := 512.
Record Console := mkCons { cons_buf : gmap Z Z; cons_rpos : Z; cons_wpos : Z }.

(** The descriptor rings and packet buffers of kern/e1000.c.  The tail
    registers are device registers; the descriptors are shared with the
    device.  The packet buffers are one array of bytes each, as in C. *)
Record tx_desc := mkTx { td_length : Z; td_cmd : Z; td_status : Z }.
Record rx_desc := mkRx { rd_length : Z; rd_status : Z; rd_errors : Z }.
Record Nic := mkNic {
  tdt : Z; tx_desc_array : gmap Z tx_desc; tx_buffer_array : gmap Z Z;
  rdt : Z; rx_next : Z; rx_desc_array : gmap Z rx_desc; rx_buffer_array : gmap Z Z }.

Inductive cpu_stat := CPU_UNUSED | CPU_STARTED | CPU_HALTED.

Record kst := mkK {
  mem : gmap Z Z;                 (* physical memory, byte by byte *)
  npages : Z;
  npages_basemem : Z;
  pages : gmap Z PageInfo;
  page_free_list : option Z;
  kern_pgdir : Z;
  nextfree : Z;                   (* static in boot_alloc *)
  mmio_base : Z;                  (* static in mmio_map_region *)
  user_mem_check_addr : Z;
  envs : gmap Z Env;
  env_free_list : option Z;
  cur_env : option Z;
  cpu_num : Z;
  cpu_status : cpu_stat;
  kernel_lock : bool;
  cr3 : Z;                        (* physical address of the live directory *)
  invlpgs : list Z;               (* addresses flushed from the TLB, last first *)
  ticks : Z;
  cons : Console;
  nic : Nic }.

Definition K := M kst.

(** Field updates. *)
Definition set_mem v s :=
  mkK v (npages s) (npages_basemem s) (pages s) (page_free_list s)
      (kern_pgdir s) (nextfree s) (mmio_base s) (user_mem_check_addr s)
      (envs s) (env_free_list s) (cur_env s) (cpu_num s) (cpu_status s)
      (kernel_lock s) (cr3 s) (invlpgs s) (ticks s) (cons s) (nic s).
Definition set_npages v s :=
  mkK (mem s) v (npages_basemem s) (pages s) (page_free_list s)
      (kern_pgdir s) (nextfree s) (mmio_base s) (user_mem_check_addr s)
      (envs s) (env_free_list s) (cur_env s) (cpu_num s) (cpu_status s)
      (kernel_lock s) (cr3 s) (invlpgs s) (ticks s) (cons s) (nic s).
Definition set_npages_basemem v s :=
  mkK (mem s) (npages s) v (pages s) (page_free_list s) (kern_pgdir s)
      (nextfree s) (mmio_base s) (user_mem_check_addr s) (envs s)
      (env_free_list s) (cur_env s) (cpu_num s) (cpu_status s)
      (kernel_lock s) (cr3 s) (invlpgs s) (ticks s) (cons s) (nic s).
Definition set_pages v s :=
  mkK (mem s) (npages s) (npages_basemem s) v (page_free_list s)
      (kern_pgdir s) (nextfree s) (mmio_base s) (user_mem_check_addr s)
      (envs s) (env_free_list s) (cur_env s) (cpu_num s) (cpu_status s)
      (kernel_lock s) (cr3 s) (invlpgs s) (ticks s) (cons s) (nic s).
Definition set_page_free_list v s :=
  mkK (mem s) (npages s) (npages_basemem s) (pages s) v (kern_pgdir s)
      (nextfree s) (mmio_base s) (user_mem_check_addr s) (envs s)
      (env_free_list s) (cur_env s) (cpu_num s) (cpu_status s)
      (kernel_lock s) (cr3 s) (invlpgs s) (ticks s) (cons s) (nic s).
Definition set_kern_pgdir v s :=
  mkK (mem s) (npages s) (npages_basemem s) (pages s) (page_free_list s) v
      (nextfree s) (mmio_base s) (user_mem_check_addr s) (envs s)
      (env_free_list s) (cur_env s) (cpu_num s) (cpu_status s)
      (kernel_lock s) (cr3 s) (invlpgs s) (ticks s) (cons s) (nic s).
Definition set_nextfree v s :=
  mkK (mem s) (npages s) (npages_basemem s) (pages s) (page_free_list s)
      (kern_pgdir s) v (mmio_base s) (user_mem_check_addr s) (envs s)
      (env_free_list s) (cur_env s) (cpu_num s) (cpu_status s)
      (kernel_lock s) (cr3 s) (invlpgs s) (ticks s) (cons s) (nic s).
Definition set_mmio_base v s :=
  mkK (mem s) (npages s) (npages_basemem s) (pages s) (page_free_list s)
      (kern_pgdir s) (nextfree s) v (user_mem_check_addr s) (envs s)
      (env_free_list s) (cur_env s) (cpu_num s) (cpu_status s)
      (kernel_lock s) (cr3 s) (invlpgs s) (ticks s) (cons s) (nic s).
Definition set_user_mem_check_addr v s :=
  mkK (mem s) (npages s) (npages_basemem s) (pages s) (page_free_list s)
      (kern_pgdir s) (nextfree s) (mmio_base s) v (envs s) (env_free_list
      s) (cur_env s) (cpu_num s) (cpu_status s) (kernel_lock s) (cr3 s)
      (invlpgs s) (ticks s) (cons s) (nic s).
Definition set_envs v s :=
  mkK (mem s) (npages s) (npages_basemem s) (pages s) (page_free_list s)
      (kern_pgdir s) (nextfree s) (mmio_base s) (user_mem_check_addr s) v
      (env_free_list s) (cur_env s) (cpu_num s) (cpu_status s)
      (kernel_lock s) (cr3 s) (invlpgs s) (ticks s) (cons s) (nic s).
Definition set_env_free_list v s :=
  mkK (mem s) (npages s) (npages_basemem s) (pages s) (page_free_list s)
      (kern_pgdir s) (nextfree s) (mmio_base s) (user_mem_check_addr s)
      (envs s) v (cur_env s) (cpu_num s) (cpu_status s) (kernel_lock s)
      (cr3 s) (invlpgs s) (ticks s) (cons s) (nic s).
Definition set_cur_env v s :=
  mkK (mem s) (npages s) (npages_basemem s) (pages s) (page_free_list s)
      (kern_pgdir s) (nextfree s) (mmio_base s) (user_mem_check_addr s)
      (envs s) (env_free_list s) v (cpu_num s) (cpu_status s) (kernel_lock
      s) (cr3 s) (invlpgs s) (ticks s) (cons s) (nic s).
Definition set_cpu_status v s :=
  mkK (mem s) (npages s) (npages_basemem s) (pages s) (page_free_list s)
      (kern_pgdir s) (nextfree s) (mmio_base s) (user_mem_check_addr s)
      (envs s) (env_free_list s) (cur_env s) (cpu_num s) v (kernel_lock s)
      (cr3 s) (invlpgs s) (ticks s) (cons s) (nic s).
Definition set_kernel_lock v s :=
  mkK (mem s) (npages s) (npages_basemem s) (pages s) (page_free_list s)
      (kern_pgdir s) (nextfree s) (mmio_base s) (user_mem_check_addr s)
      (envs s) (env_free_list s) (cur_env s) (cpu_num s) (cpu_status s) v
      (cr3 s) (invlpgs s) (ticks s) (cons s) (nic s).
Definition set_cr3 v s :=
  mkK (mem s) (npages s) (npages_basemem s) (pages s) (page_free_list s)
      (kern_pgdir s) (nextfree s) (mmio_base s) (user_mem_check_addr s)
      (envs s) (env_free_list s) (cur_env s) (cpu_num s) (cpu_status s)
      (kernel_lock s) v (invlpgs s) (ticks s) (cons s) (nic s).
Definition set_invlpgs v s :=
  mkK (mem s) (npages s) (npages_basemem s) (pages s) (page_free_list s)
      (kern_pgdir s) (nextfree s) (mmio_base s) (user_mem_check_addr s)
      (envs s) (env_free_list s) (cur_env s) (cpu_num s) (cpu_status s)
      (kernel_lock s) (cr3 s) v (ticks s) (cons s) (nic s).
Definition set_ticks v s :=
  mkK (mem s) (npages s) (npages_basemem s) (pages s) (page_free_list s)
      (kern_pgdir s) (nextfree s) (mmio_base s) (user_mem_check_addr s)
      (envs s) (env_free_list s) (cur_env s) (cpu_num s) (cpu_status s)
      (kernel_lock s) (cr3 s) (invlpgs s) v (cons s) (nic s).
Definition set_cons v s :=
  mkK (mem s) (npages s) (npages_basemem s) (pages s) (page_free_list s)
      (kern_pgdir s) (nextfree s) (mmio_base s) (user_mem_check_addr s)
      (envs s) (env_free_list s) (cur_env s) (cpu_num s) (cpu_status s)
      (kernel_lock s) (cr3 s) (invlpgs s) (ticks s) v (nic s).
Definition set_nic v s :=
  mkK (mem s) (npages s) (npages_basemem s) (pages s) (page_free_list s)
      (kern_pgdir s) (nextfree s) (mmio_base s) (user_mem_check_addr s)
      (envs s) (env_free_list s) (cur_env s) (cpu_num s) (cpu_status s)
      (kernel_lock s) (cr3 s) (invlpgs s) (ticks s) (cons s) v.
Definition set_env_tf v e :=
  mkEnv v (env_link e) (env_id e) (env_parent_id e) (env_type e)
      (env_status e) (env_runs e) (env_cpunum e) (env_pgdir e)
      (env_pgfault_upcall e) (env_ipc_recving e) (env_ipc_dstva e)
      (env_ipc_value e) (env_ipc_from e) (env_ipc_perm e).
Definition set_env_link v e :=
  mkEnv (env_tf e) v (env_id e) (env_parent_id e) (env_type e) (env_status
      e) (env_runs e) (env_cpunum e) (env_pgdir e) (env_pgfault_upcall e)
      (env_ipc_recving e) (env_ipc_dstva e) (env_ipc_value e)
      (env_ipc_from e) (env_ipc_perm e).
Definition set_env_id v e :=
  mkEnv (env_tf e) (env_link e) v (env_parent_id e) (env_type e)
      (env_status e) (env_runs e) (env_cpunum e) (env_pgdir e)
      (env_pgfault_upcall e) (env_ipc_recving e) (env_ipc_dstva e)
      (env_ipc_value e) (env_ipc_from e) (env_ipc_perm e).
Definition set_env_parent_id v e :=
  mkEnv (env_tf e) (env_link e) (env_id e) v (env_type e) (env_status e)
      (env_runs e) (env_cpunum e) (env_pgdir e) (env_pgfault_upcall e)
      (env_ipc_recving e) (env_ipc_dstva e) (env_ipc_value e)
      (env_ipc_from e) (env_ipc_perm e).
Definition set_env_type v e :=
  mkEnv (env_tf e) (env_link e) (env_id e) (env_parent_id e) v (env_status
      e) (env_runs e) (env_cpunum e) (env_pgdir e) (env_pgfault_upcall e)
      (env_ipc_recving e) (env_ipc_dstva e) (env_ipc_value e)
      (env_ipc_from e) (env_ipc_perm e).
Definition set_env_status v e :=
  mkEnv (env_tf e) (env_link e) (env_id e) (env_parent_id e) (env_type e)
      v (env_runs e) (env_cpunum e) (env_pgdir e) (env_pgfault_upcall e)
      (env_ipc_recving e) (env_ipc_dstva e) (env_ipc_value e)
      (env_ipc_from e) (env_ipc_perm e).
Definition set_env_runs v e :=
  mkEnv (env_tf e) (env_link e) (env_id e) (env_parent_id e) (env_type e)
      (env_status e) v (env_cpunum e) (env_pgdir e) (env_pgfault_upcall e)
      (env_ipc_recving e) (env_ipc_dstva e) (env_ipc_value e)
      (env_ipc_from e) (env_ipc_perm e).
Definition set_env_cpunum v e :=
  mkEnv (env_tf e) (env_link e) (env_id e) (env_parent_id e) (env_type e)
      (env_status e) (env_runs e) v (env_pgdir e) (env_pgfault_upcall e)
      (env_ipc_recving e) (env_ipc_dstva e) (env_ipc_value e)
      (env_ipc_from e) (env_ipc_perm e).
Definition set_env_pgdir v e :=
  mkEnv (env_tf e) (env_link e) (env_id e) (env_parent_id e) (env_type e)
      (env_status e) (env_runs e) (env_cpunum e) v (env_pgfault_upcall e)
      (env_ipc_recving e) (env_ipc_dstva e) (env_ipc_value e)
      (env_ipc_from e) (env_ipc_perm e).
Definition set_env_pgfault_upcall v e :=
  mkEnv (env_tf e) (env_link e) (env_id e) (env_parent_id e) (env_type e)
      (env_status e) (env_runs e) (env_cpunum e) (env_pgdir e) v
      (env_ipc_recving e) (env_ipc_dstva e) (env_ipc_value e)
      (env_ipc_from e) (env_ipc_perm e).
Definition set_env_ipc_recving v e :=
  mkEnv (env_tf e) (env_link e) (env_id e) (env_parent_id e) (env_type e)
      (env_status e) (env_runs e) (env_cpunum e) (env_pgdir e)
      (env_pgfault_upcall e) v (env_ipc_dstva e) (env_ipc_value e)
      (env_ipc_from e) (env_ipc_perm e).
Definition set_env_ipc_dstva v e :=
  mkEnv (env_tf e) (env_link e) (env_id e) (env_parent_id e) (env_type e)
      (env_status e) (env_runs e) (env_cpunum e) (env_pgdir e)
      (env_pgfault_upcall e) (env_ipc_recving e) v (env_ipc_value e)
      (env_ipc_from e) (env_ipc_perm e).
Definition set_env_ipc_value v e :=
  mkEnv (env_tf e) (env_link e) (env_id e) (env_parent_id e) (env_type e)
      (env_status e) (env_runs e) (env_cpunum e) (env_pgdir e)
      (env_pgfault_upcall e) (env_ipc_recving e) (env_ipc_dstva e) v
      (env_ipc_from e) (env_ipc_perm e).
Definition set_env_ipc_from v e :=
  mkEnv (env_tf e) (env_link e) (env_id e) (env_parent_id e) (env_type e)
      (env_status e) (env_runs e) (env_cpunum e) (env_pgdir e)
      (env_pgfault_upcall e) (env_ipc_recving e) (env_ipc_dstva e)
      (env_ipc_value e) v (env_ipc_perm e).
Definition set_env_ipc_perm v e :=
  mkEnv (env_tf e) (env_link e) (env_id e) (env_parent_id e) (env_type e)
      (env_status e) (env_runs e) (env_cpunum e) (env_pgdir e)
      (env_pgfault_upcall e) (env_ipc_recving e) (env_ipc_dstva e)
      (env_ipc_value e) (env_ipc_from e) v.
Definition set_tf_regs v t :=
  mkTf v (tf_es t) (tf_ds t) (tf_trapno t) (tf_err t) (tf_eip t) (tf_cs t)
      (tf_eflags t) (tf_esp t) (tf_ss t).
Definition set_tf_eip v t :=
  mkTf (tf_regs t) (tf_es t) (tf_ds t) (tf_trapno t) (tf_err t) v (tf_cs
      t) (tf_eflags t) (tf_esp t) (tf_ss t).
Definition set_tf_cs v t :=
  mkTf (tf_regs t) (tf_es t) (tf_ds t) (tf_trapno t) (tf_err t) (tf_eip t)
      v (tf_eflags t) (tf_esp t) (tf_ss t).
Definition set_tf_eflags v t :=
  mkTf (tf_regs t) (tf_es t) (tf_ds t) (tf_trapno t) (tf_err t) (tf_eip t)
      (tf_cs t) v (tf_esp t) (tf_ss t).
Definition set_tf_esp v t :=
  mkTf (tf_regs t) (tf_es t) (tf_ds t) (tf_trapno t) (tf_err t) (tf_eip t)
      (tf_cs t) (tf_eflags t) v (tf_ss t).
Definition set_reg_eax v r :=
  mkRegs (reg_edi r) (reg_esi r) (reg_ebp r) (reg_oesp r) (reg_ebx r)
      (reg_edx r) (reg_ecx r) v.

(** ** Accessors *)

Definition get_page (p : Z) : K PageInfo :=
  let! ps := gets pages in deref (ps !! p).

Definition upd_page (p : Z) (f : PageInfo -> PageInfo) : K unit :=
  let! pi := get_page p in
  modify (fun s => set_pages (<[p := f pi]> (pages s)) s).

Definition set_pp_link v pi := mkPage v (pp_ref pi).
Definition set_pp_ref v pi := mkPage (pp_link pi) v.

Definition get_env (e : Z) : K Env :=
  let! es := gets envs in deref (es !! e).

Definition upd_env (e : Z) (f : Env -> Env) : K unit :=
  let! en := get_env e in
  modify (fun s => set_envs (<[e := f en]> (envs s)) s).

(** A 32-bit access at a kernel virtual address, through the mapping of
    physical memory at KERNBASE. *)
Definition kread32 (kva : Z) : K Z :=
  if kva <? KERNBASE then undef else gets (fun s => read32 (mem s) (kva - KERNBASE)).

Definition kwrite32 (kva v : Z) : K unit :=
  if kva <? KERNBASE then undef
  else modify (fun s => set_mem (write32 (mem s) (kva - KERNBASE) v) s).

(** memset at a kernel virtual address. *)
Definition kmemset (kva c n : Z) : K unit :=
  if kva <? KERNBASE then undef
  else modify (fun s => set_mem (fill (mem s) (kva - KERNBASE) c (Z.to_nat n)) s).

(** memcpy of [n] bytes between two kernel virtual addresses that do not
    overlap. *)
Definition kmemcpy (dst src n : Z) : K unit :=
  if (dst <? KERNBASE) || (src <? KERNBASE) then undef
  else modify (fun s =>
    set_mem (put_bytes (mem s) (dst - KERNBASE)
               (bytes_at (mem s) (src - KERNBASE) (Z.to_nat n))) s).
