(* ===== verification/Pmap.v ===== *)
(** * kern/pmap.c: physical pages and page tables *)
From S2P Require Import Prelude Mem Mmu Kstate.

(** Addresses the linker chooses: the end of the kernel image and the
    per-CPU kernel stacks. *)
Class Linker := {
  k_end : Z;
  percpu_kstacks : Z -> Z }.

Definition NCPU : Z := 8.

(** ** kern/pmap.h *)

Definition PADDR (kva : Z) : K Z :=
  if kva <? KERNBASE then panic "PADDR called with invalid kva"
  else ret (kva - KERNBASE).

Definition KADDR (pa : Z) : K Z :=
  let! n := gets npages in
  if n <=? PGNUM pa then panic "KADDR called with invalid pa"
  else ret (u32 (pa + KERNBASE)).

Definition page2pa (pp : Z) : Z := u32 (Z.shiftl pp PGSHIFT).

Definition pa2page (pa : Z) : K Z :=
  let! n := gets npages in
  if n <=? PGNUM pa then panic "pa2page called with invalid pa"
  else ret (PGNUM pa).

Definition page2kva (pp : Z) : K Z := KADDR (page2pa pp).

Definition ALLOC_ZERO : Z := 1.

(** ** Detecting memory *)

Definition NVRAM_BASELO : Z := 0x0e + 7.
Definition NVRAM_EXTLO : Z := 0x0e + 9.
Definition NVRAM_EXT16LO : Z := 0x0e + 38.

Section detect.
(** The bytes of the CMOS memory, read through the RTC ports. *)
Variable mc146818_read : Z -> Z.

Definition nvram_read (r : Z) : Z :=
  Z.lor (mc146818_read r) (Z.shiftl (mc146818_read (r + 1)) 8).

Definition i386_detect_memory : K unit :=
  let basemem := nvram_read NVRAM_BASELO in
  let extmem := nvram_read NVRAM_EXTLO in
  let ext16mem := u32 (nvram_read NVRAM_EXT16LO * 64) in
  let totalmem :=
    if negb (ext16mem =? 0) then u32 (16 * 1024 + ext16mem)
    else if negb (extmem =? 0) then u32 (1 * 1024 + extmem)
    else basemem in
  modify (set_npages (totalmem / (PGSIZE / 1024))) ;;;
  modify (set_npages_basemem (basemem / (PGSIZE / 1024))).
End detect.

(** ** The boot-time allocator *)

Definition boot_alloc `{Linker} (n : Z) : K Z :=
  let! nf0 := gets nextfree in
  (if nf0 =? 0 then modify (set_nextfree (ROUNDUP k_end PGSIZE)) else ret tt) ;;;
  let! nf := gets nextfree in
  if n =? 0 then ret nf
  else
    let n' := ROUNDUP n PGSIZE in
    modify (set_nextfree (u32 (nf + n'))) ;;;
    ret nf.

(** ** The page allocator *)

Definition page_init_body (basemem extendedFree i : Z) : K unit :=
  upd_page i (set_pp_ref 0) ;;;
  if (i =? 0) || ((basemem <=? i) && (i <? extendedFree))
     || (i =? PGNUM MPENTRY_PADDR)
  then upd_page i (set_pp_link None)
  else
    let! fl := gets page_free_list in
    upd_page i (set_pp_link fl) ;;;
    modify (set_page_free_list (Some i)).

Definition page_init `{Linker} : K unit :=
  let! fl := gets page_free_list in
  assert_ (bool_decide (fl = None)) "!page_free_list" ;;;
  let! ef := boot_alloc 0 in
  let! pa := PADDR ef in
  let extendedFree := PGNUM pa in
  let! n := gets npages in
  let! basemem := gets npages_basemem in
  for_ (seqZ 0 n) (page_init_body basemem extendedFree).

Definition page_alloc (alloc_flags : Z) : K (option Z) :=
  let! fl := gets page_free_list in
  match fl with
  | None => ret None
  | Some r =>
      let! pi := get_page r in
      modify (set_page_free_list (pp_link pi)) ;;;
      upd_page r (set_pp_link None) ;;;
      (if flag alloc_flags ALLOC_ZERO then
         let! kva := page2kva r in
         kmemset kva 0 PGSIZE
       else ret tt) ;;;
      ret (Some r)
  end.

Definition page_free (pp : Z) : K unit :=
  let! pi := get_page pp in
  assert_ (pp_ref pi =? 0) "!pp->pp_ref" ;;;
  assert_ (bool_decide (pp_link pi = None)) "!pp->pp_link" ;;;
  let! fl := gets page_free_list in
  upd_page pp (set_pp_link fl) ;;;
  modify (set_page_free_list (Some pp)).

Definition page_decref (pp : Z) : K unit :=
  let! pi := get_page pp in
  let r := u16 (pp_ref pi - 1) in
  upd_page pp (set_pp_ref r) ;;;
  if r =? 0 then page_free pp else ret tt.

(** [pp->pp_ref++] *)
Definition pp_incref (pp : Z) : K unit :=
  upd_page pp (fun pi => set_pp_ref (u16 (pp_ref pi + 1)) pi).

(** ** Page tables *)

Definition pgdir_walk (pgdir va : Z) (create : bool) : K (option Z) :=
  assert_ (negb (pgdir =? 0)) "pgdir" ;;;
  let pde := pgdir + 4 * PDX va in
  let! e := kread32 pde in
  let! ok :=
    (if negb (flag e PTE_P) then
       if negb create then ret false
       else
         let! page := page_alloc ALLOC_ZERO in
         match page with
         | None => ret false
         | Some pp =>
             pp_incref pp ;;;
             let! pi := get_page pp in
             assert_ (pp_ref pi =? 1) "page->pp_ref == 1" ;;;
             assert_ (bool_decide (pp_link pi = None)) "page->pp_link == NULL" ;;;
             kwrite32 pde
               (Z.lor (Z.lor (Z.lor (page2pa pp) PTE_P) PTE_U) PTE_W) ;;;
             ret true
         end
     else ret true) in
  if negb ok then ret None
  else
    let! e' := kread32 pde in
    let! pt := KADDR (PTE_ADDR e') in
    ret (Some (pt + 4 * PTX va)).

Definition boot_map_region (pgdir va size pa perm : Z) : K unit :=
  loop (Z.to_nat (size / PGSIZE + 2))
    (fun st =>
       let '(i, va, pa) := st in
       if i <? size then
         let! opte := pgdir_walk pgdir va true in
         let! pte := deref opte in
         kwrite32 pte (Z.lor (Z.lor pa perm) PTE_P) ;;;
         ret (inl (u32 (i + PGSIZE), u32 (va + PGSIZE), u32 (pa + PGSIZE)))
       else ret (inr tt))
    (0, va, pa).

Definition tlb_invalidate (pgdir va : Z) : K unit :=
  let! c := gets cur_env in
  match c with
  | None => modify (fun s => set_invlpgs (va :: invlpgs s) s)
  | Some e =>
      let! en := get_env e in
      if env_pgdir en =? pgdir
      then modify (fun s => set_invlpgs (va :: invlpgs s) s)
      else ret tt
  end.

(** Returns the page and the address of its entry ([*pte_store]). *)
Definition page_lookup (pgdir va : Z) : K (option (Z * Z)) :=
  let! opte := pgdir_walk pgdir va false in
  match opte with
  | None => ret None
  | Some pte =>
      let! e := kread32 pte in
      if negb (flag e PTE_P) then ret None
      else
        let! pp := pa2page (PTE_ADDR e) in
        ret (Some (pp, pte))
  end.

Definition page_remove (pgdir va : Z) : K unit :=
  let! r := page_lookup pgdir va in
  match r with
  | None => ret tt
  | Some (pp, pte) =>
      kwrite32 pte 0 ;;;
      page_decref pp ;;;
      tlb_invalidate pgdir va
  end.

Definition page_insert (pgdir pp va perm : Z) : K Z :=
  let! opte := pgdir_walk pgdir va true in
  match opte with
  | None => ret (- E_NO_MEM)
  | Some pte =>
      pp_incref pp ;;;
      let! e := kread32 pte in
      (if flag e PTE_P then page_remove pgdir va else ret tt) ;;;
      kwrite32 pte (Z.lor (Z.lor (page2pa pp) perm) PTE_P) ;;;
      tlb_invalidate pgdir va ;;;
      ret 0
  end.

Definition mmio_map_region (pa size : Z) : K Z :=
  let sizeUp := ROUNDUP size PGSIZE in
  let! base := gets mmio_base in
  (if u32 (MMIOLIM - base) <? sizeUp
   then panic "reservation of mmio overflow MMIOLIM!" else ret tt) ;;;
  let! kd := gets kern_pgdir in
  boot_map_region kd base sizeUp pa (Z.lor (Z.lor PTE_PCD PTE_PWT) PTE_W) ;;;
  modify (set_mmio_base (u32 (base + sizeUp))) ;;;
  let! base' := gets mmio_base in
  ret (u32 (base' - sizeUp)).

Definition mem_init_mp `{Linker} : K unit :=
  let! kd := gets kern_pgdir in
  for_ (seqZ 0 NCPU) (fun i =>
    let kstacktop_i := KSTACKTOP - i * (KSTKSIZE + KSTKGAP) in
    let! pa := PADDR (percpu_kstacks i) in
    boot_map_region kd (kstacktop_i - KSTKSIZE) KSTKSIZE pa PTE_W).

(** ** Checking user pointers *)

Definition user_mem_check_step (pgdir va perm start : Z) : K bool :=
  let! opte := pgdir_walk pgdir start false in
  let! bad :=
    (if ULIM <=? start then ret true
     else
       match opte with
       | None => ret true
       | Some pte =>
           let! e := kread32 pte in
           ret (negb (flag e PTE_P) || negb (Z.land e perm =? perm))
       end) in
  (if (bad : bool) then
     modify (set_user_mem_check_addr (if start <? va then va else start))
   else ret tt) ;;;
  ret bad.

Definition user_mem_check (e va len perm : Z) : K Z :=
  let! env := get_env e in
  let start := ROUNDDOWN va PGSIZE in
  let end_ := ROUNDUP (u32 (va + len)) PGSIZE in
  loop (S (Z.to_nat ((end_ - start) / PGSIZE + 1)))
    (fun start =>
       if start <? end_ then
         let! bad := user_mem_check_step (env_pgdir env) va perm start in
         if (bad : bool) then ret (inr (- E_FAULT))
         else ret (inl (u32 (start + PGSIZE)))
       else ret (inr 0))
    start.
