(* ===== verification/PmapRep.v ===== *)
(** * The abstract view of JOS virtual memory

    What kern/pmap.c promises its callers is stated over two finite maps: [T]
    gives for each page directory [d] and directory index [i] the page that
    holds the page table, and [M] gives for each directory and user virtual
    page number the physical page mapped there.  [pm_rep] says that the bytes
    of memory, the [pages] array and the free list represent such a view and
    that every [pp_ref] is exactly the number of references to the page. *)
From S2P Require Import Prelude Mem Mmu Kstate Pmap.

(** ** Page table entries *)

Definition present (e : Z) : bool := flag e PTE_P.

(** The page an entry refers to. *)
Definition decode (e : Z) : option Z :=
  if present e then Some (PGNUM e) else None.

(** ** Counting references *)

Definition count (m : gmap (Z * Z) Z) (p : Z) : Z :=
  Z.of_nat (size (filter (fun kv => kv.2 = p) m)).

Lemma count_nonneg m p : 0 <= count m p.
Proof. unfold count. lia. Qed.

Lemma count_insert_None m k q p :
  m !! k = None ->
  count (<[k := q]> m) p = count m p + if decide (q = p) then 1 else 0.
Proof.
  intros Hk. unfold count. case_decide as Hq.
  - rewrite map_filter_insert_True by done.
    rewrite map_size_insert_None; [lia|].
    apply map_lookup_filter_None_2. by left.
  - rewrite map_filter_insert_not' by (simpl; congruence). lia.
Qed.

Lemma count_delete m k q p :
  m !! k = Some q ->
  count (delete k m) p = count m p - if decide (q = p) then 1 else 0.
Proof.
  intros Hk.
  pose proof (count_insert_None (delete k m) k q p (lookup_delete_eq m k)) as H.
  rewrite insert_delete_id in H by done. lia.
Qed.

Lemma count_insert_Some m k q0 q p :
  m !! k = Some q0 ->
  count (<[k := q]> m) p =
    count m p - (if decide (q0 = p) then 1 else 0) + if decide (q = p) then 1 else 0.
Proof.
  intros Hk. rewrite <- insert_delete_eq, count_insert_None by apply lookup_delete_eq.
  rewrite (count_delete m k q0) by done. lia.
Qed.

Lemma count_pos m k p : m !! k = Some p -> 0 < count m p.
Proof.
  intros Hk. pose proof (count_delete m k p p Hk) as H.
  pose proof (count_nonneg (delete k m) p). case_decide; lia.
Qed.

Lemma count_zero m k p : count m p = 0 -> m !! k <> Some p.
Proof. intros H Hk. apply count_pos in Hk. lia. Qed.

(** ** The representation *)

(** Directory indices below UTOP. *)
Definition UPDX : Z := PDX UTOP.

Definition refs (ds : gset Z) (T Mp : gmap (Z * Z) Z) (p : Z) : Z :=
  count Mp p + count T p + if decide (p ∈ ds) then 1 else 0.

Record pm_rep (s : kst) (fl : list Z) (ds : gset Z) (T Mp : gmap (Z * Z) Z)
    (ex : Z -> Z) : Prop := {
  rep_np : 0 < npages s <= 2^16;
  rep_dom : forall p, is_Some (pages s !! p) <-> 0 <= p < npages s;
  rep_chain : chain pp_link (pages s) (page_free_list s) fl;
  rep_nodup : NoDup fl;
  rep_link : forall p pi, pages s !! p = Some pi -> (p ∉ fl) -> pp_link pi = None;
  rep_ref : forall p pi, pages s !! p = Some pi ->
    0 <= pp_ref pi < 2^16 /\ pp_ref pi = refs ds T Mp p + ex p;
  rep_ex : forall p, 0 <= ex p;
  rep_free : forall p, p ∈ fl -> refs ds T Mp p + ex p = 0;
  rep_ds : forall d, d ∈ ds -> 0 <= d < npages s;
  rep_T : forall d i, d ∈ ds -> 0 <= i < UPDX ->
    T !! (d, i) = decode (word (mem s) d i);
  rep_Tdom : forall d i t, T !! (d, i) = Some t ->
    d ∈ ds /\ 0 <= i < UPDX /\ 0 <= t < npages s /\ (t ∉ ds);
  rep_Tinj : forall k1 k2 t, T !! k1 = Some t -> T !! k2 = Some t -> k1 = k2;
  rep_M : forall d i t j, T !! (d, i) = Some t -> 0 <= j < 1024 ->
    Mp !! (d, i * 1024 + j) = decode (word (mem s) t j);
  rep_Mdom : forall d v p, Mp !! (d, v) = Some p ->
    is_Some (T !! (d, v / 1024)) /\ 0 <= p < npages s /\ (p ∉ ds) /\
    forall k, T !! k <> Some p;
  rep_pde : forall d i t, T !! (d, i) = Some t -> Z.land (word (mem s) d i) 7 = 7 }.

(** The fields that the page allocator and the page-table code never touch. *)
Definition pm_rest (s : kst) :=
  (npages s, npages_basemem s, kern_pgdir s, nextfree s, mmio_base s,
   user_mem_check_addr s, envs s, env_free_list s, cur_env s, cpu_num s,
   (cpu_status s, kernel_lock s, cr3 s, ticks s, cons s, nic s)).
Definition pm_frame (s s' : kst) : Prop := pm_rest s' = pm_rest s.

#[export] Instance pm_frame_refl : Reflexive pm_frame.
Proof. done. Qed.

#[export] Instance pm_frame_trans : Transitive pm_frame.
Proof. intros s1 s2 s3 H1 H2. unfold pm_frame in *. congruence. Qed.

Lemma pm_frame_npages s s' : pm_frame s s' -> npages s' = npages s.
Proof. unfold pm_frame, pm_rest. congruence. Qed.
Lemma pm_frame_envs s s' : pm_frame s s' -> envs s' = envs s.
Proof. unfold pm_frame, pm_rest. congruence. Qed.
Lemma pm_frame_env_fl s s' : pm_frame s s' -> env_free_list s' = env_free_list s.
Proof. unfold pm_frame, pm_rest. congruence. Qed.
Lemma pm_frame_kpd s s' : pm_frame s s' -> kern_pgdir s' = kern_pgdir s.
Proof. unfold pm_frame, pm_rest. congruence. Qed.
Lemma pm_frame_lock s s' : pm_frame s s' -> kernel_lock s' = kernel_lock s.
Proof. unfold pm_frame, pm_rest. congruence. Qed.
Lemma pm_frame_status s s' : pm_frame s s' -> cpu_status s' = cpu_status s.
Proof. unfold pm_frame, pm_rest. congruence. Qed.
Lemma pm_frame_cpu s s' : pm_frame s s' -> cpu_num s' = cpu_num s.
Proof. unfold pm_frame, pm_rest. congruence. Qed.
Lemma pm_frame_cr3 s s' : pm_frame s s' -> cr3 s' = cr3 s.
Proof. unfold pm_frame, pm_rest. congruence. Qed.
Lemma pm_frame_cur s s' : pm_frame s s' -> cur_env s' = cur_env s.
Proof. unfold pm_frame, pm_rest. congruence. Qed.

(** The bytes of the pages satisfying [P] are the same. *)
Definition same_bytes (P : Z -> Prop) (s s' : kst) : Prop :=
  forall q a, P q -> q * 4096 <= a < q * 4096 + 4096 ->
  getb (mem s') a = getb (mem s) a.

Lemma same_bytes_trans (P : Z -> Prop) s1 s2 s3 :
  same_bytes P s1 s2 -> same_bytes P s2 s3 -> same_bytes P s1 s3.
Proof. intros H1 H2 q a Hq Ha. rewrite (H2 q a), (H1 q a); done. Qed.

Lemma same_bytes_weaken (P Q : Z -> Prop) s1 s2 :
  same_bytes P s1 s2 -> (forall q, Q q -> P q) -> same_bytes Q s1 s2.
Proof. intros H HPQ q a Hq Ha. eapply H; eauto. Qed.

Lemma same_bytes_word P s s' q i :
  same_bytes P s s' -> P q -> 0 <= i < 1024 -> word (mem s') q i = word (mem s) q i.
Proof.
  intros H Hq Hi. apply read32_ext. intros b Hb. apply (H q); [done|lia].
Qed.

(** ** Symbolic steps on the kernel state *)

Section steps.
Implicit Types (s : kst) (E : kst -> Prop).

Lemma wpe_get_page p pi Q E s :
  pages s !! p = Some pi -> Q pi s -> wpe (get_page p) Q E s.
Proof. intros Hp HQ. unfold get_page. wp_steps. by eapply wpe_deref. Qed.

Lemma wpe_upd_page p pi f Q E s :
  pages s !! p = Some pi -> Q tt (set_pages (<[p := f pi]> (pages s)) s) ->
  wpe (upd_page p f) Q E s.
Proof.
  intros Hp HQ. unfold upd_page. wp_steps. eapply wpe_get_page; [done|].
  by wp_steps.
Qed.

Lemma wpe_get_env e en Q E s :
  envs s !! e = Some en -> Q en s -> wpe (get_env e) Q E s.
Proof. intros Hp HQ. unfold get_env. wp_steps. by eapply wpe_deref. Qed.

Lemma wpe_upd_env e en f Q E s :
  envs s !! e = Some en -> Q tt (set_envs (<[e := f en]> (envs s)) s) ->
  wpe (upd_env e f) Q E s.
Proof.
  intros Hp HQ. unfold upd_env. wp_steps. eapply wpe_get_env; [done|].
  by wp_steps.
Qed.

Lemma wpe_kread32 p i Q E s :
  0 <= p -> 0 <= i -> Q (word (mem s) p i) s ->
  wpe (kread32 (KERNBASE + p * 4096 + 4 * i)) Q E s.
Proof.
  intros Hp Hi HQ. unfold kread32.
  destruct (Z.ltb_spec (KERNBASE + p * 4096 + 4 * i) KERNBASE); [lia|].
  wp_steps. unfold word in HQ.
  by replace (KERNBASE + p * 4096 + 4 * i - KERNBASE) with (p * 4096 + 4 * i) by lia.
Qed.

Lemma wpe_kwrite32 p i v Q E s :
  0 <= p -> 0 <= i -> Q tt (set_mem (write32 (mem s) (p * 4096 + 4 * i) v) s) ->
  wpe (kwrite32 (KERNBASE + p * 4096 + 4 * i) v) Q E s.
Proof.
  intros Hp Hi HQ. unfold kwrite32.
  destruct (Z.ltb_spec (KERNBASE + p * 4096 + 4 * i) KERNBASE); [lia|].
  wp_steps.
  by replace (KERNBASE + p * 4096 + 4 * i - KERNBASE) with (p * 4096 + 4 * i) by lia.
Qed.

Lemma wpe_KADDR p Q E s :
  0 <= p < npages s -> npages s <= 2^16 -> Q (KERNBASE + p * 4096) s ->
  wpe (KADDR (p * 4096)) Q E s.
Proof.
  intros Hp Hn HQ. unfold KADDR. wp_steps. rewrite PGNUM_page.
  destruct (Z.leb_spec (npages s) p); [lia|]. wp_steps.
  unfold KERNBASE in *. rewrite u32_small by lia.
  by replace (p * 4096 + 4026531840) with (4026531840 + p * 4096) by lia.
Qed.

Lemma wpe_pa2page p Q E s :
  0 <= p < npages s -> Q p s -> wpe (pa2page (p * 4096)) Q E s.
Proof.
  intros Hp HQ. unfold pa2page. wp_steps. rewrite PGNUM_page.
  destruct (Z.leb_spec (npages s) p); [lia|]. by wp_steps.
Qed.
End steps.

Lemma page2pa_small p : 0 <= p < 2^20 -> page2pa p = p * 4096.
Proof.
  intros Hp. unfold page2pa, PGSHIFT. rewrite Z.shiftl_mul_pow2 by lia.
  change (2^12) with 4096. apply u32_small. lia.
Qed.

Lemma flag_spec x m : flag x m = true <-> Z.land x m <> 0.
Proof. unfold flag. destruct (Z.eqb_spec (Z.land x m) 0); naive_solver. Qed.
