(* ===== verification/PmapOps.v ===== *)
(** * What each operation of kern/pmap.c does to the abstract view *)
From S2P Require Import Prelude Mem Mmu Kstate Pmap PmapRep.

(** References held by the kernel code itself while it is between the
    increment of a [pp_ref] and the store that accounts for it. *)
Definition no_ex : Z -> Z := fun _ => 0.
Definition bump (ex : Z -> Z) (p n : Z) : Z -> Z :=
  fun q => ex q + if decide (q = p) then n else 0.

Section transitions.
Implicit Types (s : kst) (fl : list Z) (ds : gset Z) (T Mp : gmap (Z * Z) Z).

Lemma refs_nonneg ds T Mp p : 0 <= refs ds T Mp p.
Proof.
  unfold refs. pose proof (count_nonneg Mp p). pose proof (count_nonneg T p).
  case_decide; lia.
Qed.

(** A page with no references is in no role. *)
Lemma refs_zero ds T Mp p :
  refs ds T Mp p = 0 ->
  (p ∉ ds) /\ (forall k, T !! k <> Some p) /\ (forall k, Mp !! k <> Some p).
Proof.
  unfold refs. intros H. pose proof (count_nonneg Mp p).
  pose proof (count_nonneg T p).
  case_decide; [lia|]. split; [done|].
  split; intros k; apply count_zero; lia.
Qed.

Lemma refs_in_use s fl ds T Mp ex p :
  pm_rep s fl ds T Mp ex -> 0 < refs ds T Mp p + ex p -> p ∉ fl.
Proof. intros R H Hp. pose proof (rep_free _ _ _ _ _ _ R p Hp). lia. Qed.

Lemma free_no_role s fl ds T Mp ex p :
  pm_rep s fl ds T Mp ex -> p ∈ fl ->
  (p ∉ ds) /\ (forall k, T !! k <> Some p) /\ (forall k, Mp !! k <> Some p).
Proof.
  intros R Hp. apply refs_zero.
  pose proof (rep_free _ _ _ _ _ _ R p Hp). pose proof (rep_ex _ _ _ _ _ _ R p).
  pose proof (refs_nonneg ds T Mp p). lia.
Qed.

(** Changing [ex] pointwise. *)
Lemma rep_ex_ext s fl ds T Mp ex ex' :
  pm_rep s fl ds T Mp ex -> (forall p, ex' p = ex p) -> pm_rep s fl ds T Mp ex'.
Proof.
  intros R He. destruct R. constructor; try done; intros *; rewrite !He; eauto.
Qed.

(** Bytes outside the page tables are free to change. *)
Lemma rep_ext s s' fl ds T Mp ex :
  pm_rep s fl ds T Mp ex ->
  npages s' = npages s -> pages s' = pages s ->
  page_free_list s' = page_free_list s ->
  (forall q i, (q ∈ ds \/ exists k, T !! k = Some q) -> 0 <= i < 1024 ->
     word (mem s') q i = word (mem s) q i) ->
  pm_rep s' fl ds T Mp ex.
Proof.
  intros R Hn Hp Hf Hw. destruct R.
  constructor; rewrite ?Hn, ?Hp, ?Hf; try done.
  - intros d i Hd Hi. rewrite Hw; eauto. unfold UPDX in *.
    pose proof (PDX_range UTOP). lia.
  - intros d i t j Ht Hj. rewrite Hw; eauto.
  - intros d i t Ht. destruct (rep_Tdom _ _ _ Ht) as (? & ? & _). rewrite Hw; eauto.
    unfold UPDX in *. pose proof (PDX_range UTOP). lia.
Qed.

(** Taking the first page off the free list. *)
Lemma rep_pop s p pi fl ds T Mp ex :
  pm_rep s (p :: fl) ds T Mp ex -> pages s !! p = Some pi ->
  pm_rep (set_pages (<[p := set_pp_link None pi]> (pages s))
            (set_page_free_list (pp_link pi) s)) fl ds T Mp ex.
Proof.
  intros R Hp. destruct R as [Hnp Hdom Hc Hnd Hl Hr Hex Hfr Hds HT HTd HTi HM HMd Hpde].
  inversion Hc as [|p' pi' l' Hp' Hc']; subst. simplify_eq.
  apply NoDup_cons in Hnd as [Hnin Hnd].
  constructor; simpl; try done.
  - intros q. rewrite lookup_insert. case_decide; [subst|by apply Hdom].
    rewrite <- Hdom, Hp. naive_solver.
  - by apply chain_insert.
  - intros q qi. rewrite lookup_insert. case_decide; [naive_solver|].
    intros Hq Hqn. apply (Hl q); [done|]. apply not_elem_of_cons. naive_solver.
  - intros q qi. rewrite lookup_insert. case_decide; [|by apply Hr].
    subst. intros [= <-]. simpl. by apply Hr.
  - intros q Hq. apply Hfr. by apply elem_of_cons; right.
Qed.

(** Putting an unreferenced page back. *)
Lemma rep_push s p pi fl ds T Mp ex :
  pm_rep s fl ds T Mp ex -> pages s !! p = Some pi -> p ∉ fl ->
  refs ds T Mp p + ex p = 0 ->
  pm_rep (set_page_free_list (Some p)
            (set_pages (<[p := set_pp_link (page_free_list s) pi]> (pages s)) s))
         (p :: fl) ds T Mp ex.
Proof.
  intros R Hp Hnin H0. destruct R as [Hnp Hdom Hc Hnd Hl Hr Hex Hfr Hds HT HTd HTi HM HMd Hpde].
  constructor; simpl; try done.
  - intros q. rewrite lookup_insert. case_decide; [subst|by apply Hdom].
    rewrite <- Hdom, Hp. naive_solver.
  - econstructor; [apply lookup_insert_eq|]. by apply chain_insert.
  - by apply NoDup_cons.
  - intros q qi. rewrite lookup_insert, not_elem_of_cons.
    case_decide; [naive_solver|]. intros Hq [_ Hqn]. by apply (Hl q).
  - intros q qi. rewrite lookup_insert. case_decide; [|by apply Hr].
    subst. intros [= <-]. simpl. by apply Hr.
  - intros q [->|Hq]%elem_of_cons; [done|by apply Hfr].
Qed.

(** Changing a reference count together with the extra references. *)
Lemma rep_set_ref s p pi n fl ds T Mp ex :
  pm_rep s fl ds T Mp ex -> pages s !! p = Some pi ->
  0 <= pp_ref pi + n < 2^16 -> p ∉ fl -> 0 <= ex p + n ->
  pm_rep (set_pages (<[p := set_pp_ref (pp_ref pi + n) pi]> (pages s)) s)
         fl ds T Mp (bump ex p n).
Proof.
  intros R Hp Hrg Hnin He. destruct R as [Hnp Hdom Hc Hnd Hl Hr Hex Hfr Hds HT HTd HTi HM HMd Hpde].
  constructor; simpl; try done.
  - intros q. rewrite lookup_insert. case_decide; [subst|by apply Hdom].
    rewrite <- Hdom, Hp. naive_solver.
  - by eapply chain_same_link.
  - intros q qi. rewrite lookup_insert. case_decide; [|by apply Hl].
    subst. intros [= <-]. simpl. by apply Hl.
  - intros q qi. unfold bump. rewrite lookup_insert. case_decide as Hd.
    + subst. intros [= <-]. simpl. destruct (Hr q pi Hp). case_decide; [lia|done].
    + intros Hq. destruct (Hr q qi Hq). case_decide; [congruence|lia].
  - intros q. unfold bump. specialize (Hex q). case_decide; subst; lia.
  - intros q Hq. unfold bump. case_decide; [by subst|]. rewrite Z.add_0_r. by apply Hfr.
Qed.

Lemma decode_mk p f :
  0 <= p -> 0 <= f < 4096 -> present f = true -> decode (p * 4096 + f) = Some p.
Proof.
  intros Hp Hf Hpr. unfold decode, present, flag in *.
  rewrite land_page_flags by (unfold PTE_P; lia). rewrite Hpr.
  by rewrite PGNUM_flags.
Qed.

(** A fresh, zeroed page becomes a page table. *)
Lemma rep_add_table s fl ds T Mp ex d i t f :
  pm_rep s fl ds T Mp ex -> d ∈ ds -> 0 <= i < UPDX -> T !! (d, i) = None ->
  0 <= t < npages s -> t ∉ fl -> refs ds T Mp t = 0 -> 1 <= ex t ->
  (forall j, 0 <= j < 1024 -> word (mem s) t j = 0) ->
  0 <= f < 4096 -> present f = true -> Z.land f 7 = 7 ->
  pm_rep (set_mem (write32 (mem s) (d * 4096 + 4 * i) (t * 4096 + f)) s)
         fl ds (<[(d, i) := t]> T) Mp (bump ex t (-1)).
Proof.
  intros R Hd Hi HTn Ht Htfl Hrefs Hext Hz Hf Hpr Hf7.
  destruct (refs_zero _ _ _ _ Hrefs) as (Htds & HtT & HtM).
  pose proof (PDX_range UTOP) as HU. fold UPDX in HU.
  destruct R as [Hnp Hdom Hc Hnd Hl Hr Hex Hfr Hds HT HTd HTi HM HMd Hpde].
  assert (forall p, refs ds (<[(d, i) := t]> T) Mp p + bump ex t (-1) p
                    = refs ds T Mp p + ex p) as Hre.
  { intros p. unfold refs, bump. rewrite count_insert_None by done.
    repeat case_decide; subst; try congruence; lia. }
  assert (forall q j, 0 <= j < 1024 -> (q, j) <> (d, i) ->
    word (write32 (mem s) (d * 4096 + 4 * i) (t * 4096 + f)) q j = word (mem s) q j)
    as Hw.
  { intros q j Hj Hne. apply word_write_ne; [lia|done|congruence]. }
  constructor; simpl; try done.
  - intros p pi Hp. rewrite Hre. by apply Hr.
  - intros p. unfold bump. specialize (Hex p). case_decide; subst; lia.
  - intros p Hp. rewrite Hre. by apply Hfr.
  - intros d' i' Hd' Hi'. rewrite lookup_insert. case_decide as He.
    + injection He as <- <-. rewrite word_write_eq, u32_small by lia.
      by rewrite decode_mk by (done || lia).
    + rewrite Hw by (congruence || lia). by apply HT.
  - intros d' i' t'. rewrite lookup_insert. case_decide as He.
    + injection He as <- <-. intros [= <-]. done.
    + apply HTd.
  - intros k1 k2 t'. rewrite !lookup_insert. repeat case_decide; try congruence;
      intros; simplify_eq; try (by edestruct HtT); eauto.
  - intros d' i' t' j Ht' Hj. rewrite lookup_insert in Ht'.
    assert (t' <> d) as Htd.
    { intros ->. case_decide; simplify_eq; [done|]. by apply HTd in Ht' as (_ & _ & _ & ?). }
    rewrite Hw by congruence.
    case_decide as He.
    + injection He as <- <-. simplify_eq. rewrite Hz by done.
      destruct (Mp !! (d, i * 1024 + j)) eqn:Hm; [|done].
      apply HMd in Hm as [[? Hsome] _].
      replace ((i * 1024 + j) / 1024) with i in Hsome; [congruence|].
      rewrite Z.div_add_l, Z.div_small by lia. lia.
    + by apply HM.
  - intros d' v p Hm. destruct (HMd _ _ _ Hm) as (HTs & Hp & Hpds & HpT).
    split; [|split; [done|split; [done|]]].
    + rewrite lookup_insert. case_decide; [eauto|done].
    + intros k. rewrite lookup_insert. case_decide; [|apply HpT].
      intros [= ->]. by eapply HtM.
  - intros d' i' t'. rewrite lookup_insert. case_decide as He.
    + injection He as <- <-. intros _. rewrite word_write_eq, u32_small by lia.
      by rewrite land_page_flags by lia.
    + intros Ht'. destruct (HTd _ _ _ Ht') as (? & ? & _). rewrite Hw by (congruence || lia). by eapply Hpde.
Qed.

(** The abstract effect of storing [e] in the entry of key [k]. *)
Definition set_entry (Mp : gmap (Z * Z) Z) (k : Z * Z) (e : Z) : gmap (Z * Z) Z :=
  match decode e with Some p => <[k := p]> Mp | None => delete k Mp end.

Lemma set_entry_eq Mp k e : set_entry Mp k e !! k = decode e.
Proof.
  unfold set_entry. destruct (decode e); [apply lookup_insert_eq|apply lookup_delete_eq].
Qed.

Lemma set_entry_ne Mp k k' e : k <> k' -> set_entry Mp k e !! k' = Mp !! k'.
Proof.
  intros Hne. unfold set_entry.
  destruct (decode e); [by apply lookup_insert_ne|by apply lookup_delete_ne].
Qed.

(** Writing a page-table entry. *)
Lemma rep_set_pte s fl ds T Mp ex ex' d i t j e :
  pm_rep s fl ds T Mp ex -> T !! (d, i) = Some t -> 0 <= j < 1024 -> 0 <= e < 2^32 ->
  (forall p, decode e = Some p ->
     0 <= p < npages s /\ (p ∉ ds) /\ forall k, T !! k <> Some p) ->
  (forall p, 0 <= ex' p /\
     refs ds T (set_entry Mp (d, i * 1024 + j) e) p + ex' p = refs ds T Mp p + ex p) ->
  pm_rep (set_mem (write32 (mem s) (t * 4096 + 4 * j) e) s)
         fl ds T (set_entry Mp (d, i * 1024 + j) e) ex'.
Proof.
  intros R Ht Hj He Hval Hex'.
  pose proof (PDX_range UTOP) as HU. fold UPDX in HU.
  destruct R as [Hnp Hdom Hc Hnd Hl Hr Hex Hfr Hds HT HTd HTi HM HMd Hpde].
  destruct (HTd _ _ _ Ht) as (Hd & Hi & Htn & Htds).
  constructor; simpl; try done.
  - intros p pi Hp. destruct (Hex' p) as [_ ->]. by apply Hr.
  - intros p. apply Hex'.
  - intros p Hp. destruct (Hex' p) as [_ ->]. by apply Hfr.
  - intros d' i' Hd' Hi'. rewrite word_write_ne by (lia || congruence). by apply HT.
  - intros d' i' t' j' Ht' Hj'.
    destruct (decide ((d', i', j') = (d, i, j))) as [[= -> -> ->]|Hne].
    + rewrite set_entry_eq. simplify_eq. by rewrite word_write_eq, u32_small.
    + rewrite set_entry_ne by (intros [= -> Hk]; apply Hne; f_equal; [f_equal|]; lia).
      rewrite word_write_ne; [by apply HM|done|done|].
      intros [= <- <-]. apply Hne. by injection (HTi _ _ _ Ht Ht') as -> ->.
  - intros d' v p Hm.
    destruct (decide ((d', v) = (d, i * 1024 + j))) as [[= -> ->]|Hne].
    + rewrite set_entry_eq in Hm. split; [|by apply Hval].
      rewrite Z.div_add_l, Z.div_small, Z.add_0_r by lia. by rewrite Ht.
    + rewrite set_entry_ne in Hm by congruence. by apply HMd.
  - intros d' i' t' Ht'. destruct (HTd _ _ _ Ht') as (? & ? & _).
    rewrite word_write_ne by (lia || congruence). by eapply Hpde.
Qed.
End transitions.

(** ** Specifications *)
Section specs.
Implicit Types (s : kst) (fl : list Z) (ds : gset Z) (T Mp : gmap (Z * Z) Z).

Lemma rep_page s fl ds T Mp ex p :
  pm_rep s fl ds T Mp ex -> 0 <= p < npages s ->
  exists pi, pages s !! p = Some pi.
Proof. intros R Hp. by apply (rep_dom _ _ _ _ _ _ R) in Hp. Qed.

(** A state reached by touching only memory and the allocator. *)
Lemma page_alloc_ok s fl ds T Mp ex flags :
  pm_rep s fl ds T Mp ex ->
  wp (page_alloc flags) (fun r s' =>
    match r with
    | None => fl = [] /\ s' = s
    | Some p => exists fl', fl = p :: fl' /\
        pm_rep s' fl' ds T Mp ex /\ pm_frame s s' /\ invlpgs s' = invlpgs s /\
        0 <= p < npages s /\ same_bytes (fun q => q <> p) s s' /\
        (flag flags ALLOC_ZERO = true ->
           forall a, p * 4096 <= a < p * 4096 + 4096 -> getb (mem s') a = 0)
    end) s.
Proof.
  intros R. unfold wp, page_alloc. wp_steps.
  pose proof (rep_chain _ _ _ _ _ _ R) as Hc.
  remember (page_free_list s) as h eqn:Hh.
  destruct Hc as [|p pi l Hp Hcl]; wp_steps; [done|].
  assert (0 <= p < npages s) as Hpn by (by eapply (rep_dom _ _ _ _ _ _ R)).
  pose proof (rep_np _ _ _ _ _ _ R) as Hnp.
  eapply wpe_get_page; [eassumption|]. wp_steps.
  eapply wpe_upd_page; [eassumption|]. wp_steps.
  pose proof (rep_pop _ _ _ _ _ _ _ _ R Hp) as R'.
  destruct (flag flags ALLOC_ZERO) eqn:Hz; wp_steps.
  - unfold page2kva. rewrite page2pa_small by lia.
    apply wpe_KADDR; [done|apply Hnp|]. unfold kmemset.
    destruct (Z.ltb_spec (KERNBASE + p * 4096) KERNBASE); [lia|]. wp_steps.
    replace (KERNBASE + p * 4096 - KERNBASE) with (p * 4096) by lia.
    change PGSIZE with 4096. exists l. split; [done|]. split.
    { eapply rep_ext; [exact R'|done..|]. simpl. intros q i Hq Hi.
      apply word_fill_ne; [|done]. intros <-.
      destruct (free_no_role _ _ _ _ _ _ p R) as (H1 & H2 & _); [by left|].
      destruct Hq as [?|[k Hk]]; [done|by eapply H2]. }
    split; [done|]. split; [done|]. split; [done|]. split.
    + intros q a Hq Ha. simpl. rewrite getb_fill.
      case_decide; [lia|done].
    + intros _ a Ha. simpl. rewrite getb_fill.
      case_decide; [done|lia].
  - exists l. do 5 (split; [done|]). by split.
Qed.

Lemma page_free_ok s fl ds T Mp ex p :
  pm_rep s fl ds T Mp ex -> 0 <= p < npages s -> p ∉ fl ->
  refs ds T Mp p + ex p = 0 ->
  wp (page_free p) (fun _ s' =>
    pm_rep s' (p :: fl) ds T Mp ex /\ pm_frame s s' /\ mem s' = mem s /\
    invlpgs s' = invlpgs s) s.
Proof.
  intros R Hp Hfl H0. destruct (rep_page _ _ _ _ _ _ _ R Hp) as [pi Hpi].
  unfold wp, page_free. wp_steps. eapply wpe_get_page; [eassumption|]. wp_steps.
  apply wpe_assert.
  { apply Z.eqb_eq. destruct (rep_ref _ _ _ _ _ _ R p pi Hpi). lia. }
  wp_steps. apply wpe_assert.
  { apply bool_decide_eq_true. by apply (rep_link _ _ _ _ _ _ R p pi). }
  wp_steps. eapply wpe_upd_page; [eassumption|]. wp_steps.
  split; [by apply rep_push|]. by repeat split.
Qed.

(** Dropping one reference that the kernel holds. *)
Lemma page_decref_ok s fl ds T Mp ex p :
  pm_rep s fl ds T Mp ex -> 0 <= p < npages s -> 1 <= ex p ->
  wp (page_decref p) (fun _ s' =>
    pm_rep s' (if decide (refs ds T Mp p + ex p = 1) then p :: fl else fl)
           ds T Mp (bump ex p (-1)) /\
    pm_frame s s' /\ mem s' = mem s /\ invlpgs s' = invlpgs s) s.
Proof.
  intros R Hp He. destruct (rep_page _ _ _ _ _ _ _ R Hp) as [pi Hpi].
  pose proof (refs_nonneg ds T Mp p) as Hrn.
  assert (p ∉ fl) as Hfl by (eapply refs_in_use; [done|lia]).
  destruct (rep_ref _ _ _ _ _ _ R p pi Hpi) as [Hrg Href].
  unfold wp, page_decref. wp_steps. eapply wpe_get_page; [eassumption|]. wp_steps.
  eapply wpe_upd_page; [eassumption|]. rewrite u16_small by lia.
  pose proof (rep_set_ref s p pi (-1) fl ds T Mp ex R Hpi ltac:(lia) Hfl ltac:(lia)) as R'.
  destruct (Z.eqb_spec (pp_ref pi - 1) 0) as [H1|H1].
  - eapply wp_wpe; [eapply page_free_ok; [exact R'|done|done|]|].
    { unfold bump. case_decide; [lia|done]. }
    intros [] s' (R2 & Hf & Hm & Hi). rewrite decide_True by lia.
    split; [done|]. by repeat split.
  - wp_steps. rewrite decide_False by lia. split; [done|]. by repeat split.
Qed.

Lemma pp_incref_ok s fl ds T Mp ex p :
  pm_rep s fl ds T Mp ex -> 0 <= p < npages s -> p ∉ fl ->
  refs ds T Mp p + ex p + 1 < 2^16 ->
  wp (pp_incref p) (fun _ s' =>
    pm_rep s' fl ds T Mp (bump ex p 1) /\
    pm_frame s s' /\ mem s' = mem s /\ invlpgs s' = invlpgs s) s.
Proof.
  intros R Hp Hfl Hov. destruct (rep_page _ _ _ _ _ _ _ R Hp) as [pi Hpi].
  destruct (rep_ref _ _ _ _ _ _ R p pi Hpi) as [Hrg Href].
  pose proof (rep_ex _ _ _ _ _ _ R p).
  unfold wp, pp_incref. eapply wpe_upd_page; [eassumption|].
  rewrite u16_small by lia.
  split; [apply rep_set_ref; try done; lia|]. by repeat split.
Qed.
End specs.

Section walk.
Implicit Types (s : kst) (fl : list Z) (ds : gset Z) (T Mp : gmap (Z * Z) Z).

Definition dir_kva (d : Z) : Z := KERNBASE + d * 4096.
Definition pte_kva (t va : Z) : Z := KERNBASE + t * 4096 + 4 * PTX va.

Lemma UTOP_val : UTOP = 0xEEC00000.
Proof. reflexivity. Qed.

Lemma UPDX_val : UPDX = 955.
Proof. reflexivity. Qed.

Lemma PDX_user va : 0 <= va < UTOP -> 0 <= PDX va < UPDX.
Proof.
  rewrite UTOP_val, UPDX_val. intros H. rewrite PDX_small by lia.
  split; [apply Z.div_pos; lia|apply Z.div_lt_upper_bound; lia].
Qed.

Lemma UTOP_lt : UTOP < 2^32.
Proof. done. Qed.

Lemma dir_kva_nonzero d : 0 <= d -> negb (dir_kva d =? 0) = true.
Proof.
  intros Hd. apply negb_true_iff, Z.eqb_neq. unfold dir_kva, KERNBASE. lia.
Qed.

(** The final step of the walk, from a present directory entry. *)
Lemma walk_entry_ok s fl ds T Mp ex d va t :
  pm_rep s fl ds T Mp ex -> T !! (d, PDX va) = Some t ->
  wp (let! e' := kread32 (dir_kva d + 4 * PDX va) in
      let! pt := KADDR (PTE_ADDR e') in
      ret (Some (pt + 4 * PTX va)))
    (fun r s' => r = Some (pte_kva t va) /\ s' = s) s.
Proof.
  intros R Ht. destruct (rep_Tdom _ _ _ _ _ _ R _ _ _ Ht) as (Hd & Hi & Htn & _).
  pose proof (rep_ds _ _ _ _ _ _ R d Hd). pose proof (rep_np _ _ _ _ _ _ R).
  unfold wp. wp_steps. apply wpe_kread32; [lia|lia|].
  rewrite (rep_T _ _ _ _ _ _ R d (PDX va) Hd Hi) in Ht. unfold decode in Ht.
  destruct (present _); [|done]. injection Ht as <-.
  rewrite PTE_ADDR_spec by apply word_range. wp_steps.
  apply wpe_KADDR; [done|lia|]. by wp_steps.
Qed.

Lemma pgdir_walk_ok s fl ds T Mp ex d va :
  pm_rep s fl ds T Mp ex -> d ∈ ds -> 0 <= va < UTOP ->
  wp (pgdir_walk (dir_kva d) va false) (fun r s' =>
    s' = s /\ r = (fun t => pte_kva t va) <$> T !! (d, PDX va)) s.
Proof.
  intros R Hd Hva. pose proof (PDX_user va Hva) as Hi.
  pose proof (rep_ds _ _ _ _ _ _ R d Hd).
  unfold wp, pgdir_walk. wp_steps.
  apply wpe_assert; [apply dir_kva_nonzero; lia|].
  wp_steps. apply wpe_kread32; [lia|lia|]. wp_steps.
  pose proof (rep_T _ _ _ _ _ _ R d (PDX va) Hd Hi) as HT. unfold decode, present in HT.
  destruct (flag (word (mem s) d (PDX va)) PTE_P) eqn:Hp; simpl; wp_steps; simpl.
  - eapply wp_wpe; [eapply walk_entry_ok; eassumption|].
    intros r s' [-> ->]. by rewrite HT.
  - wp_steps. by rewrite HT.
Qed.

(** The entries above UTOP of the directories are the same. *)
Definition same_hi ds s s' : Prop :=
  forall d i, d ∈ ds -> UPDX <= i < 1024 -> word (mem s') d i = word (mem s) d i.

Lemma same_hi_trans ds s1 s2 s3 : same_hi ds s1 s2 -> same_hi ds s2 s3 -> same_hi ds s1 s3.
Proof. intros H1 H2 d i Hd Hi. by rewrite (H2 d i), (H1 d i). Qed.

Lemma same_bytes_hi (P : Z -> Prop) ds s s' :
  same_bytes P s s' -> (forall d, d ∈ ds -> P d) -> same_hi ds s s'.
Proof.
  intros B HP d i Hd Hi. rewrite UPDX_val in Hi.
  eapply same_bytes_word; [exact B|by apply HP|lia].
Qed.

Lemma pgdir_walk_create_ok s fl ds T Mp ex d va :
  pm_rep s fl ds T Mp ex -> d ∈ ds -> 0 <= va < UTOP ->
  wp (pgdir_walk (dir_kva d) va true) (fun r s' =>
    match T !! (d, PDX va) with
    | Some t => s' = s /\ r = Some (pte_kva t va)
    | None =>
        match fl with
        | [] => s' = s /\ r = None
        | t :: fl' => r = Some (pte_kva t va) /\
            pm_rep s' fl' ds (<[(d, PDX va) := t]> T) Mp ex /\
            pm_frame s s' /\ invlpgs s' = invlpgs s /\
            same_bytes (fun q => q <> t /\ q <> d) s s' /\ same_hi ds s s' /\
            forall j, 0 <= j < 1024 -> word (mem s') t j = 0
        end
    end) s.
Proof.
  intros R Hd Hva. pose proof (PDX_user va Hva) as Hi.
  pose proof (rep_ds _ _ _ _ _ _ R d Hd) as Hdn. pose proof (rep_np _ _ _ _ _ _ R) as Hnp.
  unfold wp, pgdir_walk. wp_steps.
  apply wpe_assert; [apply dir_kva_nonzero; lia|].
  wp_steps. apply wpe_kread32; [lia|lia|]. wp_steps.
  pose proof (rep_T _ _ _ _ _ _ R d (PDX va) Hd Hi) as HT. unfold decode, present in HT.
  destruct (flag (word (mem s) d (PDX va)) PTE_P) eqn:Hp; simpl; wp_steps; simpl; rewrite HT.
  { eapply wp_wpe; [eapply walk_entry_ok; eassumption|].
    by intros r s' [-> ->]. }
  wp_steps. eapply wp_wpe; [by eapply page_alloc_ok|].
  intros [t|] s1.
  2:{ intros [-> ->]. by wp_steps. }
  intros (fl' & -> & R1 & F1 & I1 & Htn & B1 & Z1). specialize (Z1 eq_refl).
  pose proof (rep_nodup _ _ _ _ _ _ R) as [Htfl _]%NoDup_cons.
  pose proof (rep_free _ _ _ _ _ _ R t ltac:(by left)) as H0.
  pose proof (refs_nonneg ds T Mp t). pose proof (rep_ex _ _ _ _ _ _ R t).
  rewrite <- (pm_frame_npages _ _ F1) in Htn.
  wp_steps. eapply wp_wpe; [eapply pp_incref_ok; [done|done|done|lia]|].
  intros [] s2 (R2 & F2 & M2 & I2).
  rewrite <- (pm_frame_npages _ _ F2) in Htn.
  destruct (rep_page _ _ _ _ _ _ _ R2 Htn) as [pi Hpi].
  destruct (rep_ref _ _ _ _ _ _ R2 t pi Hpi) as [_ Href].
  assert (bump ex t 1 t = ex t + 1) as Hb by (unfold bump; by case_decide).
  wp_steps. eapply wpe_get_page; [eassumption|]. wp_steps.
  apply wpe_assert; [apply Z.eqb_eq; lia|]. wp_steps.
  apply wpe_assert.
  { apply bool_decide_eq_true. by eapply (rep_link _ _ _ _ _ _ R2). }
  wp_steps. unfold dir_kva. apply wpe_kwrite32; [lia|lia|]. wp_steps.
  rewrite page2pa_small by (pose proof (rep_np _ _ _ _ _ _ R2); lia).
  replace (Z.lor (Z.lor (Z.lor (t * 4096) PTE_P) PTE_U) PTE_W) with (t * 4096 + 7).
  2:{ rewrite <- !Z.lor_assoc. symmetry. apply lor_page_flags. by vm_compute. }
  assert (forall j, 0 <= j < 1024 -> word (mem s2) t j = 0) as Hz.
  { intros j Hj. unfold word. rewrite M2, (read32_ext (mem s1) ∅); [done|].
    intros b Hb0. by rewrite Z1 by lia. }
  pose proof (rep_add_table s2 fl' ds T Mp (bump ex t 1) d (PDX va) t 7 R2 Hd Hi HT
    Htn Htfl ltac:(lia) ltac:(lia) Hz ltac:(lia) eq_refl eq_refl) as R3.
  simpl. eapply wp_wpe; [eapply walk_entry_ok; [exact R3|apply lookup_insert_eq]|].
  intros r s' [-> ->]. split; [done|]. split.
  { eapply rep_ex_ext; [exact R3|]. intros p. unfold bump. case_decide; lia. }
  split; [by etrans|]. split; [simpl; congruence|].
  destruct (free_no_role _ _ _ _ _ _ t R) as (Htd & _); [by left|].
  split; [|split].
  - intros q a [Hqt Hqd] Ha. simpl. rewrite getb_write32_ne by (pose proof (PDX_range va); lia). rewrite M2.
    by apply B1 with q.
  - intros q i Hq Hqi. simpl. rewrite word_write_ne; [|lia|rewrite UPDX_val in Hqi; lia|].
    + rewrite M2. eapply same_bytes_word; [exact B1|congruence|rewrite UPDX_val in Hqi; lia].
    + intros [= _ Heq]. lia.
  - intros j Hj. simpl. rewrite word_write_ne; [by apply Hz|apply PDX_range|done|].
    intros [= <- _]. destruct (free_no_role _ _ _ _ _ _ d R) as (? & _); [by left|done].
Qed.

(** The abstract key of a user address. *)
Definition vkey (d va : Z) : Z * Z := (d, PGNUM va).

Lemma vkey_split d va : 0 <= va < UTOP -> vkey d va = (d, PDX va * 1024 + PTX va).
Proof.
  rewrite UTOP_val. intros H. unfold vkey. by rewrite PGNUM_split by lia.
Qed.

Lemma rep_lookup s fl ds T Mp ex d va t :
  pm_rep s fl ds T Mp ex -> 0 <= va < UTOP -> T !! (d, PDX va) = Some t ->
  Mp !! vkey d va = decode (word (mem s) t (PTX va)).
Proof.
  intros R Hva Ht. rewrite vkey_split by done.
  apply (rep_M _ _ _ _ _ _ R); [done|apply PTX_range].
Qed.

Lemma rep_lookup_None s fl ds T Mp ex d va :
  pm_rep s fl ds T Mp ex -> 0 <= va < UTOP -> T !! (d, PDX va) = None ->
  Mp !! vkey d va = None.
Proof.
  intros R Hva Ht. destruct (Mp !! vkey d va) eqn:Hm; [|done].
  rewrite vkey_split in Hm by done. apply (rep_Mdom _ _ _ _ _ _ R) in Hm as [[? Hs] _].
  rewrite Z.div_add_l, Z.div_small, Z.add_0_r in Hs by (apply PTX_range || lia). congruence.
Qed.

(** page_lookup reads the abstract map. *)
Lemma page_lookup_ok s fl ds T Mp ex d va :
  pm_rep s fl ds T Mp ex -> d ∈ ds -> 0 <= va < UTOP ->
  wp (page_lookup (dir_kva d) va) (fun r s' => s' = s /\
    match Mp !! vkey d va with
    | None => r = None
    | Some p => exists t, T !! (d, PDX va) = Some t /\ r = Some (p, pte_kva t va)
    end) s.
Proof.
  intros R Hd Hva. unfold wp, page_lookup. wp_steps.
  eapply wp_wpe; [by eapply pgdir_walk_ok|]. intros r s' [-> ->].
  destruct (T !! (d, PDX va)) as [t|] eqn:Ht; simpl; wp_steps.
  2:{ by rewrite (rep_lookup_None _ _ _ _ _ _ _ _ R Hva Ht). }
  destruct (rep_Tdom _ _ _ _ _ _ R _ _ _ Ht) as (_ & _ & Htn & _).
  pose proof (PTX_range va). pose proof (rep_lookup _ _ _ _ _ _ _ _ _ R Hva Ht) as HM.
  unfold pte_kva. apply wpe_kread32; [lia|lia|].
  unfold decode, present in HM.
  destruct (flag (word (mem s) t (PTX va)) PTE_P); simpl; wp_steps; rewrite HM; [|done].
  rewrite PTE_ADDR_spec by apply word_range.
  destruct (rep_Mdom _ _ _ _ _ _ R _ _ _ HM) as (_ & Hp & _).
  apply wpe_pa2page; [done|]. wp_steps. eauto.
Qed.

(** The current environment, if any, is a valid index. *)
Definition cur_ok (s : kst) : Prop :=
  match cur_env s with Some e => is_Some (envs s !! e) | None => True end.

Lemma cur_ok_frame s s' : pm_frame s s' -> cur_ok s -> cur_ok s'.
Proof.
  intros F. unfold cur_ok. by rewrite (pm_frame_cur _ _ F), (pm_frame_envs _ _ F).
Qed.

(** Whether a change to [pgdir] concerns the address space in use. *)
Definition tlb_live (s : kst) (pgdir : Z) : bool :=
  match cur_env s with
  | None => true
  | Some e => match envs s !! e with Some en => env_pgdir en =? pgdir | None => false end
  end.

Lemma tlb_invalidate_ok s pgdir va :
  cur_ok s ->
  wp (tlb_invalidate pgdir va) (fun _ s' =>
    s' = if tlb_live s pgdir then set_invlpgs (va :: invlpgs s) s else s) s.
Proof.
  unfold cur_ok, tlb_live. intros Hc. unfold wp, tlb_invalidate. wp_steps.
  destruct (cur_env s) as [e|]; wp_steps; [|done].
  destruct Hc as [en Hen]. eapply wpe_get_env; [eassumption|]. rewrite Hen.
  destruct (env_pgdir en =? pgdir); by wp_steps.
Qed.

Lemma rep_invlpgs s l fl ds T Mp ex :
  pm_rep s fl ds T Mp ex -> pm_rep (set_invlpgs l s) fl ds T Mp ex.
Proof. intros R. by eapply rep_ext. Qed.

(** The free list after one reference to [p] is dropped. *)
Definition fl_drop (ds : gset Z) (T Mp : gmap (Z * Z) Z) (p : Z) (fl : list Z) : list Z :=
  if decide (refs ds T Mp p = 1) then p :: fl else fl.

Lemma refs_delete ds T Mp k p q :
  Mp !! k = Some p ->
  refs ds T (delete k Mp) q = refs ds T Mp q - if decide (p = q) then 1 else 0.
Proof. intros H. unfold refs. rewrite (count_delete _ _ p) by done. lia. Qed.

Lemma rep_clear_pte s fl ds T Mp ex d va t p :
  pm_rep s fl ds T Mp ex -> 0 <= va < UTOP -> T !! (d, PDX va) = Some t ->
  Mp !! vkey d va = Some p ->
  pm_rep (set_mem (write32 (mem s) (t * 4096 + 4 * PTX va) 0) s)
         fl ds T (delete (vkey d va) Mp) (bump ex p 1).
Proof.
  intros R Hva Ht HM. pose proof (PTX_range va).
  pose proof (rep_set_pte s fl ds T Mp ex (bump ex p 1) d (PDX va) t (PTX va) 0
    R Ht ltac:(lia) ltac:(lia) ltac:(done)) as R1.
  rewrite <- vkey_split in R1 by done. apply R1. intros q. split.
  - unfold bump. pose proof (rep_ex _ _ _ _ _ _ R q). case_decide; lia.
  - change (set_entry Mp (vkey d va) 0) with (delete (vkey d va) Mp).
    rewrite (refs_delete _ _ _ _ p) by done. unfold bump.
    repeat case_decide; subst; try congruence; lia.
Qed.

Lemma tlb_live_frame s s' pgdir :
  pm_frame s s' -> tlb_live s' pgdir = tlb_live s pgdir.
Proof.
  intros F. unfold tlb_live. by rewrite (pm_frame_cur _ _ F), (pm_frame_envs _ _ F).
Qed.

(** What page_remove promises: nothing when nothing is mapped, else the
    mapping is gone, exactly one entry was cleared, the reference is
    returned (the page becomes free with its last one) and the TLB entry of
    a live directory is flushed. *)
Definition remove_post s fl ds T Mp ex (d va : Z) (s' : kst) : Prop :=
  match Mp !! vkey d va with
  | None => s' = s
  | Some p =>
      pm_rep s' (if decide (refs ds T Mp p + ex p = 1) then p :: fl else fl)
             ds T (delete (vkey d va) Mp) ex /\
      pm_frame s s' /\
      (exists t, T !! (d, PDX va) = Some t /\
         mem s' = write32 (mem s) (t * 4096 + 4 * PTX va) 0) /\
      invlpgs s' = (if tlb_live s (dir_kva d) then va :: invlpgs s else invlpgs s)
  end.

Lemma page_remove_ok s fl ds T Mp ex d va :
  pm_rep s fl ds T Mp ex -> cur_ok s -> d ∈ ds -> 0 <= va < UTOP ->
  wp (page_remove (dir_kva d) va) (fun _ s' => remove_post s fl ds T Mp ex d va s') s.
Proof.
  intros R Hc Hd Hva. unfold wp, page_remove, remove_post. wp_steps.
  eapply wp_wpe; [by eapply page_lookup_ok|]. intros r s' [-> Hr].
  destruct (Mp !! vkey d va) as [p|] eqn:HM.
  2:{ subst r. by wp_steps. }
  destruct Hr as (t & Ht & ->).
  destruct (rep_Tdom _ _ _ _ _ _ R _ _ _ Ht) as (_ & _ & Htn & _).
  pose proof (PTX_range va). pose proof (rep_ex _ _ _ _ _ _ R p) as Hexp.
  destruct (rep_Mdom _ _ _ _ _ _ R _ _ _ HM) as (_ & Hp & _).
  wp_steps. unfold pte_kva. apply wpe_kwrite32; [lia|lia|]. wp_steps.
  pose proof (rep_clear_pte _ _ _ _ _ _ _ _ _ _ R Hva Ht HM) as R1.
  eapply wp_wpe; [eapply page_decref_ok; [exact R1|done|]|].
  { unfold bump. case_decide; lia. }
  intros [] s2 (R2 & F2 & M2 & I2).
  assert (pm_frame s s2) as F by (etrans; [|exact F2]; done).
  eapply wp_wpe; [eapply tlb_invalidate_ok, cur_ok_frame; eassumption|].
  intros [] s3 ->.
  rewrite (tlb_live_frame _ _ _ F).
  assert (pm_rep s2 (if decide (refs ds T Mp p + ex p = 1) then p :: fl else fl)
            ds T (delete (vkey d va) Mp) ex) as R3.
  { eapply rep_ex_ext with (ex' := ex) in R2;
      [|intros q; unfold bump; repeat case_decide; lia].
    replace (refs ds T (delete (vkey d va) Mp) p + bump ex p 1 p)
      with (refs ds T Mp p + ex p) in R2; [done|].
    rewrite (refs_delete _ _ _ _ p) by done. unfold bump. repeat case_decide; lia. }
  destruct (tlb_live s (dir_kva d)); simpl;
    (split; [try apply rep_invlpgs; exact R3|]); (split; [exact F|]);
    (split; [by exists t|]); simpl in *; congruence.
Qed.
End walk.

Section insert.
Implicit Types (s : kst) (fl : list Z) (ds : gset Z) (T Mp : gmap (Z * Z) Z).

(** A page that may be mapped for a user: in range, allocated, and not
    itself part of a page table. *)
Definition user_page (s : kst) fl ds T (p : Z) : Prop :=
  0 <= p < npages s /\ (p ∉ fl) /\ (p ∉ ds) /\ forall k, T !! k <> Some p.

Lemma rep_store_pte s fl ds T Mp ex d va t p f :
  pm_rep s fl ds T Mp ex -> 0 <= va < UTOP -> T !! (d, PDX va) = Some t ->
  Mp !! vkey d va = None -> user_page s fl ds T p -> 1 <= ex p ->
  0 <= f < 4096 -> present f = true ->
  pm_rep (set_mem (write32 (mem s) (t * 4096 + 4 * PTX va) (p * 4096 + f)) s)
         fl ds T (<[vkey d va := p]> Mp) (bump ex p (-1)).
Proof.
  intros R Hva Ht HM (Hp & Hpfl & Hpds & HpT) He Hf Hpr. pose proof (PTX_range va).
  pose proof (rep_np _ _ _ _ _ _ R).
  assert (decode (p * 4096 + f) = Some p) as Hdec by (apply decode_mk; (done || lia)).
  assert (forall q, 0 <= bump ex p (-1) q /\
    refs ds T (set_entry Mp (d, PDX va * 1024 + PTX va) (p * 4096 + f)) q
      + bump ex p (-1) q = refs ds T Mp q + ex q) as Hre.
  { intros q. unfold bump. pose proof (rep_ex _ _ _ _ _ _ R q).
    rewrite <- vkey_split by done. unfold set_entry, refs. rewrite Hdec.
    rewrite count_insert_None by done. repeat case_decide; subst; (congruence || lia). }
  pose proof (rep_set_pte s fl ds T Mp ex (bump ex p (-1)) d (PDX va) t (PTX va)
    (p * 4096 + f)
    R Ht ltac:(lia) ltac:(lia)) as R1.
  specialize (R1 (fun q => ltac:(rewrite Hdec; by intros [= <-])) Hre).
  rewrite <- vkey_split in R1 by done. unfold set_entry in R1. by rewrite Hdec in R1.
Qed.

(** The free list after [pp] replaces what [k] mapped. *)
Definition insert_fl ds T Mp ex (k : Z * Z) (pp : Z) fl : list Z :=
  match Mp !! k with
  | Some old =>
      if decide (refs ds T Mp old + bump ex pp 1 old = 1)
      then old :: fl else fl
  | None => fl
  end.

(** The removal of what was mapped, while [pp] holds an extra reference. *)
Lemma replace_old_ok s fl ds T Mp ex d va t pp :
  pm_rep s fl ds T Mp (bump ex pp 1) -> cur_ok s -> d ∈ ds -> 0 <= va < UTOP ->
  T !! (d, PDX va) = Some t ->
  wp (if flag (word (mem s) t (PTX va)) PTE_P then page_remove (dir_kva d) va
      else ret tt)
    (fun _ s' =>
      pm_rep s' (insert_fl ds T Mp ex (vkey d va) pp fl) ds T
             (delete (vkey d va) Mp) (bump ex pp 1) /\ pm_frame s s' /\
      same_bytes (fun q => q <> t) s s' /\
      (forall q j, 0 <= j < 1024 -> (t, PTX va) <> (q, j) -> word (mem s') q j = word (mem s) q j)) s.
Proof.
  intros R Hc Hd Hva Ht. pose proof (PTX_range va).
  pose proof (rep_lookup _ _ _ _ _ _ _ _ _ R Hva Ht) as HM.
  unfold decode, present in HM. unfold insert_fl. rewrite HM.
  destruct (flag _ _); [|unfold wp; wp_steps; by rewrite delete_id by done].
  eapply wp_mono; [by eapply page_remove_ok|].
  intros [] s2. unfold remove_post. rewrite HM. intros (R2 & F2 & (t' & Ht' & M2) & _).
  simplify_eq. split; [done|split; [done|split]].
  - intros q a Hq Ha. rewrite M2. apply getb_write32_ne. lia.
  - intros q j Hj Hne. rewrite M2. by apply word_write_ne.
Qed.

(** The final store, which accounts for the extra reference. *)
Lemma store_new_ok s fl ds T Mp ex d va t pp f :
  pm_rep s fl ds T Mp ex -> cur_ok s -> 0 <= va < UTOP ->
  T !! (d, PDX va) = Some t -> Mp !! vkey d va = None -> user_page s fl ds T pp ->
  1 <= ex pp -> 0 <= f < 4096 -> present f = true ->
  wp (kwrite32 (pte_kva t va) (pp * 4096 + f) ;;;
      tlb_invalidate (dir_kva d) va ;;; ret 0)
    (fun r s' => r = 0 /\
      pm_rep s' fl ds T (<[vkey d va := pp]> Mp) (bump ex pp (-1)) /\
      pm_frame s s' /\ word (mem s') t (PTX va) = pp * 4096 + f /\
      same_bytes (fun q => q <> t) s s' /\
      (tlb_live s (dir_kva d) = true -> va ∈ invlpgs s') /\
      (forall q j, 0 <= j < 1024 -> (t, PTX va) <> (q, j) -> word (mem s') q j = word (mem s) q j)) s.
Proof.
  intros R Hc Hva Ht HM Hup He Hf Hpr. pose proof (PTX_range va).
  pose proof (rep_np _ _ _ _ _ _ R). pose proof Hup as (Hp & _).
  destruct (rep_Tdom _ _ _ _ _ _ R _ _ _ Ht) as (_ & _ & Htn & _).
  pose proof (rep_store_pte _ _ _ _ _ _ d va t pp f R Hva Ht HM Hup He Hf Hpr) as R3.
  unfold wp. wp_steps. unfold pte_kva. apply wpe_kwrite32; [lia|lia|]. wp_steps.
  eapply wp_wpe; [by eapply tlb_invalidate_ok|]. intros [] s3 ->. wp_steps.
  split; [done|]. rewrite (tlb_live_frame s) by done.
  assert (word (write32 (mem s) (t * 4096 + 4 * PTX va) (pp * 4096 + f)) t (PTX va)
    = pp * 4096 + f) as Hw by (rewrite word_write_eq; apply u32_small; lia).
  assert (same_bytes (fun q => q <> t) s
    (set_mem (write32 (mem s) (t * 4096 + 4 * PTX va) (pp * 4096 + f)) s)) as HB.
  { intros q a Hq Ha. apply getb_write32_ne. lia. }
  destruct (tlb_live s (dir_kva d)); simpl;
    (split; [try apply rep_invlpgs; exact R3|]); (split; [done|]);
    (split; [exact Hw|]); (split; [exact HB|]); (split; [first [by intros _; left | done]|]);
    intros q j Hj Hne; by apply word_write_ne.
Qed.

(** page_insert after a successful walk. *)
Lemma page_insert_at s fl ds T Mp ex d va t pp perm :
  pm_rep s fl ds T Mp ex -> cur_ok s -> d ∈ ds -> 0 <= va < UTOP ->
  0 <= perm < 4096 -> user_page s fl ds T pp ->
  refs ds T Mp pp + ex pp + 1 < 2^16 -> T !! (d, PDX va) = Some t ->
  wp (pp_incref pp ;;;
      let! e := kread32 (pte_kva t va) in
      (if flag e PTE_P then page_remove (dir_kva d) va else ret tt) ;;;
      kwrite32 (pte_kva t va) (Z.lor (Z.lor (page2pa pp) perm) PTE_P) ;;;
      tlb_invalidate (dir_kva d) va ;;;
      ret 0)
    (fun r s' => r = 0 /\
      pm_rep s' (insert_fl ds T Mp ex (vkey d va) pp fl) ds T
             (<[vkey d va := pp]> Mp) ex /\
      pm_frame s s' /\
      word (mem s') t (PTX va) = pp * 4096 + Z.lor perm PTE_P /\
      same_bytes (fun q => q <> t) s s' /\
      (tlb_live s (dir_kva d) = true -> va ∈ invlpgs s') /\
      (forall q j, 0 <= j < 1024 -> (t, PTX va) <> (q, j) -> word (mem s') q j = word (mem s) q j)) s.
Proof.
  intros R Hc Hd Hva Hperm Hup Hov Ht. pose proof Hup as (Hp & Hpfl & Hpds & HpT).
  destruct (rep_Tdom _ _ _ _ _ _ R _ _ _ Ht) as (_ & _ & Htn & _).
  pose proof (PTX_range va) as Hptx. pose proof (rep_np _ _ _ _ _ _ R) as Hnp.
  pose proof (rep_ex _ _ _ _ _ _ R pp) as Hexp.
  assert (present (Z.lor perm PTE_P) = true) as Hpr.
  { apply flag_spec. rewrite Z.land_comm, Z.land_lor_distr_r. intros E.
    apply Z.lor_eq_0_iff in E as [_ E]. by vm_compute in E. }
  unfold wp. wp_steps. eapply wp_wpe; [by eapply pp_incref_ok|].
  intros [] s1 (R1 & F1 & M1 & I1). wp_steps.
  unfold pte_kva. apply wpe_kread32; [lia|lia|]. wp_steps.
  eapply wp_wpe; [eapply replace_old_ok; [exact R1|by eapply cur_ok_frame|done..]|].
  intros [] s2 (R2 & F2 & B2 & W2).
  rewrite page2pa_small, <- Z.lor_assoc, lor_page_flags
    by (lia || (apply (lor_range _ _ 12); (lia || by vm_compute))).
  assert (pm_frame s s2) as F by (by etrans).
  assert (bump ex pp 1 pp = ex pp + 1) as Hb by (unfold bump; by rewrite decide_True).
  assert (user_page s2 (insert_fl ds T Mp ex (vkey d va) pp fl) ds T pp) as Hup2.
  { unfold user_page. rewrite (pm_frame_npages _ _ F). split; [done|split; [|done]].
    eapply refs_in_use; [exact R2|].
    pose proof (refs_nonneg ds T (delete (vkey d va) Mp) pp). lia. }
  eapply wp_wpe; [eapply store_new_ok;
    [exact R2|by eapply (cur_ok_frame s)|done|done|apply lookup_delete_eq|done|lia| |done]|].
  { apply (lor_range _ _ 12); (lia || by vm_compute). }
  intros r s3 (-> & R3 & F3 & Hw & B3 & Hi & W3). rewrite insert_delete_eq in R3.
  split; [done|]. split; [eapply rep_ex_ext; [exact R3|intros q; unfold bump;
    repeat case_decide; lia]|].
  split; [by etrans|]. split; [done|]. split; [|split; [by rewrite <- (tlb_live_frame s s2)|]].
  - eapply same_bytes_trans; [|exact B3]. intros q a Hq Ha. rewrite (B2 q a), M1; done.
  - intros q j Hj Hne. by rewrite W3, W2, M1.
Qed.

(** The page tables after the walk of page_insert. *)
Definition grow_T T (fl : list Z) (d va : Z) : gmap (Z * Z) Z :=
  match T !! (d, PDX va), fl with
  | None, t :: _ => <[(d, PDX va) := t]> T
  | _, _ => T
  end.
Definition grow_fl T (fl : list Z) (d va : Z) : list Z :=
  match T !! (d, PDX va), fl with
  | None, _ :: fl' => fl'
  | _, _ => fl
  end.

(** Every entry of every page table but the one for [va] keeps its value, the
    permissions included. *)
Definition ptes_kept T (d va : Z) s s' : Prop :=
  forall q j, (exists k, T !! k = Some q) -> 0 <= j < 1024 ->
    (forall t, T !! (d, PDX va) = Some t -> (t, PTX va) <> (q, j)) ->
    word (mem s') q j = word (mem s) q j.

(** What page_insert promises: either no memory for the page table and
    nothing changed, or the page is mapped, its entry holds the address and
    the permissions, only [d] and the page tables were written, and a stale
    TLB entry was flushed. *)
Definition insert_post s fl ds T Mp ex (d va pp perm r : Z) (s' : kst) : Prop :=
  (r = - E_NO_MEM /\ s' = s /\ T !! (d, PDX va) = None /\ fl = []) \/
  (r = 0 /\
   exists T' fl' t,
     T' = grow_T T fl d va /\
     fl' = insert_fl ds T' Mp ex (vkey d va) pp (grow_fl T fl d va) /\
     pm_rep s' fl' ds T' (<[vkey d va := pp]> Mp) ex /\
     pm_frame s s' /\ T' !! (d, PDX va) = Some t /\
     word (mem s') t (PTX va) = pp * 4096 + Z.lor perm PTE_P /\
     same_bytes (fun q => q <> d /\ forall k, T' !! k <> Some q) s s' /\
     same_hi ds s s' /\
     (tlb_live s (dir_kva d) = true -> va ∈ invlpgs s') /\
     ptes_kept T d va s s').

Lemma page_insert_ok s fl ds T Mp ex d va pp perm :
  pm_rep s fl ds T Mp ex -> cur_ok s -> d ∈ ds -> 0 <= va < UTOP ->
  0 <= perm < 4096 -> user_page s fl ds T pp ->
  refs ds T Mp pp + ex pp + 1 < 2^16 ->
  wp (page_insert (dir_kva d) pp va perm)
     (insert_post s fl ds T Mp ex d va pp perm) s.
Proof.
  intros R Hc Hd Hva Hperm Hup Hov. unfold wp, page_insert. wp_steps.
  eapply wp_wpe; [by eapply pgdir_walk_create_ok|].
  unfold insert_post, grow_T, grow_fl.
  intros r s1. destruct (T !! (d, PDX va)) as [t|] eqn:Ht; [|destruct fl as [|t fl]].
  - intros [-> ->]. eapply wp_wpe; [by eapply page_insert_at|].
    intros r s2 (-> & R2 & F2 & Hw & B2 & Hi & W2). right. split; [done|].
    destruct (rep_Tdom _ _ _ _ _ _ R _ _ _ Ht) as (_ & _ & _ & Htd).
    eexists T, _, t. do 5 (split; [done|]). split; [done|]. split; [|split; [|split; [done|]]].
    + eapply same_bytes_weaken; [exact B2|]. intros q [_ Hq] ->. by eapply Hq.
    + eapply same_bytes_hi; [exact B2|]. congruence.
    + intros q j _ Hj Hne. apply W2; [done|]. by apply Hne.
  - intros [-> ->]. wp_steps. by left.
  - intros (-> & R1 & F1 & I1 & B1 & HI1 & Hz). pose proof Hup as (Hp & Hpfl & Hpds & HpT).
    apply not_elem_of_cons in Hpfl as [Hpt Hpfl].
    assert (refs ds (<[(d, PDX va):=t]> T) Mp pp = refs ds T Mp pp) as Hre.
    { unfold refs. rewrite count_insert_None by done. case_decide; [congruence|lia]. }
    eapply wp_wpe; [eapply page_insert_at; [exact R1|by eapply cur_ok_frame|done..| |
      by rewrite Hre|apply lookup_insert_eq]|].
    { unfold user_page. rewrite (pm_frame_npages _ _ F1).
      do 3 (split; [done|]). intros k. rewrite lookup_insert. case_decide; [congruence|done]. }
    intros r s2 (-> & R2 & F2 & Hw & B2 & Hi & W2). right. split; [done|].
    eexists (<[(d, PDX va):=t]> T), _, t.
    do 3 (split; [done|]). split; [by etrans|]. split; [apply lookup_insert_eq|].
    destruct (free_no_role _ _ _ _ _ _ t R) as (Htd & HtT & _); [by left|].
    split; [done|]. split; [|split; [|split; [by rewrite <- (tlb_live_frame s s1)|]]].
    2:{ eapply same_hi_trans; [exact HI1|]. eapply same_bytes_hi; [exact B2|].
        simpl. congruence. }
    2:{ intros q j [k Hq] Hj _. assert (q <> t) as Hqt by (intros ->; by eapply HtT).
        destruct k as [d' i']. pose proof (rep_Tdom _ _ _ _ _ _ R _ _ _ Hq) as (_ & _ & _ & Hqd).
        rewrite W2 by (done || congruence). eapply same_bytes_word; [exact B1| |done]. split; congruence. }
    eapply same_bytes_trans; (eapply same_bytes_weaken; [eassumption|]);
      intros q [Hqd Hq]; simpl; [split; [|done]|]; intros ->; eapply Hq, lookup_insert_eq.
Qed.
End insert.
