(* ===== verification/PmapUser.v ===== *)
(** * user_mem_check: which user addresses the kernel accepts

    The check walks the page directory of the environment one page at a time.
    Here its result is related to the two-level translation of every single
    address of the range.  The second part shows that page_init establishes
    the representation. *)
From S2P Require Import Prelude Mem Mmu Kstate Pmap PmapRep PmapOps.

(** The entry the hardware walk finds for [va] in the directory page [d]. *)
Definition pte_at (s : kst) (d va : Z) : option Z :=
  let e := word (mem s) d (PDX va) in
  if present e then Some (word (mem s) (PGNUM e) (PTX va)) else None.

(** Every present entry of the directory names a page of physical memory. *)
Definition dir_ok (s : kst) (d : Z) : Prop :=
  0 <= d < npages s /\ npages s <= 2^16 /\
  forall i, 0 <= i < 1024 -> present (word (mem s) d i) = true ->
    PGNUM (word (mem s) d i) < npages s.

(** A user access to [a] with permission [perm] is allowed. *)
Definition user_can (s : kst) (d perm a : Z) : bool :=
  (a <? ULIM) &&
  match pte_at s d a with
  | Some e => present e && (Z.land e perm =? perm)
  | None => false
  end.

Section check.
Implicit Types (s : kst).

Lemma ULIM_val : ULIM = 0xEF800000.
Proof. reflexivity. Qed.

Lemma walk_raw_ok s d va :
  dir_ok s d ->
  wp (pgdir_walk (dir_kva d) va false) (fun r s' =>
    s' = s /\
    r = if present (word (mem s) d (PDX va))
        then Some (pte_kva (PGNUM (word (mem s) d (PDX va))) va) else None) s.
Proof.
  intros (Hd & Hn & Hok). pose proof (PDX_range va) as Hi.
  unfold wp, pgdir_walk. wp_steps.
  apply wpe_assert; [apply dir_kva_nonzero; lia|].
  wp_steps. apply wpe_kread32; [lia|lia|]. wp_steps.
  unfold present. destruct (flag (word (mem s) d (PDX va)) PTE_P) eqn:Hp;
    simpl; wp_steps; simpl; [|by wp_steps].
  wp_steps. apply wpe_kread32; [lia|lia|]. wp_steps.
  rewrite PTE_ADDR_spec by apply word_range.
  pose proof (PGNUM_range _ (word_range (mem s) d (PDX va))).
  apply wpe_KADDR; [|lia|by wp_steps]. split; [lia|]. by apply Hok.
Qed.

Lemma user_mem_check_step_ok s d va perm start :
  dir_ok s d ->
  wp (user_mem_check_step (dir_kva d) va perm start) (fun bad s' =>
    bad = negb (user_can s d perm start) /\
    s' = if bad then set_user_mem_check_addr (if start <? va then va else start) s
         else s) s.
Proof.
  intros Hok. unfold wp, user_mem_check_step. wp_steps.
  eapply wp_wpe; [by apply walk_raw_ok|]. intros r s' [-> ->]. wp_steps.
  unfold user_can, pte_at.
  destruct (Z.leb_spec ULIM start) as [Hu|Hu]; simpl.
  { wp_steps. simpl. wp_steps. by destruct (Z.ltb_spec start ULIM); [lia|]. }
  destruct (Z.ltb_spec start ULIM); [|lia]. simpl.
  destruct (present (word (mem s) d (PDX start))) eqn:Hp; [|by wp_steps].
  wp_steps. unfold pte_kva.
  pose proof (PGNUM_range _ (word_range (mem s) d (PDX start))).
  pose proof (PTX_range start).
  apply wpe_kread32; [lia|lia|]. wp_steps.
  generalize (word (mem s) (PGNUM (word (mem s) d (PDX start))) (PTX start)).
  intros e. fold (present e).
  destruct (present e), (Z.land e perm =? perm); simpl; by wp_steps.
Qed.

(** Addresses of one page are accepted together. *)
Lemma user_can_page s d perm a b :
  0 <= a < 2^32 -> 0 <= b < 2^32 -> a / 4096 = b / 4096 ->
  user_can s d perm a = user_can s d perm b.
Proof.
  intros Ha Hb Hab. unfold user_can, pte_at.
  rewrite !PDX_small, !PTX_div by done.
  change (2^22) with (4096 * 1024). rewrite <- !Z.div_div, Hab by lia.
  replace (a <? ULIM) with (b <? ULIM); [done|].
  apply eq_iff_eq_true. rewrite !Z.ltb_lt, ULIM_val.
  pose proof (Z.div_mod a 4096). pose proof (Z.div_mod b 4096).
  pose proof (Z.mod_pos_bound a 4096). pose proof (Z.mod_pos_bound b 4096). lia.
Qed.

(** What a completed check says: every address of the range is accepted, or
    the first one that is not was reported. *)
Definition check_post s d va len perm (r : Z) (s' : kst) : Prop :=
  (r = 0 /\ s' = s /\
   forall a, va <= a < va + len -> user_can s d perm a = true) \/
  (r = - E_FAULT /\ exists a,
   s' = set_user_mem_check_addr a s /\ va <= a /\ (0 < len -> a < va + len) /\
   user_can s d perm a = false /\
   forall b, va <= b < a -> user_can s d perm b = true).

(** All of [va, start) is accepted, [start] being a page boundary or the
    start of the first page. *)
Definition check_inv s0 d va perm (start : Z) (s : kst) : Prop :=
  s = s0 /\ va / 4096 * 4096 <= start /\ start mod 4096 = 0 /\
  forall a, va <= a < start -> user_can s0 d perm a = true.

Lemma user_mem_check_body_ok s d va len perm start end_ s1 :
  dir_ok s d -> 0 <= va -> 0 <= len -> va + len <= 2^32 - 4096 ->
  end_ = (va + len + 4095) / 4096 * 4096 -> check_inv s d va perm start s1 ->
  wp (if start <? end_ then
        let! bad := user_mem_check_step (dir_kva d) va perm start in
        if (bad : bool) then ret (inr (- E_FAULT))
        else ret (inl (u32 (start + PGSIZE)))
      else ret (inr 0))
    (fun r s' => match r with
       | inl start' => check_inv s d va perm start' s' /\
           (Z.to_nat (end_ - start') < Z.to_nat (end_ - start))%nat /\
           start' = start + 4096 /\ start < end_
       | inr z => check_post s d va len perm z s'
       end) s1.
Proof.
  intros Hok Hva Hlen Hov He (-> & Hs & Hal & Hall). unfold wp.
  destruct (Z.ltb_spec start end_) as [Hlt|Hge].
  - assert (start + 4096 <= end_) as Hle by (Z.div_mod_to_equations; lia).
    assert (end_ <= 2^32 - 4096) as Hend by (Z.div_mod_to_equations; lia).
    assert (0 <= start) as Hs0 by (Z.div_mod_to_equations; lia).
    wp_steps. eapply wp_wpe; [by apply user_mem_check_step_ok|].
    intros bad s' [-> ->].
    assert (forall a, va <= a -> start <= a < start + 4096 ->
      user_can s d perm a = user_can s d perm start) as Hpg.
    { intros a Ha1 Ha. apply user_can_page; [lia..|]. Z.div_mod_to_equations; lia. }
    destruct (user_can s d perm start) eqn:Hc; simpl; wp_steps; change PGSIZE with 4096.
    + rewrite u32_small by lia. split; [|lia]. split; [done|]. split; [lia|].
      split; [Z.div_mod_to_equations; lia|]. intros a Ha.
      destruct (Z_lt_le_dec a start); [apply Hall; lia|apply Hpg; lia].
    + right. split; [done|]. exists (if start <? va then va else start).
      split; [done|]. destruct (Z.ltb_spec start va); (split; [lia|]);
        (split; [intros; Z.div_mod_to_equations; lia|]); split.
      * apply Hpg; [lia|Z.div_mod_to_equations; lia].
      * intros b Hb. lia.
      * done.
      * intros b Hb. apply Hall. lia.
  - wp_steps. left. split; [done|]. split; [done|]. intros a Ha. apply Hall.
    Z.div_mod_to_equations; lia.
Qed.

Lemma user_mem_check_ok s e en d va len perm :
  envs s !! e = Some en -> env_pgdir en = dir_kva d -> dir_ok s d ->
  0 <= va -> 0 <= len -> va + len <= 2^32 - 4096 ->
  wp (user_mem_check e va len perm) (check_post s d va len perm) s.
Proof.
  intros Hen Hpd Hok Hva Hlen Hov. unfold wp, user_mem_check. wp_steps.
  eapply wpe_get_env; [done|]. rewrite Hpd. change PGSIZE with 4096.
  assert (ROUNDUP (u32 (va + len)) 4096 = (va + len + 4095) / 4096 * 4096) as ->.
  { unfold ROUNDUP. rewrite ROUNDDOWN_pg, u32_idemp, u32_idemp.
    rewrite (u32_small (va + len)), u32_small by lia. do 2 f_equal. lia. }
  rewrite ROUNDDOWN_pg, (u32_small va) by lia.
  eapply wpe_loop with (I := fun st s' => check_inv s d va perm st s')
    (mu := fun st _ => Z.to_nat (((va + len + 4095) / 4096 * 4096 - st) / 4096 + 1)).
  - intros st s' HI. eapply wp_wpe; [by apply (user_mem_check_body_ok s)|].
    intros [st'|z] s2; [|done]. intros (HI2 & _ & -> & Hlt). split; [done|].
    destruct HI as (_ & _ & Hal & _). apply Z2Nat.inj_lt; Z.div_mod_to_equations; lia.
  - split; [done|]. split; [lia|]. split; [apply Z.mod_mul; lia|].
    intros a Ha. Z.div_mod_to_equations; lia.
  - apply Nat.lt_succ_diag_r.
Qed.
End check.

(** * page_init establishes the representation *)

(** Pages that page_init keeps out of the free list. *)
Definition reserved (basemem extFree i : Z) : bool :=
  (i =? 0) || ((basemem <=? i) && (i <? extFree)) || (i =? PGNUM MPENTRY_PADDR).

(** The allocatable pages of [l], the last one first. *)
Fixpoint free_of (basemem extFree : Z) (l : list Z) (acc : list Z) : list Z :=
  match l with
  | [] => acc
  | i :: l' =>
      free_of basemem extFree l' (if reserved basemem extFree i then acc else i :: acc)
  end.

Lemma elem_of_free_of b x l acc p :
  p ∈ free_of b x l acc <-> (p ∈ l /\ reserved b x p = false) \/ p ∈ acc.
Proof.
  revert acc. induction l as [|i l IH]; intros acc; simpl; [set_solver|].
  rewrite IH, (elem_of_cons l).
  destruct (reserved b x i) eqn:E; rewrite ?elem_of_cons.
  - split; [tauto|]. intros [[[->|?] ?]|?]; [congruence|tauto..].
  - split; [|tauto]. intros [?|[->|?]]; tauto.
Qed.

Lemma NoDup_free_of b x l acc :
  NoDup l -> NoDup acc -> (forall p, p ∈ l -> p ∉ acc) -> NoDup (free_of b x l acc).
Proof.
  revert acc. induction l as [|i l IH]; intros acc Hl Ha Hd; simpl; [done|].
  apply NoDup_cons in Hl as [Hi Hl]. apply IH; [done| |].
  - destruct (reserved b x i); [done|]. constructor; [apply Hd; left|done].
  - intros p Hp. destruct (reserved b x i); [apply Hd; by right|].
    intros [->|Hpa]%elem_of_cons; [done|]. eapply Hd; [by right|done].
Qed.

Lemma free_of_app b x l1 l2 acc :
  free_of b x (l1 ++ l2) acc = free_of b x l2 (free_of b x l1 acc).
Proof. revert acc. induction l1; intros; simpl; auto. Qed.

Section init.
Context (b x n : Z).

(** After the pages of [done] have been visited. *)
Record init_inv (s0 : kst) (done : list Z) (s : kst) : Prop := {
  ii_dom : forall p, is_Some (pages s !! p) <-> 0 <= p < n;
  ii_chain : chain pp_link (pages s) (page_free_list s) (free_of b x done []);
  ii_ref : forall p pi, p ∈ done -> pages s !! p = Some pi -> pp_ref pi = 0;
  ii_link : forall p pi, p ∈ done -> p ∉ free_of b x done [] ->
    pages s !! p = Some pi -> pp_link pi = None;
  ii_mem : mem s = mem s0;
  ii_frame : pm_frame s0 s }.

Lemma page_init_body_ok s0 s done i :
  init_inv s0 done s -> 0 <= i < n -> i ∉ done ->
  wp (page_init_body b x i) (fun _ s' => init_inv s0 (done ++ [i]) s') s.
Proof.
  intros I Hi Hnd. pose proof I as [Hdom Hch Href Hlink Hm Hf].
  destruct (proj2 (Hdom i) Hi) as [pi Hpi].
  assert (i ∉ free_of b x done []) as Hnf.
  { rewrite elem_of_free_of. intros [[? _]|[]%elem_of_nil]; done. }
  unfold wp, page_init_body. wp_steps. eapply wpe_upd_page; [done|].
  fold (reserved b x i).
  assert (forall s', mem s' = mem s -> pm_frame s s' ->
    (exists pi', pages s' = <[i := pi']> (pages s) /\ pp_ref pi' = 0 /\
      if reserved b x i
      then pp_link pi' = None /\ page_free_list s' = page_free_list s
      else pp_link pi' = page_free_list s /\ page_free_list s' = Some i) ->
    init_inv s0 (done ++ [i]) s') as Hstep.
  { intros s' Hm' Hf' (pi' & Hp & Hr & Hl).
    assert (free_of b x (done ++ [i]) [] =
      (if reserved b x i then free_of b x done [] else i :: free_of b x done []))
      as Hfo by (rewrite free_of_app; done).
    pose proof (chain_insert _ _ _ _ i pi' Hch Hnf) as Hch'.
    constructor; rewrite ?Hfo, ?Hp; [| | | |congruence|by etrans].
    - intros p. rewrite lookup_insert. case_decide; [subst; naive_solver|apply Hdom].
    - destruct (reserved b x i); destruct Hl as [Hl ->]; [done|].
      econstructor; [apply lookup_insert_eq|by rewrite Hl].
    - intros p q Hin. rewrite lookup_insert. case_decide; [naive_solver|].
      apply Href. set_solver.
    - intros p q Hin Hout. rewrite lookup_insert. case_decide as Hip.
      + intros [= <-]. subst p. destruct (reserved b x i); [naive_solver|set_solver].
      + apply Hlink; [set_solver|]. destruct (reserved b x i); set_solver. }
  destruct (reserved b x i) eqn:Hres; wp_steps.
  - eapply wpe_upd_page; [apply lookup_insert_eq|]. apply Hstep; [done|done|].
    eexists. split; [simpl; apply insert_insert_eq|]. done.
  - eapply wpe_upd_page; [apply lookup_insert_eq|]. wp_steps. apply Hstep; [done|done|].
    eexists. split; [simpl; apply insert_insert_eq|]. done.
Qed.
End init.

(** The first address boot_alloc has not handed out. *)
Definition first_free `{Linker} (s : kst) : Z :=
  if nextfree s =? 0 then ROUNDUP k_end PGSIZE else nextfree s.

Lemma boot_alloc_0_ok `{Linker} s :
  wp (boot_alloc 0) (fun r s' => r = first_free s /\ s' = set_nextfree r s) s.
Proof.
  unfold wp, boot_alloc, first_free. wp_steps.
  destruct (Z.eqb_spec (nextfree s) 0) as [E|E]; wp_steps; simpl; wp_steps; [done|].
  split; [done|]. by destruct s.
Qed.

Lemma refs_empty p : refs ∅ ∅ ∅ p = 0.
Proof.
  unfold refs, count. rewrite map_filter_empty, map_size_empty.
  rewrite decide_False by set_solver. done.
Qed.

Lemma init_rep b x s0 s :
  0 < npages s <= 2^16 -> init_inv b x (npages s) s0 (seqZ 0 (npages s)) s ->
  pm_rep s (free_of b x (seqZ 0 (npages s)) []) ∅ ∅ ∅ (fun _ => 0).
Proof.
  intros Hn [Hdom Hch Href Hlink Hm Hf].
  assert (forall p pi, pages s !! p = Some pi -> p ∈ seqZ 0 (npages s)) as Hin.
  { intros p pi Hp. apply elem_of_seqZ. rewrite Z.add_0_l. apply Hdom. eauto. }
  constructor; [exact Hn|exact Hdom|exact Hch|..].
  - apply NoDup_free_of; [apply NoDup_seqZ|constructor|set_solver].
  - intros p pi Hp Hnf. eapply Hlink; eauto.
  - intros p pi Hp. rewrite refs_empty, (Href p pi) by eauto. lia.
  - intros p. lia.
  - intros p _. rewrite refs_empty. lia.
  - intros d []%elem_of_empty.
  - intros d i []%elem_of_empty.
  - intros d i t Ht. by rewrite lookup_empty in Ht.
  - intros k1 k2 t Ht. by rewrite lookup_empty in Ht.
  - intros d i t j Ht. by rewrite lookup_empty in Ht.
  - intros d v p Hp. by rewrite lookup_empty in Hp.
  - intros d i t Ht. by rewrite lookup_empty in Ht.
Qed.

Lemma page_init_ok `{Linker} s :
  page_free_list s = None -> 0 < npages s <= 2^16 ->
  (forall p, is_Some (pages s !! p) <-> 0 <= p < npages s) ->
  KERNBASE <= first_free s ->
  wp page_init (fun _ s' => exists fl,
    pm_rep s' fl ∅ ∅ ∅ (fun _ => 0) /\ mem s' = mem s /\
    npages s' = npages s /\
    forall p, p ∈ fl <-> 0 <= p < npages s /\
      reserved (npages_basemem s) (PGNUM (first_free s - KERNBASE)) p = false) s.
Proof.
  intros Hfl Hn Hdom Hk. unfold wp, page_init. wp_steps.
  rewrite Hfl. apply wpe_assert; [done|]. wp_steps.
  eapply wp_wpe; [apply boot_alloc_0_ok|]. intros r s1 [-> ->]. wp_steps.
  unfold PADDR. destruct (Z.ltb_spec (first_free s) KERNBASE); [lia|]. wp_steps.
  change (npages (set_nextfree (first_free s) s)) with (npages s).
  change (npages_basemem (set_nextfree (first_free s) s)) with (npages_basemem s).
  set (s1 := set_nextfree (first_free s) s).
  eapply wpe_mono; [eapply wpe_for with (pre := [])
    (Inv := init_inv (npages_basemem s) (PGNUM (first_free s - KERNBASE)) (npages s) s1)
    (E := fun _ => False)| |done].
  - constructor; [exact Hdom| |set_solver..|done|done].
    unfold s1. simpl. rewrite Hfl. constructor.
  - intros dn i todo s' HI Heq. simpl in Heq.
    assert (i ∈ seqZ 0 (npages s)) as Hi by (rewrite Heq; set_solver).
    apply elem_of_seqZ in Hi.
    eapply wp_wpe; [eapply page_init_body_ok; [done|lia|]|done].
    intros Hd. pose proof (NoDup_seqZ 0 (npages s)) as Hnd. rewrite Heq in Hnd.
    apply NoDup_app in Hnd as (_ & Hdj & _). apply (Hdj i Hd). by left.
  - intros [] s' HI. simpl in HI.
    assert (npages s' = npages s) as Hnp by (eapply (pm_frame_npages s1), HI).
    eexists. split; [eapply init_rep; rewrite Hnp; [done|exact HI]|].
    split; [apply HI|]. split; [done|]. intros p. rewrite elem_of_free_of, Hnp, elem_of_seqZ.
    rewrite elem_of_nil. naive_solver lia.
Qed.
