(* ===== verification/PmapThms.v ===== *)
(** * The contract of kern/pmap.c

    The theorems other parts of the kernel rely on, each at a concrete state
    as well: five pages of memory, page 1 a page directory, pages 2 and 3
    free. *)
From S2P Require Import Prelude Mem Mmu Kstate Pmap PmapRep PmapOps PmapUser.

(** ** A concrete machine *)

Definition ex_pages : gmap Z PageInfo :=
  list_to_map [(0, mkPage None 0); (1, mkPage None 1); (2, mkPage (Some 3) 0);
               (3, mkPage None 0); (4, mkPage None 0)].

Definition ex_env : Env :=
  mkEnv zero_tf None 4096 0 ENV_TYPE_USER ENV_RUNNING 0 0 (dir_kva 1) 0
        false 0 0 0 0.

Definition ex_st : kst :=
  mkK ∅ 5 0 ex_pages (Some 2) 0 0 0 0 {[0 := ex_env]} None (Some 0) 0 CPU_STARTED
      true 0 [] 0 (mkCons ∅ 0 0) (mkNic 0 ∅ ∅ 0 0 ∅ ∅).

Lemma word_empty p i : word ∅ p i = 0.
Proof. reflexivity. Qed.

Lemma ex_pages_lookup p :
  ex_pages !! p =
    if decide (0 <= p < 5) then
      Some (mkPage (if decide (p = 2) then Some 3 else None)
                   (if decide (p = 1) then 1 else 0))
    else None.
Proof.
  case_decide as H.
  - assert (p = 0 \/ p = 1 \/ p = 2 \/ p = 3 \/ p = 4) as Hc by lia.
    by destruct Hc as [->|[->|[->|[->| ->]]]].
  - unfold ex_pages. simpl. rewrite !lookup_insert_ne by lia. apply lookup_empty.
Qed.

Lemma ex_refs p : refs {[1]} ∅ ∅ p = if decide (p = 1) then 1 else 0.
Proof.
  unfold refs, count. rewrite map_filter_empty, map_size_empty.
  repeat case_decide; set_solver.
Qed.

Lemma ex_rep : pm_rep ex_st [2; 3] {[1]} ∅ ∅ no_ex.
Proof.
  constructor; unfold no_ex; simpl pages; simpl npages; simpl mem; simpl page_free_list.
  - lia.
  - intros p. rewrite ex_pages_lookup. case_decide; split; naive_solver.
  - do 2 (econstructor; [reflexivity|]). constructor.
  - repeat constructor; set_solver.
  - intros p pi. rewrite ex_pages_lookup. repeat case_decide; set_solver.
  - intros p pi. rewrite ex_pages_lookup, ex_refs. repeat case_decide; naive_solver lia.
  - lia.
  - intros p Hp. rewrite ex_refs. case_decide; set_solver.
  - intros d ->%elem_of_singleton. lia.
  - intros d i _ _. by rewrite lookup_empty, word_empty.
  - intros d i t Ht. by rewrite lookup_empty in Ht.
  - intros k1 k2 t Ht. by rewrite lookup_empty in Ht.
  - intros d i t j Ht. by rewrite lookup_empty in Ht.
  - intros d v p Hp. by rewrite lookup_empty in Hp.
  - intros d i t Ht. by rewrite lookup_empty in Ht.
Qed.

Lemma ex_cur_ok : cur_ok ex_st.
Proof. by exists ex_env. Qed.

Lemma ex_user_page : user_page ex_st [2; 3] {[1]} ∅ 4.
Proof. repeat split; try done; set_solver. Qed.

Lemma ex_dir_ok : dir_ok ex_st 1.
Proof. split; [done|]. split; [done|]. intros i _. simpl mem. by rewrite word_empty. Qed.

#[local] Instance ex_linker : Linker := {| k_end := 0xF0102345; percpu_kstacks _ := 0 |}.
Definition boot_pages : gmap Z PageInfo :=
  list_to_map ((fun p => (p, mkPage None 0)) <$> seqZ 0 300).
Definition ex_boot : kst :=
  set_page_free_list None (set_npages 300 (set_pages boot_pages ex_st)).

(** ** Allocation and mapping *)

(** C11: page_insert, on every branch and for every user address: it fails with
    -E_NO_MEM and no effect exactly when a page table is missing and no page is
    free; otherwise the page is mapped at the address (replacing what was
    mapped, also when it is the same page), every reference count is again the
    number of references, the free list is the one it must be, no byte outside
    the directory and its page tables changes, and the TLB is flushed. *)
Theorem page_insert_spec s fl ds T Mp ex d va pp perm :
  pm_rep s fl ds T Mp ex -> cur_ok s -> d ∈ ds -> 0 <= va < UTOP ->
  0 <= perm < 4096 -> user_page s fl ds T pp ->
  refs ds T Mp pp + ex pp + 1 < 2^16 ->
  wp (page_insert (dir_kva d) pp va perm)
     (insert_post s fl ds T Mp ex d va pp perm) s.
Proof. apply page_insert_ok. Qed.

Lemma page_insert_spec_witness :
  wp (page_insert (dir_kva 1) 4 0x800000 6)
     (insert_post ex_st [2; 3] {[1]} ∅ ∅ no_ex 1 0x800000 4 6) ex_st.
Proof.
  apply (page_insert_spec ex_st [2; 3] {[1]} ∅ ∅ no_ex);
    [apply ex_rep|apply ex_cur_ok|set_solver|by vm_compute|lia|apply ex_user_page|].
  rewrite ex_refs. unfold no_ex. case_decide; lia.
Defined.

(** page_remove returns the reference the mapping held: nothing happens
    where nothing is mapped; otherwise the mapping disappears, one entry of the
    page table is cleared, the page goes back to the free list exactly when
    this was its last reference, and the TLB is flushed. *)
Theorem page_remove_spec s fl ds T Mp ex d va :
  pm_rep s fl ds T Mp ex -> cur_ok s -> d ∈ ds -> 0 <= va < UTOP ->
  wp (page_remove (dir_kva d) va) (fun _ s' => remove_post s fl ds T Mp ex d va s') s.
Proof. apply page_remove_ok. Qed.

Lemma page_remove_spec_witness :
  wp (page_remove (dir_kva 1) 0x800000)
     (fun _ s' => remove_post ex_st [2; 3] {[1]} ∅ ∅ no_ex 1 0x800000 s') ex_st.
Proof.
  apply (page_remove_spec ex_st [2; 3] {[1]} ∅ ∅ no_ex);
    [apply ex_rep|apply ex_cur_ok|set_solver|by vm_compute].
Defined.

(** The page [page_lookup] finds. *)
Definition looked_up (r : option (Z * Z)) : option Z := fst <$> r.

Lemma page_lookup_map s fl ds T Mp ex d va :
  pm_rep s fl ds T Mp ex -> d ∈ ds -> 0 <= va < UTOP ->
  wp (page_lookup (dir_kva d) va)
     (fun r s' => s' = s /\ looked_up r = Mp !! vkey d va) s.
Proof.
  intros R Hd Hva. eapply wp_mono; [by eapply page_lookup_ok|].
  intros r s' [-> Hr]. split; [done|].
  destruct (Mp !! vkey d va); [|by subst]. by destruct Hr as (t & _ & ->).
Qed.

(** A page table is a map from user pages to physical pages: after a
    successful page_insert, page_lookup finds the page at the address, and at
    every other address, in this and in every other directory, it finds what
    it found before. *)
Theorem page_insert_lookup s fl ds T Mp ex d va pp perm d' va' :
  pm_rep s fl ds T Mp ex -> cur_ok s -> d ∈ ds -> d' ∈ ds ->
  0 <= va < UTOP -> 0 <= va' < UTOP ->
  0 <= perm < 4096 -> user_page s fl ds T pp ->
  refs ds T Mp pp + ex pp + 1 < 2^16 ->
  wp (let! before := page_lookup (dir_kva d') va' in
      let! r := page_insert (dir_kva d) pp va perm in
      let! after := page_lookup (dir_kva d') va' in
      ret (looked_up before, r, looked_up after))
    (fun res _ => let '(before, r, after) := res in
      (r = 0 \/ r = - E_NO_MEM) /\
      after = (if decide (r = 0 /\ vkey d' va' = vkey d va) then Some pp else before)) s.
Proof.
  intros R Hc Hd Hd' Hva Hva' Hperm Hup Hov. unfold wp. wp_steps.
  eapply wp_wpe; [by eapply page_lookup_map|]. intros b s1 [-> Hb]. wp_steps.
  eapply wp_wpe; [by eapply page_insert_ok|]. intros r s2.
  intros [(-> & -> & _)|(-> & T' & fl' & t & _ & _ & R' & _)]; wp_steps.
  - eapply wp_wpe; [by eapply page_lookup_map|]. intros a s3 [-> Ha]. wp_steps.
    split; [by right|]. rewrite decide_False by (intros [? _]; done). congruence.
  - eapply wp_wpe; [by eapply page_lookup_map|]. intros a s3 [-> Ha]. wp_steps.
    split; [by left|]. rewrite Ha, Hb, lookup_insert.
    destruct (decide (vkey d va = vkey d' va')).
    + by rewrite decide_True.
    + rewrite decide_False; [done|]. intros [_ ?]. congruence.
Qed.

Lemma page_insert_lookup_witness :
  wp (let! before := page_lookup (dir_kva 1) 0x801000 in
      let! r := page_insert (dir_kva 1) 4 0x800000 6 in
      let! after := page_lookup (dir_kva 1) 0x801000 in
      ret (looked_up before, r, looked_up after))
    (fun res _ => let '(before, r, after) := res in
      (r = 0 \/ r = - E_NO_MEM) /\
      after = (if decide (r = 0 /\ vkey 1 0x801000 = vkey 1 0x800000)
               then Some 4 else before)) ex_st.
Proof.
  apply (page_insert_lookup ex_st [2; 3] {[1]} ∅ ∅ no_ex);
    [apply ex_rep|apply ex_cur_ok|set_solver|set_solver|by vm_compute|by vm_compute|lia
    |apply ex_user_page|].
  rewrite ex_refs. unfold no_ex. case_decide; lia.
Defined.

Definition page_zeroed (p : Z) (s : kst) : bool :=
  forallb (fun a => getb (mem s) a =? 0) (seqZ (p * 4096) 4096).

Lemma page_zeroed_true p s :
  (forall a, p * 4096 <= a < p * 4096 + 4096 -> getb (mem s) a = 0) ->
  page_zeroed p s = true.
Proof.
  intros Hz. unfold page_zeroed. apply forallb_forall. intros a Ha.
  apply list_elem_of_In, elem_of_seqZ in Ha. by apply Z.eqb_eq, Hz.
Qed.

#[local] Opaque page_zeroed.

(** Page_alloc hands out the head of the free list, zeroed when asked, and
    changes no other page; it fails exactly when the list is empty.  Freeing
    the page again restores the allocator. *)
Theorem page_alloc_free s fl ds T Mp ex flags :
  pm_rep s fl ds T Mp ex ->
  wp (let! r := page_alloc flags in
      match r with
      | None => ret None
      | Some p =>
          let! zero := gets (page_zeroed p) in
          page_free p ;;; ret (Some (p, zero))
      end)
    (fun r s' =>
      pm_rep s' fl ds T Mp ex /\ pm_frame s s' /\ fst <$> r = head fl /\
      same_bytes (fun q => Some q <> head fl) s s' /\
      (flag flags ALLOC_ZERO = true -> r = (fun p => (p, true)) <$> head fl)) s.
Proof.
  intros R. unfold wp. wp_steps. eapply wp_wpe; [by apply page_alloc_ok|].
  intros [p|] s1; [|by intros [-> ->]; wp_steps].
  intros (fl' & -> & R1 & F1 & _ & Hp & B1 & Hz). wp_steps.
  pose proof (rep_nodup _ _ _ _ _ _ R) as Hnd. apply NoDup_cons in Hnd as [Hnin _].
  eapply wp_wpe; [eapply page_free_ok; [exact R1| |done|]|].
  { by rewrite (pm_frame_npages _ _ F1). }
  { apply (rep_free _ _ _ _ _ _ R). by left. }
  intros [] s2 (R2 & F2 & M2 & _). wp_steps. split; [done|]. split; [by etrans|].
  split; [done|]. split.
  - intros q a Hq Ha. rewrite M2. eapply B1; [|done]. simpl in Hq. congruence.
  - intros Hf. by rewrite (page_zeroed_true p s1) by (by apply Hz).
Qed.

Lemma page_alloc_free_witness :
  wp (let! r := page_alloc ALLOC_ZERO in
      match r with
      | None => ret None
      | Some p =>
          let! zero := gets (page_zeroed p) in
          page_free p ;;; ret (Some (p, zero))
      end)
    (fun r s' =>
      pm_rep s' [2; 3] {[1]} ∅ ∅ no_ex /\ pm_frame ex_st s' /\ fst <$> r = Some 2 /\
      same_bytes (fun q => Some q <> Some 2) ex_st s' /\
      (flag ALLOC_ZERO ALLOC_ZERO = true -> r = Some (2, true))) ex_st.
Proof. apply (page_alloc_free ex_st [2; 3] {[1]} ∅ ∅ no_ex), ex_rep. Defined.

(** Page_init puts into the free list exactly the pages that are not
    reserved (page 0, the hole between base memory and the first address
    boot_alloc has left, and the page of the AP boot code), each once and with
    a zero reference count, and so establishes the invariant of the page
    allocator. *)
Theorem page_init_spec `{Linker} s :
  page_free_list s = None -> 0 < npages s <= 2^16 ->
  (forall p, is_Some (pages s !! p) <-> 0 <= p < npages s) ->
  KERNBASE <= first_free s ->
  wp page_init (fun _ s' => exists fl,
    pm_rep s' fl ∅ ∅ ∅ no_ex /\ mem s' = mem s /\ npages s' = npages s /\
    forall p, p ∈ fl <-> 0 <= p < npages s /\ p <> 0 /\
      ~ (npages_basemem s <= p < PGNUM (first_free s - KERNBASE)) /\
      p <> PGNUM MPENTRY_PADDR) s.
Proof.
  intros H1 H2 H3 H4. eapply wp_mono; [by apply page_init_ok|].
  intros [] s' (fl & R & Hm & Hn & Hfl). exists fl. repeat (split; [done|]).
  intros p. rewrite Hfl. unfold reserved.
  destruct (Z.eqb_spec p 0), (Z.leb_spec (npages_basemem s) p),
    (Z.ltb_spec p (PGNUM (first_free s - KERNBASE))),
    (Z.eqb_spec p (PGNUM MPENTRY_PADDR)); simpl; naive_solver lia.
Qed.

Lemma ex_boot_dom p : is_Some (pages ex_boot !! p) <-> 0 <= p < 300.
Proof.
  change (pages ex_boot) with boot_pages. unfold boot_pages. split.
  - intros [pi Hpi]. apply elem_of_list_to_map_2 in Hpi.
    apply list_elem_of_fmap in Hpi as (q & [= -> ->] & Hq). apply elem_of_seqZ in Hq. lia.
  - intros Hp. eexists. apply elem_of_list_to_map_1.
    + rewrite <- list_fmap_compose.
      rewrite (list_fmap_ext _ id) by done. rewrite list_fmap_id. apply NoDup_seqZ.
    + apply list_elem_of_fmap. exists p. split; [done|]. apply elem_of_seqZ. lia.
Qed.

Lemma page_init_spec_witness :
  wp page_init (fun _ s' => exists fl,
    pm_rep s' fl ∅ ∅ ∅ no_ex /\ mem s' = mem ex_boot /\ npages s' = npages ex_boot /\
    forall p, p ∈ fl <-> 0 <= p < npages ex_boot /\ p <> 0 /\
      ~ (npages_basemem ex_boot <= p < PGNUM (first_free ex_boot - KERNBASE)) /\
      p <> PGNUM MPENTRY_PADDR) ex_boot.
Proof.
  apply (page_init_spec ex_boot);
    [reflexivity|by vm_compute|apply ex_boot_dom|by vm_compute].
Defined.

(** ** Checking user pointers *)

(** For a range that stays clear of the last page of the address space,
    user_mem_check is exact: it returns 0 iff every address of the range is
    below ULIM and mapped with the permissions; otherwise it returns -E_FAULT
    and leaves the first offending address of the range in
    user_mem_check_addr. *)
Theorem user_mem_check_exact s e en d va len perm :
  envs s !! e = Some en -> env_pgdir en = dir_kva d -> dir_ok s d ->
  0 <= va -> 0 <= len -> va + len <= 2^32 - 4096 ->
  wp (user_mem_check e va len perm) (check_post s d va len perm) s.
Proof. apply user_mem_check_ok. Qed.

Lemma user_mem_check_exact_witness :
  wp (user_mem_check 0 0x800800 0x1000 PTE_U)
     (check_post ex_st 1 0x800800 0x1000 PTE_U) ex_st.
Proof.
  apply (user_mem_check_exact ex_st 0 ex_env);
    [reflexivity|reflexivity|apply ex_dir_ok|by vm_compute..].
Defined.

(** The end of the range is computed modulo 2^32: for any range that ends
    exactly at the top of the address space the loop does not run and the
    check succeeds, although every address above ULIM belongs to the kernel. *)
Theorem user_mem_check_wraps s e en va perm :
  envs s !! e = Some en -> ULIM <= va < 2^32 ->
  user_mem_check e va (2^32 - va) perm s = Ok 0 s /\
  forall d, user_can s d perm va = false.
Proof.
  intros He Hva. split.
  - unfold user_mem_check, bind, get_env, gets, deref, bind. rewrite He. unfold ret.
    replace (va + (2^32 - va)) with (2^32) by lia.
    change (ROUNDUP (u32 (2^32)) PGSIZE) with 0.
    pose proof (ROUNDDOWN_range va PGSIZE ltac:(done)) as Hr.
    simpl loop. destruct (Z.ltb_spec (ROUNDDOWN va PGSIZE) 0); [lia|done].
  - intros d. unfold user_can. destruct (Z.ltb_spec va ULIM); [lia|done].
Qed.

Lemma user_mem_check_wraps_witness :
  user_mem_check 0 0xFFFF0000 (2^32 - 0xFFFF0000) PTE_U ex_st = Ok 0 ex_st /\
  forall d, user_can ex_st d PTE_U 0xFFFF0000 = false.
Proof.
  apply (user_mem_check_wraps ex_st 0 ex_env); [reflexivity|by vm_compute].
Defined.
