(* ===== verification/Env.v ===== *)
(** * kern/env.c and kern/sched.c: environments and the scheduler

    An environment is its index in [envs].  Code that ends in env_pop_tf, in
    the halt loop of sched_halt or in the kernel monitor does not return to
    its caller: its outcome is [Leave] with the state at that point. *)
From S2P Require Import Prelude Mem Mmu Kstate Pmap.

(** ** Machine operations *)

(** lcr3 of inc/x86.h. *)
Definition lcr3 (pa : Z) : K unit := modify (set_cr3 pa).

Definition lock_kernel : K unit :=
  let! l := gets kernel_lock in
  if (l : bool) then panic "already holding" else modify (set_kernel_lock true).

Definition unlock_kernel : K unit :=
  let! l := gets kernel_lock in
  if (l : bool) then modify (set_kernel_lock false) else panic "spin_unlock".

(** The translation of a user address by the directory in CR3 for an access
    of the kernel (CR0.WP is set, so stores need PTE_W). *)
Definition translate (s : kst) (va : Z) (store : bool) : option Z :=
  let need := if store then Z.lor PTE_P PTE_W else PTE_P in
  let pde := read32 (mem s) (PTE_ADDR (cr3 s) + 4 * PDX va) in
  if negb (Z.land pde need =? need) then None
  else
    let pte := read32 (mem s) (PTE_ADDR pde + 4 * PTX va) in
    if negb (Z.land pte need =? need) then None
    else Some (PTE_ADDR pte + PGOFF va).

(** The physical address behind an address the kernel dereferences; a fault
    in kernel mode is a panic of page_fault_handler. *)
Definition access (va : Z) (store : bool) : K Z :=
  if KERNBASE <=? va then ret (va - KERNBASE)
  else
    let! s := gets id in
    match translate s va store with
    | Some pa => ret pa
    | None => panic "page_fault_handler: kernel page fault"
    end.

Definition vload8 (va : Z) : K Z :=
  let! pa := access va false in gets (fun s => getb (mem s) pa).

Definition vstore8 (va b : Z) : K unit :=
  let! pa := access va true in modify (fun s => set_mem (setb (mem s) pa b) s).

(** A 32-bit load byte by byte, so that it may cross a page. *)
Definition vload32 (va : Z) : K Z :=
  let! b0 := vload8 va in
  let! b1 := vload8 (u32 (va + 1)) in
  let! b2 := vload8 (u32 (va + 2)) in
  let! b3 := vload8 (u32 (va + 3)) in
  ret (b0 + 2^8 * b1 + 2^16 * b2 + 2^24 * b3).

Definition vload16 (va : Z) : K Z :=
  let! b0 := vload8 va in
  let! b1 := vload8 (u32 (va + 1)) in
  ret (b0 + 2^8 * b1).

Definition vstore32 (va v : Z) : K unit :=
  vstore8 va (u8 v) ;;;
  vstore8 (u32 (va + 1)) (u8 (v / 2^8)) ;;;
  vstore8 (u32 (va + 2)) (u8 (v / 2^16)) ;;;
  vstore8 (u32 (va + 3)) (u8 (v / 2^24)).

(** memcpy and memset through the current address space. *)
Definition vmemcpy (dst src n : Z) : K unit :=
  for_ (seqZ 0 n) (fun i =>
    let! b := vload8 (u32 (src + i)) in vstore8 (u32 (dst + i)) b).

Definition vmemset (dst c n : Z) : K unit :=
  for_ (seqZ 0 n) (fun i => vstore8 (u32 (dst + i)) (u8 c)).

(** ** Environment identifiers *)

Definition envid2env (envid : Z) (checkperm : bool) : K (Z * option Z) :=
  let! c := gets cur_env in
  if envid =? 0 then ret (0, c)
  else
    let e := ENVX envid in
    let! en := get_env e in
    if bool_decide (env_status en = ENV_FREE) || negb (env_id en =? envid)
    then ret (- E_BAD_ENV, None)
    else
      let! bad :=
        (if checkperm && bool_decide (Some e <> c) then
           let! ce := deref c in
           let! cen := get_env ce in
           ret (negb (env_parent_id en =? env_id cen))
         else ret false) in
      if (bad : bool) then ret (- E_BAD_ENV, None) else ret (0, Some e).

(** ** Creating environments *)

(** [memset(envs, 0, sizeof(envs))]: [envs] is a pointer, so four bytes, the
    [reg_edi] of the first environment.  The segment registers that
    env_init_percpu loads are not part of the state. *)
Definition env_init : K unit :=
  upd_env 0 (fun en =>
    let tf := env_tf en in
    let r := tf_regs tf in
    set_env_tf (set_tf_regs (mkRegs 0 (reg_esi r) (reg_ebp r) (reg_oesp r)
      (reg_ebx r) (reg_edx r) (reg_ecx r) (reg_eax r)) tf) en) ;;;
  modify (set_env_free_list None) ;;;
  for_ (reverse (seqZ 0 NENV)) (fun i =>
    let! fl := gets env_free_list in
    upd_env i (set_env_link fl) ;;;
    modify (set_env_free_list (Some i))) ;;;
  let! fl := gets env_free_list in
  assert_ (bool_decide (fl = Some 0)) "env_free_list == envs".

Definition env_setup_vm (e : Z) : K Z :=
  let! op := page_alloc ALLOC_ZERO in
  match op with
  | None => ret (- E_NO_MEM)
  | Some p =>
      let! pgdir := page2kva p in
      upd_env e (set_env_pgdir pgdir) ;;;
      pp_incref p ;;;
      let! kd := gets kern_pgdir in
      kmemcpy pgdir kd PGSIZE ;;;
      let! pa := PADDR pgdir in
      kwrite32 (pgdir + 4 * PDX UVPT) (Z.lor (Z.lor pa PTE_P) PTE_U) ;;;
      ret 0
  end.

(** The identifier env_alloc gives to slot [e] whose last one was [old];
    the 32-bit sum wraps. *)
Definition next_env_id (old e : Z) : Z :=
  let generation := Z.land (s32 (old + 2^ENVGENSHIFT)) (Z.lnot (NENV - 1)) in
  let generation := if generation <=? 0 then 2^ENVGENSHIFT else generation in
  Z.lor generation e.

Definition new_tf : Trapframe :=
  mkTf zero_regs (Z.lor GD_UD 3) (Z.lor GD_UD 3) 0 0 0 (Z.lor GD_UT 3)
       (Z.lor 0 FL_IF) USTACKTOP (Z.lor GD_UD 3).

Definition env_alloc (parent_id : Z) : K (Z * option Z) :=
  let! fl := gets env_free_list in
  match fl with
  | None => ret (- E_NO_FREE_ENV, None)
  | Some e =>
      let! r := env_setup_vm e in
      if r <? 0 then ret (r, None)
      else
        upd_env e (fun en => set_env_id (next_env_id (env_id en) e) en) ;;;
        upd_env e (set_env_parent_id parent_id) ;;;
        upd_env e (set_env_type ENV_TYPE_USER) ;;;
        upd_env e (set_env_status ENV_RUNNABLE) ;;;
        upd_env e (set_env_runs 0) ;;;
        upd_env e (set_env_tf new_tf) ;;;
        upd_env e (set_env_pgfault_upcall 0) ;;;
        upd_env e (set_env_ipc_recving false) ;;;
        let! en := get_env e in
        modify (set_env_free_list (env_link en)) ;;;
        ret (0, Some e)
  end.

Definition region_alloc (e va len : Z) : K unit :=
  let l := ROUNDUP len PGSIZE in
  loop (Z.to_nat (l / PGSIZE + 2))
    (fun st =>
       let '(i, v) := st in
       if i <? l then
         let! op := page_alloc 0 in
         match op with
         | None => panic "region_alloc"
         | Some p =>
             let! en := get_env e in
             let! r := page_insert (env_pgdir en) p v (Z.lor PTE_U PTE_W) in
             assert_ (r =? 0) "!page_insert" ;;;
             let v' := u32 (v + PGSIZE) in
             assert_ ((va <? v') && (i <? len)) "v > va && i < len" ;;;
             ret (inl (u32 (i + PGSIZE), v'))
         end
       else ret (inr tt))
    (0, ROUNDDOWN va PGSIZE).

(** ELF headers (inc/elf.h) at kernel addresses. *)
Definition ELF_MAGIC : Z := 0x464C457F.
Definition ELF_PROG_LOAD : Z := 1.
Definition sizeof_Proghdr : Z := 32.

Definition load_segment (e binary ph : Z) : K unit :=
  let! p_type := vload32 ph in
  if p_type =? ELF_PROG_LOAD then
    let! p_offset := vload32 (ph + 4) in
    let! p_va := vload32 (ph + 8) in
    let! p_filesz := vload32 (ph + 16) in
    let! p_memsz := vload32 (ph + 20) in
    region_alloc e p_va p_memsz ;;;
    let src := u32 (binary + p_offset) in
    vmemcpy p_va src p_filesz ;;;
    if p_filesz <? p_memsz
    then vmemset (u32 (p_va + p_filesz)) 0 (p_memsz - p_filesz)
    else ret tt
  else ret tt.

Definition load_icode (e binary : Z) : K unit :=
  let! magic := vload32 binary in
  assert_ (magic =? ELF_MAGIC) "ELFHDR->e_magic == ELF_MAGIC" ;;;
  let! phoff := vload32 (binary + 28) in
  let! phnum := vload16 (binary + 44) in
  let! en := get_env e in
  let! pa := PADDR (env_pgdir en) in
  lcr3 pa ;;;
  for_ (seqZ 0 phnum) (fun i =>
    load_segment e binary (u32 (binary + phoff + i * sizeof_Proghdr))) ;;;
  let! kd := gets kern_pgdir in
  let! kpa := PADDR kd in
  lcr3 kpa ;;;
  let! entry := vload32 (binary + 24) in
  upd_env e (fun en => set_env_tf (set_tf_eip entry (env_tf en)) en) ;;;
  region_alloc e (USTACKTOP - PGSIZE) PGSIZE.

Definition env_create (binary : Z) (type : EnvType) : K unit :=
  let! r := env_alloc 0 in
  assert_ (fst r =? 0) "!env_alloc" ;;;
  let! e := deref (snd r) in
  upd_env e (set_env_parent_id 0) ;;;
  upd_env e (set_env_type type) ;;;
  (if bool_decide (type = ENV_TYPE_FS) then
     upd_env e (fun en => set_env_tf
       (set_tf_eflags (Z.lor (tf_eflags (env_tf en)) FL_IOPL_MASK) (env_tf en)) en)
   else ret tt) ;;;
  load_icode e binary.

(** ** Freeing environments *)

Definition env_free_pte (pgdir pt pdeno pteno : Z) : K unit :=
  let! e := kread32 (pt + 4 * pteno) in
  if flag e PTE_P then page_remove pgdir (PGADDR pdeno pteno 0) else ret tt.

Definition env_free_pde (pgdir pdeno : Z) : K unit :=
  let! pde := kread32 (pgdir + 4 * pdeno) in
  if negb (flag pde PTE_P) then ret tt
  else
    let pa := PTE_ADDR pde in
    let! pt := KADDR pa in
    for_ (seqZ 0 1024) (env_free_pte pgdir pt pdeno) ;;;
    kwrite32 (pgdir + 4 * pdeno) 0 ;;;
    let! pp := pa2page pa in
    page_decref pp.

Definition env_free (e : Z) : K unit :=
  let! c := gets cur_env in
  (if bool_decide (Some e = c) then
     let! kd := gets kern_pgdir in
     let! kpa := PADDR kd in
     lcr3 kpa
   else ret tt) ;;;
  let! en := get_env e in
  for_ (seqZ 0 (PDX UTOP)) (env_free_pde (env_pgdir en)) ;;;
  let! pa := PADDR (env_pgdir en) in
  upd_env e (set_env_pgdir 0) ;;;
  let! pp := pa2page pa in
  page_decref pp ;;;
  upd_env e (set_env_status ENV_FREE) ;;;
  let! fl := gets env_free_list in
  upd_env e (set_env_link fl) ;;;
  modify (set_env_free_list (Some e)).

(** ** Running environments *)

Definition env_pop_tf {A} : K A :=
  let! c := gets cur_env in
  let! ce := deref c in
  let! n := gets cpu_num in
  upd_env ce (set_env_cpunum n) ;;;
  leave.

Definition env_run {A} (e : Z) : K A :=
  let! c := gets cur_env in
  (match c with
   | Some ce =>
       let! cen := get_env ce in
       if bool_decide (env_status cen = ENV_RUNNING)
       then upd_env ce (set_env_status ENV_RUNNABLE) else ret tt
   | None => ret tt
   end) ;;;
  modify (set_cur_env (Some e)) ;;;
  upd_env e (set_env_status ENV_RUNNING) ;;;
  upd_env e (fun en => set_env_runs (u32 (env_runs en + 1)) en) ;;;
  let! en := get_env e in
  let! pa := PADDR (env_pgdir en) in
  lcr3 pa ;;;
  unlock_kernel ;;;
  env_pop_tf.

(** When nothing can ever run again the CPU stays in the kernel monitor
    without releasing the lock. *)
Definition sched_halt {A} : K A :=
  let! alive := for_each (seqZ 0 NENV) (fun i =>
    let! en := get_env i in
    ret (match env_status en with
         | ENV_RUNNABLE | ENV_RUNNING | ENV_DYING => Some tt
         | _ => None
         end)) in
  match alive with
  | None => leave
  | Some _ =>
      modify (set_cur_env None) ;;;
      let! kd := gets kern_pgdir in
      let! kpa := PADDR kd in
      lcr3 kpa ;;;
      modify (set_cpu_status CPU_HALTED) ;;;
      unlock_kernel ;;;
      leave
  end.

Definition sched_yield {A} : K A :=
  let! now := gets cur_env in
  let! startid := (match now with
    | Some e => let! en := get_env e in ret (ENVX (env_id en))
    | None => ret 0
    end) in
  let! found := for_each (seqZ 0 NENV) (fun i =>
    let nextid := (startid + i) `mod` NENV in
    let! en := get_env nextid in
    ret (if bool_decide (env_status en = ENV_RUNNABLE) then Some nextid else None)) in
  match found with
  | Some nextid => env_run nextid
  | None =>
      let! en := get_env startid in
      let! n := gets cpu_num in
      if bool_decide (env_status en = ENV_RUNNING) && (env_cpunum en =? n)
      then env_run startid
      else sched_halt
  end.

Definition env_destroy (e : Z) : K unit :=
  let! en := get_env e in
  let! c := gets cur_env in
  if bool_decide (env_status en = ENV_RUNNING) && bool_decide (c <> Some e)
  then upd_env e (set_env_status ENV_DYING)
  else
    env_free e ;;;
    let! c' := gets cur_env in
    if bool_decide (c' = Some e) then
      modify (set_cur_env None) ;;; sched_yield
    else ret tt.

(** kern/pmap.c *)
Definition user_mem_assert (e va len perm : Z) : K unit :=
  let! r := user_mem_check e va len (Z.lor perm PTE_U) in
  if r <? 0 then env_destroy e else ret tt.
