(* ===== verification/EnvRep.v ===== *)
(** * The invariant of the kernel state

    [KP] are the pages the kernel keeps for itself (the kernel page directory
    [kd] among them): they are never free, never mapped by an environment and
    never a user directory or page table.  [kx] are the references the boot
    code took on them.  On top of the page-table view [pm_rep] the invariant
    says that the [envs] array is well formed, that the live environments and
    the page directories correspond one to one, and that every directory
    agrees with the kernel's one above UTOP (but for its own UVPT entry). *)
From S2P Require Import Prelude Mem Mmu Kstate Pmap PmapRep PmapOps PmapUser Env.

(** ** The [envs] array *)

Definition live (en : Env) : Prop := env_status en <> ENV_FREE.

#[export] Instance live_dec en : Decision (live en).
Proof. unfold live. apply _. Defined.

Record env_wf (s : kst) (el : list Z) : Prop := {
  ew_dom : forall e, is_Some (envs s !! e) <-> 0 <= e < NENV;
  ew_chain : chain env_link (envs s) (env_free_list s) el;
  ew_nodup : NoDup el;
  ew_free : forall e en, envs s !! e = Some en -> (e ∈ el <-> ~ live en);
  ew_id : forall e en, envs s !! e = Some en ->
    0 <= env_id en < 2^31 /\ (env_id en = 0 \/ ENVX (env_id en) = e) /\
    (live en -> env_id en <> 0);
  ew_cur : forall c, cur_env s = Some c ->
    exists en, envs s !! c = Some en /\ live en }.

(** Live environments and directories correspond. *)
Record env_vm (s : kst) (ds : gset Z) : Prop := {
  ev_dir : forall e en, envs s !! e = Some en -> live en ->
    exists d, d ∈ ds /\ env_pgdir en = dir_kva d;
  ev_own : forall d, d ∈ ds ->
    exists e en, envs s !! e = Some en /\ live en /\ env_pgdir en = dir_kva d;
  ev_inj : forall e1 e2 en1 en2,
    envs s !! e1 = Some en1 -> envs s !! e2 = Some en2 -> live en1 -> live en2 ->
    env_pgdir en1 = env_pgdir en2 -> e1 = e2 }.

Section kinv.
Context (KP : gset Z) (kx : Z -> Z) (kd : Z).
Implicit Types (s : kst) (fl el : list Z) (ds : gset Z) (T Mp : gmap (Z * Z) Z).

Record kinv s fl ds T Mp el : Prop := {
  ki_pm : pm_rep s fl ds T Mp kx;
  ki_kx : forall p, p ∉ KP -> kx p = 0;
  ki_own : forall p, p ∈ KP ->
    0 <= p < npages s /\ (p ∉ fl) /\ refs ds T Mp p = 0;
  ki_kd : kd ∈ KP;
  ki_kpd : kern_pgdir s = dir_kva kd;
  ki_klo : forall i, 0 <= i < UPDX -> present (word (mem s) kd i) = false;
  ki_khi : forall i, UPDX <= i < 1024 -> present (word (mem s) kd i) = true ->
    PGNUM (word (mem s) kd i) ∈ KP;
  ki_hi : forall d i, d ∈ ds -> UPDX <= i < 1024 ->
    word (mem s) d i = if decide (i = PDX UVPT) then d * 4096 + 5 else word (mem s) kd i;
  ki_env : env_wf s el;
  ki_dirs : env_vm s ds }.

Lemma env_wf_frame s s' el : pm_frame s s' -> env_wf s el -> env_wf s' el.
Proof.
  intros F [Hd Hc Hn Hf Hi Hcur].
  constructor; rewrite ?(pm_frame_envs _ _ F), ?(pm_frame_env_fl _ _ F),
    ?(pm_frame_cur _ _ F); assumption.
Qed.

Lemma env_vm_frame s s' ds : pm_frame s s' -> env_vm s ds -> env_vm s' ds.
Proof.
  intros F%pm_frame_envs []. constructor; rewrite F; assumption.
Qed.

(** Page-table operations that leave the kernel's pages alone. *)
Lemma kinv_pm s s' fl fl' ds T T' Mp Mp' el :
  kinv s fl ds T Mp el -> pm_rep s' fl' ds T' Mp' kx -> pm_frame s s' ->
  (forall p, p ∈ KP -> (p ∉ fl') /\ refs ds T' Mp' p = 0) ->
  same_bytes (fun q => q = kd) s s' -> same_hi ds s s' ->
  kinv s' fl' ds T' Mp' el.
Proof.
  intros I R F Hown B Hhi.
  assert (forall i, 0 <= i < 1024 -> word (mem s') kd i = word (mem s) kd i) as Hw.
  { intros i Hi. eapply same_bytes_word; [exact B|done|done]. }
  pose proof UPDX_val as HU.
  constructor.
  - exact R.
  - apply (ki_kx _ _ _ _ _ _ I).
  - intros p Hp. rewrite (pm_frame_npages _ _ F). split; [|by apply Hown].
    by apply (ki_own _ _ _ _ _ _ I).
  - apply (ki_kd _ _ _ _ _ _ I).
  - rewrite (pm_frame_kpd _ _ F). apply (ki_kpd _ _ _ _ _ _ I).
  - intros i Hi. rewrite Hw by lia. by apply (ki_klo _ _ _ _ _ _ I).
  - intros i Hi. rewrite Hw by lia. by apply (ki_khi _ _ _ _ _ _ I).
  - intros d i Hd Hi. rewrite (Hhi d i), (Hw i) by (done || lia).
    by apply (ki_hi _ _ _ _ _ _ I).
  - eapply env_wf_frame; [done|apply (ki_env _ _ _ _ _ _ I)].
  - eapply env_vm_frame; [done|apply (ki_dirs _ _ _ _ _ _ I)].
Qed.

(** ** What the operations of pmap.c do to it *)

Lemma kinv_cur_ok s fl ds T Mp el : kinv s fl ds T Mp el -> cur_ok s.
Proof.
  intros I. unfold cur_ok. destruct (cur_env s) as [c|] eqn:Hc; [|done].
  destruct (ew_cur _ _ (ki_env _ _ _ _ _ _ I) c Hc) as (en & -> & _). eauto.
Qed.

Lemma kinv_dir_ok s fl ds T Mp el d : kinv s fl ds T Mp el -> d ∈ ds -> dir_ok s d.
Proof.
  intros I Hd. pose proof (ki_pm _ _ _ _ _ _ I) as R.
  pose proof (rep_np _ _ _ _ _ _ R). pose proof (rep_ds _ _ _ _ _ _ R d Hd).
  split; [lia|]. split; [lia|]. intros i Hi Hp.
  destruct (Z_lt_le_dec i UPDX) as [Hlo|Hhi].
  - pose proof (rep_T _ _ _ _ _ _ R d i Hd ltac:(lia)) as HT. unfold decode in HT.
    rewrite Hp in HT. apply (rep_Tdom _ _ _ _ _ _ R) in HT. lia.
  - pose proof (ki_hi _ _ _ _ _ _ I d i Hd ltac:(lia)) as Hw. case_decide.
    + rewrite Hw, PGNUM_flags by lia. lia.
    + rewrite Hw in Hp |- *. 
      destruct (ki_own _ _ _ _ _ _ I _ (ki_khi _ _ _ _ _ _ I i ltac:(lia) Hp)). lia.
Qed.

Lemma count_insert_other (m : gmap (Z * Z) Z) k q p :
  q <> p -> count (<[k := q]> m) p <= count m p.
Proof.
  intros Hne. destruct (m !! k) as [q0|] eqn:Hk.
  - rewrite (count_insert_Some m k q0) by done. repeat case_decide; try lia; congruence.
  - rewrite count_insert_None by done. case_decide; [congruence|lia].
Qed.

Lemma refs_insert_own ds T Mp k pp p :
  pp <> p -> refs ds T Mp p = 0 -> refs ds T (<[k := pp]> Mp) p = 0.
Proof.
  intros Hne H0. pose proof (refs_nonneg ds T (<[k := pp]> Mp) p).
  pose proof (count_insert_other Mp k pp p Hne). unfold refs in *. lia.
Qed.

Lemma refs_grow_own ds T Mp fl d va p :
  (p ∉ fl) -> refs ds T Mp p = 0 -> refs ds (grow_T T fl d va) Mp p = 0.
Proof.
  intros Hp H0. unfold grow_T. destruct (T !! (d, PDX va)); [done|].
  destruct fl as [|t fl]; [done|]. apply not_elem_of_cons in Hp as [Hpt _].
  pose proof (refs_nonneg ds (<[(d, PDX va) := t]> T) Mp p).
  pose proof (count_insert_other T (d, PDX va) t p ltac:(done)). unfold refs in *. lia.
Qed.

Lemma insert_fl_own ds T Mp k pp fl fl0 p :
  refs ds T Mp p = 0 -> (p ∉ fl0) -> (forall q, q ∈ fl -> q ∈ fl0) ->
  p ∉ insert_fl ds T Mp kx k pp fl.
Proof.
  intros H0 Hp Hsub. apply refs_zero in H0 as (_ & _ & HM). unfold insert_fl.
  destruct (Mp !! k) as [old|] eqn:Hk; [|by eauto].
  case_decide; [|by eauto]. rewrite not_elem_of_cons. split; [|by eauto].
  intros ->. by apply (HM k).
Qed.

Lemma grow_fl_sub T fl d va p : p ∈ grow_fl T fl d va -> p ∈ fl.
Proof.
  unfold grow_fl. destruct (T !! _); [done|]. destruct fl; [done|]. by right.
Qed.

(** The three views after a successful insertion. *)
Definition ins_T T fl d va := grow_T T fl d va.
Definition ins_fl ds T Mp fl d va pp :=
  insert_fl ds (grow_T T fl d va) Mp kx (vkey d va) pp (grow_fl T fl d va).

Lemma kinv_insert s fl ds T Mp el d va pp perm r s' :
  kinv s fl ds T Mp el -> d ∈ ds -> pp ∉ KP ->
  insert_post s fl ds T Mp kx d va pp perm r s' ->
  (r = - E_NO_MEM /\ s' = s /\ T !! (d, PDX va) = None /\ fl = []) \/
  (r = 0 /\ pm_frame s s' /\
   kinv s' (ins_fl ds T Mp fl d va pp) ds (ins_T T fl d va) (<[vkey d va := pp]> Mp) el).
Proof.
  intros I Hd Hpp [?|(-> & T' & fl' & t & -> & -> & R & F & Ht & Hw & B & Hhi & _)];
    [by left|right].
  split; [done|]. split; [done|]. eapply kinv_pm; [done|exact R|exact F| | |exact Hhi].
  - intros p Hp. destruct (ki_own _ _ _ _ _ _ I p Hp) as (_ & Hfl & H0). split.
    + eapply insert_fl_own; [by apply refs_grow_own|exact Hfl|apply grow_fl_sub].
    + apply refs_insert_own; [congruence|]. by apply refs_grow_own.
  - eapply same_bytes_weaken; [exact B|]. intros q ->.
    destruct (ki_own _ _ _ _ _ _ I kd (ki_kd _ _ _ _ _ _ I)) as (_ & Hfl & H0).
    pose proof (refs_grow_own ds T Mp fl d va kd Hfl H0) as Hg.
    apply refs_zero in Hg as (Hkd & HT & _). split; [congruence|done].
Qed.

Lemma refs_delete_own ds T Mp k p : refs ds T Mp p = 0 -> refs ds T (delete k Mp) p = 0.
Proof.
  intros H0. destruct (Mp !! k) as [q|] eqn:Hk; [|by rewrite delete_id].
  rewrite (refs_delete _ _ _ _ q) by done.
  apply refs_zero in H0 as Hz. destruct Hz as (_ & _ & Hz).
  case_decide; [subst; by destruct (Hz k)|lia].
Qed.

(** The free list after an unmapping. *)
Definition rem_fl ds T Mp fl d va :=
  match Mp !! vkey d va with
  | Some p => if decide (refs ds T Mp p + kx p = 1) then p :: fl else fl
  | None => fl
  end.

Lemma kinv_remove s fl ds T Mp el d va s' :
  kinv s fl ds T Mp el -> remove_post s fl ds T Mp kx d va s' ->
  pm_frame s s' /\ kinv s' (rem_fl ds T Mp fl d va) ds T (delete (vkey d va) Mp) el /\
  (forall q i, (forall k, T !! k <> Some q) -> 0 <= i < 1024 ->
     word (mem s') q i = word (mem s) q i).
Proof.
  intros I. unfold remove_post, rem_fl. destruct (Mp !! vkey d va) as [p|] eqn:HM.
  2:{ intros ->. by rewrite delete_id. }
  intros (R & F & (t & Ht & Hm) & _). split; [done|].
  pose proof (ki_pm _ _ _ _ _ _ I) as R0. pose proof (PTX_range va).
  destruct (rep_Tdom _ _ _ _ _ _ R0 _ _ _ Ht) as (_ & _ & _ & Htd).
  assert (forall q i, q <> t -> 0 <= i < 1024 -> word (mem s') q i = word (mem s) q i) as Hw.
  { intros q i Hq Hi. rewrite Hm. apply word_write_ne; [done|done|congruence]. }
  split.
  2:{ intros q i Hq Hi. apply Hw; [|done]. intros ->. by eapply Hq. }
  eapply kinv_pm; [exact I|exact R|exact F| | |].
  - intros q Hq. destruct (ki_own _ _ _ _ _ _ I q Hq) as (_ & Hfl & H0).
    split; [|by apply refs_delete_own]. apply refs_zero in H0 as (_ & _ & HMq).
    case_decide; [|done]. rewrite not_elem_of_cons. split; [|done].
    intros ->. by destruct (HMq (vkey d va)).
  - intros q a -> Ha. rewrite Hm. apply getb_write32_ne.
    destruct (ki_own _ _ _ _ _ _ I kd (ki_kd _ _ _ _ _ _ I)) as (_ & _ & H0).
    apply refs_zero in H0 as (_ & HT & _). assert (kd <> t) by (intros ->; by eapply HT). lia.
  - intros q i Hq Hi. rewrite UPDX_val in Hi. apply Hw; [congruence|lia].
Qed.

(** A page taken from the free list. *)
Lemma kinv_alloc s fl ds T Mp el p fl' s' :
  kinv s fl ds T Mp el -> fl = p :: fl' -> pm_rep s' fl' ds T Mp kx -> pm_frame s s' ->
  same_bytes (fun q => q <> p) s s' ->
  kinv s' fl' ds T Mp el /\ user_page s' fl' ds T p /\ (p ∉ KP) /\
  refs ds T Mp p = 0 /\ kx p = 0.
Proof.
  intros I -> R F B. pose proof (ki_pm _ _ _ _ _ _ I) as R0.
  destruct (free_no_role _ _ _ _ _ _ p R0) as (Hds & HT & HM); [by left|].
  pose proof (rep_free _ _ _ _ _ _ R0 p ltac:(by left)) as Hf.
  pose proof (refs_nonneg ds T Mp p) as Hge. pose proof (rep_ex _ _ _ _ _ _ R0 p) as Hx.
  assert (p ∉ KP) as HKP.
  { intros Hp. destruct (ki_own _ _ _ _ _ _ I p Hp) as (_ & Hn & _).
    apply Hn. by left. }
  pose proof (rep_nodup _ _ _ _ _ _ R0) as [Hnin _]%NoDup_cons.
  assert (is_Some (pages s !! p)) as Hp%(rep_dom _ _ _ _ _ _ R0).
  { eapply chain_elem; [apply (rep_chain _ _ _ _ _ _ R0)|by left]. }
  split; [|repeat split; try done; rewrite ?(pm_frame_npages _ _ F); lia].
  eapply kinv_pm; [exact I|exact R|exact F| | |].
  - intros q Hq. destruct (ki_own _ _ _ _ _ _ I q Hq) as (_ & Hfl & Hq0).
    split; [|done]. by apply not_elem_of_cons in Hfl as [_ ?].
  - eapply same_bytes_weaken; [exact B|]. intros q ->.
    pose proof (ki_kd _ _ _ _ _ _ I). congruence.
  - eapply same_bytes_hi; [exact B|]. simpl. congruence.
Qed.

Lemma kinv_page_alloc_ok s fl ds T Mp el flags :
  kinv s fl ds T Mp el ->
  wp (page_alloc flags) (fun r s' =>
    match r with
    | None => fl = [] /\ s' = s
    | Some p => exists fl', fl = p :: fl' /\ kinv s' fl' ds T Mp el /\ pm_frame s s' /\
        user_page s' fl' ds T p /\ (p ∉ KP) /\ refs ds T Mp p = 0 /\ kx p = 0 /\
        same_bytes (fun q => q <> p) s s' /\
        (flag flags ALLOC_ZERO = true ->
         forall a, p * 4096 <= a < p * 4096 + 4096 -> getb (mem s') a = 0)
    end) s.
Proof.
  intros I. eapply wp_mono; [apply page_alloc_ok, I|].
  intros [p|] s'; [|done]. intros (fl' & -> & R & F & _ & _ & B & Hz).
  exists fl'. split; [done|].
  edestruct kinv_alloc as (I' & Hup & Hkp & H0 & Hx); [exact I|done|exact R|done|done|].
  naive_solver.
Qed.

(** ** What the updates of [envs] and of the other fields do to it *)

(** The fields that [pm_rep] reads. *)
Definition pm_core s := (mem s, npages s, pages s, page_free_list s, kern_pgdir s).

Lemma rep_core s s' fl ds T Mp ex :
  pm_core s' = pm_core s -> pm_rep s fl ds T Mp ex -> pm_rep s' fl ds T Mp ex.
Proof.
  intros [= Em En Ep Ef _] []. constructor; rewrite ?Em, ?En, ?Ep, ?Ef; assumption.
Qed.

Lemma kinv_core s s' fl ds T Mp el el' :
  pm_core s' = pm_core s -> kinv s fl ds T Mp el -> env_wf s' el' -> env_vm s' ds ->
  kinv s' fl ds T Mp el'.
Proof.
  intros C [] He Hv. pose proof C as [= Em En Ep Ef Ek].
  constructor; rewrite ?Em, ?En, ?Ek; try assumption. by eapply rep_core.
Qed.

(** An update of one environment that keeps what the invariant is about. *)
Definition env_same (en en' : Env) : Prop :=
  (live en' <-> live en) /\ env_link en' = env_link en /\ env_id en' = env_id en /\
  env_pgdir en' = env_pgdir en.

Lemma env_wf_upd s el e en en' :
  env_wf s el -> envs s !! e = Some en -> env_same en en' ->
  env_wf (set_envs (<[e := en']> (envs s)) s) el.
Proof.
  intros [Hd Hc Hn Hf Hi Hcur] He (Hl & Hlk & Hid & _). constructor; simpl.
  - intros x. rewrite lookup_insert. case_decide as Hx; [|done]. subst.
    rewrite <- Hd, He. split; eauto.
  - by eapply chain_same_link.
  - done.
  - intros x y. rewrite lookup_insert. case_decide as Hx; [|by eauto]. intros [= <-].
    subst. rewrite Hl. by apply Hf.
  - intros x y. rewrite lookup_insert. case_decide as Hx; [|by eauto]. intros [= <-].
    subst. rewrite Hl, Hid. by apply Hi.
  - intros c Hc'. destruct (Hcur c Hc') as (y & Hy & Hly). rewrite lookup_insert.
    case_decide as Hx; [|by eauto]. subst. exists en'. simplify_eq. split; [done|].
    by apply Hl.
Qed.

Lemma env_vm_upd s ds e en en' :
  env_vm s ds -> envs s !! e = Some en -> env_same en en' ->
  env_vm (set_envs (<[e := en']> (envs s)) s) ds.
Proof.
  intros [Hd Ho Hi] He (Hl & _ & _ & Hpd).
  assert (forall x y, <[e := en']> (envs s) !! x = Some y -> live y ->
    exists z, envs s !! x = Some z /\ live z /\ env_pgdir y = env_pgdir z) as Hback.
  { intros x y. rewrite lookup_insert. case_decide as Hx; [|by eauto]. intros [= <-] Hy.
    subst. exists en. split; [done|]. split; [by apply Hl|done]. }
  constructor; simpl.
  - intros x y Hx Hy. destruct (Hback x y Hx Hy) as (z & Hz & Hlz & ->). by eapply Hd.
  - intros d (x & y & Hx & Hy & Hp)%Ho. destruct (decide (e = x)) as [->|].
    + exists x, en'. rewrite lookup_insert_eq. simplify_eq. split; [done|].
      split; [by apply Hl|congruence].
    + exists x, y. by rewrite lookup_insert_ne.
  - intros x1 x2 y1 y2 H1 H2 L1 L2 Hp.
    destruct (Hback x1 y1 H1 L1) as (z1 & Hz1 & Hl1 & E1).
    destruct (Hback x2 y2 H2 L2) as (z2 & Hz2 & Hl2 & E2).
    eapply Hi; [exact Hz1|exact Hz2|done|done|congruence].
Qed.

Lemma kinv_upd_env s fl ds T Mp el e en en' :
  kinv s fl ds T Mp el -> envs s !! e = Some en -> env_same en en' ->
  kinv (set_envs (<[e := en']> (envs s)) s) fl ds T Mp el.
Proof.
  intros I He Hs. eapply kinv_core; [|exact I| |]; [done| |].
  - eapply env_wf_upd; [apply I|done|done].
  - eapply env_vm_upd; [apply I|done|done].
Qed.

(** The remaining fields. *)
Lemma kinv_misc s s' fl ds T Mp el :
  kinv s fl ds T Mp el -> pm_core s' = pm_core s -> envs s' = envs s ->
  env_free_list s' = env_free_list s ->
  (forall c, cur_env s' = Some c -> exists en, envs s !! c = Some en /\ live en) ->
  kinv s' fl ds T Mp el.
Proof.
  intros I C He Hf Hc. eapply kinv_core; [exact C|exact I| |].
  - destruct (ki_env _ _ _ _ _ _ I). constructor; rewrite ?He, ?Hf; assumption.
  - destruct (ki_dirs _ _ _ _ _ _ I). constructor; rewrite ?He; assumption.
Qed.

(** The environment behind a live slot. *)
Lemma kinv_env s fl ds T Mp el e en :
  kinv s fl ds T Mp el -> envs s !! e = Some en -> live en ->
  exists d, d ∈ ds /\ env_pgdir en = dir_kva d.
Proof. intros I. apply (ev_dir _ _ (ki_dirs _ _ _ _ _ _ I)). Qed.

Lemma kinv_slot s fl ds T Mp el e :
  kinv s fl ds T Mp el -> 0 <= e < NENV -> exists en, envs s !! e = Some en.
Proof. intros I He. by apply (ew_dom _ _ (ki_env _ _ _ _ _ _ I)). Qed.
End kinv.
