(* ===== verification/EnvOps.v ===== *)
(** * What the operations of env.c do to the kernel invariant *)
From S2P Require Import Prelude Mem Mmu Kstate Pmap PmapRep PmapOps PmapUser Env EnvRep.

(** ** Identifiers *)

Lemma ENVX_mod id : ENVX id = id `mod` 1024.
Proof. unfold ENVX. change (NENV - 1) with (Z.ones 10). by rewrite Z.land_ones. Qed.

Lemma ENVX_range id : 0 <= ENVX id < NENV.
Proof. rewrite ENVX_mod. by apply Z.mod_pos_bound. Qed.

(** The identifier as generation and index. *)
Lemma next_env_id_split old e :
  0 <= old < 2^31 -> 0 <= e < NENV ->
  exists g, next_env_id old e = g * 1024 + e /\ 0 < g < 2^21 /\ g <> old / 1024.
Proof.
  intros Ho He. unfold next_env_id. change (NENV - 1) with (Z.ones 10).
  change (2^ENVGENSHIFT) with 4096. rewrite land_lnot_ones by lia.
  change (2^10) with 1024. unfold NENV in He.
  destruct (Z_lt_le_dec (old + 4096) (2^31)) as [Hs|Hs].
  - rewrite s32_small by lia.
    destruct (Z.leb_spec ((old + 4096) / 1024 * 1024) 0) as [Hz|Hz].
    { Z.div_mod_to_equations; lia. }
    exists ((old + 4096) / 1024).
    split; [by apply (lor_mul_low 10); lia|]. change (2^31) with (2097152 * 1024) in *.
    change (2^21) with 2097152.
    replace (old + 4096) with (old + 4 * 1024) in * by lia.
    rewrite Z.div_add in * by lia.
    pose proof (Z.div_pos old 1024 ltac:(lia) ltac:(lia)).
    pose proof (Z.div_lt_upper_bound (old + 4 * 1024) 1024 2097152 ltac:(lia) ltac:(lia)) as Hd.
    rewrite Z.div_add in Hd by lia. lia.
  - assert (s32 (old + 4096) = old + 4096 - 2^32) as ->.
    { unfold s32. rewrite u32_small by lia.
      destruct (Z.ltb_spec (old + 4096) (2^31)); lia. }
    destruct (Z.leb_spec ((old + 4096 - 2^32) / 1024 * 1024) 0) as [Hz|Hz].
    2:{ Z.div_mod_to_equations; lia. }
    exists 4. split; [by apply (lor_mul_low 10 4); lia|]. split; [lia|].
    pose proof (Z.div_le_lower_bound old 1024 2097148 ltac:(lia) ltac:(lia)). lia.
Qed.

Lemma next_env_id_ok old e :
  0 <= old < 2^31 -> 0 <= e < NENV ->
  0 < next_env_id old e < 2^31 /\ ENVX (next_env_id old e) = e /\
  next_env_id old e <> old.
Proof.
  intros Ho He. destruct (next_env_id_split old e Ho He) as (g & -> & Hg & Hne).
  unfold NENV in He. rewrite ENVX_mod. split; [lia|]. split.
  - rewrite Z.add_comm, Z.mod_add by lia. apply Z.mod_small. lia.
  - intros E. apply Hne. rewrite <- E. rewrite Z.div_add_l by lia.
    rewrite Z.div_small; lia.
Qed.

(** ** envid2env *)

(** The environment that [id] names for a caller, if it may use it. *)
Definition may_use (s : kst) (id : Z) (checkperm : bool) (e : Z) : Prop :=
  exists en, envs s !! e = Some en /\ live en /\ env_id en = id /\
  (checkperm = true -> cur_env s = Some e \/
     exists c cen, cur_env s = Some c /\ envs s !! c = Some cen /\
       env_parent_id en = env_id cen).

Definition envid_post (s : kst) (id : Z) (checkperm : bool) (r : Z * option Z) : Prop :=
  if decide (id = 0) then r = (0, cur_env s)
  else (exists e, r = (0, Some e) /\ may_use s id checkperm e) \/
       (r = (- E_BAD_ENV, None) /\ forall e, ~ may_use s id checkperm e).

Lemma live_id_slot (s : kst) (el : list Z) e en :
  env_wf s el -> envs s !! e = Some en -> live en -> ENVX (env_id en) = e.
Proof. intros W He Hl. destruct (ew_id _ _ W e en He) as (_ & [?|?] & Hn); naive_solver. Qed.

Lemma envid2env_ok (s : kst) (el : list Z) id checkperm :
  env_wf s el -> (checkperm = true -> is_Some (cur_env s)) ->
  wp (envid2env id checkperm) (fun r s' => s' = s /\ envid_post s id checkperm r) s.
Proof.
  intros W Hcur. unfold wp, envid2env, envid_post. wp_steps.
  destruct (decide (id = 0)) as [->|Hid]; [by wp_steps|].
  destruct (Z.eqb_spec id 0) as [|_]; [done|].
  destruct (proj2 (ew_dom _ _ W (ENVX id)) (ENVX_range id)) as [en He]. wp_steps.
  eapply wpe_get_env; [done|].
  assert (forall e, may_use s id checkperm e -> e = ENVX id) as Huniq.
  { intros e (en' & He' & Hl & <- & _). symmetry. by eapply live_id_slot. }
  destruct (decide (env_status en = ENV_FREE)) as [Hf|Hf].
  { rewrite bool_decide_eq_true_2 by done. simpl. wp_steps. split; [done|right].
    split; [done|]. intros e Hm. pose proof (Huniq e Hm) as ->.
    destruct Hm as (en' & He' & Hl & _). by simplify_eq. }
  rewrite bool_decide_eq_false_2 by done. simpl.
  destruct (Z.eqb_spec (env_id en) id) as [Hi|Hi]; simpl; wp_steps.
  2:{ split; [done|right]. split; [done|]. intros e Hm. pose proof (Huniq e Hm) as ->.
      destruct Hm as (en' & He' & _ & Hi' & _). by simplify_eq. }
  destruct checkperm; simpl.
  2:{ wp_steps. split; [done|left]. exists (ENVX id). split; [done|]. by exists en. }
  case_bool_decide as Hc.
  - destruct (Hcur eq_refl) as [c Hcc]. wp_steps. eapply wpe_deref; [done|]. wp_steps.
    destruct (ew_cur _ _ W c Hcc) as (cen & Hcen & _).
    eapply wpe_get_env; [done|]. wp_steps.
    destruct (Z.eqb_spec (env_parent_id en) (env_id cen)) as [Hp|Hp]; simpl; wp_steps.
    + split; [done|left]. exists (ENVX id). split; [done|]. exists en. naive_solver.
    + split; [done|right]. split; [done|]. intros e Hm. pose proof (Huniq e Hm) as ->.
      destruct Hm as (en' & He' & _ & _ & Hm). simplify_eq.
      destruct (Hm eq_refl) as [?|(c' & cen' & ? & ? & ?)]; [congruence|naive_solver].
  - wp_steps. split; [done|left]. exists (ENVX id). split; [done|]. exists en.
    repeat (split; [done|]). intros _. by left.
Qed.

Section ops.
Context (KP : gset Z) (kx : Z -> Z) (kd : Z).
Implicit Types (s : kst) (fl el : list Z) (ds : gset Z) (T Mp : gmap (Z * Z) Z).
Local Notation kinv := (kinv KP kx kd).

(** ** env_setup_vm *)

Lemma UVPT_idx : PDX UVPT = 957.
Proof. reflexivity. Qed.

Lemma refs_add_dir ds T Mp p q :
  (p ∉ ds) -> refs ({[p]} ∪ ds) T Mp q = refs ds T Mp q + if decide (q = p) then 1 else 0.
Proof. intros Hp. unfold refs. repeat case_decide; set_solver by lia. Qed.

(** A page without a role whose user entries are empty becomes a directory. *)
Lemma rep_add_dir s fl ds T Mp ex p :
  pm_rep s fl ds T Mp (bump ex p 1) -> 0 <= p < npages s -> (p ∉ fl) ->
  refs ds T Mp p = 0 -> (forall q, 0 <= ex q) ->
  (forall i, 0 <= i < UPDX -> present (word (mem s) p i) = false) ->
  pm_rep s fl ({[p]} ∪ ds) T Mp ex.
Proof.
  intros R Hp Hfl H0 Hex Hlo. apply refs_zero in H0 as Hz. destruct Hz as (Hpd & HpT & HpM).
  destruct R as [Hnp Hdom Hc Hnd Hl Hr He Hf Hds HT HTd HTi HM HMd Hpde].
  assert (forall q, refs ({[p]} ∪ ds) T Mp q + ex q = refs ds T Mp q + bump ex p 1 q) as Hrf.
  { intros q. rewrite refs_add_dir by done. unfold bump. case_decide; lia. }
  constructor; try assumption.
  - intros q pi Hq. rewrite Hrf. by apply Hr.
  - intros q Hq. rewrite Hrf. by apply Hf.
  - intros d [->%elem_of_singleton|Hd]%elem_of_union; [done|by apply Hds].
  - intros d i [->%elem_of_singleton|Hd]%elem_of_union Hi; [|by apply HT].
    unfold decode. rewrite Hlo by done. destruct (T !! (p, i)) as [t|] eqn:E; [|done].
    by apply HTd in E as (? & _).
  - intros d i t Ht. pose proof (HTd _ _ _ Ht) as (? & ? & ? & ?).
    split; [set_solver|]. do 2 (split; [done|]). intros [->%elem_of_singleton|?]%elem_of_union; [|done].
    by eapply HpT.
  - intros d v q Hq. pose proof (HMd _ _ _ Hq) as (? & ? & ? & ?). do 2 (split; [done|]).
    split; [|done]. intros [->%elem_of_singleton|?]%elem_of_union; [|done].
    by eapply HpM.
Qed.

(** The memory after the kernel directory was copied to page [p] and entry
    [j] overwritten. *)
Definition dir_copy (m : gmap Z Z) (p j v : Z) : gmap Z Z :=
  write32 (put_bytes m (p * 4096) (bytes_at m (kd * 4096) (Z.to_nat PGSIZE)))
    (p * 4096 + 4 * j) v.

Lemma dir_copy_word m p j v i :
  0 <= j < 1024 -> 0 <= v < 2^32 -> 0 <= i < 1024 ->
  word (dir_copy m p j v) p i = if decide (i = j) then v else word m kd i.
Proof.
  intros Hj Hv Hi. unfold dir_copy. case_decide as Hij.
  - subst. by rewrite word_write_eq, u32_small.
  - rewrite word_write_ne by (done || congruence). unfold word.
    rewrite read32_copy by (change PGSIZE with 4096; lia). f_equal. lia.
Qed.

Lemma dir_copy_other m p j v q a :
  0 <= j < 1024 -> q <> p -> q * 4096 <= a < q * 4096 + 4096 ->
  getb (dir_copy m p j v) a = getb m a.
Proof.
  intros Hj Hq Ha. unfold dir_copy. rewrite getb_write32_ne by lia.
  rewrite getb_copy. change PGSIZE with 4096. case_decide; [lia|done].
Qed.

Definition setup_post s fl ds T Mp e en (r : Z) s' : Prop :=
  (r = - E_NO_MEM /\ s' = s /\ fl = []) \/
  (r = 0 /\ exists p fl', fl = p :: fl' /\ pm_rep s' fl' ({[p]} ∪ ds) T Mp kx /\
     (p ∉ KP) /\ refs ds T Mp p = 0 /\
     (forall i, 0 <= i < 1024 ->
        word (mem s') p i = if decide (i = PDX UVPT) then p * 4096 + 5 else word (mem s) kd i) /\
     same_bytes (fun q => q <> p) s s' /\
     pm_frame (set_envs (<[e := set_env_pgdir (dir_kva p) en]> (envs s)) s) s').

Lemma env_setup_vm_ok s fl ds T Mp el e en :
  kinv s fl ds T Mp el -> envs s !! e = Some en ->
  wp (env_setup_vm e) (setup_post s fl ds T Mp e en) s.
Proof.
  intros I He. unfold wp, env_setup_vm. wp_steps.
  eapply wp_wpe; [by eapply kinv_page_alloc_ok|]. intros [p|] s1.
  2:{ intros [-> ->]. wp_steps. by left. }
  intros (fl' & -> & I1 & F1 & (Hp & Hpfl & Hpds & HpT) & HKP & H0 & Hx & B & _).
  pose proof (ki_pm _ _ _ _ _ _ _ _ _ I1) as R1. pose proof (rep_np _ _ _ _ _ _ R1) as Hnp.
  unfold page2kva. rewrite page2pa_small by lia. wp_steps.
  apply wpe_KADDR; [done|lia|]. wp_steps.
  eapply wpe_upd_env; [rewrite (pm_frame_envs _ _ F1); exact He|]. wp_steps.
  set (s2 := set_envs _ s1).
  assert (pm_rep s2 fl' ds T Mp kx) as R2 by (eapply rep_core; [|exact R1]; done).
  eapply wp_wpe; [eapply pp_incref_ok; [exact R2|done|done|lia]|].
  intros [] s3 (R3 & F3 & M3 & _). wp_steps.
  rewrite (pm_frame_kpd _ _ F3). change (kern_pgdir s2) with (kern_pgdir s1).
  rewrite (ki_kpd _ _ _ _ _ _ _ _ _ I1). unfold kmemcpy, dir_kva.
  destruct (ki_own _ _ _ _ _ _ _ _ _ I1 kd (ki_kd _ _ _ _ _ _ _ _ _ I1)) as (Hkd & _ & _).
  assert (p <> kd) as Hpk by (pose proof (ki_kd _ _ _ _ _ _ _ _ _ I1); congruence).
  destruct (Z.ltb_spec (KERNBASE + p * 4096) KERNBASE); [lia|].
  destruct (Z.ltb_spec (KERNBASE + kd * 4096) KERNBASE); [lia|]. simpl. wp_steps.
  unfold PADDR. destruct (Z.ltb_spec (KERNBASE + p * 4096) KERNBASE); [lia|]. wp_steps.
  pose proof (PDX_range UVPT) as Huv. apply wpe_kwrite32; [lia|lia|]. wp_steps.
  right. split; [done|]. exists p, fl'. split; [done|].
  replace (KERNBASE + p * 4096 - KERNBASE) with (p * 4096) by lia.
  replace (KERNBASE + kd * 4096 - KERNBASE) with (kd * 4096) by lia.
  rewrite <- Z.lor_assoc, lor_page_flags by (by vm_compute).
  change (Z.lor PTE_P PTE_U) with 5.
  match goal with |- context [set_mem ?m ?x] =>
    change m with (dir_copy (mem s3) p (PDX UVPT) (p * 4096 + 5)) end.
  assert (forall q a, q <> p -> q * 4096 <= a < q * 4096 + 4096 ->
    getb (dir_copy (mem s3) p (PDX UVPT) (p * 4096 + 5)) a = getb (mem s) a) as Hoth.
  { intros q a Hq Ha. rewrite (dir_copy_other _ _ _ _ q) by done. rewrite M3.
    by apply (B q). }
  assert (forall i, 0 <= i < 1024 ->
    word (dir_copy (mem s3) p (PDX UVPT) (p * 4096 + 5)) p i =
    if decide (i = PDX UVPT) then p * 4096 + 5 else word (mem s) kd i) as Hcw.
  { intros i Hi. rewrite dir_copy_word by (done || lia). case_decide; [done|].
    rewrite M3. eapply same_bytes_word; [exact B|done|done]. }
  split; [|split; [exact HKP|split; [exact H0|split; [exact Hcw|split; [exact Hoth|]]]]].
  2:{ pose proof (pm_frame_envs _ _ F1) as E1. unfold pm_frame, pm_rest, s2, dir_kva in *.
      simpl in *. rewrite E1 in F3. congruence. }
  apply rep_add_dir; [|simpl; rewrite (pm_frame_npages _ _ F3); exact Hp|done|done| |].
  - eapply rep_ext; [exact R3|done|done|done|].
    intros q i Hq Hi. simpl. apply read32_ext. intros b Hb.
    rewrite (dir_copy_other _ _ _ _ q); [done|done| |lia].
    destruct Hq as [?|[k ?]]; intros ->; [done|by eapply HpT].
  - apply (rep_ex _ _ _ _ _ _ R1).
  - intros i Hi. simpl. rewrite UPDX_val in Hi. rewrite Hcw by lia.
    assert (i <> PDX UVPT) by (rewrite UVPT_idx; lia). rewrite decide_False by done.
    apply (ki_klo _ _ _ _ _ _ _ _ _ I). by rewrite UPDX_val.
Qed.

(** ** env_alloc *)

(** The environment env_alloc makes of the free slot [e]. *)
Definition new_env (en : Env) (e parent_id pgdir : Z) : Env :=
  mkEnv new_tf (env_link en) (next_env_id (env_id en) e) parent_id ENV_TYPE_USER
    ENV_RUNNABLE 0 (env_cpunum en) pgdir 0 false (env_ipc_dstva en)
    (env_ipc_value en) (env_ipc_from en) (env_ipc_perm en).

Definition alloc_env_post s fl ds T Mp el parent_id (r : Z * option Z) s' : Prop :=
  (r = (- E_NO_FREE_ENV, None) /\ s' = s /\ el = []) \/
  (r = (- E_NO_MEM, None) /\ s' = s /\ fl = []) \/
  (exists e el' p fl' en,
     r = (0, Some e) /\ el = e :: el' /\ fl = p :: fl' /\ envs s !! e = Some en /\
     kinv s' fl' ({[p]} ∪ ds) T Mp el' /\ (p ∉ ds) /\
     envs s' = <[e := new_env en e parent_id (dir_kva p)]> (envs s) /\
     cur_env s' = cur_env s /\ same_bytes (fun q => q <> p) s s' /\
     npages s' = npages s /\ kernel_lock s' = kernel_lock s /\ cr3 s' = cr3 s).

(** The slot of the head of the free list becomes live. *)
Lemma env_wf_alloc s s' e el en en' :
  env_wf s (e :: el) -> envs s !! e = Some en ->
  envs s' = <[e := en']> (envs s) -> env_free_list s' = env_link en ->
  cur_env s' = cur_env s -> live en' -> 0 < env_id en' < 2^31 -> ENVX (env_id en') = e ->
  env_wf s' el.
Proof.
  intros [Hd Hc Hn Hf Hi Hcur] He Es Ef Ec Hl Hid Hx.
  apply NoDup_cons in Hn as [Hnin Hn].
  constructor; rewrite ?Es, ?Ef, ?Ec.
  - intros x. rewrite lookup_insert. case_decide as Hxe; [|done]. subst x.
    rewrite <- Hd, He. split; eauto.
  - inversion Hc as [|x y l Hx' Hc']; subst. simplify_eq. by apply chain_insert.
  - done.
  - intros x y. rewrite lookup_insert. case_decide as Hxe.
    + intros [= <-]. subst x. split; [done|]. by intros [].
    + intros Hy. rewrite <- (Hf x y Hy). rewrite elem_of_cons. naive_solver.
  - intros x y. rewrite lookup_insert. case_decide as Hxe; [|by eauto]. intros [= <-].
    split; [lia|]. split; [right; congruence|lia].
  - intros c Hc'. destruct (Hcur c Hc') as (y & Hy & Hly). rewrite lookup_insert.
    case_decide as Hxe; [|by eauto]. by exists en'.
Qed.

Lemma env_vm_alloc s s' ds e en en' p :
  env_vm s ds -> envs s !! e = Some en -> ~ live en ->
  envs s' = <[e := en']> (envs s) -> live en' -> env_pgdir en' = dir_kva p -> (p ∉ ds) ->
  env_vm s' ({[p]} ∪ ds).
Proof.
  intros [Hd Ho Hi] He Hnl Es Hl Hpd Hp.
  assert (forall x y, x <> e -> envs s !! x = Some y -> live y -> env_pgdir y <> dir_kva p) as Hne.
  { intros x y _ Hx Hy E. destruct (Hd x y Hx Hy) as (d & Hdd & E').
    assert (d = p) by (unfold dir_kva in *; lia). congruence. }
  constructor; rewrite ?Es.
  - intros x y. rewrite lookup_insert. case_decide as Hx.
    + intros [= <-] _. exists p. set_solver.
    + intros Hy Hly. destruct (Hd x y Hy Hly) as (d & ? & ?). exists d. set_solver.
  - intros d [->%elem_of_singleton|Hdd]%elem_of_union.
    + exists e, en'. by rewrite lookup_insert_eq.
    + destruct (Ho d Hdd) as (x & y & Hx & Hy & ?). exists x, y.
      rewrite lookup_insert_ne; [done|]. intros ->. by simplify_eq.
  - intros x1 x2 y1 y2. rewrite !lookup_insert. repeat case_decide; try congruence.
    + intros [= <-] H2 _ L2 E. by destruct (Hne x2 y2); [..|congruence].
    + intros H1 [= <-] L1 _ E. by destruct (Hne x1 y1); [..|congruence].
    + by apply Hi.
Qed.

(** The new directory completes the invariant. *)
Lemma kinv_add_env s s' fl ds T Mp el e el' p fl' en en' :
  kinv s fl ds T Mp el -> el = e :: el' -> fl = p :: fl' -> envs s !! e = Some en ->
  pm_rep s' fl' ({[p]} ∪ ds) T Mp kx -> (p ∉ KP) -> refs ds T Mp p = 0 ->
  (forall i, 0 <= i < 1024 ->
     word (mem s') p i = if decide (i = PDX UVPT) then p * 4096 + 5 else word (mem s) kd i) ->
  same_bytes (fun q => q <> p) s s' ->
  envs s' = <[e := en']> (envs s) -> env_free_list s' = env_link en ->
  cur_env s' = cur_env s -> npages s' = npages s -> kern_pgdir s' = kern_pgdir s ->
  live en' -> 0 < env_id en' < 2^31 -> ENVX (env_id en') = e -> env_pgdir en' = dir_kva p ->
  kinv s' fl' ({[p]} ∪ ds) T Mp el'.
Proof.
  intros I -> -> He R HKP H0 Hcw B Es Ef Ec En Ek Hl Hid Hx Hpd.
  apply refs_zero in H0 as Hz. destruct Hz as (Hpds & HpT & HpM).
  pose proof (ki_kd _ _ _ _ _ _ _ _ _ I) as Hkd. pose proof UPDX_val as HU.
  assert (forall q i, q <> p -> 0 <= i < 1024 -> word (mem s') q i = word (mem s) q i) as Hw.
  { intros q i Hq Hi. eapply same_bytes_word; [exact B|done|done]. }
  assert (kd <> p) as Hkp by congruence.
  constructor; rewrite ?Ek, ?En.
  - done.
  - apply (ki_kx _ _ _ _ _ _ _ _ _ I).
  - intros q Hq. destruct (ki_own _ _ _ _ _ _ _ _ _ I q Hq) as (? & Hfl & Hq0).
    apply not_elem_of_cons in Hfl as [_ Hfl]. rewrite refs_add_dir by done.
    rewrite decide_False by congruence. split; [done|]. split; [done|lia].
  - done.
  - apply (ki_kpd _ _ _ _ _ _ _ _ _ I).
  - intros i Hi. rewrite Hw by (done || lia). by apply (ki_klo _ _ _ _ _ _ _ _ _ I).
  - intros i Hi. rewrite Hw by (done || lia). by apply (ki_khi _ _ _ _ _ _ _ _ _ I).
  - intros d i [->%elem_of_singleton|Hd]%elem_of_union Hi.
    + rewrite Hcw by lia. by rewrite (Hw kd) by (done || lia).
    + rewrite !Hw by (congruence || lia). by apply (ki_hi _ _ _ _ _ _ _ _ _ I).
  - eapply env_wf_alloc; [apply (ki_env _ _ _ _ _ _ _ _ _ I)|done..].
  - eapply env_vm_alloc; [apply (ki_dirs _ _ _ _ _ _ _ _ _ I)|done| |done..].
    apply (ew_free _ _ (ki_env _ _ _ _ _ _ _ _ _ I) e en He). by left.
Qed.

Lemma env_alloc_ok s fl ds T Mp el parent_id :
  kinv s fl ds T Mp el ->
  wp (env_alloc parent_id) (alloc_env_post s fl ds T Mp el parent_id) s.
Proof.
  intros I. unfold wp, env_alloc. wp_steps.
  pose proof (ki_env _ _ _ _ _ _ _ _ _ I) as W.
  pose proof (ew_chain _ _ W) as Hc. rewrite (chain_head _ _ _ _ Hc).
  destruct el as [|e el']; simpl; [wp_steps; by left|].
  inversion Hc as [|x en l He Hc' Hh]; subst.
  wp_steps. eapply wp_wpe; [by eapply env_setup_vm_ok|].
  intros r s1 [(-> & -> & ->)|(-> & p & fl' & -> & R & HKP & H0 & Hcw & B & F)].
  { simpl. wp_steps. right. by left. }
  apply refs_zero in H0 as Hz. destruct Hz as (Hpds & _).
  pose proof (pm_frame_envs _ _ F) as Es. simpl in Es. simpl. wp_steps.
  eapply wpe_upd_env; [rewrite Es; apply lookup_insert_eq|]. rewrite Es, insert_insert_eq.
  do 7 (wp_steps; eapply wpe_upd_env; [apply lookup_insert_eq|]; simpl envs;
        rewrite insert_insert_eq).
  wp_steps. eapply wpe_get_env; [apply lookup_insert_eq|]. wp_steps.
  destruct (ew_id _ _ W e en He) as (Hid & _).
  assert (0 <= e < NENV) as Hen by (apply (ew_dom _ _ W); eauto).
  destruct (next_env_id_ok (env_id en) e Hid Hen) as (Hn1 & Hn2 & _).
  right. right. exists e, el', p, fl', en. repeat (split; [done|]).
  split; [|repeat (split; [done|])].
  - eapply kinv_add_env with (en' := new_env en e parent_id (dir_kva p));
      [exact I|done|done|exact He| |done|done|exact Hcw|exact B|done..| | | |done|done|done|done].
    + eapply rep_core; [|exact R]. done.
    + apply (pm_frame_cur _ _ F).
    + apply (pm_frame_npages _ _ F).
    + apply (pm_frame_kpd _ _ F).
  - split; [apply (pm_frame_cur _ _ F)|]. split; [exact B|].
    split; [apply (pm_frame_npages _ _ F)|]. split; [apply (pm_frame_lock _ _ F)|apply (pm_frame_cr3 _ _ F)].
Qed.
End ops.
