(* ===== verification/EnvFree.v ===== *)
(** * env_free: everything an environment holds is returned *)
From S2P Require Import Prelude Mem Mmu Kstate Pmap PmapRep PmapOps Env EnvRep EnvOps.

Lemma PGADDR_ok i j :
  0 <= i < UPDX -> 0 <= j < 1024 ->
  0 <= PGADDR i j 0 < UTOP /\ PDX (PGADDR i j 0) = i /\ PTX (PGADDR i j 0) = j /\
  PGNUM (PGADDR i j 0) = i * 1024 + j.
Proof.
  rewrite UPDX_val, UTOP_val. intros Hi Hj.
  assert (PGADDR i j 0 = (i * 1024 + j) * 4096) as ->.
  { unfold PGADDR, PDXSHIFT, PTXSHIFT. rewrite Z.lor_0_r, !Z.shiftl_mul_pow2 by lia.
    rewrite (lor_mul_low 22) by lia. rewrite u32_small by lia. lia. }
  rewrite PGNUM_page, PTX_div, PDX_small by lia. rewrite Z.div_mul by lia.
  change (2^22) with (4096 * 1024). rewrite <- Z.div_div, Z.div_mul by lia.
  split; [lia|]. split; [Z.div_mod_to_equations; lia|].
  split; [|done]. rewrite Z.add_comm, Z.mod_add by lia. apply Z.mod_small. lia.
Qed.

Section free.
Context (KP : gset Z) (kx : Z -> Z) (kd : Z).
Implicit Types (s : kst) (fl el : list Z) (ds : gset Z) (T Mp : gmap (Z * Z) Z).
Local Notation kinv := (kinv KP kx kd).
Local Notation rem_fl := (rem_fl kx).

(** No page is lost: outside the kernel's own pages, a page nobody refers to
    is in the free list. *)
Definition complete s fl ds T Mp : Prop :=
  forall p, 0 <= p < npages s -> (p ∉ KP) -> refs ds T Mp p = 0 -> p ∈ fl.

Lemma complete_frame s s' fl ds T Mp :
  npages s' = npages s -> complete s fl ds T Mp -> complete s' fl ds T Mp.
Proof. unfold complete. by intros ->. Qed.

(** A reference to [q] was dropped. *)
Lemma complete_drop s fl ds ds' T T' Mp Mp' (q : Z) :
  complete s fl ds T Mp -> (forall p, p ∉ KP -> kx p = 0) ->
  (forall p, refs ds' T' Mp' p = refs ds T Mp p - if decide (q = p) then 1 else 0) ->
  complete s (if decide (refs ds T Mp q + kx q = 1) then q :: fl else fl) ds' T' Mp'.
Proof.
  intros C Hkx Hr p Hp HK H0. rewrite Hr in H0. destruct (decide (q = p)) as [->|Hne].
  - rewrite decide_True by (rewrite (Hkx p) by done; lia). by left.
  - assert (p ∈ fl) by (apply C; [done|done|lia]). case_decide; [by right|done].
Qed.

Lemma complete_remove s fl ds T Mp el d va :
  kinv s fl ds T Mp el -> complete s fl ds T Mp ->
  complete s (rem_fl ds T Mp fl d va) ds T (delete (vkey d va) Mp).
Proof.
  intros I C. unfold EnvRep.rem_fl. destruct (Mp !! vkey d va) as [p|] eqn:HM.
  - eapply complete_drop; [done|apply (ki_kx _ _ _ _ _ _ _ _ _ I)|].
    intros q. by apply refs_delete.
  - by rewrite delete_id.
Qed.

(** ** The entries of one page table *)

(** [Mp'] is [Mp] without the pages [lo, hi) of directory [d]. *)
Definition unmapped d (lo hi : Z) Mp Mp' : Prop :=
  forall k, Mp' !! k =
    if decide (k.1 = d /\ lo <= k.2 < hi) then None else Mp !! k.

Lemma unmapped_step d lo hi Mp Mp' :
  lo <= hi -> unmapped d lo hi Mp Mp' -> unmapped d lo (hi + 1) Mp (delete (d, hi) Mp').
Proof.
  intros Hle H [a b]. simpl. rewrite lookup_delete. case_decide as Hk.
  - injection Hk as -> ->. rewrite decide_True by lia. done.
  - rewrite H. simpl. destruct (decide (a = d /\ lo <= b < hi)) as [[-> ?]|Hn].
    + by rewrite decide_True by lia.
    + rewrite decide_False; [done|]. intros [-> ?]. apply Hn. split; [done|].
      assert (b <> hi) by congruence. lia.
Qed.

Definition ptes_inv s0 ds T Mp el d i (dn : list Z) s : Prop :=
  exists fl Mp', kinv s fl ds T Mp' el /\ complete s fl ds T Mp' /\ pm_frame s0 s /\
    unmapped d (i * 1024) (i * 1024 + Z.of_nat (length dn)) Mp Mp'.

Lemma env_free_pte_ok s0 s ds T Mp el d i t dn :
  ptes_inv s0 ds T Mp el d i dn s -> d ∈ ds -> 0 <= i < UPDX -> T !! (d, i) = Some t ->
  0 <= Z.of_nat (length dn) < 1024 ->
  wp (env_free_pte (dir_kva d) (KERNBASE + t * 4096) i (Z.of_nat (length dn)))
     (fun _ s' => ptes_inv s0 ds T Mp el d i (dn ++ [Z.of_nat (length dn)]) s') s.
Proof.
  intros (fl & Mp' & I & C & F & U) Hd Hi Ht Hj. set (j := Z.of_nat (length dn)) in *.
  destruct (PGADDR_ok i j Hi Hj) as (Hva & HD & HX & HN).
  pose proof (ki_pm _ _ _ _ _ _ _ _ _ I) as R.
  destruct (rep_Tdom _ _ _ _ _ _ R _ _ _ Ht) as (_ & _ & Htn & _).
  assert (vkey d (PGADDR i j 0) = (d, i * 1024 + j)) as Hk by (unfold vkey; by rewrite HN).
  assert (Mp' !! (d, i * 1024 + j) = decode (word (mem s) t j)) as HM
    by (by apply (rep_M _ _ _ _ _ _ R)).
  pose proof (unmapped_step d (i * 1024) (i * 1024 + j) Mp Mp' ltac:(lia) U) as U'.
  replace (i * 1024 + j + 1)
    with (i * 1024 + Z.of_nat (length (dn ++ [j]))) in U' by (rewrite length_app; simpl; lia).
  unfold wp, env_free_pte. wp_steps. apply wpe_kread32; [lia|lia|].
  unfold decode, present in HM. destruct (flag (word (mem s) t j) PTE_P).
  - eapply wp_wpe; [eapply page_remove_ok; [exact R|by eapply kinv_cur_ok|done|done]|].
    intros [] s' P. destruct (kinv_remove _ _ _ _ _ _ _ _ _ _ _ _ I P) as (F' & I' & _).
    eexists _, _. split; [exact I'|].
    split; [eapply complete_frame; [by apply pm_frame_npages|by eapply complete_remove]|].
    split; [by etrans|]. by rewrite Hk.
  - wp_steps. exists fl, Mp'. do 3 (split; [done|]). by rewrite delete_id in U'.
Qed.

(** ** One page table *)

Lemma unmapped_trans d lo mid hi Mp M1 M2 :
  lo <= mid <= hi -> unmapped d lo mid Mp M1 -> unmapped d mid hi M1 M2 ->
  unmapped d lo hi Mp M2.
Proof.
  intros Hle H1 H2 k. rewrite H2, H1.
  destruct (decide (k.1 = d /\ mid <= k.2 < hi)) as [[? ?]|Hn].
  { by rewrite decide_True by lia. }
  destruct (decide (k.1 = d /\ lo <= k.2 < mid)) as [[? ?]|Hn2].
  { by rewrite decide_True by lia. }
  rewrite decide_False; [done|]. intros [? ?].
  destruct (Z_lt_le_dec k.2 mid); [apply Hn2|apply Hn]; split; try done; lia.
Qed.

Lemma unmapped_empty d lo Mp : unmapped d lo lo Mp Mp.
Proof. intros k. rewrite decide_False; [done|]. lia. Qed.

Lemma unmapped_inv d lo hi Mp Mp' k p :
  unmapped d lo hi Mp Mp' -> Mp' !! k = Some p -> ~ (k.1 = d /\ lo <= k.2 < hi).
Proof. intros U Hk H. rewrite U, decide_True in Hk by done. done. Qed.

(** An empty page table is taken out of its directory. *)
Lemma rep_drop_table s fl ds T Mp ex d i t :
  pm_rep s fl ds T Mp ex -> T !! (d, i) = Some t ->
  (forall v, v / 1024 = i -> Mp !! (d, v) = None) ->
  pm_rep (set_mem (write32 (mem s) (d * 4096 + 4 * i) 0) s)
         fl ds (delete (d, i) T) Mp (bump ex t 1).
Proof.
  intros R Ht HMn. pose proof UPDX_val as HU.
  destruct R as [Hnp Hdom Hc Hnd Hl Hr Hex Hfr Hds HT HTd HTi HM HMd Hpde].
  destruct (HTd _ _ _ Ht) as (Hd & Hi & Htn & Htds).
  assert (forall p, refs ds (delete (d, i) T) Mp p + bump ex t 1 p = refs ds T Mp p + ex p) as Hre.
  { intros p. unfold refs, bump. rewrite (count_delete T _ t) by done.
    repeat case_decide; subst; try congruence; lia. }
  assert (forall q j, 0 <= j < 1024 -> (q, j) <> (d, i) ->
    word (write32 (mem s) (d * 4096 + 4 * i) 0) q j = word (mem s) q j) as Hw.
  { intros q j Hj Hne. apply word_write_ne; [lia|done|congruence]. }
  constructor; simpl; try assumption.
  - intros p pi Hp. rewrite Hre. by apply Hr.
  - intros p. unfold bump. specialize (Hex p). case_decide; lia.
  - intros p Hp. rewrite Hre. by apply Hfr.
  - intros d' i' Hd' Hi'. rewrite lookup_delete. case_decide as He.
    + injection He as <- <-. by rewrite word_write_eq.
    + rewrite Hw by (congruence || lia). by apply HT.
  - intros d' i' t' [_ Ht']%lookup_delete_Some. by apply HTd.
  - intros k1 k2 t' [_ H1]%lookup_delete_Some [_ H2]%lookup_delete_Some. by eapply HTi.
  - intros d' i' t' j [_ Ht']%lookup_delete_Some Hj.
    destruct (HTd _ _ _ Ht') as (_ & _ & _ & Hnd'). rewrite Hw by congruence. by apply HM.
  - intros d' v p Hm. destruct (HMd _ _ _ Hm) as (HTs & Hp & Hpds & HpT).
    split; [|split; [done|split; [done|]]].
    + rewrite lookup_delete. case_decide as He; [|done]. injection He as <- Hv.
      by rewrite HMn in Hm.
    + intros k Hk. apply lookup_delete_Some in Hk as [_ Hk]. by apply (HpT k).
  - intros d' i' t' [Hne Ht']%lookup_delete_Some. destruct (HTd _ _ _ Ht') as (? & ? & _).
    rewrite Hw by (congruence || lia). by eapply Hpde.
Qed.

Definition pdes_inv s0 ds T Mp el d (n : Z) s : Prop :=
  exists fl T' Mp', kinv s fl ds T' Mp' el /\ complete s fl ds T' Mp' /\ pm_frame s0 s /\
    unmapped d 0 n T T' /\ unmapped d 0 (n * 1024) Mp Mp'.

Lemma refs_delete_T ds T Mp k t p :
  T !! k = Some t ->
  refs ds (delete k T) Mp p = refs ds T Mp p - if decide (t = p) then 1 else 0.
Proof. intros Hk. unfold refs. rewrite (count_delete T k t) by done. lia. Qed.

(** Clearing the directory entry and dropping the page table. *)
Lemma drop_table_ok s fl ds T Mp el d i t :
  kinv s fl ds T Mp el -> complete s fl ds T Mp -> d ∈ ds -> 0 <= i < UPDX ->
  T !! (d, i) = Some t -> (forall v, v / 1024 = i -> Mp !! (d, v) = None) ->
  wp (kwrite32 (KERNBASE + d * 4096 + 4 * i) 0 ;;;
      let! pp := pa2page (t * 4096) in page_decref pp)
     (fun _ s' => exists fl', kinv s' fl' ds (delete (d, i) T) Mp el /\
        complete s' fl' ds (delete (d, i) T) Mp /\ pm_frame s s') s.
Proof.
  intros I C Hd Hi Ht HMn. pose proof (ki_pm _ _ _ _ _ _ _ _ _ I) as R.
  pose proof UPDX_val as HU. pose proof (rep_ds _ _ _ _ _ _ R d Hd) as Hdn.
  destruct (rep_Tdom _ _ _ _ _ _ R _ _ _ Ht) as (_ & _ & Htn & Htds).
  pose proof (rep_drop_table _ _ _ _ _ _ _ _ _ R Ht HMn) as R1.
  pose proof (rep_ex _ _ _ _ _ _ R t) as Hxt.
  assert (bump kx t 1 t = kx t + 1) as Hb by (unfold bump; by rewrite decide_True).
  unfold wp. wp_steps. apply wpe_kwrite32; [lia|lia|]. wp_steps.
  apply wpe_pa2page; [done|].
  eapply wp_wpe; [eapply page_decref_ok; [exact R1|done|lia]|].
  intros [] s2 (R2 & F2 & M2 & _). rewrite Hb in R2.
  replace (refs ds (delete (d, i) T) Mp t + (kx t + 1)) with (refs ds T Mp t + kx t) in R2
    by (rewrite (refs_delete_T _ _ _ _ t) by done; rewrite decide_True by done; lia).
  assert (pm_frame s s2) as F by (etrans; [|exact F2]; done).
  destruct (ki_own _ _ _ _ _ _ _ _ _ I kd (ki_kd _ _ _ _ _ _ _ _ _ I)) as (_ & _ & Hk0).
  apply refs_zero in Hk0 as (Hkd & _ & _).
  eexists. split; [|split; [|exact F]].
  - eapply kinv_pm; [exact I| |exact F| | |].
    + eapply rep_ex_ext; [exact R2|]. intros q. unfold bump. repeat case_decide; lia.
    + intros q Hq. destruct (ki_own _ _ _ _ _ _ _ _ _ I q Hq) as (_ & Hfl & H0).
      apply refs_zero in H0 as Hz. destruct Hz as (_ & HqT & _).
      rewrite (refs_delete_T _ _ _ _ t) by done.
      assert (t <> q) by (intros ->; by eapply HqT). rewrite (decide_False (P := t = q)) by done.
      split; [|lia]. case_decide; [|done]. rewrite not_elem_of_cons. done.
    + intros q a -> Ha. rewrite M2. apply getb_write32_ne.
      assert (kd <> d) by congruence. lia.
    + intros q j Hq Hj. rewrite M2. simpl. apply word_write_ne; [lia|lia|]. intros [= _ ?]. lia.
  - eapply complete_frame; [by apply pm_frame_npages|].
    eapply complete_drop; [done|apply (ki_kx _ _ _ _ _ _ _ _ _ I)|].
    intros q. by apply refs_delete_T.
Qed.

(** All entries of the page table [t]. *)
Lemma env_free_ptes_ok s fl ds T Mp el d i t :
  kinv s fl ds T Mp el -> complete s fl ds T Mp -> d ∈ ds -> 0 <= i < UPDX ->
  T !! (d, i) = Some t ->
  wp (for_ (seqZ 0 1024) (env_free_pte (dir_kva d) (KERNBASE + t * 4096) i))
     (fun _ s' => exists fl' Mp', kinv s' fl' ds T Mp' el /\ complete s' fl' ds T Mp' /\
        pm_frame s s' /\ unmapped d (i * 1024) ((i + 1) * 1024) Mp Mp') s.
Proof.
  intros I C Hd Hi Ht.
  eapply wp_mono; [eapply wpe_for with (pre := []) (Inv := ptes_inv s ds T Mp el d i)|].
  - exists fl, Mp. simpl. rewrite Z.add_0_r. split; [done|]. split; [done|]. split; [done|].
    apply unmapped_empty.
  - intros dn j todo s' HI Heq. simpl in Heq.
    assert (seqZ 0 1024 !! length dn = Some j) as Hj
      by (rewrite Heq, lookup_app_r, Nat.sub_diag by lia; done).
    apply lookup_seqZ in Hj as [-> Hlt]. rewrite Z.add_0_l.
    eapply wp_wpe; [eapply env_free_pte_ok; [exact HI|done|done|done|lia]|done].
  - intros [] s' (fl' & Mp' & I' & C' & F' & U). exists fl', Mp'.
    do 3 (split; [done|]). simpl app in U. rewrite length_seqZ in U.
    by replace ((i + 1) * 1024) with (i * 1024 + Z.of_nat (Z.to_nat 1024)) by lia.
Qed.

Lemma env_free_pde_ok s0 s ds T Mp el d n :
  pdes_inv s0 ds T Mp el d n s -> d ∈ ds -> 0 <= n < UPDX ->
  wp (env_free_pde (dir_kva d) n) (fun _ s' => pdes_inv s0 ds T Mp el d (n + 1) s') s.
Proof.
  intros (fl & T' & Mp' & I & C & F & UT & UM) Hd Hn.
  pose proof (ki_pm _ _ _ _ _ _ _ _ _ I) as R. pose proof (rep_ds _ _ _ _ _ _ R d Hd).
  pose proof (rep_T _ _ _ _ _ _ R d n Hd Hn) as HT. pose proof (rep_np _ _ _ _ _ _ R) as Hnp.
  pose proof (unmapped_step d 0 n T T' ltac:(lia) UT) as UT'.
  unfold wp, env_free_pde. wp_steps. unfold dir_kva. apply wpe_kread32; [lia|lia|].
  unfold decode, present in HT. destruct (flag (word (mem s) d n) PTE_P); cbn [negb].
  - rewrite PTE_ADDR_spec by apply word_range. set (t := PGNUM (word (mem s) d n)) in *.
    destruct (rep_Tdom _ _ _ _ _ _ R _ _ _ HT) as (_ & _ & Htn & _). wp_steps.
    apply wpe_KADDR; [done|lia|]. wp_steps.
    eapply wp_wpe; [by eapply env_free_ptes_ok|].
    intros [] s1 (fl1 & Mp1 & I1 & C1 & F1 & U1).
    eapply wp_wpe; [eapply drop_table_ok; [exact I1|exact C1|done|done|exact HT|]|].
    { intros v Hv. rewrite U1, decide_True; [done|]. split; [done|].
      simpl. Z.div_mod_to_equations; lia. }
    intros [] s2 (fl2 & I2 & C2 & F2). exists fl2, (delete (d, n) T'), Mp1.
    do 2 (split; [done|]). split; [etrans; [exact F|by etrans]|]. split; [done|].
    eapply unmapped_trans; [|exact UM|exact U1]. lia.
  - wp_steps. exists fl, T', Mp'. do 3 (split; [done|]). rewrite delete_id in UT' by done.
    split; [done|]. eapply unmapped_trans with (mid := n * 1024); [lia|exact UM|].
    intros [a b]. case_decide as Hab; [|done]. simpl in Hab. destruct Hab as [-> Hb].
    destruct (Mp' !! (d, b)) as [q|] eqn:Hq; [|done].
    apply (rep_Mdom _ _ _ _ _ _ R) in Hq as ([t' Ht'] & _).
    replace (b / 1024) with n in Ht' by (Z.div_mod_to_equations; lia). congruence.
Qed.

Lemma env_free_pdes_ok s fl ds T Mp el d :
  kinv s fl ds T Mp el -> complete s fl ds T Mp -> d ∈ ds ->
  wp (for_ (seqZ 0 (PDX UTOP)) (env_free_pde (dir_kva d)))
     (fun _ s' => pdes_inv s ds T Mp el d UPDX s') s.
Proof.
  intros I C Hd. change (PDX UTOP) with UPDX. pose proof UPDX_val as HU.
  eapply wp_mono; [eapply wpe_for with (pre := [])
    (Inv := fun dn => pdes_inv s ds T Mp el d (Z.of_nat (length dn)))|].
  - exists fl, T, Mp. do 3 (split; [done|]). split; apply unmapped_empty.
  - intros dn j todo s' HI Heq. simpl in Heq.
    assert (seqZ 0 UPDX !! length dn = Some j) as Hj
      by (rewrite Heq, lookup_app_r, Nat.sub_diag by lia; done).
    apply lookup_seqZ in Hj as [-> Hlt]. rewrite Z.add_0_l.
    eapply wp_wpe; [eapply env_free_pde_ok; [exact HI|done|lia]|].
    intros [] s2. rewrite length_app. simpl.
    by replace (Z.of_nat (length dn + 1)) with (Z.of_nat (length dn) + 1) by lia.
  - intros [] s'. simpl app. rewrite length_seqZ.
    by replace (Z.of_nat (Z.to_nat UPDX)) with UPDX by lia.
Qed.

(** ** The whole environment *)

Lemma refs_drop_dir ds T Mp d q :
  d ∈ ds -> refs (ds ∖ {[d]}) T Mp q = refs ds T Mp q - if decide (d = q) then 1 else 0.
Proof. intros Hd. unfold refs. repeat case_decide; set_solver by lia. Qed.

Lemma rep_drop_dir s fl ds T Mp ex d :
  pm_rep s fl ds T Mp ex -> d ∈ ds -> (forall i, T !! (d, i) = None) ->
  pm_rep s fl (ds ∖ {[d]}) T Mp (bump ex d 1).
Proof.
  intros R Hd HTn. destruct R as [Hnp Hdom Hc Hnd Hl Hr Hex Hfr Hds HT HTd HTi HM HMd Hpde].
  assert (forall q, refs (ds ∖ {[d]}) T Mp q + bump ex d 1 q = refs ds T Mp q + ex q) as Hrf.
  { intros q. rewrite refs_drop_dir by done. unfold bump. repeat case_decide; congruence || lia. }
  constructor; try assumption.
  - intros q pi Hq. rewrite Hrf. by apply Hr.
  - intros q. unfold bump. specialize (Hex q). case_decide; lia.
  - intros q Hq. rewrite Hrf. by apply Hfr.
  - intros d' [Hd' _]%elem_of_difference. by apply Hds.
  - intros d' i [Hd' _]%elem_of_difference. by apply HT.
  - intros d' i t Ht. pose proof (HTd _ _ _ Ht) as (? & ? & ? & ?).
    assert (d' <> d) by (intros ->; by rewrite HTn in Ht). set_solver.
  - intros d' v q Hq. pose proof (HMd _ _ _ Hq) as (? & ? & ? & ?). set_solver.
Qed.

Lemma env_wf_free s s' el e en en' :
  env_wf s el -> envs s !! e = Some en -> live en ->
  envs s' = <[e := en']> (envs s) -> env_free_list s' = Some e ->
  env_link en' = env_free_list s -> ~ live en' -> env_id en' = env_id en ->
  (forall c, cur_env s' = Some c -> c <> e /\ cur_env s = Some c) ->
  env_wf s' (e :: el).
Proof.
  intros [Hd Hc Hn Hf Hi Hcur] He Hl Es Ef Elk Hnl Hid Hcu.
  assert (e ∉ el) as Hnin by (rewrite (Hf e en He); auto).
  constructor; rewrite ?Es, ?Ef.
  - intros x. rewrite lookup_insert. case_decide as Hx; [|done]. subst x.
    rewrite <- Hd, He. split; eauto.
  - econstructor; [apply lookup_insert_eq|]. rewrite Elk. by apply chain_insert.
  - by constructor.
  - intros x y. rewrite lookup_insert. case_decide as Hx.
    + intros [= <-]. subst x. split; [done|]. by left.
    + intros Hy. rewrite <- (Hf x y Hy), elem_of_cons. naive_solver.
  - intros x y. rewrite lookup_insert. case_decide as Hx; [|by eauto]. intros [= <-].
    subst x. rewrite Hid. destruct (Hi e en He) as (? & ? & _). done.
  - intros c (Hne & Hcc)%Hcu. rewrite lookup_insert_ne by done. by apply Hcur.
Qed.

Lemma env_vm_free s s' ds e en en' d :
  env_vm s ds -> envs s !! e = Some en -> live en -> env_pgdir en = dir_kva d ->
  envs s' = <[e := en']> (envs s) -> ~ live en' -> env_vm s' (ds ∖ {[d]}).
Proof.
  intros [Hd Ho Hi] He Hl Hpd Es Hnl. constructor; rewrite ?Es.
  - intros x y. rewrite lookup_insert. case_decide as Hx; [by intros [= <-]|].
    intros Hy Hly. destruct (Hd x y Hy Hly) as (d' & Hd' & E). exists d'. split; [|done].
    apply elem_of_difference. split; [done|]. intros ->%elem_of_singleton.
    apply Hx. eapply Hi; [done..|congruence].
  - intros d' [Hd' Hne]%elem_of_difference. destruct (Ho d' Hd') as (x & y & Hx & Hy & E).
    exists x, y. rewrite lookup_insert_ne; [done|]. intros <-. simplify_eq.
    apply Hne, elem_of_singleton. unfold dir_kva in *. lia.
  - intros x1 x2 y1 y2. rewrite !lookup_insert. repeat case_decide; try congruence;
      try (by intros [= <-]); try (by intros ? [= <-]). by apply Hi.
Qed.

(** The slot after env_free. *)
Definition freed_env (en : Env) (link : option Z) : Env :=
  set_env_link link (set_env_status ENV_FREE (set_env_pgdir 0 en)).

(** The current environment once it cannot be [e] any more. *)
Definition cur_without (e : Z) s : option Z :=
  if decide (cur_env s = Some e) then None else cur_env s.

Definition free_env_post s ds T Mp el e en d s' : Prop :=
  exists fl' T' Mp',
    kinv (set_cur_env (cur_without e s) s') fl' (ds ∖ {[d]}) T' Mp' (e :: el) /\
    complete s' fl' (ds ∖ {[d]}) T' Mp' /\ d ∈ fl' /\
    (forall k, T' !! k = if decide (k.1 = d) then None else T !! k) /\
    (forall k, Mp' !! k = if decide (k.1 = d) then None else Mp !! k) /\
    envs s' = <[e := freed_env en (env_free_list s)]> (envs s) /\
    cur_env s' = cur_env s /\ kernel_lock s' = kernel_lock s /\ cpu_num s' = cpu_num s /\
    cpu_status s' = cpu_status s /\
    (cur_env s = Some e -> cr3 s' = kd * 4096).

(** What is left once all user entries of [d] are gone. *)
Lemma unmapped_all s fl ds T Mp ex d T' Mp' :
  pm_rep s fl ds T Mp ex -> unmapped d 0 UPDX T T' -> unmapped d 0 (UPDX * 1024) Mp Mp' ->
  (forall k, T' !! k = if decide (k.1 = d) then None else T !! k) /\
  (forall k, Mp' !! k = if decide (k.1 = d) then None else Mp !! k).
Proof.
  intros R UT UM. split; intros [a b]; simpl.
  - rewrite UT. simpl. case_decide as Ha.
    + destruct Ha as [-> Hb]. by rewrite decide_True.
    + case_decide; [|done]. subst. destruct (T !! (d, b)) as [t|] eqn:E; [|done].
      exfalso. apply Ha. apply (rep_Tdom _ _ _ _ _ _ R) in E. naive_solver.
  - rewrite UM. simpl. case_decide as Ha.
    + destruct Ha as [-> Hb]. by rewrite decide_True.
    + case_decide; [|done]. subst. destruct (Mp !! (d, b)) as [p|] eqn:E; [|done].
      exfalso. apply Ha. apply (rep_Mdom _ _ _ _ _ _ R) in E as ([t E] & _).
      apply (rep_Tdom _ _ _ _ _ _ R) in E as (_ & Hb & _). split; [done|].
      rewrite UPDX_val in *. Z.div_mod_to_equations; lia.
Qed.

Lemma count_none (m : gmap (Z * Z) Z) p : (forall k, m !! k <> Some p) -> count m p = 0.
Proof.
  intros H. unfold count. rewrite (proj2 (map_empty (filter _ m))); [by rewrite map_size_empty|].
  intros k. apply map_lookup_filter_None_2. right. intros x Hx E. simpl in E. subst. by eapply H.
Qed.

(** A directory has no reference but the one of its environment. *)
Lemma refs_dir s fl ds T Mp ex d : pm_rep s fl ds T Mp ex -> d ∈ ds -> refs ds T Mp d = 1.
Proof.
  intros R Hd. unfold refs. rewrite decide_True by done. rewrite !count_none; [done|..].
  - intros [a b] E. by apply (rep_Tdom _ _ _ _ _ _ R) in E as (_ & _ & _ & ?).
  - intros [a b] E. by apply (rep_Mdom _ _ _ _ _ _ R) in E as (_ & _ & ? & _).
Qed.

(** Dropping the directory and the slot. *)
Lemma free_slot_ok s fl ds T Mp el e en d :
  kinv s fl ds T Mp el -> complete s fl ds T Mp -> d ∈ ds -> (forall i, T !! (d, i) = None) ->
  envs s !! e = Some en -> live en -> env_pgdir en = dir_kva d ->
  wp (let! pa := PADDR (dir_kva d) in
      upd_env e (set_env_pgdir 0) ;;;
      let! pp := pa2page pa in
      page_decref pp ;;;
      upd_env e (set_env_status ENV_FREE) ;;;
      let! h := gets env_free_list in
      upd_env e (set_env_link h) ;;;
      modify (set_env_free_list (Some e)))
     (fun _ s' => exists fl',
        kinv (set_cur_env (cur_without e s) s') fl' (ds ∖ {[d]}) T Mp (e :: el) /\
        complete s' fl' (ds ∖ {[d]}) T Mp /\ d ∈ fl' /\
        envs s' = <[e := freed_env en (env_free_list s)]> (envs s) /\
        cur_env s' = cur_env s /\ kernel_lock s' = kernel_lock s /\ cpu_num s' = cpu_num s /\
    cpu_status s' = cpu_status s /\
        cr3 s' = cr3 s) s.
Proof.
  intros I C Hd HTn He Hl Hpd. pose proof (ki_pm _ _ _ _ _ _ _ _ _ I) as R.
  pose proof (rep_ds _ _ _ _ _ _ R d Hd) as Hdn. unfold wp. wp_steps.
  unfold PADDR, dir_kva. destruct (Z.ltb_spec (KERNBASE + d * 4096) KERNBASE); [lia|]. wp_steps.
  replace (KERNBASE + d * 4096 - KERNBASE) with (d * 4096) by lia.
  eapply wpe_upd_env; [exact He|]. wp_steps. apply wpe_pa2page; [done|].
  set (s1 := set_envs _ s).
  assert (pm_rep s1 fl ds T Mp kx) as R1 by (eapply rep_core; [|exact R]; done).
  pose proof (rep_drop_dir _ _ _ _ _ _ _ R1 Hd HTn) as R2.
  pose proof (rep_ex _ _ _ _ _ _ R d) as Hxd.
  assert (bump kx d 1 d = kx d + 1) as Hb by (unfold bump; by rewrite decide_True).
  wp_steps. eapply wp_wpe; [eapply page_decref_ok; [exact R2|done|lia]|].
  intros [] s2 (R3 & F & M2 & _). rewrite Hb in R3.
  replace (refs (ds ∖ {[d]}) T Mp d + (kx d + 1)) with (refs ds T Mp d + kx d) in R3
    by (rewrite refs_drop_dir, decide_True by done; lia).
  pose proof (pm_frame_envs _ _ F) as Es. simpl in Es.
  wp_steps. eapply wpe_upd_env; [rewrite Es; apply lookup_insert_eq|]. rewrite Es, insert_insert_eq.
  wp_steps. simpl env_free_list. rewrite (pm_frame_env_fl _ _ F). simpl env_free_list.
  eapply wpe_upd_env; [apply lookup_insert_eq|]. simpl envs. rewrite insert_insert_eq. wp_steps.
  assert (complete s2 (if decide (refs ds T Mp d + kx d = 1) then d :: fl else fl)
    (ds ∖ {[d]}) T Mp) as C'.
  { eapply (complete_frame s); [by apply pm_frame_npages in F|].
    eapply complete_drop; [done|apply (ki_kx _ _ _ _ _ _ _ _ _ I)|].
    intros q. by apply refs_drop_dir. }
  assert (d ∉ KP) as HdK.
  { intros HK. destruct (ki_own _ _ _ _ _ _ _ _ _ I d HK) as (_ & _ & H0).
    by apply refs_zero in H0 as (? & _). }
  pose proof (refs_dir _ _ _ _ _ _ _ R Hd) as Hd1.
  rewrite decide_True in * by (rewrite (ki_kx _ _ _ _ _ _ _ _ _ I) by done; lia).
  exists (d :: fl). split; [|split; [exact C'|split; [by left|]]].
  2:{ unfold pm_frame, pm_rest, s1, freed_env in *. simpl in *.
      repeat split; congruence. }
  constructor; try (simpl; first [apply (ki_kx _ _ _ _ _ _ _ _ _ I)|apply (ki_kd _ _ _ _ _ _ _ _ _ I)]).
  - eapply rep_core; [|eapply rep_ex_ext; [exact R3|]]; [done|].
    intros q. unfold bump. repeat case_decide; lia.
  - intros q Hq. simpl. rewrite (pm_frame_npages _ _ F).
    destruct (ki_own _ _ _ _ _ _ _ _ _ I q Hq) as (? & Hfl & H0).
    split; [done|]. rewrite not_elem_of_cons, refs_drop_dir by done.
    assert (d <> q) by congruence. rewrite decide_False by done. split; [done|lia].
  - simpl. rewrite (pm_frame_kpd _ _ F). apply (ki_kpd _ _ _ _ _ _ _ _ _ I).
  - simpl. rewrite M2. apply (ki_klo _ _ _ _ _ _ _ _ _ I).
  - simpl. rewrite M2. apply (ki_khi _ _ _ _ _ _ _ _ _ I).
  - simpl. rewrite M2. intros q j [Hq _]%elem_of_difference. by apply (ki_hi _ _ _ _ _ _ _ _ _ I).
  - eapply env_wf_free with (en' := freed_env en (env_free_list s));
      [apply (ki_env _ _ _ _ _ _ _ _ _ I)|exact He|exact Hl|done|done|done|by intros []|done|].
    intros c. simpl. unfold cur_without. case_decide; naive_solver.
  - eapply env_vm_free with (en' := freed_env en (env_free_list s));
      [apply (ki_dirs _ _ _ _ _ _ _ _ _ I)|exact He|exact Hl|exact Hpd|done|by intros []].
Qed.

Lemma env_free_ok s fl ds T Mp el e en d :
  kinv s fl ds T Mp el -> complete s fl ds T Mp -> envs s !! e = Some en -> live en ->
  d ∈ ds -> env_pgdir en = dir_kva d ->
  wp (env_free e) (fun _ s' => free_env_post s ds T Mp el e en d s') s.
Proof.
  intros I C He Hl Hd Hpd. unfold wp, env_free. wp_steps.
  set (c3 := if decide (cur_env s = Some e) then kd * 4096 else cr3 s).
  eapply wp_wpe with (Q := fun _ s1 => s1 = set_cr3 c3 s).
  { unfold c3. destruct (decide (cur_env s = Some e)) as [E|E].
    - rewrite bool_decide_eq_true_2 by done. unfold wp. wp_steps. unfold PADDR, dir_kva.
      destruct (ki_own _ _ _ _ _ _ _ _ _ I kd (ki_kd _ _ _ _ _ _ _ _ _ I)) as (? & _ & _).
      rewrite (ki_kpd _ _ _ _ _ _ _ _ _ I). unfold dir_kva.
      destruct (Z.ltb_spec (KERNBASE + kd * 4096) KERNBASE); [lia|]. wp_steps.
      unfold lcr3. wp_steps. f_equal. lia.
    - rewrite bool_decide_eq_false_2 by congruence. unfold wp. wp_steps. by destruct s. }
  intros [] s1 ->. set (s1 := set_cr3 c3 s).
  assert (kinv s1 fl ds T Mp el) as I1.
  { eapply kinv_misc; [exact I|done|done|done|].
    apply (ew_cur _ _ (ki_env _ _ _ _ _ _ _ _ _ I)). }
  wp_steps. eapply wpe_get_env; [exact He|]. rewrite Hpd.
  apply wpe_bind. eapply wp_wpe; [eapply env_free_pdes_ok; [exact I1|exact C|exact Hd]|].
  intros [] s2 (fl2 & T2 & M2 & I2 & C2 & F2 & UT & UM).
  destruct (unmapped_all _ _ _ _ _ _ _ _ _ (ki_pm _ _ _ _ _ _ _ _ _ I) UT UM) as [HT HM].
  eapply wp_wpe; [eapply free_slot_ok with (en := en);
    [exact I2|exact C2|exact Hd| |by rewrite (pm_frame_envs _ _ F2)|exact Hl|exact Hpd]|].
  { intros i. rewrite HT. simpl. by rewrite decide_True. }
  intros [] s3 (fl3 & I3 & C3 & Hd3 & Es & Ec & Ek & En & Eu & Er).
  assert (cur_without e s2 = cur_without e s) as Hcw
    by (unfold cur_without; by rewrite (pm_frame_cur _ _ F2)).
  rewrite Hcw in I3. exists fl3, T2, M2.
  do 3 (split; [done|]). split; [exact HT|]. split; [exact HM|].
  rewrite Es, Ec, Ek, En, Eu, Er, (pm_frame_envs _ _ F2), (pm_frame_env_fl _ _ F2),
    (pm_frame_cur _ _ F2), (pm_frame_lock _ _ F2), (pm_frame_cpu _ _ F2), (pm_frame_status _ _ F2), (pm_frame_cr3 _ _ F2).
  repeat (split; [done|]). intros E. change (cr3 s1) with c3.
  unfold c3. by rewrite decide_True.
Qed.
End free.
