(* ===== verification/EnvSched.v ===== *)
(** * env_run, sched_yield, sched_halt and env_destroy *)
From S2P Require Import Prelude Mem Mmu Kstate Pmap PmapRep PmapOps Env EnvRep EnvOps EnvFree.

(** ** Choosing an environment *)

Definition status_is (s : kst) (st : env_stat) (e : Z) : bool :=
  match envs s !! e with Some en => bool_decide (env_status en = st) | None => false end.

(** The slots in the order sched_yield looks at them. *)
Definition scan_order (startid : Z) : list Z :=
  (fun i => (startid + i) `mod` NENV) <$> seqZ 0 NENV.

Fixpoint find_first (P : Z -> bool) (l : list Z) : option Z :=
  match l with
  | [] => None
  | x :: l' => if P x then Some x else find_first P l'
  end.

Lemma find_first_Some P l x :
  find_first P l = Some x -> P x = true /\ exists l1 l2, l = l1 ++ x :: l2 /\
    forall y, y ∈ l1 -> P y = false.
Proof.
  induction l as [|y l IH]; [done|]. simpl. destruct (P y) eqn:Hy.
  - intros [= ->]. split; [done|]. exists [], l. set_solver.
  - intros (Hx & l1 & l2 & -> & H)%IH. split; [done|]. exists (y :: l1), l2.
    split; [done|]. intros z [->|Hz]%elem_of_cons; auto.
Qed.

Lemma find_first_None P l : find_first P l = None <-> forall x, x ∈ l -> P x = false.
Proof.
  induction l as [|y l IH]; simpl; [split; [set_solver|done]|].
  destruct (P y) eqn:Hy; [split; [done|intros H; rewrite H in Hy; [done|by left]]|].
  rewrite IH. split; [intros H x [->|Hx]%elem_of_cons; auto|]. intros H x Hx. apply H. by right.
Qed.

(** The slot the CPU starts its scan from. *)
Definition start_slot (s : kst) : Z :=
  match cur_env s with
  | Some c => match envs s !! c with Some en => ENVX (env_id en) | None => 0 end
  | None => 0
  end.

Definition next_env (s : kst) : option Z :=
  find_first (status_is s ENV_RUNNABLE) (scan_order (start_slot s)).

Lemma elem_of_scan_order st x : x ∈ scan_order st <-> 0 <= x < NENV.
Proof.
  unfold scan_order, NENV. rewrite list_elem_of_fmap. split.
  - intros (i & -> & _). apply Z.mod_pos_bound. lia.
  - intros Hx. exists ((x - st) `mod` 1024). split.
    + rewrite Z.add_mod_idemp_r by lia. replace (st + (x - st)) with x by lia.
      by rewrite Z.mod_small.
    + apply elem_of_seqZ. pose proof (Z.mod_pos_bound (x - st) 1024). lia.
Qed.

Section sched.
Context (KP : gset Z) (kx : Z -> Z) (kd : Z).
Implicit Types (s : kst) (fl el : list Z) (ds : gset Z) (T Mp : gmap (Z * Z) Z).
Local Notation kinv := (kinv KP kx kd).

(** A scan of slots that exist. *)
Lemma scan_ok {I B} s (l : list I) (f : I -> Z) (test : Z -> Env -> option B) (P : Z -> bool)
    (g : Z -> B) :
  (forall i, i ∈ l -> exists en, envs s !! f i = Some en /\
     test (f i) en = if P (f i) then Some (g (f i)) else None) ->
  wp (for_each l (fun i => let! en := get_env (f i) in ret (test (f i) en)))
     (fun r s' => s' = s /\ r = g <$> find_first P (f <$> l)) s.
Proof.
  induction l as [|i l IH]; intros Hl; unfold wp; simpl; [by wp_steps|].
  destruct (Hl i) as (en & He & Ht); [by left|].
  wp_steps. eapply wpe_get_env; [done|]. wp_steps. rewrite Ht.
  destruct (P (f i)); [by wp_steps|]. apply IH. intros j Hj. apply Hl. by right.
Qed.

(** ** env_run *)

(** The slots after the switch to [e] on CPU [n]. *)
Definition switched (cur : option Z) (n e : Z) (es es' : gmap Z Env) : Prop :=
  (exists en, es !! e = Some en /\
     es' !! e = Some (set_env_cpunum n (set_env_runs (u32 (env_runs en + 1))
                       (set_env_status ENV_RUNNING en)))) /\
  (forall x, x <> e -> es' !! x =
     match es !! x with
     | Some en =>
         if decide (cur = Some x /\ env_status en = ENV_RUNNING)
         then Some (set_env_status ENV_RUNNABLE en) else Some en
     | None => None
     end).

Definition run_post s fl ds T Mp el e s' : Prop :=
  kinv s' fl ds T Mp el /\ cur_env s' = Some e /\ kernel_lock s' = false /\
  (exists en d, envs s !! e = Some en /\ d ∈ ds /\ env_pgdir en = dir_kva d /\
     cr3 s' = d * 4096) /\
  switched (cur_env s) (cpu_num s) e (envs s) (envs s') /\
  pm_core s' = pm_core s /\ invlpgs s' = invlpgs s /\ cpu_status s' = cpu_status s.

(** Putting the current environment back. *)
Lemma put_back_ok s fl ds T Mp el e :
  kinv s fl ds T Mp el -> (exists en, envs s !! e = Some en /\ live en) ->
  wp (match cur_env s with
      | Some ce =>
          let! cen := get_env ce in
          if bool_decide (env_status cen = ENV_RUNNING)
          then upd_env ce (set_env_status ENV_RUNNABLE) else ret tt
      | None => ret tt
      end)
     (fun _ s' => kinv s' fl ds T Mp el /\ pm_core s' = pm_core s /\
        cur_env s' = cur_env s /\ kernel_lock s' = kernel_lock s /\ cpu_num s' = cpu_num s /\
        invlpgs s' = invlpgs s /\ cpu_status s' = cpu_status s /\
        forall x, envs s' !! x =
          match envs s !! x with
          | Some en => if decide (cur_env s = Some x /\ env_status en = ENV_RUNNING)
                       then Some (set_env_status ENV_RUNNABLE en) else Some en
          | None => None
          end) s.
Proof.
  intros I He. unfold wp. destruct (cur_env s) as [c|] eqn:Hc.
  2:{ wp_steps. do 7 (split; [done|]). intros x. destruct (envs s !! x); [|done].
      by rewrite decide_False by naive_solver. }
  destruct (ew_cur _ _ (ki_env _ _ _ _ _ _ _ _ _ I) c Hc) as (cen & Hcen & Hl).
  wp_steps. eapply wpe_get_env; [done|]. case_bool_decide as Hr; wp_steps.
  - eapply wpe_upd_env; [done|]. split; [eapply kinv_upd_env; [done|done|]|].
    { split; [|done]. unfold live in *. simpl. naive_solver. }
    do 6 (split; [done|]). intros x. simpl. rewrite lookup_insert. case_decide as Hx.
    + subst. rewrite Hcen. by rewrite decide_True.
    + destruct (envs s !! x); [|done]. by rewrite decide_False by naive_solver.
  - do 7 (split; [done|]). intros x. destruct (envs s !! x) eqn:Hx; [|done].
    rewrite decide_False; [done|]. intros [[= ->] ?]. by simplify_eq.
Qed.

Lemma env_run_ok {A} (Q : A -> kst -> Prop) s fl ds T Mp el e en :
  kinv s fl ds T Mp el -> envs s !! e = Some en -> live en -> kernel_lock s = true ->
  wpe (env_run e) Q (run_post s fl ds T Mp el e) s.
Proof.
  intros I He Hl Hk. unfold env_run. wp_steps.
  eapply wp_wpe; [eapply put_back_ok; eauto|].
  intros [] s1 (I1 & C1 & Ec1 & Ek1 & En1 & Ei1 & Eu1 & E1).
  pose proof (E1 e) as He1. rewrite He in He1.
  assert (exists en1, envs s1 !! e = Some en1 /\ live en1 /\ env_runs en1 = env_runs en /\
    set_env_status ENV_RUNNING en1 = set_env_status ENV_RUNNING en) as (en1 & Hen1 & Hl1 & Hr1 & Hst).
  { case_decide; [|by exists en]. eexists. split; [done|]. done. }
  clear He1. wp_steps. eapply wpe_upd_env; [exact Hen1|]. wp_steps.
  eapply wpe_upd_env; [apply lookup_insert_eq|]. simpl envs. rewrite insert_insert_eq. wp_steps.
  eapply wpe_get_env; [apply lookup_insert_eq|].
  destruct (kinv_env _ _ _ _ _ _ _ _ _ _ _ I He Hl) as (d & Hd & Hpd).
  pose proof (rep_ds _ _ _ _ _ _ (ki_pm _ _ _ _ _ _ _ _ _ I) d Hd).
  assert (env_pgdir en1 = dir_kva d) as Hpd1 by (change (env_pgdir (set_env_status ENV_RUNNING en1) = dir_kva d); by rewrite Hst).
  unfold PADDR. simpl env_pgdir. rewrite Hpd1. unfold dir_kva.
  destruct (Z.ltb_spec (KERNBASE + d * 4096) KERNBASE); [lia|]. wp_steps.
  unfold lcr3, unlock_kernel. wp_steps. simpl kernel_lock. rewrite Ek1, Hk. wp_steps.
  unfold env_pop_tf. wp_steps. simpl cur_env. eapply wpe_deref; [done|]. wp_steps.
  eapply wpe_upd_env; [apply lookup_insert_eq|]. simpl envs. rewrite insert_insert_eq. wp_steps.
  set (en2 := set_env_cpunum _ _).
  assert (kinv (set_envs (<[e := en2]> (envs s1)) s1) fl ds T Mp el) as I2.
  { eapply kinv_upd_env; [exact I1|exact Hen1|]. unfold en2, live. simpl.
    split; [split; [intros _; exact Hl1|done]|done]. }
  split; [|split; [done|split; [done|split]]].
  - eapply kinv_misc; [exact I2|done|done|done|]. simpl. intros c [= <-].
    exists en2. rewrite lookup_insert_eq. split; [done|]. done.
  - exists en, d. simpl. split; [done|]. split; [done|]. split; [done|lia].
  - split; [|done]. split.
    + exists en. simpl. rewrite lookup_insert_eq. split; [done|]. unfold en2.
      rewrite Hst. simpl cpu_num. by rewrite En1.
    + intros x Hx. simpl. rewrite lookup_insert_ne by done. apply E1.
Qed.

(** ** sched_halt and sched_yield *)

Definition alive s (e : Z) : bool :=
  status_is s ENV_RUNNABLE e || status_is s ENV_RUNNING e || status_is s ENV_DYING e.

(** The state in which the CPU halts and waits for a timer interrupt. *)
Definition halted s : kst :=
  set_kernel_lock false (set_cpu_status CPU_HALTED
    (set_cr3 (kd * 4096) (set_cur_env None s))).

(** Halted, or in the monitor with nothing alive. *)
Definition halt_post s s' : Prop :=
  match find_first (alive s) (seqZ 0 NENV) with
  | Some _ => s' = halted s
  | None => s' = s
  end.

Lemma sched_halt_ok {A} (Q : A -> kst -> Prop) s fl ds T Mp el :
  kinv s fl ds T Mp el -> kernel_lock s = true -> wpe sched_halt Q (halt_post s) s.
Proof.
  intros I Hk. unfold sched_halt. apply wpe_bind.
  eapply wp_wpe; [eapply scan_ok with (f := id) (P := alive s) (g := fun _ => tt)
    (test := fun _ en => match env_status en with
         | ENV_RUNNABLE | ENV_RUNNING | ENV_DYING => Some tt | _ => None end)|].
  { intros i Hi. apply elem_of_seqZ in Hi.
    destruct (kinv_slot _ _ _ _ _ _ _ _ _ i I ltac:(lia)) as [en He].
    exists en. split; [done|]. unfold alive, status_is. simpl. rewrite He.
    by destruct (env_status en). }
  intros r s' [-> ->]. unfold halt_post. rewrite list_fmap_id.
  destruct (find_first (alive s) (seqZ 0 NENV)); cbn [fmap option_fmap option_map].
  2:{ by wp_steps. }
  wp_steps. unfold PADDR. simpl kern_pgdir. rewrite (ki_kpd _ _ _ _ _ _ _ _ _ I). unfold dir_kva.
  destruct (ki_own _ _ _ _ _ _ _ _ _ I kd (ki_kd _ _ _ _ _ _ _ _ _ I)) as (? & _ & _).
  destruct (Z.ltb_spec (KERNBASE + kd * 4096) KERNBASE); [lia|]. wp_steps.
  unfold lcr3, unlock_kernel. wp_steps. simpl kernel_lock. rewrite Hk. wp_steps.
  unfold halted. by replace (KERNBASE + kd * 4096 - KERNBASE) with (kd * 4096) by lia.
Qed.

(** Whether the environment this CPU was running may go on. *)
Definition still_running s : bool :=
  match envs s !! start_slot s with
  | Some en => bool_decide (env_status en = ENV_RUNNING) && (env_cpunum en =? cpu_num s)
  | None => false
  end.

Definition sched_post s fl ds T Mp el s' : Prop :=
  match next_env s with
  | Some e => run_post s fl ds T Mp el e s'
  | None =>
      if still_running s then run_post s fl ds T Mp el (start_slot s) s'
      else halt_post s s'
  end.

Lemma start_slot_range s : 0 <= start_slot s < NENV.
Proof.
  unfold start_slot. destruct (cur_env s); [|done]. destruct (envs s !! z); [|done].
  apply ENVX_range.
Qed.

Lemma status_live s e st :
  status_is s st e = true -> st <> ENV_FREE -> exists en, envs s !! e = Some en /\ live en.
Proof.
  unfold status_is. destruct (envs s !! e) as [en|]; [|done].
  intros Hs%bool_decide_eq_true ?. exists en. split; [done|]. unfold live. congruence.
Qed.

Lemma sched_yield_ok {A} (Q : A -> kst -> Prop) s fl ds T Mp el :
  kinv s fl ds T Mp el -> kernel_lock s = true ->
  wpe sched_yield Q (sched_post s fl ds T Mp el) s.
Proof.
  intros I Hk. unfold sched_yield. wp_steps.
  eapply wp_wpe with (Q := fun r s' => r = start_slot s /\ s' = s).
  { unfold wp, start_slot. destruct (cur_env s) as [c|] eqn:Hc; [|by wp_steps].
    destruct (ew_cur _ _ (ki_env _ _ _ _ _ _ _ _ _ I) c Hc) as (en & He & _).
    wp_steps. eapply wpe_get_env; [done|]. wp_steps. by rewrite He. }
  intros st s' [-> ->]. apply wpe_bind.
  eapply wp_wpe; [eapply scan_ok with (f := fun i => (start_slot s + i) `mod` NENV)
    (P := status_is s ENV_RUNNABLE) (g := id)
    (test := fun x en => if bool_decide (env_status en = ENV_RUNNABLE) then Some x else None)|].
  { intros i _. destruct (kinv_slot _ _ _ _ _ _ _ _ _ ((start_slot s + i) `mod` NENV) I)
      as [en He]; [by apply Z.mod_pos_bound|].
    exists en. split; [done|]. unfold status_is. rewrite He. done. }
  intros r s' [-> ->]. fold (scan_order (start_slot s)). fold (next_env s).
  rewrite option_fmap_id. unfold sched_post.
  destruct (next_env s) as [e|] eqn:Hn.
  - unfold next_env in Hn. apply find_first_Some in Hn as (Hs & _).
    apply status_live in Hs as (en & He & Hl); [|done]. by eapply env_run_ok.
  - destruct (kinv_slot _ _ _ _ _ _ _ _ _ _ I (start_slot_range s)) as [en He].
    wp_steps. eapply wpe_get_env; [done|]. wp_steps. unfold still_running. rewrite He.
    destruct (bool_decide (env_status en = ENV_RUNNING)) eqn:Hr; simpl;
      [destruct (env_cpunum en =? cpu_num s)|]; try (by eapply sched_halt_ok).
    apply bool_decide_eq_true in Hr. eapply env_run_ok; [done|done| |done].
    unfold live. congruence.
Qed.

(** ** env_destroy *)

Local Notation free_env_post := (free_env_post KP kx kd).

(** Another CPU runs [e]: it is only marked. *)
Definition runs_elsewhere s e (en : Env) : Prop :=
  env_status en = ENV_RUNNING /\ cur_env s <> Some e.

Definition destroy_ret s ds T Mp el e en d s' : Prop :=
  if decide (runs_elsewhere s e en)
  then s' = set_envs (<[e := set_env_status ENV_DYING en]> (envs s)) s
  else cur_env s <> Some e /\ free_env_post s ds T Mp el e en d s'.

(** The current environment destroyed itself and the next one runs. *)
Definition destroy_leave s ds T Mp el e en d s' : Prop :=
  cur_env s = Some e /\
  exists s1 fl1 T1 M1, free_env_post s ds T Mp el e en d s1 /\
    kinv (set_cur_env None s1) fl1 (ds ∖ {[d]}) T1 M1 (e :: el) /\
    complete KP s1 fl1 (ds ∖ {[d]}) T1 M1 /\
    sched_post (set_cur_env None s1) fl1 (ds ∖ {[d]}) T1 M1 (e :: el) s'.

Lemma env_destroy_ok s fl ds T Mp el e en d :
  kinv s fl ds T Mp el -> complete KP s fl ds T Mp -> envs s !! e = Some en -> live en ->
  d ∈ ds -> env_pgdir en = dir_kva d -> kernel_lock s = true ->
  wpe (env_destroy e) (fun _ s' => destroy_ret s ds T Mp el e en d s')
      (destroy_leave s ds T Mp el e en d) s.
Proof.
  intros I C He Hl Hd Hpd Hk. unfold env_destroy, destroy_ret. wp_steps.
  eapply wpe_get_env; [done|]. wp_steps.
  destruct (decide (runs_elsewhere s e en)) as [[Hr Hc]|Hn].
  { rewrite !bool_decide_eq_true_2 by done. simpl. by eapply wpe_upd_env. }
  replace (bool_decide (env_status en = ENV_RUNNING) && bool_decide (cur_env s <> Some e))
    with false by (symmetry; apply not_true_iff_false; rewrite andb_true_iff,
      !bool_decide_eq_true; exact Hn).
  wp_steps. eapply wp_wpe; [by eapply env_free_ok|]. intros [] s1 P. pose proof P as
    (fl1 & T1 & M1 & I1 & C1 & _ & HT & HM & Es & Ec & Ek & En & _). wp_steps.
  rewrite Ec. unfold cur_without in I1. case_bool_decide as Hc; [|by wp_steps].
  rewrite decide_True in I1 by done. wp_steps.
  eapply wpe_mono; [eapply (sched_yield_ok (fun _ _ => False)); [exact I1|]|done|].
  { simpl. congruence. }
  intros s' S. split; [done|]. by exists s1, fl1, T1, M1.
Qed.
End sched.
