(* ===== verification/Devices.v ===== *)
(** * kern/console.c (input), kern/time.c and kern/e1000.c

    The drivers that system calls reach.  What the hardware delivers is an
    argument: the values the polling routines return before -1, and the
    descriptors the network card fills in. *)
From S2P Require Import Prelude Mem Mmu Kstate Pmap Env.

(** ** Console input *)

(** cons_intr on the values [cs] that [proc] returns before -1. *)
Fixpoint cons_intr (cs : list Z) : K unit :=
  match cs with
  | [] => ret tt
  | c :: cs' =>
      (if c =? 0 then ret tt
       else
         let! k := gets cons in
         let w := u32 (cons_wpos k + 1) in
         modify (set_cons (mkCons (<[cons_wpos k := u8 c]> (cons_buf k)) (cons_rpos k)
           (if w =? CONSBUFSIZE then 0 else w)))) ;;;
      cons_intr cs'
  end.

Definition cons_getc (serial kbd : list Z) : K Z :=
  cons_intr serial ;;;
  cons_intr kbd ;;;
  let! k := gets cons in
  if cons_rpos k =? cons_wpos k then ret 0
  else
    let c := default 0 (cons_buf k !! cons_rpos k) in
    let r := u32 (cons_rpos k + 1) in
    modify (set_cons (mkCons (cons_buf k) (if r =? CONSBUFSIZE then 0 else r)
                             (cons_wpos k))) ;;;
    ret c.

(** ** Time *)

Definition time_init : K unit := modify (set_ticks 0).

Definition time_tick : K unit :=
  let! t := gets ticks in
  let t' := u32 (t + 1) in
  modify (set_ticks t') ;;;
  if u32 (t' * 10) <? t' then panic "time_tick: time overflowed" else ret tt.

Definition time_msec : K Z :=
  let! t := gets ticks in ret (u32 (t * 10)).

(** ** The network card *)

Definition TXDESCS : Z := 32.
Definition TX_PKT_SIZE : Z := 1518.
Definition RXDESCS : Z := 128.
Definition RX_PKT_SIZE : Z := 1518.
Definition E1000_TXD_STAT_DD : Z := 1.
Definition E1000_TXD_CMD_EOP : Z := 1.
Definition E1000_TXD_CMD_RS : Z := 8.
Definition E1000_RXD_STAT_DD : Z := 1.
Definition E_TRANSMIT_RETRY : Z := 1.
Definition E_RECEIVE_RETRY : Z := 2.

(** A byte of [tx_buffer_array]; beyond the array is undefined. *)
Definition tx_store (a b : Z) : K unit :=
  if TXDESCS * TX_PKT_SIZE <=? a then undef
  else
    let! n := gets nic in
    modify (set_nic (mkNic (tdt n) (tx_desc_array n) (<[a := b]> (tx_buffer_array n))
                           (rdt n) (rx_next n) (rx_desc_array n) (rx_buffer_array n))).

Definition set_tx (i : Z) (d : tx_desc) : K unit :=
  let! n := gets nic in
  modify (set_nic (mkNic (tdt n) (<[i := d]> (tx_desc_array n)) (tx_buffer_array n)
                         (rdt n) (rx_next n) (rx_desc_array n) (rx_buffer_array n))).

Definition e1000_transmit (data len : Z) : K Z :=
  let! n := gets nic in
  let current := tdt n in
  let! d := deref (tx_desc_array n !! current) in
  if negb (flag (td_status d) E1000_TXD_STAT_DD) then ret (- E_TRANSMIT_RETRY)
  else
    set_tx current
      (mkTx (u16 len) (Z.lor (td_cmd d) (Z.lor E1000_TXD_CMD_EOP E1000_TXD_CMD_RS))
            (Z.land (td_status d) (Z.lnot E1000_TXD_STAT_DD))) ;;;
    for_ (seqZ 0 len) (fun i =>
      let! b := vload8 (u32 (data + i)) in
      tx_store (current * TX_PKT_SIZE + i) b) ;;;
    let next := (current + 1) `mod` TXDESCS in
    modify (fun s => let m := nic s in
      set_nic (mkNic next (tx_desc_array m) (tx_buffer_array m) (rdt m) (rx_next m)
                     (rx_desc_array m) (rx_buffer_array m)) s) ;;;
    ret 0.

Definition e1000_receive (addr len : Z) : K Z :=
  let! n := gets nic in
  let next := rx_next n in
  let! d := deref (rx_desc_array n !! next) in
  if negb (flag (rd_status d) E1000_RXD_STAT_DD) then ret (- E_RECEIVE_RETRY)
  else if negb (rd_errors d =? 0) then ret (- E_RECEIVE_RETRY)
  else
    vstore32 len (rd_length d) ;;;
    let! l := vload32 len in
    for_ (seqZ 0 l) (fun i =>
      let! m := gets nic in
      let a := next * RX_PKT_SIZE + i in
      if RXDESCS * RX_PKT_SIZE <=? a then undef
      else vstore8 (u32 (addr + i)) (default 0 (rx_buffer_array m !! a))) ;;;
    modify (fun s => let m := nic s in
      set_nic (mkNic (tdt m) (tx_desc_array m) (tx_buffer_array m)
                     ((rdt m + 1) `mod` RXDESCS) ((rx_next m + 1) `mod` RXDESCS)
                     (rx_desc_array m) (rx_buffer_array m)) s) ;;;
    ret 0.
