(* ===== verification/Syscall.v ===== *)
(** * kern/syscall.c: the system calls *)
From S2P Require Import Prelude Mem Mmu Kstate Pmap Env Devices.

Definition curenv : K Z := let! c := gets cur_env in deref c.

(** The characters [cprintf("%.*s", len, s)] sends to the console: the loop
    of vprintfmt loads a character before it looks at the precision. *)
Definition print_string (p precision : Z) : K (list Z) :=
  loop (Z.to_nat (if precision <? 0 then 2^32 else precision + 1))
    (fun st =>
       let '(p, precision, out) := st in
       let! ch := vload8 p in
       if ch =? 0 then ret (inr (reverse out))
       else if precision <? 0 then ret (inl (u32 (p + 1), precision, ch :: out))
       else if 0 <=? precision - 1
       then ret (inl (u32 (p + 1), precision - 1, ch :: out))
       else ret (inr (reverse out)))
    (p, precision, []).

(** "(null)", which vprintfmt prints for a null pointer. *)
Definition null_string : list Z := [40; 110; 117; 108; 108; 41].

Definition sys_cputs (s len : Z) : K (list Z) :=
  let! e := curenv in
  user_mem_assert e s len (Z.lor PTE_P PTE_U) ;;;
  if s =? 0 then ret (if s32 len <? 0 then null_string
                      else take (Z.to_nat (s32 len)) null_string)
  else print_string s (s32 len).

Definition sys_cgetc (serial kbd : list Z) : K Z := cons_getc serial kbd.

Definition sys_getenvid : K Z :=
  let! c := curenv in let! en := get_env c in ret (env_id en).

Definition sys_env_destroy (envid : Z) : K Z :=
  let! r := envid2env envid true in
  if fst r <? 0 then ret (fst r)
  else
    let! e := deref (snd r) in
    env_destroy e ;;; ret 0.

Definition sys_yield : K unit := sched_yield.

Definition sys_exofork : K Z :=
  let! c := curenv in
  let! cen := get_env c in
  let! r := env_alloc (env_id cen) in
  if fst r <? 0 then ret (fst r)
  else
    let! e := deref (snd r) in
    upd_env e (set_env_status ENV_NOT_RUNNABLE) ;;;
    let! cen' := get_env c in
    upd_env e (set_env_tf (env_tf cen')) ;;;
    upd_env e (fun en => set_env_tf (set_tf_regs (set_reg_eax 0 (tf_regs (env_tf en)))
                                       (env_tf en)) en) ;;;
    let! en := get_env e in
    ret (env_id en).

(** The values of [enum] in inc/env.h. *)
Definition ENV_RUNNABLE_val : Z := 2.
Definition ENV_NOT_RUNNABLE_val : Z := 4.

Definition sys_env_set_status (envid status : Z) : K Z :=
  if negb (status =? ENV_RUNNABLE_val) && negb (status =? ENV_NOT_RUNNABLE_val)
  then ret (- E_INVAL)
  else
    let! r := envid2env envid true in
    if fst r <? 0 then ret (- E_BAD_ENV)
    else
      let! e := deref (snd r) in
      upd_env e (set_env_status
        (if status =? ENV_RUNNABLE_val then ENV_RUNNABLE else ENV_NOT_RUNNABLE)) ;;;
      ret 0.

(** struct Trapframe in memory (inc/trap.h): the 16-bit selectors are padded
    to 32 bits, tf_cs is at offset 52 and tf_eflags at 56. *)
Definition sizeof_Trapframe : Z := 68.

Definition vload_tf (a : Z) : K Trapframe :=
  let! edi := vload32 a in let! esi := vload32 (u32 (a + 4)) in
  let! ebp := vload32 (u32 (a + 8)) in let! oesp := vload32 (u32 (a + 12)) in
  let! ebx := vload32 (u32 (a + 16)) in let! edx := vload32 (u32 (a + 20)) in
  let! ecx := vload32 (u32 (a + 24)) in let! eax := vload32 (u32 (a + 28)) in
  let! es := vload16 (u32 (a + 32)) in let! ds := vload16 (u32 (a + 36)) in
  let! trapno := vload32 (u32 (a + 40)) in let! err := vload32 (u32 (a + 44)) in
  let! eip := vload32 (u32 (a + 48)) in let! cs := vload16 (u32 (a + 52)) in
  let! eflags := vload32 (u32 (a + 56)) in let! esp := vload32 (u32 (a + 60)) in
  let! ss := vload16 (u32 (a + 64)) in
  ret (mkTf (mkRegs edi esi ebp oesp ebx edx ecx eax) es ds trapno err eip cs eflags esp ss).

Definition vstore16 (va v : Z) : K unit :=
  vstore8 va (u8 v) ;;; vstore8 (u32 (va + 1)) (u8 (v / 2^8)).

Definition sys_env_set_trapframe (envid tf : Z) : K Z :=
  let! r := envid2env envid true in
  if fst r <? 0 then ret (- E_BAD_ENV)
  else
    let! theEnv := deref (snd r) in
    user_mem_assert theEnv tf sizeof_Trapframe PTE_U ;;;
    let! fl := vload32 (u32 (tf + 56)) in
    vstore32 (u32 (tf + 56)) (Z.land fl (Z.lnot FL_IOPL_MASK)) ;;;
    let! fl' := vload32 (u32 (tf + 56)) in
    vstore32 (u32 (tf + 56)) (Z.lor fl' FL_IF) ;;;
    let! cs := vload16 (u32 (tf + 52)) in
    vstore16 (u32 (tf + 52)) (Z.lor cs (Z.lor GD_UT 3)) ;;;
    let! t := vload_tf tf in
    upd_env theEnv (set_env_tf t) ;;;
    ret 0.

Definition sys_env_set_pgfault_upcall (envid func : Z) : K Z :=
  let! r := envid2env envid true in
  if fst r <? 0 then ret (- E_BAD_ENV)
  else
    let! e := deref (snd r) in
    upd_env e (set_env_pgfault_upcall func) ;;;
    ret 0.

(** [va >= UTOP || PGOFF(va)] *)
Definition bad_va (va : Z) : bool := (UTOP <=? va) || negb (PGOFF va =? 0).

(** [(perm & PTE_SYSCALL) == 0 || (perm & ~PTE_SYSCALL)] *)
Definition bad_perm (perm : Z) : bool :=
  (Z.land perm PTE_SYSCALL =? 0) || flag perm (Z.lnot PTE_SYSCALL).

Definition sys_page_alloc (envid va perm : Z) : K Z :=
  let! r := envid2env envid true in
  if fst r <? 0 then ret (- E_BAD_ENV)
  else if bad_va va then ret (- E_INVAL)
  else if bad_perm perm then ret (- E_INVAL)
  else
    let! op := page_alloc ALLOC_ZERO in
    match op with
    | None => ret (- E_NO_MEM)
    | Some pp =>
        let! e := deref (snd r) in
        let! en := get_env e in
        let! i := page_insert (env_pgdir en) pp va perm in
        if i <? 0 then ret (- E_NO_MEM) else ret 0
    end.

Definition sys_page_map (srcenvid srcva dstenvid dstva perm : Z) : K Z :=
  let! rs := envid2env srcenvid true in
  if fst rs <? 0 then ret (- E_BAD_ENV)
  else
    let! rd := envid2env dstenvid true in
    if fst rd <? 0 then ret (- E_BAD_ENV)
    else if bad_va srcva || bad_va dstva then ret (- E_INVAL)
    else if bad_perm perm then ret (- E_INVAL)
    else
      let! se := deref (snd rs) in
      let! sen := get_env se in
      let! l := page_lookup (env_pgdir sen) srcva in
      match l with
      | None => ret (- E_INVAL)
      | Some (srcpp, pte) =>
          let! e := kread32 pte in
          if flag perm PTE_W && (Z.land e PTE_W =? 0) then ret (- E_INVAL)
          else
            let! de := deref (snd rd) in
            let! den := get_env de in
            let! i := page_insert (env_pgdir den) srcpp dstva perm in
            if i <? 0 then ret (- E_NO_MEM) else ret 0
      end.

Definition sys_page_unmap (envid va : Z) : K Z :=
  let! r := envid2env envid true in
  if fst r <? 0 then ret (- E_BAD_ENV)
  else if bad_va va then ret (- E_INVAL)
  else
    let! e := deref (snd r) in
    let! en := get_env e in
    page_remove (env_pgdir en) va ;;;
    ret 0.

Definition sys_ipc_try_send (envid value srcva perm : Z) : K Z :=
  let! r := envid2env envid false in
  if fst r <? 0 then ret (fst r)
  else
    let! dst := deref (snd r) in
    let! den := get_env dst in
    if negb (env_ipc_recving den) || negb (env_ipc_from den =? 0)
    then ret (- E_IPC_NOT_RECV)
    else
      let! res :=
        (if srcva <? UTOP then
           if negb (PGOFF srcva =? 0) then ret (Some (- E_INVAL))
           else if negb (flag perm PTE_P) || negb (flag perm PTE_U)
           then ret (Some (- E_INVAL))
           else if flag perm (Z.lnot PTE_SYSCALL) then ret (Some (- E_INVAL))
           else
             let! c := curenv in
             let! cen := get_env c in
             let! l := page_lookup (env_pgdir cen) srcva in
             match l with
             | None => ret (Some (- E_INVAL))
             | Some (pp, pte) =>
                 let! e := kread32 pte in
                 if flag perm PTE_W && negb (flag e PTE_W) then ret (Some (- E_INVAL))
                 else if negb (env_ipc_dstva den =? 0) then
                   let! i := page_insert (env_pgdir den) pp (env_ipc_dstva den) perm in
                   if i <? 0 then ret (Some i)
                   else upd_env dst (set_env_ipc_perm perm) ;;; ret None
                 else ret None
             end
         else ret None) in
      match res with
      | Some err => ret err
      | None =>
          let! c := curenv in
          let! cen := get_env c in
          upd_env dst (set_env_ipc_from (env_id cen)) ;;;
          upd_env dst (set_env_ipc_recving false) ;;;
          upd_env dst (set_env_ipc_value value) ;;;
          upd_env dst (set_env_status ENV_RUNNABLE) ;;;
          upd_env dst (fun en => set_env_tf
            (set_tf_regs (set_reg_eax 0 (tf_regs (env_tf en))) (env_tf en)) en) ;;;
          ret 0
      end.

Definition sys_ipc_recv (dstva : Z) : K Z :=
  if (dstva <? UTOP) && negb (PGOFF dstva =? 0) then ret (- E_INVAL)
  else
    let! c := curenv in
    upd_env c (set_env_ipc_dstva dstva) ;;;
    upd_env c (set_env_status ENV_NOT_RUNNABLE) ;;;
    upd_env c (set_env_ipc_recving true) ;;;
    upd_env c (set_env_ipc_from 0) ;;;
    sched_yield.

(** The int that carries an unsigned value. *)
Definition sys_time_msec : K Z := let! t := time_msec in ret (s32 t).

Definition sys_pkt_send (data len : Z) : K Z := e1000_transmit data len.
Definition sys_pkt_recv (addr len : Z) : K Z := e1000_receive addr len.

(** ** The dispatcher *)

Definition SYS_cputs : Z := 0.
Definition SYS_cgetc : Z := 1.
Definition SYS_getenvid : Z := 2.
Definition SYS_env_destroy : Z := 3.
Definition SYS_page_alloc : Z := 4.
Definition SYS_page_map : Z := 5.
Definition SYS_page_unmap : Z := 6.
Definition SYS_exofork : Z := 7.
Definition SYS_env_set_status : Z := 8.
Definition SYS_env_set_trapframe : Z := 9.
Definition SYS_env_set_pgfault_upcall : Z := 10.
Definition SYS_yield : Z := 11.
Definition SYS_ipc_try_send : Z := 12.
Definition SYS_ipc_recv : Z := 13.
Definition SYS_time_msec : Z := 14.
Definition SYS_pkt_send : Z := 15.
Definition SYS_pkt_recv : Z := 16.
Definition NSYSCALLS : Z := 17.

(** [serial] and [kbd] are what the console devices have ready.  The case of
    SYS_cputs falls through to the next one. *)
Definition syscall (serial kbd : list Z) (no a1 a2 a3 a4 a5 : Z) : K Z :=
  let assert_curenv :=
    let! c := gets cur_env in assert_ (bool_decide (c <> None)) "curenv" in
  if no =? SYS_cputs then sys_cputs a1 a2 ;;; sys_cgetc serial kbd
  else if no =? SYS_cgetc then sys_cgetc serial kbd
  else if no =? SYS_getenvid then assert_curenv ;;; sys_getenvid
  else if no =? SYS_env_destroy then assert_curenv ;;; sys_env_destroy (s32 a1)
  else if no =? SYS_page_alloc then sys_page_alloc (s32 a1) a2 (s32 a3)
  else if no =? SYS_page_map then sys_page_map (s32 a1) a2 (s32 a3) a4 (s32 a5)
  else if no =? SYS_page_unmap then sys_page_unmap (s32 a1) a2
  else if no =? SYS_exofork then sys_exofork
  else if no =? SYS_env_set_status then sys_env_set_status (s32 a1) (s32 a2)
  else if no =? SYS_yield then sys_yield ;;; ret 0
  else if no =? SYS_env_set_pgfault_upcall then sys_env_set_pgfault_upcall (s32 a1) a2
  else if no =? SYS_ipc_try_send then sys_ipc_try_send (s32 a1) a2 a3 a4
  else if no =? SYS_ipc_recv then sys_ipc_recv a1
  else if no =? SYS_env_set_trapframe then sys_env_set_trapframe (s32 a1) a2
  else if no =? SYS_time_msec then sys_time_msec
  else if no =? SYS_pkt_send then sys_pkt_send a1 a2
  else if no =? SYS_pkt_recv then sys_pkt_recv a1 a2
  else ret (- E_INVAL).
