(* ===== verification/Trap.v ===== *)
(** * kern/trap.c: traps, page faults and the return to user mode

    A trap frame is either the saved frame of an environment (traps from user
    mode, after trap() copied it there) or a frame on the kernel stack. *)
From S2P Require Import Prelude Mem Mmu Kstate Pmap Env Devices Syscall.

Definition T_BRKPT : Z := 3.
Definition T_PGFLT : Z := 14.
Definition T_SYSCALL : Z := 48.
Definition IRQ_OFFSET : Z := 32.
Definition IRQ_TIMER : Z := 0.
Definition IRQ_KBD : Z := 1.
Definition IRQ_SERIAL : Z := 4.
Definition IRQ_SPURIOUS : Z := 7.

(** struct UTrapframe: fault_va, err, the eight registers, eip, eflags, esp. *)
Definition sizeof_UTrapframe : Z := 52.

Definition vstore_regs (a : Z) (r : PushRegs) : K unit :=
  vstore32 a (reg_edi r) ;;; vstore32 (u32 (a + 4)) (reg_esi r) ;;;
  vstore32 (u32 (a + 8)) (reg_ebp r) ;;; vstore32 (u32 (a + 12)) (reg_oesp r) ;;;
  vstore32 (u32 (a + 16)) (reg_ebx r) ;;; vstore32 (u32 (a + 20)) (reg_edx r) ;;;
  vstore32 (u32 (a + 24)) (reg_ecx r) ;;; vstore32 (u32 (a + 28)) (reg_eax r).

(** Where the frame for the user's handler goes. *)
Definition utf_addr (esp : Z) : Z :=
  if (UXSTACKTOP - PGSIZE <=? esp) && (esp <=? UXSTACKTOP - 1)
  then u32 (esp - 4 - sizeof_UTrapframe)
  else UXSTACKTOP - sizeof_UTrapframe.

Definition page_fault_handler (fault_va : Z) (tf : Trapframe) : K unit :=
  if Z.land (tf_cs tf) 3 =? 0 then panic "page_fault in kernel mode"
  else
    let! c := curenv in
    let! cen := get_env c in
    (if negb (env_pgfault_upcall cen =? 0) then
       let utf := utf_addr (tf_esp tf) in
       user_mem_assert c utf 1 PTE_W ;;;
       vstore32 (u32 (utf + 48)) (tf_esp tf) ;;;
       vstore32 (u32 (utf + 44)) (tf_eflags tf) ;;;
       vstore32 (u32 (utf + 40)) (tf_eip tf) ;;;
       vstore_regs (u32 (utf + 8)) (tf_regs tf) ;;;
       vstore32 (u32 (utf + 4)) (tf_err tf) ;;;
       vstore32 utf fault_va ;;;
       upd_env c (fun en => set_env_tf (set_tf_eip (env_pgfault_upcall en) (env_tf en)) en) ;;;
       upd_env c (fun en => set_env_tf (set_tf_esp utf (env_tf en)) en) ;;;
       env_run c
     else ret tt) ;;;
    env_destroy c.

(** [loc] is the environment whose saved frame [tf] is.  The monitor, which a
    breakpoint enters, has no command that leaves it. *)
Definition trap_dispatch (serial kbd : list Z) (fault_va : Z) (loc : option Z)
    (tf : Trapframe) : K unit :=
  let no := tf_trapno tf in
  let r := tf_regs tf in
  if no =? T_PGFLT then page_fault_handler fault_va tf
  else if no =? T_BRKPT then leave
  else if no =? T_SYSCALL then
    if NSYSCALLS <=? reg_eax r then ret tt
    else
      let! v := syscall serial kbd (reg_eax r) (reg_edx r) (reg_ecx r) (reg_ebx r)
                        (reg_edi r) (reg_esi r) in
      match loc with
      | Some e => upd_env e (fun en =>
          set_env_tf (set_tf_regs (set_reg_eax (u32 v) (tf_regs (env_tf en))) (env_tf en)) en)
      | None => ret tt
      end
  else if no =? IRQ_OFFSET + IRQ_SPURIOUS then ret tt
  else
    (if no =? IRQ_OFFSET + IRQ_TIMER then time_tick ;;; sched_yield else ret tt) ;;;
    if no =? IRQ_OFFSET + IRQ_KBD then cons_intr kbd
    else if no =? IRQ_OFFSET + IRQ_SERIAL then cons_intr serial
    else if tf_cs tf =? GD_KT then panic "unhandled trap in kernel"
    else let! c := curenv in env_destroy c.

(** The assertion that interrupts are off and the halt after another CPU's
    panic concern state that is not part of the model. *)
Definition trap (serial kbd : list Z) (fault_va : Z) (tf : Trapframe) : K unit :=
  let! st := gets cpu_status in
  modify (set_cpu_status CPU_STARTED) ;;;
  (match st with CPU_HALTED => lock_kernel | _ => ret tt end) ;;;
  (if Z.land (tf_cs tf) 3 =? 3 then
     lock_kernel ;;;
     let! c0 := gets cur_env in
     assert_ (bool_decide (c0 <> None)) "curenv" ;;;
     let! c := curenv in
     let! cen := get_env c in
     (if bool_decide (env_status cen = ENV_DYING) then
        env_free c ;;; modify (set_cur_env None) ;;; sched_yield
      else ret tt) ;;;
     upd_env c (set_env_tf tf) ;;;
     trap_dispatch serial kbd fault_va (Some c) tf
   else trap_dispatch serial kbd fault_va None tf) ;;;
  let! c' := gets cur_env in
  match c' with
  | Some e =>
      let! en := get_env e in
      if bool_decide (env_status en = ENV_RUNNING) then env_run e else sched_yield
  | None => sched_yield
  end.
