(* ===== verification/SyscallMem.v ===== *)
(** * What the memory system calls do to the kernel state *)
From S2P Require Import Prelude Mem Mmu Kstate Pmap PmapRep PmapOps PmapUser.
From S2P Require Import Env EnvRep EnvOps EnvFree Devices Syscall.

(** ** Argument checks *)

Lemma bad_va_false va : bad_va va = false <-> va < UTOP /\ va `mod` 4096 = 0.
Proof.
  unfold bad_va. rewrite orb_false_iff, negb_false_iff, Z.leb_gt, Z.eqb_eq, PGOFF_mod. done.
Qed.

Lemma land_range a b n : 0 <= n -> 0 <= b < 2^n -> 0 <= Z.land a b < 2^n.
Proof.
  intros Hn Hb. rewrite <- (Z.mod_small b (2^n)) by done. rewrite <- Z.land_ones by done.
  rewrite Z.land_assoc, Z.land_ones by done. apply Z.mod_pos_bound. lia.
Qed.

(** Only bits of [m] are set. *)
Lemma flag_lnot_false a m : flag a (Z.lnot m) = false -> Z.land a m = a.
Proof.
  unfold flag. rewrite negb_false_iff, Z.eqb_eq, <- Z.ldiff_land. intros H.
  rewrite <- (Z.lor_ldiff_and a m) at 2. by rewrite H.
Qed.

Lemma perm_range perm : flag perm (Z.lnot PTE_SYSCALL) = false -> 0 <= perm < 4096.
Proof.
  intros H%flag_lnot_false. rewrite <- H. apply (land_range _ _ 12); [lia|]. by vm_compute.
Qed.

Lemma bad_perm_range perm : bad_perm perm = false -> 0 <= perm < 4096.
Proof. intros [_ H]%orb_false_iff. by apply perm_range. Qed.

Section calls.
Context (KP : gset Z) (kx : Z -> Z) (kd : Z).
Implicit Types (s : kst) (fl el : list Z) (ds : gset Z) (T Mp : gmap (Z * Z) Z).
Local Notation kinv := (kinv KP kx kd).
Local Notation complete := (complete KP).
Local Notation ins_fl := (ins_fl kx).
Local Notation rem_fl := (rem_fl kx).

(** ** The environment a call names *)

(** With [checkperm]: the caller itself or one of its children. *)
Definition target s (id : Z) (checkperm : bool) (e : Z) : Prop :=
  if decide (id = 0) then cur_env s = Some e else may_use s id checkperm e.

(** Its slot and its directory. *)
Definition target_at s ds id checkperm (e : Z) (en : Env) (d : Z) : Prop :=
  target s id checkperm e /\ envs s !! e = Some en /\ live en /\
  d ∈ ds /\ env_pgdir en = dir_kva d.

Lemma envid2env_target s fl ds T Mp el id checkperm :
  kinv s fl ds T Mp el -> is_Some (cur_env s) ->
  wp (envid2env id checkperm) (fun r s' => s' = s /\
    ((r = (- E_BAD_ENV, None) /\ forall e, ~ target s id checkperm e) \/
     (exists e en d, r = (0, Some e) /\ target_at s ds id checkperm e en d))) s.
Proof.
  intros I [c Hc]. eapply wp_mono; [eapply envid2env_ok; [apply (ki_env _ _ _ _ _ _ _ _ _ I)|by rewrite Hc]|].
  intros r s' [-> P]. split; [done|]. unfold envid_post in P. unfold target_at, target.
  destruct (decide (id = 0)) as [->|Hid].
  - right. rewrite Hc in P. subst r.
    destruct (ew_cur _ _ (ki_env _ _ _ _ _ _ _ _ _ I) c Hc) as (en & He & Hl).
    destruct (kinv_env _ _ _ _ _ _ _ _ _ _ _ I He Hl) as (d & Hd & Hp). by exists c, en, d.
  - destruct P as [(e & -> & M)|[-> Hn]]; [right|by left].
    pose proof M as (en & He & Hl & _).
    destruct (kinv_env _ _ _ _ _ _ _ _ _ _ _ I He Hl) as (d & Hd & Hp). by exists e, en, d.
Qed.

(** ** sys_page_unmap *)

(** An unmapping writes one entry of a page table. *)
Lemma removed_words s fl ds T Mp d va s' :
  remove_post s fl ds T Mp kx d va s' ->
  ptes_kept T d va s s' /\ same_bytes (fun q => forall k, T !! k <> Some q) s s'.
Proof.
  unfold remove_post. destruct (Mp !! vkey d va) as [p|]; [|by intros ->].
  intros (_ & _ & (t & Ht & Hm) & _). pose proof (PTX_range va). split.
  - intros q j _ Hj Hne. rewrite Hm. apply word_write_ne; [done|done|]. by apply Hne.
  - intros q a Hq Ha. rewrite Hm. apply getb_write32_ne. assert (q <> t) by (intros ->; by eapply Hq). lia.
Qed.

Definition unmap_post s fl ds T Mp el id va (r : Z) s' : Prop :=
  (r = - E_BAD_ENV /\ s' = s /\ forall e, ~ target s id true e) \/
  (r = - E_INVAL /\ s' = s /\ bad_va va = true) \/
  (r = 0 /\ exists e en d, target_at s ds id true e en d /\ pm_frame s s' /\
     kinv s' (rem_fl ds T Mp fl d va) ds T (delete (vkey d va) Mp) el /\
     (complete s fl ds T Mp -> complete s' (rem_fl ds T Mp fl d va) ds T (delete (vkey d va) Mp)) /\
     ptes_kept T d va s s' /\ same_bytes (fun q => forall k, T !! k <> Some q) s s').

Lemma sys_page_unmap_ok s fl ds T Mp el id va :
  kinv s fl ds T Mp el -> is_Some (cur_env s) -> 0 <= va ->
  wp (sys_page_unmap id va) (unmap_post s fl ds T Mp el id va) s.
Proof.
  intros I Hc Hva. unfold wp, sys_page_unmap. wp_steps.
  eapply wp_wpe; [by eapply envid2env_target|].
  intros r s1 [-> [[-> Hn]|(e & en & d & -> & Ht)]]; simpl; [by wp_steps; left|].
  destruct (bad_va va) eqn:Hb; [wp_steps; right; by left|].
  apply bad_va_false in Hb as [Hva' _]. pose proof Ht as (_ & He & Hl & Hd & Hp).
  cbn [snd]. wp_steps. eapply wpe_get_env; [done|]. rewrite Hp. wp_steps.
  eapply wp_wpe; [eapply page_remove_ok; [apply I|by eapply kinv_cur_ok|done|done]|].
  intros [] s2 P. wp_steps. right. right. split; [done|]. exists e, en, d. split; [done|].
  destruct (kinv_remove _ _ _ _ _ _ _ _ _ _ _ _ I P) as (F & I' & _).
  split; [done|]. split; [done|]. split; [|by eapply removed_words].
  intros C. eapply complete_frame; [by apply pm_frame_npages|]. by eapply complete_remove.
Qed.

(** ** sys_page_alloc *)

(** No page but [pp] is lost. *)
Definition complete_but (pp : Z) s fl ds T Mp : Prop :=
  forall q, 0 <= q < npages s -> (q ∉ KP) -> refs ds T Mp q = 0 -> q <> pp -> q ∈ fl.

Lemma refs_insert ds T Mp k pp q :
  refs ds T (<[k := pp]> Mp) q =
    refs ds T Mp q
    - (match Mp !! k with Some old => if decide (old = q) then 1 else 0 | None => 0 end)
    + if decide (pp = q) then 1 else 0.
Proof.
  unfold refs. destruct (Mp !! k) as [old|] eqn:Hk.
  - rewrite (count_insert_Some _ _ old) by done. lia.
  - rewrite count_insert_None by done. lia.
Qed.

Lemma complete_grow pp s fl ds T Mp d va :
  complete_but pp s fl ds T Mp ->
  complete_but pp s (grow_fl T fl d va) ds (grow_T T fl d va) Mp.
Proof.
  intros C q Hq HK H0 Hne. unfold grow_T, grow_fl in *.
  destruct (T !! (d, PDX va)) eqn:HT; [by apply C|]. destruct fl as [|t fl]; [by apply C|].
  unfold refs in H0. rewrite count_insert_None in H0 by done. fold (refs ds T Mp q) in H0.
  pose proof (refs_nonneg ds T Mp q). unfold refs in *.
  destruct (decide (t = q)); [lia|].
  assert (q ∈ t :: fl) as [|]%elem_of_cons; [apply C; [done|done|unfold refs; lia|done]|congruence|done].
Qed.

Lemma complete_insert pp s fl ds T Mp k :
  (forall p, p ∉ KP -> kx p = 0) -> complete_but pp s fl ds T Mp ->
  complete s (insert_fl ds T Mp kx k pp fl) ds T (<[k := pp]> Mp).
Proof.
  intros Hkx C q Hq HK H0. rewrite refs_insert in H0.
  pose proof (refs_nonneg ds T Mp q). unfold insert_fl.
  destruct (decide (pp = q)) as [->|Hne].
  { exfalso. destruct (Mp !! k) as [old|] eqn:Hk; [|lia]. case_decide; [|lia]. subst old.
    pose proof (count_pos _ _ _ Hk). pose proof (count_nonneg T q).
    unfold refs in *. case_decide; lia. }
  destruct (Mp !! k) as [old|] eqn:Hk.
  - destruct (decide (old = q)) as [->|Ho].
    + rewrite decide_True; [by left|]. unfold bump. rewrite (Hkx q) by done.
      rewrite decide_False by done. lia.
    + assert (q ∈ fl) by (apply C; [done|done|lia|done]). case_decide; [by right|done].
  - apply C; [done|done|lia|done].
Qed.

(** The state after a page was mapped at [va] of directory [d]. *)
Definition mapped s fl ds T Mp el d va pp perm s' : Prop :=
  pm_frame s s' /\
  kinv s' (ins_fl ds T Mp fl d va pp) ds (ins_T T fl d va) (<[vkey d va := pp]> Mp) el /\
  (exists t, ins_T T fl d va !! (d, PDX va) = Some t /\
     word (mem s') t (PTX va) = pp * 4096 + Z.lor perm PTE_P) /\
  same_bytes (fun q => q <> d /\ forall k, ins_T T fl d va !! k <> Some q) s s' /\
  (complete_but pp s fl ds T Mp ->
   complete s' (ins_fl ds T Mp fl d va pp) ds (ins_T T fl d va) (<[vkey d va := pp]> Mp)) /\
  ptes_kept T d va s s'.

Lemma page_insert_mapped s fl ds T Mp el d va pp perm :
  kinv s fl ds T Mp el -> d ∈ ds -> 0 <= va < UTOP -> 0 <= perm < 4096 ->
  user_page s fl ds T pp -> (pp ∉ KP) -> refs ds T Mp pp + kx pp + 1 < 2^16 ->
  wp (page_insert (dir_kva d) pp va perm) (fun r s' =>
    (r = - E_NO_MEM /\ s' = s /\ T !! (d, PDX va) = None /\ fl = []) \/
    (r = 0 /\ mapped s fl ds T Mp el d va pp perm s')) s.
Proof.
  intros I Hd Hva Hperm Hup HK Hov.
  eapply wp_mono; [eapply page_insert_ok; [apply I|by eapply kinv_cur_ok|done..]|].
  intros r s' P. destruct (kinv_insert _ _ _ _ _ _ _ _ _ _ _ _ _ _ _ I Hd HK P) as [?|(-> & F & I')];
    [by left|right].
  split; [done|]. split; [done|]. split; [done|].
  destruct P as [(? & _)|(_ & T' & fl' & t & -> & _ & _ & _ & Ht & Hw & B & _ & _ & W)]; [done|].
  split; [by exists t|]. split; [done|]. split; [|done]. intros C.
  eapply complete_frame; [by apply pm_frame_npages|].
  apply complete_insert; [apply (ki_kx _ _ _ _ _ _ _ _ _ I)|by apply complete_grow].
Qed.

(** What a failed insertion leaves behind: the page is in no list. *)
Definition alloc_leak s ds T Mp el d va p s' : Prop :=
  T !! (d, PDX va) = None /\ kinv s' [] ds T Mp el /\ pm_frame s s' /\
  refs ds T Mp p = 0 /\ (p ∉ KP) /\ 0 <= p < npages s' /\ ~ complete s' [] ds T Mp.

Definition page_alloc_post s fl ds T Mp el id va perm (r : Z) s' : Prop :=
  (r = - E_BAD_ENV /\ s' = s /\ forall e, ~ target s id true e) \/
  (r = - E_INVAL /\ s' = s /\ (bad_va va || bad_perm perm = true)) \/
  (r = - E_NO_MEM /\ s' = s /\ fl = []) \/
  exists e en d p fl' s1, target_at s ds id true e en d /\ fl = p :: fl' /\
    pm_frame s s1 /\ kinv s1 fl' ds T Mp el /\ same_bytes (fun q => q <> p) s s1 /\
    (forall a, p * 4096 <= a < p * 4096 + 4096 -> getb (mem s') a = 0) /\
    ((r = - E_NO_MEM /\ fl' = [] /\ s' = s1 /\ alloc_leak s ds T Mp el d va p s') \/
     (r = 0 /\ mapped s1 fl' ds T Mp el d va p perm s')).

Lemma sys_page_alloc_ok s fl ds T Mp el id va perm :
  kinv s fl ds T Mp el -> is_Some (cur_env s) -> 0 <= va ->
  wp (sys_page_alloc id va perm) (page_alloc_post s fl ds T Mp el id va perm) s.
Proof.
  intros I Hc Hva. unfold wp, sys_page_alloc. wp_steps.
  eapply wp_wpe; [by eapply envid2env_target|].
  intros r s1 [-> [[-> Hn]|(e & en & d & -> & Ht)]]; simpl; [by wp_steps; left|].
  destruct (bad_va va) eqn:Hb; [wp_steps; right; left; by rewrite Hb|].
  destruct (bad_perm perm) eqn:Hbp; [wp_steps; right; left; by rewrite Hb, Hbp|].
  apply bad_va_false in Hb as [Hva' _]. apply bad_perm_range in Hbp.
  pose proof Ht as (_ & He & Hl & Hd & Hp). wp_steps.
  eapply wp_wpe; [by eapply kinv_page_alloc_ok|]. intros [p|] s2.
  2:{ intros [-> ->]. wp_steps. right. right. by left. }
  intros (fl' & -> & I2 & F2 & Hup & HK & H0 & Hx & B2 & Hz). wp_steps.
  eapply wpe_get_env; [by rewrite (pm_frame_envs _ _ F2)|]. rewrite Hp. wp_steps.
  eapply wp_wpe; [eapply page_insert_mapped; [exact I2|done|done|done|done|done|lia]|].
  intros r s3 Hr. pose proof Hup as (Hpn & Hpfl & Hpd & HpT).
  destruct Hr as [(-> & -> & HT & ->)|(-> & Hm)]; simpl; wp_steps; right; right; right;
    eexists e, en, d, p, _, s2; (split; [done|]); (split; [done|]); (split; [done|]);
    (split; [done|]); (split; [done|]).
  - split; [by apply Hz|]. left. split; [done|]. split; [done|]. split; [done|].
    do 6 (split; [done|]). intros C.
    assert (p ∈ []) as []%elem_of_nil by (by apply C).
  - split; [|by right]. intros a Ha. destruct Hm as (_ & _ & _ & B & _).
    rewrite (B p a); [by apply Hz| |done].
    split; [congruence|]. intros k. unfold EnvRep.ins_T, grow_T.
    destruct (T !! (d, PDX va)); [apply HpT|]. destruct fl' as [|t fl']; [apply HpT|].
    rewrite lookup_insert. case_decide; [|apply HpT]. set_solver.
Qed.

(** ** sys_page_map *)

(** The entry of a mapped user page. *)
Definition pte_of s T (d va : Z) : Z :=
  match T !! (d, PDX va) with Some t => word (mem s) t (PTX va) | None => 0 end.

(** No page is referred to often enough for its 16-bit count to wrap. *)
Definition few_refs ds T Mp : Prop := forall p, refs ds T Mp p + kx p + 1 < 2^16.

Lemma mapped_user_page s fl ds T Mp el k p :
  kinv s fl ds T Mp el -> Mp !! k = Some p -> user_page s fl ds T p /\ (p ∉ KP).
Proof.
  intros I Hk. pose proof (ki_pm _ _ _ _ _ _ _ _ _ I) as R. destruct k as [d v].
  pose proof (rep_Mdom _ _ _ _ _ _ R _ _ _ Hk) as (_ & Hp & Hds & HT).
  pose proof (rep_ex _ _ _ _ _ _ R p). pose proof (count_pos _ _ _ Hk) as Hpos.
  pose proof (count_nonneg T p).
  assert (0 < refs ds T Mp p) as Hr by (unfold refs; case_decide; lia).
  split; [split; [done|split; [|done]]|].
  - eapply refs_in_use; [exact R|lia].
  - intros HK. destruct (ki_own _ _ _ _ _ _ _ _ _ I p HK) as (_ & _ & ?). lia.
Qed.

(** A lookup that yields the page and its entry. *)
Lemma lookup_entry_ok s fl ds T Mp el d va :
  kinv s fl ds T Mp el -> d ∈ ds -> 0 <= va < UTOP ->
  wp (page_lookup (dir_kva d) va) (fun r s' => s' = s /\
    match Mp !! vkey d va with
    | None => r = None
    | Some p => exists pte, r = Some (p, pte) /\
        forall Q E, Q (pte_of s T d va) s -> wpe (kread32 pte) Q E s
    end) s.
Proof.
  intros I Hd Hva. eapply wp_mono; [eapply page_lookup_ok; [apply I|done|done]|].
  intros r s' [-> Hr]. split; [done|]. destruct (Mp !! vkey d va) as [p|]; [|done].
  destruct Hr as (t & Ht & ->). exists (pte_kva t va). split; [done|]. intros Q E HQ.
  pose proof (rep_Tdom _ _ _ _ _ _ (ki_pm _ _ _ _ _ _ _ _ _ I) _ _ _ Ht) as (_ & _ & ? & _).
  pose proof (PTX_range va). unfold pte_of in HQ. rewrite Ht in HQ.
  by apply wpe_kread32; [lia|lia|].
Qed.

Definition page_map_post s fl ds T Mp el sid srcva did dstva perm (r : Z) s' : Prop :=
  (r = - E_BAD_ENV /\ s' = s /\
     ((forall e, ~ target s sid true e) \/ (forall e, ~ target s did true e))) \/
  (r = - E_INVAL /\ s' = s /\ (bad_va srcva || bad_va dstva || bad_perm perm = true)) \/
  exists se sen sd de den dd, target_at s ds sid true se sen sd /\
    target_at s ds did true de den dd /\
    ((r = - E_INVAL /\ s' = s /\
        (Mp !! vkey sd srcva = None \/
         flag perm PTE_W = true /\ flag (pte_of s T sd srcva) PTE_W = false)) \/
     (r = - E_NO_MEM /\ s' = s /\ T !! (dd, PDX dstva) = None /\ fl = []) \/
     (r = 0 /\ exists p, Mp !! vkey sd srcva = Some p /\
        (flag perm PTE_W = true -> flag (pte_of s T sd srcva) PTE_W = true) /\
        mapped s fl ds T Mp el dd dstva p perm s')).

Lemma sys_page_map_ok s fl ds T Mp el sid srcva did dstva perm :
  kinv s fl ds T Mp el -> is_Some (cur_env s) -> few_refs ds T Mp ->
  0 <= srcva -> 0 <= dstva ->
  wp (sys_page_map sid srcva did dstva perm)
     (page_map_post s fl ds T Mp el sid srcva did dstva perm) s.
Proof.
  intros I Hc Hfew Hs0 Hd0. unfold wp, sys_page_map. wp_steps.
  eapply wp_wpe; [by eapply envid2env_target|].
  intros r s1 [-> [[-> Hn]|(se & sen & sd & -> & Hts)]]; simpl; wp_steps.
  { left. split; [done|]. split; [done|]. by left. }
  eapply wp_wpe; [by eapply envid2env_target|].
  intros r s1 [-> [[-> Hn]|(de & den & dd & -> & Htd)]]; simpl; wp_steps.
  { left. split; [done|]. split; [done|]. by right. }
  destruct (bad_va srcva || bad_va dstva) eqn:Hb.
  { wp_steps. right. left. by rewrite Hb. }
  destruct (bad_perm perm) eqn:Hbp.
  { wp_steps. right. left. by rewrite Hb, Hbp. }
  apply orb_false_iff in Hb as [[Hsv _]%bad_va_false [Hdv _]%bad_va_false].
  apply bad_perm_range in Hbp. pose proof Hts as (_ & Hse & _ & Hsd & Hsp).
  pose proof Htd as (_ & Hde & _ & Hdd & Hdp).
  wp_steps. eapply wpe_get_env; [done|]. rewrite Hsp. wp_steps.
  eapply wp_wpe; [by eapply lookup_entry_ok|]. intros l s1 [-> Hl].
  destruct (Mp !! vkey sd srcva) as [p|] eqn:HM.
  2:{ subst l. wp_steps. right. right. exists se, sen, sd, de, den, dd.
      do 2 (split; [done|]). left. do 2 (split; [done|]). by left. }
  destruct Hl as (pte & -> & Hrd). wp_steps. apply Hrd.
  destruct (mapped_user_page _ _ _ _ _ _ _ _ I HM) as [Hup HK].
  destruct (flag perm PTE_W && (Z.land (pte_of s T sd srcva) PTE_W =? 0)) eqn:Hw.
  { apply andb_true_iff in Hw as [Hw1 Hw2]. wp_steps. right. right.
    exists se, sen, sd, de, den, dd. do 2 (split; [done|]). left. do 2 (split; [done|]).
    right. split; [done|]. unfold flag. by rewrite Hw2. }
  wp_steps. eapply wpe_get_env; [done|]. rewrite Hdp. wp_steps.
  eapply wp_wpe; [eapply page_insert_mapped; [exact I|done|done|done|done|done|by apply Hfew]|].
  intros r s3 [(-> & -> & HT & Hf)|(-> & Hm)]; simpl; wp_steps; right; right;
    exists se, sen, sd, de, den, dd; (split; [done|]); (split; [done|]); right; [by left|right].
  split; [done|]. exists p. split; [done|]. split; [|done].
  intros Hpw. rewrite Hpw in Hw. simpl in Hw. unfold flag. by rewrite Hw.
Qed.
End calls.
