(* ===== verification/SyscallEnv.v ===== *)
(** * What the environment and IPC system calls do to the kernel state *)
From S2P Require Import Prelude Mem Mmu Kstate Pmap PmapRep PmapOps PmapUser.
From S2P Require Import Env EnvRep EnvOps EnvFree EnvSched Devices Syscall SyscallMem.

Section calls.
Context (KP : gset Z) (kx : Z -> Z) (kd : Z).
Implicit Types (s : kst) (fl el : list Z) (ds : gset Z) (T Mp : gmap (Z * Z) Z).
Local Notation kinv := (kinv KP kx kd).
Local Notation complete := (complete KP).

(** ** Calls that only change a field of one environment *)

Definition field_post s ds id (f : Env -> Env) (r : Z) s' : Prop :=
  (r = - E_BAD_ENV /\ s' = s /\ forall e, ~ target s id true e) \/
  (r = 0 /\ exists e en d, target_at s ds id true e en d /\
     s' = set_envs (<[e := f en]> (envs s)) s).

Definition status_of (status : Z) : env_stat :=
  if status =? ENV_RUNNABLE_val then ENV_RUNNABLE else ENV_NOT_RUNNABLE.

Lemma sys_env_set_status_ok s fl ds T Mp el id status :
  kinv s fl ds T Mp el -> is_Some (cur_env s) ->
  wp (sys_env_set_status id status) (fun r s' =>
    (r = - E_INVAL /\ s' = s /\ status <> ENV_RUNNABLE_val /\ status <> ENV_NOT_RUNNABLE_val) \/
    (field_post s ds id (set_env_status (status_of status)) r s' /\
     kinv s' fl ds T Mp el)) s.
Proof.
  intros I Hc. unfold wp, sys_env_set_status.
  destruct (Z.eqb_spec status ENV_RUNNABLE_val) as [H1|H1];
    destruct (Z.eqb_spec status ENV_NOT_RUNNABLE_val) as [H2|H2]; simpl.
  4:{ wp_steps. by left. }
  all: wp_steps; (eapply wp_wpe; [by eapply envid2env_target|]);
    intros r s1 [-> [[-> Hn]|(e & en & d & -> & Ht)]]; simpl; wp_steps;
    [right; split; [by left|done]|].
  all: pose proof Ht as (_ & He & Hl & _); (eapply wpe_upd_env; [done|]); wp_steps; right.
  all: (split; [right; split; [done|]; exists e, en, d; split; [done|]|]).
  all: unfold status_of; try (by rewrite H1 || by rewrite H2).
  all: try (destruct (Z.eqb_spec status ENV_RUNNABLE_val); done).
  all: eapply kinv_upd_env; [done|done|]; (split; [|done]); unfold live in *; simpl; naive_solver.
Qed.

Lemma sys_env_set_pgfault_upcall_ok s fl ds T Mp el id func :
  kinv s fl ds T Mp el -> is_Some (cur_env s) ->
  wp (sys_env_set_pgfault_upcall id func) (fun r s' =>
    field_post s ds id (set_env_pgfault_upcall func) r s' /\ kinv s' fl ds T Mp el) s.
Proof.
  intros I Hc. unfold wp, sys_env_set_pgfault_upcall. wp_steps.
  eapply wp_wpe; [by eapply envid2env_target|].
  intros r s1 [-> [[-> Hn]|(e & en & d & -> & Ht)]]; simpl; wp_steps.
  { split; [by left|done]. }
  pose proof Ht as (_ & He & Hl & _). eapply wpe_upd_env; [done|]. wp_steps.
  split; [right; split; [done|]; by exists e, en, d|]. by eapply kinv_upd_env.
Qed.

(** ** sys_exofork *)

(** The child: a copy of the parent's registers that sees 0 returned. *)
Definition fork_env (en : Env) (e parent_id pgdir : Z) (tf : Trapframe) : Env :=
  set_env_tf (set_tf_regs (set_reg_eax 0 (tf_regs tf)) tf)
    (set_env_status ENV_NOT_RUNNABLE (new_env en e parent_id pgdir)).

Lemma complete_add_dir s s' fl ds T Mp p :
  complete s (p :: fl) ds T Mp -> refs ds T Mp p = 0 -> npages s' = npages s ->
  complete s' fl ({[p]} ∪ ds) T Mp.
Proof.
  intros C H0 Hn q Hq HK Hq0. rewrite Hn in Hq.
  apply refs_zero in H0 as (Hpd & _). rewrite refs_add_dir in Hq0 by done.
  pose proof (refs_nonneg ds T Mp q). destruct (decide (q = p)); [lia|].
  assert (q ∈ p :: fl) as [|]%elem_of_cons; [apply C; [done|done|lia]|done|done].
Qed.

Definition exofork_post s fl ds T Mp el (r : Z) s' : Prop :=
  (r = - E_NO_FREE_ENV /\ s' = s /\ el = []) \/
  (r = - E_NO_MEM /\ s' = s /\ fl = []) \/
  exists c cen e el' p fl' en,
    cur_env s = Some c /\ envs s !! c = Some cen /\ el = e :: el' /\ fl = p :: fl' /\
    envs s !! e = Some en /\ (p ∉ ds) /\ kinv s' fl' ({[p]} ∪ ds) T Mp el' /\
    (complete s fl ds T Mp -> complete s' fl' ({[p]} ∪ ds) T Mp) /\
    envs s' = <[e := fork_env en e (env_id cen) (dir_kva p) (env_tf cen)]> (envs s) /\
    cur_env s' = Some c /\ same_bytes (fun q => q <> p) s s' /\
    r = next_env_id (env_id en) e /\ cr3 s' = cr3 s.

Lemma sys_exofork_ok s fl ds T Mp el :
  kinv s fl ds T Mp el -> is_Some (cur_env s) ->
  wp sys_exofork (exofork_post s fl ds T Mp el) s.
Proof.
  intros I [c Hc]. unfold wp, sys_exofork, curenv. wp_steps. rewrite Hc. wp_steps.
  pose proof (ki_env _ _ _ _ _ _ _ _ _ I) as W.
  destruct (ew_cur _ _ W c Hc) as (cen & Hcen & Hcl).
  eapply wpe_get_env; [done|]. wp_steps. eapply wp_wpe; [by eapply env_alloc_ok|].
  intros r s1 [(-> & -> & ->)|[(-> & -> & ->)|(e & el' & p & fl' & en & -> & -> & -> & He & I1 & Hp & Es & Ec & B & En & Ek & Ecr)]];
    simpl; wp_steps; [by left|right; by left|].
  assert (c <> e) as Hce.
  { intros ->. assert (e ∈ e :: el') as Hin by (by left).
    by apply (ew_free _ _ W _ _ Hcen) in Hin. }
  eapply wpe_upd_env; [rewrite Es; apply lookup_insert_eq|]. rewrite Es, insert_insert_eq. wp_steps.
  eapply wpe_get_env; [simpl; by rewrite lookup_insert_ne|]. wp_steps.
  do 2 (eapply wpe_upd_env; [apply lookup_insert_eq|]; simpl envs; rewrite insert_insert_eq; wp_steps).
  eapply wpe_get_env; [apply lookup_insert_eq|]. wp_steps. right. right.
  exists c, cen, e, el', p, fl', en. do 6 (split; [done|]).
  assert (envs s1 !! e = Some (new_env en e (env_id cen) (dir_kva p))) as He1
    by (rewrite Es; apply lookup_insert_eq).
  split.
  { match goal with |- EnvRep.kinv _ _ _ ?x _ _ _ _ _ =>
      assert (x = set_envs (<[e := fork_env en e (env_id cen) (dir_kva p) (env_tf cen)]> (envs s1)) s1)
        as -> by (rewrite Es, insert_insert_eq; done) end.
    eapply kinv_upd_env; [exact I1|exact He1|].
    split; [|done]. unfold live. simpl. naive_solver. }
  split; [|split; [done|split; [simpl; by rewrite Ec|done]]].
  intros C. eapply complete_add_dir; [done| |].
  - pose proof (rep_free _ _ _ _ _ _ (ki_pm _ _ _ _ _ _ _ _ _ I) p ltac:(by left)).
    pose proof (rep_ex _ _ _ _ _ _ (ki_pm _ _ _ _ _ _ _ _ _ I) p).
    pose proof (refs_nonneg ds T Mp p). lia.
  - exact En.
Qed.

(** ** sys_ipc_try_send *)

Local Notation mapped := (mapped KP kx kd).

(** The receiver once the message has arrived. *)
Definition delivered (from value : Z) (en : Env) : Env :=
  set_env_tf (set_tf_regs (set_reg_eax 0 (tf_regs (env_tf en))) (env_tf en))
    (set_env_status ENV_RUNNABLE (set_env_ipc_value value
      (set_env_ipc_recving false (set_env_ipc_from from en)))).

(** Reasons to refuse the page. *)
Definition send_inval s T Mp sd (srcva perm : Z) : Prop :=
  srcva < UTOP /\
  (PGOFF srcva <> 0 \/ flag perm PTE_P = false \/ flag perm PTE_U = false \/
   flag perm (Z.lnot PTE_SYSCALL) = true \/ Mp !! vkey sd srcva = None \/
   (flag perm PTE_W = true /\ flag (pte_of s T sd srcva) PTE_W = false)).

(** A page is sent and the receiver wants one. *)
Definition page_sent (srcva : Z) (den : Env) : Prop :=
  srcva < UTOP /\ env_ipc_dstva den <> 0.

#[export] Instance page_sent_dec srcva den : Decision (page_sent srcva den).
Proof. unfold page_sent. apply _. Defined.

Definition send_ok s fl ds T Mp el sd dst den dd from value srcva perm s' : Prop :=
  if decide (page_sent srcva den) then
    exists p s1, Mp !! vkey sd srcva = Some p /\
      (flag perm PTE_W = true -> flag (pte_of s T sd srcva) PTE_W = true) /\
      mapped s fl ds T Mp el dd (env_ipc_dstva den) p perm s1 /\
      s' = set_envs (<[dst := delivered from value (set_env_ipc_perm perm den)]> (envs s)) s1
  else s' = set_envs (<[dst := delivered from value den]> (envs s)) s.

Definition send_post s fl ds T Mp el cen sd id value srcva perm (r : Z) s' : Prop :=
  (r = - E_BAD_ENV /\ s' = s /\ forall e, ~ target s id false e) \/
  exists dst den dd, target_at s ds id false dst den dd /\
    ((r = - E_IPC_NOT_RECV /\ s' = s /\
        (env_ipc_recving den = false \/ env_ipc_from den <> 0)) \/
     (r = - E_INVAL /\ s' = s /\ send_inval s T Mp sd srcva perm) \/
     (r = - E_NO_MEM /\ s' = s /\ T !! (dd, PDX (env_ipc_dstva den)) = None /\ fl = []) \/
     (r = 0 /\ env_ipc_recving den = true /\ env_ipc_from den = 0 /\
      send_ok s fl ds T Mp el sd dst den dd (env_id cen) value srcva perm s')).

(** The last part of the call. *)
Lemma deliver_ok s c cen dst den value :
  cur_env s = Some c -> envs s !! c = Some cen -> envs s !! dst = Some den ->
  wp (let! c := curenv in
      let! cen := get_env c in
      upd_env dst (set_env_ipc_from (env_id cen)) ;;;
      upd_env dst (set_env_ipc_recving false) ;;;
      upd_env dst (set_env_ipc_value value) ;;;
      upd_env dst (set_env_status ENV_RUNNABLE) ;;;
      upd_env dst (fun en => set_env_tf
        (set_tf_regs (set_reg_eax 0 (tf_regs (env_tf en))) (env_tf en)) en) ;;;
      ret 0)
     (fun r s' => r = 0 /\
        s' = set_envs (<[dst := delivered (env_id cen) value den]> (envs s)) s) s.
Proof.
  intros Hc Hcen Hd. unfold wp, curenv. wp_steps. rewrite Hc. wp_steps.
  eapply wpe_get_env; [done|]. wp_steps. eapply wpe_upd_env; [done|]. wp_steps.
  do 4 (eapply wpe_upd_env; [apply lookup_insert_eq|]; simpl envs; rewrite insert_insert_eq; wp_steps).
  done.
Qed.

(** The part that transfers the page. *)
Lemma transfer_ok s fl ds T Mp el c cen sd dst den dd srcva perm :
  kinv s fl ds T Mp el -> cur_env s = Some c -> envs s !! c = Some cen ->
  sd ∈ ds -> env_pgdir cen = dir_kva sd -> envs s !! dst = Some den ->
  dd ∈ ds -> env_pgdir den = dir_kva dd -> few_refs kx ds T Mp ->
  0 <= srcva < UTOP -> 0 <= env_ipc_dstva den < UTOP ->
  wp (if negb (PGOFF srcva =? 0) then ret (Some (- E_INVAL))
      else if negb (flag perm PTE_P) || negb (flag perm PTE_U)
      then ret (Some (- E_INVAL))
      else if flag perm (Z.lnot PTE_SYSCALL) then ret (Some (- E_INVAL))
      else
        let! c := curenv in
        let! cen := get_env c in
        let! l := page_lookup (env_pgdir cen) srcva in
        match l with
        | None => ret (Some (- E_INVAL))
        | Some (pp, pte) =>
            let! e := kread32 pte in
            if flag perm PTE_W && negb (flag e PTE_W) then ret (Some (- E_INVAL))
            else if negb (env_ipc_dstva den =? 0) then
              let! i := page_insert (env_pgdir den) pp (env_ipc_dstva den) perm in
              if i <? 0 then ret (Some i)
              else upd_env dst (set_env_ipc_perm perm) ;;; ret None
            else ret None
        end)
     (fun r s' =>
        (r = Some (- E_INVAL) /\ s' = s /\ send_inval s T Mp sd srcva perm) \/
        (r = Some (- E_NO_MEM) /\ s' = s /\ T !! (dd, PDX (env_ipc_dstva den)) = None /\ fl = []) \/
        (r = None /\ env_ipc_dstva den = 0 /\ s' = s) \/
        (r = None /\ env_ipc_dstva den <> 0 /\ exists p s1, Mp !! vkey sd srcva = Some p /\
           (flag perm PTE_W = true -> flag (pte_of s T sd srcva) PTE_W = true) /\
           mapped s fl ds T Mp el dd (env_ipc_dstva den) p perm s1 /\
           s' = set_envs (<[dst := set_env_ipc_perm perm den]> (envs s)) s1)) s.
Proof.
  intros I Hc Hcen Hsd Hsp Hden Hdd Hdp Hfew Hsv Hdv. unfold wp.
  assert (forall Q : Prop, Q -> srcva < UTOP /\ Q) as Hlt by (intros; split; [lia|done]).
  destruct (Z.eqb_spec (PGOFF srcva) 0) as [Ho|Ho]; simpl.
  2:{ wp_steps. left. do 2 (split; [done|]). apply Hlt. by left. }
  destruct (flag perm PTE_P) eqn:Hp; simpl.
  2:{ wp_steps. left. do 2 (split; [done|]). apply Hlt. right. by left. }
  destruct (flag perm PTE_U) eqn:Hu; simpl.
  2:{ wp_steps. left. do 2 (split; [done|]). apply Hlt. right. right. by left. }
  destruct (flag perm (Z.lnot PTE_SYSCALL)) eqn:Hs.
  { wp_steps. left. do 2 (split; [done|]). apply Hlt. do 3 right. by left. }
  apply perm_range in Hs. unfold curenv. wp_steps. rewrite Hc. wp_steps.
  eapply wpe_get_env; [done|]. rewrite Hsp. wp_steps.
  eapply wp_wpe; [by eapply lookup_entry_ok|]. intros l s1 [-> Hl].
  destruct (Mp !! vkey sd srcva) as [p|] eqn:HM.
  2:{ subst l. wp_steps. left. do 2 (split; [done|]). apply Hlt. do 4 right. by left. }
  destruct Hl as (pte & -> & Hrd). wp_steps. apply Hrd.
  destruct (mapped_user_page _ _ _ _ _ _ _ _ _ _ _ I HM) as [Hup HK].
  destruct (flag perm PTE_W && negb (flag (pte_of s T sd srcva) PTE_W)) eqn:Hw.
  { apply andb_true_iff in Hw as [Hw1 Hw2%negb_true_iff]. wp_steps. left.
    do 2 (split; [done|]). apply Hlt. do 5 right. done. }
  destruct (Z.eqb_spec (env_ipc_dstva den) 0) as [Hz|Hz]; simpl.
  { wp_steps. right. right. by left. }
  rewrite Hdp. wp_steps.
  eapply wp_wpe; [eapply page_insert_mapped; [exact I|done|done|done|done|done|by apply Hfew]|].
  intros r s3 [(-> & -> & HT & Hf)|(-> & Hm)]; simpl; wp_steps; [right; by left|].
  pose proof Hm as (F & _). eapply wpe_upd_env; [by rewrite (pm_frame_envs _ _ F)|]. wp_steps.
  do 3 right. do 2 (split; [done|]). exists p, s3. split; [done|]. split; [|split; [done|]].
  - intros Hpw. rewrite Hpw in Hw. simpl in Hw. by apply negb_false_iff.
  - by rewrite (pm_frame_envs _ _ F).
Qed.

Lemma sys_ipc_try_send_ok s fl ds T Mp el c cen sd id value srcva perm :
  kinv s fl ds T Mp el -> cur_env s = Some c -> envs s !! c = Some cen ->
  sd ∈ ds -> env_pgdir cen = dir_kva sd -> 0 <= srcva -> (srcva < UTOP -> few_refs kx ds T Mp) ->
  (forall e en, srcva < UTOP -> target s id false e -> envs s !! e = Some en ->
     env_ipc_recving en = true -> 0 <= env_ipc_dstva en < UTOP) ->
  wp (sys_ipc_try_send id value srcva perm)
     (send_post s fl ds T Mp el cen sd id value srcva perm) s.
Proof.
  intros I Hc Hcen Hsd Hsp Hsv Hfew Hdva. unfold wp, sys_ipc_try_send. wp_steps.
  eapply wp_wpe; [eapply envid2env_target; [exact I|by rewrite Hc]|].
  intros r s1 [-> [[-> Hn]|(dst & den & dd & -> & Ht)]]; simpl; wp_steps; [by left|].
  pose proof Ht as (Htg & Hden & _ & Hdd & Hdp).
  eapply wpe_get_env; [done|].
  destruct (env_ipc_recving den) eqn:Hrv; simpl.
  2:{ wp_steps. right. exists dst, den, dd. split; [done|]. left. do 2 (split; [done|]). by left. }
  destruct (Z.eqb_spec (env_ipc_from den) 0) as [Hf|Hf]; simpl.
  2:{ wp_steps. right. exists dst, den, dd. split; [done|]. left. do 2 (split; [done|]). by right. }
  wp_steps. destruct (Z.ltb_spec srcva UTOP) as [Hlt|Hge].
  - specialize (Hdva dst den Hlt Htg Hden Hrv). specialize (Hfew Hlt). eapply wp_wpe; [eapply transfer_ok; [exact I|exact Hc|exact Hcen|exact Hsd|exact Hsp|exact Hden
      |exact Hdd|exact Hdp|exact Hfew|lia|lia]|].
    intros r s1 [(-> & -> & Hi)|[(-> & -> & Hm)|[(-> & Hz & ->)|(-> & Hz & p & s2 & HM & Hw & Hmp & ->)]]].
    + wp_steps. right. exists dst, den, dd. split; [done|]. right. by left.
    + wp_steps. right. exists dst, den, dd. split; [done|]. right. right. by left.
    + eapply wp_wpe; [eapply deliver_ok; [exact Hc|exact Hcen|exact Hden]|]. intros r s' [-> ->]. right. exists dst, den, dd.
      split; [done|]. do 3 right. do 3 (split; [done|]). unfold send_ok, page_sent.
      by rewrite decide_False by lia.
    + pose proof Hmp as (F & _).
      assert (exists cen', envs (set_envs (<[dst:=set_env_ipc_perm perm den]> (envs s)) s2) !! c
        = Some cen' /\ env_id cen' = env_id cen) as (cen' & Hcen' & Hid).
      { simpl. rewrite lookup_insert. case_decide; [|by exists cen]. subst. simplify_eq.
        by eexists. }
      eapply wp_wpe; [eapply deliver_ok; [|exact Hcen'|apply lookup_insert_eq]|].
      { simpl. by rewrite (pm_frame_cur _ _ F). }
      intros r s' [-> ->]. right. exists dst, den, dd.
      split; [done|]. do 3 right. do 3 (split; [done|]). unfold send_ok, page_sent.
      rewrite decide_True by done. exists p, s2. do 3 (split; [done|]).
      simpl envs. rewrite insert_insert_eq, Hid. done.
  - apply wpe_ret. eapply wp_wpe; [eapply deliver_ok; [exact Hc|exact Hcen|exact Hden]|]. intros r s' [-> ->]. right.
    exists dst, den, dd. split; [done|]. do 3 right. do 3 (split; [done|]).
    unfold send_ok, page_sent. by rewrite decide_False by lia.
Qed.

(** ** sys_ipc_recv *)

Definition receiving (dstva : Z) (en : Env) : Env :=
  set_env_ipc_from 0 (set_env_ipc_recving true
    (set_env_status ENV_NOT_RUNNABLE (set_env_ipc_dstva dstva en))).

(** The state in which the caller blocks. *)
Definition blocked s c (cen : Env) dstva : kst :=
  set_envs (<[c := receiving dstva cen]> (envs s)) s.

Lemma sys_ipc_recv_ok s fl ds T Mp el c cen dstva :
  kinv s fl ds T Mp el -> cur_env s = Some c -> envs s !! c = Some cen -> kernel_lock s = true ->
  wpe (sys_ipc_recv dstva)
    (fun r s' => r = - E_INVAL /\ s' = s /\ dstva < UTOP /\ PGOFF dstva <> 0)
    (fun s' => kinv (blocked s c cen dstva) fl ds T Mp el /\
       sched_post KP kx kd (blocked s c cen dstva) fl ds T Mp el s') s.
Proof.
  intros I Hc Hcen Hk. unfold sys_ipc_recv.
  destruct (Z.ltb_spec dstva UTOP) as [Hlt|Hge];
    [destruct (Z.eqb_spec (PGOFF dstva) 0) as [Ho|Ho]|]; simpl; [|by wp_steps|].
  all: unfold curenv; wp_steps; rewrite Hc; wp_steps; (eapply wpe_upd_env; [done|]); wp_steps.
  all: do 3 (eapply wpe_upd_env; [apply lookup_insert_eq|]; simpl envs; rewrite insert_insert_eq; wp_steps).
  all: assert (kinv (blocked s c cen dstva) fl ds T Mp el) as I'
    by (eapply kinv_upd_env; [done|done|]; split; [|done]; unfold live; simpl; split; [intros _|done];
        destruct (ew_cur _ _ (ki_env _ _ _ _ _ _ _ _ _ I) c Hc) as (x & Hx & Hl); by simplify_eq).
  all: eapply wpe_mono; [eapply (sched_yield_ok _ _ _ (fun _ _ => False)); [exact I'|done]|done|].
  all: intros s' S; done.
Qed.
End calls.
