(* ===== verification/KernelExample.v ===== *)
(** * A concrete kernel state that satisfies the invariant

    Eight pages: 0 and 1 belong to the kernel (1 is its page directory), 2 and
    3 are the directories of two environments, 4 is a page table of the first
    one, 5 is mapped by it at 0x800000, and 6 and 7 are free.  Environment 0
    runs; environment 1, its child, waits in sys_ipc_recv for a page at
    0x900000. *)
From S2P Require Import Prelude Mem Mmu Kstate Pmap PmapRep PmapOps PmapUser.
From S2P Require Import Env EnvRep EnvFree.

Definition w_KP : gset Z := {[0; 1]}.
Definition w_kx : Z -> Z := fun _ => 0.
Definition w_ds : gset Z := {[2; 3]}.
Definition w_T : gmap (Z * Z) Z := {[(2, 2) := 4]}.
Definition w_M : gmap (Z * Z) Z := {[(2, 2048) := 5]}.

Definition w_mem : gmap Z Z :=
  write32 (write32 (write32 (write32 ∅
    (2 * 4096 + 4 * 2) (4 * 4096 + 7))
    (4 * 4096 + 4 * 0) (5 * 4096 + 7))
    (2 * 4096 + 4 * 957) (2 * 4096 + 5))
    (3 * 4096 + 4 * 957) (3 * 4096 + 5).

Definition w_pages : gmap Z PageInfo :=
  list_to_map [(0, mkPage None 0); (1, mkPage None 0); (2, mkPage None 1);
    (3, mkPage None 1); (4, mkPage None 1); (5, mkPage None 1);
    (6, mkPage (Some 7) 0); (7, mkPage None 0)].

Definition w_env0 : Env :=
  mkEnv zero_tf None 4096 0 ENV_TYPE_USER ENV_RUNNING 1 0 (dir_kva 2) 0 false 0 0 0 0.
Definition w_env1 : Env :=
  mkEnv zero_tf None 4097 4096 ENV_TYPE_USER ENV_NOT_RUNNABLE 1 0 (dir_kva 3) 0
        true 0x900000 0 0 0.

(** Slot [i] of the free environments, which are linked in order. *)
Definition w_free (i : Z) : Env :=
  set_env_link (if i =? 1023 then None else Some (i + 1)) zero_env.

Definition w_slot (i : Z) : Env :=
  if i =? 0 then w_env0 else if i =? 1 then w_env1 else w_free i.

Definition w_envs : gmap Z Env := list_to_map ((fun i => (i, w_slot i)) <$> seqZ 0 1024).

Definition w_st : kst :=
  mkK w_mem 8 0 w_pages (Some 6) (dir_kva 1) 0 0 0 w_envs (Some 2) (Some 0) 0 CPU_STARTED
      true (2 * 4096) [] 0 (mkCons ∅ 0 0) (mkNic 0 ∅ ∅ 0 0 ∅ ∅).

Lemma list_to_map_fmap_lookup {A} (f : Z -> A) n i :
  (list_to_map ((fun i => (i, f i)) <$> seqZ 0 n) : gmap Z A) !! i =
    if decide (0 <= i < n) then Some (f i) else None.
Proof.
  case_decide as Hi.
  - apply elem_of_list_to_map_1.
    + rewrite <- list_fmap_compose, (list_fmap_ext _ id) by done.
      rewrite list_fmap_id. apply NoDup_seqZ.
    + apply list_elem_of_fmap. exists i. split; [done|]. apply elem_of_seqZ. lia.
  - apply not_elem_of_list_to_map_1. rewrite <- list_fmap_compose, (list_fmap_ext _ id) by done.
    rewrite list_fmap_id, elem_of_seqZ. lia.
Qed.

Lemma w_envs_lookup i :
  w_envs !! i = if decide (0 <= i < 1024) then Some (w_slot i) else None.
Proof. apply list_to_map_fmap_lookup. Qed.

Lemma w_pages_lookup p :
  w_pages !! p =
    if decide (0 <= p < 8) then
      Some (mkPage (if decide (p = 6) then Some 7 else None)
                   (if decide (2 <= p <= 5) then 1 else 0))
    else None.
Proof.
  case_decide as H.
  - assert (p = 0 \/ p = 1 \/ p = 2 \/ p = 3 \/ p = 4 \/ p = 5 \/ p = 6 \/ p = 7) as Hc by lia.
    by destruct Hc as [->|[->|[->|[->|[->|[->|[->| ->]]]]]]].
  - unfold w_pages. simpl. rewrite !lookup_insert_ne by lia. apply lookup_empty.
Qed.

Lemma w_word p i :
  0 <= i < 1024 ->
  word w_mem p i =
    if decide ((p, i) = (3, 957)) then 3 * 4096 + 5
    else if decide ((p, i) = (2, 957)) then 2 * 4096 + 5
    else if decide ((p, i) = (4, 0)) then 5 * 4096 + 7
    else if decide ((p, i) = (2, 2)) then 4 * 4096 + 7 else 0.
Proof.
  intros Hi. unfold w_mem.
  repeat (case_decide as E; [injection E as -> ->; by rewrite word_write_eq
                            |rewrite word_write_ne by (lia || congruence); clear E]).
  reflexivity.
Qed.

#[global] Opaque w_mem w_pages w_envs.

Lemma w_ds_elem p : p ∈ w_ds <-> p = 2 \/ p = 3.
Proof. unfold w_ds. rewrite elem_of_union, !elem_of_singleton. done. Qed.

Lemma w_KP_elem p : p ∈ w_KP <-> p = 0 \/ p = 1.
Proof. unfold w_KP. rewrite elem_of_union, !elem_of_singleton. done. Qed.

#[global] Opaque w_ds w_KP.

Lemma w_refs p : refs w_ds w_T w_M p = if decide (2 <= p <= 5) then 1 else 0.
Proof.
  unfold refs, w_M, w_T, count. rewrite !map_filter_singleton. simpl.
  destruct (decide (5 = p)) as [<-|]; [done|]. destruct (decide (4 = p)) as [<-|]; [done|].
  rewrite map_size_empty. case_decide as Hp; rewrite w_ds_elem in Hp.
  - by rewrite decide_True by lia.
  - by rewrite decide_False by lia.
Qed.

Lemma w_rep : pm_rep w_st [6; 7] w_ds w_T w_M w_kx.
Proof.
  constructor; unfold w_kx; simpl pages; simpl npages; simpl mem; simpl page_free_list.
  - lia.
  - intros p. rewrite w_pages_lookup. case_decide; split; naive_solver.
  - do 2 (econstructor; [rewrite w_pages_lookup; reflexivity|]). constructor.
  - repeat constructor; set_solver.
  - intros p pi. rewrite w_pages_lookup. case_decide; [|done]. intros [= <-] Hn. simpl.
    rewrite decide_False; [done|]. intros ->. apply Hn. by left.
  - intros p pi. rewrite w_pages_lookup, w_refs. case_decide; [|done]. intros [= <-]. simpl.
    case_decide; lia.
  - lia.
  - intros p Hp. rewrite w_refs. rewrite !elem_of_cons, elem_of_nil in Hp.
    rewrite decide_False by lia. done.
  - intros d Hd%w_ds_elem. lia.
  - intros d i Hd Hi. rewrite UPDX_val in Hi. rewrite w_word by lia. unfold w_T.
    rewrite lookup_singleton. apply w_ds_elem in Hd.
    repeat case_decide; simplify_eq; try lia; done.
  - intros d i t Ht. unfold w_T in Ht. apply lookup_singleton_Some in Ht as [[= <- <-] <-].
    rewrite UPDX_val, !w_ds_elem. lia.
  - intros k1 k2 t Ht1 Ht2. unfold w_T in *.
    apply lookup_singleton_Some in Ht1 as [<- _]. by apply lookup_singleton_Some in Ht2 as [<- _].
  - intros d i t j Ht Hj. unfold w_T in Ht. apply lookup_singleton_Some in Ht as [[= <- <-] <-].
    rewrite w_word by lia. unfold w_M. rewrite lookup_singleton.
    repeat case_decide; simplify_eq; try lia; try done.
    destruct (decide (j = 0)) as [->|]; [done|]. exfalso. naive_solver lia.
  - intros d v p Hp. unfold w_M in Hp. apply lookup_singleton_Some in Hp as [[= <- <-] <-].
    split; [done|]. split; [lia|]. split; [rewrite w_ds_elem; lia|].
    intros k Hk. unfold w_T in Hk. by apply lookup_singleton_Some in Hk as [_ ?].
  - intros d i t Ht. unfold w_T in Ht. apply lookup_singleton_Some in Ht as [[= <- <-] <-].
    rewrite w_word by lia. done.
Qed.

Definition w_el : list Z := seqZ 2 1022.

Lemma w_chain n i :
  i + Z.of_nat n = 1024 -> 2 <= i ->
  chain env_link w_envs (if i =? 1024 then None else Some i) (seqZ i (Z.of_nat n)).
Proof.
  revert i. induction n as [|n IH]; intros i Hi H2.
  { assert (i = 1024) as -> by lia. constructor. }
  rewrite seqZ_cons by lia. destruct (Z.eqb_spec i 1024); [lia|].
  econstructor.
  - rewrite w_envs_lookup, decide_True by lia. done.
  - unfold w_slot. destruct (Z.eqb_spec i 0); [lia|]. destruct (Z.eqb_spec i 1); [lia|].
    replace (Z.pred (Z.of_nat (S n))) with (Z.of_nat n) by lia.
    replace (Z.succ i) with (i + 1) by lia.
    specialize (IH (i + 1) ltac:(lia) ltac:(lia)). unfold w_free. simpl.
    destruct (Z.eqb_spec i 1023), (Z.eqb_spec (i + 1) 1024); try lia; done.
Qed.

Lemma w_live i : live (w_slot i) <-> i = 0 \/ i = 1.
Proof.
  unfold w_slot, live. destruct (Z.eqb_spec i 0); [naive_solver|].
  destruct (Z.eqb_spec i 1); [naive_solver|]. simpl. split; [done|lia].
Qed.

Lemma w_wf : env_wf w_st w_el.
Proof.
  constructor; simpl envs; simpl env_free_list; simpl cur_env.
  - intros e. rewrite w_envs_lookup. unfold NENV. case_decide; split; naive_solver.
  - apply (w_chain 1022 2); lia.
  - apply NoDup_seqZ.
  - intros e en. rewrite w_envs_lookup. case_decide; [|done]. intros [= <-].
    unfold w_el. rewrite elem_of_seqZ, w_live. lia.
  - intros e en. rewrite w_envs_lookup. case_decide; [|done]. intros [= <-].
    unfold w_slot. destruct (Z.eqb_spec e 0) as [->|]; [simpl; repeat split; try lia; by right|].
    destruct (Z.eqb_spec e 1) as [->|]; [simpl; repeat split; try lia; by right|].
    simpl. split; [lia|]. split; [by left|]. done.
  - intros c [= <-]. exists w_env0. rewrite w_envs_lookup. split; [done|]. done.
Qed.

Lemma w_vm : env_vm w_st w_ds.
Proof.
  assert (forall e en, w_envs !! e = Some en -> live en ->
    (e = 0 /\ en = w_env0) \/ (e = 1 /\ en = w_env1)) as Hl.
  { intros e en. rewrite w_envs_lookup. case_decide; [|done].
    intros [= <-] [->| ->]%w_live; [by left|by right]. }
  constructor; simpl envs.
  - intros e en He Hlv. destruct (Hl e en He Hlv) as [[-> ->]|[-> ->]];
      [exists 2|exists 3]; rewrite w_ds_elem; (split; [lia|done]).
  - intros d [->| ->]%w_ds_elem; [exists 0, w_env0|exists 1, w_env1];
      rewrite w_envs_lookup; repeat split; done.
  - intros e1 e2 en1 en2 H1 H2 L1 L2 E.
    destruct (Hl _ _ H1 L1) as [[-> ->]|[-> ->]], (Hl _ _ H2 L2) as [[-> ->]|[-> ->]]; done.
Qed.

Lemma w_kinv : kinv w_KP w_kx 1 w_st [6; 7] w_ds w_T w_M w_el.
Proof.
  constructor; [apply w_rep|done| | |done| | | |apply w_wf|apply w_vm].
  - intros p Hp%w_KP_elem. rewrite w_refs. rewrite !elem_of_cons, elem_of_nil.
    simpl npages. rewrite decide_False by lia. lia.
  - rewrite w_KP_elem. lia.
  - intros i Hi. rewrite UPDX_val in Hi. simpl mem. rewrite w_word by lia.
    repeat case_decide; simplify_eq; done.
  - intros i Hi. rewrite UPDX_val in Hi. simpl mem. rewrite w_word by lia.
    repeat case_decide; simplify_eq; done.
  - intros d i Hd%w_ds_elem Hi. rewrite UPDX_val in Hi. simpl mem. rewrite !w_word by lia.
    change (PDX UVPT) with 957.
    repeat case_decide; simplify_eq; try lia; try done; exfalso; naive_solver lia.
Qed.

Lemma w_complete : complete w_KP w_st [6; 7] w_ds w_T w_M.
Proof.
  intros p Hp HK Hr. rewrite w_KP_elem in HK. rewrite w_refs in Hr. simpl npages in Hp.
  rewrite !elem_of_cons, elem_of_nil. case_decide; [lia|]. lia.
Qed.

Lemma w_few : forall p, refs w_ds w_T w_M p + w_kx p + 1 < 2^16.
Proof. intros p. rewrite w_refs. unfold w_kx. case_decide; lia. Qed.
