(* ===== verification/KernelThms.v ===== *)
(** * The contracts of env.c, sched.c and syscall.c

    Theorems about whole operations, from any state that satisfies the kernel
    invariant, each applied to the concrete state of KernelExample.v. *)
From S2P Require Import Prelude Mem Mmu Kstate Pmap PmapRep PmapOps PmapUser.
From S2P Require Import Env EnvRep EnvOps EnvFree EnvSched Devices Syscall SyscallMem SyscallEnv KernelExample.

Section contracts.
Context (KP : gset Z) (kx : Z -> Z) (kd : Z).
Implicit Types (s : kst) (fl el : list Z) (ds : gset Z) (T Mp : gmap (Z * Z) Z).

(** ** Environments *)

(** env_alloc takes the head of the free list of environments and fails
    with the documented codes and no effect when there is no slot or no page.
    The new environment is runnable, has an empty user address space and the
    kernel's mappings above UTOP; no other environment, mapping or byte of
    another page changes, and the kernel invariant holds again. *)
Theorem env_alloc_spec s fl ds T Mp el parent_id :
  kinv KP kx kd s fl ds T Mp el ->
  wp (env_alloc parent_id) (alloc_env_post KP kx kd s fl ds T Mp el parent_id) s.
Proof. apply env_alloc_ok. Qed.

(** Identifiers are unique: the one env_alloc gives is positive, names its
    slot, differs from the slot's previous one and from the identifier of
    every environment that is alive. *)
Theorem env_id_fresh s el e en :
  env_wf s el -> envs s !! e = Some en ->
  0 < next_env_id (env_id en) e < 2^31 /\ ENVX (next_env_id (env_id en) e) = e /\
  next_env_id (env_id en) e <> env_id en /\
  forall e' en', envs s !! e' = Some en' -> live en' ->
    env_id en' <> next_env_id (env_id en) e.
Proof.
  intros W He. destruct (ew_id _ _ W e en He) as (Hid & _).
  assert (0 <= e < NENV) as Hen by (apply (ew_dom _ _ W); eauto).
  destruct (next_env_id_ok (env_id en) e Hid Hen) as (H1 & H2 & H3).
  split; [done|]. split; [done|]. split; [done|]. intros e' en' He' Hl E.
  pose proof (live_id_slot _ _ _ _ W He' Hl) as Hx. rewrite E, H2 in Hx. subst. congruence.
Qed.

(** C23: env_free returns everything: afterwards no mapping and no page table
    of the environment is left, those of all others are untouched, every page
    whose last reference was dropped is in the free list (none is lost), the
    directory is free, and the slot is at the head of the free list. *)
Theorem env_free_spec s fl ds T Mp el e en d :
  kinv KP kx kd s fl ds T Mp el -> complete KP s fl ds T Mp ->
  envs s !! e = Some en -> live en -> d ∈ ds -> env_pgdir en = dir_kva d ->
  wp (env_free e) (fun _ s' => free_env_post KP kx kd s ds T Mp el e en d s') s.
Proof. apply env_free_ok. Qed.

(** Envid2env is exact: 0 names the caller; another identifier is accepted
    iff a live environment has it and, when permission is checked, that
    environment is the caller or a child of the caller.  The state is not
    changed. *)
Theorem envid2env_spec s el id checkperm :
  env_wf s el -> (checkperm = true -> is_Some (cur_env s)) ->
  wp (envid2env id checkperm) (fun r s' => s' = s /\ envid_post s id checkperm r) s.
Proof. apply envid2env_ok. Qed.

(** Sched_yield never returns.  It runs the first runnable environment in
    circular order from the slot of the current one; failing that the current
    one if it still runs on this CPU; failing that it halts the CPU with the
    kernel lock released.  The switch changes only the two environments, loads
    the directory of the one that runs, and keeps the kernel invariant. *)
Theorem sched_yield_spec s fl ds T Mp el :
  kinv KP kx kd s fl ds T Mp el -> kernel_lock s = true ->
  wpe (A := unit) sched_yield (fun _ _ => False) (sched_post KP kx kd s fl ds T Mp el) s.
Proof. apply sched_yield_ok. Qed.

(** Env_destroy marks an environment that runs on another CPU as dying and
    frees any other one; only when it destroys the caller does it not return,
    and then the scheduler runs on a state that satisfies the invariant. *)
Theorem env_destroy_spec s fl ds T Mp el e en d :
  kinv KP kx kd s fl ds T Mp el -> complete KP s fl ds T Mp ->
  envs s !! e = Some en -> live en -> d ∈ ds -> env_pgdir en = dir_kva d ->
  kernel_lock s = true ->
  wpe (env_destroy e) (fun _ s' => destroy_ret KP kx kd s ds T Mp el e en d s')
      (destroy_leave KP kx kd s ds T Mp el e en d) s.
Proof. apply env_destroy_ok. Qed.

(** ** System calls *)

(** Sys_page_alloc maps a zeroed page at the address in the environment the
    identifier names, or fails with the documented code.  The invariant holds
    in every case; but when page_insert finds no page for the page table, the
    page just allocated is neither free nor referenced by anything. *)
Theorem sys_page_alloc_spec s fl ds T Mp el id va perm :
  kinv KP kx kd s fl ds T Mp el -> is_Some (cur_env s) -> 0 <= va ->
  wp (sys_page_alloc id va perm) (page_alloc_post KP kx kd s fl ds T Mp el id va perm) s.
Proof. apply sys_page_alloc_ok. Qed.


(** sys_page_unmap removes the mapping at the address, if there is one, of
    an environment the caller may change, and loses no page. *)
Theorem sys_page_unmap_spec s fl ds T Mp el id va :
  kinv KP kx kd s fl ds T Mp el -> is_Some (cur_env s) ->
  0 <= va -> wp (sys_page_unmap id va) (unmap_post KP kx kd s fl ds T Mp el id va) s.
Proof. apply sys_page_unmap_ok. Qed.

(** Sys_exofork creates a child that is not runnable, has the caller's
    registers except that it sees 0 returned, and whose parent is the caller;
    the caller gets the child's identifier. *)
Theorem sys_exofork_spec s fl ds T Mp el :
  kinv KP kx kd s fl ds T Mp el -> is_Some (cur_env s) ->
  wp sys_exofork (exofork_post KP kx kd s fl ds T Mp el) s.
Proof. apply sys_exofork_ok. Qed.

(** sys_ipc_try_send delivers the value, and the page if one is sent and
    wanted, exactly when the target waits and nobody sent before; the target
    becomes runnable with 0 returned.  Every refusal leaves the state
    unchanged.  (When a page is sent, the receiver asked for an address below
    UTOP and the reference counts do not wrap.) *)
Theorem sys_ipc_try_send_spec s fl ds T Mp el c cen sd id value srcva perm :
  kinv KP kx kd s fl ds T Mp el -> cur_env s = Some c -> envs s !! c = Some cen ->
  sd ∈ ds -> env_pgdir cen = dir_kva sd -> 0 <= srcva -> (srcva < UTOP -> few_refs kx ds T Mp) ->
  (forall e en, srcva < UTOP -> target s id false e -> envs s !! e = Some en ->
     env_ipc_recving en = true -> 0 <= env_ipc_dstva en < UTOP) ->
  wp (sys_ipc_try_send id value srcva perm)
     (send_post KP kx kd s fl ds T Mp el cen sd id value srcva perm) s.
Proof. apply sys_ipc_try_send_ok. Qed.

(** sys_ipc_recv returns only to reject a misaligned address; otherwise it
    blocks the caller, marked as receiving and not runnable, and gives the CPU
    to the next environment. *)
Theorem sys_ipc_recv_spec s fl ds T Mp el c cen dstva :
  kinv KP kx kd s fl ds T Mp el -> cur_env s = Some c -> envs s !! c = Some cen ->
  kernel_lock s = true ->
  wpe (sys_ipc_recv dstva)
    (fun r s' => r = - E_INVAL /\ s' = s /\ dstva < UTOP /\ PGOFF dstva <> 0)
    (fun s' => kinv KP kx kd (blocked s c cen dstva) fl ds T Mp el /\
       sched_post KP kx kd (blocked s c cen dstva) fl ds T Mp el s') s.
Proof. apply sys_ipc_recv_ok. Qed.
End contracts.

(** ** The theorems at the concrete state *)

Lemma env_alloc_spec_witness :
  wp (env_alloc 7) (alloc_env_post w_KP w_kx 1 w_st [6; 7] w_ds w_T w_M w_el 7) w_st.
Proof. apply (env_alloc_spec w_KP w_kx 1), w_kinv. Defined.

Lemma env_id_fresh_witness :
  0 < next_env_id 4096 0 < 2^31 /\ ENVX (next_env_id 4096 0) = 0 /\
  next_env_id 4096 0 <> 4096 /\
  forall e' en', envs w_st !! e' = Some en' -> live en' -> env_id en' <> next_env_id 4096 0.
Proof.
  apply (env_id_fresh w_st w_el 0 w_env0); [apply w_wf|].
  simpl envs. rewrite w_envs_lookup. reflexivity.
Defined.

Lemma env_free_spec_witness :
  wp (env_free 0)
     (fun _ s' => free_env_post w_KP w_kx 1 w_st w_ds w_T w_M w_el 0 w_env0 2 s') w_st.
Proof.
  apply (env_free_spec w_KP w_kx 1 w_st [6; 7]);
    [apply w_kinv|apply w_complete| |discriminate|apply w_ds_elem; lia|reflexivity].
  simpl envs. rewrite w_envs_lookup. reflexivity.
Defined.

Lemma envid2env_spec_witness :
  wp (envid2env 4097 true) (fun r s' => s' = w_st /\ envid_post w_st 4097 true r) w_st.
Proof. apply (envid2env_spec w_st w_el); [apply w_wf|by eexists]. Defined.

Lemma sched_yield_spec_witness :
  wpe (A := unit) sched_yield (fun _ _ => False)
      (sched_post w_KP w_kx 1 w_st [6; 7] w_ds w_T w_M w_el) w_st.
Proof. apply (sched_yield_spec w_KP w_kx 1); [apply w_kinv|reflexivity]. Defined.

Lemma env_destroy_spec_witness :
  wpe (env_destroy 1)
      (fun _ s' => destroy_ret w_KP w_kx 1 w_st w_ds w_T w_M w_el 1 w_env1 3 s')
      (destroy_leave w_KP w_kx 1 w_st w_ds w_T w_M w_el 1 w_env1 3) w_st.
Proof.
  apply (env_destroy_spec w_KP w_kx 1 w_st [6; 7]);
    [apply w_kinv|apply w_complete| |discriminate|apply w_ds_elem; lia|reflexivity|reflexivity].
  simpl envs. rewrite w_envs_lookup. reflexivity.
Defined.

Lemma sys_page_alloc_spec_witness :
  wp (sys_page_alloc 0 0x900000 7)
     (page_alloc_post w_KP w_kx 1 w_st [6; 7] w_ds w_T w_M w_el 0 0x900000 7) w_st.
Proof. apply (sys_page_alloc_spec w_KP w_kx 1); [apply w_kinv|by eexists|lia]. Defined.


Lemma sys_page_unmap_spec_witness :
  wp (sys_page_unmap 0 0x800000)
     (unmap_post w_KP w_kx 1 w_st [6; 7] w_ds w_T w_M w_el 0 0x800000) w_st.
Proof.
  apply (sys_page_unmap_spec w_KP w_kx 1); [apply w_kinv|by eexists|lia].
Defined.

Lemma sys_exofork_spec_witness :
  wp sys_exofork (exofork_post w_KP w_kx 1 w_st [6; 7] w_ds w_T w_M w_el) w_st.
Proof. apply (sys_exofork_spec w_KP w_kx 1); [apply w_kinv|by eexists]. Defined.

Lemma w_dstva id e en :
  target w_st id false e -> envs w_st !! e = Some en -> 0 <= env_ipc_dstva en < UTOP.
Proof.
  intros _. simpl envs. rewrite w_envs_lookup. case_decide; [|done]. intros [= <-].
  unfold w_slot. destruct (e =? 0); [done|]. by destruct (e =? 1).
Qed.

Lemma sys_ipc_try_send_spec_witness :
  wp (sys_ipc_try_send 4097 42 0x800000 7)
     (send_post w_KP w_kx 1 w_st [6; 7] w_ds w_T w_M w_el w_env0 2 4097 42 0x800000 7) w_st.
Proof.
  apply (sys_ipc_try_send_spec w_KP w_kx 1 _ _ _ _ _ _ 0);
    [apply w_kinv|reflexivity| |apply w_ds_elem; lia|reflexivity|lia|intros _; exact w_few|intros e en _ Ht He _; by eapply w_dstva].
  simpl envs. rewrite w_envs_lookup. reflexivity.
Defined.

Lemma sys_ipc_recv_spec_witness :
  wpe (sys_ipc_recv 0x900000)
    (fun r s' => r = - E_INVAL /\ s' = w_st /\ 0x900000 < UTOP /\ PGOFF 0x900000 <> 0)
    (fun s' => kinv w_KP w_kx 1 (blocked w_st 0 w_env0 0x900000) [6; 7] w_ds w_T w_M w_el /\
       sched_post w_KP w_kx 1 (blocked w_st 0 w_env0 0x900000) [6; 7] w_ds w_T w_M w_el s') w_st.
Proof.
  apply (sys_ipc_recv_spec w_KP w_kx 1); [apply w_kinv|reflexivity| |reflexivity].
  simpl envs. rewrite w_envs_lookup. reflexivity.
Defined.

(** ** Behaviours that the comments do not intend *)

(** The machine of KernelExample with the kernel's page table for UENVS in
    page 0, and the receiver asking for "no page" the way lib/ipc.c does, with
    UTOP. *)
Definition x_st : kst :=
  set_mem (write32 (write32 (write32 w_mem (1 * 4096 + 4 * 955) 7)
                            (2 * 4096 + 4 * 955) 7) (3 * 4096 + 4 * 955) 7)
    (set_envs (<[1 := set_env_ipc_dstva UTOP w_env1]> w_envs) w_st).


(** A string of one character at the very end of the page. *)
Definition y_st : kst := set_mem (setb w_mem (5 * 4096 + 4095) 97) w_st.

