(* ===== verification/UserMem.v ===== *)
(** * User memory: accesses through the page tables

    The processor translates a user access, and an access of the kernel to a
    user address, through the directory in CR3.  Below UTOP the page it finds
    is one the abstract view [Mp] maps, so a store changes neither a page table
    nor a page of the kernel and keeps the kernel invariant. *)
From S2P Require Import Prelude Mem Mmu Kstate Pmap PmapRep PmapOps PmapUser Env EnvRep EnvFree SyscallMem.

(** The address a store in user mode reaches; [None] is a page fault. *)
Definition user_store_pa (s : kst) (va : Z) : option Z :=
  let need := Z.lor (Z.lor PTE_P PTE_W) PTE_U in
  let pde := read32 (mem s) (PTE_ADDR (cr3 s) + 4 * PDX va) in
  if negb (Z.land pde need =? need) then None
  else
    let pte := read32 (mem s) (PTE_ADDR pde + 4 * PTX va) in
    if negb (Z.land pte need =? need) then None
    else Some (PTE_ADDR pte + PGOFF va).

Lemma land_sub e m n : Z.land e m = m -> Z.land m n = n -> Z.land e n = n.
Proof. intros H1 H2. rewrite <- H2 at 1. by rewrite Z.land_assoc, H1. Qed.

Lemma present_land e : present e = true <-> Z.land e 1 = 1.
Proof.
  unfold present, flag. change PTE_P with (Z.ones 1). rewrite Z.land_ones by lia. change (2^1) with 2. rewrite negb_true_iff, Z.eqb_neq.
  pose proof (Z.mod_pos_bound e 2). change 1 with (Z.ones 1) at 1. rewrite Z.land_ones by lia. change (2^1) with 2. lia.
Qed.

(** A store of one byte. *)
Lemma setb_page (s : kst) a b : same_bytes (fun q => q <> a / 4096) s (set_mem (setb (mem s) a b) s).
Proof.
  intros q x Hq Hx. simpl. apply getb_setb_ne. intros ->. apply Hq. Z.div_mod_to_equations. lia.
Qed.

Section user.
Context (KP : gset Z) (kx : Z -> Z) (kd : Z).
Implicit Types (s : kst) (fl el : list Z) (ds : gset Z) (T Mp : gmap (Z * Z) Z).
Local Notation kinv := (kinv KP kx kd).

(** Other bytes of a page that users have mapped. *)
Lemma kinv_user_page s m fl ds T Mp el k p :
  kinv s fl ds T Mp el -> Mp !! k = Some p -> same_bytes (fun q => q <> p) s (set_mem m s) ->
  kinv (set_mem m s) fl ds T Mp el.
Proof.
  intros I Hk B. destruct (mapped_user_page _ _ _ _ _ _ _ _ _ _ _ I Hk) as [(Hp & _ & Hds & HT) HK].
  eapply kinv_pm; [exact I| |done| | |].
  - eapply rep_ext; [apply I|done..|]. intros q i Hq Hi. eapply same_bytes_word; [exact B| |done].
    simpl. intros ->. destruct Hq as [Hq|[k' Hq]]; [done|by eapply HT].
  - intros q Hq. by destruct (ki_own _ _ _ _ _ _ _ _ _ I q Hq) as (_ & ? & ?).
  - eapply same_bytes_weaken; [exact B|]. intros q ->. intros <-. apply HK, (ki_kd _ _ _ _ _ _ _ _ _ I).
  - eapply same_bytes_hi; [exact B|]. intros d Hd ->. done.
Qed.

(** ** Translation *)

(** Both levels of the walk, with the abstract page. *)
Lemma walk_user s fl ds T Mp el d va :
  kinv s fl ds T Mp el -> d ∈ ds -> 0 <= va < UTOP ->
  match pte_at s d va with
  | Some e => exists t, T !! (d, PDX va) = Some t /\ e = word (mem s) t (PTX va) /\
      Mp !! vkey d va = decode e /\ Z.land (word (mem s) d (PDX va)) 7 = 7 /\
      PTE_ADDR (word (mem s) d (PDX va)) = t * 4096
  | None => present (word (mem s) d (PDX va)) = false
  end.
Proof.
  intros I Hd Hva. pose proof (ki_pm _ _ _ _ _ _ _ _ _ I) as R. unfold pte_at.
  assert (0 <= PDX va < UPDX) as Hi.
  { rewrite UTOP_val in Hva. rewrite PDX_small, UPDX_val by lia. Z.div_mod_to_equations. lia. }
  destruct (present (word (mem s) d (PDX va))) eqn:Hp; [|done].
  pose proof (rep_T _ _ _ _ _ _ R d (PDX va) Hd Hi) as HT. unfold decode in HT. rewrite Hp in HT.
  exists (PGNUM (word (mem s) d (PDX va))). split; [done|]. split; [done|]. split; [|split].
  - rewrite vkey_split by done. apply (rep_M _ _ _ _ _ _ R _ _ _ _ HT). apply PTX_range.
  - by eapply (rep_pde _ _ _ _ _ _ R).
  - apply PTE_ADDR_spec, word_range.
Qed.

Lemma cr3_dir d i m : 0 <= d < 2^16 -> read32 m (PTE_ADDR (d * 4096) + 4 * i) = word m d i.
Proof. intros Hd. unfold word. rewrite PTE_ADDR_spec by lia. by rewrite PGNUM_page. Qed.

Lemma dir_small s fl ds T Mp el d : kinv s fl ds T Mp el -> d ∈ ds -> 0 <= d < 2^16.
Proof.
  intros I Hd. pose proof (ki_pm _ _ _ _ _ _ _ _ _ I) as R.
  pose proof (rep_ds _ _ _ _ _ _ R d Hd). pose proof (rep_np _ _ _ _ _ _ R). lia.
Qed.

Lemma user_store_page s fl ds T Mp el d va pa :
  kinv s fl ds T Mp el -> d ∈ ds -> cr3 s = d * 4096 -> 0 <= va < UTOP -> user_store_pa s va = Some pa ->
  Mp !! vkey d va = Some (pa / 4096).
Proof.
  intros I Hd Hc Hva. pose proof (dir_small _ _ _ _ _ _ _ I Hd) as Hdn.
  pose proof (walk_user s fl ds T Mp el d va I Hd Hva) as W.
  unfold user_store_pa. rewrite Hc, cr3_dir by done. change (Z.lor (Z.lor PTE_P PTE_W) PTE_U) with 7.
  destruct (Z.eqb_spec (Z.land (word (mem s) d (PDX va)) 7) 7) as [H7|]; [|done]. cbn [negb].
  unfold pte_at in W. assert (present (word (mem s) d (PDX va)) = true) as Hp
    by (apply present_land; by eapply land_sub).
  rewrite Hp in W. destruct W as (t & HT & _ & HM & _ & Ha). rewrite Ha. fold (word (mem s) t (PTX va)).
  assert (PGNUM (word (mem s) d (PDX va)) = t) as Et.
  { rewrite PTE_ADDR_spec in Ha by apply word_range. lia. }
  rewrite Et in HM. set (e := word (mem s) t (PTX va)) in *.
  destruct (Z.eqb_spec (Z.land e 7) 7) as [E7|]; [|done]. cbn [negb]. intros [= <-].
  assert (present e = true) as He by (apply present_land; by eapply land_sub).
  rewrite HM. unfold decode. rewrite He. f_equal. rewrite PTE_ADDR_spec, PGOFF_mod by apply word_range.
  Z.div_mod_to_equations. lia.
Qed.

Lemma user_store_off s va pa : user_store_pa s va = Some pa -> pa = pa / 4096 * 4096 + PGOFF va.
Proof.
  unfold user_store_pa. cbv zeta. destruct (negb _); [done|]. destruct (negb _); [done|]. intros [= <-].
  rewrite PTE_ADDR_spec, PGOFF_mod by apply read32_range. Z.div_mod_to_equations. lia.
Qed.

(** A page that [user_can] accepts is reached by the kernel. *)
Lemma translate_can s fl ds T Mp el d perm va st :
  kinv s fl ds T Mp el -> d ∈ ds -> cr3 s = d * 4096 -> 0 <= va < UTOP ->
  user_can s d perm va = true -> (st = true -> Z.land perm 2 = 2) ->
  exists p, Mp !! vkey d va = Some p /\ translate s va st = Some (p * 4096 + va mod 4096).
Proof.
  intros I Hd Hc Hva Hu Hst. pose proof (dir_small _ _ _ _ _ _ _ I Hd) as Hdn.
  pose proof (walk_user s fl ds T Mp el d va I Hd Hva) as W.
  unfold user_can in Hu. apply andb_true_iff in Hu as [_ Hu].
  unfold translate. rewrite Hc, cr3_dir by done.
  destruct (pte_at s d va) as [e|]; [|done]. destruct W as (t & HT & -> & HM & H7 & Ha). rewrite Ha.
  fold (word (mem s) t (PTX va)). set (e := word (mem s) t (PTX va)) in *.
  apply andb_true_iff in Hu as [Hp Hperm%Z.eqb_eq]. exists (PGNUM e).
  split; [unfold decode in HM; by rewrite Hp in HM|].
  assert (Z.land e 1 = 1) as H1 by (by apply present_land).
  destruct st; [change (Z.lor PTE_P PTE_W) with 3|change PTE_P with 1].
  - assert (Z.land e 2 = 2) as H2 by (eapply land_sub; [exact Hperm|by apply Hst]).
    assert (Z.land e 3 = 3) as H3 by (change 3 with (Z.lor 1 2); by rewrite Z.land_lor_distr_r, H1, H2).
    rewrite (land_sub _ 7 3 H7) by done. rewrite H3. cbn [negb Z.eqb Pos.eqb].
    by rewrite PTE_ADDR_spec, PGOFF_mod by apply word_range.
  - rewrite (land_sub _ 7 1 H7), H1 by done. cbn [negb Z.eqb Pos.eqb].
    by rewrite PTE_ADDR_spec, PGOFF_mod by apply word_range.
Qed.

(** Loads, also from the part above UTOP that users may read. *)
Lemma vload8_can s d perm va Q E :
  cr3 s = d * 4096 -> 0 <= d < 2^16 -> 0 <= va -> user_can s d perm va = true ->
  (forall b, Q b s) -> wpe (vload8 va) Q E s.
Proof.
  intros Hc Hdn Hva Hu HQ. unfold user_can in Hu. apply andb_true_iff in Hu as [Hlt%Z.ltb_lt Hu].
  unfold vload8, access. destruct (Z.leb_spec KERNBASE va) as [Hk|_]; [rewrite ULIM_val in Hlt; unfold KERNBASE in Hk; lia|].
  wp_steps. unfold id, translate. rewrite Hc, cr3_dir by done. unfold pte_at in Hu.
  destruct (present (word (mem s) d (PDX va))) eqn:Hp; [|done]. apply present_land in Hp.
  change PTE_P with 1. rewrite Hp. cbn [negb Z.eqb Pos.eqb].
  apply andb_true_iff in Hu as [Hp2%present_land _].
  rewrite PTE_ADDR_spec by apply word_range. fold (word (mem s) (PGNUM (word (mem s) d (PDX va))) (PTX va)).
  rewrite Hp2. cbn [negb Z.eqb Pos.eqb]. wp_steps. apply HQ.
Qed.

(** ** Stores of the kernel into one user page *)

Definition stored s0 (p : Z) s : Prop := exists m, s = set_mem m s0 /\ same_bytes (fun q => q <> p) s0 s.

Lemma stored_refl s p : stored s p s.
Proof. exists (mem s). split; [by destruct s|]. by intros q a _ _. Qed.

Lemma stored_kinv s0 s fl ds T Mp el k p :
  kinv s0 fl ds T Mp el -> Mp !! k = Some p -> stored s0 p s -> kinv s fl ds T Mp el.
Proof. intros I Hk (m & -> & B). by eapply kinv_user_page. Qed.

Lemma stored_can s0 s fl ds T Mp el k p d perm va :
  kinv s0 fl ds T Mp el -> Mp !! k = Some p -> stored s0 p s -> d ∈ ds -> 0 <= va < UTOP ->
  user_can s d perm va = user_can s0 d perm va.
Proof.
  intros I Hk (m & -> & B) Hd Hva.
  destruct (mapped_user_page _ _ _ _ _ _ _ _ _ _ _ I Hk) as [(_ & _ & Hds & HT) _].
  pose proof (walk_user s0 fl ds T Mp el d va I Hd Hva) as W. unfold user_can, pte_at in *.
  rewrite (same_bytes_word _ s0 (set_mem m s0) d (PDX va) B) by (first [apply PDX_range|simpl; congruence]).
  destruct (present (word (mem s0) d (PDX va))); [|done]. destruct W as (t & Ht & _ & _ & _ & Ha).
  rewrite PTE_ADDR_spec in Ha by apply word_range.
  assert (PGNUM (word (mem s0) d (PDX va)) = t) as -> by lia.
  rewrite (same_bytes_word _ s0 (set_mem m s0) t (PTX va) B); [done| |apply PTX_range].
  simpl. intros ->. by eapply HT.
Qed.

Lemma vstore8_user s0 s fl ds T Mp el d p perm va b :
  kinv s0 fl ds T Mp el -> stored s0 p s -> d ∈ ds -> cr3 s0 = d * 4096 -> 0 <= va < UTOP ->
  Mp !! vkey d va = Some p -> user_can s0 d perm va = true -> Z.land perm 2 = 2 ->
  wp (vstore8 va b) (fun _ s' => stored s0 p s') s.
Proof.
  intros I St Hd Hc Hva HM Hu Hw. unfold wp, vstore8, access.
  destruct (Z.leb_spec KERNBASE va) as [Hk|_]; [rewrite UTOP_val in Hva; unfold KERNBASE in Hk; lia|].
  pose proof (stored_kinv _ _ _ _ _ _ _ _ _ I HM St) as I'.
  rewrite <- (stored_can _ _ _ _ _ _ _ _ _ d perm va I HM St Hd Hva) in Hu.
  assert (cr3 s = d * 4096) as Hc' by (destruct St as (m & -> & _); done).
  destruct (translate_can s fl ds T Mp el d perm va true I' Hd Hc' Hva Hu ltac:(done)) as (p' & HM' & Ht).
  simplify_eq. wp_steps. unfold id. rewrite Ht. wp_steps. destruct St as (m & -> & B).
  exists (setb m (p * 4096 + va mod 4096) b). split; [done|].
  eapply same_bytes_trans; [exact B|]. pose proof (setb_page (set_mem m s0) (p * 4096 + va mod 4096) b) as B'.
  replace ((p * 4096 + va mod 4096) / 4096) with p in B' by (Z.div_mod_to_equations; lia). exact B'.
Qed.

(** The whole range [va, va + n) lies in the page of [d] that is [p]. *)
Definition in_page Mp d p (va n : Z) : Prop :=
  0 <= va /\ va + n <= UTOP /\ forall a, va <= a < va + n -> Mp !! vkey d a = Some p.

Lemma vstore32_user s0 s fl ds T Mp el d p perm va v :
  kinv s0 fl ds T Mp el -> stored s0 p s -> d ∈ ds -> cr3 s0 = d * 4096 -> in_page Mp d p va 4 ->
  (forall a, va <= a < va + 4 -> user_can s0 d perm a = true) -> Z.land perm 2 = 2 ->
  wp (vstore32 va v) (fun _ s' => stored s0 p s') s.
Proof.
  intros I St Hd Hc (H0 & H1 & HM) Hu Hw. unfold wp, vstore32. rewrite UTOP_val in H1.
  rewrite !u32_small by lia.
  repeat (wp_steps; (eapply wp_wpe; [eapply vstore8_user; [exact I|exact St|exact Hd|exact Hc|rewrite UTOP_val; lia|apply HM; lia|apply Hu; lia|exact Hw]|]);
    clear St; intros [] ? St).
  done.
Qed.
End user.
