(* ===== verification/KernelLoop.v ===== *)
(** * Kernel frames and the kernel as a whole

    The first part has what kernel code leaves alone, the second follows every
    trap from its entry to the point where the CPU leaves the kernel.

    The big kernel lock and the status of the CPU are changed by lock_kernel,
    unlock_kernel and sched_halt only: code that returns to its caller keeps
    them.  Code that ends in env_pop_tf or in the halt loop never returns. *)
From S2P Require Import Prelude Mem Mmu Kstate Pmap PmapRep PmapOps PmapUser Env EnvRep EnvOps EnvFree EnvSched Devices.
From S2P Require Import Syscall Trap SyscallMem SyscallEnv UserMem.

Definition kmisc (s : kst) : cpu_stat * bool := (cpu_status s, kernel_lock s).

Local Notation keeps := (keeps kmisc).

(** ** Code that never returns *)

Definition never {A} (m : K A) : Prop := forall s a s', m s <> Ok a s'.

Lemma never_keeps {A} (m : K A) : never m -> keeps m.
Proof. intros H s a s' E. by apply H in E. Qed.

Lemma never_bind {A B} (m : K A) (k : A -> K B) : (forall a, never (k a)) -> never (bind m k).
Proof. intros H s b s'. unfold bind. destruct (m s); try done. apply H. Qed.

Lemma never_leave {A} : never (leave : K A).
Proof. by intros s a s'. Qed.

Ltac never_steps :=
  repeat (match goal with
  | |- forall _, _ => intro
  | |- never (bind _ _) => apply never_bind
  | |- never leave => apply never_leave
  | |- never (match ?x with _ => _ end) => destruct x
  end; try done).

Lemma never_env_run {A} e : never (env_run e : K A).
Proof. unfold env_run, env_pop_tf. never_steps. Qed.

Lemma never_sched_halt {A} : never (sched_halt : K A).
Proof. unfold sched_halt. never_steps. Qed.

Lemma never_sched_yield {A} : never (sched_yield : K A).
Proof. unfold sched_yield. never_steps; auto using never_env_run, never_sched_halt. Qed.

Lemma keeps_env_run {A} e : keeps (env_run e : K A).
Proof. apply never_keeps, never_env_run. Qed.
Lemma keeps_sched_yield {A} : keeps (sched_yield : K A).
Proof. apply never_keeps, never_sched_yield. Qed.
#[export] Hint Resolve keeps_env_run keeps_sched_yield : keeps.

(** ** Memory *)

Ltac frame d := unfold d; keep_steps.

Lemma keeps_get_page p : keeps (get_page p).
Proof. frame get_page. Qed.
#[export] Hint Resolve keeps_get_page : keeps.
Lemma keeps_upd_page p f : keeps (upd_page p f).
Proof. frame upd_page. Qed.
Lemma keeps_get_env e : keeps (get_env e).
Proof. frame get_env. Qed.
#[export] Hint Resolve keeps_get_env : keeps.
Lemma keeps_upd_env e f : keeps (upd_env e f).
Proof. frame upd_env. Qed.
Lemma keeps_kread32 a : keeps (kread32 a).
Proof. frame kread32. Qed.
Lemma keeps_kwrite32 a v : keeps (kwrite32 a v).
Proof. frame kwrite32. Qed.
Lemma keeps_kmemset a c n : keeps (kmemset a c n).
Proof. frame kmemset. Qed.
Lemma keeps_kmemcpy a b n : keeps (kmemcpy a b n).
Proof. frame kmemcpy. Qed.
Lemma keeps_PADDR a : keeps (PADDR a).
Proof. frame PADDR. Qed.
Lemma keeps_KADDR a : keeps (KADDR a).
Proof. frame KADDR. Qed.
Lemma keeps_pa2page a : keeps (pa2page a).
Proof. frame pa2page. Qed.
Lemma keeps_lcr3 a : keeps (lcr3 a).
Proof. frame lcr3. Qed.
Lemma keeps_access va st : keeps (access va st).
Proof. frame access. Qed.
#[export] Hint Resolve keeps_upd_page keeps_upd_env keeps_kread32 keeps_kwrite32
  keeps_kmemset keeps_kmemcpy keeps_PADDR keeps_KADDR keeps_pa2page keeps_lcr3 keeps_access : keeps.

Lemma keeps_page2kva a : keeps (page2kva a).
Proof. frame page2kva. Qed.
Lemma keeps_vload8 va : keeps (vload8 va).
Proof. frame vload8. Qed.
Lemma keeps_vstore8 va b : keeps (vstore8 va b).
Proof. frame vstore8. Qed.
#[export] Hint Resolve keeps_page2kva keeps_vload8 keeps_vstore8 : keeps.

Lemma keeps_vload32 va : keeps (vload32 va).
Proof. frame vload32. Qed.
Lemma keeps_vload16 va : keeps (vload16 va).
Proof. frame vload16. Qed.
Lemma keeps_vstore32 va b : keeps (vstore32 va b).
Proof. frame vstore32. Qed.
Lemma keeps_vstore16 va b : keeps (vstore16 va b).
Proof. frame vstore16. Qed.
#[export] Hint Resolve keeps_vload32 keeps_vload16 keeps_vstore32 keeps_vstore16 : keeps.

Lemma keeps_page_alloc f : keeps (page_alloc f).
Proof. frame page_alloc. Qed.
Lemma keeps_page_free p : keeps (page_free p).
Proof. frame page_free. Qed.
Lemma keeps_pp_incref p : keeps (pp_incref p).
Proof. frame pp_incref. Qed.
Lemma keeps_tlb_invalidate d va : keeps (tlb_invalidate d va).
Proof. frame tlb_invalidate. Qed.
#[export] Hint Resolve keeps_page_alloc keeps_page_free keeps_pp_incref keeps_tlb_invalidate : keeps.

Lemma keeps_page_decref p : keeps (page_decref p).
Proof. frame page_decref. Qed.
Lemma keeps_pgdir_walk d va c : keeps (pgdir_walk d va c).
Proof. frame pgdir_walk. Qed.
#[export] Hint Resolve keeps_page_decref keeps_pgdir_walk : keeps.

Lemma keeps_page_lookup d va : keeps (page_lookup d va).
Proof. frame page_lookup. Qed.
Lemma keeps_user_mem_check_step d va perm a : keeps (user_mem_check_step d va perm a).
Proof. frame user_mem_check_step. Qed.
#[export] Hint Resolve keeps_page_lookup keeps_user_mem_check_step : keeps.

Lemma keeps_page_remove d va : keeps (page_remove d va).
Proof. frame page_remove. Qed.
Lemma keeps_user_mem_check e va len perm : keeps (user_mem_check e va len perm).
Proof. frame user_mem_check. Qed.
#[export] Hint Resolve keeps_page_remove keeps_user_mem_check : keeps.

Lemma keeps_page_insert d p va perm : keeps (page_insert d p va perm).
Proof. frame page_insert. Qed.
#[export] Hint Resolve keeps_page_insert : keeps.

(** ** Environments *)

Lemma keeps_envid2env id c : keeps (envid2env id c).
Proof. frame envid2env. Qed.
Lemma keeps_env_setup_vm e : keeps (env_setup_vm e).
Proof. frame env_setup_vm. Qed.
Lemma keeps_env_free_pte d t i j : keeps (env_free_pte d t i j).
Proof. frame env_free_pte. Qed.
#[export] Hint Resolve keeps_envid2env keeps_env_setup_vm keeps_env_free_pte : keeps.

Lemma keeps_env_alloc p : keeps (env_alloc p).
Proof. frame env_alloc. Qed.
Lemma keeps_env_free_pde d i : keeps (env_free_pde d i).
Proof. frame env_free_pde. Qed.
#[export] Hint Resolve keeps_env_alloc keeps_env_free_pde : keeps.

Lemma keeps_env_free e : keeps (env_free e).
Proof. frame env_free. Qed.
#[export] Hint Resolve keeps_env_free : keeps.

Lemma keeps_env_destroy e : keeps (env_destroy e).
Proof. frame env_destroy. Qed.
#[export] Hint Resolve keeps_env_destroy : keeps.

Lemma keeps_user_mem_assert e va len perm : keeps (user_mem_assert e va len perm).
Proof. frame user_mem_assert. Qed.
#[export] Hint Resolve keeps_user_mem_assert : keeps.

(** ** Devices and system calls *)

Lemma keeps_cons_intr cs : keeps (cons_intr cs).
Proof. induction cs as [|c cs IH]; simpl; keep_steps. Qed.
#[export] Hint Resolve keeps_cons_intr : keeps.

Lemma keeps_cons_getc a b : keeps (cons_getc a b).
Proof. frame cons_getc. Qed.
Lemma keeps_time_tick : keeps time_tick.
Proof. frame time_tick. Qed.
Lemma keeps_set_tx i d : keeps (set_tx i d).
Proof. frame set_tx. Qed.
Lemma keeps_tx_store a b : keeps (tx_store a b).
Proof. frame tx_store. Qed.
Lemma keeps_curenv : keeps curenv.
Proof. frame curenv. Qed.
Lemma keeps_print_string p n : keeps (print_string p n).
Proof. frame print_string. Qed.
#[export] Hint Resolve keeps_cons_getc keeps_time_tick keeps_set_tx keeps_tx_store keeps_curenv keeps_print_string : keeps.

Lemma keeps_vload_tf a : keeps (vload_tf a).
Proof. frame vload_tf. Qed.
#[export] Hint Resolve keeps_vload_tf : keeps.

Lemma keeps_syscall serial kbd no a1 a2 a3 a4 a5 : keeps (syscall serial kbd no a1 a2 a3 a4 a5).
Proof.
  unfold syscall, sys_cputs, sys_cgetc, sys_getenvid, sys_env_destroy, sys_page_alloc, sys_page_map, sys_page_unmap,
    sys_exofork, sys_env_set_status, sys_yield, sys_env_set_pgfault_upcall, sys_ipc_try_send, sys_ipc_recv,
    sys_env_set_trapframe, sys_time_msec, time_msec, sys_pkt_send, sys_pkt_recv, e1000_transmit, e1000_receive.
  keep_steps.
Qed.
#[export] Hint Resolve keeps_syscall : keeps.

(** * The kernel as a whole: from one trap to the next

    Between two traps a CPU is in user mode, halted, or stopped in the monitor.
    [sys_inv] says that the kernel invariant holds there and which of the three
    it is.  Each system call, interrupt and fault is followed from the entry of
    trap() to the point where the CPU leaves the kernel again; the result is
    that it always does, and that [sys_inv] holds there.

    When sys_page_alloc loses a page (its page_insert failed), that page counts
    as one of the kernel's own from then on: the set of the kernel's pages may
    grow. *)

Section loop.
Context (KP0 : gset Z) (kx : Z -> Z) (kd : Z).
Implicit Types (s : kst) (fl el : list Z) (ds : gset Z) (T Mp : gmap (Z * Z) Z).

Definition kernel_ok s : Prop := exists KP fl ds T Mp el,
  KP0 ⊆ KP /\ kinv KP kx kd s fl ds T Mp el /\ complete KP s fl ds T Mp.

(** The environment [c] runs with its own directory in CR3. *)
Definition runs s (c : Z) : Prop := exists en d,
  cur_env s = Some c /\ envs s !! c = Some en /\ env_status en = ENV_RUNNING /\
  env_pgdir en = dir_kva d /\ cr3 s = d * 4096.

Definition user_mode s : Prop := kmisc s = (CPU_STARTED, false) /\ exists c, runs s c.
Definition halt_mode s : Prop := kmisc s = (CPU_HALTED, false) /\ cur_env s = None.
Definition stop_mode s : Prop := kernel_lock s = true.

Definition sys_inv s : Prop := kernel_ok s /\ (user_mode s \/ halt_mode s \/ stop_mode s).

(** Inside the kernel. *)
Definition inside s : Prop := kernel_ok s /\ kmisc s = (CPU_STARTED, true).

(** A call that returns. *)
Definition good s s' : Prop := kernel_ok s' /\ cur_env s' = cur_env s.

(** ** Changes that do not matter to the invariant *)

Lemma kernel_ok_misc s s' :
  kernel_ok s -> pm_core s' = pm_core s -> envs s' = envs s -> env_free_list s' = env_free_list s ->
  (cur_env s' = cur_env s \/ cur_env s' = None) -> kernel_ok s'.
Proof.
  intros (KP & fl & ds & T & Mp & el & HK & I & C) Ec Ee Ef Hc. exists KP, fl, ds, T, Mp, el. split; [done|]. split.
  - eapply kinv_misc; [exact I|done|done|done|]. intros c Hc'.
    apply (ew_cur _ _ (ki_env _ _ _ _ _ _ _ _ _ I)). destruct Hc; congruence.
  - eapply complete_frame; [|exact C]. unfold pm_core in Ec. congruence.
Qed.

Lemma kernel_ok_upd s e en en' :
  kernel_ok s -> envs s !! e = Some en -> env_same en en' -> kernel_ok (set_envs (<[e := en']> (envs s)) s).
Proof.
  intros (KP & fl & ds & T & Mp & el & HK & I & C) He Hs. exists KP, fl, ds, T, Mp, el. split; [done|].
  split; [by eapply kinv_upd_env|by eapply complete_frame].
Qed.

Lemma kernel_cur s c : kernel_ok s -> cur_env s = Some c -> exists en, envs s !! c = Some en /\ live en.
Proof. intros (KP & fl & ds & T & Mp & el & _ & I & _). apply (ew_cur _ _ (ki_env _ _ _ _ _ _ _ _ _ I)). Qed.

Lemma good_refl s : kernel_ok s -> good s s.
Proof. done. Qed.

(** ** Leaving the kernel *)

Lemma run_final {A} (Q : A -> kst -> Prop) s e en :
  inside s -> envs s !! e = Some en -> live en -> wpe (env_run e) Q sys_inv s.
Proof.
  intros [(KP & fl & ds & T & Mp & el & HK & I & C) [= Hst Hlk]] He Hl.
  eapply wpe_mono; [by eapply (env_run_ok KP kx kd)|done|].
  intros s' (I' & Hc & Hk & (en0 & d & He0 & _ & Hp & Hcr) & Hsw & Hcore & _ & Hst').
  split; [exists KP, fl, ds, T, Mp, el; split; [done|]; split; [done|]; eapply complete_frame; [|exact C]; unfold pm_core in Hcore; congruence|].
  left. split; [unfold kmisc; congruence|]. exists e. destruct Hsw as [(en1 & He1 & He') _]. simplify_eq.
  eexists _, d. split; [done|]. split; [exact He'|]. done.
Qed.

Lemma sched_post_final s s' KP fl ds T Mp el :
  KP0 ⊆ KP -> kinv KP kx kd s fl ds T Mp el -> complete KP s fl ds T Mp -> kmisc s = (CPU_STARTED, true) ->
  sched_post KP kx kd s fl ds T Mp el s' -> sys_inv s'.
Proof.
  intros HK I C [= Hst Hlk] S.
  assert (forall e, run_post KP kx kd s fl ds T Mp el e s' -> sys_inv s') as Hrun.
  { intros e (I' & Hc & Hk & (en0 & d & He0 & _ & Hp & Hcr) & Hsw & Hcore & _ & Hst').
    split; [exists KP, fl, ds, T, Mp, el; split; [done|]; split; [done|]; eapply complete_frame; [|exact C]; unfold pm_core in Hcore; congruence|].
    left. split; [unfold kmisc; congruence|]. exists e. destruct Hsw as [(en1 & He1 & He') _]. simplify_eq.
    eexists _, d. split; [done|]. split; [exact He'|]. done. }
  unfold sched_post in S. destruct (next_env s); [by eapply Hrun|]. destruct (still_running s); [by eapply Hrun|].
  assert (kernel_ok s) as Hok by (by exists KP, fl, ds, T, Mp, el).
  unfold halt_post in S. destruct (find_first (alive s) (seqZ 0 NENV)); subst s'.
  - split; [by eapply (kernel_ok_misc s); [|done|done|done|right]|]. right. left. done.
  - split; [done|]. right. by right.
Qed.

Lemma sched_final {A} (Q : A -> kst -> Prop) s : inside s -> wpe sched_yield Q sys_inv s.
Proof.
  intros [(KP & fl & ds & T & Mp & el & HK & I & C) Hm]. pose proof Hm as [= Hst Hlk].
  eapply wpe_mono; [by eapply (sched_yield_ok KP kx kd)|done|]. intros s'. by eapply sched_post_final.
Qed.

(** ** Destroying environments *)

Lemma destroy_final s e en :
  inside s -> envs s !! e = Some en -> live en ->
  wpe (env_destroy e) (fun _ s' => cur_env s <> Some e /\ good s s') sys_inv s.
Proof.
  intros [Hok Hm] He Hl. pose proof Hok as (KP & fl & ds & T & Mp & el & HK & I & C). pose proof Hm as [= Hst Hlk].
  destruct (kinv_env _ _ _ _ _ _ _ _ _ _ _ I He Hl) as (d & Hd & Hp).
  eapply wpe_mono; [by eapply (env_destroy_ok KP kx kd)| |].
  - intros [] s' R. unfold destroy_ret in R. case_decide as Hr.
    + subst s'. split; [apply Hr|]. split; [|done]. eapply kernel_ok_upd; [done|exact He|]. split; [|done].
      unfold live in *. simpl. naive_solver.
    + destruct R as [Hc (fl' & T' & Mp' & I' & C' & _ & _ & _ & _ & Ec & _)]. split; [done|]. split; [|done].
      exists KP, fl', (ds ∖ {[d]}), T', Mp', (e :: el). split; [done|]. split; [|done].
      unfold cur_without in I'. rewrite decide_False in I' by done. rewrite <- Ec in I'. by destruct s'.
  - intros s' (Hc & s1 & fl1 & T1 & M1 & P & I1 & C1 & S).
    destruct P as (_ & _ & _ & _ & _ & _ & _ & _ & _ & _ & Ek & _ & Eu & _).
    eapply sched_post_final; [exact HK|exact I1|by eapply complete_frame| |exact S].
    unfold kmisc. simpl. congruence.
Qed.

Lemma destroy_self_final s c : inside s -> cur_env s = Some c -> wpe (env_destroy c) (fun _ _ => False) sys_inv s.
Proof.
  intros Hi Hc. destruct (kernel_cur s c (proj1 Hi) Hc) as (en & He & Hl).
  eapply wpe_mono; [by eapply destroy_final|by intros [] s' [? _]|done].
Qed.

(** ** System calls on memory *)

(** No 16-bit reference count is about to wrap. *)
Definition refs_small s : Prop := forall p pi, pages s !! p = Some pi -> pp_ref pi + 1 < 2^16.

Lemma few_of_small KP s fl ds T Mp el : kinv KP kx kd s fl ds T Mp el -> refs_small s -> few_refs kx ds T Mp.
Proof.
  intros I Hs p. pose proof (ki_pm _ _ _ _ _ _ _ _ _ I) as R.
  destruct (decide (0 <= p < npages s)) as [Hp|Hp].
  - apply (rep_dom _ _ _ _ _ _ R) in Hp as [pi Hp]. pose proof (rep_ref _ _ _ _ _ _ R p pi Hp) as [_ E].
    pose proof (Hs p pi Hp). lia.
  - assert (p ∉ KP) as HK by (intros HK; by destruct (ki_own _ _ _ _ _ _ _ _ _ I p HK)).
    rewrite (ki_kx _ _ _ _ _ _ _ _ _ I p HK). unfold refs.
    rewrite decide_False by (intros Hd; by apply (rep_ds _ _ _ _ _ _ R) in Hd).
    rewrite !count_none; [lia| |].
    + intros [d i] Ht. by apply (rep_Tdom _ _ _ _ _ _ R) in Ht as (_ & _ & ? & _).
    + intros [d v] Hm. by apply (rep_Mdom _ _ _ _ _ _ R) in Hm as (_ & ? & _).
Qed.

Lemma mapped_good KP s s1 fl ds T Mp el d va p perm s' :
  KP0 ⊆ KP -> mapped KP kx kd s1 fl ds T Mp el d va p perm s' -> complete_but KP p s1 fl ds T Mp ->
  cur_env s1 = cur_env s -> good s s'.
Proof.
  intros HK (F & I' & _ & _ & C' & _) C Hc. split; [|by rewrite (pm_frame_cur _ _ F)].
  by eexists KP, _, _, _, _, _; split; [done|split; [exact I'|apply C'; done]].
Qed.

(** The page that sys_page_alloc loses is kept by the kernel. *)
Lemma leak_good KP s s1 s' ds T Mp el d va p :
  KP0 ⊆ KP -> complete KP s1 [p] ds T Mp -> npages s' = npages s1 -> alloc_leak KP kx kd s ds T Mp el d va p s' ->
  cur_env s' = cur_env s -> good s s'.
Proof.
  intros HK C En (_ & I & F & H0 & HpK & Hp & _) Hc. split; [|done].
  exists ({[p]} ∪ KP), [], ds, T, Mp, el. split; [set_solver|]. split.
  - destruct I as [I1 I2 I3 I4 I5 I6 I7 I8 I9 I10]. constructor; try done.
    + intros q Hq. apply I2. set_solver.
    + intros q [->%elem_of_singleton|Hq]%elem_of_union; [|by apply I3]. split; [done|]. split; [apply not_elem_of_nil|done].
    + set_solver.
    + intros i Hi Hpr. apply elem_of_union_r. by apply I7.
  - intros q Hq HqK Hq0. assert (q ∈ [p]) as Hin by (apply C; [congruence|set_solver|done]). set_solver.
Qed.

Lemma page_alloc_final s id va perm :
  kernel_ok s -> is_Some (cur_env s) -> 0 <= va -> wp (sys_page_alloc id va perm) (fun _ s' => good s s') s.
Proof.
  intros Hok Hc Hva. pose proof Hok as (KP & fl & ds & T & Mp & el & HK & I & C).
  eapply wp_mono; [by eapply (sys_page_alloc_ok KP kx kd)|].
  intros r s' [(_ & -> & _)|[(_ & -> & _)|[(_ & -> & _)|(e & en & d & p & fl' & s1 & Ht & -> & F & I1 & _ & _ & P)]]];
    [by apply good_refl..|].
  assert (complete KP s1 (p :: fl') ds T Mp) as C1 by (eapply complete_frame; [by apply pm_frame_npages|done]).
  destruct P as [(_ & -> & _ & L)|(_ & Hm)].
  - pose proof L as (_ & _ & F' & _). eapply leak_good; [done|exact C1| |exact L|by apply pm_frame_cur].
    by rewrite (pm_frame_npages _ _ F'), (pm_frame_npages _ _ F).
  - eapply mapped_good; [done|exact Hm| |by apply pm_frame_cur].
    intros q Hq HqK Hq0 Hqp. pose proof (C1 q Hq HqK Hq0). set_solver.
Qed.

Lemma page_map_final s sid srcva did dstva perm :
  kernel_ok s -> is_Some (cur_env s) -> refs_small s -> 0 <= srcva -> 0 <= dstva ->
  wp (sys_page_map sid srcva did dstva perm) (fun _ s' => good s s') s.
Proof.
  intros Hok Hc Hr H1 H2. pose proof Hok as (KP & fl & ds & T & Mp & el & HK & I & C).
  eapply wp_mono; [eapply (sys_page_map_ok KP kx kd); [done|done|by eapply few_of_small|done|done]|].
  intros r s' [(_ & -> & _)|[(_ & -> & _)|(se & sen & sd & de & den & dd & _ & _ & P)]]; [by apply good_refl..|].
  destruct P as [(_ & -> & _)|[(_ & -> & _)|(_ & p & _ & _ & Hm)]]; [by apply good_refl..|].
  eapply mapped_good; [done|exact Hm| |done]. intros q Hq HqK Hq0 _. by apply C.
Qed.

Lemma page_unmap_final s id va :
  kernel_ok s -> is_Some (cur_env s) -> 0 <= va -> wp (sys_page_unmap id va) (fun _ s' => good s s') s.
Proof.
  intros Hok Hc Hva. pose proof Hok as (KP & fl & ds & T & Mp & el & HK & I & C).
  eapply wp_mono; [by eapply (sys_page_unmap_ok KP kx kd)|].
  intros r s' [(_ & -> & _)|[(_ & -> & _)|(_ & e & en & d & _ & F & I' & C' & _)]]; [by apply good_refl..|].
  split; [|by apply pm_frame_cur]. eexists KP, _, _, _, _, _. split; [done|]. split; [exact I'|by apply C'].
Qed.

(** ** System calls on environments *)

Lemma exofork_final s : kernel_ok s -> is_Some (cur_env s) -> wp sys_exofork (fun _ s' => good s s') s.
Proof.
  intros Hok Hc. pose proof Hok as (KP & fl & ds & T & Mp & el & HK & I & C).
  eapply wp_mono; [by eapply (sys_exofork_ok KP kx kd)|].
  intros r s' [(_ & -> & _)|[(_ & -> & _)|(c & cen & e & el' & p & fl' & en & E & _ & _ & _ & _ & _ & I' & C' & _ & Ec & _)]];
    [by apply good_refl..|].
  split; [|congruence]. eexists KP, _, _, _, _, _. split; [done|]. split; [exact I'|]. by apply C'.
Qed.

Lemma field_good KP s fl ds T Mp el id f r s' :
  KP0 ⊆ KP -> complete KP s fl ds T Mp -> kernel_ok s -> field_post s ds id f r s' -> kinv KP kx kd s' fl ds T Mp el -> good s s'.
Proof.
  intros HK C Hok [(_ & -> & _)|(_ & e & en & d & _ & E)] I; [by apply good_refl|].
  split; [|by subst s']. exists KP, fl, ds, T, Mp, el. split; [done|]. split; [done|]. subst s'. by eapply complete_frame.
Qed.

Lemma set_status_final s id status :
  kernel_ok s -> is_Some (cur_env s) -> wp (sys_env_set_status id status) (fun _ s' => good s s') s.
Proof.
  intros Hok Hc. pose proof Hok as (KP & fl & ds & T & Mp & el & HK & I & C).
  eapply wp_mono; [by eapply (sys_env_set_status_ok KP kx kd)|].
  intros r s' [(_ & -> & _)|[P I']]; [by apply good_refl|by eapply field_good].
Qed.

Lemma set_upcall_final s id func :
  kernel_ok s -> is_Some (cur_env s) -> wp (sys_env_set_pgfault_upcall id func) (fun _ s' => good s s') s.
Proof.
  intros Hok Hc. pose proof Hok as (KP & fl & ds & T & Mp & el & HK & I & C).
  eapply wp_mono; [by eapply (sys_env_set_pgfault_upcall_ok KP kx kd)|]. intros r s' [P I']. by eapply field_good.
Qed.

Lemma ipc_recv_final s dstva :
  inside s -> is_Some (cur_env s) -> wpe (sys_ipc_recv dstva) (fun _ s' => good s s') sys_inv s.
Proof.
  intros [Hok Hm] [c Hc]. pose proof Hm as [= Hst Hlk].
  destruct (kernel_cur s c Hok Hc) as (cen & Hcen & _).
  pose proof Hok as (KP & fl & ds & T & Mp & el & HK & I & C).
  eapply wpe_mono; [by eapply (sys_ipc_recv_ok KP kx kd)| |].
  - intros r s' (_ & -> & _). by apply good_refl.
  - intros s' [I' S]. by eapply sched_post_final.
Qed.

(** The receiver of a page asked for an address below UTOP. *)
Definition recv_below s (id : Z) : Prop := forall e en,
  target s id false e -> envs s !! e = Some en -> env_ipc_recving en = true -> 0 <= env_ipc_dstva en < UTOP.

Lemma target_tf s c en tf l id x :
  envs s !! c = Some en ->
  target (set_envs (<[c := set_env_tf tf en]> (envs s)) (set_kernel_lock l (set_cpu_status CPU_STARTED s))) id false x ->
  target s id false x.
Proof.
  intros He. unfold target, may_use. simpl. case_decide; [done|]. intros (xn & Hx & Hl & Hid & _).
  rewrite lookup_insert in Hx. case_decide; [|by exists xn]. subst x. injection Hx as <-. by exists en.
Qed.

Lemma ipc_send_final s id value srcva perm :
  kernel_ok s -> is_Some (cur_env s) -> 0 <= srcva -> (srcva < UTOP -> refs_small s /\ recv_below s id) ->
  wp (sys_ipc_try_send id value srcva perm) (fun _ s' => good s s') s.
Proof.
  intros Hok [c Hc] Hva Hs. destruct (kernel_cur s c Hok Hc) as (cen & Hcen & Hcl).
  pose proof Hok as (KP & fl & ds & T & Mp & el & HK & I & C).
  destruct (kinv_env _ _ _ _ _ _ _ _ _ _ _ I Hcen Hcl) as (sd & Hsd & Hsp).
  eapply wp_mono; [eapply (sys_ipc_try_send_ok KP kx kd s fl ds T Mp el c cen sd); try done|].
  { intros Hlt. eapply few_of_small; [exact I|by apply Hs]. }
  { intros e en Hlt. by apply Hs. }
  intros r s' [(_ & -> & _)|(dst & den & dd & (_ & Hden & Hdl & _ & _) & P)]; [by apply good_refl|].
  destruct P as [(_ & -> & _)|[(_ & -> & _)|[(_ & -> & _)|(_ & _ & _ & P)]]]; [by apply good_refl..|].
  unfold send_ok in P. case_decide.
  - destruct P as (p & s1 & _ & _ & Hm & ->).
    assert (good s s1) as [G1 G2] by (eapply mapped_good; [done|exact Hm| |done]; intros q Hq HqK Hq0 _; by apply C).
    pose proof Hm as (F & _). split; [|done]. rewrite <- (pm_frame_envs _ _ F).
    eapply kernel_ok_upd; [done|by rewrite (pm_frame_envs _ _ F)|]. split; [|done]. unfold live in *. simpl. naive_solver.
  - subst s'. split; [|done]. eapply kernel_ok_upd; [done|exact Hden|]. split; [|done]. unfold live in *. simpl. naive_solver.
Qed.

Lemma sys_destroy_final s id :
  inside s -> is_Some (cur_env s) -> wpe (sys_env_destroy id) (fun _ s' => good s s') sys_inv s.
Proof.
  intros Hi Hc. pose proof Hi as [(KP & fl & ds & T & Mp & el & HK & I & C) _]. unfold sys_env_destroy. wp_steps.
  eapply wp_wpe; [by eapply (envid2env_target KP kx kd)|].
  intros r s1 [-> [[-> Hn]|(e & en & d & -> & (_ & He & Hl & _))]]; simpl; wp_steps; [apply good_refl, Hi|].
  eapply wpe_mono; [by eapply destroy_final| |done]. intros [] s' [_ G]. by wp_steps.
Qed.

(** ** Console, clock and output *)

Lemma cons_intr_ok cs s : wp (cons_intr cs) (fun _ s' => exists k, s' = set_cons k s) s.
Proof.
  revert s. induction cs as [|c cs IH]; intros s; unfold wp; simpl; wp_steps; [exists (cons s); by destruct s|].
  destruct (c =? 0); wp_steps; [by apply IH|].
  eapply wpe_mono; [apply IH| |done]. intros [] s' [k ->]. by exists k.
Qed.

Lemma set_cons_good s k : kernel_ok s -> good s (set_cons k s).
Proof. intros H. split; [by eapply (kernel_ok_misc s); [|done|done|done|left]|done]. Qed.

Lemma cons_getc_final serial kbd s : kernel_ok s -> wp (cons_getc serial kbd) (fun _ s' => good s s') s.
Proof.
  intros Hok. unfold wp, cons_getc. wp_steps.
  eapply wp_wpe; [apply cons_intr_ok|]. intros [] s1 [k1 ->]. wp_steps.
  eapply wp_wpe; [apply cons_intr_ok|]. intros [] s2 [k2 ->]. wp_steps.
  destruct (cons_rpos _ =? cons_wpos _); wp_steps; by apply (set_cons_good s).
Qed.

(** A string whose end is not the end of a page. *)
Definition string_ok (va len : Z) : Prop :=
  0 < len < 2^31 /\ va + len <= 2^32 - 4096 /\ (va + len) mod 4096 <> 0.

Lemma print_string_ok s d perm va len :
  cr3 s = d * 4096 -> 0 <= d < 2^16 -> 0 <= va -> string_ok va len ->
  (forall a, va <= a < va + len -> user_can s d perm a = true) ->
  wp (print_string va len) (fun _ s' => s' = s) s.
Proof.
  intros Hc Hd Hva (Hlen & Hend & Hmod) Hu.
  assert (forall a, va <= a <= va + len -> user_can s d perm a = true) as Hall.
  { intros a Ha. destruct (decide (a = va + len)) as [->|]; [|apply Hu; lia].
    rewrite (user_can_page s d perm (va + len) (va + len - 1)); [apply Hu; lia|lia|lia|].
    Z.div_mod_to_equations. lia. }
  unfold wp, print_string. destruct (Z.ltb_spec len 0); [lia|].
  eapply (wpe_loop _ (fun st s' => s' = s /\ let '(p, prec, _) := st in p = va + (len - prec) /\ 0 <= prec <= len)
    (fun st _ => let '(_, prec, _) := st in Z.to_nat prec)).
  - intros [[p prec] out] s' (-> & -> & Hp). wp_steps.
    eapply vload8_can; [exact Hc|exact Hd|lia|apply Hall; lia|]. intros ch. wp_steps.
    destruct (ch =? 0); [by wp_steps|]. destruct (Z.ltb_spec prec 0); [lia|].
    destruct (Z.leb_spec 0 (prec - 1)); wp_steps; [|done].
    rewrite u32_small by lia. split; [|lia]. split; [done|]. lia.
  - split; [done|]. lia.
  - lia.
Qed.

(** user_mem_assert on the current environment. *)
Lemma mem_assert_final s c va len perm :
  inside s -> runs s c -> 0 <= va -> 0 <= len -> va + len <= 2^32 - 4096 ->
  wpe (user_mem_assert c va len perm) (fun _ s' => s' = s /\
    forall d a, cr3 s = d * 4096 -> va <= a < va + len -> user_can s d (Z.lor perm PTE_U) a = true) sys_inv s.
Proof.
  intros [Hok Hm] (en & d & Hc & He & Hs & Hp & Hcr) H1 H2 H3. pose proof Hok as (KP & fl & ds & T & Mp & el & HK & I & C).
  assert (live en) as Hl by (unfold live; congruence).
  destruct (kinv_env _ _ _ _ _ _ _ _ _ _ _ I He Hl) as (d' & Hd & Hp').
  assert (d' = d) as -> by (rewrite Hp in Hp'; unfold dir_kva in Hp'; lia).
  unfold user_mem_assert. wp_steps.
  eapply wp_wpe; [eapply user_mem_check_ok; [exact He|exact Hp|by eapply kinv_dir_ok|done|done|done]|].
  intros r s' [(-> & -> & Hall)|(-> & a & -> & _)]; cbn.
  - wp_steps. split; [done|]. intros d2 a Hd2 Ha. assert (d2 = d) as -> by lia. by apply Hall.
  - eapply wpe_mono; [eapply destroy_self_final; [split; [by eapply (kernel_ok_misc s); [|done|done|done|left]|exact Hm]|exact Hc]| |]; done.
Qed.

Lemma cputs_final s c va len :
  inside s -> runs s c -> 0 <= va -> string_ok va len ->
  wpe (sys_cputs va len) (fun _ s' => s' = s) sys_inv s.
Proof.
  intros Hi Hr Hva Hs. pose proof Hr as (en & d & Hc & He & Hst & Hp & Hcr). pose proof Hs as (? & ? & _).
  unfold sys_cputs, curenv. wp_steps. rewrite Hc. wp_steps.
  eapply wpe_mono; [eapply mem_assert_final; [done|done|done|lia|lia]| |done]. intros [] s' [-> Hall]. wp_steps.
  destruct (Z.eqb_spec va 0); [by wp_steps|]. rewrite s32_small by lia.
  pose proof Hi as [(KP & fl & ds & T & Mp & el & HK & I & C) _].
  assert (live en) as Hl by (unfold live; congruence).
  destruct (kinv_env _ _ _ _ _ _ _ _ _ _ _ I He Hl) as (d' & Hd & Hp').
  assert (d' = d) as -> by (rewrite Hp in Hp'; unfold dir_kva in Hp'; lia).
  eapply wp_wpe; [eapply print_string_ok; [exact Hcr|by eapply dir_small|done|done|]|done].
  intros a Ha. by apply Hall.
Qed.

(** ** The dispatcher of the system calls *)

(** What a system call must not do.  The first four calls dereference user
    addresses that are not, or not completely, checked; the others let a
    16-bit reference count wrap or map a page at UTOP. *)
Definition call_ok s (r : PushRegs) : Prop :=
  let no := reg_eax r in
  no <> SYS_env_set_trapframe /\ no <> SYS_pkt_send /\ no <> SYS_pkt_recv /\
  (no = SYS_cputs -> string_ok (reg_edx r) (reg_ecx r)) /\
  (no = SYS_page_map -> refs_small s) /\
  (no = SYS_ipc_try_send -> reg_ebx r < UTOP -> refs_small s /\ recv_below s (s32 (reg_edx r))).

Record regs_ok (r : PushRegs) : Prop := mk_regs_ok {
  ro_edx : 0 <= reg_edx r < 2^32; ro_ecx : 0 <= reg_ecx r < 2^32; ro_ebx : 0 <= reg_ebx r < 2^32;
  ro_edi : 0 <= reg_edi r < 2^32; ro_esi : 0 <= reg_esi r < 2^32 }.

Lemma syscall_final s c serial kbd r :
  inside s -> runs s c -> regs_ok r -> call_ok s r ->
  wpe (syscall serial kbd (reg_eax r) (reg_edx r) (reg_ecx r) (reg_ebx r) (reg_edi r) (reg_esi r))
    (fun _ s' => good s s') sys_inv s.
Proof.
  intros Hi Hr [R1 R2 R3 R4 R5] (N1 & N2 & N3 & Hp & Hm & Hs). pose proof Hi as [Hok _].
  pose proof Hr as (en & d & Hc & He & _). assert (is_Some (cur_env s)) as Hcs by eauto.
  unfold syscall. cbv zeta.
  destruct (Z.eqb_spec (reg_eax r) SYS_cputs) as [E|_].
  { wp_steps. eapply wpe_mono; [eapply cputs_final; [done|done|lia|by apply Hp]| |done]. intros l s' ->.
    eapply wp_wpe; [by apply cons_getc_final|done]. }
  destruct (_ =? SYS_cgetc); [eapply wp_wpe; [by apply cons_getc_final|done]|].
  destruct (_ =? SYS_getenvid).
  { wp_steps. rewrite Hc. apply wpe_assert; [done|]. unfold sys_getenvid, curenv. wp_steps. rewrite Hc. wp_steps.
    eapply wpe_get_env; [exact He|]. by wp_steps. }
  destruct (_ =? SYS_env_destroy).
  { wp_steps. rewrite Hc. apply wpe_assert; [done|]. by apply sys_destroy_final. }
  destruct (_ =? SYS_page_alloc); [eapply wp_wpe; [apply page_alloc_final; [done|done|lia]|done]|].
  destruct (Z.eqb_spec (reg_eax r) SYS_page_map) as [E|_]; [eapply wp_wpe; [apply page_map_final; [done|done|by apply Hm|lia|lia]|done]|].
  destruct (_ =? SYS_page_unmap); [eapply wp_wpe; [apply page_unmap_final; [done|done|lia]|done]|].
  destruct (_ =? SYS_exofork); [eapply wp_wpe; [by apply exofork_final|done]|].
  destruct (_ =? SYS_env_set_status); [eapply wp_wpe; [by apply set_status_final|done]|].
  destruct (_ =? SYS_yield); [wp_steps; unfold sys_yield; by apply sched_final|].
  destruct (_ =? SYS_env_set_pgfault_upcall); [eapply wp_wpe; [by apply set_upcall_final|done]|].
  destruct (Z.eqb_spec (reg_eax r) SYS_ipc_try_send) as [E|_]; [eapply wp_wpe; [apply ipc_send_final; [done|done|lia|by apply Hs]|done]|].
  destruct (_ =? SYS_ipc_recv); [by apply ipc_recv_final|].
  destruct (Z.eqb_spec (reg_eax r) SYS_env_set_trapframe); [done|].
  destruct (_ =? SYS_time_msec); [unfold sys_time_msec, time_msec; by wp_steps|].
  destruct (Z.eqb_spec (reg_eax r) SYS_pkt_send); [done|].
  destruct (Z.eqb_spec (reg_eax r) SYS_pkt_recv); [done|]. by wp_steps.
Qed.

(** ** Page faults *)

(** The frame for the user's handler does not begin below the exception
    stack.  The handler is refused when its first byte cannot be written, but
    only that byte is checked. *)
Definition frame_ok (esp : Z) : Prop :=
  0 <= esp < 2^32 /\ ~ (UXSTACKTOP - PGSIZE <= esp < UXSTACKTOP - PGSIZE + 56).

Lemma utf_addr_page esp : frame_ok esp -> UXSTACKTOP - PGSIZE <= utf_addr esp /\ utf_addr esp + 52 <= UXSTACKTOP.
Proof.
  change UXSTACKTOP with 0xEEC00000. change PGSIZE with 4096. unfold frame_ok, utf_addr.
  change UXSTACKTOP with 0xEEC00000. change PGSIZE with 4096. change sizeof_UTrapframe with 52. intros [H1 H2].
  destruct (Z.leb_spec (0xEEC00000 - 4096) esp), (Z.leb_spec esp (0xEEC00000 - 1)); simpl; try lia.
  rewrite u32_small by lia. lia.
Qed.

Lemma frame_stores s KP fl ds T Mp el d p utf perm (va esp eflags eip err : Z) (r : PushRegs) (k : K unit) Q E :
  kinv KP kx kd s fl ds T Mp el -> d ∈ ds -> cr3 s = d * 4096 -> in_page Mp d p utf 52 ->
  (forall a, utf <= a < utf + 52 -> user_can s d perm a = true) -> Z.land perm 2 = 2 ->
  (forall s', stored s p s' -> wpe k Q E s') ->
  wpe (vstore32 (u32 (utf + 48)) esp ;;; vstore32 (u32 (utf + 44)) eflags ;;; vstore32 (u32 (utf + 40)) eip ;;;
       vstore_regs (u32 (utf + 8)) r ;;; vstore32 (u32 (utf + 4)) err ;;; vstore32 utf va ;;; k) Q E s.
Proof.
  intros I Hd Hc (H0 & H1 & HM) Hu Hw Hk. pose proof (stored_refl s p) as St. revert St.
  generalize s at 2 3. intros s1 St. unfold vstore_regs. rewrite UTOP_val in H1.
  rewrite (u32_small (utf + 8)) by lia. rewrite <- !Z.add_assoc. rewrite !u32_small by lia.
  repeat (wp_steps; (eapply wp_wpe; [eapply vstore32_user; [exact I|exact St|exact Hd|exact Hc|
    split; [lia|split; [rewrite UTOP_val; lia|intros a Ha; apply HM; lia]]|intros a Ha; apply Hu; lia|exact Hw]|]);
    clear St; intros [] ? St).
  by apply Hk.
Qed.

Lemma page_fault_final s c fault_va tf :
  inside s -> runs s c -> Z.land (tf_cs tf) 3 <> 0 -> frame_ok (tf_esp tf) ->
  wpe (page_fault_handler fault_va tf) (fun _ _ => False) sys_inv s.
Proof.
  intros Hi Hr Hcs Hf. pose proof Hr as (en & d & Hc & He & Hst & Hp & Hcr).
  unfold page_fault_handler. destruct (Z.eqb_spec (Z.land (tf_cs tf) 3) 0); [done|].
  unfold curenv. wp_steps. rewrite Hc. wp_steps. eapply wpe_get_env; [exact He|]. wp_steps.
  destruct (Z.eqb_spec (env_pgfault_upcall en) 0) as [_|_]; cbn [negb]; [wp_steps; by apply destroy_self_final|].
  destruct (utf_addr_page _ Hf) as [U1 U2]. set (utf := utf_addr (tf_esp tf)) in *.
  change UXSTACKTOP with 0xEEC00000 in U1, U2. change PGSIZE with 4096 in U1.
  apply wpe_bind. eapply wpe_mono; [eapply mem_assert_final; [done|done|lia|lia|lia]| |done].
  intros [] s' [-> Hu]. specialize (Hu d). pose proof Hi as [(KP & fl & ds & T & Mp & el & HK & I & C) Hm].
  assert (live en) as Hl by (unfold live; congruence).
  destruct (kinv_env _ _ _ _ _ _ _ _ _ _ _ I He Hl) as (d' & Hd & Hp').
  assert (d' = d) as -> by (rewrite Hp in Hp'; unfold dir_kva in Hp'; lia).
  assert (user_can s d (Z.lor PTE_W PTE_U) utf = true) as Hu0 by (apply Hu; [done|lia]).
  destruct (translate_can KP kx kd s fl ds T Mp el d _ utf true I Hd Hcr ltac:(rewrite UTOP_val; lia) Hu0 ltac:(done))
    as (p & HMp & _).
  assert (forall a, utf <= a < utf + 52 -> a / 4096 = utf / 4096) as Hpg
    by (intros a Ha; Z.div_mod_to_equations; lia).
  eapply (frame_stores s KP fl ds T Mp el d p utf (Z.lor PTE_W PTE_U)); [exact I|exact Hd|exact Hcr| | |done|].
  { split; [lia|]. split; [rewrite UTOP_val; lia|]. intros a Ha. rewrite <- HMp. unfold vkey. by rewrite !PGNUM_div, Hpg. }
  { intros a Ha. rewrite (user_can_page s d _ a utf); [done|lia|lia|by apply Hpg]. }
  intros s1 St. pose proof (stored_kinv KP kx kd _ _ _ _ _ _ _ _ _ I HMp St) as I1. destruct St as (m & -> & _).
  assert (kernel_ok (set_mem m s)) as Hok1 by (exists KP, fl, ds, T, Mp, el; split; [done|]; split; [done|]; by eapply complete_frame).
  wp_steps. eapply wpe_upd_env; [exact He|]. wp_steps. eapply wpe_upd_env; [apply lookup_insert_eq|].
  simpl envs. rewrite insert_insert_eq.
  eapply run_final; [split; [|exact Hm]|apply lookup_insert_eq|done].
  by apply (kernel_ok_upd (set_mem m s) c en).
Qed.

(** ** Traps *)

(** The frame a trap from user mode may come with. *)
Definition trap_ok s (tf : Trapframe) : Prop :=
  let no := tf_trapno tf in
  (no = T_PGFLT -> frame_ok (tf_esp tf)) /\
  (no = T_SYSCALL -> regs_ok (tf_regs tf) /\ call_ok s (tf_regs tf)) /\
  (no = IRQ_OFFSET + IRQ_TIMER -> 0 <= ticks s /\ 10 * (ticks s + 1) < 2^32).

(** Interrupts that reach a halted CPU. *)
Definition irq_ok s (tf : Trapframe) : Prop :=
  let no := tf_trapno tf in
  (no = IRQ_OFFSET + IRQ_TIMER /\ 0 <= ticks s /\ 10 * (ticks s + 1) < 2^32) \/
  no = IRQ_OFFSET + IRQ_SPURIOUS \/ no = IRQ_OFFSET + IRQ_KBD \/ no = IRQ_OFFSET + IRQ_SERIAL.

Lemma tick_final {A} (Q : A -> kst -> Prop) s :
  inside s -> 0 <= ticks s -> 10 * (ticks s + 1) < 2^32 -> wpe (time_tick ;;; sched_yield) Q sys_inv s.
Proof.
  intros [Hok Hm] H0 H1. unfold time_tick. wp_steps. rewrite (u32_small (ticks s + 1)), u32_small by lia.
  destruct (Z.ltb_spec ((ticks s + 1) * 10) (ticks s + 1)); [lia|]. wp_steps. apply sched_final.
  split; [by eapply (kernel_ok_misc s); [|done|done|done|left]|done].
Qed.

Lemma good_trans s1 s2 s3 : good s1 s2 -> good s2 s3 -> good s1 s3.
Proof. intros [_ H1] [H2 H3]. split; [done|congruence]. Qed.

Lemma dispatch_user s c serial kbd fault_va tf :
  inside s -> runs s c -> Z.land (tf_cs tf) 3 = 3 -> trap_ok s tf ->
  wpe (trap_dispatch serial kbd fault_va (Some c) tf) (fun _ s' => good s s' /\ kmisc s' = kmisc s) sys_inv s.
Proof.
  intros Hi Hr Hcs (Hpf & Hsys & Htm). pose proof Hi as [Hok Hm]. pose proof Hr as (en & d & Hc & He & _).
  unfold trap_dispatch. cbv zeta.
  destruct (Z.eqb_spec (tf_trapno tf) T_PGFLT) as [E|_].
  { eapply wpe_mono; [by eapply page_fault_final; [| |rewrite Hcs|apply Hpf]|done|done]. }
  destruct (_ =? T_BRKPT); [apply wpe_leave; split; [done|]; right; right; by injection Hm|].
  destruct (Z.eqb_spec (tf_trapno tf) T_SYSCALL) as [E|_].
  { destruct (NSYSCALLS <=? _); [by wp_steps|]. destruct (Hsys E) as [Hro Hco]. wp_steps.
    eapply wpe_mono; [apply (wpe_keeps kmisc); [auto with keeps|by eapply syscall_final]| |done].
    intros v s' [G Hk]. destruct (kernel_cur s' c (proj1 G) ltac:(rewrite (proj2 G); done)) as (en' & He' & _).
    eapply wpe_upd_env; [exact He'|]. split; [|done]. eapply good_trans; [exact G|]. split; [|done].
    eapply kernel_ok_upd; [apply G|exact He'|done]. }
  destruct (_ =? IRQ_OFFSET + IRQ_SPURIOUS); [by wp_steps|].
  destruct (Z.eqb_spec (tf_trapno tf) (IRQ_OFFSET + IRQ_TIMER)) as [E|_].
  { destruct (Htm E). apply wpe_bind. by apply tick_final. }
  wp_steps. assert (forall cs, wpe (cons_intr cs) (fun _ s' => good s s' /\ kmisc s' = kmisc s) sys_inv s) as Hcons.
  { intros cs. eapply wp_wpe; [apply cons_intr_ok|]. intros [] s' [k ->]. split; [by apply set_cons_good|done]. }
  destruct (_ =? IRQ_OFFSET + IRQ_KBD); [apply Hcons|]. destruct (_ =? IRQ_OFFSET + IRQ_SERIAL); [apply Hcons|].
  destruct (Z.eqb_spec (tf_cs tf) GD_KT) as [E|_]; [by rewrite E in Hcs|].
  unfold curenv. wp_steps. rewrite Hc. wp_steps. eapply wpe_mono; [by eapply destroy_self_final|done|done].
Qed.

(** The end of trap(). *)
Lemma return_final s :
  inside s ->
  wpe (let! c' := gets cur_env in
       match c' with
       | Some e => let! en := get_env e in
           if bool_decide (env_status en = ENV_RUNNING) then env_run e else sched_yield
       | None => sched_yield
       end) (fun (_ : unit) _ => False) sys_inv s.
Proof.
  intros Hi. wp_steps. destruct (cur_env s) as [c|] eqn:Hc; [|by apply sched_final].
  destruct (kernel_cur s c (proj1 Hi) Hc) as (en & He & Hl). wp_steps. eapply wpe_get_env; [exact He|].
  case_bool_decide; [by eapply run_final|by apply sched_final].
Qed.

Lemma trap_user_final s serial kbd fault_va tf :
  kernel_ok s -> user_mode s -> Z.land (tf_cs tf) 3 = 3 -> trap_ok s tf ->
  wpe (trap serial kbd fault_va tf) (fun _ _ => False) sys_inv s.
Proof.
  intros Hok [Hm [c Hr]] Hcs Ht. pose proof Hm as [= Hst Hlk]. pose proof Hr as (en & d & Hc & He & Hrun & Hp & Hcr).
  unfold trap. wp_steps. rewrite Hst. wp_steps. rewrite Hcs. cbn [Z.eqb Pos.eqb]. unfold lock_kernel. wp_steps.
  simpl kernel_lock. rewrite Hlk. wp_steps. simpl cur_env. rewrite Hc. apply wpe_assert; [done|]. wp_steps.
  unfold curenv. wp_steps. simpl cur_env. rewrite Hc. wp_steps. eapply wpe_get_env; [exact He|]. wp_steps.
  rewrite bool_decide_eq_false_2 by congruence. wp_steps. eapply wpe_upd_env; [exact He|].
  set (s0 := set_kernel_lock true (set_cpu_status CPU_STARTED s)).
  set (s1 := set_envs _ s0).
  assert (kernel_ok s0) as Hok0 by (by eapply (kernel_ok_misc s); [|done|done|done|left]).
  assert (inside s1) as Hi1 by (split; [by eapply kernel_ok_upd|done]).
  assert (runs s1 c) as Hr1 by (exists (set_env_tf tf en), d; split; [done|]; split; [apply lookup_insert_eq|done]).
  assert (trap_ok s1 tf) as Ht1.
  { destruct Ht as (Hpf & Hsys & Htm). split; [done|]. split; [|done]. intros E. destruct (Hsys E) as [? (N1 & N2 & N3 & Hs & Hpm & Hip)].
    split; [done|]. do 5 (split; [done|]). intros E' Hlt. destruct (Hip E' Hlt) as [? Hrb]. split; [done|].
    intros x xn Hx. apply (target_tf s c en tf true) in Hx; [|done]. simpl. rewrite lookup_insert. case_decide; [|by apply Hrb].
    subst x. intros [= <-] Hrv. by apply (Hrb c en). }
  eapply wpe_mono; [by eapply dispatch_user| |done]. intros [] s2 [[Hok2 _] Hk2]. apply return_final.
  split; [done|]. rewrite Hk2. done.
Qed.

Lemma trap_halt_final s serial kbd fault_va tf :
  kernel_ok s -> halt_mode s -> Z.land (tf_cs tf) 3 <> 3 -> irq_ok s tf ->
  wpe (trap serial kbd fault_va tf) (fun _ _ => False) sys_inv s.
Proof.
  intros Hok [Hm Hc] Hcs Ht. pose proof Hm as [= Hst Hlk].
  unfold trap. wp_steps. rewrite Hst. unfold lock_kernel. wp_steps. simpl kernel_lock. rewrite Hlk. wp_steps.
  destruct (Z.eqb_spec (Z.land (tf_cs tf) 3) 3); [done|].
  set (s1 := set_kernel_lock true (set_cpu_status CPU_STARTED s)).
  assert (inside s1) as Hi by (split; [by eapply (kernel_ok_misc s); [|done|done|done|left]|done]).
  assert (wpe (trap_dispatch serial kbd fault_va None tf) (fun _ s' => inside s') sys_inv s1) as Hd.
  { assert (forall cs, wpe (cons_intr cs) (fun _ s' => inside s') sys_inv s1) as Hcons.
    { intros cs. eapply wp_wpe; [apply cons_intr_ok|]. intros [] s' [k ->]. split; [|done]. apply set_cons_good, Hi. }
    unfold trap_dispatch. cbv zeta. destruct Ht as [(-> & H0 & H1)|[->|[->| ->]]]; cbn; [|by wp_steps|..].
    - apply wpe_bind. by apply tick_final.
    - wp_steps. apply Hcons.
    - wp_steps. apply Hcons. }
  eapply wpe_mono; [exact Hd| |done]. intros [] s2 Hi2. by apply return_final.
Qed.

(** ** Executions *)

(** A store of the running program, a trap from it, or an interrupt that wakes
    a halted CPU.  What the program does between them changes only registers. *)
Inductive sys_step : kst -> kst -> Prop :=
| sys_store s va b pa :
    user_mode s -> 0 <= va < UTOP -> user_store_pa s va = Some pa ->
    sys_step s (set_mem (setb (mem s) pa b) s)
| sys_trap s serial kbd fault_va tf s' :
    user_mode s -> Z.land (tf_cs tf) 3 = 3 -> trap_ok s tf ->
    trap serial kbd fault_va tf s = Leave s' -> sys_step s s'
| sys_irq s serial kbd fault_va tf s' :
    halt_mode s -> Z.land (tf_cs tf) 3 <> 3 -> irq_ok s tf ->
    trap serial kbd fault_va tf s = Leave s' -> sys_step s s'.

Lemma wpe_leaves {A} (m : K A) E s : wpe m (fun _ _ => False) E s -> exists s', m s = Leave s' /\ E s'.
Proof. unfold wpe. destruct (m s); try done. eauto. Qed.

Lemma store_inv s va b pa :
  sys_inv s -> user_mode s -> 0 <= va < UTOP -> user_store_pa s va = Some pa ->
  sys_inv (set_mem (setb (mem s) pa b) s).
Proof.
  intros [(KP & fl & ds & T & Mp & el & HK & I & C) _] [Hm [c (en & d & Hc & He & Hr & Hp & Hcr)]] Hva Hpa.
  assert (live en) as Hl by (unfold live; congruence).
  destruct (kinv_env _ _ _ _ _ _ _ _ _ _ _ I He Hl) as (d' & Hd & Hp').
  assert (d' = d) as -> by (rewrite Hp in Hp'; unfold dir_kva in Hp'; lia).
  pose proof (user_store_page KP kx kd s fl ds T Mp el d va pa I Hd Hcr Hva Hpa) as HM.
  split; [|left; split; [done|]; exists c, en, d; done].
  exists KP, fl, ds, T, Mp, el. split; [done|]. split; [|by eapply complete_frame].
  eapply (kinv_user_page KP kx kd); [exact I|exact HM|apply setb_page].
Qed.

Lemma sys_step_inv s s' : sys_inv s -> sys_step s s' -> sys_inv s'.
Proof.
  intros Hi Hs. pose proof Hi as [Hok _]. destruct Hs as [s va b pa Hu Hva Hpa|s serial kbd va tf s' Hu Hc Ht E|s serial kbd va tf s' Hu Hc Ht E].
  - by eapply store_inv.
  - destruct (wpe_leaves _ _ _ (trap_user_final s serial kbd va tf Hok Hu Hc Ht)) as (s1 & E1 & H1).
    assert (s1 = s') as <- by (rewrite E in E1; by injection E1). done.
  - destruct (wpe_leaves _ _ _ (trap_halt_final s serial kbd va tf Hok Hu Hc Ht)) as (s1 & E1 & H1).
    assert (s1 = s') as <- by (rewrite E in E1; by injection E1). done.
Qed.

Lemma sys_reachable s0 s : sys_inv s0 -> rtc sys_step s0 s -> sys_inv s.
Proof. intros H Hr. induction Hr as [|s1 s2 s3 Hs _ IH]; [done|]. apply IH. by eapply sys_step_inv. Qed.
End loop.
