(* ===== verification/SystemThms.v ===== *)
(** * The kernel under arbitrary user programs

    The theorems of this file follow the kernel through any sequence of user
    stores, system calls, faults and interrupts. *)
From S2P Require Import Prelude Mem Mmu Kstate Pmap PmapRep PmapOps PmapUser Env EnvRep EnvOps EnvFree EnvSched Devices.
From S2P Require Import Syscall Trap SyscallMem SyscallEnv KernelExample KernelLoop UserMem.


(** Environment 0 of the example state in user mode. *)
Definition w_user : kst := set_kernel_lock false w_st.

Lemma w_user_mode : user_mode w_user.
Proof.
  split; [done|]. exists 0, w_env0, 2. split; [done|]. split; [|done]. simpl. by rewrite w_envs_lookup.
Qed.

Lemma w_user_inv : sys_inv w_KP w_kx 1 w_user.
Proof.
  split; [|left; apply w_user_mode]. exists w_KP, [6; 7], w_ds, w_T, w_M, w_el. split; [done|]. split.
  - eapply kinv_misc; [apply w_kinv|done|done|done|]. apply (ew_cur _ _ w_wf).
  - eapply complete_frame; [|apply w_complete]. done.
Qed.

(** The trap of sys_exofork. *)
Definition w_call : Trapframe :=
  mkTf (mkRegs 0 0 0 0 0 0 0 SYS_exofork) 35 35 T_SYSCALL 0 0x800020 27 0x202 0xeebfe000 35.




