(* ===== verification/Printfmt.v ===== *)
(** * lib/printfmt.c, lib/printf.c, lib/fprintf.c and kern/printf.c: formatted output

    The formatter is written over the function [putch] it is given, whose
    effect is on an arbitrary state [S].  A C string is the list of its bytes
    before the terminating zero.  A variable argument list is a list of
    arguments: 32-bit words, and strings for the pointers that are followed.
    Signed arithmetic that overflows and a missing argument are undefined. *)
From S2P Require Import Prelude Mem Mmu.

Definition bytes (s : string) : list Z :=
  (fun a => Z.of_N (Ascii.N_of_ascii a)) <$> String.list_ascii_of_string s.

Inductive arg := AInt (w : Z) | AStr (p : option (list Z)).

Definition s8 (x : Z) : Z := let y := u8 x in if y <? 2^7 then y else y - 2^8.
Definition s64 (x : Z) : Z := let y := x `mod` 2^64 in if y <? 2^63 then y else y - 2^64.

Definition MAXERROR : Z := 16.
Definition error_string : list (option (list Z)) :=
  None :: ((fun s => Some (bytes s)) <$>
    ["unspecified error"; "bad environment"; "invalid parameter"; "out of memory"; "out of environments";
     "segmentation fault"; "env is not recving"; "unexpected end of file"; "no free space on disk";
     "too many files are open"; "file or block not found"; "invalid path"; "file already exists";
     "file is not a valid executable"; "operation not supported"]%string).

(** The local variables that one %-escape sets: padc, width, precision,
    lflag and altflag. *)
Record flags := mkFlags { padc : Z; width : Z; precision : Z; lflag : Z; altflag : bool }.
Definition flags0 : flags := mkFlags 32 (-1) (-1) 0 false.

Section vprintfmt.
Context {S : Type} (putch : Z -> M S unit).

Definition as_int (x : Z) : M S Z := if (- 2^31 <=? x) && (x <? 2^31) then ret x else undef.
Definition as_llong (x : Z) : M S Z := if (- 2^63 <=? x) && (x <? 2^63) then ret x else undef.

(** [va_arg(ap, unsigned)] and [va_arg(ap, char * )] *)
Definition va_word (ap : list arg) : M S (Z * list arg) :=
  match ap with AInt w :: ap => ret (u32 w, ap) | _ => undef end.
Definition va_str (ap : list arg) : M S (option (list Z) * list arg) :=
  match ap with AStr p :: ap => ret (p, ap) | _ => undef end.

Definition getuint (ap : list arg) (lflag : Z) : M S (Z * list arg) :=
  if 2 <=? lflag then
    let! (lo, ap) := va_word ap in
    let! (hi, ap) := va_word ap in ret (lo + 2^32 * hi, ap)
  else va_word ap.

Definition getint (ap : list arg) (lflag : Z) : M S (Z * list arg) :=
  if 2 <=? lflag then
    let! (lo, ap) := va_word ap in
    let! (hi, ap) := va_word ap in ret (s64 (lo + 2^32 * hi), ap)
  else let! (w, ap) := va_word ap in ret (s32 w, ap).

(** [for (; n > 0; n--) putch(c);] *)
Definition pad (c n : Z) : M S unit := for_ (replicate (Z.to_nat n) c) putch.

Fixpoint printnum (fuel : nat) (num base width padc : Z) : M S unit :=
  match fuel with
  | O => fun _ => Diverge
  | Datatypes.S fuel =>
      (if base <=? num then printnum fuel (num / base) base (width - 1) padc
       else pad padc (width - 1)) ;;;
      let! c := deref (bytes "0123456789abcdef" !! Z.to_nat (num `mod` base)) in
      putch c
  end.

(** A number has 64 bits and the bases are 8, 10 and 16: 64 digits are enough. *)
Definition number_ (num base : Z) (f : flags) : M S unit := printnum 64 num base (width f) (padc f).

(** The digits of a field width, of which [ch] is the first. *)
Fixpoint read_width (fmt : list Z) (ch precision : Z) : M S (Z * list Z) :=
  let! precision := as_int (precision * 10 + ch - 48) in
  match fmt with
  | ch :: fmt' => if (ch <? 48) || (57 <? ch) then ret (precision, fmt) else read_width fmt' ch precision
  | [] => ret (precision, [])
  end.

Definition process_precision (f : flags) (precision : Z) : flags :=
  if width f <? 0 then mkFlags (padc f) precision (-1) (lflag f) (altflag f)
  else mkFlags (padc f) (width f) precision (lflag f) (altflag f).

(** From [reswitch] to the conversion character: that character (0 at the end
    of the format), the rest of the format, the arguments left and the flags. *)
Definition reswitch (fmt : list Z) (ap : list arg) : M S (Z * list Z * list arg * flags) :=
  loop (Datatypes.S (length fmt)) (fun st => let '(fmt, ap, f) := st in
    match fmt with
    | [] => ret (inr (0, [], ap, f))
    | ch :: fmt =>
        if ch =? 45 then ret (inl (fmt, ap, mkFlags 45 (width f) (precision f) (lflag f) (altflag f)))
        else if ch =? 48 then ret (inl (fmt, ap, mkFlags 48 (width f) (precision f) (lflag f) (altflag f)))
        else if (49 <=? ch) && (ch <=? 57) then
          let! (n, fmt) := read_width fmt ch 0 in
          ret (inl (fmt, ap, process_precision f n))
        else if ch =? 42 then
          let! (w, ap) := va_word ap in
          ret (inl (fmt, ap, process_precision f (s32 w)))
        else if ch =? 46 then
          ret (inl (fmt, ap, mkFlags (padc f) (Z.max (width f) 0) (precision f) (lflag f) (altflag f)))
        else if ch =? 35 then ret (inl (fmt, ap, mkFlags (padc f) (width f) (precision f) (lflag f) true))
        else if ch =? 108 then
          ret (inl (fmt, ap, mkFlags (padc f) (width f) (precision f) (lflag f + 1) (altflag f)))
        else ret (inr (ch, fmt, ap, f))
    end) (fmt, ap, flags0).

(** The loop over the characters of a %s; returns the width that is left. *)
Fixpoint show (p : list Z) (precision width : Z) (altflag : bool) : M S Z :=
  match p with
  | [] => ret width
  | c :: p =>
      let ch := s8 c in
      if (precision <? 0) || (0 <=? precision - 1) then
        (if altflag && ((ch <? 32) || (126 <? ch)) then putch 63 else putch ch) ;;;
        show p (if precision <? 0 then precision else precision - 1) (width - 1) altflag
      else ret width
  end.

Definition strnlen_ (p : list Z) (size : Z) : Z := Z.min (Z.of_nat (length p)) size.

Definition put_str (p : list Z) (f : flags) : M S unit :=
  let! w := (if (0 <? width f) && negb (padc f =? 45) then
               let w := width f - strnlen_ p (u32 (precision f)) in
               pad (padc f) w ;;; ret (Z.min w 0)
             else ret (width f)) in
  let! w := show p (precision f) w (altflag f) in
  pad 32 w.

Definition put_signed (ap : list arg) (base : Z) (f : flags) : M S (list arg) :=
  let! (num, ap) := getint ap (lflag f) in
  let! num := (if num <? 0 then putch 45 ;;; as_llong (- num) else ret num) in
  number_ num base f ;;; ret ap.

(** The conversion [ch]: the arguments it leaves, or None for an unrecognised
    one.  [printfmt] is the function that %e calls. *)
Definition convert (printfmt : list Z -> list arg -> M S unit) (ch : Z) (ap : list arg) (f : flags)
    : M S (option (list arg)) :=
  if ch =? 99 then
    let! (w, ap) := va_word ap in
    putch (s32 w) ;;; ret (Some ap)
  else if ch =? 101 then
    let! (w, ap) := va_word ap in
    let! err := as_int (Z.abs (s32 w)) in
    match (if MAXERROR <=? err then None else mjoin (error_string !! Z.to_nat err)) with
    | None => printfmt (bytes "error %d") [AInt err]
    | Some p => printfmt (bytes "%s") [AStr (Some p)]
    end ;;; ret (Some ap)
  else if ch =? 115 then
    let! (p, ap) := va_str ap in
    put_str (default (bytes "(null)") p) f ;;; ret (Some ap)
  else if ch =? 100 then
    let! ap := put_signed ap 10 f in ret (Some ap)
  else if ch =? 117 then
    let! (num, ap) := getuint ap (lflag f) in
    number_ num 10 f ;;; ret (Some ap)
  else if ch =? 111 then
    let! ap := put_signed ap 8 f in ret (Some ap)
  else if ch =? 112 then
    putch 48 ;;; putch 120 ;;;
    let! (num, ap) := va_word ap in
    number_ num 16 f ;;; ret (Some ap)
  else if ch =? 120 then
    let! (num, ap) := getuint ap (lflag f) in
    number_ num 16 f ;;; ret (Some ap)
  else if ch =? 37 then putch ch ;;; ret (Some ap)
  else ret None.

(** One character of the format, or one %-escape. *)
Definition vprintfmt_step (printfmt : list Z -> list arg -> M S unit) (st : list Z * list arg)
    : M S ((list Z * list arg) + unit) :=
  let '(fmt, ap) := st in
  match fmt with
  | [] => ret (inr tt)
  | ch :: fmt =>
      if negb (ch =? 37) then putch ch ;;; ret (inl (fmt, ap))
      else
        let! (ch, fmt', ap, f) := reswitch fmt ap in
        let! r := convert printfmt ch ap f in
        match r with
        | Some ap => ret (inl (fmt', ap))
        | None => putch 37 ;;; ret (inl (fmt, ap))
        end
  end.

Definition vprintfmt_with (printfmt : list Z -> list arg -> M S unit) (fmt : list Z) (ap : list arg) : M S unit :=
  loop (Datatypes.S (length fmt)) (vprintfmt_step printfmt) (fmt, ap).

(** The formats that %e prints with have no %e: the recursion has depth 2. *)
Definition printfmt : list Z -> list arg -> M S unit := vprintfmt_with (fun _ _ => undef).
Definition vprintfmt : list Z -> list arg -> M S unit := vprintfmt_with printfmt.
End vprintfmt.

(** ** Printing to memory *)

(** A call whose local structure [l] is visible to the functions it passes
    it to. *)
Definition with_local {S L A} (l : L) (m : M (S * L) A) : M S (A * L) := fun s =>
  match m (s, l) with
  | Ok a (s', l') => Ok (a, l') s'
  | Panic msg => Panic msg
  | Leave (s', _) => Leave s'
  | Undef => Undef
  | Diverge => Diverge
  end.

Record sprintbuf := mkSprintbuf { buf : Z; ebuf : Z; cnt : Z }.

Definition sprintputch (ch : Z) : M (gmap Z Z * sprintbuf) unit :=
  modify (fun '(m, b) =>
    if buf b <? ebuf b then (setb m (buf b) ch, mkSprintbuf (buf b + 1) (ebuf b) (cnt b + 1))
    else (m, mkSprintbuf (buf b) (ebuf b) (cnt b + 1))).

Definition vsnprintf (buf_ n : Z) (fmt : list Z) (ap : list arg) : M (gmap Z Z) Z :=
  if (buf_ =? 0) || (n <? 1) then ret (- E_INVAL)
  else
    let! (_, b) := with_local (mkSprintbuf buf_ (buf_ + n - 1) 0) (vprintfmt sprintputch fmt ap) in
    modify (fun m => setb m (buf b) 0) ;;;
    ret (cnt b).

(** ** Printing from user environments

    The state is the list of sys_cputs calls made so far, each the bytes that
    it was given. *)

Module Cprintf.
Record printbuf := mkPrintbuf { idx : Z; cnt : Z; buf : list Z }.

(** The bytes that [sys_cputs(b.buf, b.idx)] is given. *)
Definition cputs_arg (b : printbuf) : list Z := take (Z.to_nat (idx b)) (buf b).

Definition putch (ch : Z) : M (list (list Z) * printbuf) unit :=
  let! (_, b) := gets id in
  if (idx b <? 0) || (Z.of_nat (length (buf b)) <=? idx b) then undef
  else
    let b := mkPrintbuf (idx b + 1) (cnt b) (<[Z.to_nat (idx b) := u8 ch]> (buf b)) in
    if idx b =? 256 - 1 then
      modify (fun '(calls, _) => (calls ++ [cputs_arg b], mkPrintbuf 0 (cnt b + 1) (buf b)))
    else modify (fun '(calls, _) => (calls, mkPrintbuf (idx b) (cnt b + 1) (buf b))).

(** [junk] is the uninitialised array of 256 bytes. *)
Definition vcprintf (junk : list Z) (fmt : list Z) (ap : list arg) : M (list (list Z)) Z :=
  let! (_, b) := with_local (mkPrintbuf 0 0 junk) (vprintfmt putch fmt ap) in
  modify (fun calls => calls ++ [cputs_arg b]) ;;;
  ret (cnt b).
End Cprintf.

(** ** Printing to a file descriptor

    [write] is the function of lib/fd.c, with any effect. *)

Module Fprintf.
Record printbuf := mkPrintbuf { fd : Z; idx : Z; result : Z; error : Z; buf : list Z }.

Section fprintf.
Context {S : Type} (write : Z -> list Z -> M S Z).

Definition lift {L A} (m : M S A) : M (S * L) A := fun st =>
  let '(s, l) := st in
  match m s with
  | Ok a s' => Ok a (s', l)
  | Panic msg => Panic msg
  | Leave s' => Leave (s', l)
  | Undef => Undef
  | Diverge => Diverge
  end.

Definition writebuf : M (S * printbuf) unit :=
  let! (_, b) := gets id in
  if 0 <? error b then
    let! r := lift (write (fd b) (take (Z.to_nat (idx b)) (buf b))) in
    let result := if 0 <? r then result b + r else result b in
    let error := if r =? idx b then error b else if r <? 0 then r else 0 in
    modify (fun '(s, _) => (s, mkPrintbuf (fd b) (idx b) result error (buf b)))
  else ret tt.

Definition putch (ch : Z) : M (S * printbuf) unit :=
  let! (_, b) := gets id in
  if (idx b <? 0) || (Z.of_nat (length (buf b)) <=? idx b) then undef
  else
    modify (fun '(s, _) =>
      (s, mkPrintbuf (fd b) (idx b + 1) (result b) (error b) (<[Z.to_nat (idx b) := u8 ch]> (buf b)))) ;;;
    if idx b + 1 =? 256 then
      writebuf ;;;
      modify (fun '(s, b) => (s, mkPrintbuf (fd b) 0 (result b) (error b) (buf b)))
    else ret tt.

Definition vfprintf (junk : list Z) (fd : Z) (fmt : list Z) (ap : list arg) : M S Z :=
  let! (_, b) := with_local (mkPrintbuf fd 0 0 1 junk) (
      vprintfmt putch fmt ap ;;;
      let! (_, b) := gets id in
      if 0 <? idx b then writebuf else ret tt) in
  ret (if result b =? 0 then error b else result b).
End fprintf.
End Fprintf.

(** ** Printing from the kernel

    putch of kern/printf.c gets the address of the count; [*cnt++] reads it
    and advances putch's own copy of the address. *)

Module KernPrintf.
Section printf.
Context {S : Type} (cputchar : Z -> M S unit).

Definition putch (ch : Z) : M (S * Z) unit :=
  let! _ := Fprintf.lift (cputchar ch) in
  let! _ := gets (fun st => snd st) in
  ret tt.

Definition vcprintf (fmt : list Z) (ap : list arg) : M S Z :=
  let! (_, cnt) := with_local 0 (vprintfmt putch fmt ap) in
  ret cnt.
End printf.
End KernPrintf.
