(* ===== verification/PrintfmtOut.v ===== *)
(** * What the formatter prints

    [record] is the putch that only writes down what it is given.  [emits]
    relates a recorded run of code that prints to a run with another putch:
    the second does what calling its putch on the recorded characters does.
    The text of a format is thus a property of the format and its arguments. *)
From S2P Require Import Prelude Mem Mmu LibString LibStringThms Printfmt.

Definition record (c : Z) : M (list Z) unit := modify (fun o => o ++ [c]).

(** The format [fmt] with the arguments [ap] prints [o]. *)
Definition prints (fmt : list Z) (ap : list arg) (o : list Z) : Prop := vprintfmt record fmt ap [] = Ok tt o.

Definition emits {S A} (putch : Z -> M S unit) (r : M (list Z) A) (m : M S A) : Prop :=
  forall o a o', r o = Ok a o' -> exists l, o' = o ++ l /\ forall s, m s = (for_ l putch ;;; ret a) s.

Lemma for_app {S I} (f : I -> M S unit) l1 l2 s : for_ (l1 ++ l2) f s = (for_ l1 f ;;; for_ l2 f) s.
Proof.
  revert s. induction l1 as [|x l1 IH]; intros s; [done|]. simpl. unfold bind in *.
  destruct (f x s); [apply IH|done..].
Qed.

Create HintDb emits.

Section emits.
Context {S : Type} (putch : Z -> M S unit).
Local Notation emits := (emits putch).

Lemma emits_ret {A} (a : A) : emits (ret a) (ret a).
Proof. intros o x o' [= <- <-]. exists []. by rewrite app_nil_r. Qed.

Lemma emits_undef {A} : emits (undef : M _ A) undef.
Proof. intros o x o' [=]. Qed.

Lemma emits_diverge {A} : emits (fun _ => Diverge : out _ A) (fun _ => Diverge).
Proof. intros o x o' [=]. Qed.

Lemma emits_deref {A} (x : option A) : emits (deref x) (deref x).
Proof. destruct x; [apply emits_ret|apply emits_undef]. Qed.

Lemma emits_putch c : emits (record c) (putch c).
Proof.
  intros o [] o' [= <-]. exists [c]. split; [done|]. intros s. simpl. unfold bind, ret.
  by destruct (putch c s) as [[] ?| | | |].
Qed.

Lemma emits_bind {A B} (r : M (list Z) A) m (k : A -> M (list Z) B) k' :
  emits r m -> (forall a, emits (k a) (k' a)) -> emits (bind r k) (bind m k').
Proof.
  intros Hr Hk o b o'. unfold bind at 1. destruct (r o) as [a o1| | | |] eqn:E; try done. intros Ek.
  destruct (Hr _ _ _ E) as (l1 & -> & H1). destruct (Hk a _ _ _ Ek) as (l2 & -> & H2).
  exists (l1 ++ l2). split; [by rewrite app_assoc|]. intros s. unfold bind, ret in *. rewrite H1, for_app. unfold bind.
  destruct (for_ l1 putch s); [apply H2|done..].
Qed.

Lemma emits_for {I} (f : I -> M (list Z) unit) f' l :
  (forall i, emits (f i) (f' i)) -> emits (for_ l f) (for_ l f').
Proof. intros Hf. induction l as [|i l IH]; simpl; [apply emits_ret|]. by apply emits_bind. Qed.

Lemma emits_loop {A B} (f : A -> M (list Z) (A + B)) f' n :
  (forall a, emits (f a) (f' a)) -> forall a, emits (loop n f a) (loop n f' a).
Proof.
  intros Hf. induction n as [|n IH]; intros a; simpl; [apply emits_diverge|].
  apply emits_bind; [done|]. intros [a'|b]; [apply IH|apply emits_ret].
Qed.
End emits.

#[export] Hint Resolve emits_ret emits_undef emits_diverge emits_deref emits_putch : emits.

Ltac emit_steps :=
  repeat (cbv zeta; match goal with
  | |- forall _, _ => intro
  | |- emits _ (bind _ _) _ => apply emits_bind
  | |- emits _ (for_ _ _) _ => apply emits_for
  | |- emits _ (loop _ _ _) _ => apply emits_loop
  | |- emits _ (match ?x with _ => _ end) _ => destruct x
  | |- emits _ _ _ => solve [eauto with emits nocore]
  end).

Section vprintfmt.
Context {S : Type} (putch : Z -> M S unit).

Lemma emits_as_int x : emits putch (as_int x) (as_int x).
Proof. unfold as_int. emit_steps. Qed.
Lemma emits_as_llong x : emits putch (as_llong x) (as_llong x).
Proof. unfold as_llong. emit_steps. Qed.
Lemma emits_va_word ap : emits putch (va_word ap) (va_word ap).
Proof. unfold va_word. emit_steps. Qed.
Lemma emits_va_str ap : emits putch (va_str ap) (va_str ap).
Proof. unfold va_str. emit_steps. Qed.
Hint Resolve emits_as_int emits_as_llong emits_va_word emits_va_str : emits.

Lemma emits_getuint ap l : emits putch (getuint ap l) (getuint ap l).
Proof. unfold getuint. emit_steps. Qed.
Lemma emits_getint ap l : emits putch (getint ap l) (getint ap l).
Proof. unfold getint. emit_steps. Qed.

Lemma emits_pad c n : emits putch (pad record c n) (pad putch c n).
Proof. unfold pad. emit_steps. Qed.
Hint Resolve emits_getuint emits_getint emits_pad : emits.

Lemma emits_printnum fuel : forall num base w c,
  emits putch (printnum record fuel num base w c) (printnum putch fuel num base w c).
Proof. induction fuel as [|fuel IH]; intros; cbn [printnum]; emit_steps. Qed.

Lemma emits_read_width fmt : forall ch p, emits putch (read_width fmt ch p) (read_width fmt ch p).
Proof. induction fmt as [|c fmt IH]; intros; cbn [read_width]; emit_steps. Qed.

Lemma emits_show p : forall prec w alt, emits putch (show record p prec w alt) (show putch p prec w alt).
Proof. induction p as [|c p IH]; intros; cbn [show]; emit_steps. Qed.
Hint Resolve emits_printnum emits_read_width emits_show : emits.

Lemma emits_reswitch fmt ap : emits putch (reswitch fmt ap) (reswitch fmt ap).
Proof. unfold reswitch. emit_steps. Qed.

Lemma emits_put_signed ap base f : emits putch (put_signed record ap base f) (put_signed putch ap base f).
Proof. unfold put_signed, number_. emit_steps. Qed.

Lemma emits_put_str p f : emits putch (put_str record p f) (put_str putch p f).
Proof. unfold put_str. emit_steps. Qed.
Hint Resolve emits_reswitch emits_put_signed emits_put_str : emits.

Lemma emits_with pf pf' :
  (forall fmt ap, emits putch (pf fmt ap) (pf' fmt ap)) ->
  forall fmt ap, emits putch (vprintfmt_with record pf fmt ap) (vprintfmt_with putch pf' fmt ap).
Proof.
  intros Hpf fmt ap. unfold vprintfmt_with. apply emits_loop. intros [f a]. unfold vprintfmt_step. destruct f as [|ch f]; [emit_steps|].
  case_match; [emit_steps|]. apply emits_bind; [emit_steps|]. intros [[[ch' fmt'] ap'] fl].
  apply emits_bind; [|emit_steps]. unfold convert, number_. emit_steps.
Qed.

Lemma vprintfmt_emits fmt ap : emits putch (vprintfmt record fmt ap) (vprintfmt putch fmt ap).
Proof. apply emits_with. apply emits_with. emit_steps. Qed.

(** Formatting is calling putch on the characters that the format prints. *)
Lemma vprintfmt_out fmt ap o : prints fmt ap o -> forall s, vprintfmt putch fmt ap s = for_ o putch s.
Proof.
  intros Hp s. destruct (vprintfmt_emits fmt ap [] tt o Hp) as (l & -> & Hl). rewrite Hl. simpl.
  unfold bind, ret. by destruct (for_ l putch s) as [[] ?| | | |].
Qed.
End vprintfmt.

(** ** The parts of the state that putch leaves alone *)

Section keeps.
Context {S C : Type} (p : S -> C) (putch : Z -> M S unit) (Hputch : forall c, keeps p (putch c)).

Lemma keeps_diverge {A} : keeps p (fun _ => Diverge : out S A).
Proof. by intros s a s' [=]. Qed.
Hint Resolve Hputch keeps_diverge : keeps.

Lemma keeps_printnum fuel : forall num base w c, keeps p (printnum putch fuel num base w c).
Proof. induction fuel as [|fuel IH]; intros; cbn [printnum]; unfold pad; keep_steps. Qed.

Lemma keeps_read_width fmt : forall ch pr, keeps p (read_width fmt ch pr).
Proof. induction fmt as [|c fmt IH]; intros; cbn [read_width]; unfold as_int; keep_steps. Qed.

Lemma keeps_show s : forall prec w alt, keeps p (show putch s prec w alt).
Proof. induction s as [|c s IH]; intros; cbn [show]; keep_steps. Qed.
Hint Resolve keeps_printnum keeps_read_width keeps_show : keeps.

Lemma keeps_with pf : (forall fmt ap, keeps p (pf fmt ap)) -> forall fmt ap, keeps p (vprintfmt_with putch pf fmt ap).
Proof.
  intros Hpf fmt ap. unfold vprintfmt_with. apply keeps_loop. intros [f a]. unfold vprintfmt_step. destruct f as [|ch f]; [keep_steps|].
  case_match; [keep_steps|]. apply keeps_bind; [unfold reswitch, va_word; keep_steps|]. intros [[[ch' fmt'] ap'] fl].
  apply keeps_bind; [|keep_steps].
  unfold convert, put_signed, put_str, number_, getint, getuint, va_word, va_str, as_int, as_llong, pad. keep_steps.
Qed.

Lemma keeps_vprintfmt fmt ap : keeps p (vprintfmt putch fmt ap).
Proof. apply keeps_with. apply keeps_with. keep_steps. Qed.
End keeps.

(** ** Numbers *)

(** [cs] is the text of [num] in [base]. *)
Definition numeral (base num : Z) (cs ds : list Z) : Prop :=
  cs <> [] /\ Forall2 (fun c d => digit c = Some d /\ d < base) cs ds /\ number base 0 ds = num.

Lemma digit_char d : 0 <= d < 16 -> exists c, bytes "0123456789abcdef" !! Z.to_nat d = Some c /\ digit c = Some d.
Proof.
  intros Hd. assert (d ∈ seqZ 0 16) as Hin by (apply elem_of_seqZ; lia).
  assert (Forall (fun d => (c ← bytes "0123456789abcdef" !! Z.to_nat d; digit c) = Some d) (seqZ 0 16)) as HF
    by (vm_compute; repeat constructor).
  rewrite Forall_forall in HF. specialize (HF d Hin). apply bind_Some in HF as (c & Hc & Hd'). eauto.
Qed.

Lemma number_snoc base v ds d : number base v (ds ++ [d]) = number base v ds * base + d.
Proof. unfold number. by rewrite fold_left_app. Qed.

Lemma for_record l o : for_ l record o = Ok tt (o ++ l).
Proof.
  revert o. induction l as [|c l IH]; intros o; simpl; [by rewrite app_nil_r|].
  unfold bind, record at 1, modify. rewrite IH. by rewrite <- app_assoc.
Qed.

(** A number of at most [k] digits: its numeral, right-aligned in the field. *)
Lemma printnum_text base : 2 <= base <= 16 -> forall k fuel num w c o,
  (1 <= k <= fuel)%nat -> 0 <= num < base ^ Z.of_nat k ->
  exists cs ds, numeral base num cs ds /\ (length cs <= k)%nat /\
    printnum record fuel num base w c o =
      Ok tt (o ++ replicate (Z.to_nat (w - Z.of_nat (length cs))) c ++ cs).
Proof.
  intros Hb k. induction k as [|k IH]; intros fuel num w c o Hk Hn; [lia|].
  destruct fuel as [|fuel]; [lia|]. cbn [printnum].
  destruct (digit_char (num `mod` base)) as (ch & Hch & Hdig); [pose proof (Z.mod_pos_bound num base); lia|].
  rewrite Hch. destruct (Z.leb_spec base num).
  - assert (k <> O) as Hk0 by (intros ->; simpl in Hn; lia).
    destruct (IH fuel (num / base) (w - 1) c o) as (cs & ds & (Hne & H2 & Hv) & Hlen & Hrun); [lia| |].
    { split; [apply Z.div_pos; lia|]. apply Z.div_lt_upper_bound; [lia|].
      rewrite <- Z.pow_succ_r by lia. rewrite <- Nat2Z.inj_succ. apply Hn. }
    exists (cs ++ [ch]), (ds ++ [num `mod` base]).
    assert (num = base * (num / base) + num `mod` base) as Hdm by (apply Z.div_mod; lia).
    split; [split; [by destruct cs|split]|split].
    + apply Forall2_app; [done|]. constructor; [|constructor]. split; [done|]. apply Z.mod_pos_bound; lia.
    + rewrite number_snoc, Hv. lia.
    + rewrite length_app. simpl. lia.
    + unfold bind. rewrite Hrun. cbn [deref]. unfold ret, record, modify. rewrite length_app. cbn [length].
      replace (w - 1 - Z.of_nat (length cs)) with (w - Z.of_nat (length cs + 1)) by lia. by rewrite <- !app_assoc.
  - rewrite Z.mod_small in * by lia. exists [ch], [num]. split; [split; [done|split]|split].
    + constructor; [split; [done|lia]|constructor].
    + unfold number. simpl. lia.
    + simpl. lia.
    + unfold bind, pad. rewrite for_record. cbn [deref]. unfold ret, record, modify. cbn [length]. by rewrite <- app_assoc.
Qed.

(** ** A run of [vprintfmt] on a format that is one conversion *)

Lemma vprintfmt_conv {S} (putch : Z -> M S unit) fmt ap ch ap' f s ap2 s' :
  reswitch fmt ap s = Ok (ch, [], ap', f) s -> convert putch (printfmt putch) ch ap' f s = Ok (Some ap2) s' ->
  vprintfmt putch (37 :: fmt) ap s = Ok tt s'.
Proof.
  intros Hr Hc.
  assert (vprintfmt_step putch (printfmt putch) (37 :: fmt, ap) s = Ok (inl ([], ap2)) s') as Hstep.
  { unfold vprintfmt_step. change (negb (37 =? 37)) with false. cbv iota. unfold bind. rewrite Hr. by rewrite Hc. }
  unfold vprintfmt, vprintfmt_with. cbn [length loop]. unfold bind. by rewrite Hstep.
Qed.

Lemma prints_d v : - 2^31 <= v < 2^31 -> exists cs ds, numeral 10 (Z.abs v) cs ds /\ (length cs <= 10)%nat /\
  prints (bytes "%d") [AInt v] ((if v <? 0 then [45] else []) ++ cs).
Proof.
  intros Hv. assert (s32 (u32 v) = v) as Hs.
  { unfold s32. rewrite u32_idemp. change (s32 v = v). by apply s32_small. }
  destruct (printnum_text 10 ltac:(lia) 10 64 (Z.abs v) (-1) 32 (if v <? 0 then [45] else [])) as
    (cs & ds & Hn & Hl & Hrun); [lia|lia|]. exists cs, ds. split; [done|]. split; [done|].
  rewrite (Z2Nat.nonpos (-1 - _)) in Hrun by lia. change (replicate 0 32) with (@nil Z) in Hrun. rewrite app_nil_l in Hrun.
  apply (vprintfmt_conv record [100] [AInt v] 100 [AInt v] flags0 [] []); [done|].
  change (convert record (printfmt record) 100 [AInt v] flags0) with
    (let! ap := put_signed record [AInt v] 10 flags0 in ret (Some ap)).
  unfold put_signed, number_, getint. cbn -[printnum as_llong s32 u32 record]. unfold bind, ret. rewrite Hs.
  destruct (Z.ltb_spec v 0).
  - unfold record at 1, modify, as_llong. rewrite Z.abs_neq in Hrun by lia.
    assert ((- 2^63 <=? - v) && (- v <? 2^63) = true) as -> by (apply andb_true_intro; lia). unfold ret. cbn [app width padc flags0]. by rewrite Hrun.
  - rewrite Z.abs_eq in Hrun by lia. cbn [width padc flags0]. by rewrite Hrun.
Qed.

(** ** Buffers *)

Lemma for_sprintputch o : forall m b e c, b <= e ->
  let k := Nat.min (Z.to_nat (e - b)) (length o) in
  for_ o sprintputch (m, mkSprintbuf b e c) =
    Ok tt (put_bytes m b (take k o), mkSprintbuf (b + Z.of_nat k) e (c + Z.of_nat (length o))).
Proof.
  induction o as [|x o IH]; intros m b e c Hb; cbv zeta.
  { cbn [length]. rewrite Nat.min_0_r. cbn. by rewrite !Z.add_0_r. }
  cbn [for_ length]. unfold bind, sprintputch at 1, modify. cbn [buf ebuf cnt]. destruct (Z.ltb_spec b e).
  - rewrite IH by lia. replace (Nat.min (Z.to_nat (e - b)) (S (length o)))
      with (S (Nat.min (Z.to_nat (e - (b + 1))) (length o))) by lia.
    cbn [take put_bytes]. f_equal. f_equal. f_equal; lia.
  - rewrite IH by lia. rewrite !(Z2Nat.nonpos (e - b)) by lia. cbn [Nat.min take put_bytes]. f_equal. f_equal. f_equal; lia.
Qed.

Lemma vsnprintf_ok b n fmt ap o m : b <> 0 -> 1 <= n -> prints fmt ap o ->
  let k := Nat.min (Z.to_nat (n - 1)) (length o) in
  vsnprintf b n fmt ap m = Ok (Z.of_nat (length o)) (setb (put_bytes m b (take k o)) (b + Z.of_nat k) 0).
Proof.
  intros Hb Hn Hp. cbv zeta. unfold vsnprintf.
  assert ((b =? 0) || (n <? 1) = false) as -> by (apply orb_false_intro; [apply Z.eqb_neq|]; lia).
  unfold bind at 1, with_local. rewrite (vprintfmt_out _ _ _ _ Hp), for_sprintputch by lia.
  cbn. by replace (b + n - 1 - b) with (n - 1) by lia.
Qed.

(** lib/printf.c: what the calls made so far and the buffer hold. *)
Definition pending (calls : list (list Z)) (b : Cprintf.printbuf) : list Z :=
  concat calls ++ take (Z.to_nat (Cprintf.idx b)) (Cprintf.buf b).

Definition buf_ok (b : Cprintf.printbuf) : Prop := 0 <= Cprintf.idx b < 255 /\ length (Cprintf.buf b) = 256%nat.

Lemma take_insert_snoc (l : list Z) i x : (i < length l)%nat -> take (S i) (<[i := x]> l) = take i l ++ [x].
Proof.
  intros Hi. rewrite (take_S_r _ _ x); [|by apply list_lookup_insert_eq]. by rewrite take_insert_ge by lia.
Qed.

(** From [(calls, b)] to [(calls', b')] the bytes [l] were printed. *)
Definition printed (l : list Z) (st st' : list (list Z) * Cprintf.printbuf) : Prop :=
  buf_ok st'.2 /\ Forall (fun c => length c = 255%nat) st'.1 /\ pending st'.1 st'.2 = pending st.1 st.2 ++ l /\
  Cprintf.cnt st'.2 = Cprintf.cnt st.2 + Z.of_nat (length l).

Lemma putch_run x calls b : buf_ok b -> Forall (fun c => length c = 255%nat) calls ->
  exists st', Cprintf.putch x (calls, b) = Ok tt st' /\ printed [u8 x] (calls, b) st'.
Proof.
  destruct b as [i n bf]. intros [Hi Hl] Hc. unfold Cprintf.putch, bind, gets. cbn [id].
  cbn [Cprintf.idx Cprintf.buf Cprintf.cnt] in *.
  destruct (Z.ltb_spec i 0); [lia|]. destruct (Z.leb_spec (Z.of_nat (length bf)) i); [lia|]. cbn [orb].
  assert (take (Z.to_nat (i + 1)) (<[Z.to_nat i := u8 x]> bf) = take (Z.to_nat i) bf ++ [u8 x]) as Ht.
  { replace (Z.to_nat (i + 1)) with (S (Z.to_nat i)) by lia. apply take_insert_snoc. lia. }
  change (256 - 1) with 255. unfold modify, Cprintf.cputs_arg. cbn [Cprintf.idx Cprintf.buf Cprintf.cnt].
  destruct (Z.eqb_spec (i + 1) 255); (eexists; split; [done|]); unfold printed, buf_ok, pending;
    cbn [fst snd Cprintf.idx Cprintf.buf Cprintf.cnt]; rewrite Ht, length_insert.
  - rewrite take_0, app_nil_r, concat_app. cbn [concat]. rewrite app_nil_r, <- app_assoc.
    repeat split; try done. apply Forall_app. split; [done|]. constructor; [|done].
    rewrite length_app, length_take. simpl. lia.
  - rewrite app_assoc. repeat split; try done; lia.
Qed.

Lemma for_putch o : forall calls b, buf_ok b -> Forall (fun c => length c = 255%nat) calls ->
  exists st', for_ o Cprintf.putch (calls, b) = Ok tt st' /\ printed (u8 <$> o) (calls, b) st'.
Proof.
  induction o as [|x o IH]; intros calls b Hb Hc.
  { eexists. split; [done|]. unfold printed. rewrite app_nil_r. cbn. rewrite Z.add_0_r. exact (conj Hb (conj Hc (conj eq_refl eq_refl))). }
  destruct (putch_run x calls b Hb Hc) as ([calls1 b1] & Hrun & Hb1 & Hc1 & Hp1 & Hn1).
  destruct (IH calls1 b1 Hb1 Hc1) as (st' & Hrun' & Hb' & Hc' & Hp' & Hn'). exists st'. split.
  - cbn [for_]. unfold bind. by rewrite Hrun.
  - cbn [fst snd] in *. split; [done|]. split; [done|]. cbn [fst snd fmap list_fmap length].
    rewrite Hp', Hp1, Hn', Hn1, <- app_assoc. split; [done|]. cbn [length]. lia.
Qed.

Lemma vcprintf_ok junk fmt ap o : length junk = 256%nat -> prints fmt ap o ->
  exists calls last, Cprintf.vcprintf junk fmt ap [] = Ok (Z.of_nat (length o)) (calls ++ [last]) /\
    Forall (fun c => length c = 255%nat) calls /\ (length last < 255)%nat /\ concat calls ++ last = (u8 <$> o).
Proof.
  intros Hj Hp. destruct (for_putch o [] (Cprintf.mkPrintbuf 0 0 junk)) as ([calls b] & Hrun & [Hi Hl] & Hc & Hpend & Hn).
  { split; [done|exact Hj]. } { constructor. }
  exists calls, (Cprintf.cputs_arg b). unfold Cprintf.vcprintf, bind, with_local. rewrite (vprintfmt_out _ _ _ _ Hp), Hrun.
  cbn [fst snd Cprintf.cnt] in *. rewrite Hn, length_fmap, Z.add_0_l. split; [done|]. split; [done|].
  split; [|exact Hpend]. unfold Cprintf.cputs_arg. rewrite length_take. lia.
Qed.

(** lib/fprintf.c, over a write that takes all it is given. *)
Section fprintf.
Context {S : Type} (write : Z -> list Z -> M S Z) (log : S -> list Z -> S) (fd : Z) (s0 : S).
Context (Hwrite : forall l s, write fd l s = Ok (Z.of_nat (length l)) (log s l)).

(** [l] was printed: the writes made are [chunks], the rest is in the buffer. *)
Definition fprinted (l : list Z) (st : S * Fprintf.printbuf) : Prop := exists chunks i bf,
  st = (fold_left log chunks s0, Fprintf.mkPrintbuf fd i (Z.of_nat (length (concat chunks))) 1 bf) /\
  0 <= i < 256 /\ length bf = 256%nat /\ concat chunks ++ take (Z.to_nat i) bf = l.

Lemma writebuf_run chunks i bf : 0 <= i <= 256 -> length bf = 256%nat ->
  let chunks' := chunks ++ [take (Z.to_nat i) bf] in
  Fprintf.writebuf write (fold_left log chunks s0, Fprintf.mkPrintbuf fd i (Z.of_nat (length (concat chunks))) 1 bf) =
    Ok tt (fold_left log chunks' s0, Fprintf.mkPrintbuf fd i (Z.of_nat (length (concat chunks'))) 1 bf).
Proof.
  intros Hi Hl. cbv zeta. unfold Fprintf.writebuf, bind at 1, gets. cbn [id Fprintf.error]. change (0 <? 1) with true.
  unfold bind, Fprintf.lift. cbn [Fprintf.fd Fprintf.idx Fprintf.buf Fprintf.result]. cbv iota. rewrite Hwrite.
  assert (Z.of_nat (length (take (Z.to_nat i) bf)) = i) as -> by (rewrite length_take; lia).
  rewrite Z.eqb_refl, fold_left_app, concat_app, length_app. unfold modify. cbn [concat fold_left]. do 2 f_equal.
  f_equal. rewrite app_nil_r, length_take. destruct (Z.ltb_spec 0 i); lia.
Qed.

Lemma fputch_run x l st : fprinted l st ->
  exists st', Fprintf.putch write x st = Ok tt st' /\ fprinted (l ++ [u8 x]) st'.
Proof.
  intros (chunks & i & bf & -> & Hi & Hl & <-). unfold Fprintf.putch, bind at 1, gets.
  cbn [id Fprintf.idx Fprintf.buf Fprintf.fd Fprintf.result Fprintf.error].
  destruct (Z.ltb_spec i 0); [lia|]. destruct (Z.leb_spec (Z.of_nat (length bf)) i); [lia|]. cbn [orb].
  assert (take (Z.to_nat (i + 1)) (<[Z.to_nat i := u8 x]> bf) = take (Z.to_nat i) bf ++ [u8 x]) as Ht.
  { replace (Z.to_nat (i + 1)) with (Datatypes.S (Z.to_nat i)) by lia. apply take_insert_snoc. lia. }
  unfold bind at 1, modify at 1. destruct (Z.eqb_spec (i + 1) 256).
  - unfold bind. rewrite writebuf_run by (rewrite ?length_insert; lia).
    unfold modify. cbn [Fprintf.idx Fprintf.buf Fprintf.fd Fprintf.result Fprintf.error]. eexists. split; [done|].
    eexists (chunks ++ [_]), 0, _. split; [reflexivity|]. split; [lia|]. rewrite length_insert. split; [done|].
    rewrite Ht, take_0, app_nil_r, concat_app. cbn [concat]. by rewrite app_nil_r, app_assoc.
  - eexists. split; [done|]. eexists chunks, (i + 1), _. split; [reflexivity|]. split; [lia|].
    rewrite length_insert, Ht, app_assoc. done.
Qed.

Lemma for_fputch o : forall l st, fprinted l st ->
  exists st', for_ o (Fprintf.putch write) st = Ok tt st' /\ fprinted (l ++ (u8 <$> o)) st'.
Proof.
  induction o as [|x o IH]; intros l st Hst; [exists st; by rewrite app_nil_r|].
  destruct (fputch_run x l st Hst) as (st1 & Hrun & H1). destruct (IH _ _ H1) as (st' & Hrun' & H').
  exists st'. rewrite <- app_assoc in H'. split; [|done]. cbn [for_]. unfold bind. by rewrite Hrun.
Qed.

Lemma vfprintf_ok junk fmt ap o : length junk = 256%nat -> prints fmt ap o ->
  exists chunks, Fprintf.vfprintf write junk fd fmt ap s0 =
      Ok (if decide (o = []) then 1 else Z.of_nat (length o)) (fold_left log chunks s0) /\
    concat chunks = (u8 <$> o).
Proof.
  intros Hj Hp. destruct (for_fputch o [] (s0, Fprintf.mkPrintbuf fd 0 0 1 junk)) as (st & Hrun & Hst).
  { by exists [], 0, junk. }
  destruct Hst as (chunks & i & bf & -> & Hi & Hl & Hc). cbn [app] in Hc.
  assert (exists chunks', concat chunks' = (u8 <$> o) /\
    (if 0 <? i then Fprintf.writebuf write else ret tt)
      (fold_left log chunks s0, Fprintf.mkPrintbuf fd i (Z.of_nat (length (concat chunks))) 1 bf) =
    Ok tt (fold_left log chunks' s0, Fprintf.mkPrintbuf fd i (Z.of_nat (length (concat chunks'))) 1 bf)) as (chunks' & Hc' & Hw).
  { destruct (Z.ltb_spec 0 i).
    - exists (chunks ++ [take (Z.to_nat i) bf]). rewrite writebuf_run by lia. split; [|done].
      rewrite concat_app. cbn [concat]. by rewrite app_nil_r.
    - exists chunks. split; [|done]. assert (i = 0) as -> by lia. by rewrite take_0, app_nil_r in Hc. }
  exists chunks'. split; [|done]. unfold Fprintf.vfprintf, bind at 1, with_local. unfold bind at 1.
  rewrite (vprintfmt_out _ _ _ _ Hp), Hrun. unfold bind at 1, gets. cbn [id Fprintf.idx]. rewrite Hw.
  cbn [Fprintf.result Fprintf.error]. rewrite Hc', length_fmap. unfold ret. f_equal.
  destruct o as [|x o]; [done|]. rewrite decide_False by done. by destruct (Z.eqb_spec (Z.of_nat (length (x :: o))) 0).
Qed.
End fprintf.

(** ** The memory after vsnprintf *)

Lemma vsnprintf_mem m b n (o : list Z) : 1 <= n ->
  let k := Nat.min (Z.to_nat (n - 1)) (length o) in
  let m' := setb (put_bytes m b (take k o)) (b + Z.of_nat k) 0 in
  text m' b ((u8 <$> take k o) ++ [0]) /\ forall a, a < b \/ b + n <= a -> getb m' a = getb m a.
Proof.
  intros Hn. cbv zeta. set (k := Nat.min _ _).
  assert (length (take k o) = k) as Hk by (rewrite length_take; lia). split.
  - intros i c Hi. rewrite lookup_app in Hi. rewrite list_lookup_fmap in Hi.
    destruct (take k o !! i) as [x|] eqn:E; cbn in Hi.
    + injection Hi as <-. pose proof (lookup_lt_Some _ _ _ E). rewrite getb_setb_ne by lia. by apply getb_put_bytes_in.
    + apply lookup_ge_None in E. rewrite length_fmap, Hk in Hi. apply list_lookup_singleton_Some in Hi as [Hi <-].
      replace (b + Z.of_nat i) with (b + Z.of_nat k) by lia. apply getb_setb_eq.
  - intros a Ha. rewrite getb_setb_ne by lia. apply getb_put_bytes_out. rewrite Hk. lia.
Qed.

Lemma digit_byte c d : digit c = Some d -> u8 c = c.
Proof.
  unfold digit, u8. intros H. apply Z.mod_small.
  destruct (Z.leb_spec 48 c), (Z.leb_spec c 57), (Z.leb_spec 97 c), (Z.leb_spec c 122), (Z.leb_spec 65 c), (Z.leb_spec c 90);
    simpl in H; (done || lia).
Qed.

Lemma fmap_u8_numeral base neg cs ds :
  Forall2 (fun c d => digit c = Some d /\ d < base) cs ds -> u8 <$> (sign_text neg ++ cs) = sign_text neg ++ cs.
Proof.
  intros H2. rewrite fmap_app. f_equal; [by destruct neg as [[]|]|].
  induction H2 as [|c d cs ds [Hd _] _ IH]; [done|]. rewrite fmap_cons, IH. f_equal. by eapply digit_byte.
Qed.

(** kern/printf.c: putch leaves the counter alone. *)
Lemma keeps_kputch {S} (cputchar : Z -> M S unit) c : keeps snd (KernPrintf.putch cputchar c).
Proof.
  unfold KernPrintf.putch. keep_steps. intros [s n] a [s' n'] E. unfold Fprintf.lift in E.
  destruct (cputchar c s); try done. by injection E as _ _ <-.
Qed.
