(* ===== verification/Kdebug.v ===== *)
(** * kern/kdebug.c: finding the source position of an instruction

    The symbol table is the list of its entries, the string table the list of
    its bytes; an index outside of them is undefined behaviour.  The state is
    the structure that debuginfo_eip fills in. *)
From S2P Require Import Prelude Mmu.

(** inc/stab.h *)
Record Stab := mkStab { n_strx : Z; n_type : Z; n_other : Z; n_desc : Z; n_value : Z }.

Definition N_FUN : Z := 0x24.
Definition N_SLINE : Z := 0x44.
Definition N_SO : Z := 0x64.
Definition N_SOL : Z := 0x84.
Definition N_PSYM : Z := 0xa0.

(** kern/kdebug.h.  A name is an offset in the string table, or the constant
    string of the initialisation. *)
Inductive dname := Unknown | At (strx : Z).
Record Eipdebuginfo := mkInfo {
  eip_file : dname; eip_line : Z; eip_fn_name : dname; eip_fn_namelen : Z; eip_fn_addr : Z; eip_fn_narg : Z }.

Definition D := M Eipdebuginfo.

Definition get_stab (stabs : list Stab) (i : Z) : D Stab :=
  if i <? 0 then undef else deref (stabs !! Z.to_nat i).

(** [while (m >= l && stabs[m].n_type != type) m--;] *)
Definition back_to (stabs : list Stab) (type l m : Z) : D Z :=
  loop (S (Z.to_nat (m - l + 1))) (fun m =>
    if l <=? m then
      let! sm := get_stab stabs m in
      if n_type sm =? type then ret (inr m) else ret (inl (m - 1))
    else ret (inr m)) m.

(** Returns the new *region_left and *region_right. *)
Definition stab_binsearch (stabs : list Stab) (region_left region_right type addr : Z) : D (Z * Z) :=
  let! st := loop (S (Z.to_nat (2 * (region_right - region_left) + 3))) (fun st =>
    let '(l, r, rl, rr, any_matches, addr) := st in
    if l <=? r then
      let true_m := Z.quot (l + r) 2 in
      let! m := back_to stabs type l true_m in
      if m <? l then ret (inl (true_m + 1, r, rl, rr, any_matches, addr))
      else
        let! sm := get_stab stabs m in
        if n_value sm <? addr then ret (inl (true_m + 1, r, m, rr, true, addr))
        else if addr <? n_value sm then ret (inl (l, m - 1, rl, m - 1, true, addr))
        else ret (inl (m, r, m, rr, true, u32 (addr + 1)))
    else ret (inr (rl, rr, any_matches)))
    (region_left, region_right, region_left, region_right, false, addr) in
  let '(rl, rr, any_matches) := st in
  if negb any_matches then ret (rl, rl - 1)
  else
    let! l := loop (S (Z.to_nat (rr - rl + 1))) (fun l =>
      if rl <? l then
        let! s := get_stab stabs l in
        if n_type s =? type then ret (inr l) else ret (inl (l - 1))
      else ret (inr l)) rr in
    ret (l, rr).

Definition set_file v i := mkInfo v (eip_line i) (eip_fn_name i) (eip_fn_namelen i) (eip_fn_addr i) (eip_fn_narg i).
Definition set_line v i := mkInfo (eip_file i) v (eip_fn_name i) (eip_fn_namelen i) (eip_fn_addr i) (eip_fn_narg i).
Definition set_fn_name v i := mkInfo (eip_file i) (eip_line i) v (eip_fn_namelen i) (eip_fn_addr i) (eip_fn_narg i).
Definition set_fn_namelen v i := mkInfo (eip_file i) (eip_line i) (eip_fn_name i) v (eip_fn_addr i) (eip_fn_narg i).
Definition set_fn_addr v i := mkInfo (eip_file i) (eip_line i) (eip_fn_name i) (eip_fn_namelen i) v (eip_fn_narg i).
Definition set_fn_narg v i := mkInfo (eip_file i) (eip_line i) (eip_fn_name i) (eip_fn_namelen i) (eip_fn_addr i) v.

(** [strfind(name, ':') - name] for a name in the string table, whose last
    byte is zero. *)
Fixpoint until_colon (l : list Z) : Z :=
  match l with
  | [] => 0
  | c :: l' => if (c =? 0) || (c =? 58) then 0 else 1 + until_colon l'
  end.
Definition name_len (stabstr : list Z) (n : dname) : Z :=
  match n with
  | Unknown => 9
  | At off => until_colon (drop (Z.to_nat off) stabstr)
  end.

(** The tables of the kernel and of the running program are arguments: a pair
    of the entries and the bytes of the strings. *)
Definition debuginfo_eip (kern user : list Stab * list Z) (addr : Z) : D Z :=
  modify (fun _ => mkInfo Unknown 0 Unknown 9 addr 0) ;;;
  let '(stabs, stabstr) := if ULIM <=? addr then kern else user in
  let strsize := Z.of_nat (length stabstr) in
  if (strsize <=? 0) || negb (default 1 (last stabstr) =? 0) then ret (-1)
  else
    let! f := stab_binsearch stabs 0 (Z.of_nat (length stabs) - 1) N_SO addr in
    let '(lfile, rfile) := f in
    if lfile =? 0 then ret (-1)
    else
      let! f := stab_binsearch stabs lfile rfile N_FUN addr in
      let '(lfun, rfun) := f in
      let! w :=
        (if lfun <=? rfun then
           let! s := get_stab stabs lfun in
           (if n_strx s <? strsize then modify (set_fn_name (At (n_strx s))) else ret tt) ;;;
           modify (set_fn_addr (n_value s)) ;;;
           ret (u32 (addr - n_value s), lfun, rfun)
         else
           modify (set_fn_addr addr) ;;;
           ret (addr, lfile, rfile)) in
      let '(addr, lline, rline) := w in
      modify (fun i => set_fn_namelen (name_len stabstr (eip_fn_name i)) i) ;;;
      let! fa := gets eip_fn_addr in
      let! o := stab_binsearch stabs lline rline N_SOL
        (u32 ((if (lline =? lfile) && (rline =? rfile) then 0 else addr) + fa)) in
      let '(olline, orline) := o in
      let! w :=
        (if orline <? olline then
           let! p := stab_binsearch stabs lline rline N_SLINE addr in
           let '(lline, rline) := p in
           if rline <? lline then ret None else ret (Some lline)
         else ret (Some lline)) in
      match w with
      | None => ret (-1)
      | Some lline =>
          let! s := get_stab stabs lline in
          modify (set_line (n_desc s)) ;;;
          let! lline := loop (S (Z.to_nat (lline - lfile + 1))) (fun lline =>
            if lfile <=? lline then
              let! s := get_stab stabs lline in
              if negb (n_type s =? N_SOL) && (negb (n_type s =? N_SO) || (n_value s =? 0))
              then ret (inl (lline - 1)) else ret (inr lline)
            else ret (inr lline)) lline in
          (if lfile <=? lline then
             let! s := get_stab stabs lline in
             if n_strx s <? strsize then modify (set_file (At (n_strx s))) else ret tt
           else ret tt) ;;;
          (if lfun <? rfun then
             loop (Z.to_nat (rfun - lfun + 1)) (fun lline =>
               if lline <? rfun then
                 let! s := get_stab stabs lline in
                 if n_type s =? N_PSYM then
                   modify (fun i => set_fn_narg (eip_fn_narg i + 1) i) ;;;
                   ret (inl (lline + 1))
                 else ret (inr tt)
               else ret (inr tt)) (lfun + 1)
           else ret tt) ;;;
          ret 0
      end.

(** ** What the binary search computes *)

Section search.
Context (stabs : list Stab) (type : Z).

(** Entry [i] has the type; its value is at most [a]. *)
Definition is_type (i : Z) : Prop := 0 <= i /\ exists s, stabs !! Z.to_nat i = Some s /\ n_type s = type.
Definition value (i : Z) : Z := match stabs !! Z.to_nat i with Some s => n_value s | None => 0 end.

Definition in_table (lo hi : Z) : Prop := 0 <= lo /\ hi < Z.of_nat (length stabs).

Lemma get_stab_ok i Q E s :
  0 <= i < Z.of_nat (length stabs) ->
  (forall x, stabs !! Z.to_nat i = Some x -> Q x s) -> wpe (get_stab stabs i) Q E s.
Proof.
  intros Hi HQ. unfold get_stab. destruct (Z.ltb_spec i 0); [lia|].
  destruct (lookup_lt_is_Some_2 stabs (Z.to_nat i)) as [x Hx]; [lia|]. rewrite Hx. by apply wpe_ret, HQ.
Qed.

Lemma back_to_ok l m s :
  in_table l m -> l - 1 <= m ->
  wp (back_to stabs type l m) (fun k s' => s' = s /\ l - 1 <= k <= m /\
    (forall i, k < i <= m -> ~ is_type i) /\ (l <= k -> is_type k)) s.
Proof.
  intros [Hl Hm] Hlm. unfold wp, back_to.
  eapply (wpe_loop _ (fun k s' => s' = s /\ l - 1 <= k <= m /\ forall i, k < i <= m -> ~ is_type i)
    (fun k _ => Z.to_nat (k - l + 1))).
  - intros k s' (-> & Hk & Hno). destruct (Z.leb_spec l k) as [Hle|Hgt].
    + wp_steps. apply get_stab_ok; [lia|]. intros x Hx. wp_steps. destruct (Z.eqb_spec (n_type x) type) as [E|E]; wp_steps.
      * split; [done|]. split; [lia|]. split; [done|]. intros _. split; [lia|]. eauto.
      * split; [|lia]. split; [done|]. split; [lia|]. intros i Hi. destruct (decide (i = k)) as [->|]; [|apply Hno; lia].
        intros (_ & y & Hy & Ey). simplify_eq.
    + wp_steps. split; [done|]. split; [lia|]. split; [done|]. lia.
  - split; [done|]. split; [lia|]. intros i Hi. lia.
  - lia.
Qed.

Context (L R addr : Z).

(** Entries of the type are in the order of their addresses, and none begins
    one byte after [addr]. *)
Definition sorted_stabs : Prop :=
  (forall i j, L <= i -> i < j -> j <= R -> is_type i -> is_type j -> value i <= value j) /\
  (forall i, L <= i <= R -> is_type i -> value i <> addr + 1).

(** The last entry of the type in [L, R] at or before [addr] is [k]; entry
    [n] is the next one of the type, or [R + 1]. *)
Definition covers (k n : Z) : Prop :=
  L <= k <= R /\ is_type k /\ value k <= addr /\ k < n <= R + 1 /\
  (forall i, k < i < n -> ~ is_type i) /\ (n <= R -> is_type n /\ addr < value n).

(** The state of the search: [l, r] is what is left to search. *)
Record search (l r rl rr : Z) (any : bool) (a : Z) : Prop := mk_search {
  se_rr : rr = r;
  se_range : L <= l /\ l <= r + 1 /\ r <= R;
  se_addr : a = addr \/ a = addr + 1 /\ is_type rl;
  se_high i : r < i <= R -> is_type i -> addr < value i;
  se_next : r < R -> is_type (r + 1);
  se_low i : L <= i < l -> is_type i -> value i <= addr;
  se_left : (L <= rl <= r /\ rl <= l /\ is_type rl /\ value rl <= addr /\ any = true /\ forall i, rl < i < l -> ~ is_type i) \/
            (rl = L /\ a = addr /\ (any = true -> r < R) /\ forall i, L <= i < l -> ~ is_type i);
  se_any : any = false -> r = R /\ forall i, L <= i < l -> ~ is_type i }.

(** What a finished search says. *)
Definition search_result (p : Z * Z) : Prop :=
  (exists k n, covers k n /\ p = (k, n - 1)) \/
  ((forall i, L <= i <= R -> ~ is_type i) /\ p = (L, L - 1)) \/
  (exists n, L <= n <= R /\ is_type n /\ addr < value n /\ (forall i, L <= i < n -> ~ is_type i) /\
     p = (if n =? L then L - 1 else L, n - 1)).

Lemma is_type_value i x : is_type i -> stabs !! Z.to_nat i = Some x -> value i = n_value x.
Proof. intros _ Hx. unfold value. by rewrite Hx. Qed.

Lemma search_start : L <= R + 1 -> search L R L R false addr.
Proof. intros HL. constructor; try done; try lia; try (by left).
  - right. do 3 (split; [done|]). intros i Hi. lia.
  - intros _. split; [done|]. intros i Hi. lia.
Qed.

Lemma step_skip l r rl rr any a m :
  search l r rl rr any a -> l <= r -> l <= m <= r -> (forall i, l <= i <= m -> ~ is_type i) ->
  search (m + 1) r rl rr any a.
Proof.
  intros [-> Hrg Ha Hh Hn Hl Hle Hany] Hlr Hm Hno. constructor; try done; try lia.
  - intros i Hi Ht. destruct (decide (i < l)); [apply Hl; [lia|done]|]. destruct (Hno i); [lia|done].
  - destruct Hle as [(H1 & H2 & H3 & H4 & H5 & H6)|(H1 & H2 & H3 & H4)]; [left|right].
    + split; [lia|]. split; [lia|]. do 3 (split; [done|]). intros i Hi. destruct (decide (i < l)); [apply H6; lia|apply Hno; lia].
    + do 3 (split; [done|]). intros i Hi. destruct (decide (i < l)); [apply H4; lia|apply Hno; lia].
  - intros E. destruct (Hany E) as [H1 H2]. split; [done|]. intros i Hi. destruct (decide (i < l)); [apply H2; lia|apply Hno; lia].
Qed.

Lemma step_right l r rl rr any a m tm :
  sorted_stabs -> search l r rl rr any a -> l <= m <= tm -> tm <= r -> is_type m -> (forall i, m < i <= tm -> ~ is_type i) ->
  value m <= addr -> search (tm + 1) r m rr true a.
Proof.
  intros [Hs _] [-> Hrg Ha Hh Hn Hl Hle Hany] Hm Htm Ht Hno Hv. constructor; try done; try lia.
  - destruct Ha as [->|[-> _]]; [by left|by right].
  - intros i Hi Hti. destruct (decide (i < l)); [apply Hl; [lia|done]|]. destruct (decide (i = m)) as [->|]; [done|].
    destruct (decide (i < m)); [|destruct (Hno i); [lia|done]]. pose proof (Hs i m ltac:(lia) ltac:(lia) ltac:(lia) Hti Ht). lia.
  - left. split; [lia|]. split; [lia|]. do 3 (split; [done|]). intros i Hi. apply Hno. lia.
Qed.

Lemma step_left l r rl rr any a m :
  sorted_stabs -> search l r rl rr any a -> l <= m <= r -> is_type m -> addr < value m ->
  search l (m - 1) rl (m - 1) true a.
Proof.
  intros [Hs _] [-> Hrg Ha Hh Hn Hl Hle Hany] Hm Ht Hv. constructor; try done; try lia.
  - intros i Hi Hti. destruct (decide (i = m)) as [->|]; [done|]. destruct (decide (r < i)); [apply Hh; [lia|done]|].
    pose proof (Hs m i ltac:(lia) ltac:(lia) ltac:(lia) Ht Hti). lia.
  - intros _. by replace (m - 1 + 1) with m by lia.
  - destruct Hle as [(H1 & H2 & H3 & H4 & H5 & H6)|(H1 & H2 & H3 & H4)]; [left|right].
    + assert (rl <> m) by (intros ->; lia). split; [lia|]. done.
    + do 2 (split; [done|]). split; [lia|done].
Qed.

Lemma step_exact l r rl rr any a m :
  sorted_stabs -> search l r rl rr any a -> l <= m <= r -> is_type m -> value m = a ->
  a = addr /\ search m r m rr true (addr + 1).
Proof.
  intros [Hs Hg] [-> Hrg Ha Hh Hn Hl Hle Hany] Hm Ht Hv.
  assert (a = addr) as ->. { destruct Ha as [->|[-> _]]; [done|]. destruct (Hg m); [lia|done|done]. }
  split; [done|]. constructor; try done; try lia.
  - by right.
  - intros i Hi Hti. destruct (decide (i < l)); [apply Hl; [lia|done]|].
    pose proof (Hs i m ltac:(lia) ltac:(lia) ltac:(lia) Hti Ht). lia.
  - left. split; [lia|]. split; [lia|]. split; [done|]. split; [lia|]. split; [done|]. intros i Hi. lia.
Qed.

(** The loop that looks for the rightmost region. *)
Lemma last_loop_ok rl r s :
  0 <= rl -> r < Z.of_nat (length stabs) -> (forall i, rl < i <= r -> ~ is_type i) ->
  wp (loop (S (Z.to_nat (r - rl + 1))) (fun l =>
        if rl <? l then
          let! x := get_stab stabs l in
          if n_type x =? type then ret (inr l) else ret (inl (l - 1))
        else ret (inr l)) r) (fun l s' => s' = s /\ l = Z.min rl r) s.
Proof.
  intros Hrl Hr Hno. unfold wp.
  eapply (wpe_loop _ (fun l s' => s' = s /\ l <= r /\ (rl <= r -> rl <= l) /\ (r < rl -> l = r)) (fun l _ => Z.to_nat (l - rl))).
  - intros l s' (-> & H1 & H2 & H3). destruct (Z.ltb_spec rl l) as [Hlt|Hge].
    + wp_steps. apply get_stab_ok; [lia|]. intros x Hx. wp_steps.
      destruct (Z.eqb_spec (n_type x) type) as [E|E]; wp_steps.
      * destruct (Hno l); [lia|]. split; [lia|]. eauto.
      * split; [|lia]. split; [done|]. lia.
    + wp_steps. split; [done|]. lia.
  - split; [done|]. lia.
  - lia.
Qed.

Lemma binsearch_loop_ok s :
  sorted_stabs -> in_table L R -> L <= R + 1 -> 0 <= addr < 2^32 - 1 ->
  wp (stab_binsearch stabs L R type addr) (fun p s' => s' = s /\ search_result p) s.
Proof.
  intros Hs [HL HR] HLR Ha. unfold wp, stab_binsearch. wp_steps.
  eapply (wpe_loop _ (fun st s' => s' = s /\ let '(l, r, rl, rr, any, a) := st in search l r rl rr any a)
    (fun st _ => let '(l, r, _, _, _, a) := st in Z.to_nat (2 * (r - l + 1) + if a =? addr then 1 else 0))).
  - intros [[[[[l r] rl] rr] any] a] s' (-> & S). pose proof (se_range _ _ _ _ _ _ S) as Hrg.
    destruct (Z.leb_spec l r) as [Hle|Hgt].
    + rewrite Z.quot_div_nonneg by lia. set (tm := (l + r) / 2).
      assert (l <= tm <= r) as Htm by (unfold tm; Z.div_mod_to_equations; lia).
      wp_steps. eapply wp_wpe; [apply back_to_ok; [split; lia|lia]|]. intros m s1 (-> & Hm & Hno & Hty).
      destruct (Z.ltb_spec m l) as [Hml|Hml].
      { wp_steps. split; [split; [done|]|destruct (a =? addr); lia].
        eapply (step_skip l); [done|done|lia|]. intros i Hi. apply Hno. lia. }
      specialize (Hty Hml). wp_steps. apply get_stab_ok; [lia|]. intros x Hx. wp_steps.
      rewrite <- (is_type_value m x Hty Hx). pose proof (se_addr _ _ _ _ _ _ S) as Hadr.
      destruct (Z.ltb_spec (value m) a) as [H1|H1]; [|destruct (Z.ltb_spec a (value m)) as [H2|H2]]; wp_steps.
      * split; [split; [done|]|destruct (a =? addr); lia]. eapply (step_right l); try done; lia.
      * split; [split; [done|]|destruct (a =? addr); lia]. eapply (step_left l r); try done; lia.
      * destruct (step_exact l r rl rr any a m Hs S ltac:(lia) Hty ltac:(lia)) as [-> S'].
        rewrite u32_small by lia. split; [done|]. rewrite Z.eqb_refl.
        destruct (Z.eqb_spec (addr + 1) addr); lia.
    + assert (l = r + 1) as -> by lia. wp_steps. destruct S as [-> _ Had Hh Hn Hl Hle Hany].
      destruct any; cbn [negb]; wp_steps.
      2:{ split; [done|]. right. left. destruct (Hany eq_refl) as [-> Hno].
          destruct Hle as [(_ & _ & _ & _ & ? & _)|(-> & _)]; [done|]. split; [|done]. intros i Hi. apply Hno. lia. }
      eapply wp_wpe; [apply last_loop_ok; [|lia|]|].
      { destruct Hle as [(? & _)|(-> & _)]; lia. }
      { intros i Hi. destruct Hle as [(_ & _ & _ & _ & _ & H6)|(-> & _ & _ & H4)]; [apply H6; lia|apply H4; lia]. }
      intros k s1 [-> ->]. wp_steps. split; [done|].
      destruct Hle as [(H1 & _ & H3 & H4 & _ & H6)|(-> & _ & Hr & H4)].
      * left. exists rl, (r + 1). split; [|f_equal; lia]. split; [lia|]. split; [done|]. split; [done|]. split; [lia|].
        split; [done|]. intros Hr. split; [apply Hn; lia|]. apply Hh; [lia|]. apply Hn. lia.
      * specialize (Hr eq_refl). right. right. exists (r + 1). split; [lia|]. split; [by apply Hn|].
        split; [apply Hh; [lia|by apply Hn]|]. split; [done|]. f_equal; [|lia].
        destruct (Z.eqb_spec (r + 1) L); lia.
  - split; [done|]. by apply search_start.
  - rewrite Z.eqb_refl. lia.
Qed.
End search.
