(* ===== verification/TextThms.v ===== *)
(** * Formatted output and symbol lookup: the theorems

    What printing to memory, to the console and to a descriptor delivers for a
    format that prints a given text ([prints] of PrintfmtOut.v), that a
    printed number reads back, and what the search in the symbol table finds. *)
From S2P Require Import Prelude Mem Mmu LibString LibStringThms Printfmt PrintfmtOut Kdebug.


(** A number printed into memory with %d reads back: strtol in base 10 from
    the buffer returns it and the address of the terminating zero. *)
Theorem snprintf_strtol b n v fuel m :
  b <> 0 -> 12 <= n -> - 2^31 <= v < 2^31 -> (10 < fuel)%nat ->
  wp (let! len := vsnprintf b n (bytes "%d") [AInt v] in
      let! r := strtol fuel b 10 in ret (len, r))
    (fun r _ => r = (r.1, (v, b + r.1)) /\ 1 <= r.1 <= 11) m.
Proof.
  intros Hb Hn Hv Hf. destruct (prints_d v Hv) as (cs & ds & (Hne & H2 & Hval) & Hl & Hp).
  set (neg := if v <? 0 then Some true else None).
  assert ((if v <? 0 then [45] else []) = sign_text neg) as Es by (unfold neg; by destruct (v <? 0)).
  rewrite Es in Hp.
  assert (length (sign_text neg ++ cs) = length (sign_text neg) + length cs)%nat as El by apply length_app.
  assert (length (sign_text neg) <= 1)%nat as Hsg by (unfold neg; destruct (v <? 0); simpl; lia).
  assert (1 <= length cs)%nat by (destruct cs; [done|simpl; lia]).
  unfold wp. apply wpe_bind. unfold wpe at 1. rewrite (vsnprintf_ok b n _ _ _ m Hb ltac:(lia) Hp).
  rewrite Nat.min_r, take_ge by lia.
  apply wpe_bind. eapply wp_wpe.
  { eapply (strtol_ok _ b 10 [] neg cs ds 0); [lia|lia|done|constructor|done|done| |cbn [length]; lia].
    pose proof (vsnprintf_mem m b n (sign_text neg ++ cs) ltac:(lia)) as [Ht _].
    rewrite Nat.min_r, take_ge, (fmap_u8_numeral 10 neg cs ds H2) in Ht by lia. rewrite <- app_assoc in Ht. exact Ht. }
  intros [r e] m' [-> [= -> ->]]. apply wpe_ret. cbn [fst length]. split; [|lia]. do 2 f_equal; [|f_equal; lia].
  rewrite Hval. unfold neg. destruct (Z.ltb_spec v 0).
  - rewrite bool_decide_true by done. rewrite s32_small; lia.
  - rewrite bool_decide_false by done. rewrite s32_small; lia.
Qed.

(** Cprintf of user environments sends the text to the console in order,
    with sys_cputs calls of 255 bytes and a last one that is shorter, and
    returns the number of characters; a text of fewer than 255 characters is
    one system call. *)
Theorem vcprintf_spec junk fmt ap o : length junk = 256%nat -> prints fmt ap o ->
  exists calls last, Cprintf.vcprintf junk fmt ap [] = Ok (Z.of_nat (length o)) (calls ++ [last]) /\
    Forall (fun c => length c = 255%nat) calls /\ (length last < 255)%nat /\ concat (calls ++ [last]) = (u8 <$> o) /\
    ((length o < 255)%nat -> calls = []).
Proof.
  intros Hj Hp. destruct (vcprintf_ok junk fmt ap o Hj Hp) as (calls & last & Hrun & Hc & Hl & Ho).
  exists calls, last. rewrite concat_app. cbn [concat]. rewrite app_nil_r. do 4 (split; [done|]). intros Hs.
  destruct Hc as [|c calls Hc]; [done|]. apply (f_equal length) in Ho. cbn [concat] in Ho.
  rewrite !length_app, length_fmap in Ho. lia.
Qed.

(** Fprintf over a write that takes all it is given writes the text in
    order and returns the number of characters, except that for an empty text
    it returns 1. *)
Theorem vfprintf_spec {S} (write : Z -> list Z -> M S Z) (log : S -> list Z -> S) fd junk fmt ap o s :
  (forall l s, write fd l s = Ok (Z.of_nat (length l)) (log s l)) ->
  length junk = 256%nat -> prints fmt ap o ->
  exists chunks, Fprintf.vfprintf write junk fd fmt ap s =
      Ok (if decide (o = []) then 1 else Z.of_nat (length o)) (fold_left log chunks s) /\
    concat chunks = (u8 <$> o).
Proof. intros Hw. exact (vfprintf_ok write log fd s Hw junk fmt ap o). Qed.

(** Cprintf of the kernel returns 0 whatever it prints: its putch advances
    a copy of the counter's address instead of the counter. *)
Theorem kernel_cprintf_zero {S} (cputchar : Z -> M S unit) fmt ap s r s' :
  KernPrintf.vcprintf cputchar fmt ap s = Ok r s' -> r = 0.
Proof.
  unfold KernPrintf.vcprintf, bind, with_local.
  destruct (vprintfmt (KernPrintf.putch cputchar) fmt ap (s, 0)) as [[] [s1 c]| |[]| |] eqn:E; try done.
  intros [= <- _]. apply (keeps_vprintfmt snd _ (keeps_kputch cputchar) fmt ap _ _ _ E).
Qed.

(** The search in a part of the symbol table whose entries of the type are
    ordered by address, none of them at the address just after the one looked
    for, always ends, and is right: it returns the last entry at or before the
    address and the index before the next entry of the type, or tells that
    there is none. *)
Theorem stab_binsearch_spec stabs type L R addr s :
  sorted_stabs stabs type L R addr -> in_table stabs L R -> L <= R + 1 -> 0 <= addr < 2^32 - 1 ->
  wp (stab_binsearch stabs L R type addr) (fun p s' => s' = s /\ search_result stabs type L R addr p) s.
Proof. apply binsearch_loop_ok. Qed.

(** Functions at 0x80, at 0x100, of one byte, and at 0x101. *)
Definition three_funs : list Stab :=
  [mkStab 1 N_FUN 0 0 0x80; mkStab 2 N_FUN 0 0 0x100; mkStab 3 N_FUN 0 0 0x101].

(** Without the gap the search is wrong: for the address 0x100 it returns
    the function that begins at 0x101, because the address was incremented after
    the exact match. *)
Theorem stab_binsearch_adjacent s :
  stab_binsearch three_funs 0 2 N_FUN 0x100 s = Ok (2, 2) s /\ covers three_funs N_FUN 0 2 0x100 1 2.
Proof.
  split; [done|]. split; [lia|]. split; [split; [lia|by eexists]|]. split; [by vm_compute|]. split; [lia|].
  split; [intros i Hi; lia|]. intros _. split; [split; [lia|by eexists]|]. by vm_compute.
Qed.

(** ** The hypotheses can hold *)


Lemma snprintf_strtol_witness :
  wp (let! len := vsnprintf 1000 20 (bytes "%d") [AInt (-90210)] in
      let! r := strtol 40 1000 10 in ret (len, r))
    (fun r _ => r = (r.1, (-90210, 1000 + r.1)) /\ 1 <= r.1 <= 11) ∅.
Proof. apply (snprintf_strtol 1000 20 (-90210) 40 ∅); lia. Defined.

Lemma vcprintf_spec_witness :
  exists calls last, Cprintf.vcprintf (replicate 256 0) (bytes "%5d!") [AInt 42] [] = Ok 6 (calls ++ [last]) /\
    Forall (fun c => length c = 255%nat) calls /\ (length last < 255)%nat /\
    concat (calls ++ [last]) = (u8 <$> bytes "   42!") /\ ((6 < 255)%nat -> calls = []).
Proof. apply (vcprintf_spec (replicate 256 0) (bytes "%5d!") [AInt 42] (bytes "   42!")); by vm_compute. Defined.

Lemma vfprintf_spec_witness :
  exists chunks, Fprintf.vfprintf (fun _ l => modify (fun o => o ++ l) ;;; ret (Z.of_nat (length l)))
      (replicate 256 0) 1 (bytes "%x") [AInt 255] [] =
      Ok (if decide (bytes "ff" = []) then 1 else 2) (fold_left (fun o l => o ++ l) chunks []) /\
    concat chunks = (u8 <$> bytes "ff").
Proof.
  apply (vfprintf_spec (fun _ l => modify (fun o => o ++ l) ;;; ret (Z.of_nat (length l))) (fun o l => o ++ l)
    1 (replicate 256 0) (bytes "%x") [AInt 255] (bytes "ff") []); [done|by vm_compute|by vm_compute].
Defined.

Lemma kernel_cprintf_zero_witness :
  KernPrintf.vcprintf record (bytes "pid %d") [AInt 7] [] = Ok 0 (bytes "pid 7") /\ 0 = 0 :> Z.
Proof.
  split; [by vm_compute|]. apply (kernel_cprintf_zero record (bytes "pid %d") [AInt 7] [] 0 (bytes "pid 7")). by vm_compute.
Defined.

Lemma stab_binsearch_spec_witness :
  wp (stab_binsearch three_funs 0 2 N_FUN 0xfe) (fun p s' => s' = mkInfo Unknown 0 Unknown 9 0 0 /\
    search_result three_funs N_FUN 0 2 0xfe p) (mkInfo Unknown 0 Unknown 9 0 0).
Proof.
  apply (stab_binsearch_spec three_funs N_FUN 0 2 0xfe); [split|split; [lia|by vm_compute]|lia|lia].
  - intros i j Hi Hij Hj _ _. assert (i = 0 /\ j = 1 \/ i = 0 /\ j = 2 \/ i = 1 /\ j = 2) as H by lia.
    destruct H as [[-> ->]|[[-> ->]|[-> ->]]]; by vm_compute.
  - intros i Hi _. assert (i = 0 \/ i = 1 \/ i = 2) as H by lia. destruct H as [-> | [-> | ->]]; by vm_compute.
Defined.
