(* ===== verification/Fs.v ===== *)
(** * The file server's block cache and file system (lab6-net/fs)

    The server sees the disk through its address space: block [b] lives at
    [DISKMAP + b * BLKSIZE] and is read in by the page-fault handler
    [bc_pgfault] when it is first touched.  The model has the server's memory
    byte by byte, its page table (which pages are mapped, and the dirty bit of
    each), and the bytes of the disk.  Every access to memory goes through
    [touch], which faults on a page that is not mapped, exactly where the
    hardware does; the handler's own accesses can fault again, so it is
    defined by recursion on the depth of nested faults.

    Pointers are addresses; a struct File is the 256 bytes at its address.
    Paths and names, which the code keeps in buffers of its own stack, are
    lists of characters without the terminating zero. *)
From S2P Require Import Prelude Mem Mmu LibString.

Definition BLKSIZE : Z := PGSIZE.
Definition BLKBITSIZE : Z := BLKSIZE * 8.
Definition MAXNAMELEN : Z := 128.
Definition MAXPATHLEN : Z := 1024.
Definition NDIRECT : Z := 10.
Definition NINDIRECT : Z := BLKSIZE / 4.
Definition MAXFILESIZE : Z := (NDIRECT + NINDIRECT) * BLKSIZE.
Definition sizeof_File : Z := 256.
Definition BLKFILES : Z := BLKSIZE / sizeof_File.
Definition FTYPE_REG : Z := 0.
Definition FTYPE_DIR : Z := 1.
Definition FS_MAGIC : Z := 0x4A0530AE.
Definition SECTSIZE : Z := 512.
Definition BLKSECTS : Z := BLKSIZE / SECTSIZE.
Definition DISKMAP : Z := 0x10000000.
Definition DISKSIZE : Z := 0xC0000000.

(** Addresses of the fields of struct File and struct Super. *)
Definition f_size (f : Z) : Z := f + 128.
Definition f_type (f : Z) : Z := f + 132.
Definition f_direct (f i : Z) : Z := f + 136 + 4 * i.
Definition f_indirect (f : Z) : Z := f + 176.
Definition s_magic (s : Z) : Z := s.
Definition s_nblocks (s : Z) : Z := s + 4.
Definition s_root (s : Z) : Z := s + 8.

(** struct OpenFile of fs/serv.c. *)
Record OpenFile := mkOpen { o_fileid : Z; o_file : Z; o_mode : Z; o_fd : Z }.

Record fst := mkFs {
  fmem : gmap Z Z;              (* the server's memory *)
  fpt : gmap Z bool;            (* mapped pages, with their PTE_D *)
  disk : gmap Z Z;              (* the bytes of the disk *)
  super : Z;                    (* 0 before fs_init sets it *)
  bitmap : Z;                   (* likewise *)
  opentab : gmap Z OpenFile;
  fd_ref : gmap Z Z }.          (* pp_ref of the pages of open files *)

Definition set_fmem v s :=
  mkFs v (fpt s) (disk s) (super s) (bitmap s) (opentab s) (fd_ref s).
Definition set_fpt v s :=
  mkFs (fmem s) v (disk s) (super s) (bitmap s) (opentab s) (fd_ref s).
Definition set_disk v s :=
  mkFs (fmem s) (fpt s) v (super s) (bitmap s) (opentab s) (fd_ref s).
Definition set_super v s :=
  mkFs (fmem s) (fpt s) (disk s) v (bitmap s) (opentab s) (fd_ref s).
Definition set_bitmap v s :=
  mkFs (fmem s) (fpt s) (disk s) (super s) v (opentab s) (fd_ref s).
Definition set_opentab v s :=
  mkFs (fmem s) (fpt s) (disk s) (super s) (bitmap s) v (fd_ref s).
Definition set_fd_ref v s :=
  mkFs (fmem s) (fpt s) (disk s) (super s) (bitmap s) (opentab s) v.

Definition F := M fst.

(** What the machine may do to the server: a disk sector can fail, and the
    kernel can be out of memory when a page is asked for. *)
Class Machine := {
  sector_fails : Z -> bool;
  out_of_memory : gmap Z bool -> Z -> bool }.

Section fs.
Context {HW : Machine}.

(** ** Page table and system calls on the server itself *)

Definition va_is_mapped (va : Z) : F bool :=
  gets (fun s => bool_decide (is_Some (fpt s !! PGNUM va))).

(** [uvpt] is only readable where a page is mapped; the callers check. *)
Definition va_is_dirty (va : Z) : F bool :=
  gets (fun s => default false (fpt s !! PGNUM va)).

(** sys_page_alloc(0, va, PTE_P|PTE_W|PTE_U): a zeroed page, not dirty. *)
Definition sys_page_alloc_self (va : Z) : F Z :=
  let! t := gets fpt in
  if out_of_memory t va then ret (- E_NO_MEM)
  else
    modify (fun s => set_fmem (fill (fmem s) va 0 (Z.to_nat PGSIZE)) s) ;;;
    modify (fun s => set_fpt (<[PGNUM va := false]> (fpt s)) s) ;;;
    ret 0.

(** sys_page_map(0, va, 0, va, perm) maps the page again with a fresh entry,
    whose dirty bit is clear; -E_INVAL if nothing is mapped there. *)
Definition sys_page_map_self (va : Z) : F Z :=
  let! t := gets fpt in
  match t !! PGNUM va with
  | None => ret (- E_INVAL)
  | Some _ => modify (fun s => set_fpt (<[PGNUM va := false]> (fpt s)) s) ;;; ret 0
  end.

Definition sys_page_unmap_self (va : Z) : F Z :=
  modify (fun s => set_fpt (delete (PGNUM va) (fpt s)) s) ;;; ret 0.

(** ** fs/ide.c *)

(** insl: 128 words from the controller to mapped memory. *)
Definition read_sector (secno dst : Z) : F unit :=
  modify (fun s =>
    set_fmem (put_bytes (fmem s) dst (bytes_at (disk s) (secno * SECTSIZE) (Z.to_nat SECTSIZE))) s) ;;;
  modify (fun s => set_fpt (<[PGNUM dst := true]> (fpt s)) s).

Definition write_sector (secno src : Z) : F unit :=
  modify (fun s =>
    set_disk (put_bytes (disk s) (secno * SECTSIZE) (bytes_at (fmem s) src (Z.to_nat SECTSIZE))) s).

(** The command registers hold 28 bits of the sector number. *)
Definition ide_read (secno dst nsecs : Z) : F Z :=
  assert_ (nsecs <=? 256) "nsecs <= 256" ;;;
  let secno := secno `mod` 2^28 in
  let! r := for_each (seqZ 0 nsecs) (fun i =>
    if sector_fails (secno + i) then ret (Some (-1))
    else read_sector (secno + i) (dst + i * SECTSIZE) ;;; ret None) in
  ret (default 0 r).

Definition ide_write (secno src nsecs : Z) : F Z :=
  assert_ (nsecs <=? 256) "nsecs <= 256" ;;;
  let secno := secno `mod` 2^28 in
  let! r := for_each (seqZ 0 nsecs) (fun i =>
    if sector_fails (secno + i) then ret (Some (-1))
    else write_sector (secno + i) (src + i * SECTSIZE) ;;; ret None) in
  ret (default 0 r).

(** ** fs/bc.c: faults and accesses *)

Definition touch_with (fault : Z -> F unit) (a : Z) : F unit :=
  let! t := gets fpt in
  match t !! PGNUM a with Some _ => ret tt | None => fault a end.

Definition load32_with (fault : Z -> F unit) (a : Z) : F Z :=
  touch_with fault a ;;;
  touch_with fault (a + 3) ;;;
  gets (fun s => read32 (fmem s) a).

Definition block_is_free_with (fault : Z -> F unit) (blockno : Z) : F bool :=
  let! sp := gets super in
  if sp =? 0 then ret false
  else
    let! nb := load32_with fault (s_nblocks sp) in
    if nb <=? blockno then ret false
    else
      let! bm := gets bitmap in
      let! w := load32_with fault (bm + 4 * (blockno / 32)) in
      ret (flag w (Z.shiftl 1 (blockno `mod` 32))).

Fixpoint bc_pgfault (depth : nat) (addr : Z) : F unit :=
  match depth with
  | O => fun _ => Diverge
  | S depth' =>
      let fault := bc_pgfault depth' in
      let blockno := u32 (addr - DISKMAP) / BLKSIZE in
      if (addr <? DISKMAP) || (DISKMAP + DISKSIZE <=? addr)
      then panic "page fault in FS"
      else
        let! sp := gets super in
        let! bad := (if sp =? 0 then ret false
                     else let! nb := load32_with fault (s_nblocks sp) in
                          ret (nb <=? blockno)) in
        if bad : bool then panic "reading non-existent block"
        else
          let addr := ROUNDDOWN addr PGSIZE in
          let! r := sys_page_alloc_self addr in
          if r <? 0 then panic "in bc_pgfault, sys_page_alloc"
          else
            let! r := ide_read (blockno * BLKSECTS) addr BLKSECTS in
            if r <? 0 then panic "in bc_pgfault, ide_read"
            else
              let! r := sys_page_map_self addr in
              if r <? 0 then panic "in bc_pgfault, sys_page_map"
              else
                let! bm := gets bitmap in
                let! free := (if bm =? 0 then ret false
                              else block_is_free_with fault blockno) in
                if free : bool then panic "reading free block" else ret tt
  end.

(** A data block's fault touches its bitmap block, that one's fault touches
    the first bitmap block, and that one only itself: three levels. *)
Definition max_depth : nat := 3.
Definition touch : Z -> F unit := touch_with (bc_pgfault max_depth).
Definition load32 : Z -> F Z := load32_with (bc_pgfault max_depth).
Definition block_is_free : Z -> F bool := block_is_free_with (bc_pgfault max_depth).

Definition set_dirty (a : Z) : F unit :=
  modify (fun s => set_fpt (<[PGNUM a := true]> (fpt s)) s).

Definition load8 (a : Z) : F Z := touch a ;;; gets (fun s => getb (fmem s) a).

Definition store8 (a v : Z) : F unit :=
  touch a ;;; modify (fun s => set_fmem (setb (fmem s) a v) s) ;;; set_dirty a.

Definition store32 (a v : Z) : F unit :=
  touch a ;;; touch (a + 3) ;;;
  modify (fun s => set_fmem (write32 (fmem s) a v) s) ;;;
  set_dirty a ;;; set_dirty (a + 3).

(** The pages of [n] bytes at [a]. *)
Definition pages_of (a n : Z) : list Z :=
  seqZ (PGNUM a) (PGNUM (a + n - 1) - PGNUM a + 1).

Definition lift {A} (m : B A) : F A := fun s =>
  match m (fmem s) with
  | Ok a m' => Ok a (set_fmem m' s)
  | Panic msg => Panic msg
  | Leave m' => Leave (set_fmem m' s)
  | Undef => Undef
  | Diverge => Diverge
  end.

(** The routines of lib/string.c with the faults of their accesses. *)
Definition fs_memmove (dst src n : Z) : F unit :=
  if n =? 0 then ret tt
  else
    for_ (pages_of src n) (fun p => touch (p * PGSIZE)) ;;;
    for_ (pages_of dst n) (fun p => touch (p * PGSIZE)) ;;;
    lift (memmove dst src n) ;;;
    for_ (pages_of dst n) (fun p => set_dirty (p * PGSIZE)).

Definition fs_memset (v c n : Z) : F unit :=
  if n =? 0 then ret tt
  else
    for_ (pages_of v n) (fun p => touch (p * PGSIZE)) ;;;
    lift (memset v c n) ;;;
    for_ (pages_of v n) (fun p => set_dirty (p * PGSIZE)).

(** strcmp of a string in memory with a name held in a local buffer. *)
Fixpoint fs_strcmp (p : Z) (name : list Z) : F Z :=
  let! a := load8 p in
  match name with
  | [] => ret a
  | b :: name' => if negb (a =? 0) && (a =? b) then fs_strcmp (p + 1) name' else ret (a - b)
  end.

(** strcpy of a local buffer to memory. *)
Fixpoint fs_strcpy (p : Z) (name : list Z) : F unit :=
  match name with
  | [] => store8 p 0
  | c :: name' => store8 p c ;;; fs_strcpy (p + 1) name'
  end.

Definition diskaddr (blockno : Z) : F Z :=
  let! sp := gets super in
  let! bad := (if blockno =? 0 then ret true
               else if sp =? 0 then ret false
               else let! nb := load32 (s_nblocks sp) in ret (nb <=? blockno)) in
  if bad : bool then panic "bad block number in diskaddr"
  else ret (u32 (DISKMAP + blockno * BLKSIZE)).

(** The result of ide_write is not looked at. *)
Definition flush_block (addr : Z) : F unit :=
  let blockno := u32 (addr - DISKMAP) / BLKSIZE in
  if (addr <? DISKMAP) || (DISKMAP + DISKSIZE <=? addr)
  then panic "flush_block of bad va"
  else
    let addr := ROUNDDOWN addr PGSIZE in
    let! mapped := va_is_mapped addr in
    let! dirty := va_is_dirty addr in
    if mapped && dirty then
      ide_write (blockno * BLKSECTS) addr BLKSECTS ;;;
      let! r := sys_page_map_self addr in
      if r <? 0 then panic "in flush_block, sys_page_map" else ret tt
    else ret tt.

(** ** fs/fs.c: super block and bitmap *)

Definition check_super : F unit :=
  let! sp := gets super in
  let! magic := load32 (s_magic sp) in
  if negb (magic =? FS_MAGIC) then panic "bad file system magic number"
  else
    let! nb := load32 (s_nblocks sp) in
    if DISKSIZE / BLKSIZE <? nb then panic "file system is too large" else ret tt.

Definition free_block (blockno : Z) : F unit :=
  if blockno =? 0 then panic "attempt to free zero block"
  else
    let! bm := gets bitmap in
    let! w := load32 (bm + 4 * (blockno / 32)) in
    store32 (bm + 4 * (blockno / 32)) (Z.lor w (Z.shiftl 1 (blockno `mod` 32))).

(** The bound of the loop is read again on every round, as in the source. *)
Definition alloc_block : F Z :=
  let! sp := gets super in
  let! n := load32 (s_nblocks sp) in
  loop (S (Z.to_nat n)) (fun i =>
    let! nb := load32 (s_nblocks sp) in
    if i <? nb then
      let! free := block_is_free i in
      if free : bool then
        let! bm := gets bitmap in
        let! w := load32 (bm + 4 * (i / 32)) in
        store32 (bm + 4 * (i / 32)) (Z.land w (Z.lnot (Z.shiftl 1 (i `mod` 32)))) ;;;
        flush_block (bm + 4 * (i / 32)) ;;;
        ret (inr i)
      else ret (inl (i + 1))
    else ret (inr (- E_NO_DISK))) 1.

Definition check_bitmap : F unit :=
  let! sp := gets super in
  let! n := load32 (s_nblocks sp) in
  loop (S (Z.to_nat n)) (fun i =>
    let! nb := load32 (s_nblocks sp) in
    if u32 (i * BLKBITSIZE) <? nb then
      let! free := block_is_free (2 + i) in
      assert_ (negb free) "!block_is_free(2+i)" ;;;
      ret (inl (i + 1))
    else ret (inr tt)) 0 ;;;
  let! free0 := block_is_free 0 in
  assert_ (negb free0) "!block_is_free(0)" ;;;
  let! free1 := block_is_free 1 in
  assert_ (negb free1) "!block_is_free(1)".

(** ** Blocks of a file *)

(** Returns the result and *ppdiskbno. *)
Definition file_block_walk (f filebno : Z) (alloc : bool) : F (Z * Z) :=
  if NDIRECT + NINDIRECT <=? filebno then ret (- E_INVAL, 0)
  else if filebno <? NDIRECT then ret (0, f_direct f filebno)
  else
    let! ind := load32 (f_indirect f) in
    let slot : F (Z * Z) :=
      let! ind := load32 (f_indirect f) in
      let! a := diskaddr ind in
      ret (0, a + 4 * (filebno - NDIRECT)) in
    if ind =? 0 then
      if negb alloc then ret (- E_NOT_FOUND, 0)
      else
        let! r := alloc_block in
        let blockno := u32 r in
        (* blockno is unsigned, so "blockno < 0" is never true *)
        if blockno <? 0 then ret (- E_NO_DISK, 0)
        else
          store32 (f_indirect f) blockno ;;;
          let! b := load32 (f_indirect f) in
          let! a := diskaddr b in
          fs_memset a 0 BLKSIZE ;;;
          let! b := load32 (f_indirect f) in
          let! a := diskaddr b in
          flush_block a ;;;
          slot
    else slot.

(** Returns the result and *blk. *)
Definition file_get_block (f filebno : Z) : F (Z * Z) :=
  let! w := file_block_walk f filebno true in
  let '(r, slot) := w in
  if r <? 0 then ret (r, 0)
  else
    let! b := load32 slot in
    let finish : F (Z * Z) :=
      let! b := load32 slot in
      let! a := diskaddr b in
      ret (0, a) in
    if b =? 0 then
      let! r := alloc_block in
      if r <? 0 then ret (- E_NO_DISK, 0)
      else store32 slot r ;;; finish
    else finish.

(** ** Directories *)

(** Returns the result and *file. *)
Definition dir_lookup (dir : Z) (name : list Z) : F (Z * Z) :=
  let! sz := load32 (f_size dir) in
  assert_ (Z.rem (s32 sz) BLKSIZE =? 0) "(dir->f_size % BLKSIZE) == 0" ;;;
  let nblock := u32 (Z.quot (s32 sz) BLKSIZE) in
  let! r := for_each (seqZ 0 nblock) (fun i =>
    let! g := file_get_block dir i in
    let '(r, blk) := g in
    if r <? 0 then ret (Some (r, 0))
    else for_each (seqZ 0 BLKFILES) (fun j =>
      let f := blk + j * sizeof_File in
      let! c := fs_strcmp f name in
      if c =? 0 then ret (Some (0, f)) else ret None)) in
  ret (default (- E_NOT_FOUND, 0) r).

Definition dir_alloc_file (dir : Z) : F (Z * Z) :=
  let! sz := load32 (f_size dir) in
  assert_ (Z.rem (s32 sz) BLKSIZE =? 0) "(dir->f_size % BLKSIZE) == 0" ;;;
  let nblock := u32 (Z.quot (s32 sz) BLKSIZE) in
  let! r := for_each (seqZ 0 nblock) (fun i =>
    let! g := file_get_block dir i in
    let '(r, blk) := g in
    if r <? 0 then ret (Some (r, 0))
    else for_each (seqZ 0 BLKFILES) (fun j =>
      let f := blk + j * sizeof_File in
      let! c := load8 f in
      if c =? 0 then ret (Some (0, f)) else ret None)) in
  match r with
  | Some r => ret r
  | None =>
      let! sz := load32 (f_size dir) in
      store32 (f_size dir) (sz + BLKSIZE) ;;;
      let! g := file_get_block dir nblock in
      let '(r, blk) := g in
      if r <? 0 then ret (r, 0) else ret (0, blk)
  end.

Fixpoint skip_slash (p : list Z) : list Z :=
  match p with
  | c :: p' => if c =? 47 then skip_slash p' else p
  | [] => []
  end.

(** The element a path starts with, and what follows it. *)
Fixpoint path_element (p : list Z) : list Z * list Z :=
  match p with
  | c :: p' => if c =? 47 then ([], p) else let '(n, q) := path_element p' in (c :: n, q)
  | [] => ([], [])
  end.

(** What walk_path stores: *pdir, *pf and lastelem. *)
Record walk := mkWalk { w_ret : Z; w_dir : Z; w_file : Z; w_last : list Z }.

Definition walk_path (path : list Z) : F walk :=
  let! sp := gets super in
  loop (S (length path)) (fun st => let '(path, dir, f) := st in
    match path with
    | [] => ret (inr (mkWalk 0 dir f []))
    | _ =>
        let dir := f in
        let '(name, path) := path_element path in
        if MAXNAMELEN <=? Z.of_nat (length name) then ret (inr (mkWalk (- E_BAD_PATH) 0 0 []))
        else
          let path := skip_slash path in
          let! t := load32 (f_type dir) in
          if negb (t =? FTYPE_DIR) then ret (inr (mkWalk (- E_NOT_FOUND) 0 0 []))
          else
            let! l := dir_lookup dir name in
            let '(r, g) := l in
            if r <? 0 then
              if (r =? - E_NOT_FOUND) && bool_decide (path = [])
              then ret (inr (mkWalk r dir 0 name))
              else ret (inr (mkWalk r 0 0 []))
            else ret (inl (path, dir, g))
    end) (skip_slash path, 0, s_root sp).

(** ** File operations *)

Definition file_open (path : list Z) : F (Z * Z) :=
  let! w := walk_path path in
  ret (w_ret w, w_file w).

(** pos runs through signed 32-bit integers, the bound is unsigned. *)
Definition blk_of (pos : Z) : Z := u32 (Z.quot pos BLKSIZE).
Definition chunk (pos top : Z) : Z :=
  let room := u32 (BLKSIZE - Z.rem pos BLKSIZE) in
  let left := u32 (top - pos) in
  s32 (if room <=? left then room else left).

Definition file_read (f buf count offset : Z) : F Z :=
  let! sz := load32 (f_size f) in
  if s32 sz <=? offset then ret 0
  else
    let avail := u32 (s32 sz - offset) in
    let count := if count <=? avail then count else avail in
    let top := u32 (offset + count) in
    let! e := loop (S (Z.to_nat count)) (fun st => let '(pos, buf) := st in
      if u32 pos <? top then
        let! g := file_get_block f (blk_of pos) in
        let '(r, blk) := g in
        if r <? 0 then ret (inr (Some r))
        else
          let bn := chunk pos top in
          fs_memmove buf (blk + Z.rem pos BLKSIZE) (u32 bn) ;;;
          ret (inl (s32 (pos + bn), u32 (buf + bn)))
      else ret (inr None)) (offset, buf) in
    ret (default (s32 count) e).

Definition file_free_block (f filebno : Z) : F Z :=
  let! w := file_block_walk f filebno false in
  let '(r, ptr) := w in
  if r <? 0 then ret r
  else
    let! b := load32 ptr in
    (if b =? 0 then ret tt
     else free_block b ;;; store32 ptr 0) ;;;
    ret 0.

(** Blocks of a file of [sz] bytes. *)
Definition nblocks_of (sz : Z) : Z := u32 (Z.quot (s32 (sz + BLKSIZE - 1)) BLKSIZE).

Definition file_truncate_blocks (f newsize : Z) : F unit :=
  let! sz := load32 (f_size f) in
  let old_nblocks := nblocks_of (s32 sz) in
  let new_nblocks := nblocks_of newsize in
  for_ (seqZ new_nblocks (old_nblocks - new_nblocks)) (fun bno =>
    file_free_block f bno ;;; ret tt) ;;;
  let! ind := load32 (f_indirect f) in
  if (new_nblocks <=? NDIRECT) && negb (ind =? 0) then
    free_block ind ;;;
    store32 (f_indirect f) 0
  else ret tt.

Definition file_set_size (f newsize : Z) : F Z :=
  let! sz := load32 (f_size f) in
  (if newsize <? s32 sz then file_truncate_blocks f newsize else ret tt) ;;;
  store32 (f_size f) newsize ;;;
  flush_block f ;;;
  ret 0.

Definition file_write (f buf count offset : Z) : F Z :=
  let! sz := load32 (f_size f) in
  let top := u32 (offset + count) in
  let! r := (if u32 sz <? top then file_set_size f (s32 top) else ret 0) in
  if r <? 0 then ret r
  else
    let! e := loop (S (Z.to_nat count)) (fun st => let '(pos, buf) := st in
      if u32 pos <? top then
        let! g := file_get_block f (blk_of pos) in
        let '(r, blk) := g in
        if r <? 0 then ret (inr (Some r))
        else
          let bn := chunk pos top in
          fs_memmove (blk + Z.rem pos BLKSIZE) buf (u32 bn) ;;;
          ret (inl (s32 (pos + bn), u32 (buf + bn)))
      else ret (inr None)) (offset, buf) in
    ret (default (s32 count) e).

(** The loop reads the size again on every round; flushing does not change it. *)
Definition file_flush (f : Z) : F unit :=
  let nblk (sz : Z) := Z.quot (s32 (s32 sz + BLKSIZE - 1)) BLKSIZE in
  let! sz0 := load32 (f_size f) in
  loop (S (Z.to_nat (nblk sz0))) (fun i =>
    let! sz := load32 (f_size f) in
    if i <? nblk sz then
      let! w := file_block_walk f (u32 i) false in
      let '(r, ptr) := w in
      (if r <? 0 then ret tt
       else
         let! b := load32 ptr in
         if b =? 0 then ret tt
         else let! a := diskaddr b in flush_block a) ;;;
      ret (inl (i + 1))
    else ret (inr tt)) 0 ;;;
  flush_block f ;;;
  let! ind := load32 (f_indirect f) in
  if ind =? 0 then ret tt else let! a := diskaddr ind in flush_block a.

(** Returns the result and *pf. *)
Definition file_create (path : list Z) : F (Z * Z) :=
  let! w := walk_path path in
  if w_ret w =? 0 then ret (- E_FILE_EXISTS, 0)
  else if negb (w_ret w =? - E_NOT_FOUND) || (w_dir w =? 0) then ret (w_ret w, 0)
  else
    let! a := dir_alloc_file (w_dir w) in
    let '(r, f) := a in
    if r <? 0 then ret (r, 0)
    else
      fs_strcpy f (w_last w) ;;;
      file_flush (w_dir w) ;;;
      ret (0, f).

Definition fs_sync : F unit :=
  let! sp := gets super in
  let! n := load32 (s_nblocks sp) in
  loop (S (Z.to_nat n)) (fun i =>
    let! nb := load32 (s_nblocks sp) in
    if i <? nb then
      let! a := diskaddr i in
      flush_block a ;;;
      ret (inl (i + 1))
    else ret (inr tt)) 1.

(** bc_init reads the super block once, which leaves it mapped; fs_init then
    sets the two pointers (the probing of the IDE disks and the self test of
    the block cache are not modelled). *)
Definition fs_init : F unit :=
  let! a := diskaddr 1 in
  touch a ;;;
  let! a := diskaddr 1 in
  modify (set_super a) ;;;
  check_super ;;;
  let! a := diskaddr 2 in
  modify (set_bitmap a) ;;;
  check_bitmap.
End fs.
