(* ===== verification/Serv.v ===== *)
(** * The file server's request loop (lab6-net/fs/serv.c)

    Requests arrive on the page at [fsreq]; each handler reads its arguments
    from that page and leaves its answer there.  [pageref], which looks the
    reference count of a page up in the kernel's read-only [pages] array, is
    the field [fd_ref] of the state: the kernel and the clients change it. *)
From S2P Require Import Prelude Mem Mmu LibString Fs.

Definition MAXOPEN : Z := 1024.
Definition FILEVA : Z := 0xD0000000.
Definition fsreq : Z := 0x0ffff000.
Definition O_ACCMODE : Z := 0x0003.
Definition O_CREAT : Z := 0x0100.
Definition O_TRUNC : Z := 0x0200.
Definition O_EXCL : Z := 0x0400.
Definition PTE_SHARE : Z := 0x400.
Definition devfile_id : Z := 102. (* 'f' *)

Definition FSREQ_OPEN : Z := 1.
Definition FSREQ_SET_SIZE : Z := 2.
Definition FSREQ_READ : Z := 3.
Definition FSREQ_WRITE : Z := 4.
Definition FSREQ_STAT : Z := 5.
Definition FSREQ_FLUSH : Z := 6.
Definition FSREQ_REMOVE : Z := 7.
Definition FSREQ_SYNC : Z := 8.

(** Addresses of the fields of struct Fd. *)
Definition fd_dev_id (fd : Z) : Z := fd.
Definition fd_offset (fd : Z) : Z := fd + 4.
Definition fd_omode (fd : Z) : Z := fd + 8.
Definition fd_file_id (fd : Z) : Z := fd + 12.

Section serv.
Context {HW : Machine}.

Definition serve_init : F unit :=
  for_ (seqZ 0 MAXOPEN) (fun i =>
    let! t := gets opentab in
    let! o := deref (t !! i) in
    modify (set_opentab (<[i := mkOpen i (o_file o) (o_mode o) (FILEVA + i * PGSIZE)]> t))).

(** lib/pageref.c: 0 for an address that is not mapped. *)
Definition pageref (v : Z) : F Z :=
  gets (fun s => match fpt s !! PGNUM v with
                 | Some _ => default 0 (fd_ref s !! PGNUM v)
                 | None => 0
                 end).

(** Returns the result and the index of the entry. *)
Definition openfile_alloc : F (Z * Z) :=
  let! r := for_each (seqZ 0 MAXOPEN) (fun i =>
    let! t := gets opentab in
    let! o := deref (t !! i) in
    let! n := pageref (o_fd o) in
    let take : F (option (Z * Z)) :=
      let id := u32 (o_fileid o + MAXOPEN) in
      modify (fun s => set_opentab
        (<[i := mkOpen id (o_file o) (o_mode o) (o_fd o)]> (opentab s)) s) ;;;
      fs_memset (o_fd o) 0 PGSIZE ;;;
      ret (Some (s32 id, i)) in
    if n =? 0 then
      let! r := sys_page_alloc_self (o_fd o) in
      if r <? 0 then ret (Some (r, 0))
      else
        modify (fun s => set_fd_ref (<[PGNUM (o_fd o) := 1]> (fd_ref s)) s) ;;;
        take
    else if n =? 1 then take
    else ret None) in
  ret (default (- E_MAX_OPEN, 0) r).

Definition openfile_lookup (fileid : Z) : F (Z * Z) :=
  let i := fileid `mod` MAXOPEN in
  let! t := gets opentab in
  let! o := deref (t !! i) in
  let! n := pageref (o_fd o) in
  if (n <=? 1) || negb (o_fileid o =? fileid) then ret (- E_INVAL, 0)
  else ret (0, i).

(** The string at [a], at most [n] characters. *)
Fixpoint load_str (n : nat) (a : Z) : F (list Z) :=
  match n with
  | O => ret []
  | S n' =>
      let! c := load8 a in
      if c =? 0 then ret [] else let! l := load_str n' (a + 1) in ret (c :: l)
  end.

(** Returns the result, *pg_store and *perm_store; the latter two keep their
    old values on failure. *)
Definition serve_open (req perm : Z) : F (Z * Z * Z) :=
  let! path := load_str (Z.to_nat (MAXPATHLEN - 1)) req in
  let! a := openfile_alloc in
  let '(r, i) := a in
  if r <? 0 then ret (r, 0, perm)
  else
    let! omode := load32 (req + MAXPATHLEN) in
    let! g := (if flag omode O_CREAT then
                 let! c := file_create path in
                 let '(r, f) := c in
                 if r <? 0 then
                   if negb (flag omode O_EXCL) && (r =? - E_FILE_EXISTS)
                   then file_open path else ret (r, 0)
                 else ret (0, f)
               else file_open path) in
    let '(r, f) := g in
    if r <? 0 then ret (r, 0, perm)
    else
      let! r := (if flag omode O_TRUNC then file_set_size f 0 else ret 0) in
      if r <? 0 then ret (r, 0, perm)
      else
        let! g := file_open path in
        let '(r, f) := g in
        if r <? 0 then ret (r, 0, perm)
        else
          let! t := gets opentab in
          let! o := deref (t !! i) in
          modify (set_opentab (<[i := mkOpen (o_fileid o) f (s32 omode) (o_fd o)]> t)) ;;;
          store32 (fd_file_id (o_fd o)) (o_fileid o) ;;;
          store32 (fd_omode (o_fd o)) (Z.land omode O_ACCMODE) ;;;
          store32 (fd_dev_id (o_fd o)) devfile_id ;;;
          ret (0, o_fd o, Z.lor (Z.lor (Z.lor PTE_P PTE_U) PTE_W) PTE_SHARE).

(** The open file a request names. *)
Definition with_file (fileid : Z) (k : OpenFile -> F Z) : F Z :=
  let! l := openfile_lookup fileid in
  let '(r, i) := l in
  if r <? 0 then ret r
  else
    let! t := gets opentab in
    let! o := deref (t !! i) in
    k o.

Definition serve_set_size (req : Z) : F Z :=
  let! fileid := load32 req in
  with_file fileid (fun o =>
    let! size := load32 (req + 4) in
    file_set_size (o_file o) (s32 size)).

Definition serve_read (ipc : Z) : F Z :=
  let! fileid := load32 ipc in
  with_file fileid (fun o =>
    let! n := load32 (ipc + 4) in
    let! off := load32 (fd_offset (o_fd o)) in
    let! r := file_read (o_file o) ipc n (s32 off) in
    if r <? 0 then ret r
    else
      let! off := load32 (fd_offset (o_fd o)) in
      store32 (fd_offset (o_fd o)) (off + r) ;;;
      ret r).

Definition serve_write (req : Z) : F Z :=
  let! fileid := load32 req in
  with_file fileid (fun o =>
    let! n := load32 (req + 4) in
    let t := if PGSIZE <? n then PGSIZE else n in
    let! off := load32 (fd_offset (o_fd o)) in
    let! r := file_write (o_file o) (req + 8) t (s32 off) in
    if r <? 0 then ret r
    else
      let! off := load32 (fd_offset (o_fd o)) in
      store32 (fd_offset (o_fd o)) (off + r) ;;;
      ret r).

(** strcpy between two places in memory; the bound stops a name that is not
    terminated anywhere in a page. *)
Definition strcpy_mem (dst src : Z) : F unit :=
  loop (Z.to_nat PGSIZE) (fun p => let '(d, s) := p in
    let! c := load8 s in
    store8 d c ;;;
    if c =? 0 then ret (inr tt) else ret (inl (d + 1, s + 1))) (dst, src).

Definition serve_stat (ipc : Z) : F Z :=
  let! fileid := load32 ipc in
  with_file fileid (fun o =>
    strcpy_mem ipc (o_file o) ;;;
    let! sz := load32 (f_size (o_file o)) in
    store32 (ipc + MAXNAMELEN) sz ;;;
    let! ty := load32 (f_type (o_file o)) in
    store32 (ipc + MAXNAMELEN + 4) (if ty =? FTYPE_DIR then 1 else 0) ;;;
    ret 0).

Definition serve_flush (req : Z) : F Z :=
  let! fileid := load32 req in
  with_file fileid (fun o => file_flush (o_file o) ;;; ret 0).

Definition serve_sync : F Z := fs_sync ;;; ret 0.

Definition handlers (req : Z) : option (F Z) :=
  if req =? FSREQ_READ then Some (serve_read fsreq)
  else if req =? FSREQ_STAT then Some (serve_stat fsreq)
  else if req =? FSREQ_FLUSH then Some (serve_flush fsreq)
  else if req =? FSREQ_WRITE then Some (serve_write fsreq)
  else if req =? FSREQ_SET_SIZE then Some (serve_set_size fsreq)
  else if req =? FSREQ_SYNC then Some serve_sync
  else None.

(** One round of the loop for the request ipc_recv delivered: the arguments of
    the ipc_send that answers it, or [None] when the request is dropped. *)
Definition serve_request (req perm : Z) : F (option (Z * Z * Z)) :=
  if negb (flag perm PTE_P) then ret None
  else
    let! a := (if req =? FSREQ_OPEN then serve_open fsreq perm
               else match handlers req with
                    | Some h => let! r := h in ret (r, 0, perm)
                    | None => ret (- E_INVAL, 0, perm)
                    end) in
    sys_page_unmap_self fsreq ;;;
    ret (Some a).
End serv.
