(* ===== verification/FsCache.v ===== *)
(** * Correctness of the block cache (fs/bc.c, fs/ide.c)

    The client's view of the block cache is one flat memory [m]: [crep s m X]
    says that every mapped page holds what [m] has there and that the disk
    holds what [m] has for every block that is not dirty.  Faults, loads and
    flushes do not change [m]; a store changes [m] alone.  [X] are the pages
    mapped outside the disk region. *)
From S2P Require Import Prelude Mem Mmu LibString LibStringThms Fs.

(** A machine that does not run out of memory and whose disk works. *)
Class GoodMachine (HW : Machine) : Prop := {
  disk_works x : sector_fails x = false;
  memory_left t a : out_of_memory t a = false }.

Definition blk_page (b : Z) : Z := 65536 + b.
Definition blk_addr (b : Z) : Z := DISKMAP + b * BLKSIZE.
Definition in_disk (a : Z) : Prop := DISKMAP <= a < DISKMAP + DISKSIZE.
Definition blk (a : Z) : Z := (a - DISKMAP) / BLKSIZE.

(** The super block and the bitmap of the flat memory. *)
Definition nblocks (m : gmap Z Z) : Z := read32 m (blk_addr 1 + 4).
Definition bit_addr (b : Z) : Z := blk_addr 2 + 4 * (b / 32).
Definition free_bit (m : gmap Z Z) (b : Z) : bool :=
  flag (read32 m (bit_addr b)) (Z.shiftl 1 (b `mod` 32)).

(** What check_super and check_bitmap establish: the file system fits, and the
    super block and the bitmap blocks are in use. *)
Record fs_meta (m : gmap Z Z) : Prop := mk_meta {
  me_size : 2 < nblocks m <= DISKSIZE / BLKSIZE;
  me_bits i : 0 <= i -> i * BLKBITSIZE < nblocks m ->
    2 + i < nblocks m /\ free_bit m (2 + i) = false;
  me_super : free_bit m 1 = false }.

Record crep (s : fst) (m : gmap Z Z) (X : gset Z) : Prop := mk_crep {
  cr_super : super s = blk_addr 1;
  cr_bitmap : bitmap s = blk_addr 2;
  cr_sblk : is_Some (fpt s !! blk_page 1);
  cr_mem a : is_Some (fpt s !! PGNUM a) -> getb (fmem s) a = getb m a;
  cr_disk a : in_disk a -> fpt s !! PGNUM a <> Some true ->
    getb (disk s) (a - DISKMAP) = getb m a;
  cr_out p : p ∈ X -> is_Some (fpt s !! p) }.

(** A byte that can be accessed without a panic. *)
Definition acc (m : gmap Z Z) (X : gset Z) (a : Z) : Prop :=
  PGNUM a ∈ X \/ in_disk a /\ blk a < nblocks m /\ free_bit m (blk a) = false.

(** What every operation leaves alone. *)
Record kept (s s' : fst) : Prop := mk_kept {
  ke_open : opentab s' = opentab s;
  ke_ref : fd_ref s' = fd_ref s;
  ke_pt p : is_Some (fpt s !! p) -> is_Some (fpt s' !! p) }.

#[export] Instance kept_preorder : PreOrder kept.
Proof.
  split; [by intros s; constructor|]. intros s1 s2 s3 [] []. constructor; [congruence..|eauto].
Qed.

(** Faults only: nothing but clean pages is added. *)
Record faulted (s s' : fst) : Prop := mk_faulted {
  fa_kept : kept s s';
  fa_disk : disk s' = disk s;
  fa_old p : is_Some (fpt s !! p) -> fpt s' !! p = fpt s !! p;
  fa_new p : fpt s !! p = None -> fpt s' !! p <> Some true }.

#[export] Instance faulted_preorder : PreOrder faulted.
Proof.
  split; [intros s; constructor; [reflexivity|done..|congruence]|].
  intros s1 s2 s3 [K1 D1 O1 N1] [K2 D2 O2 N2]. constructor.
  - by transitivity s2.
  - congruence.
  - intros p Hp. rewrite O2 by (by rewrite O1). auto.
  - intros p Hp. specialize (N1 p Hp). destruct (fpt s2 !! p) eqn:E; [|auto].
    rewrite O2 by eauto. congruence.
Qed.

(** ** Addresses *)

Lemma DISKMAP_val : DISKMAP = 65536 * 4096.
Proof. reflexivity. Qed.
Lemma BLKSIZE_val : BLKSIZE = 4096.
Proof. reflexivity. Qed.
Lemma DISKSIZE_val : DISKSIZE = 786432 * 4096.
Proof. reflexivity. Qed.

Lemma PGNUM_blk a : PGNUM a = blk_page (blk a).
Proof.
  rewrite PGNUM_div. unfold blk_page, blk. rewrite BLKSIZE_val, DISKMAP_val.
  replace (a - 65536 * 4096) with (a + (- 65536) * 4096) by lia.
  rewrite Z.div_add by lia. lia.
Qed.

Lemma PGNUM_in a p : PGNUM a = p <-> p * 4096 <= a < p * 4096 + 4096.
Proof.
  rewrite PGNUM_div. pose proof (Z.div_mod a 4096 ltac:(lia)).
  pose proof (Z.mod_pos_bound a 4096 ltac:(lia)). nia.
Qed.

Lemma blk_in a b : blk a = b <-> blk_addr b <= a < blk_addr b + BLKSIZE.
Proof.
  unfold blk, blk_addr. rewrite BLKSIZE_val.
  pose proof (Z.div_mod (a - DISKMAP) 4096 ltac:(lia)).
  pose proof (Z.mod_pos_bound (a - DISKMAP) 4096 ltac:(lia)). nia.
Qed.

Lemma blk_page_addr b : blk_page b * 4096 = blk_addr b.
Proof. unfold blk_page, blk_addr. rewrite DISKMAP_val, BLKSIZE_val. lia. Qed.

Lemma in_disk_blk a : in_disk a <-> 0 <= blk a < 786432.
Proof.
  unfold in_disk. pose proof (proj1 (blk_in a (blk a)) eq_refl) as H.
  unfold blk_addr in H. rewrite BLKSIZE_val, DISKMAP_val in H.
  rewrite DISKSIZE_val, DISKMAP_val. lia.
Qed.

Lemma bit_blk b : 0 <= b -> blk (bit_addr b) = 2 + b / 32768 /\ blk (bit_addr b + 3) = 2 + b / 32768.
Proof.
  intros Hb. rewrite !blk_in. unfold bit_addr, blk_addr. rewrite BLKSIZE_val.
  assert (b / 32768 = b / 32 / 1024) as -> by (rewrite Z.div_div by lia; done).
  pose proof (Z.div_mod (b / 32) 1024 ltac:(lia)).
  pose proof (Z.mod_pos_bound (b / 32) 1024 ltac:(lia)). lia.
Qed.

Section cache.
Context {HW : Machine} {GM : GoodMachine HW}.
Implicit Types (s : fst) (m : gmap Z Z) (X : gset Z).

(** ** The disk driver *)

Lemma ide_read_ok s b p :
  0 <= b < 786432 -> p = blk_page b ->
  wp (ide_read (b * BLKSECTS) (p * 4096) BLKSECTS) (fun r s' => r = 0 /\
    exists mm, s' = set_fpt (<[p := true]> (fpt s)) (set_fmem mm s) /\
    forall a, getb mm a = if decide (PGNUM a = p) then getb (disk s) (a - DISKMAP)
                          else getb (fmem s) a) s.
Proof.
  intros Hb Hp. unfold wp, ide_read. apply wpe_bind, wpe_assert; [done|].
  assert ((b * BLKSECTS) `mod` 2^28 = b * 8) as -> by (apply Z.mod_small; change BLKSECTS with 8; lia).
  change BLKSECTS with 8. apply wpe_bind. eapply wp_wpe.
  - apply (wp_for_each_seq _ (fun i s' => exists mm,
      s' = set_fpt (if decide (i = 0) then fpt s else <[p := true]> (fpt s)) (set_fmem mm s) /\
      forall a, getb mm a = if decide (p * 4096 <= a < p * 4096 + i * 512)
        then getb (disk s) (a - DISKMAP) else getb (fmem s) a)); [lia| |].
    + exists (fmem s). split; [by destruct s|]. intros a. case_decide; [lia|done].
    + intros i s' Hi (mm & -> & Hmm). rewrite disk_works. unfold wp, read_sector. wp_steps.
      split; [done|]. eexists. split.
      * destruct (decide (i + 1 = 0)); [lia|]. unfold set_fpt, set_fmem. simpl. f_equal.
        rewrite (proj2 (PGNUM_in (p * 4096 + i * SECTSIZE) p))
          by (change SECTSIZE with 512; lia).
        destruct (decide (i = 0)); [done|]. by rewrite insert_insert_eq.
      * intros a. simpl. change SECTSIZE with 512.
        destruct (decide (p * 4096 + i * 512 <= a < p * 4096 + i * 512 + 512)) as [Ha|Ha].
        -- rewrite getb_put_bytes, bytes_at_lookup by lia.
           case_decide; [|lia]. rewrite u8_getb. case_decide; [|lia]. f_equal.
           rewrite DISKMAP_val. unfold blk_page in Hp. lia.
        -- rewrite getb_put_bytes_out by (rewrite length_bytes_at; lia). rewrite Hmm.
           repeat case_decide; try lia; done.
  - intros r s' (-> & mm & -> & Hmm). wp_steps. split; [done|]. exists mm. split; [done|].
    intros a. rewrite Hmm. destruct (decide (PGNUM a = p)) as [Ha|Ha]; rewrite PGNUM_in in Ha;
      case_decide; (lia || done).
Qed.

Lemma ide_write_ok s b p :
  0 <= b < 786432 -> p = blk_page b ->
  wp (ide_write (b * BLKSECTS) (p * 4096) BLKSECTS) (fun r s' => r = 0 /\
    exists d, s' = set_disk d s /\
    forall a, getb d (a - DISKMAP) = if decide (PGNUM a = p) then getb (fmem s) a
                          else getb (disk s) (a - DISKMAP)) s.
Proof.
  intros Hb Hp. unfold wp, ide_write. apply wpe_bind, wpe_assert; [done|].
  assert ((b * BLKSECTS) `mod` 2^28 = b * 8) as -> by (apply Z.mod_small; change BLKSECTS with 8; lia).
  change BLKSECTS with 8. apply wpe_bind. eapply wp_wpe.
  - apply (wp_for_each_seq _ (fun i s' => exists d, s' = set_disk d s /\
      forall a, getb d (a - DISKMAP) = if decide (p * 4096 <= a < p * 4096 + i * 512)
        then getb (fmem s) a else getb (disk s) (a - DISKMAP))); [lia| |].
    + exists (disk s). split; [by destruct s|]. intros a. case_decide; [lia|done].
    + intros i s' Hi (d & -> & Hd). rewrite disk_works. unfold wp, write_sector. wp_steps.
      split; [done|]. eexists. split; [done|].
      intros a. simpl. change SECTSIZE with 512. unfold blk_page in Hp.
      destruct (decide (p * 4096 + i * 512 <= a < p * 4096 + i * 512 + 512)) as [Ha|Ha].
      * rewrite getb_put_bytes, bytes_at_lookup by (rewrite DISKMAP_val; lia).
        rewrite DISKMAP_val. case_decide; [|lia]. rewrite u8_getb. case_decide; [|lia]. f_equal. lia.
      * rewrite getb_put_bytes_out by (rewrite length_bytes_at, DISKMAP_val; lia). rewrite Hd.
        repeat case_decide; try lia; done.
  - intros r s' (-> & d & -> & Hd). wp_steps. split; [done|]. exists d. split; [done|].
    intros a. rewrite Hd. destruct (decide (PGNUM a = p)) as [Ha|Ha]; rewrite PGNUM_in in Ha;
      case_decide; (lia || done).
Qed.

(** ** Faults *)

(** Touching [a] works: it leaves the page mapped and the view alone. *)
Definition touches (fault : Z -> F unit) m X (a : Z) : Prop :=
  forall s, crep s m X ->
  wp (touch_with fault a) (fun _ s' =>
    crep s' m X /\ is_Some (fpt s' !! PGNUM a) /\ faulted s s') s.

Lemma touch_mapped fault s a Q :
  is_Some (fpt s !! PGNUM a) -> Q tt s -> wp (touch_with fault a) Q s.
Proof. intros [d Hd] HQ. unfold wp, touch_with. wp_steps. rewrite Hd. by wp_steps. Qed.

Lemma page_between a b : a <= b <= a + 3 -> PGNUM b = PGNUM a \/ PGNUM b = PGNUM (a + 3).
Proof.
  intros H. rewrite !PGNUM_div. pose proof (Z.div_mod a 4096 ltac:(lia)).
  pose proof (Z.mod_pos_bound a 4096 ltac:(lia)).
  pose proof (Z.div_mod b 4096 ltac:(lia)). pose proof (Z.mod_pos_bound b 4096 ltac:(lia)).
  pose proof (Z.div_mod (a + 3) 4096 ltac:(lia)). pose proof (Z.mod_pos_bound (a + 3) 4096 ltac:(lia)).
  lia.
Qed.

Lemma crep_read32 s m X a :
  crep s m X -> is_Some (fpt s !! PGNUM a) -> is_Some (fpt s !! PGNUM (a + 3)) ->
  read32 (fmem s) a = read32 m a.
Proof.
  intros R H1 H2. apply read32_ext. intros b Hb. apply (cr_mem _ _ _ R).
  destruct (page_between a b ltac:(lia)) as [->| ->]; done.
Qed.

Lemma load32_with_ok fault s m X a :
  touches fault m X a -> touches fault m X (a + 3) -> crep s m X ->
  wp (load32_with fault a) (fun w s' => w = read32 m a /\ crep s' m X /\ faulted s s' /\
    is_Some (fpt s' !! PGNUM a) /\ is_Some (fpt s' !! PGNUM (a + 3))) s.
Proof.
  intros T1 T2 R. unfold wp, load32_with. apply wpe_bind.
  eapply wpe_mono; [by apply T1| |done]. intros _ s1 (R1 & M1 & F1). cbn beta.
  apply wpe_bind. eapply wpe_mono; [by apply T2| |done]. intros _ s2 (R2 & M2 & F2). cbn beta.
  wp_steps. pose proof (ke_pt _ _ (fa_kept _ _ F2) _ M1) as M3.
  split; [by eapply crep_read32|]. split; [done|]. split; [by transitivity s1|]. done.
Qed.

Lemma touches_mapped fault s m X a :
  is_Some (fpt s !! PGNUM a) -> crep s m X ->
  wp (touch_with fault a) (fun _ s' => s' = s) s.
Proof. intros H R. by apply touch_mapped. Qed.

Lemma load32_mapped fault s m X a :
  crep s m X -> is_Some (fpt s !! PGNUM a) -> is_Some (fpt s !! PGNUM (a + 3)) ->
  wp (load32_with fault a) (fun w s' => w = read32 m a /\ s' = s) s.
Proof.
  intros R H1 H2. unfold wp, load32_with. apply wpe_bind, touch_mapped; [done|].
  apply wpe_bind, touch_mapped; [done|]. wp_steps. split; [by eapply crep_read32|done].
Qed.

(** The super block is always mapped. *)
Lemma load_nblocks fault s m X :
  crep s m X -> wp (load32_with fault (s_nblocks (super s))) (fun w s' => w = nblocks m /\ s' = s) s.
Proof.
  intros R. rewrite (cr_super _ _ _ R).
  pose proof (cr_sblk _ _ _ R) as H.
  apply load32_mapped with X; [done|..]; rewrite PGNUM_blk;
    (rewrite (proj2 (blk_in _ 1)); [done|]); unfold s_nblocks; rewrite BLKSIZE_val; lia.
Qed.

Lemma block_is_free_with_ok fault s m X b :
  fs_meta m -> crep s m X -> 0 <= b ->
  (b < nblocks m -> wp (load32_with fault (bit_addr b)) (fun w s' =>
     w = read32 m (bit_addr b) /\ crep s' m X /\ faulted s s') s) ->
  wp (block_is_free_with fault b) (fun r s' => r = (b <? nblocks m) && free_bit m b /\
    crep s' m X /\ faulted s s') s.
Proof.
  intros Hm R Hb HT. unfold wp, block_is_free_with. wp_steps.
  destruct (Z.eqb_spec (super s) 0) as [E|_].
  { rewrite (cr_super _ _ _ R) in E. by vm_compute in E. }
  apply wpe_bind. eapply wpe_mono; [by apply (load_nblocks _ _ m X)| |done]. intros nb s1 [-> ->]. cbn beta.
  destruct (Z.leb_spec (nblocks m) b) as [Hge|Hlt].
  - wp_steps. destruct (Z.ltb_spec b (nblocks m)); [lia|]. by split.
  - wp_steps. rewrite (cr_bitmap _ _ _ R).
    fold (bit_addr b). eapply wpe_mono; [by apply HT| |done].
    intros w s1 (-> & R1 & F1). wp_steps. destruct (Z.ltb_spec b (nblocks m)); [|lia]. done.
Qed.

(** Mapping one clean block. *)
Lemma crep_map s m X a mm :
  crep s m X -> in_disk a -> fpt s !! PGNUM a = None ->
  (forall x, getb mm x = if decide (PGNUM x = PGNUM a) then getb (disk s) (x - DISKMAP)
                         else getb (fmem s) x) ->
  let s' := set_fpt (<[PGNUM a := false]> (fpt s)) (set_fmem mm s) in
  crep s' m X /\ is_Some (fpt s' !! PGNUM a) /\ faulted s s'.
Proof.
  intros R Ha Hn Hmm s'. assert (is_Some (fpt s' !! PGNUM a)) as Hs.
  { simpl. rewrite lookup_insert_eq. eauto. }
  assert (forall p, is_Some (fpt s !! p) -> fpt s' !! p = fpt s !! p) as Hold.
  { intros p [d Hp]. simpl. rewrite lookup_insert_ne; [done|congruence]. }
  split; [|split; [done|]].
  - destruct R as [Rs Rb Rk Rm Rd Ro]. constructor; try done.
    + by rewrite Hold.
    + intros x Hx. simpl in *. rewrite Hmm. case_decide as E.
      * apply Rd; [|congruence]. apply in_disk_blk. apply in_disk_blk in Ha.
        rewrite !PGNUM_blk in E. unfold blk_page in E. lia.
      * apply Rm. by rewrite lookup_insert_ne in Hx by done.
    + intros x Hx Hd. apply Rd; [done|]. simpl in Hd. intros E. apply Hd.
      by rewrite lookup_insert_ne by congruence.
    + intros p Hp. rewrite Hold by auto. auto.
  - constructor; [|done|done|].
    + constructor; [done..|]. intros p Hp. by rewrite Hold.
    + intros p Hp. simpl. destruct (decide (p = PGNUM a)) as [->|Hne].
      * by rewrite lookup_insert_eq.
      * rewrite lookup_insert_ne by done. by rewrite Hp.
Qed.

Lemma disk_round a : in_disk a -> ROUNDDOWN a PGSIZE = PGNUM a * 4096.
Proof.
  unfold in_disk. rewrite DISKMAP_val, DISKSIZE_val. intros H. change PGSIZE with 4096.
  rewrite ROUNDDOWN_pg, u32_small, PGNUM_div by lia. done.
Qed.

Lemma disk_blk a : in_disk a -> u32 (a - DISKMAP) / BLKSIZE = blk a /\ 0 <= blk a < 786432.
Proof.
  intros H. pose proof H as Hb. apply in_disk_blk in Hb. split; [|done].
  unfold in_disk in H. rewrite DISKMAP_val, DISKSIZE_val in H. unfold blk.
  rewrite u32_small by (rewrite DISKMAP_val; lia). done.
Qed.

Lemma disk_bounds {A} a (k : F A) msg :
  in_disk a -> (if (a <? DISKMAP) || (DISKMAP + DISKSIZE <=? a) then panic msg else k) = k.
Proof.
  intros [H1 H2]. destruct (Z.ltb_spec a DISKMAP); [lia|].
  destruct (Z.leb_spec (DISKMAP + DISKSIZE) a); [lia|]. done.
Qed.

(** Reading a block in: what sys_page_alloc, ide_read and sys_page_map do. *)
Lemma read_in_ok s m X a :
  crep s m X -> in_disk a -> fpt s !! PGNUM a = None ->
  forall (k : F unit) Q, (forall s', crep s' m X -> is_Some (fpt s' !! PGNUM a) -> faulted s s' ->
    wp k Q s') ->
  wp (let! r := sys_page_alloc_self (PGNUM a * 4096) in
      if r <? 0 then panic "in bc_pgfault, sys_page_alloc"
      else
        let! r := ide_read (blk a * BLKSECTS) (PGNUM a * 4096) BLKSECTS in
        if r <? 0 then panic "in bc_pgfault, ide_read"
        else
          let! r := sys_page_map_self (PGNUM a * 4096) in
          if r <? 0 then panic "in bc_pgfault, sys_page_map" else k) Q s.
Proof.
  intros R Ha Hn k Q HQ. unfold wp. apply wpe_bind. unfold sys_page_alloc_self. wp_steps.
  rewrite memory_left. wp_steps. destruct (Z.ltb_spec 0 0); [lia|].
  rewrite PGNUM_page. apply wpe_bind.
  eapply wpe_mono; [apply ide_read_ok; [by apply in_disk_blk|apply PGNUM_blk]| |done].
  intros r s1 (-> & mm & -> & Hmm). cbn beta. destruct (Z.ltb_spec 0 0); [lia|].
  unfold sys_page_map_self. wp_steps. rewrite PGNUM_page. simpl.
  rewrite lookup_insert_eq. wp_steps. destruct (Z.ltb_spec 0 0); [lia|].
  unfold set_fpt, set_fmem. simpl. rewrite !insert_insert_eq.
  destruct (crep_map s m X a mm R Ha Hn) as (R' & M' & F').
  { intros x. rewrite Hmm. simpl. case_decide as E; [done|].
    rewrite getb_fill. case_decide as Hx; [|done]. exfalso. apply E, PGNUM_in.
    change (Z.of_nat (Z.to_nat PGSIZE)) with 4096 in Hx. lia. }
  by apply HQ.
Qed.

Lemma bc_pgfault_step d s m X a :
  crep s m X -> fs_meta m -> in_disk a -> blk a < nblocks m -> free_bit m (blk a) = false ->
  fpt s !! PGNUM a = None ->
  (forall s1, crep s1 m X -> is_Some (fpt s1 !! PGNUM a) ->
    wp (block_is_free_with (bc_pgfault d) (blk a)) (fun r s' => r = false /\
      crep s' m X /\ faulted s1 s') s1) ->
  wp (bc_pgfault (S d) a) (fun _ s' =>
    crep s' m X /\ is_Some (fpt s' !! PGNUM a) /\ faulted s s') s.
Proof.
  intros R Hm Ha Hb Hf Hn Hin. unfold wp.
  cbn [bc_pgfault]. rewrite disk_bounds by done. destruct (disk_blk a Ha) as [-> Hr].
  rewrite (disk_round a Ha). wp_steps. destruct (Z.eqb_spec (super s) 0) as [E|_].
  { rewrite (cr_super _ _ _ R) in E. by vm_compute in E. }
  apply wpe_bind. eapply wpe_mono; [by apply (load_nblocks _ _ m X)| |done].
  intros nb s1 [-> ->]. wp_steps. destruct (Z.leb_spec (nblocks m) (blk a)); [lia|].
  eapply read_in_ok; [done..|]. intros s1 R1 M1 F1. unfold wp. wp_steps.
  destruct (Z.eqb_spec (bitmap s1) 0) as [E|_].
  { rewrite (cr_bitmap _ _ _ R1) in E. by vm_compute in E. }
  eapply wpe_mono; [by apply Hin| |done]. intros r s2 (-> & R2 & F2). wp_steps.
  split; [done|]. split; [apply (ke_pt _ _ (fa_kept _ _ F2) _ M1)|]. by transitivity s1.
Qed.

(** The bitmap word of a block can be touched with one level of nesting less. *)
Lemma touches_of_fault d m X a :
  (forall s, crep s m X -> fpt s !! PGNUM a = None ->
    wp (bc_pgfault d a) (fun _ s' =>
      crep s' m X /\ is_Some (fpt s' !! PGNUM a) /\ faulted s s') s) ->
  touches (bc_pgfault d) m X a.
Proof.
  intros H s R. unfold touch_with, wp. apply wpe_bind, wpe_gets.
  destruct (fpt s !! PGNUM a) eqn:E; [|by apply H]. wp_steps. split; [done|].
  split; [eauto|reflexivity].
Qed.

(** The three levels: the first bitmap block, any bitmap block, any block. *)
Lemma fault_level d m X a :
  fs_meta m -> in_disk a -> blk a < nblocks m -> free_bit m (blk a) = false ->
  (blk a / 32768 = 0 /\ blk a = 2 \/
   touches (bc_pgfault d) m X (bit_addr (blk a)) /\ touches (bc_pgfault d) m X (bit_addr (blk a) + 3)) ->
  touches (bc_pgfault (S d)) m X a.
Proof.
  intros Hm Ha Hb Hf Hc. pose proof (proj1 (in_disk_blk a) Ha) as Hr.
  apply touches_of_fault. intros s R Hn. apply bc_pgfault_step; [done..|].
  intros s1 R1 M1. eapply wp_mono; [apply (block_is_free_with_ok _ _ m X); [done..|lia|]|].
  - intros _. destruct Hc as [[H0 H2]|[T1 T2]].
    + destruct (bit_blk (blk a) ltac:(lia)) as [E1 E2]. rewrite H0, Z.add_0_r in E1, E2.
      eapply wp_mono; [apply (load32_mapped _ _ m X); [done|..]; rewrite PGNUM_blk;
        [rewrite E1|rewrite E2]; rewrite PGNUM_blk in M1; by rewrite H2 in M1|].
      intros w s' [-> ->]. done.
    + eapply wp_mono; [by apply load32_with_ok|]. naive_solver.
  - intros r s' (-> & R' & F'). rewrite Hf, andb_false_r. done.
Qed.

Lemma bitmap_block m b x :
  fs_meta m -> 0 <= b < nblocks m -> blk x = 2 + b / 32768 ->
  in_disk x /\ blk x < nblocks m /\ free_bit m (blk x) = false.
Proof.
  intros [Hs Hbits Hsup] Hb Hx. pose proof (Z.div_mod b 32768 ltac:(lia)).
  pose proof (Z.mod_pos_bound b 32768 ltac:(lia)). destruct (Hbits (b / 32768)) as [H1 H2].
  - lia.
  - change BLKBITSIZE with 32768. lia.
  - change (DISKSIZE / BLKSIZE) with 786432 in Hs. rewrite in_disk_blk, Hx. split; [lia|done].
Qed.

Lemma blk_div b m : fs_meta m -> 0 <= b < nblocks m -> (2 + b / 32768) / 32768 = 0.
Proof.
  intros [Hs _ _] Hb. change (DISKSIZE / BLKSIZE) with 786432 in Hs.
  pose proof (Z.div_mod b 32768 ltac:(lia)). pose proof (Z.mod_pos_bound b 32768 ltac:(lia)).
  apply Z.div_small. lia.
Qed.

(** A block whose bitmap word lies in the first bitmap block. *)
Lemma fault_low d m X a :
  fs_meta m -> in_disk a -> blk a < nblocks m -> free_bit m (blk a) = false ->
  blk a / 32768 = 0 -> touches (bc_pgfault (S (S d))) m X a.
Proof.
  intros Hm Ha Hb Hf H0. pose proof (proj1 (in_disk_blk a) Ha) as Hr.
  destruct (bit_blk (blk a) ltac:(lia)) as [E1 E2].
  destruct (bitmap_block m (blk a) _ Hm ltac:(lia) E1) as (D1 & B1 & F1).
  destruct (bitmap_block m (blk a) _ Hm ltac:(lia) E2) as (D2 & B2 & F2).
  rewrite H0, Z.add_0_r in E1, E2.
  apply fault_level; [done..|]. right.
  split; (apply fault_level; [done..|left; by rewrite ?E1, ?E2]).
Qed.

Lemma touch_ok m X a : fs_meta m -> acc m X a -> touches (bc_pgfault max_depth) m X a.
Proof.
  intros Hm [HX|(Ha & Hb & Hf)].
  - intros s R. apply touch_mapped; [by apply (cr_out _ _ _ R)|].
    split; [done|]. split; [by apply (cr_out _ _ _ R)|reflexivity].
  - pose proof (proj1 (in_disk_blk a) Ha) as Hr. destruct (bit_blk (blk a) ltac:(lia)) as [E1 E2].
    destruct (bitmap_block m (blk a) _ Hm ltac:(lia) E1) as (D1 & B1 & F1).
    destruct (bitmap_block m (blk a) _ Hm ltac:(lia) E2) as (D2 & B2 & F2).
    apply fault_level; [done..|]. right.
    split; (apply fault_low; [done..|]); rewrite ?E1, ?E2; (apply (blk_div _ m); [done|lia]).
Qed.

(** ** Loads and stores *)

Lemma load8_ok s m X a :
  fs_meta m -> crep s m X -> acc m X a ->
  wp (load8 a) (fun v s' => v = getb m a /\ crep s' m X /\ faulted s s') s.
Proof.
  intros Hm R Ha. unfold wp, load8. apply wpe_bind.
  eapply wpe_mono; [by apply touch_ok| |done]. intros _ s1 (R1 & M1 & F1). wp_steps.
  split; [by apply (cr_mem _ _ _ R1)|done].
Qed.

Lemma load32_ok s m X a :
  fs_meta m -> crep s m X -> acc m X a -> acc m X (a + 3) ->
  wp (load32 a) (fun v s' => v = read32 m a /\ crep s' m X /\ faulted s s') s.
Proof.
  intros Hm R H1 H2. eapply wp_mono.
  - apply load32_with_ok; [by apply touch_ok..|done].
  - naive_solver.
Qed.

(** Writing bytes of mapped pages and marking those pages dirty. *)
Lemma crep_write s m X mm m' (D : Z -> bool) :
  crep s m X ->
  (forall p, D p = true -> is_Some (fpt s !! p)) ->
  (forall a, is_Some (fpt s !! PGNUM a) -> getb mm a = getb m' a) ->
  (forall a, in_disk a -> D (PGNUM a) = false -> getb m' a = getb m a) ->
  forall t, (forall p, t !! p = if D p then Some true else fpt s !! p) ->
  let s' := set_fpt t (set_fmem mm s) in
  crep s' m' X /\ kept s s'.
Proof.
  intros [Rs Rb Rk Rm Rd Ro] HD Hmm Hout t Ht s'.
  assert (forall p, is_Some (t !! p) <-> is_Some (fpt s !! p)) as Hsome.
  { intros p. rewrite Ht. destruct (D p) eqn:E; [|done]. split; [auto|eauto]. }
  split; constructor; try done; simpl.
  - by rewrite Hsome.
  - intros a Ha. apply Hmm. by rewrite <- Hsome.
  - intros a Ha Hd. rewrite Ht in Hd. destruct (D (PGNUM a)) eqn:E; [done|].
    rewrite Hout by done. by apply Rd.
  - intros p Hp. rewrite Hsome. auto.
  - intros p Hp. by rewrite Hsome.
Qed.

Lemma store8_ok s m X a v :
  fs_meta m -> crep s m X -> acc m X a ->
  wp (store8 a v) (fun _ s' => crep s' (setb m a v) X /\ kept s s') s.
Proof.
  intros Hm R Ha. unfold wp, store8, set_dirty. apply wpe_bind.
  eapply wpe_mono; [by apply touch_ok| |done]. intros _ s1 (R1 & M1 & F1). wp_steps.
  destruct (crep_write s1 m X (setb (fmem s1) a v) (setb m a v) (fun p => p =? PGNUM a) R1)
    with (t := <[PGNUM a := true]> (fpt s1)) as [R2 K2].
  - intros p ->%Z.eqb_eq. done.
  - intros b Hb. rewrite !getb_setb. case_decide; [done|]. by apply (cr_mem _ _ _ R1).
  - intros b Hb Hne%Z.eqb_neq. rewrite getb_setb_ne; [done|congruence].
  - intros p. destruct (Z.eqb_spec p (PGNUM a)) as [->|]; [by rewrite lookup_insert_eq|].
    by rewrite lookup_insert_ne.
  - split; [done|]. transitivity s1; [apply F1|done].
Qed.

Lemma store32_ok s m X a v :
  fs_meta m -> crep s m X -> acc m X a -> acc m X (a + 3) ->
  wp (store32 a v) (fun _ s' => crep s' (write32 m a v) X /\ kept s s') s.
Proof.
  intros Hm R H1 H2. unfold wp, store32, set_dirty. apply wpe_bind.
  eapply wpe_mono; [by apply touch_ok| |done]. intros _ s1 (R1 & M1 & F1). apply wpe_bind.
  eapply wpe_mono; [by apply touch_ok| |done]. intros _ s2 (R2 & M2 & F2). wp_steps.
  pose proof (ke_pt _ _ (fa_kept _ _ F2) _ M1) as M1'.
  destruct (crep_write s2 m X (write32 (fmem s2) a v) (write32 m a v)
    (fun p => (p =? PGNUM a) || (p =? PGNUM (a + 3))) R2)
    with (t := <[PGNUM (a + 3) := true]> (<[PGNUM a := true]> (fpt s2))) as [R3 K3].
  - intros p [->%Z.eqb_eq| ->%Z.eqb_eq]%orb_true_iff; done.
  - intros b Hb. unfold write32. rewrite !getb_setb. repeat (case_decide; [done|]).
    by apply (cr_mem _ _ _ R2).
  - intros b Hb [N1%Z.eqb_neq N2%Z.eqb_neq]%orb_false_iff.
    destruct (decide (a <= b <= a + 3)) as [Hin|Hout].
    + by destruct (page_between a b Hin).
    + rewrite getb_write32_ne; [done|lia].
  - intros p. rewrite !lookup_insert. destruct (Z.eqb_spec p (PGNUM a)) as [E1|E1];
      destruct (Z.eqb_spec p (PGNUM (a + 3))) as [E2|E2]; repeat case_decide; done.
  - split; [done|]. transitivity s1; [apply F1|]. transitivity s2; [apply F2|done].
Qed.

(** ** The memory routines *)

Lemma acc_page m X a b : PGNUM a = PGNUM b -> acc m X a -> acc m X b.
Proof.
  unfold acc. rewrite !in_disk_blk, !PGNUM_blk. unfold blk_page. intros H.
  assert (blk a = blk b) as -> by lia. done.
Qed.

Lemma pages_of_in a n p :
  0 < n -> p ∈ pages_of a n <-> exists x, a <= x < a + n /\ PGNUM x = p.
Proof.
  intros Hn. unfold pages_of. rewrite elem_of_seqZ. rewrite !PGNUM_div.
  pose proof (Z.div_mod a 4096 ltac:(lia)). pose proof (Z.mod_pos_bound a 4096 ltac:(lia)).
  pose proof (Z.div_mod (a + n - 1) 4096 ltac:(lia)).
  pose proof (Z.mod_pos_bound (a + n - 1) 4096 ltac:(lia)). split.
  - intros Hp. exists (Z.max a (p * 4096)). split; [lia|]. apply PGNUM_in. lia.
  - intros (x & Hx & <-). rewrite PGNUM_div.
    pose proof (Z.div_mod x 4096 ltac:(lia)). pose proof (Z.mod_pos_bound x 4096 ltac:(lia)). lia.
Qed.

Definition acc_range m X (a n : Z) : Prop := forall x, a <= x < a + n -> acc m X x.

Lemma touch_all_ok s m X a n :
  fs_meta m -> crep s m X -> 0 < n -> acc_range m X a n ->
  wp (for_ (pages_of a n) (fun p => touch (p * PGSIZE))) (fun _ s' =>
    crep s' m X /\ faulted s s' /\ forall x, a <= x < a + n -> is_Some (fpt s' !! PGNUM x)) s.
Proof.
  intros Hm R Hn Ha. eapply wp_mono; [eapply wpe_for with (pre := [])
    (Inv := fun dn s' => crep s' m X /\ faulted s s' /\ forall p, p ∈ dn -> is_Some (fpt s' !! p))|].
  - split; [done|]. split; [reflexivity|]. intros p Hp. by apply elem_of_nil in Hp.
  - intros dn p todo s' (R' & F' & D') Heq. simpl in Heq.
    assert (p ∈ pages_of a n) as Hp by (rewrite Heq; set_solver).
    apply pages_of_in in Hp as (x & Hx & Hp); [|done].
    eapply wp_wpe; [apply touch_ok; [done| |exact R']|].
    + eapply acc_page, Ha, Hx. change PGSIZE with 4096. by rewrite PGNUM_page.
    + change PGSIZE with 4096. rewrite PGNUM_page. intros _ s'' (R2 & M2 & F2).
      split; [done|]. split; [by transitivity s'|]. intros q [Hq| ->%list_elem_of_singleton]%elem_of_app; [|done].
      apply (ke_pt _ _ (fa_kept _ _ F2)). auto.
  - intros _ s' (R' & F' & D'). split; [done|]. split; [done|]. intros x Hx. apply D'.
    apply pages_of_in; [done|]. eauto.
Qed.

Lemma dirty_all_ok s (l : list Z) :
  wp (for_ l (fun p => set_dirty (p * PGSIZE))) (fun _ s' => exists t, s' = set_fpt t s /\
    forall p, t !! p = if bool_decide (p ∈ l) then Some true else fpt s !! p) s.
Proof.
  eapply wp_mono; [eapply wpe_for with (pre := []) (Inv := fun dn s' => exists t, s' = set_fpt t s /\
    forall p, t !! p = if bool_decide (p ∈ dn) then Some true else fpt s !! p)|intros u s' H; exact H].
  - exists (fpt s). by destruct s.
  - intros dn p todo s' (t & -> & Ht) _. unfold set_dirty. wp_steps. eexists. split; [done|].
    intros q. simpl. change PGSIZE with 4096. rewrite PGNUM_page, lookup_insert, Ht.
    case_decide as E.
    + rewrite bool_decide_eq_true_2; [done|]. set_solver.
    + destruct (decide (q ∈ dn)).
      * rewrite !bool_decide_eq_true_2 by set_solver. done.
      * rewrite !bool_decide_eq_false_2; [done| |done].
        rewrite elem_of_app, list_elem_of_singleton. naive_solver.
Qed.

Lemma lift_ok {A} (c : B A) Q s :
  wp c Q (fmem s) -> wp (lift c) (fun r s' => exists mm, s' = set_fmem mm s /\ Q r mm) s.
Proof. unfold wp, wpe, lift. destruct (c (fmem s)); [|done..]. eauto. Qed.

(** Running a routine that writes [a, a+n) on mapped pages. *)
Lemma run_routine_ok {A} (c : B A) s m m' X a n :
  crep s m X -> 0 < n ->
  (forall x, a <= x < a + n -> is_Some (fpt s !! PGNUM x)) ->
  wp c (fun _ mm => forall x, is_Some (fpt s !! PGNUM x) -> getb mm x = getb m' x) (fmem s) ->
  (forall x, ~ (a <= x < a + n) -> getb m' x = getb m x) ->
  wp (lift c ;;; for_ (pages_of a n) (fun p => set_dirty (p * PGSIZE)))
    (fun _ s' => crep s' m' X /\ kept s s') s.
Proof.
  intros R Hn Hmap Hc Hout. unfold wp. apply wpe_bind.
  eapply wpe_mono; [by apply lift_ok| |done]. intros _ s1 (mm & -> & Hmm). cbn beta.
  eapply wpe_mono; [apply dirty_all_ok| |done]. intros _ s2 (t & -> & Ht).
  apply (crep_write s m X mm m' (fun p => bool_decide (p ∈ pages_of a n)) R); [|done| |exact Ht].
  - intros p Hp%bool_decide_eq_true_1. apply pages_of_in in Hp as (x & Hx & <-); auto.
  - intros x _ Hx%bool_decide_eq_false_1. apply Hout. intros Hin. apply Hx.
    apply pages_of_in; eauto.
Qed.

Lemma fs_memmove_ok s m X dst src n :
  fs_meta m -> crep s m X -> 0 <= n -> acc_range m X src n -> acc_range m X dst n ->
  wp (fs_memmove dst src n) (fun _ s' => kept s s' /\ exists m', crep s' m' X /\
    forall b, getb m' b = if decide (dst <= b < dst + n) then getb m (src + (b - dst)) else getb m b) s.
Proof.
  intros Hm R Hn Hs Hd. unfold wp, fs_memmove. destruct (Z.eqb_spec n 0) as [->|Hne].
  { wp_steps. split; [reflexivity|]. exists m. split; [done|]. intros b. case_decide; [lia|done]. }
  apply wpe_bind. eapply wpe_mono; [apply touch_all_ok; [done..|lia|done]| |done].
  intros _ s1 (R1 & F1 & M1). cbn beta. apply wpe_bind.
  eapply wpe_mono; [apply touch_all_ok; [done..|lia|done]| |done].
  intros _ s2 (R2 & F2 & M2). cbn beta.
  pose (m' := put_bytes m dst (bytes_at m src (Z.to_nat n))).
  assert (forall b, getb m' b = if decide (dst <= b < dst + n) then getb m (src + (b - dst)) else getb m b) as Hm'.
  { intros b. unfold m'. rewrite getb_copy, Z2Nat.id by lia. done. }
  eapply wpe_mono; [apply (run_routine_ok (memmove dst src n) s2 m m' X dst n R2 ltac:(lia) M2)| |done].
  - eapply wp_mono; [by apply memmove_ok|]. intros r mm [_ Hmm] x Hx.
    rewrite Hmm, Hm', Z.add_0_r. case_decide as Hin; apply (cr_mem _ _ _ R2); [|done].
    apply (ke_pt _ _ (fa_kept _ _ F2)), M1. lia.
  - intros x Hx. rewrite Hm'. case_decide; done.
  - intros _ s3 [R3 K3]. split; [|by exists m'].
    transitivity s1; [apply F1|]. transitivity s2; [apply F2|done].
Qed.

Lemma fs_memset_ok s m X v c n :
  fs_meta m -> crep s m X -> 0 <= n -> acc_range m X v n ->
  wp (fs_memset v c n) (fun _ s' => kept s s' /\ crep s' (fill m v c (Z.to_nat n)) X) s.
Proof.
  intros Hm R Hn Hv. unfold wp, fs_memset. destruct (Z.eqb_spec n 0) as [->|Hne].
  { wp_steps. split; [reflexivity|]. done. }
  apply wpe_bind. eapply wpe_mono; [apply touch_all_ok; [done..|lia|done]| |done].
  intros _ s1 (R1 & F1 & M1). cbn beta.
  eapply wpe_mono; [apply (run_routine_ok (memset v c n) s1 m (fill m v c (Z.to_nat n)) X v n R1 ltac:(lia) M1)| |done].
  - eapply wp_mono; [by apply memset_ok|]. intros r mm [_ Hmm] x Hx.
    rewrite Hmm, getb_fill, Z2Nat.id by lia. case_decide; [done|]. by apply (cr_mem _ _ _ R1).
  - intros x Hx. rewrite getb_fill, Z2Nat.id by lia. case_decide; done.
  - intros _ s2 [R2 K2]. split; [|done]. transitivity s1; [apply F1|done].
Qed.

(** ** Flushing *)

Lemma diskaddr_ok s m X b :
  crep s m X -> 0 < b < nblocks m -> nblocks m <= 786432 ->
  wp (diskaddr b) (fun a s' => a = blk_addr b /\ s' = s) s.
Proof.
  intros R Hb Hn. unfold wp, diskaddr. apply wpe_bind, wpe_gets. cbn beta.
  destruct (Z.eqb_spec b 0); [lia|]. destruct (Z.eqb_spec (super s) 0) as [E|_].
  { rewrite (cr_super _ _ _ R) in E. by vm_compute in E. }
  apply wpe_bind, wpe_bind. eapply wpe_mono; [by apply (load_nblocks _ _ m X)| |done].
  intros nb s1 [-> ->]. wp_steps. destruct (Z.leb_spec (nblocks m) b); [lia|]. wp_steps.
  split; [|done]. unfold blk_addr. rewrite u32_small; [done|]. rewrite DISKMAP_val, BLKSIZE_val. lia.
Qed.

Lemma flush_block_ok s m X a :
  crep s m X -> in_disk a ->
  wp (flush_block a) (fun _ s' => crep s' m X /\ kept s s' /\
    fpt s' !! PGNUM a <> Some true /\
    forall p, p <> PGNUM a -> fpt s' !! p = fpt s !! p) s.
Proof.
  intros R Ha. unfold wp, flush_block. rewrite disk_bounds by done.
  destruct (disk_blk a Ha) as [-> Hr]. rewrite (disk_round a Ha).
  unfold va_is_mapped, va_is_dirty. apply wpe_bind, wpe_gets, wpe_bind, wpe_gets.
  rewrite PGNUM_page. destruct (fpt s !! PGNUM a) as [[]|] eqn:E; cbn [default from_option id].
  - rewrite bool_decide_eq_true_2 by eauto. simpl andb. cbv iota. apply wpe_bind.
    eapply wpe_mono; [apply ide_write_ok; [done|apply PGNUM_blk]| |done].
    intros r s1 (-> & d & -> & Hd). cbn beta. unfold sys_page_map_self. wp_steps.
    rewrite PGNUM_page. simpl. rewrite E. wp_steps. destruct (Z.ltb_spec 0 0); [lia|]. wp_steps.
    split; [|split; [|split]].
    + destruct R as [Rs Rb Rk Rm Rd Ro].
      assert (forall p, is_Some (<[PGNUM a:=false]> (fpt s) !! p) <-> is_Some (fpt s !! p)) as Hsome.
      { intros p. rewrite lookup_insert. case_decide as Hp; [rewrite <- Hp, E|]; split; eauto. }
      constructor; try done; simpl.
      * by apply Hsome.
      * intros x Hx. apply Rm. by apply Hsome.
      * intros x Hx Hn. rewrite Hd. case_decide as Hp; [apply Rm; rewrite Hp, E; eauto|].
        apply Rd; [done|]. by rewrite lookup_insert_ne in Hn by done.
      * intros p Hp. apply Hsome. auto.
    + constructor; [done..|]. intros p Hp. simpl. rewrite lookup_insert. case_decide; eauto.
    + simpl. by rewrite lookup_insert_eq.
    + intros p Hp. simpl. by rewrite lookup_insert_ne.
  - rewrite andb_false_r. wp_steps. split; [done|]. split; [reflexivity|]. rewrite E. done.
  - rewrite andb_false_r. wp_steps. split; [done|]. split; [reflexivity|]. rewrite E. done.
Qed.
End cache.
