(* ===== verification/FsFile.v ===== *)
(** * The free-block bitmap and the blocks of a file (fs/fs.c)

    alloc_block and free_block as updates of the flat memory: exactly one bit
    changes, and the metadata invariant is kept.  The second part has the block
    pointers of a file. *)
From S2P Require Import Prelude Mem LibString Mmu Fs FsCache.

Lemma land_u32 w x : 0 <= w < 2^32 -> u32 (Z.land w x) = Z.land w x.
Proof.
  intros Hw. unfold u32. apply Z.bits_inj'. intros j Hj. destruct (Z_lt_le_dec j 32).
  - by rewrite Z.mod_pow2_bits_low by lia.
  - rewrite Z.mod_pow2_bits_high by lia. rewrite Z.land_spec.
    rewrite <- (Z.mod_small w (2^32)) by lia. by rewrite Z.mod_pow2_bits_high by lia.
Qed.

Lemma lor_bit_u32 w i : 0 <= w < 2^32 -> 0 <= i < 32 ->
  u32 (Z.lor w (Z.shiftl 1 i)) = Z.lor w (Z.shiftl 1 i).
Proof.
  intros Hw Hi. unfold u32. apply Z.bits_inj'. intros j Hj. destruct (Z_lt_le_dec j 32).
  - by rewrite Z.mod_pow2_bits_low by lia.
  - rewrite Z.mod_pow2_bits_high by lia. rewrite Z.lor_spec, Z.shiftl_1_l.
    rewrite <- (Z.mod_small w (2^32)) by lia. rewrite Z.mod_pow2_bits_high by lia.
    rewrite Z.pow2_bits_false by lia. done.
Qed.

(** The bitmap with one bit cleared or set. *)
Definition take_block (m : gmap Z Z) (b : Z) : gmap Z Z :=
  write32 m (bit_addr b)
    (Z.land (read32 m (bit_addr b)) (Z.lnot (Z.shiftl 1 (b `mod` 32)))).
Definition give_block (m : gmap Z Z) (b : Z) : gmap Z Z :=
  write32 m (bit_addr b) (Z.lor (read32 m (bit_addr b)) (Z.shiftl 1 (b `mod` 32))).

Lemma bit_addr_ne b c :
  b / 32 <> c / 32 -> bit_addr c + 4 <= bit_addr b \/ bit_addr b + 4 <= bit_addr c.
Proof. unfold bit_addr. lia. Qed.

Lemma div_mod_32 b c : b / 32 = c / 32 -> b `mod` 32 = c `mod` 32 -> b = c.
Proof.
  intros H1 H2. rewrite (Z.div_mod b 32), (Z.div_mod c 32), H1, H2 by lia. done.
Qed.

Lemma free_bit_take m b c :
  free_bit (take_block m b) c = if decide (c = b) then false else free_bit m c.
Proof.
  unfold free_bit, take_block. pose proof (Z.mod_pos_bound b 32 ltac:(lia)).
  pose proof (Z.mod_pos_bound c 32 ltac:(lia)).
  destruct (decide (b / 32 = c / 32)) as [E|E].
  - assert (bit_addr b = bit_addr c) as -> by (unfold bit_addr; by rewrite E).
    rewrite read32_write32_eq, land_u32 by apply read32_range.
    rewrite !flag_testbit, Z.land_spec, Z.lnot_spec, Z.shiftl_1_l, Z.pow2_bits_eqb by lia.
    case_decide as Hcb.
    + subst. by rewrite Z.eqb_refl, andb_false_r.
    + destruct (Z.eqb_spec (b `mod` 32) (c `mod` 32)); [|apply andb_true_r].
      by destruct Hcb; symmetry; apply div_mod_32.
  - rewrite read32_write32_ne by (by apply bit_addr_ne). case_decide; [congruence|done].
Qed.

Lemma free_bit_give m b c :
  free_bit (give_block m b) c = if decide (c = b) then true else free_bit m c.
Proof.
  unfold free_bit, give_block. pose proof (Z.mod_pos_bound b 32 ltac:(lia)).
  pose proof (Z.mod_pos_bound c 32 ltac:(lia)).
  destruct (decide (b / 32 = c / 32)) as [E|E].
  - assert (bit_addr b = bit_addr c) as -> by (unfold bit_addr; by rewrite E).
    rewrite read32_write32_eq, lor_bit_u32 by (done || apply read32_range).
    rewrite !flag_testbit, Z.lor_spec, Z.shiftl_1_l, Z.pow2_bits_eqb by lia.
    case_decide as Hcb.
    + subst. by rewrite Z.eqb_refl, orb_true_r.
    + destruct (Z.eqb_spec (b `mod` 32) (c `mod` 32)); [|apply orb_false_r].
      by destruct Hcb; symmetry; apply div_mod_32.
  - rewrite read32_write32_ne by (by apply bit_addr_ne). case_decide; [congruence|done].
Qed.

(** ** Metadata *)

(** Number of bitmap blocks; what follows them is data. *)
Definition nbitmap (m : gmap Z Z) : Z := (nblocks m + 32767) / 32768.
Definition is_data (m : gmap Z Z) (b : Z) : Prop := 2 + nbitmap m <= b < nblocks m.
Definition bitmap_byte (m : gmap Z Z) (a : Z) : Prop := 2 <= blk a < 2 + nbitmap m.
Definition nblocks_byte (a : Z) : Prop := blk_addr 1 + 4 <= a < blk_addr 1 + 8.

Lemma nbitmap_spec m i : i * BLKBITSIZE < nblocks m <-> i < nbitmap m.
Proof.
  unfold nbitmap. change BLKBITSIZE with 32768.
  pose proof (Z.div_mod (nblocks m + 32767) 32768 ltac:(lia)).
  pose proof (Z.mod_pos_bound (nblocks m + 32767) 32768 ltac:(lia)). lia.
Qed.

Lemma nbitmap_range m : fs_meta m -> 1 <= nbitmap m /\ 2 + nbitmap m <= nblocks m.
Proof.
  intros [Hs Hb _]. assert (0 < nbitmap m) by (apply nbitmap_spec; rewrite Z.mul_0_l; lia). split; [lia|].
  destruct (Hb (nbitmap m - 1)) as [H1 _]; [lia|apply nbitmap_spec; lia|lia].
Qed.

Lemma nblocks_max m : fs_meta m -> nblocks m <= 786432.
Proof. intros [Hs _ _]. change (DISKSIZE / BLKSIZE) with 786432 in Hs. lia. Qed.

Lemma bit_addr_bitmap m b x :
  0 <= b < nblocks m -> bit_addr b <= x < bit_addr b + 4 -> bitmap_byte m x.
Proof.
  intros Hb Hx. unfold bitmap_byte. destruct (bit_blk b ltac:(lia)) as [E1 E2].
  assert (b / 32768 < nbitmap m).
  { apply nbitmap_spec. change BLKBITSIZE with 32768.
    pose proof (Z.div_mod b 32768 ltac:(lia)). pose proof (Z.mod_pos_bound b 32768 ltac:(lia)). lia. }
  assert (0 <= b / 32768) by (apply Z.div_pos; lia).
  apply blk_in in E1, E2. assert (blk x = 2 + b / 32768) as -> by (apply blk_in; lia). lia.
Qed.

(** The metadata only depends on its own bytes. *)
Lemma meta_same m m' :
  (forall a, nblocks_byte a -> getb m' a = getb m a) -> nblocks m' = nblocks m.
Proof.
  intros H. apply read32_ext. intros a Ha. apply H. unfold nblocks_byte. lia.
Qed.

Lemma free_bit_same m m' b :
  0 <= b < nblocks m -> (forall a, bitmap_byte m a -> getb m' a = getb m a) ->
  free_bit m' b = free_bit m b.
Proof.
  intros Hb H. unfold free_bit. f_equal. apply read32_ext. intros a Ha. apply H.
  by apply (bit_addr_bitmap m b).
Qed.

Lemma meta_bits m m' :
  fs_meta m -> nblocks m' = nblocks m ->
  (forall b, 1 <= b < 2 + nbitmap m -> free_bit m' b = free_bit m b) -> fs_meta m'.
Proof.
  intros Hm Hn Hf. pose proof (nbitmap_range m Hm). destruct Hm as [Hs Hb Hsup].
  constructor; rewrite ?Hn; [done| |rewrite Hf by lia; done].
  intros i Hi Hlt. destruct (Hb i Hi Hlt) as [H1 H2]. split; [done|].
  apply nbitmap_spec in Hlt. rewrite Hf by lia. done.
Qed.

Lemma nblocks_write_bit m b v : 0 <= b -> nblocks (write32 m (bit_addr b) v) = nblocks m.
Proof.
  intros Hb. apply meta_same. intros a Ha. apply getb_write32_ne. unfold nblocks_byte in Ha.
  unfold bit_addr, blk_addr in *. rewrite BLKSIZE_val in *. assert (0 <= b / 32) by (apply Z.div_pos; lia).
  lia.
Qed.

Lemma take_meta m b : fs_meta m -> 0 <= b -> free_bit m b = true -> fs_meta (take_block m b).
Proof.
  intros Hm Hb Hf. apply (meta_bits m); [done|by apply nblocks_write_bit|].
  intros c Hc. rewrite free_bit_take. case_decide as E; [|done]. subst. destruct Hm as [Hs Hbt Hsup].
  destruct (decide (b = 1)) as [->|]; [congruence|].
  destruct (Hbt (b - 2)) as [_ H2]; [lia|apply nbitmap_spec; lia|].
  replace (2 + (b - 2)) with b in H2 by lia. congruence.
Qed.

Lemma give_meta m b : fs_meta m -> is_data m b -> fs_meta (give_block m b).
Proof.
  intros Hm Hb. pose proof (nbitmap_range m Hm). unfold is_data in Hb.
  apply (meta_bits m); [done|apply nblocks_write_bit; lia|].
  intros c Hc. rewrite free_bit_give. case_decide; [lia|done].
Qed.

Section alloc.
Context {HW : Machine} {GM : GoodMachine HW}.
Implicit Types (s : fst) (m : gmap Z Z) (X : gset Z).

Lemma bit_acc m X b :
  fs_meta m -> 0 <= b < nblocks m -> acc m X (bit_addr b) /\ acc m X (bit_addr b + 3).
Proof.
  intros Hm Hb. destruct (bit_blk b ltac:(lia)) as [E1 E2].
  split; right; by apply (bitmap_block m b).
Qed.

Lemma block_is_free_ok s m X b :
  fs_meta m -> crep s m X -> 0 <= b ->
  wp (block_is_free b) (fun r s' => r = (b <? nblocks m) && free_bit m b /\
    crep s' m X /\ faulted s s') s.
Proof.
  intros Hm R Hb. apply (block_is_free_with_ok _ _ m X); [done..|]. intros Hlt.
  destruct (bit_acc m X b Hm ltac:(lia)). eapply wp_mono; [by apply (load32_ok s m X)|]. done.
Qed.

Lemma load_nb s m X : crep s m X ->
  wp (load32 (s_nblocks (super s))) (fun w s' => w = nblocks m /\ s' = s) s.
Proof. apply load_nblocks. Qed.

(** What alloc_block does to the flat memory. *)
Definition alloc_post s m X (r : Z) (s' : fst) : Prop :=
  kept s s' /\
  ((r = - E_NO_DISK /\ crep s' m X /\ forall b, 1 <= b < nblocks m -> free_bit m b = false) \/
   (1 <= r < nblocks m /\ free_bit m r = true /\
    (forall b, 1 <= b < r -> free_bit m b = false) /\
    crep s' (take_block m r) X /\ fpt s' !! PGNUM (bit_addr r) <> Some true)).

Lemma alloc_block_ok s m X :
  fs_meta m -> crep s m X -> wp alloc_block (alloc_post s m X) s.
Proof.
  intros Hm R. unfold wp, alloc_block. apply wpe_bind, wpe_gets, wpe_bind.
  eapply wpe_mono; [by apply (load_nb s m X)| |done]. intros n s0 [-> ->]. cbn beta.
  pose proof (me_size _ Hm) as Hsz.
  apply (wpe_loop _ (fun i s' => crep s' m X /\ kept s s' /\ 1 <= i <= nblocks m /\
      super s' = super s /\ forall b, 1 <= b < i -> free_bit m b = false)
    (fun i _ => Z.to_nat (nblocks m - i))).
  - intros i s1 (R1 & K1 & Hi & Hsup & Hnone). apply wpe_bind. rewrite <- Hsup.
    eapply wpe_mono; [by apply (load_nb s1 m X)| |done]. intros n s2 [-> ->]. cbn beta.
    destruct (Z.ltb_spec i (nblocks m)) as [Hlt|Hge].
    + apply wpe_bind. eapply wp_wpe; [apply block_is_free_ok; [done..|lia]|].
      intros fr s2 (-> & R2 & F2). cbn beta.
      destruct (Z.ltb_spec i (nblocks m)); [|lia]. cbn [andb].
      destruct (free_bit m i) eqn:Hf.
      * destruct (bit_acc m X i Hm ltac:(lia)) as [A1 A2]. apply wpe_bind, wpe_gets, wpe_bind.
        rewrite (cr_bitmap _ _ _ R2). fold (bit_addr i).
        eapply wp_wpe; [by apply load32_ok|]. intros w s3 (-> & R3 & F3). cbn beta.
        apply wpe_bind. eapply wp_wpe; [by apply (store32_ok s3 m X)|]. intros _ s4 [R4 K4]. cbn beta.
        fold (take_block m i) in R4. apply wpe_bind.
        eapply wp_wpe; [apply flush_block_ok; [exact R4|]|].
        { destruct (bit_blk i ltac:(lia)) as [E1 _]. apply (bitmap_block m i); [done|lia|done]. }
        intros _ s5 (R5 & K5 & D5 & _). wp_steps. split.
        -- transitivity s1; [done|]. transitivity s2; [apply (fa_kept _ _ F2)|].
           transitivity s3; [apply (fa_kept _ _ F3)|].
           by transitivity s4.
        -- right. split; [lia|]. done.
      * wp_steps. split; [|lia]. split; [done|]. split; [transitivity s1; [done|apply (fa_kept _ _ F2)]|].
        split; [lia|]. split; [by rewrite (cr_super _ _ _ R2), (cr_super _ _ _ R1)|].
        intros b Hb. destruct (decide (b = i)) as [->|]; [done|]. apply Hnone. lia.
    + wp_steps. split; [done|]. left. split; [done|]. split; [done|]. intros b Hb. apply Hnone. lia.
  - split; [done|]. split; [reflexivity|]. split; [lia|]. split; [done|]. intros b Hb. lia.
  - lia.
Qed.

Lemma free_block_ok s m X b :
  fs_meta m -> crep s m X -> 0 < b < nblocks m ->
  wp (free_block b) (fun _ s' => crep s' (give_block m b) X /\ kept s s') s.
Proof.
  intros Hm R Hb. unfold wp, free_block. destruct (Z.eqb_spec b 0); [lia|].
  destruct (bit_acc m X b Hm ltac:(lia)) as [A1 A2]. apply wpe_bind, wpe_gets, wpe_bind.
  rewrite (cr_bitmap _ _ _ R). fold (bit_addr b).
  eapply wp_wpe; [by apply load32_ok|]. intros w s1 (-> & R1 & F1). cbn beta.
  eapply wp_wpe; [by apply (store32_ok s1 m X)|]. intros _ s2 [R2 K2].
  split; [done|]. transitivity s1; [apply F1|done].
Qed.

(** After fs_sync the disk holds every block. *)
Lemma fs_sync_ok s m X :
  fs_meta m -> crep s m X ->
  wp fs_sync (fun _ s' => crep s' m X /\ kept s s' /\
    forall a, 1 <= blk a < nblocks m -> getb (disk s') (a - DISKMAP) = getb m a) s.
Proof.
  intros Hm R. unfold wp, fs_sync. apply wpe_bind, wpe_gets, wpe_bind.
  eapply wpe_mono; [by apply (load_nb s m X)| |done]. intros n s0 [-> ->]. cbn beta.
  pose proof (me_size _ Hm) as Hsz. pose proof (nblocks_max _ Hm) as Hmx.
  apply (wpe_loop _ (fun i s' => crep s' m X /\ kept s s' /\ 1 <= i <= nblocks m /\
      super s' = super s /\ forall b, 1 <= b < i -> fpt s' !! blk_page b <> Some true)
    (fun i _ => Z.to_nat (nblocks m - i))).
  - intros i s1 (R1 & K1 & Hi & Hsup & Hdone). apply wpe_bind. rewrite <- Hsup.
    eapply wpe_mono; [by apply (load_nb s1 m X)| |done]. intros n s2 [-> ->]. cbn beta.
    destruct (Z.ltb_spec i (nblocks m)) as [Hlt|Hge].
    + apply wpe_bind. eapply wp_wpe; [apply (diskaddr_ok s1 m X); [done|lia..]|].
      intros a s2 [-> ->]. cbn beta. apply wpe_bind.
      assert (blk (blk_addr i) = i) as Hbi by (apply blk_in; rewrite BLKSIZE_val; lia).
      eapply wp_wpe; [apply flush_block_ok; [exact R1|apply in_disk_blk; rewrite Hbi; lia]|].
      intros _ s2 (R2 & K2 & D2 & O2). wp_steps. split; [|lia]. split; [done|].
      split; [by transitivity s1|]. split; [lia|].
      split; [by rewrite (cr_super _ _ _ R2), (cr_super _ _ _ R1)|].
      intros b Hb. rewrite PGNUM_blk, Hbi in D2, O2. destruct (decide (b = i)) as [->|Hne]; [done|].
      rewrite O2 by (unfold blk_page; lia). apply Hdone. lia.
    + wp_steps. split; [done|]. split; [done|]. intros a Ha. apply (cr_disk _ _ _ R1).
      * apply in_disk_blk. lia.
      * rewrite PGNUM_blk. apply Hdone. lia.
  - split; [done|]. split; [reflexivity|]. split; [lia|]. split; [done|]. intros b Hb. lia.
  - lia.
Qed.
End alloc.

(** * The blocks of a file (fs/fs.c: file_block_walk, file_get_block)

    [own m f j] is the [j]-th block pointer of the file whose struct File lies
    at [f] in the flat memory: entries 0..9 are direct, 10..1033 come from the
    indirect block, and entry -1 is the indirect block itself. *)

Definition NPTR : Z := 1034.

Definition own (m : gmap Z Z) (f j : Z) : Z :=
  if j <? 0 then read32 m (f_indirect f)
  else if j <? 10 then read32 m (f_direct f j)
  else if read32 m (f_indirect f) =? 0 then 0
  else read32 m (blk_addr (read32 m (f_indirect f)) + 4 * (j - 10)).

(** A file whose pointers are sound: the struct lies inside one used block,
    and its blocks are used data blocks, all different. *)
Record file_ok (m : gmap Z Z) (f : Z) : Prop := mk_file_ok {
  fo_blk : blk (f + 255) = blk f;
  fo_use : free_bit m (blk f) = false;
  fo_pos : is_data m (blk f) \/ blk f = 1 /\ blk_addr 1 + 8 <= f;
  fo_own j : -1 <= j < NPTR -> own m f j <> 0 ->
    is_data m (own m f j) /\ free_bit m (own m f j) = false /\ own m f j <> blk f;
  fo_inj i j : -1 <= i < NPTR -> -1 <= j < NPTR ->
    own m f i <> 0 -> own m f i = own m f j -> i = j }.

(** Memory that has nothing to do with the file at [f]: what lies outside the
    disk, and used blocks and structs that belong to others. *)
Definition foreign (m : gmap Z Z) (f a : Z) : Prop :=
  ~ in_disk a \/
  0 <= blk a < nblocks m /\ free_bit m (blk a) = false /\ ~ bitmap_byte m a /\
  ~ (f <= a < f + 256) /\
  forall j, -1 <= j < NPTR -> own m f j <> 0 -> own m f j <> blk a.

(** A step that only gives blocks to the file at [f] and changes at most the
    bytes [W] of its data. *)
Record fstep (W : Z -> Prop) (m m' : gmap Z Z) (f : Z) : Prop := mk_fstep {
  st_nb : nblocks m' = nblocks m;
  st_free b : 0 <= b < nblocks m -> free_bit m b = false -> free_bit m' b = false;
  st_own j : -1 <= j < NPTR -> own m' f j = own m f j \/
    own m f j = 0 /\ 0 <= own m' f j < nblocks m /\ free_bit m (own m' f j) = true;
  st_frame a : foreign m f a -> getb m' a = getb m a;
  st_hdr a : f <= a < f + 128 \/ f + 132 <= a < f + 136 -> getb m' a = getb m a;
  st_data j a : 0 <= j < NPTR -> own m f j <> 0 -> blk a = own m f j -> ~ W a ->
    getb m' a = getb m a }.

Lemma fstep_refl W m f : fstep W m m f.
Proof. constructor; auto. Qed.

Lemma is_data_same m m' b : nblocks m' = nblocks m -> is_data m' b <-> is_data m b.
Proof. unfold is_data, nbitmap. by intros ->. Qed.

(** A file is only affected by its own pointers and the bitmap. *)
Lemma file_ok_same m m' f :
  fs_meta m -> file_ok m f -> nblocks m' = nblocks m ->
  (forall b, 0 <= b < nblocks m -> free_bit m b = false -> free_bit m' b = false) ->
  (forall j, -1 <= j < NPTR -> own m' f j = own m f j) -> file_ok m' f.
Proof.
  intros Hm [H1 H2 H3 H4 H5] Hn Hf Ho. pose proof (nbitmap_range m Hm). constructor; [done|..].
  - apply Hf; [|done]. destruct H3 as [[]|[E _]]; lia.
  - by rewrite (is_data_same m m').
  - intros j Hj. rewrite Ho, (is_data_same m m') by done. intros Hj0.
    destruct (H4 j Hj Hj0) as (D & Fr & Ne). split; [done|]. split; [|done].
    unfold is_data in D. apply Hf; [lia|done].
  - intros j k Hj Hk. rewrite !Ho by done. by apply H5.
Qed.

Lemma foreign_step W m m' f a : fstep W m m' f -> foreign m f a -> foreign m' f a.
Proof.
  intros St [Ha|(Hb & Hf & Hbm & Hst & Ho)]; [by left|]. right.
  rewrite (st_nb _ _ _ _ St). split; [done|]. split; [by apply (st_free _ _ _ _ St)|].
  split; [by unfold bitmap_byte, nbitmap; rewrite (st_nb _ _ _ _ St)|]. split; [done|].
  intros j Hj Hn. destruct (st_own _ _ _ _ St j Hj) as [E|(_ & _ & E)].
  - rewrite E in *. auto.
  - intros Heq. rewrite Heq in E. congruence.
Qed.

Lemma fstep_trans W m1 m2 m3 f : fstep W m1 m2 f -> fstep W m2 m3 f -> fstep W m1 m3 f.
Proof.
  intros S1 S2. pose proof (st_nb _ _ _ _ S1) as N1. constructor.
  - by rewrite (st_nb _ _ _ _ S2).
  - intros b Hb Hf. apply (st_free _ _ _ _ S2); [by rewrite N1|]. by apply (st_free _ _ _ _ S1).
  - intros j Hj. destruct (st_own _ _ _ _ S1 j Hj) as [E1|(Z1 & R1 & F1)];
      destruct (st_own _ _ _ _ S2 j Hj) as [E2|(Z2 & R2 & F2)].
    + left. congruence.
    + right. rewrite N1 in R2. split; [congruence|]. split; [done|].
      destruct (free_bit m1 (own m3 f j)) eqn:E; [done|].
      rewrite (st_free _ _ _ _ S1) in F2; done.
    + right. rewrite E2. done.
    + right. rewrite N1 in R2. split; [done|]. split; [done|].
      destruct (free_bit m1 (own m3 f j)) eqn:E; [done|].
      rewrite (st_free _ _ _ _ S1) in F2; done.
  - intros a Ha. rewrite (st_frame _ _ _ _ S2) by (by eapply foreign_step).
    by apply (st_frame _ _ _ _ S1).
  - intros a Ha. rewrite (st_hdr _ _ _ _ S2) by done. by apply (st_hdr _ _ _ _ S1).
  - intros j a Hj Hn Hb HW. rewrite (st_data _ _ _ _ S2 j); [by apply (st_data _ _ _ _ S1 j)|done|..|done].
    + destruct (st_own _ _ _ _ S1 j ltac:(lia)) as [->|[? _]]; done.
    + destruct (st_own _ _ _ _ S1 j ltac:(lia)) as [->|[? _]]; done.
Qed.

Lemma fstep_mono (W W' : Z -> Prop) m m' f :
  (forall a, W a -> W' a) -> fstep W m m' f -> fstep W' m m' f.
Proof.
  intros HW [N Fr O FF H D]. constructor; try done.
  intros j a Hj Hn Hb Ha. apply (D j); auto.
Qed.

(** ** Where the pointers are *)

Definition slot_of (m : gmap Z Z) (f i : Z) : Z :=
  if i <? 0 then f_indirect f
  else if i <? 10 then f_direct f i
  else blk_addr (read32 m (f_indirect f)) + 4 * (i - 10).

Lemma own_slot m f i : i < 10 \/ own m f (-1) <> 0 -> own m f i = read32 m (slot_of m f i).
Proof.
  unfold own, slot_of. simpl. intros Hi. destruct (i <? 0); [done|].
  destruct (Z.ltb_spec i 10); [done|]. destruct (Z.eqb_spec (read32 m (f_indirect f)) 0); [|done].
  destruct Hi; [lia|done].
Qed.

(** The bytes the pointers depend on. *)
Lemma own_same m m' f :
  (forall a, f + 136 <= a < f + 180 -> getb m' a = getb m a) ->
  (own m f (-1) <> 0 -> forall a, blk a = own m f (-1) -> getb m' a = getb m a) ->
  forall j, j < NPTR -> own m' f j = own m f j.
Proof.
  intros Hs Hi j Hj. unfold NPTR in Hj.
  assert (read32 m' (f_indirect f) = read32 m (f_indirect f)) as E
    by (apply read32_ext; unfold f_indirect; intros a Ha; apply Hs; lia).
  unfold own. rewrite E. destruct (Z.ltb_spec j 0); [done|]. destruct (Z.ltb_spec j 10).
  - apply read32_ext. unfold f_direct. intros a Ha. apply Hs. lia.
  - destruct (Z.eqb_spec (read32 m (f_indirect f)) 0) as [|Hn]; [done|].
    apply read32_ext. intros a Ha. apply Hi; [done|]. unfold own. simpl. apply blk_in.
    rewrite BLKSIZE_val. lia.
Qed.

Lemma struct_in m f : file_ok m f -> blk_addr (blk f) <= f /\ f + 256 <= blk_addr (blk f) + 4096.
Proof.
  intros H. pose proof (proj1 (blk_in f (blk f)) eq_refl) as H1.
  pose proof (proj1 (blk_in (f + 255) (blk f)) (fo_blk m f H)) as H2. rewrite BLKSIZE_val in *. lia.
Qed.

Lemma struct_blk m f x : file_ok m f -> f <= x < f + 256 -> blk x = blk f.
Proof. intros H Hx. pose proof (struct_in m f H). apply blk_in. rewrite BLKSIZE_val. lia. Qed.

Lemma blk_apart b c : b <> c -> blk_addr b + 4096 <= blk_addr c \/ blk_addr c + 4096 <= blk_addr b.
Proof. unfold blk_addr. rewrite BLKSIZE_val. lia. Qed.

Lemma own_apart m f j : file_ok m f -> -1 <= j < NPTR -> own m f j <> 0 ->
  blk_addr (own m f j) + 4096 <= f \/ f + 256 <= blk_addr (own m f j).
Proof.
  intros H Hj Hn. destruct (fo_own m f H j Hj Hn) as (_ & _ & Hne).
  pose proof (struct_in m f H). destruct (blk_apart _ _ Hne); lia.
Qed.

(** The pointer slots do not overlap. *)
Lemma own_set m f i b :
  (own m f (-1) <> 0 ->
   blk_addr (own m f (-1)) + 4096 <= f \/ f + 256 <= blk_addr (own m f (-1))) ->
  0 <= i < NPTR -> i < 10 \/ own m f (-1) <> 0 ->
  forall j, -1 <= j < NPTR ->
  own (write32 m (slot_of m f i) b) f j = if decide (j = i) then u32 b else own m f j.
Proof.
  intros Hap Hi Hc j Hj. unfold NPTR in *. pose proof (own_slot m f (-1) ltac:(lia)) as Hind. unfold slot_of in Hind. simpl in Hind.
  rewrite Hind in *.
  assert (read32 (write32 m (slot_of m f i) b) (f_indirect f) = read32 m (f_indirect f)) as E.
  { apply read32_write32_ne. unfold slot_of. destruct (Z.ltb_spec i 0); [lia|].
    destruct (Z.ltb_spec i 10); unfold f_direct, f_indirect in *; lia. }
  unfold own at 1. rewrite E. destruct (Z.ltb_spec j 0).
  { case_decide; [lia|]. unfold own. destruct (Z.ltb_spec j 0); [done|lia]. }
  destruct (Z.ltb_spec j 10).
  - case_decide as D.
    + subst. unfold slot_of. destruct (Z.ltb_spec i 0); [lia|]. destruct (Z.ltb_spec i 10); [|lia].
      apply read32_write32_eq.
    + unfold own. destruct (Z.ltb_spec j 0); [lia|]. destruct (Z.ltb_spec j 10); [|lia].
      apply read32_write32_ne. unfold slot_of. destruct (Z.ltb_spec i 0); [lia|].
      destruct (Z.ltb_spec i 10); unfold f_direct, f_indirect in *; lia.
  - destruct (Z.eqb_spec (read32 m (f_indirect f)) 0) as [Z0|Hn0].
    + case_decide; [lia|]. unfold own. destruct (Z.ltb_spec j 0); [lia|].
      destruct (Z.ltb_spec j 10); [lia|]. by rewrite (proj2 (Z.eqb_eq _ _) Z0).
    + case_decide as D.
      * subst. unfold slot_of. destruct (Z.ltb_spec i 0); [lia|]. destruct (Z.ltb_spec i 10); [lia|].
        apply read32_write32_eq.
      * unfold own. destruct (Z.ltb_spec j 0); [lia|]. destruct (Z.ltb_spec j 10); [lia|].
        destruct (Z.eqb_spec (read32 m (f_indirect f)) 0); [done|].
        apply read32_write32_ne. unfold slot_of. destruct (Z.ltb_spec i 0); [lia|].
        destruct (Z.ltb_spec i 10); unfold f_direct, f_indirect in *; lia.
Qed.

(** Giving the file a new block [b] as its pointer [k]. *)
Lemma file_ok_grow m m' f k b :
  fs_meta m -> file_ok m f -> -1 <= k < NPTR -> nblocks m' = nblocks m ->
  (forall c, 0 <= c < nblocks m -> free_bit m c = false -> free_bit m' c = false) ->
  (forall j, -1 <= j < NPTR -> own m' f j = if decide (j = k) then b else own m f j) ->
  own m f k = 0 -> is_data m b -> free_bit m b = true -> free_bit m' b = false ->
  file_ok m' f.
Proof.
  intros Hm Hok Hk Hnb Hfree Hown Hz Hd Hf Hf'. pose proof (nbitmap_range m Hm) as Hr.
  assert (0 <= blk f < nblocks m) as Hbf
    by (destruct (fo_pos m f Hok) as [[]|[E1 _]]; lia).
  assert (forall j, -1 <= j < NPTR -> own m f j <> 0 -> own m f j <> b) as Hne.
  { intros j Hj Hn E. destruct (fo_own m f Hok j Hj Hn) as (_ & H2 & _). congruence. }
  constructor.
  - apply Hok.
  - apply Hfree; [done|apply Hok].
  - rewrite (is_data_same m m') by done. apply Hok.
  - intros j Hj. rewrite (is_data_same m m'), Hown by done. case_decide as E.
    + intros _. split; [done|]. split; [done|]. intros ->. pose proof (fo_use m f Hok). congruence.
    + intros Hn. destruct (fo_own m f Hok j Hj Hn) as (H1 & H2 & H3). split; [done|].
      split; [|done]. apply Hfree; [|done]. unfold is_data in H1. lia.
  - intros i j Hi Hj. rewrite !Hown by done. intros Hn Heq. repeat case_decide; subst; try done.
    + destruct (decide (own m f j = 0)) as [E|]; [congruence|]. by destruct (Hne j Hj).
    + by destruct (Hne i Hi).
    + by apply (fo_inj m f Hok).
Qed.

(** ** Metadata and files do not overlap *)

Definition meta_byte (m : gmap Z Z) (a : Z) : Prop := bitmap_byte m a \/ nblocks_byte a.

Lemma meta_frame m m' :
  fs_meta m -> (forall a, meta_byte m a -> getb m' a = getb m a) ->
  fs_meta m' /\ nblocks m' = nblocks m /\
  forall b, 0 <= b < nblocks m -> free_bit m' b = free_bit m b.
Proof.
  intros Hm H. assert (nblocks m' = nblocks m) as Hn
    by (apply meta_same; intros a Ha; apply H; by right).
  assert (forall b, 0 <= b < nblocks m -> free_bit m' b = free_bit m b) as Hf
    by (intros b Hb; apply free_bit_same; [done|]; intros a Ha; apply H; by left).
  split; [|done]. apply (meta_bits m); [done..|]. pose proof (nbitmap_range m Hm).
  intros b Hb. apply Hf. lia.
Qed.

Lemma data_not_meta m a b : fs_meta m -> is_data m b -> blk a = b -> ~ meta_byte m a.
Proof.
  intros Hm Hd Hb [H|H]; unfold is_data in Hd.
  - unfold bitmap_byte in H. lia.
  - pose proof (nbitmap_range m Hm). unfold nblocks_byte in H.
    assert (blk a = 1) by (apply blk_in; rewrite BLKSIZE_val; lia). lia.
Qed.

Lemma struct_not_meta m f a : fs_meta m -> file_ok m f -> f <= a < f + 256 -> ~ meta_byte m a.
Proof.
  intros Hm Hok Ha. pose proof (struct_blk m f a Hok Ha) as Hb.
  destruct (fo_pos m f Hok) as [Hd|[H1 H2]]; [by eapply data_not_meta|].
  intros [H|H]; [unfold bitmap_byte in H; lia|]. unfold nblocks_byte in H. lia.
Qed.

Lemma own_not_meta m f j a :
  fs_meta m -> file_ok m f -> -1 <= j < NPTR -> own m f j <> 0 -> blk a = own m f j -> ~ meta_byte m a.
Proof.
  intros Hm Hok Hj Hn Hb. eapply data_not_meta; [done| |done]. by apply (fo_own m f Hok j Hj Hn).
Qed.

Lemma take_same m b a : 0 <= b < nblocks m -> ~ bitmap_byte m a -> getb (take_block m b) a = getb m a.
Proof.
  intros Hb Ha. apply getb_write32_ne. destruct (decide (bit_addr b <= a < bit_addr b + 4)); [|lia].
  destruct Ha. by apply (bit_addr_bitmap m b).
Qed.

Lemma fresh_data m b : fs_meta m -> 1 <= b < nblocks m -> free_bit m b = true -> is_data m b.
Proof.
  intros Hm Hb Hf. unfold is_data. split; [|lia]. destruct (Z_lt_le_dec b (2 + nbitmap m)); [|lia].
  destruct Hm as [Hs Hbt Hsup]. destruct (decide (b = 1)) as [->|]; [congruence|].
  destruct (Hbt (b - 2)) as [_ H2]; [lia|apply nbitmap_spec; lia|].
  replace (2 + (b - 2)) with b in H2 by lia. congruence.
Qed.

Lemma own_bitmap m m' f :
  fs_meta m -> file_ok m f -> (forall a, ~ bitmap_byte m a -> getb m' a = getb m a) ->
  forall j, j < NPTR -> own m' f j = own m f j.
Proof.
  intros Hm Hok Hs. apply own_same.
  - intros a Ha. apply Hs. intros H. eapply (struct_not_meta m f a); [done..|lia|by left].
  - intros Hn a Ha. apply Hs. intros H.
    eapply (own_not_meta m f (-1) a); [done..|unfold NPTR; lia|done|done|by left].
Qed.

Lemma own_take m f b :
  fs_meta m -> file_ok m f -> 0 <= b < nblocks m ->
  forall j, j < NPTR -> own (take_block m b) f j = own m f j.
Proof. intros Hm Hok Hb. apply own_bitmap; [done..|]. intros a Ha. by apply take_same. Qed.

Lemma slot_bytes m f i x :
  0 <= i < NPTR -> slot_of m f i <= x < slot_of m f i + 4 ->
  i < 10 /\ f + 136 <= x < f + 176 \/ 10 <= i /\ blk x = own m f (-1).
Proof.
  intros Hi. unfold slot_of, NPTR in *. destruct (Z.ltb_spec i 0); [lia|].
  destruct (Z.ltb_spec i 10); intros Hx; [left; unfold f_direct in Hx; lia|right].
  split; [done|]. unfold own. simpl. apply blk_in. rewrite BLKSIZE_val. lia.
Qed.

(** A step described by what it changes. *)
Lemma fstep_intro W m m' f k b :
  fs_meta m -> file_ok m f -> -1 <= k < NPTR -> nblocks m' = nblocks m ->
  (forall c, 0 <= c < nblocks m -> free_bit m c = false -> free_bit m' c = false) ->
  (forall j, -1 <= j < NPTR -> own m' f j = if decide (j = k) then b else own m f j) ->
  own m f k = 0 -> 0 <= b < nblocks m -> free_bit m b = true ->
  (forall a, ~ bitmap_byte m a -> ~ (f + 136 <= a < f + 180) -> blk a <> b ->
     (own m f (-1) <> 0 -> blk a <> own m f (-1)) -> getb m' a = getb m a) ->
  fstep W m m' f /\ read32 m' (f_size f) = read32 m (f_size f).
Proof.
  intros Hm Hok Hk Hnb Hfree Hown Hz Hb Hf Hsame.
  assert (forall a, f <= a < f + 256 -> ~ (f + 136 <= a < f + 180) -> getb m' a = getb m a) as Hstr.
  { intros a Ha Hn. apply Hsame; [|done|..].
    - intros H. eapply (struct_not_meta m f a); [done..|by left].
    - rewrite (struct_blk m f a Hok Ha). intros E. pose proof (fo_use m f Hok). congruence.
    - intros Hi. rewrite (struct_blk m f a Hok Ha). intros E.
      destruct (fo_own m f Hok (-1) ltac:(unfold NPTR; lia) Hi) as (_ & _ & ?). congruence. }
  split; [|apply read32_ext; unfold f_size; intros a Ha; apply Hstr; lia].
  constructor; [done|done|..].
  - intros j Hj. rewrite Hown by done. case_decide; [subst; by right|by left].
  - intros a [Ha|(Hr & Hfa & Hbm & Hst & Ho)].
    + apply Hsame.
      * intros H. apply Ha, in_disk_blk. unfold bitmap_byte in H.
        pose proof (nbitmap_range m Hm). pose proof (nblocks_max m Hm). lia.
      * intros H. apply Ha, in_disk_blk. rewrite (struct_blk m f a Hok) by lia.
        pose proof (nblocks_max m Hm). pose proof (nbitmap_range m Hm).
        destruct (fo_pos m f Hok) as [[]|[E1 _]]; lia.
      * intros <-. apply Ha, in_disk_blk. pose proof (nblocks_max m Hm). lia.
      * intros Hn E. apply Ha, in_disk_blk. rewrite E.
        destruct (fo_own m f Hok (-1) ltac:(unfold NPTR; lia) Hn) as ([H1 H2] & _ & _).
        pose proof (nblocks_max m Hm). pose proof (nbitmap_range m Hm). lia.
    + apply Hsame; [done|lia|congruence|]. intros Hn E. apply (Ho (-1)); [unfold NPTR; lia|done|done].
  - intros a Ha. apply Hstr; lia.
  - intros j a Hj Hn Ha _. apply Hsame.
    + intros H. eapply (own_not_meta m f j a); [done..|lia|done|done|by left].
    + intros H. destruct (fo_own m f Hok j ltac:(lia) Hn) as (_ & _ & E).
      rewrite <- Ha, (struct_blk m f a Hok) in E by lia. done.
    + rewrite Ha. intros E. destruct (fo_own m f Hok j ltac:(lia) Hn) as (_ & E' & _). congruence.
    + intros Hi. rewrite Ha. intros E.
      assert (j = -1) by (apply (fo_inj m f Hok); [lia|unfold NPTR; lia|done|done]). lia.
Qed.

Definition nowhere (a : Z) : Prop := False.

(** The state after a change of the flat memory that gave [f] a block. *)
Record grown (m m' : gmap Z Z) (f k b : Z) : Prop := mk_grown {
  gr_meta : fs_meta m';
  gr_ok : file_ok m' f;
  gr_step : fstep nowhere m m' f;
  gr_size : read32 m' (f_size f) = read32 m (f_size f);
  gr_own j : -1 <= j < NPTR -> own m' f j = if decide (j = k) then b else own m f j }.

Lemma grown_intro m m2 f k b :
  let m1 := take_block m b in
  fs_meta m -> file_ok m f -> -1 <= k < NPTR -> own m f k = 0 ->
  1 <= b < nblocks m -> free_bit m b = true ->
  (forall a, ~ (f + 136 <= a < f + 180) -> blk a <> b ->
     (own m f (-1) <> 0 -> blk a <> own m f (-1)) -> getb m2 a = getb m1 a) ->
  (forall j, -1 <= j < NPTR -> own m2 f j = if decide (j = k) then b else own m f j) ->
  grown m m2 f k b.
Proof.
  intros m1 Hm Hok Hk Hz Hb Hf Hsame Hown.
  pose proof (take_meta m b Hm ltac:(lia) Hf) as Hm1. fold m1 in Hm1.
  assert (nblocks m1 = nblocks m) as Hn1 by (apply nblocks_write_bit; lia).
  pose proof (fresh_data m b Hm Hb Hf) as Hd.
  assert (forall a, meta_byte m1 a -> getb m2 a = getb m1 a) as Hmeta.
  { intros a Ha. assert (meta_byte m a) as Ha'.
    { destruct Ha as [Ha|Ha]; [left|by right]. unfold bitmap_byte, nbitmap in *. by rewrite Hn1 in Ha. }
    apply Hsame.
    - intros H. eapply (struct_not_meta m f a); [done..|lia|done].
    - intros H. by eapply (data_not_meta m a b).
    - intros Hi H. eapply (own_not_meta m f (-1) a); [done..|unfold NPTR; lia|done|done|done]. }
  destruct (meta_frame m1 m2 Hm1 Hmeta) as (Hm2 & Hn2 & Hf2). rewrite Hn1 in Hn2, Hf2.
  assert (forall c, 0 <= c < nblocks m -> free_bit m c = false -> free_bit m2 c = false) as Hfree.
  { intros c Hc Hfc. rewrite Hf2 by done. unfold m1. rewrite free_bit_take. by case_decide. }
  destruct (fstep_intro nowhere m m2 f k b Hm Hok Hk Hn2 Hfree Hown Hz ltac:(lia) Hf) as [Hst Hsz].
  { intros a H1 H2 H3 H4. rewrite Hsame by done. apply take_same; [lia|done]. }
  constructor; [done| |done..].
  apply (file_ok_grow m m2 f k b); try done.
  rewrite Hf2 by lia. unfold m1. rewrite free_bit_take. by case_decide.
Qed.

Lemma take_file_ok m f b :
  fs_meta m -> file_ok m f -> 0 <= b < nblocks m -> file_ok (take_block m b) f.
Proof.
  intros Hm Hok Hb. apply (file_ok_same m); [done|done|apply nblocks_write_bit; lia|..].
  - intros c Hc Hfc. rewrite free_bit_take. by case_decide.
  - intros j Hj. apply own_take; [done..|lia].
Qed.

Lemma grow_slot m f i b :
  fs_meta m -> file_ok m f -> 0 <= i < NPTR -> i < 10 \/ own m f (-1) <> 0 ->
  own m f i = 0 -> 1 <= b < nblocks m -> free_bit m b = true ->
  slot_of (take_block m b) f i = slot_of m f i /\
  grown m (write32 (take_block m b) (slot_of m f i) b) f i b.
Proof.
  intros Hm Hok Hi Hc Hz Hb Hf.
  assert (forall j, j < NPTR -> own (take_block m b) f j = own m f j) as Ho
    by (apply own_take; [done..|lia]).
  assert (slot_of (take_block m b) f i = slot_of m f i) as Hsl.
  { pose proof (Ho (-1) ltac:(unfold NPTR; lia)) as H. unfold own in H. simpl in H.
    unfold slot_of. by rewrite H. }
  split; [done|]. apply grown_intro; [done|done|lia|done|done|done|..].
  - intros a H1 H2 H3. apply getb_write32_ne.
    destruct (decide (slot_of m f i <= a < slot_of m f i + 4)) as [Ha|]; [|lia].
    destruct (slot_bytes m f i a Hi Ha) as [[_ H]|[H10 H]]; [lia|].
    exfalso. apply H3; [destruct Hc; [lia|done]|done].
  - intros j Hj. rewrite <- Hsl, own_set; [|..|done].
    + rewrite Ho by lia. rewrite u32_small; [done|]. pose proof (nblocks_max m Hm). lia.
    + apply own_apart; [apply take_file_ok; [done..|lia]|unfold NPTR; lia].
    + done.
    + rewrite Ho by (unfold NPTR; lia). done.
Qed.

Definition with_indirect (m : gmap Z Z) (f b : Z) : gmap Z Z :=
  fill (write32 (take_block m b) (f_indirect f) b) (blk_addr b) 0 (Z.to_nat BLKSIZE).

Lemma grow_indirect m f b :
  fs_meta m -> file_ok m f -> own m f (-1) = 0 -> 1 <= b < nblocks m -> free_bit m b = true ->
  grown m (with_indirect m f b) f (-1) b.
Proof.
  intros Hm Hok Hz Hb Hf. pose proof (nblocks_max m Hm) as Hmx.
  pose proof (struct_in m f Hok) as Hstr.
  assert (b <> blk f) as Hbf by (intros ->; pose proof (fo_use m f Hok); congruence).
  pose proof (blk_apart _ _ Hbf) as Hap.
  assert (forall a, f <= a < f + 256 -> getb (with_indirect m f b) a =
    getb (write32 (take_block m b) (f_indirect f) b) a) as Hin.
  { intros a Ha. unfold with_indirect. rewrite getb_fill. case_decide; [|done].
    rewrite BLKSIZE_val in *. lia. }
  assert (forall j, j < NPTR -> own (take_block m b) f j = own m f j) as Ho
    by (apply own_take; [done..|lia]).
  apply grown_intro; [done|done|unfold NPTR; lia|done|done|done|..].
  - intros a H1 H2 _. unfold with_indirect. rewrite getb_fill. case_decide as Ha.
    + exfalso. apply H2, blk_in. rewrite BLKSIZE_val in *. lia.
    + apply getb_write32_ne. unfold f_indirect. lia.
  - intros j Hj.
    assert (read32 (with_indirect m f b) (f_indirect f) = b) as Ei.
    { erewrite read32_ext; [rewrite read32_write32_eq; apply u32_small; lia|].
      intros a Ha. apply Hin. unfold f_indirect in Ha. lia. }
    unfold own at 1. rewrite Ei. destruct (Z.ltb_spec j 0).
    { case_decide; [done|lia]. }
    case_decide; [lia|]. destruct (Z.ltb_spec j 10).
    + rewrite <- Ho by lia. unfold own. destruct (Z.ltb_spec j 0); [lia|].
      destruct (Z.ltb_spec j 10); [|lia]. apply read32_ext. unfold f_direct. intros a Ha.
      rewrite Hin by lia. apply getb_write32_ne. unfold f_indirect. lia.
    + destruct (Z.eqb_spec b 0); [lia|]. unfold NPTR in Hj.
      transitivity 0.
      * apply read32_fill_zero; [lia|]. rewrite BLKSIZE_val. lia.
      * unfold own in Hz. simpl in Hz. unfold own. destruct (Z.ltb_spec j 0); [lia|].
        destruct (Z.ltb_spec j 10); [lia|]. by rewrite Hz.
Qed.

(** ** The operations *)

Section file.
Context {HW : Machine} {GM : GoodMachine HW}.
Implicit Types (s : fst) (m : gmap Z Z) (X : gset Z).

Lemma struct_acc m X f a : fs_meta m -> file_ok m f -> f <= a < f + 256 -> acc m X a.
Proof.
  intros Hm Hok Ha. pose proof (nbitmap_range m Hm). pose proof (nblocks_max m Hm).
  assert (0 <= blk f < nblocks m) by (destruct (fo_pos m f Hok) as [[]|[E1 _]]; lia).
  right. rewrite in_disk_blk, (struct_blk m f a Hok Ha). split; [lia|]. split; [lia|apply Hok].
Qed.

Lemma used_acc m X a b :
  fs_meta m -> 0 <= b < nblocks m -> free_bit m b = false -> blk a = b -> acc m X a.
Proof.
  intros Hm Hb Hf Ha. right. pose proof (nblocks_max m Hm). rewrite in_disk_blk, Ha.
  split; [lia|]. split; [lia|done].
Qed.

Lemma own_acc m X f j a :
  fs_meta m -> file_ok m f -> -1 <= j < NPTR -> own m f j <> 0 -> blk a = own m f j -> acc m X a.
Proof.
  intros Hm Hok Hj Hn Ha. destruct (fo_own m f Hok j Hj Hn) as ([H1 H2] & H3 & _).
  pose proof (nbitmap_range m Hm). eapply used_acc; [done| |done|done]. lia.
Qed.

Lemma slot_acc m X f i :
  fs_meta m -> file_ok m f -> 0 <= i < NPTR -> i < 10 \/ own m f (-1) <> 0 ->
  acc m X (slot_of m f i) /\ acc m X (slot_of m f i + 3).
Proof.
  intros Hm Hok Hi Hc.
  assert (forall x, slot_of m f i <= x < slot_of m f i + 4 -> acc m X x) as H; [|split; apply H; lia].
  intros x Hx. destruct (slot_bytes m f i x Hi Hx) as [[_ H]|[H10 H]].
  - apply (struct_acc m X f); [done..|lia].
  - apply (own_acc m X f (-1)); [done..|unfold NPTR; lia| |done]. destruct Hc; [lia|done].
Qed.

Lemma load_indirect s m X f :
  fs_meta m -> crep s m X -> file_ok m f ->
  wp (load32 (f_indirect f)) (fun v s' => v = own m f (-1) /\ crep s' m X /\ faulted s s') s.
Proof.
  intros Hm R Hok. apply load32_ok; [done..| |]; apply (struct_acc m X f); try done;
    unfold f_indirect; lia.
Qed.

(** A block is left for the indirect block, or none is needed. *)
Definition indirect_ready m (f i : Z) : Prop :=
  i < 10 \/ own m f (-1) <> 0 \/ exists b, 1 <= b < nblocks m /\ free_bit m b = true.

Definition walk_post s m X (f i : Z) (r : Z * Z) (s' : fst) : Prop :=
  kept s s' /\ exists m', crep s' m' X /\ r = (0, slot_of m' f i) /\
    (i < 10 \/ own m' f (-1) <> 0) /\
    (m' = m \/ 10 <= i /\ own m f (-1) = 0 /\ exists b, 1 <= b /\ grown m m' f (-1) b).

Lemma walk_slot s m X f i :
  fs_meta m -> crep s m X -> file_ok m f -> 10 <= i < NPTR -> own m f (-1) <> 0 ->
  wp (let! ind := load32 (f_indirect f) in
      let! a := diskaddr ind in
      ret (0, a + 4 * (i - NDIRECT)))
    (fun r s' => r = (0, slot_of m f i) /\ crep s' m X /\ kept s s') s.
Proof.
  intros Hm R Hok Hi Hn. unfold wp. apply wpe_bind.
  eapply wp_wpe; [by apply (load_indirect s m X)|]. intros v s1 (-> & R1 & F1). cbn beta. apply wpe_bind.
  destruct (fo_own m f Hok (-1) ltac:(unfold NPTR; lia) Hn) as ([H1 H2] & _ & _).
  pose proof (nbitmap_range m Hm). eapply wp_wpe; [apply (diskaddr_ok s1 m X); [done|lia|by apply nblocks_max]|].
  intros a s2 [-> ->]. wp_steps. split; [|split; [done|apply (fa_kept _ _ F1)]].
  unfold slot_of. destruct (Z.ltb_spec i 0); [lia|]. destruct (Z.ltb_spec i 10); [lia|]. done.
Qed.

Lemma store_pointer s m X f a v :
  fs_meta m -> crep s m X -> file_ok m f -> f <= a -> a + 4 <= f + 256 ->
  wp (store32 a v) (fun _ s' => crep s' (write32 m a v) X /\ kept s s') s.
Proof.
  intros Hm R Hok H1 H2. apply store32_ok; [done..| |]; apply (struct_acc m X f); try done; lia.
Qed.

(** After the indirect block was written to the struct, before it is cleared. *)
Lemma indirect_set m f b :
  fs_meta m -> file_ok m f -> own m f (-1) = 0 -> 1 <= b < nblocks m -> free_bit m b = true ->
  let m2 := write32 (take_block m b) (f_indirect f) b in
  fs_meta m2 /\ nblocks m2 = nblocks m /\ free_bit m2 b = false /\ free_bit m2 (blk f) = false /\
  own m2 f (-1) = b.
Proof.
  intros Hm Hok Hz Hb Hf m2. pose proof (take_meta m b Hm ltac:(lia) Hf) as Hm1.
  assert (nblocks (take_block m b) = nblocks m) as Hn1 by (apply nblocks_write_bit; lia).
  pose proof (take_file_ok m f b Hm Hok ltac:(lia)) as Hok1.
  destruct (meta_frame (take_block m b) m2 Hm1) as (Hm2 & Hn2 & Hf2).
  { intros a Ha. apply getb_write32_ne.
    destruct (decide (f_indirect f <= a < f_indirect f + 4)) as [Hin|]; [|lia].
    exfalso. eapply (struct_not_meta (take_block m b) f a); [done..|unfold f_indirect in Hin; lia|done]. }
  rewrite Hn1 in Hn2, Hf2. pose proof (nblocks_max m Hm). pose proof (nbitmap_range m Hm).
  split; [done|]. split; [done|]. split; [rewrite Hf2, free_bit_take by lia; by case_decide|].
  split.
  - rewrite Hf2; [apply Hok1|]. destruct (fo_pos m f Hok) as [[]|[E1 _]]; lia.
  - unfold own. simpl. unfold m2. rewrite read32_write32_eq. apply u32_small. lia.
Qed.

Lemma alloc_indirect_ok s m X f b (k : F (Z * Z)) Q :
  let m2 := write32 (take_block m b) (f_indirect f) b in
  fs_meta m -> file_ok m f -> own m f (-1) = 0 -> 1 <= b < nblocks m -> free_bit m b = true ->
  crep s m2 X -> (forall s', crep s' (with_indirect m f b) X -> kept s s' -> wp k Q s') ->
  wp (let! b := load32 (f_indirect f) in
      let! a := diskaddr b in
      fs_memset a 0 BLKSIZE ;;;
      let! b := load32 (f_indirect f) in
      let! a := diskaddr b in
      flush_block a ;;; k) Q s.
Proof.
  intros m2 Hm Hok Hz Hb Hf R Hk. destruct (indirect_set m f b Hm Hok Hz Hb Hf) as (Hm2 & Hn2 & Hf2 & Hff & Ho2).
  pose proof (grow_indirect m f b Hm Hok Hz Hb Hf) as [Gm Gok Gst _ Gown].
  pose proof (nblocks_max m Hm) as Hmx. fold m2 in Hm2, Hn2, Hf2, Hff, Ho2.
  assert (forall a, f <= a < f + 256 -> acc m2 X a) as Hacc.
  { intros a Ha. eapply used_acc; [done| |exact Hff|by apply (struct_blk m f a)].
    rewrite Hn2. pose proof (nbitmap_range m Hm). destruct (fo_pos m f Hok) as [[]|[E1 _]]; lia. }
  unfold wp. apply wpe_bind.
  eapply wp_wpe; [apply (load32_ok s m2 X); [done..| |]; apply Hacc; unfold f_indirect; lia|].
  intros v s1 (-> & R1 & F1). cbn beta.
  assert (read32 m2 (f_indirect f) = b) as -> by (by unfold own in Ho2; simpl in Ho2).
  apply wpe_bind. eapply wp_wpe; [apply (diskaddr_ok s1 m2 X); [done|lia..]|].
  intros a s1' [-> ->]. cbn beta. apply wpe_bind.
  eapply wp_wpe; [apply (fs_memset_ok s1 m2 X); [done..| |]|].
  { rewrite BLKSIZE_val. lia. }
  { intros x Hx. eapply used_acc; [done| |exact Hf2|by apply blk_in]. lia. }
  intros _ s2 [K2 R2]. cbn beta. fold (with_indirect m f b) in R2. apply wpe_bind.
  eapply wp_wpe; [by apply (load_indirect s2 (with_indirect m f b) X)|].
  intros v s3 (-> & R3 & F3). cbn beta. rewrite Gown by (unfold NPTR; lia). case_decide; [|done].
  apply wpe_bind. eapply wp_wpe; [apply (diskaddr_ok s3 (with_indirect m f b) X); [done|..]|].
  { rewrite (st_nb _ _ _ _ Gst). lia. }
  { rewrite (st_nb _ _ _ _ Gst). lia. }
  intros a s3' [-> ->]. cbn beta. apply wpe_bind.
  eapply wp_wpe; [apply flush_block_ok; [exact R3|]|].
  { apply in_disk_blk. rewrite (proj2 (blk_in _ b)); [lia|]. rewrite BLKSIZE_val. lia. }
  intros _ s4 (R4 & K4 & _). apply Hk; [done|]. transitivity s1; [apply (fa_kept _ _ F1)|].
  transitivity s2; [done|]. transitivity s3; [apply (fa_kept _ _ F3)|done].
Qed.

Lemma file_block_walk_ok s m X f i :
  fs_meta m -> crep s m X -> file_ok m f -> 0 <= i < NPTR -> indirect_ready m f i ->
  wp (file_block_walk f i true) (walk_post s m X f i) s.
Proof.
  intros Hm R Hok Hi Hrdy. unfold wp, file_block_walk.
  change (NDIRECT + NINDIRECT) with NPTR. destruct (Z.leb_spec NPTR i); [lia|].
  change NDIRECT with 10. destruct (Z.ltb_spec i 10) as [Hlt|Hge].
  { wp_steps. split; [reflexivity|]. exists m. split; [done|]. split; [|split; [by left|by left]].
    unfold slot_of. destruct (Z.ltb_spec i 0); [lia|]. destruct (Z.ltb_spec i 10); [done|lia]. }
  apply wpe_bind. eapply wp_wpe; [by apply (load_indirect s m X)|]. intros v s1 (-> & R1 & F1).
  cbn beta zeta. change 10 with NDIRECT. destruct (Z.eqb_spec (own m f (-1)) 0) as [Hz|Hn].
  - simpl negb. cbv iota. apply wpe_bind.
    eapply wp_wpe; [by apply (alloc_block_ok s1 m X)|]. intros b s2 [K2 Hal]. cbn beta.
    destruct Hal as [(-> & R2 & Hnone)|(Hb & Hf & _ & R2 & _)].
    { exfalso. destruct Hrdy as [|[|(b & Hb & Hf)]]; [lia|done|]. rewrite Hnone in Hf by done. done. }
    pose proof (nblocks_max m Hm) as Hmx. rewrite u32_small by lia.
    destruct (Z.ltb_spec b 0); [lia|]. apply wpe_bind.
    pose proof (take_meta m b Hm ltac:(lia) Hf) as Hm1.
    pose proof (take_file_ok m f b Hm Hok ltac:(lia)) as Hok1.
    eapply wp_wpe; [apply (store_pointer s2 (take_block m b) X f); [done..| |]; unfold f_indirect; lia|].
    intros _ s3 [R3 K3]. cbn beta.
    pose proof (grow_indirect m f b Hm Hok Hz ltac:(lia) Hf) as G.
    assert (own (with_indirect m f b) f (-1) = b) as Ho.
    { rewrite (gr_own _ _ _ _ _ G) by (unfold NPTR; lia). by case_decide. }
    apply (alloc_indirect_ok s3 m X f b); [done..|lia|done|done|]. intros s4 R4 K4.
    eapply wp_mono; [apply (walk_slot s4 (with_indirect m f b) X); [apply G|done|apply G|lia|lia]|].
    intros r s5 (-> & R5 & K5). split.
    + transitivity s1; [apply (fa_kept _ _ F1)|]. transitivity s2; [done|].
      transitivity s3; [done|]. by transitivity s4.
    + eexists. split; [exact R5|]. split; [done|]. split; [right; lia|]. right.
      split; [done|]. split; [done|]. exists b. split; [lia|done].
  - eapply wp_wpe; [by apply (walk_slot s1 m X)|]. intros r s2 (-> & R2 & K2).
    split; [transitivity s1; [apply (fa_kept _ _ F1)|done]|].
    exists m. split; [done|]. split; [done|]. split; [by right|by left].
Qed.

(** What file_get_block does for a block number in range. *)
Definition get_post s m X (f i : Z) (r : Z * Z) (s' : fst) : Prop :=
  kept s s' /\ exists m', crep s' m' X /\ fs_meta m' /\ file_ok m' f /\ fstep nowhere m m' f /\
    read32 m' (f_size f) = read32 m (f_size f) /\
    (r = (0, blk_addr (own m' f i)) /\ own m' f i <> 0 /\
       (forall j, 0 <= j < NPTR -> j <> i -> own m' f j = own m f j) /\
       (own m f i <> 0 -> m' = m) \/
     r = (- E_NO_DISK, 0) /\ own m f i = 0 /\
       (forall j, 0 <= j < NPTR -> own m' f j = own m f j) /\
       forall b, 1 <= b < nblocks m -> free_bit m' b = false).

Lemma load_slot s m X f i :
  fs_meta m -> crep s m X -> file_ok m f -> 0 <= i < NPTR -> i < 10 \/ own m f (-1) <> 0 ->
  wp (load32 (slot_of m f i)) (fun v s' => v = own m f i /\ crep s' m X /\ faulted s s') s.
Proof.
  intros Hm R Hok Hi Hc. destruct (slot_acc m X f i Hm Hok Hi Hc) as [A1 A2].
  rewrite own_slot by done. by apply load32_ok.
Qed.

Lemma get_finish s m X f i :
  fs_meta m -> crep s m X -> file_ok m f -> 0 <= i < NPTR -> i < 10 \/ own m f (-1) <> 0 ->
  own m f i <> 0 ->
  wp (let! b := load32 (slot_of m f i) in
      let! a := diskaddr b in
      ret (0, a)) (fun r s' => r = (0, blk_addr (own m f i)) /\ crep s' m X /\ kept s s') s.
Proof.
  intros Hm R Hok Hi Hc Hn. unfold wp. apply wpe_bind.
  eapply wp_wpe; [by apply (load_slot s m X)|]. intros v s1 (-> & R1 & F1). cbn beta. apply wpe_bind.
  destruct (fo_own m f Hok i ltac:(lia) Hn) as ([H1 H2] & _ & _). pose proof (nbitmap_range m Hm).
  eapply wp_wpe; [apply (diskaddr_ok s1 m X); [done|lia|by apply nblocks_max]|].
  intros a s2 [-> ->]. wp_steps. split; [done|]. split; [done|apply (fa_kept _ _ F1)].
Qed.

(** The part of file_get_block after the walk, where the slot exists. *)
Lemma get_rest_ok s m X f i :
  fs_meta m -> crep s m X -> file_ok m f -> 0 <= i < NPTR -> i < 10 \/ own m f (-1) <> 0 ->
  wp (let! b := load32 (slot_of m f i) in
      if b =? 0 then
        let! r := alloc_block in
        if r <? 0 then ret (- E_NO_DISK, 0)
        else
          store32 (slot_of m f i) r ;;;
          let! b := load32 (slot_of m f i) in
          let! a := diskaddr b in
          ret (0, a)
      else
        let! b := load32 (slot_of m f i) in
        let! a := diskaddr b in
        ret (0, a)) (get_post s m X f i) s.
Proof.
  intros Hm R Hok Hi Hc. unfold wp. apply wpe_bind.
  eapply wp_wpe; [by apply (load_slot s m X)|]. intros v s1 (-> & R1 & F1). cbn beta.
  destruct (Z.eqb_spec (own m f i) 0) as [Hz|Hn].
  - apply wpe_bind. eapply wp_wpe; [by apply (alloc_block_ok s1 m X)|]. intros b s2 [K2 Hal]. cbn beta.
    destruct Hal as [(-> & R2 & Hnone)|(Hb & Hf & _ & R2 & _)].
    + change (- E_NO_DISK <? 0) with true. wp_steps.
      split; [transitivity s1; [apply (fa_kept _ _ F1)|done]|]. exists m.
      split; [done|]. split; [done|]. split; [done|]. split; [apply fstep_refl|]. split; [done|]. by right.
    + destruct (Z.ltb_spec b 0); [lia|]. apply wpe_bind.
      destruct (grow_slot m f i b Hm Hok Hi Hc Hz Hb Hf) as [Hsl G].
      pose proof (take_meta m b Hm ltac:(lia) Hf) as Hm1.
      pose proof (take_file_ok m f b Hm Hok ltac:(lia)) as Hok1.
      pose proof (own_take m f b Hm Hok ltac:(lia)) as Ho1.
      destruct (slot_acc (take_block m b) X f i Hm1 Hok1 Hi) as [A1 A2].
      { rewrite Ho1 by (unfold NPTR; lia). done. }
      rewrite Hsl in A1, A2.
      eapply wp_wpe; [by apply (store32_ok s2 (take_block m b) X)|]. intros _ s3 [R3 K3]. cbn beta.
      set (m' := write32 (take_block m b) (slot_of m f i) b) in *.
      assert (own m' f i = b) as Hob by (rewrite (gr_own _ _ _ _ _ G) by lia; by case_decide).
      assert (own m' f (-1) = own m f (-1)) as Hoi.
      { rewrite (gr_own _ _ _ _ _ G) by (unfold NPTR; lia). case_decide; [lia|done]. }
      assert (slot_of m' f i = slot_of m f i) as Hsl'.
      { unfold own in Hoi. simpl in Hoi. unfold slot_of. by rewrite Hoi. }
      rewrite <- Hsl'. eapply wp_wpe; [apply (get_finish s3 m' X);
        [apply G|done|apply G|done|by rewrite Hoi|lia]|].
      intros r s4 (-> & R4 & K4). split.
      { transitivity s1; [apply (fa_kept _ _ F1)|]. transitivity s2; [done|]. by transitivity s3. }
      destruct G as [Gm Gok Gst Gsz Gown]. exists m'. split; [done|]. split; [done|]. split; [done|].
      split; [done|]. split; [done|]. left. split; [done|]. split; [lia|]. split; [|done].
      intros j Hj Hne. rewrite Gown by lia. by case_decide.
  - eapply wp_wpe; [by apply (get_finish s1 m X)|]. intros r s2 (-> & R2 & K2).
    split; [transitivity s1; [apply (fa_kept _ _ F1)|done]|]. exists m.
    split; [done|]. split; [done|]. split; [done|]. split; [apply fstep_refl|]. split; [done|]. by left.
Qed.

Lemma file_get_block_ok s m X f i :
  fs_meta m -> crep s m X -> file_ok m f -> 0 <= i < NPTR -> indirect_ready m f i ->
  wp (file_get_block f i) (get_post s m X f i) s.
Proof.
  intros Hm R Hok Hi Hr. unfold wp, file_get_block. apply wpe_bind.
  eapply wp_wpe; [by apply (file_block_walk_ok s m X)|].
  intros w s1 (K1 & m1 & R1 & -> & Hc & Hm1). cbn beta iota.
  destruct (Z.ltb_spec 0 0); [lia|].
  destruct Hm1 as [->|(H10 & Hz & b & Hb & G)].
  - eapply wp_wpe; [by apply (get_rest_ok s1 m X)|]. intros r s2 (K2 & Hp).
    split; [by transitivity s1|done].
  - eapply wp_wpe; [apply (get_rest_ok s1 m1 X f i); [apply G|done|apply G|done|done]|].
    intros r s2 (K2 & m2 & R2 & M2 & O2 & S2 & Z2 & H2). split; [by transitivity s1|].
    assert (forall j, 0 <= j < NPTR -> own m1 f j = own m f j) as Hj1.
    { intros j Hj. rewrite (gr_own _ _ _ _ _ G) by lia. case_decide; [lia|done]. }
    assert (own m f i = 0) as Hzi.
    { unfold own in Hz. simpl in Hz. unfold own. destruct (Z.ltb_spec i 0); [lia|].
      destruct (Z.ltb_spec i 10); [lia|]. by rewrite Hz. }
    exists m2. split; [done|]. split; [done|]. split; [done|].
    split; [by eapply fstep_trans; [apply G|]|].
    split; [by rewrite Z2, (gr_size _ _ _ _ _ G)|].
    destruct H2 as [(-> & Hn & Hj & Hsame)|(-> & Hn & Hj & Hnone)]; [left|right].
    + split; [done|]. split; [done|]. split; [|done]. intros j Hj' Hne. rewrite Hj, Hj1 by done. done.
    + split; [done|]. split; [done|]. split; [intros j Hj'; rewrite Hj, Hj1 by done; done|].
      intros c Hc'. apply Hnone. by rewrite (st_nb _ _ _ _ (gr_step _ _ _ _ _ G)).
Qed.
End file.
