(* ===== verification/FsIo.v ===== *)
(** * Reading, writing and truncating files (fs/fs.c) *)
From S2P Require Import Prelude Mem Mmu LibString Fs FsCache FsFile.

(** The byte at position [p] of the file. *)
Definition content (m : gmap Z Z) (f p : Z) : Z :=
  getb m (blk_addr (own m f (p / 4096)) + p `mod` 4096).

Definition fsize (m : gmap Z Z) (f : Z) : Z := read32 m (f_size f).

(** A buffer outside the disk, on mapped pages. *)
Definition user_buf (X : gset Z) (buf n : Z) : Prop :=
  0 <= buf /\ buf + n < 2^32 /\ forall x, buf <= x < buf + n -> PGNUM x ∈ X /\ ~ in_disk x.

(** ** Arithmetic of positions *)

Lemma MAXFILESIZE_val : MAXFILESIZE = 1034 * 4096.
Proof. reflexivity. Qed.

Lemma blk_of_val pos : 0 <= pos < 2^31 -> blk_of pos = pos / 4096.
Proof.
  intros H. unfold blk_of. rewrite BLKSIZE_val, Z.quot_div_nonneg by lia. apply u32_small.
  split; [apply Z.div_pos; lia|]. apply Z.div_lt_upper_bound; lia.
Qed.

Lemma chunk_val pos top :
  0 <= pos < top -> top < 2^31 ->
  chunk pos top = Z.min (4096 - pos `mod` 4096) (top - pos).
Proof.
  intros H Ht. unfold chunk. rewrite BLKSIZE_val, Z.rem_mod_nonneg by lia.
  pose proof (Z.mod_pos_bound pos 4096 ltac:(lia)). rewrite !u32_small by lia.
  destruct (Z.leb_spec (4096 - pos `mod` 4096) (top - pos)); rewrite s32_small by lia; lia.
Qed.

Lemma pos_split p : p = 4096 * (p / 4096) + p `mod` 4096 /\ 0 <= p `mod` 4096 < 4096.
Proof. split; [apply Z.div_mod; lia|apply Z.mod_pos_bound; lia]. Qed.

(** A position is in the chunk at [pos] iff its block and offset are. *)
Lemma chunk_pos pos bn p :
  0 < bn -> pos `mod` 4096 + bn <= 4096 ->
  pos <= p < pos + bn <->
  p / 4096 = pos / 4096 /\ pos `mod` 4096 <= p `mod` 4096 < pos `mod` 4096 + bn.
Proof. intros H1 H2. destruct (pos_split p), (pos_split pos). nia. Qed.

(** ** Writing inside one data block *)

Lemma data_write m1 m2 f i :
  fs_meta m1 -> file_ok m1 f -> 0 <= i < NPTR -> own m1 f i <> 0 ->
  (forall a, blk a <> own m1 f i -> getb m2 a = getb m1 a) ->
  fs_meta m2 /\ file_ok m2 f /\ fstep (fun _ => True) m1 m2 f /\ fsize m2 f = fsize m1 f /\
  forall j, -1 <= j < NPTR -> own m2 f j = own m1 f j.
Proof.
  intros Hm Hok Hi Hn Hsame. destruct (fo_own m1 f Hok i ltac:(lia) Hn) as (Hd & Hf & Hbf).
  destruct (meta_frame m1 m2 Hm) as (Hm2 & Hn2 & Hf2).
  { intros a Ha. apply Hsame. intros E. by eapply (data_not_meta m1 a (own m1 f i)). }
  assert (forall a, f <= a < f + 256 -> getb m2 a = getb m1 a) as Hstr.
  { intros a Ha. apply Hsame. rewrite (struct_blk m1 f a Hok Ha). done. }
  assert (forall j, j < NPTR -> own m2 f j = own m1 f j) as Ho.
  { apply own_same; [intros a Ha; apply Hstr; lia|]. intros Hi' a Ha. apply Hsame. rewrite Ha.
    intros E. assert (-1 = i) by (apply (fo_inj m1 f Hok); [unfold NPTR; lia|lia|done|done]). lia. }
  pose proof (nbitmap_range m1 Hm) as Hr.
  split; [done|]. split; [|split; [|split; [|intros j Hj; apply Ho; lia]]].
  - apply (file_ok_same m1); [done|done|done|intros b Hb; by rewrite Hf2|intros j Hj; apply Ho; lia].
  - constructor; [done|..].
    + intros b Hb. by rewrite Hf2.
    + intros j Hj. left. apply Ho. lia.
    + intros a [Ha|(Hb & Hfa & _ & _ & Hown)].
      * apply Hsame. intros E. apply Ha, in_disk_blk. pose proof (nblocks_max m1 Hm).
        unfold is_data in Hd. lia.
      * apply Hsame. intros E. apply (Hown i); [lia|done|done].
    + intros a Ha. apply Hstr. lia.
    + intros j a _ _ _ H. by destruct H.
  - apply read32_ext. unfold f_size. intros a Ha. apply Hstr. lia.
Qed.

Lemma content_addr m f p j :
  file_ok m f -> 0 <= j < NPTR -> own m f j <> 0 -> own m f (p / 4096) <> 0 -> 0 <= p / 4096 < NPTR ->
  blk (blk_addr (own m f (p / 4096)) + p `mod` 4096) = own m f j <-> p / 4096 = j.
Proof.
  intros Hok Hj Hnj Hnp Hp. destruct (pos_split p) as [_ Hr].
  assert (blk (blk_addr (own m f (p / 4096)) + p `mod` 4096) = own m f (p / 4096)) as ->
    by (apply blk_in; rewrite BLKSIZE_val; lia).
  split; [|by intros ->]. intros E. apply (fo_inj m f Hok); [lia..|done|done].
Qed.

(** ** Progress of file_write *)

Record wprog (m0 m' : gmap Z Z) (f offset buf pos : Z) : Prop := mk_wprog {
  wg_meta : fs_meta m';
  wg_ok : file_ok m' f;
  wg_step : fstep (fun _ => True) m0 m' f;
  wg_size : fsize m' f = fsize m0 f;
  wg_new p : offset <= p < pos ->
    own m' f (p / 4096) <> 0 /\ content m' f p = getb m0 (buf + (p - offset));
  wg_old p : 0 <= p < MAXFILESIZE -> ~ (offset <= p < pos) -> own m0 f (p / 4096) <> 0 ->
    content m' f p = content m0 f p }.

Lemma block_index p : 0 <= p < MAXFILESIZE -> 0 <= p / 4096 < NPTR.
Proof.
  rewrite MAXFILESIZE_val. intros H. split; [apply Z.div_pos; lia|].
  unfold NPTR. apply Z.div_lt_upper_bound; lia.
Qed.

Lemma step_own W m m' f j : fstep W m m' f -> -1 <= j < NPTR -> own m f j <> 0 -> own m' f j = own m f j.
Proof. intros St Hj Hn. by destruct (st_own _ _ _ _ St j Hj) as [|[]]. Qed.

Lemma step_content m m' f p :
  fstep nowhere m m' f -> 0 <= p / 4096 < NPTR -> own m f (p / 4096) <> 0 ->
  content m' f p = content m f p.
Proof.
  intros St Hp Hn. unfold content. rewrite (step_own _ m m' f) by (done || lia).
  apply (st_data _ _ _ _ St (p / 4096)); [done|done| |by intros []].
  destruct (pos_split p). apply blk_in. rewrite BLKSIZE_val. lia.
Qed.

Lemma wprog_get m0 m1 m2 f offset buf pos :
  0 <= offset -> pos <= MAXFILESIZE ->
  wprog m0 m1 f offset buf pos -> fs_meta m2 -> file_ok m2 f -> fstep nowhere m1 m2 f ->
  fsize m2 f = fsize m1 f -> wprog m0 m2 f offset buf pos.
Proof.
  intros Ho Hpos [Pm Pok Pst Psz Pnew Pold] Hm2 Hok2 St Hsz. constructor; [done|done|..].
  - eapply fstep_trans; [done|]. eapply fstep_mono; [|done]. done.
  - congruence.
  - intros p Hp. destruct (Pnew p Hp) as [Hn Hc].
    pose proof (block_index p ltac:(lia)) as Hi.
    rewrite (step_own _ m1 m2 f), (step_content m1 m2 f p) by (done || lia). done.
  - intros p Hp Hout Hn. pose proof (block_index p Hp) as Hi.
    rewrite (step_content m1 m2 f p); [by apply Pold|done|done|].
    by rewrite (step_own _ m0 m1 f) by (done || lia).
Qed.

Lemma not_disk_foreign m f a : ~ in_disk a -> foreign m f a.
Proof. by left. Qed.

Lemma wprog_write m0 m2 m3 f offset buf pos bn X count :
  0 <= offset <= pos -> 0 < bn -> pos `mod` 4096 + bn <= 4096 -> pos + bn <= offset + count ->
  offset + count <= MAXFILESIZE -> user_buf X buf count ->
  wprog m0 m2 f offset buf pos -> own m2 f (pos / 4096) <> 0 ->
  (forall a, getb m3 a =
     if decide (blk_addr (own m2 f (pos / 4096)) + pos `mod` 4096 <= a <
                blk_addr (own m2 f (pos / 4096)) + pos `mod` 4096 + bn)
     then getb m2 (buf + (pos - offset) + (a - (blk_addr (own m2 f (pos / 4096)) + pos `mod` 4096)))
     else getb m2 a) ->
  wprog m0 m3 f offset buf (pos + bn).
Proof.
  intros Hop Hbn Hfit Htop Hmax (_ & _ & Hbuf) [Pm Pok Pst Psz Pnew Pold] Hn Hmv.
  pose proof (block_index pos ltac:(lia)) as Hip. destruct (pos_split pos) as [_ Hpr].
  destruct (data_write m2 m3 f (pos / 4096) Pm Pok Hip Hn) as (Hm3 & Hok3 & St3 & Hsz3 & Ho3).
  { intros a Ha. rewrite Hmv. case_decide as D; [|done]. exfalso. apply Ha, blk_in.
    rewrite BLKSIZE_val. lia. }
  assert (forall p, 0 <= p < MAXFILESIZE -> own m2 f (p / 4096) <> 0 -> content m3 f p =
    if decide (pos <= p < pos + bn) then getb m0 (buf + (p - offset)) else content m2 f p) as Hc.
  { intros p Hp Hnp. pose proof (block_index p Hp) as Hi. destruct (pos_split p) as [Ep Hr].
    unfold content. rewrite Ho3, Hmv by lia.
    pose proof (chunk_pos pos bn p Hbn Hfit) as Hch.
    pose proof (content_addr m2 f p (pos / 4096) Pok Hip Hn Hnp Hi) as Hca.
    case_decide as D.
    - assert (p / 4096 = pos / 4096) as E by (apply Hca, blk_in; rewrite BLKSIZE_val; lia).
      rewrite E in D |- *. rewrite decide_True by (apply Hch; lia).
      rewrite (st_frame _ _ _ _ Pst); [f_equal; destruct (pos_split pos); lia|].
      apply not_disk_foreign, Hbuf. destruct (pos_split pos). lia.
    - rewrite decide_False; [done|]. intros [E Hin]%Hch. rewrite E in D. lia. }
  constructor; [done|done|..].
  - by eapply fstep_trans.
  - congruence.
  - intros p Hp. destruct (decide (p < pos)) as [Hlt|Hge].
    + destruct (Pnew p ltac:(lia)) as [Hnp Hcp]. pose proof (block_index p ltac:(lia)).
      rewrite Ho3, Hc by (done || lia). rewrite decide_False by lia. done.
    + assert (p / 4096 = pos / 4096) as E by (apply (chunk_pos pos bn p Hbn Hfit); lia).
      pose proof (block_index p ltac:(lia)). rewrite Ho3, Hc; [|lia|by rewrite E|lia].
      rewrite decide_True by lia. split; [by rewrite E|done].
  - intros p Hp Hout Hnp. pose proof (block_index p Hp).
    rewrite Hc; [|done|by rewrite (step_own _ m0 m2 f) by (done || lia)].
    rewrite decide_False by lia. apply Pold; [done|lia|done].
Qed.

(** ** Setting the size *)

Lemma size_write m f v :
  fs_meta m -> file_ok m f ->
  let m' := write32 m (f_size f) v in
  fs_meta m' /\ file_ok m' f /\ fstep nowhere m m' f /\ fsize m' f = u32 v /\
  (forall b, 0 <= b < nblocks m -> free_bit m' b = free_bit m b) /\
  forall j, -1 <= j < NPTR -> own m' f j = own m f j.
Proof.
  intros Hm Hok m'. assert (forall a, ~ (f + 128 <= a < f + 132) -> getb m' a = getb m a) as Hsame.
  { intros a Ha. apply getb_write32_ne. unfold f_size. lia. }
  destruct (meta_frame m m' Hm) as (Hm2 & Hn2 & Hf2).
  { intros a Ha. apply Hsame. intros E. eapply (struct_not_meta m f a); [done..|lia|done]. }
  assert (forall a, blk a <> blk f -> getb m' a = getb m a) as Hblk.
  { intros a Ha. apply Hsame. intros E. apply Ha. apply (struct_blk m f a Hok). lia. }
  assert (forall j, j < NPTR -> own m' f j = own m f j) as Ho.
  { apply own_same; [intros a Ha; apply Hsame; lia|]. intros Hi a Ha. apply Hblk. rewrite Ha.
    apply (fo_own m f Hok (-1) ltac:(unfold NPTR; lia) Hi). }
  pose proof (nbitmap_range m Hm) as Hr. split; [done|].
  split; [|split; [|split; [apply read32_write32_eq|split; [done|intros j Hj; apply Ho; lia]]]].
  - apply (file_ok_same m); [done|done|done|intros b Hb; by rewrite Hf2|intros j Hj; apply Ho; lia].
  - constructor; [done|..].
    + intros b Hb. by rewrite Hf2.
    + intros j Hj. left. apply Ho. lia.
    + intros a [Ha|(Hb & Hfa & _ & Hst & _)]; apply Hsame; intros E; [|lia].
      apply Ha, in_disk_blk. rewrite (struct_blk m f a Hok) by lia. pose proof (nblocks_max m Hm).
      destruct (fo_pos m f Hok) as [[]|[E1 _]]; lia.
    + intros a Ha. apply Hsame. lia.
    + intros j a Hj Hn Ha _. apply Hblk. rewrite Ha. apply (fo_own m f Hok j ltac:(lia) Hn).
Qed.

Section io.
Context {HW : Machine} {GM : GoodMachine HW}.
Implicit Types (s : fst) (m : gmap Z Z) (X : gset Z).

Lemma load_size s m X f :
  fs_meta m -> crep s m X -> file_ok m f ->
  wp (load32 (f_size f)) (fun v s' => v = fsize m f /\ crep s' m X /\ faulted s s') s.
Proof.
  intros Hm R Hok. apply load32_ok; [done..| |]; apply (struct_acc m X f); try done;
    unfold f_size; lia.
Qed.

Lemma struct_disk m f : fs_meta m -> file_ok m f -> in_disk f.
Proof.
  intros Hm Hok. apply in_disk_blk. pose proof (nblocks_max m Hm). pose proof (nbitmap_range m Hm).
  destruct (fo_pos m f Hok) as [[]|[E1 _]]; lia.
Qed.

Lemma extend_ok s m X f newsize :
  fs_meta m -> crep s m X -> file_ok m f -> s32 (fsize m f) <= newsize ->
  wp (file_set_size f newsize) (fun r s' => r = 0 /\ kept s s' /\
    crep s' (write32 m (f_size f) newsize) X /\ fpt s' !! PGNUM f <> Some true) s.
Proof.
  intros Hm R Hok Hsz. unfold wp, file_set_size. apply wpe_bind.
  eapply wp_wpe; [by apply (load_size s m X)|]. intros v s1 (-> & R1 & F1). cbn beta.
  destruct (Z.ltb_spec newsize (s32 (fsize m f))); [lia|]. wp_steps.
  eapply wp_wpe; [apply (store_pointer s1 m X f); [done..| |]; unfold f_size; lia|].
  intros _ s2 [R2 K2]. cbn beta. wp_steps. eapply wp_wpe; [apply (flush_block_ok s2 (write32 m (f_size f) newsize) X);
    [done|by apply (struct_disk m)]|].
  intros _ s3 (R3 & K3 & D3 & _). wp_steps. split; [done|]. split; [|done].
  transitivity s1; [apply (fa_kept _ _ F1)|]. by transitivity s2.
Qed.

(** ** file_write *)

Definition write_post s m0 X f offset count buf (r : option Z) (s' : fst) : Prop :=
  kept s s' /\ exists m' pos, crep s' m' X /\ offset <= pos <= offset + count /\
    wprog m0 m' f offset buf pos /\
    (r = None /\ pos = offset + count \/
     r = Some (- E_NO_DISK) /\ forall b, 1 <= b < nblocks m0 -> free_bit m' b = false).

Lemma write_loop_ok s m0 X f offset count buf top :
  fs_meta m0 -> crep s m0 X -> file_ok m0 f -> 0 <= offset -> 0 <= count ->
  top = offset + count -> top <= MAXFILESIZE -> user_buf X buf count ->
  top <= 10 * 4096 \/ own m0 f (-1) <> 0 ->
  wp (loop (S (Z.to_nat count)) (fun st => let '(pos, buf) := st in
      if u32 pos <? top then
        let! g := file_get_block f (blk_of pos) in
        let '(r, blk) := g in
        if r <? 0 then ret (inr (Some r))
        else
          let bn := chunk pos top in
          fs_memmove (blk + Z.rem pos BLKSIZE) buf (u32 bn) ;;;
          ret (inl (s32 (pos + bn), u32 (buf + bn)))
      else ret (inr None)) (offset, buf)) (write_post s m0 X f offset count buf) s.
Proof.
  intros Hm R Hok Ho Hcnt -> Hmax Hbuf Hind. pose proof Hmax as Hmax'. rewrite MAXFILESIZE_val in Hmax'.
  apply (wpe_loop _ (fun st s' => kept s s' /\ exists m', crep s' m' X /\
      offset <= st.1 <= offset + count /\ st.2 = buf + (st.1 - offset) /\
      wprog m0 m' f offset buf st.1)
    (fun st _ => Z.to_nat (offset + count - st.1))).
  - intros [pos buf'] s1 (K1 & m1 & R1 & Hpos & Hb & P1). simpl in Hpos, Hb, P1. subst buf'.
    rewrite (u32_small pos) by lia. destruct (Z.ltb_spec pos (offset + count)) as [Hlt|Hge].
    + rewrite (blk_of_val pos) by lia. apply wpe_bind.
      pose proof (block_index pos ltac:(lia)) as Hi. destruct (pos_split pos) as [Epos Hpr].
      eapply wp_wpe; [apply (file_get_block_ok s1 m1 X); [apply P1|done|apply P1|done|]|].
      { destruct Hind as [Hd|Hd]; [left; lia|right; left].
        by rewrite (step_own _ m0 m1 f) by (apply P1 || done || unfold NPTR; lia). }
      intros r s2 (K2 & m2 & R2 & M2 & O2 & St2 & Z2 & Hr). cbn beta.
      assert (wprog m0 m2 f offset buf pos) as P2
        by (eapply (wprog_get m0 m1); [done|lia|done..]).
      destruct Hr as [(-> & Hn & _ & _)|(-> & _ & _ & Hnone)].
      * destruct (Z.ltb_spec 0 0); [lia|]. cbv zeta. rewrite chunk_val by lia.
        rewrite BLKSIZE_val, Z.rem_mod_nonneg by lia.
        set (bn := Z.min (4096 - pos `mod` 4096) (offset + count - pos)).
        assert (0 < bn /\ pos `mod` 4096 + bn <= 4096 /\ pos + bn <= offset + count) as (Hb1 & Hb2 & Hb3)
          by (unfold bn; lia).
        rewrite (u32_small bn) by lia. apply wpe_bind.
        destruct Hbuf as (Hb0 & Hbt & Hbx).
        eapply wp_wpe; [apply (fs_memmove_ok s2 m2 X); [done|done|lia| |]|].
        { intros x Hx. left. apply Hbx. lia. }
        { intros x Hx. eapply (own_acc m2 X f (pos / 4096)); [done|done|lia|done|].
          apply blk_in. rewrite BLKSIZE_val. lia. }
        intros _ s3 (K3 & m3 & R3 & H3). cbn beta. wp_steps. simpl.
        rewrite s32_small, u32_small by lia. split; [|lia].
        split; [transitivity s1; [done|]; by transitivity s2|].
        exists m3. split; [done|]. split; [lia|]. split; [lia|].
        apply (wprog_write m0 m2 m3 f offset buf pos bn X count);
          [lia|lia|lia|lia|done|exact (conj Hb0 (conj Hbt Hbx))|done|done|exact H3].
      * change (- E_NO_DISK <? 0) with true. wp_steps. split; [by transitivity s1|].
        exists m2, pos. split; [done|]. split; [lia|]. split; [done|]. right. split; [done|].
        intros b Hb. apply Hnone. by rewrite (st_nb _ _ _ _ (wg_step _ _ _ _ _ _ P1)).
    + wp_steps. split; [done|]. exists m1, pos. split; [done|]. split; [lia|]. split; [done|].
      left. split; [done|lia].
  - simpl. split; [reflexivity|]. exists m0. split; [done|]. split; [lia|]. split; [lia|].
    constructor; [done|done|apply fstep_refl|done|intros p Hp; lia|done].
  - simpl. lia.
Qed.

(** The file after [pos - offset] bytes of the buffer were written to it. *)
Record written m m' (f offset count buf pos : Z) : Prop := mk_written {
  wr_meta : fs_meta m';
  wr_ok : file_ok m' f;
  wr_step : fstep (fun _ => True) m m' f;
  wr_size : fsize m' f = Z.max (fsize m f) (offset + count);
  wr_new p : offset <= p < pos ->
    own m' f (p / 4096) <> 0 /\ content m' f p = getb m (buf + (p - offset));
  wr_old p : 0 <= p < MAXFILESIZE -> ~ (offset <= p < pos) -> own m f (p / 4096) <> 0 ->
    content m' f p = content m f p }.

Definition file_write_post s m X f offset count buf (r : Z) (s' : fst) : Prop :=
  kept s s' /\ exists m' pos, crep s' m' X /\ offset <= pos <= offset + count /\
    written m m' f offset count buf pos /\
    (r = count /\ pos = offset + count \/
     r = - E_NO_DISK /\ forall b, 1 <= b < nblocks m -> free_bit m' b = false).

Lemma file_write_ok s m X f offset count buf :
  fs_meta m -> crep s m X -> file_ok m f -> 0 <= offset -> 0 <= count ->
  offset + count <= MAXFILESIZE -> fsize m f <= MAXFILESIZE -> user_buf X buf count ->
  offset + count <= NDIRECT * BLKSIZE \/ own m f (-1) <> 0 ->
  wp (file_write f buf count offset) (file_write_post s m X f offset count buf) s.
Proof.
  intros Hm R Hok Ho Hcnt Hmax Hsz Hbuf Hind. pose proof Hmax as Hmax'. rewrite MAXFILESIZE_val in Hmax', Hsz.
  pose proof (read32_range m (f_size f)) as Hszr. fold (fsize m f) in Hszr.
  change (NDIRECT * BLKSIZE) with (10 * 4096) in Hind.
  unfold wp, file_write. apply wpe_bind.
  eapply wp_wpe; [by apply (load_size s m X)|]. intros v s1 (-> & R1 & F1). cbn beta zeta.
  rewrite (u32_small (offset + count)), (u32_small (fsize m f)) by lia. apply wpe_bind.
  destruct (Z.ltb_spec (fsize m f) (offset + count)) as [Hlt|Hge].
  - eapply wp_wpe; [apply (extend_ok s1 m X f); [done..|rewrite !s32_small by lia; lia]|].
    intros r s2 (-> & K2 & R2 & _). cbn beta. destruct (Z.ltb_spec 0 0); [lia|]. rewrite s32_small in R2 by lia.
    destruct (size_write m f (offset + count) Hm Hok) as (Hm0 & Hok0 & St0 & Hsz0 & _ & Ho0).
    set (m0 := write32 m (f_size f) (offset + count)) in *. apply wpe_bind.
    eapply wp_wpe; [apply (write_loop_ok s2 m0 X f offset count buf (offset + count)); try done|].
    { rewrite Ho0 by (unfold NPTR; lia). done. }
    intros e s3 (K3 & m' & pos & R3 & Hpos & [Pm Pok Pst Psz Pnew Pold] & He). wp_steps.
    split; [transitivity s1; [apply (fa_kept _ _ F1)|]; by transitivity s2|].
    exists m', pos. split; [done|]. split; [done|]. split.
    + constructor; [done|done|..].
      * eapply fstep_trans; [|exact Pst]. eapply fstep_mono; [|exact St0]. done.
      * rewrite Psz, Hsz0, u32_small by lia. lia.
      * intros p Hp. destruct (Pnew p Hp) as [? ->]. split; [done|].
        apply (st_frame _ _ _ _ St0), not_disk_foreign. destruct Hbuf as (_ & _ & Hb). apply Hb. lia.
      * intros p Hp Hout Hn. pose proof (block_index p Hp). rewrite Pold; [|done|done|].
        -- by apply step_content.
        -- by rewrite Ho0 by lia.
    + destruct He as [[-> ->]|[-> Hnone]]; [left; simpl; rewrite s32_small by lia; done|right].
      split; [done|]. by rewrite (st_nb _ _ _ _ St0) in Hnone.
  - wp_steps. destruct (Z.ltb_spec 0 0); [lia|]. apply wpe_bind.
    eapply wp_wpe; [apply (write_loop_ok s1 m X f offset count buf (offset + count)); try done|].
    intros e s3 (K3 & m' & pos & R3 & Hpos & [Pm Pok Pst Psz Pnew Pold] & He). wp_steps.
    split; [transitivity s1; [apply (fa_kept _ _ F1)|done]|].
    exists m', pos. split; [done|]. split; [done|]. split.
    + constructor; try done. rewrite Psz. lia.
    + destruct He as [[-> ->]|[-> Hnone]]; [left; simpl; rewrite s32_small by lia; done|by right].
Qed.

(** ** file_read *)

Definition read_len (m : gmap Z Z) (f count offset : Z) : Z :=
  if fsize m f <=? offset then 0 else Z.min count (fsize m f - offset).

(** The memory with the first [n] bytes of the file from [offset] in [buf]. *)
Definition filled_buf m m' (f offset buf n : Z) : Prop :=
  forall x, getb m' x =
    if decide (buf <= x < buf + n) then content m f (offset + (x - buf)) else getb m x.

Lemma content_same m m' f p :
  (forall j, -1 <= j < NPTR -> own m' f j = own m f j) ->
  (forall a, in_disk a -> getb m' a = getb m a) ->
  fs_meta m -> file_ok m f -> 0 <= p / 4096 < NPTR -> own m f (p / 4096) <> 0 ->
  content m' f p = content m f p.
Proof.
  intros Ho Hd Hm Hok Hp Hn. unfold content. rewrite Ho by lia. apply Hd, in_disk_blk.
  destruct (pos_split p). rewrite (proj2 (blk_in _ (own m f (p / 4096)))) by (rewrite BLKSIZE_val; lia).
  destruct (fo_own m f Hok (p / 4096) ltac:(lia) Hn) as ([] & _ & _).
  pose proof (nblocks_max m Hm). pose proof (nbitmap_range m Hm). lia.
Qed.

(** Changes outside the disk do not touch the file system. *)
Lemma outside_ok m m' f :
  fs_meta m -> file_ok m f -> (forall a, in_disk a -> getb m' a = getb m a) ->
  fs_meta m' /\ file_ok m' f /\ forall j, -1 <= j < NPTR -> own m' f j = own m f j.
Proof.
  intros Hm Hok Hd. pose proof (nblocks_max m Hm) as Hmx. pose proof (nbitmap_range m Hm) as Hr.
  destruct (meta_frame m m' Hm) as (Hm2 & Hn2 & Hf2).
  { intros a Ha. apply Hd, in_disk_blk. destruct Ha as [Ha|Ha]; [unfold bitmap_byte in Ha; lia|].
    unfold nblocks_byte in Ha. rewrite (proj2 (blk_in a 1)) by (rewrite BLKSIZE_val; lia). lia. }
  assert (forall j, j < NPTR -> own m' f j = own m f j) as Ho.
  { apply own_same.
    - intros a Ha. apply Hd, in_disk_blk. rewrite (struct_blk m f a Hok) by lia.
      destruct (fo_pos m f Hok) as [[]|[E1 _]]; lia.
    - intros Hi a Ha. apply Hd, in_disk_blk. rewrite Ha.
      destruct (fo_own m f Hok (-1) ltac:(unfold NPTR; lia) Hi) as ([] & _ & _). lia. }
  split; [done|]. split; [|intros j Hj; apply Ho; lia].
  apply (file_ok_same m); [done|done|done|intros b Hb; by rewrite Hf2|intros j Hj; apply Ho; lia].
Qed.

Lemma file_read_ok s m X f buf count offset :
  fs_meta m -> crep s m X -> file_ok m f -> 0 <= offset -> 0 <= count < 2^31 ->
  fsize m f <= MAXFILESIZE -> user_buf X buf count ->
  (forall p, offset <= p < offset + read_len m f count offset -> own m f (p / 4096) <> 0) ->
  wp (file_read f buf count offset) (fun r s' => r = read_len m f count offset /\ kept s s' /\
    exists m', crep s' m' X /\ filled_buf m m' f offset buf (read_len m f count offset)) s.
Proof.
  intros Hm R Hok Ho Hcnt Hsz (Hb0 & Hbt & Hbx) Hmap. pose proof Hsz as Hsz'. rewrite MAXFILESIZE_val in Hsz'.
  pose proof (read32_range m (f_size f)) as Hszr. fold (fsize m f) in Hszr.
  unfold wp, file_read. apply wpe_bind.
  eapply wp_wpe; [by apply (load_size s m X)|]. intros v s1 (-> & R1 & F1). cbn beta zeta.
  rewrite (s32_small (fsize m f)) by lia. unfold read_len in *.
  destruct (Z.leb_spec (fsize m f) offset) as [Hend|Hlt].
  { wp_steps. split; [done|]. split; [apply (fa_kept _ _ F1)|]. exists m. split; [done|].
    intros x. rewrite decide_False by lia. done. }
  rewrite (u32_small (fsize m f - offset)) by lia.
  assert ((if count <=? fsize m f - offset then count else fsize m f - offset) =
    Z.min count (fsize m f - offset)) as -> by (destruct (Z.leb_spec count (fsize m f - offset)); lia).
  set (n := Z.min count (fsize m f - offset)) in *.
  assert (0 <= n <= count /\ n <= fsize m f - offset) as [Hn1 Hn2] by (unfold n; lia).
  rewrite (u32_small (offset + n)) by lia. apply wpe_bind.
  eapply wpe_mono with (Q := fun e s' => e = None /\ kept s1 s' /\
    exists m', crep s' m' X /\ filled_buf m m' f offset buf n) (E := fun _ => False); [|
    intros e s2 (-> & K2 & m' & R2 & H2); wp_steps; simpl; rewrite s32_small by lia;
    (split; [done|]); (split; [transitivity s1; [apply (fa_kept _ _ F1)|done]|]); eauto|done].
  apply (wpe_loop _ (fun st s' => kept s1 s' /\ exists m', crep s' m' X /\
      offset <= st.1 <= offset + n /\ st.2 = buf + (st.1 - offset) /\
      filled_buf m m' f offset buf (st.1 - offset))
    (fun st _ => Z.to_nat (offset + n - st.1))).
  - intros [pos buf'] s2 (K2 & m2 & R2 & Hpos & Hb & P2). simpl in Hpos, Hb, P2. subst buf'.
    rewrite (u32_small pos) by lia. destruct (Z.ltb_spec pos (offset + n)) as [Hl|Hge].
    + rewrite (blk_of_val pos) by lia. apply wpe_bind.
      pose proof (block_index pos ltac:(lia)) as Hi. destruct (pos_split pos) as [Epos Hpr].
      assert (forall a, in_disk a -> getb m2 a = getb m a) as Hdisk.
      { intros a Ha. rewrite P2. case_decide; [|done]. destruct (Hbx a) as [_ []]; [lia|done]. }
      destruct (outside_ok m m2 f Hm Hok Hdisk) as (Hm2 & Hok2 & Ho2).
      assert (own m2 f (pos / 4096) <> 0) as Hown2 by (rewrite Ho2 by lia; apply Hmap; lia).
      eapply wp_wpe; [apply (file_get_block_ok s2 m2 X); [done|done|done|done|]|].
      { destruct (decide (pos / 4096 < 10)); [by left|right; left]. intros E. apply Hown2.
        unfold own in E. simpl in E. unfold own. destruct (Z.ltb_spec (pos / 4096) 0); [lia|].
        destruct (Z.ltb_spec (pos / 4096) 10); [lia|]. by rewrite E. }
      intros r s3 (K3 & m3 & R3 & _ & _ & _ & _ & [(-> & _ & _ & Hsame)|(_ & E & _)]); [|done]. cbn beta.
      rewrite (Hsame Hown2) in *. clear Hsame.
      destruct (Z.ltb_spec 0 0); [lia|]. cbv zeta. rewrite chunk_val by lia.
      rewrite BLKSIZE_val, Z.rem_mod_nonneg by lia.
      set (bn := Z.min (4096 - pos `mod` 4096) (offset + n - pos)).
      assert (0 < bn /\ pos `mod` 4096 + bn <= 4096 /\ pos + bn <= offset + n) as (Hb1 & Hb2 & Hb3)
        by (unfold bn; lia).
      rewrite (u32_small bn) by lia. apply wpe_bind.
      eapply wp_wpe; [apply (fs_memmove_ok s3 m2 X); [done|done|lia| |]|].
      { intros x Hx. eapply (own_acc m2 X f (pos / 4096)); [done|done|lia|done|].
        apply blk_in. rewrite BLKSIZE_val. lia. }
      { intros x Hx. left. apply Hbx. lia. }
      intros _ s4 (K4 & m4 & R4 & H4). cbn beta. wp_steps. simpl.
      rewrite s32_small, u32_small by lia. split; [|lia].
      split; [transitivity s2; [done|]; by transitivity s3|].
      exists m4. split; [done|]. split; [lia|]. split; [lia|].
      intros x. rewrite H4. destruct (decide (buf + (pos - offset) <= x < buf + (pos - offset) + bn)) as [D|D].
      * rewrite decide_True by lia.
        pose (p := offset + (x - buf)). assert (pos <= p < pos + bn) as Hp by (unfold p; lia).
        apply (chunk_pos pos bn p Hb1 Hb2) in Hp as Hp'. destruct Hp' as [Ep Hpm]. fold p.
        transitivity (content m2 f p).
        -- unfold content. rewrite Ep. f_equal. destruct (pos_split p) as [Ep2 _].
           rewrite Ep in Ep2. unfold p in *. lia.
        -- apply content_same; [done..|by rewrite Ep|]. rewrite Ep. rewrite <- Ho2 by lia. done.
      * rewrite P2. repeat case_decide; try lia; done.
    + wp_steps. split; [done|]. split; [done|]. exists m2. split; [done|].
      replace n with (pos - offset) by lia. done.
  - simpl. split; [reflexivity|]. exists m. split; [done|]. split; [lia|]. split; [lia|].
    intros x. rewrite decide_False by lia. done.
  - simpl. lia.
Qed.
End io.
