(* ===== verification/FsTrunc.v ===== *)
(** * Truncating files (fs/fs.c: file_free_block, file_truncate_blocks) *)
From S2P Require Import Prelude Mem Mmu LibString Fs FsCache FsFile FsIo.

(** The file [f] of [m] after the pointers outside [K] were freed. *)
Record trunc (m m' : gmap Z Z) (f : Z) (K : Z -> bool) : Prop := mk_trunc {
  tr_meta : fs_meta m';
  tr_ok : file_ok m' f;
  tr_nb : nblocks m' = nblocks m;
  tr_size : fsize m' f = fsize m f;
  tr_own j : -1 <= j < NPTR -> own m' f j = if K j then own m f j else 0;
  tr_free b : 0 <= b < nblocks m -> free_bit m' b = true <->
    free_bit m b = true \/
    exists j, -1 <= j < NPTR /\ K j = false /\ own m f j = b /\ b <> 0;
  tr_frame a : foreign m f a -> getb m' a = getb m a;
  tr_hdr a : f <= a < f + 128 \/ f + 132 <= a < f + 136 -> getb m' a = getb m a;
  tr_data j a : 0 <= j < NPTR -> own m f j <> 0 -> blk a = own m f j -> getb m' a = getb m a }.

Lemma trunc_refl m f : fs_meta m -> file_ok m f -> trunc m m f (fun _ => true).
Proof.
  intros Hm Hok. constructor; try done. intros b Hb. split; [auto|].
  intros [H|(j & _ & H & _)]; done.
Qed.

(** Freeing one pointer. *)
Record freed (m m' : gmap Z Z) (f k : Z) : Prop := mk_freed {
  fr_meta : fs_meta m';
  fr_nb : nblocks m' = nblocks m;
  fr_own j : -1 <= j < NPTR -> own m' f j = if decide (j = k) then 0 else own m f j;
  fr_bit b : 0 <= b < nblocks m ->
    free_bit m' b = if decide (b = own m f k) then true else free_bit m b;
  fr_same a : ~ bitmap_byte m a -> ~ (f + 136 <= a < f + 180) ->
    (own m f (-1) <> 0 -> blk a <> own m f (-1)) -> getb m' a = getb m a }.

Lemma freed_ok m m' f k :
  fs_meta m -> file_ok m f -> -1 <= k < NPTR -> own m f k <> 0 -> freed m m' f k -> file_ok m' f.
Proof.
  intros Hm Hok Hk Hn [Fm Fn Fo Fb _]. destruct (fo_own m f Hok k Hk Hn) as (_ & _ & Hkf).
  pose proof (nbitmap_range m Hm). destruct Hok as [H1 H2 H3 H4 H5]. constructor; [done|..].
  - rewrite Fb by (destruct H3 as [[]|[E _]]; lia). case_decide; [congruence|done].
  - by rewrite (is_data_same m m').
  - intros j Hj. rewrite Fo, (is_data_same m m') by done. case_decide as E; [done|].
    intros Hj0. destruct (H4 j Hj Hj0) as (D & Fr & Ne). split; [done|]. split; [|done].
    unfold is_data in D. rewrite Fb by lia. case_decide as E2; [|done].
    destruct E. by apply H5.
  - intros i j Hi Hj. rewrite !Fo by done. repeat case_decide; subst; try done. by apply H5.
Qed.

Lemma freed_struct m m' f k a :
  fs_meta m -> file_ok m f -> freed m m' f k ->
  f <= a < f + 256 -> ~ (f + 136 <= a < f + 180) -> getb m' a = getb m a.
Proof.
  intros Hm Hok Fr Ha Hn. apply (fr_same _ _ _ _ Fr); [|done|].
  - intros H. eapply (struct_not_meta m f a); [done..|by left].
  - intros Hi E. destruct (fo_own m f Hok (-1) ltac:(unfold NPTR; lia) Hi) as (_ & _ & Hne).
    apply Hne. rewrite <- E. by apply (struct_blk m).
Qed.

Lemma trunc_step m m1 m2 f k K :
  fs_meta m -> file_ok m f -> trunc m m1 f K -> -1 <= k < NPTR -> own m1 f k <> 0 ->
  freed m1 m2 f k -> trunc m m2 f (fun j => K j && negb (j =? k)).
Proof.
  intros Hm0 Hok0 T Hk Hn Fr.
  pose proof (freed_ok m1 m2 f k (tr_meta _ _ _ _ T) (tr_ok _ _ _ _ T) Hk Hn Fr) as Hok2.
  pose proof (freed_struct m1 m2 f k) as Hstr.
  destruct T as [Tm Tok Tn Tsz To Tf Tfr Th Td]. pose proof Fr as [Fm Fn Fo Fb Fs].
  assert (K k = true /\ own m1 f k = own m f k) as [HKk Hokk].
  { rewrite To in Hn |- * by done. destruct (K k); done. }
  assert (forall x, foreign m f x \/ (exists j, 0 <= j < NPTR /\ own m f j <> 0 /\ blk x = own m f j) ->
    ~ bitmap_byte m1 x -> ~ (f <= x < f + 256) -> getb m2 x = getb m1 x) as Hout.
  { intros x Hx Hb Hs. apply Fs; [done|lia|]. intros Hi E. rewrite To in Hi, E by (unfold NPTR; lia).
    destruct (K (-1)); [|done]. destruct Hx as [[Hx|(_ & _ & _ & _ & Hx)]|(j & Hj & Hj0 & Hxj)].
    - apply Hx, in_disk_blk. rewrite E.
      destruct (fo_own m f Hok0 (-1) ltac:(unfold NPTR; lia) Hi) as ([] & _ & _).
      pose proof (nblocks_max m Hm0). pose proof (nbitmap_range m Hm0). lia.
    - apply (Hx (-1)); [unfold NPTR; lia|done|done].
    - assert (j = -1); [|lia]. apply (fo_inj m f Hok0); [lia|unfold NPTR; lia|done|congruence]. }
  constructor; [done|done|congruence|..].
  - rewrite <- Tsz. apply read32_ext. unfold f_size. intros a Ha. apply Hstr; [done..|lia|lia].
  - intros j Hj. rewrite Fo, To by done. destruct (Z.eqb_spec j k) as [->|Hne].
    + rewrite decide_True by done. by rewrite andb_false_r.
    + rewrite decide_False by done. by rewrite andb_true_r.
  - intros b Hb. rewrite Fb by congruence. rewrite Hokk. case_decide as E.
    + split; [|done]. intros _. right. exists k. rewrite Z.eqb_refl, andb_false_r.
      subst b. split; [done|]. split; [done|]. split; [done|congruence].
    + rewrite Tf by done. split.
      * intros [H|(j & Hj & HK & Hjb)]; [by left|right]. exists j. split; [done|].
        rewrite HK. done.
      * intros [H|(j & Hj & HK & Hjb & Hb0)]; [by left|right]. exists j. split; [done|].
        split; [|done]. destruct (K j) eqn:EK; [|done]. destruct (Z.eqb_spec j k); [|done]. congruence.
  - intros a Ha. rewrite <- (Tfr a Ha). apply Hout; [by left|..].
    + intros H. unfold bitmap_byte, nbitmap in H. rewrite Tn in H. destruct Ha as [Ha|(_ & _ & Ha & _)]; [|done].
      apply Ha, in_disk_blk. pose proof (nblocks_max m Hm0). pose proof (nbitmap_range m Hm0).
      unfold nbitmap in *. lia.
    + intros H. destruct Ha as [Ha|(_ & _ & _ & Ha & _)]; [|done]. apply Ha, in_disk_blk.
      rewrite (struct_blk m f a Hok0 H). pose proof (struct_disk m f Hm0 Hok0) as HD.
      by apply in_disk_blk in HD.
  - intros a Ha. rewrite <- (Th a Ha). apply Hstr; [done..|lia|lia].
  - intros j a Hj Hj0 Ha. rewrite <- (Td j a Hj Hj0 Ha). apply Hout; [right; eauto|..].
    + intros H. apply (own_not_meta m f j a Hm0 Hok0 ltac:(lia) Hj0 Ha). left.
      unfold bitmap_byte, nbitmap in *. by rewrite Tn in H.
    + intros H. destruct (fo_own m f Hok0 j ltac:(lia) Hj0) as (_ & _ & Hne). apply Hne.
      rewrite <- Ha. by apply (struct_blk m).
Qed.

Lemma give_same m b a : 0 <= b < nblocks m -> ~ bitmap_byte m a -> getb (give_block m b) a = getb m a.
Proof.
  intros Hb Ha. apply getb_write32_ne. destruct (decide (bit_addr b <= a < bit_addr b + 4)); [|lia].
  destruct Ha. by apply (bit_addr_bitmap m b).
Qed.

(** Freeing the block and then changing bytes of the struct or of the indirect
    block. *)
Lemma freed_intro m m2 f k :
  fs_meta m -> file_ok m f -> -1 <= k < NPTR -> own m f k <> 0 ->
  (forall a, ~ (f + 136 <= a < f + 180) -> (own m f (-1) <> 0 -> blk a <> own m f (-1)) ->
     getb m2 a = getb (give_block m (own m f k)) a) ->
  (forall j, -1 <= j < NPTR -> own m2 f j = if decide (j = k) then 0 else own m f j) ->
  freed m m2 f k.
Proof.
  intros Hm Hok Hk Hn Hsame Hown. destruct (fo_own m f Hok k Hk Hn) as (Hd & _ & _).
  set (b := own m f k) in *. pose proof (give_meta m b Hm Hd) as Hm1.
  pose proof (nbitmap_range m Hm) as Hr. unfold is_data in Hd.
  assert (nblocks (give_block m b) = nblocks m) as Hn1 by (apply nblocks_write_bit; lia).
  destruct (meta_frame (give_block m b) m2 Hm1) as (Hm2 & Hn2 & Hf2).
  { intros a Ha. assert (meta_byte m a) as Ha'.
    { destruct Ha as [Ha|Ha]; [left|by right]. unfold bitmap_byte, nbitmap in *. by rewrite Hn1 in Ha. }
    apply Hsame.
    - intros H. eapply (struct_not_meta m f a); [done..|lia|done].
    - intros Hi H. eapply (own_not_meta m f (-1) a); [done..|unfold NPTR; lia|done|done|done]. }
  rewrite Hn1 in Hn2, Hf2. constructor; [done|done|done|..].
  - intros c Hc. rewrite Hf2, free_bit_give by done. done.
  - intros a H1 H2 H3. rewrite Hsame by done. apply give_same; [lia|done].
Qed.

Lemma freed_slot m f k :
  fs_meta m -> file_ok m f -> 0 <= k < NPTR -> k < 10 \/ own m f (-1) <> 0 -> own m f k <> 0 ->
  freed m (write32 (give_block m (own m f k)) (slot_of m f k) 0) f k.
Proof.
  intros Hm Hok Hk Hc Hn. destruct (fo_own m f Hok k ltac:(lia) Hn) as ([Hd1 Hd2] & _ & _).
  pose proof (nbitmap_range m Hm) as Hr.
  assert (forall j, j < NPTR -> own (give_block m (own m f k)) f j = own m f j) as Ho
    by (apply own_bitmap; [done..|]; intros a Ha; apply give_same; [lia|done]).
  assert (slot_of (give_block m (own m f k)) f k = slot_of m f k) as Hsl.
  { pose proof (Ho (-1) ltac:(unfold NPTR; lia)) as H. unfold own at 1 3 in H. simpl in H.
    unfold slot_of. by rewrite H. }
  apply freed_intro; [done..|lia|done| |].
  - intros a H1 H2. apply getb_write32_ne.
    destruct (decide (slot_of m f k <= a < slot_of m f k + 4)) as [Ha|]; [|lia].
    destruct (slot_bytes m f k a Hk Ha) as [[_ H]|[H10 H]]; [lia|].
    exfalso. apply H2; [destruct Hc; [lia|done]|done].
  - intros j Hj. rewrite <- Hsl, own_set.
    + by rewrite Ho by lia.
    + rewrite Ho by (unfold NPTR; lia). apply own_apart; [done|unfold NPTR; lia].
    + done.
    + by rewrite Ho by (unfold NPTR; lia).
    + done.
Qed.

Lemma freed_indirect m f :
  fs_meta m -> file_ok m f -> own m f (-1) <> 0 -> (forall j, 10 <= j < NPTR -> own m f j = 0) ->
  freed m (write32 (give_block m (own m f (-1))) (f_indirect f) 0) f (-1).
Proof.
  intros Hm Hok Hn Hz. destruct (fo_own m f Hok (-1) ltac:(unfold NPTR; lia) Hn) as ([Hd1 Hd2] & _ & _).
  pose proof (nbitmap_range m Hm) as Hr.
  apply freed_intro; [done..|unfold NPTR; lia|done| |].
  - intros a H1 H2. apply getb_write32_ne. unfold f_indirect. lia.
  - assert (forall j, j < NPTR -> own (give_block m (own m f (-1))) f j = own m f j) as Ho
      by (apply own_bitmap; [done..|]; intros a Ha; apply give_same; [lia|done]).
    intros j Hj. set (g := give_block m (own m f (-1))) in *. unfold own at 1.
    assert (read32 (write32 g (f_indirect f) 0) (f_indirect f) = 0) as -> by apply read32_write32_eq.
    destruct (Z.ltb_spec j 0); [case_decide; [done|lia]|]. case_decide; [lia|].
    destruct (Z.ltb_spec j 10); [|symmetry; apply Hz; lia].
    rewrite <- Ho by lia. unfold own. destruct (Z.ltb_spec j 0); [lia|]. destruct (Z.ltb_spec j 10); [|lia].
    apply read32_write32_ne. unfold f_direct, f_indirect. lia.
Qed.

Lemma slot_not_own m f i x :
  file_ok m f -> 0 <= i < NPTR -> i < 10 \/ own m f (-1) <> 0 -> own m f i <> 0 ->
  slot_of m f i <= x < slot_of m f i + 4 -> blk x <> own m f i.
Proof.
  intros Hok Hi Hc Hn Hx. destruct (slot_bytes m f i x Hi Hx) as [[_ H]|[H10 H]].
  - rewrite (struct_blk m f x Hok) by lia. intros E.
    destruct (fo_own m f Hok i ltac:(lia) Hn) as (_ & _ & Hne). congruence.
  - rewrite H. intros E. assert (i = -1); [|lia].
    apply (fo_inj m f Hok); [lia|unfold NPTR; lia|done|done].
Qed.

(** Pointers that are null can be counted either way. *)
Lemma trunc_ext m m' f K K' :
  trunc m m' f K -> (forall j, -1 <= j < NPTR -> own m f j <> 0 -> K j = K' j) -> trunc m m' f K'.
Proof.
  intros [Tm Tok Tn Tsz To Tf Tfr Th Td] HK. constructor; try done.
  - intros j Hj. rewrite To by done. destruct (decide (own m f j = 0)) as [->|Hn].
    + by destruct (K j), (K' j).
    + by rewrite HK.
  - intros b Hb. rewrite Tf by done. split; (intros [H|(j & Hj & E & Hjb & Hb0)]; [by left|right]);
      exists j; (split; [done|]); (split; [|done]); [rewrite <- HK|rewrite HK]; congruence || done.
Qed.

Section trunc.
Context {HW : Machine} {GM : GoodMachine HW}.
Implicit Types (s : fst) (m : gmap Z Z) (X : gset Z).

(** file_block_walk without allocation. *)
Lemma walk_noalloc_ok s m X f i :
  fs_meta m -> crep s m X -> file_ok m f -> 0 <= i < NPTR ->
  wp (file_block_walk f i false) (fun r s' => crep s' m X /\ kept s s' /\
    (r = (0, slot_of m f i) /\ (i < 10 \/ own m f (-1) <> 0) \/
     r = (- E_NOT_FOUND, 0) /\ 10 <= i /\ own m f (-1) = 0)) s.
Proof.
  intros Hm R Hok Hi. unfold wp, file_block_walk.
  change (NDIRECT + NINDIRECT) with NPTR. destruct (Z.leb_spec NPTR i); [lia|].
  change NDIRECT with 10. destruct (Z.ltb_spec i 10) as [Hlt|Hge].
  { wp_steps. split; [done|]. split; [reflexivity|]. left. split; [|by left].
    unfold slot_of. destruct (Z.ltb_spec i 0); [lia|]. destruct (Z.ltb_spec i 10); [done|lia]. }
  apply wpe_bind. eapply wp_wpe; [by apply (load_indirect s m X)|]. intros v s1 (-> & R1 & F1).
  cbn beta zeta. change 10 with NDIRECT. destruct (Z.eqb_spec (own m f (-1)) 0) as [Hz|Hn].
  - simpl negb. cbv iota. wp_steps. split; [done|]. split; [apply (fa_kept _ _ F1)|]. by right.
  - eapply wp_wpe; [by apply (walk_slot s1 m X)|]. intros r s2 (-> & R2 & K2).
    split; [done|]. split; [transitivity s1; [apply (fa_kept _ _ F1)|done]|]. left. split; [done|by right].
Qed.

Lemma file_free_block_ok s m X f i :
  fs_meta m -> crep s m X -> file_ok m f -> 0 <= i < NPTR ->
  wp (file_free_block f i) (fun _ s' => kept s s' /\ exists m', crep s' m' X /\
    (m' = m /\ own m f i = 0 \/ own m f i <> 0 /\ freed m m' f i)) s.
Proof.
  intros Hm R Hok Hi. unfold wp, file_free_block. apply wpe_bind.
  eapply wp_wpe; [by apply (walk_noalloc_ok s m X)|]. intros r s1 (R1 & K1 & Hr). cbn beta.
  destruct Hr as [[-> Hc]|(-> & H10 & Hz)].
  - destruct (Z.ltb_spec 0 0); [lia|]. apply wpe_bind.
    eapply wp_wpe; [by apply (load_slot s1 m X)|]. intros v s2 (-> & R2 & F2). cbn beta. apply wpe_bind.
    destruct (Z.eqb_spec (own m f i) 0) as [Hz|Hn].
    + wp_steps. split; [transitivity s1; [done|apply (fa_kept _ _ F2)]|]. exists m. split; [done|]. by left.
    + destruct (fo_own m f Hok i ltac:(lia) Hn) as ([Hd1 Hd2] & Hfb & Hbf).
      pose proof (nbitmap_range m Hm) as Hrg.
      apply wpe_bind. eapply wp_wpe; [apply (free_block_ok s2 m X); [done|done|lia]|].
      intros _ s3 [R3 K3]. cbn beta.
      destruct (slot_acc m X f i Hm Hok Hi Hc) as [A1 A2].
      assert (forall a, acc m X a -> blk a <> own m f i -> acc (give_block m (own m f i)) X a) as Hacc.
      { intros a [Ha|(Ha & Hb & Hf)] Hne; [by left|right]. split; [done|].
        rewrite free_bit_give. case_decide; [done|]. split; [|done].
        unfold give_block. rewrite nblocks_write_bit by lia. done. }
      eapply wp_wpe; [apply (store32_ok s3 (give_block m (own m f i)) X)|].
      * apply give_meta; [done|]. split; lia.
      * done.
      * apply Hacc; [done|]. apply slot_not_own; [done..|lia].
      * apply Hacc; [done|]. apply slot_not_own; [done..|lia].
      * intros _ s4 [R4 K4]. wp_steps. split.
        { transitivity s1; [done|]. transitivity s2; [apply (fa_kept _ _ F2)|]. by transitivity s3. }
        eexists. split; [exact R4|]. right. split; [done|]. by apply freed_slot.
  - change (- E_NOT_FOUND <? 0) with true. wp_steps. split; [done|]. exists m. split; [done|]. left.
    split; [done|]. unfold own in Hz. simpl in Hz. unfold own. destruct (Z.ltb_spec i 0); [lia|].
    destruct (Z.ltb_spec i 10); [lia|]. by rewrite Hz.
Qed.

Lemma nblocks_of_val sz : 0 <= sz < 2^31 - 4096 -> nblocks_of sz = (sz + 4095) / 4096.
Proof.
  intros H. unfold nblocks_of. rewrite BLKSIZE_val, s32_small, Z.quot_div_nonneg by lia.
  replace (sz + 4096 - 1) with (sz + 4095) by lia. apply u32_small.
  split; [apply Z.div_pos; lia|]. apply Z.div_lt_upper_bound; lia.
Qed.

(** The pointers that a file of [n] blocks keeps. *)
Definition keeps (n j : Z) : bool := if j <? 0 then 10 <? n else j <? n.

Lemma trunc_loop_ok s m X f lo n :
  fs_meta m -> crep s m X -> file_ok m f -> 0 <= lo -> 0 <= n -> lo + n <= NPTR ->
  wp (for_ (seqZ lo n) (fun bno => file_free_block f bno ;;; ret tt)) (fun _ s' => kept s s' /\
    exists m', crep s' m' X /\ trunc m m' f (fun j => negb ((lo <=? j) && (j <? lo + n)))) s.
Proof.
  intros Hm R Hok Hlo Hn Hmax. eapply wp_mono; [eapply wpe_for with (pre := [])
    (Inv := fun dn s' => kept s s' /\ exists m', crep s' m' X /\
      trunc m m' f (fun j => negb ((lo <=? j) && (j <? lo + Z.of_nat (length dn)))))|].
  - split; [reflexivity|]. exists m. split; [done|]. eapply trunc_ext; [by apply trunc_refl|].
    intros j _ _. cbn [length Z.of_nat]. rewrite Z.add_0_r.
    destruct (Z.leb_spec lo j), (Z.ltb_spec j lo); (done || lia).
  - intros dn i todo s1 (K1 & m1 & R1 & T1) Heq. simpl in Heq.
    assert (seqZ lo n !! length dn = Some i) as Hi
      by (rewrite Heq, lookup_app_r, Nat.sub_diag by lia; done).
    apply lookup_seqZ in Hi as [-> Hlt]. apply wpe_bind.
    eapply wp_wpe; [apply (file_free_block_ok s1 m1 X); [apply T1|done|apply T1|lia]|].
    intros r s2 (K2 & m2 & R2 & H2). wp_steps. split; [by transitivity s1|]. exists m2. split; [done|].
    destruct H2 as [[-> Hz]|[Hnz Fr]].
    + eapply trunc_ext; [exact T1|]. intros j Hj Hj0. cbv beta. rewrite length_app. simpl.
      assert (j <> lo + Z.of_nat (length dn)).
      { intros ->. rewrite (tr_own _ _ _ _ T1) in Hz by lia.
        destruct (Z.ltb_spec (lo + Z.of_nat (length dn)) (lo + Z.of_nat (length dn))); [lia|].
        rewrite andb_false_r in Hz. done. }
      destruct (Z.leb_spec lo j), (Z.ltb_spec j (lo + Z.of_nat (length dn))),
        (Z.ltb_spec j (lo + Z.of_nat (length dn + 1))); (done || lia).
    + eapply trunc_ext; [by apply (trunc_step m m1 m2 f (lo + Z.of_nat (length dn))); try done; lia|].
      intros j Hj Hj0. cbv beta. rewrite length_app. simpl.
      destruct (Z.leb_spec lo j), (Z.ltb_spec j (lo + Z.of_nat (length dn))),
        (Z.ltb_spec j (lo + Z.of_nat (length dn + 1))), (Z.eqb_spec j (lo + Z.of_nat (length dn)));
        (done || lia).
  - intros [] s' (K & m' & R' & T). split; [done|]. exists m'. split; [done|].
    simpl in T. rewrite length_seqZ, Z2Nat.id in T by lia. done.
Qed.

Lemma drop_indirect_ok s m X f :
  fs_meta m -> crep s m X -> file_ok m f -> own m f (-1) <> 0 ->
  (forall j, 10 <= j < NPTR -> own m f j = 0) ->
  wp (free_block (own m f (-1)) ;;; store32 (f_indirect f) 0) (fun _ s' => kept s s' /\
    exists m', crep s' m' X /\ freed m m' f (-1)) s.
Proof.
  intros Hm R Hok Hn Hz.
  destruct (fo_own m f Hok (-1) ltac:(unfold NPTR; lia) Hn) as ([Hd1 Hd2] & Hfb & Hbf).
  pose proof (nbitmap_range m Hm) as Hrg. pose proof (nblocks_max m Hm) as Hmx.
  unfold wp. apply wpe_bind. eapply wp_wpe; [apply (free_block_ok s m X); [done|done|lia]|].
  intros _ s1 [R1 K1]. cbn beta.
  assert (forall a, f <= a < f + 256 -> acc (give_block m (own m f (-1))) X a) as Hacc.
  { intros a Ha. right. rewrite in_disk_blk, (struct_blk m f a Hok Ha), free_bit_give.
    rewrite decide_False by congruence. unfold give_block. rewrite nblocks_write_bit by lia.
    destruct (fo_pos m f Hok) as [[]|[E1 _]]; (split; [lia|]); (split; [lia|apply Hok]). }
  eapply wp_wpe; [apply (store32_ok s1 (give_block m (own m f (-1))) X); [|done|..]|].
  - apply give_meta; [done|]. split; lia.
  - apply Hacc. unfold f_indirect. lia.
  - apply Hacc. unfold f_indirect. lia.
  - intros _ s2 [R2 K2]. split; [by transitivity s1|]. eexists. split; [exact R2|].
    by apply freed_indirect.
Qed.

Lemma file_truncate_blocks_ok s m X f newsize :
  fs_meta m -> crep s m X -> file_ok m f -> 0 <= newsize < fsize m f -> fsize m f <= MAXFILESIZE ->
  (forall j, (fsize m f + 4095) / 4096 <= j < NPTR -> own m f j = 0) ->
  wp (file_truncate_blocks f newsize) (fun _ s' => kept s s' /\ exists m', crep s' m' X /\
    trunc m m' f (keeps ((newsize + 4095) / 4096))) s.
Proof.
  intros Hm R Hok Hnew Hsz Hbeyond. pose proof Hsz as Hsz'. rewrite MAXFILESIZE_val in Hsz'.
  unfold wp, file_truncate_blocks. apply wpe_bind.
  eapply wp_wpe; [by apply (load_size s m X)|]. intros v s1 (-> & R1 & F1). cbn beta zeta.
  rewrite (s32_small (fsize m f)), !nblocks_of_val by lia.
  set (old := (fsize m f + 4095) / 4096) in *. set (new := (newsize + 4095) / 4096).
  assert (0 <= new <= old) as Hno by (unfold new, old; split; [apply Z.div_pos; lia|apply Z.div_le_mono; lia]).
  assert (old <= NPTR) as Hold by (unfold old, NPTR; apply Z.lt_succ_r, Z.div_lt_upper_bound; lia).
  apply wpe_bind. eapply wp_wpe; [apply (trunc_loop_ok s1 m X f); [done..|lia|lia|lia]|].
  intros _ s2 (K2 & m2 & R2 & T2). cbn beta.
  replace (new + (old - new)) with old in T2 by lia.
  apply wpe_bind. eapply wp_wpe; [apply (load_indirect s2 m2 X); [apply T2|done|apply T2]|].
  intros v s3 (-> & R3 & F3). cbn beta. change NDIRECT with 10.
  assert (own m2 f (-1) = own m f (-1)) as Hi2.
  { rewrite (tr_own _ _ _ _ T2) by (unfold NPTR; lia). destruct (Z.leb_spec new (-1)); [lia|]. done. }
  assert (kept s s3) as K3.
  { transitivity s1; [apply (fa_kept _ _ F1)|]. transitivity s2; [done|apply (fa_kept _ _ F3)]. }
  assert (forall j, -1 <= j < NPTR -> own m f j <> 0 -> j <> -1 \/ 10 < new ->
    negb ((new <=? j) && (j <? old)) = keeps new j) as HK.
  { intros j Hj Hj0 Hc. unfold keeps. assert (0 <= j -> j < old) as Hjo.
    { intros Hj'. destruct (Z_lt_le_dec j old); [done|]. destruct Hj0. apply Hbeyond. lia. }
    destruct (Z.ltb_spec j 0), (Z.leb_spec new j), (Z.ltb_spec j old), (Z.ltb_spec j new), (Z.ltb_spec 10 new);
      (done || lia). }
  destruct (Z.leb_spec new 10) as [H10|H10]; destruct (Z.eqb_spec (own m2 f (-1)) 0) as [Hz|Hn]; simpl andb; cbv iota.
  - wp_steps. split; [done|]. exists m2. split; [done|]. eapply trunc_ext; [exact T2|].
    intros j Hj Hj0. apply HK; [done|done|]. left. intros ->. congruence.
  - eapply wp_wpe; [apply (drop_indirect_ok s3 m2 X f); [apply T2|done|apply T2|done|]|].
    { intros j Hj. rewrite (tr_own _ _ _ _ T2) by lia. destruct (Z_lt_le_dec j old).
      - destruct (Z.leb_spec new j), (Z.ltb_spec j old); (done || lia).
      - rewrite Hbeyond by lia. by case_match. }
    intros _ s5 (K5 & m5 & R5 & Fr). split; [by transitivity s3|].
    eexists. split; [exact R5|]. eapply trunc_ext;
      [apply (trunc_step m m2 m5 f (-1)); [done|done|exact T2|unfold NPTR; lia|done|exact Fr]|].
    intros j Hj Hj0. cbv beta. destruct (Z.eqb_spec j (-1)) as [->|Hne].
    + rewrite andb_false_r. unfold keeps. simpl. destruct (Z.ltb_spec 10 new); [lia|done].
    + change (negb false) with true. rewrite andb_true_r. apply HK; [done|done|by left].
  - wp_steps. split; [done|]. exists m2. split; [done|]. eapply trunc_ext; [exact T2|].
    intros j Hj Hj0. apply HK; [done|done|by right].
  - wp_steps. split; [done|]. exists m2. split; [done|]. eapply trunc_ext; [exact T2|].
    intros j Hj Hj0. apply HK; [done|done|by right].
Qed.

(** The file after it was cut to [newsize] bytes. *)
Record resized m m' (f newsize : Z) (K : Z -> bool) : Prop := mk_resized {
  rs_meta : fs_meta m';
  rs_ok : file_ok m' f;
  rs_size : fsize m' f = newsize;
  rs_own j : -1 <= j < NPTR -> own m' f j = if K j then own m f j else 0;
  rs_free b : 0 <= b < nblocks m -> free_bit m' b = true <->
    free_bit m b = true \/
    exists j, -1 <= j < NPTR /\ K j = false /\ own m f j = b /\ b <> 0;
  rs_content p : 0 <= p < newsize -> own m f (p / 4096) <> 0 -> content m' f p = content m f p;
  rs_frame a : foreign m f a -> getb m' a = getb m a }.

Lemma file_set_size_ok s m X f newsize :
  fs_meta m -> crep s m X -> file_ok m f -> 0 <= newsize < fsize m f -> fsize m f <= MAXFILESIZE ->
  (forall j, (fsize m f + 4095) / 4096 <= j < NPTR -> own m f j = 0) ->
  wp (file_set_size f newsize) (fun r s' => r = 0 /\ kept s s' /\ fpt s' !! PGNUM f <> Some true /\
    exists m', crep s' m' X /\ resized m m' f newsize (keeps ((newsize + 4095) / 4096))) s.
Proof.
  intros Hm R Hok Hnew Hsz Hbeyond. pose proof Hsz as Hsz'. rewrite MAXFILESIZE_val in Hsz'.
  unfold wp, file_set_size. apply wpe_bind.
  eapply wp_wpe; [by apply (load_size s m X)|]. intros v s1 (-> & R1 & F1). cbn beta.
  rewrite s32_small by lia. destruct (Z.ltb_spec newsize (fsize m f)); [|lia].
  apply wpe_bind. eapply wp_wpe; [by apply (file_truncate_blocks_ok s1 m X)|].
  intros _ s2 (K2 & m2 & R2 & T). cbn beta. apply wpe_bind.
  destruct T as [Tm Tok Tn Tsz To Tf Tfr Th Td].
  destruct (size_write m2 f newsize Tm Tok) as (Hm3 & Hok3 & St3 & Hsz3 & Hf3 & Ho3).
  eapply wp_wpe; [apply (store_pointer s2 m2 X f); [done..| |]; unfold f_size; lia|].
  intros _ s3 [R3 K3]. cbn beta. apply wpe_bind.
  eapply wp_wpe; [apply flush_block_ok; [exact R3|by apply (struct_disk m)]|].
  intros _ s4 (R4 & K4 & D4 & _). wp_steps. split; [done|].
  split; [transitivity s1; [apply (fa_kept _ _ F1)|]; transitivity s2; [done|]; by transitivity s3|].
  split; [done|]. eexists. split; [exact R4|].
  constructor; [done|done|..].
  - rewrite Hsz3. apply u32_small. lia.
  - intros j Hj. rewrite Ho3 by done. by apply To.
  - intros b Hb. rewrite Hf3 by lia. by apply Tf.
  - intros p Hp Hn. pose proof (block_index p ltac:(rewrite MAXFILESIZE_val; lia)) as Hi.
    destruct (pos_split p) as [Ep Hpr].
    assert (own m2 f (p / 4096) = own m f (p / 4096)) as Ho2.
    { rewrite To by lia. unfold keeps. destruct (Z.ltb_spec (p / 4096) 0); [lia|].
      destruct (Z.ltb_spec (p / 4096) ((newsize + 4095) / 4096)) as [|Hge]; [done|].
      pose proof (Z.div_mod (newsize + 4095) 4096 ltac:(lia)).
      pose proof (Z.mod_pos_bound (newsize + 4095) 4096 ltac:(lia)). lia. }
    rewrite (step_content m2 _ f p St3 Hi) by (by rewrite Ho2).
    unfold content. rewrite Ho2. apply (Td (p / 4096)); [done|done|]. apply blk_in.
    rewrite BLKSIZE_val. lia.
  - intros a Ha. rewrite <- (Tfr a Ha). apply getb_write32_ne.
    destruct (decide (f_size f <= a < f_size f + 4)) as [Hin|]; [|lia]. unfold f_size in Hin.
    exfalso. destruct Ha as [Ha|(_ & _ & _ & Ha & _)]; [|lia]. apply Ha, in_disk_blk.
    rewrite (struct_blk m f a Hok) by lia. pose proof (struct_disk m f Hm Hok) as HD.
    by apply in_disk_blk in HD.
Qed.
End trunc.
