(* ===== verification/FsThms.v ===== *)
(** * The theorems about the file server

    Each theorem is stated for every state of the server whose block cache
    represents a flat memory [m] ([crep]) with sound metadata ([fs_meta]); the
    witnesses run on a small file system with one file. *)
From S2P Require Import Prelude Mem Mmu LibString Fs FsCache FsFile FsIo FsTrunc.

(** ** A concrete file system

    Eight blocks: super block 1, bitmap 2, root directory in block 3 with one
    file of 5000 bytes in blocks 4 and 5; blocks 6 and 7 are free. *)
Module Ex.
#[export] Instance hw : Machine := {|
  sector_fails := fun _ => false;
  out_of_memory := fun _ _ => false |}.
#[export] Instance ex_good : GoodMachine hw.
Proof. by constructor. Qed.

Definition image (free : Z) : list (Z * Z) :=
  [ (4096, FS_MAGIC); (4100, 8); (4104 + 128, 4096); (4104 + 132, FTYPE_DIR); (4104 + 136, 3);
    (8192, free);
    (12288, 97); (12288 + 128, 5000); (12288 + 136, 4); (12288 + 140, 5) ].
Definition put (base : Z) (l : list (Z * Z)) : gmap Z Z :=
  foldl (fun m e => write32 m (base + e.1) e.2) ∅ l.

Definition m (free : Z) : gmap Z Z := put DISKMAP (image free).
Definition pt : gmap Z bool := {[ blk_page 1 := false; 1 := false; 2 := false ]}.
Definition st (free : Z) : fst :=
  mkFs (m free) pt (put 0 (image free)) (blk_addr 1) (blk_addr 2) ∅ ∅.
Definition X : gset Z := {[ 1; 2 ]}.
Definition f : Z := blk_addr 3.

Lemma put_shift l base x : getb (put base l) (base + x) = getb (put 0 l) x.
Proof.
  unfold put. generalize (eq_refl (getb ∅ (base + x)) : getb ∅ (base + x) = getb ∅ x).
  generalize (∅ : gmap Z Z) at 1 3. generalize (∅ : gmap Z Z).
  induction l as [|[o w] l IH]; intros m1 m2 H; simpl; [done|]. apply IH.
  unfold write32. rewrite !getb_setb. repeat case_decide; try lia; done.
Qed.

(** [free] is the first word of the bitmap. *)
Lemma ex_fs_rep free : crep (st free) (m free) X.
Proof.
  constructor; [done|done|by exists false|done|..].
  - intros a Ha _. unfold st, m. cbn [disk].
    rewrite <- (put_shift _ DISKMAP). f_equal. lia.
  - intros p Hp. unfold X in Hp. apply elem_of_union in Hp.
    destruct Hp as [->%elem_of_singleton| ->%elem_of_singleton]; by exists false.
Qed.

(** Blocks 6 and 7 free, or none. *)
Definition bits (free : Z) : Prop := free = 0xC0 \/ free = 0.

Lemma ex_meta free : bits free -> fs_meta (m free).
Proof.
  intros [->| ->].
  all: match goal with |- fs_meta ?x => assert (nblocks x = 8) as Hn by reflexivity end; constructor.
  all: rewrite ?Hn; change BLKBITSIZE with 32768; change (DISKSIZE / BLKSIZE) with 786432; try reflexivity.
  all: try lia.
  all: intros i Hi Hlt; assert (i = 0) as -> by lia; (split; [lia|reflexivity]).
Qed.

Lemma ex_own free j : bits free -> -1 <= j < NPTR ->
  own (m free) f j = if j =? 0 then 4 else if j =? 1 then 5 else 0.
Proof.
  intros Hf Hj. destruct (Z_lt_le_dec j 10).
  - assert (j = -1 \/ j = 0 \/ j = 1 \/ j = 2 \/ j = 3 \/ j = 4 \/ j = 5 \/ j = 6 \/ j = 7 \/
      j = 8 \/ j = 9) as H by lia.
    destruct Hf as [->| ->]; repeat (destruct H as [->|H]; [reflexivity|]); subst; reflexivity.
  - unfold own. destruct (Z.ltb_spec j 0); [lia|]. destruct (Z.ltb_spec j 10); [lia|].
    assert (read32 (m free) (f_indirect f) = 0) as -> by (by destruct Hf as [->| ->]).
    destruct (Z.eqb_spec j 0); [lia|]. destruct (Z.eqb_spec j 1); [lia|]. done.
Qed.

Lemma ex_ok free : bits free -> file_ok (m free) f.
Proof.
  intros Hf. constructor.
  - reflexivity.
  - by destruct Hf as [->| ->].
  - left. destruct Hf as [->| ->]; (split; [|reflexivity]); by vm_compute.
  - intros j Hj. rewrite ex_own by done.
    destruct (Z.eqb_spec j 0); [|destruct (Z.eqb_spec j 1)]; [| |done]; intros _;
      destruct Hf as [->| ->]; (split; [split; by vm_compute|]); split; by vm_compute.
  - intros i j Hi Hj. rewrite !ex_own by done.
    destruct (Z.eqb_spec i 0), (Z.eqb_spec i 1), (Z.eqb_spec j 0), (Z.eqb_spec j 1); (done || lia).
Qed.

Lemma ex_buf a n : 4096 <= a -> 0 <= n -> a + n <= 3 * 4096 -> user_buf X a n.
Proof.
  intros H1 Hn H2. split; [lia|]. split; [lia|]. intros x Hx. split.
  - assert (PGNUM x = 1 \/ PGNUM x = 2) as [-> | ->]; [|by apply elem_of_union; left; apply elem_of_singleton
      |by apply elem_of_union; right; apply elem_of_singleton].
    destruct (decide (x < 2 * 4096)); [left|right]; apply PGNUM_in; lia.
  - unfold in_disk. rewrite DISKMAP_val. lia.
Qed.
End Ex.

(** ** Claims *)

Section claims.
Context {HW : Machine} {GM : GoodMachine HW}.
Implicit Types (s : fst) (X : gset Z).

(** Fs_sync makes the disk hold the contents of every block: whatever was
    changed in the cache before, afterwards the bytes of each block on the disk
    are those the server sees, and the server's own view has not changed. *)
Theorem fs_sync_spec s m X :
  fs_meta m -> crep s m X ->
  wp fs_sync (fun _ s' => crep s' m X /\ kept s s' /\
    forall a, 1 <= blk a < nblocks m -> getb (disk s') (a - DISKMAP) = getb m a) s.
Proof. apply fs_sync_ok. Qed.

(** alloc_block returns the lowest free block, clears its bit and no other,
    keeps the metadata sound and has the changed bitmap block on the disk when
    it returns; it fails with -E_NO_DISK iff no block is free, changing nothing. *)
Theorem alloc_block_spec s m X :
  fs_meta m -> crep s m X ->
  wp alloc_block (fun r s' =>
    kept s s' /\
    (r = - E_NO_DISK /\ crep s' m X /\ (forall b, 1 <= b < nblocks m -> free_bit m b = false) \/
     1 <= r < nblocks m /\ free_bit m r = true /\ (forall b, 1 <= b < r -> free_bit m b = false) /\
     exists m', crep s' m' X /\ fs_meta m' /\
       (forall b, free_bit m' b = if decide (b = r) then false else free_bit m b) /\
       (forall a, blk a <> blk (bit_addr r) -> getb m' a = getb m a) /\
       forall a, blk a = blk (bit_addr r) -> getb (disk s') (a - DISKMAP) = getb m' a)) s.
Proof.
  intros Hm R. eapply wp_mono; [by apply alloc_block_ok|].
  intros r s' [K [H|(Hr & Hf & Hlow & R' & D)]]; (split; [done|]); [by left|right].
  do 3 (split; [done|]). exists (take_block m r). split; [done|].
  split; [apply take_meta; [done|lia|done]|]. split; [intros b; apply free_bit_take|].
  destruct (bit_blk r ltac:(lia)) as [E1 E2]. split.
  - intros a Ha. apply getb_write32_ne. destruct (decide (bit_addr r <= a < bit_addr r + 4)); [|lia].
    destruct Ha. rewrite E1. apply blk_in in E1, E2. apply blk_in. lia.
  - intros a Ha. apply (cr_disk _ _ _ R').
    + apply in_disk_blk. rewrite Ha. apply in_disk_blk.
      by apply (bitmap_block m r); [|lia|].
    + by rewrite PGNUM_blk, Ha, <- PGNUM_blk.
Qed.

(** File_get_block finds the block of a file, allocating it (and the
    indirect block) on demand: it returns the address of the [i]-th block,
    leaves all other blocks of the file and everything that does not belong to
    it alone, and reports -E_NO_DISK exactly when the disk is full. *)
Theorem file_get_block_spec s m X f i :
  fs_meta m -> crep s m X -> file_ok m f -> 0 <= i < NPTR -> indirect_ready m f i ->
  wp (file_get_block f i) (get_post s m X f i) s.
Proof. apply file_get_block_ok. Qed.



(** Cutting a file gives back exactly the blocks beyond the new size (and
    the indirect block when no more than ten blocks are left), clears their
    pointers, keeps every remaining byte and everything outside the file, and
    has the file's own block on the disk at the end. *)
Theorem file_set_size_spec s m X f newsize :
  fs_meta m -> crep s m X -> file_ok m f -> 0 <= newsize < fsize m f -> fsize m f <= MAXFILESIZE ->
  (forall j, (fsize m f + 4095) / 4096 <= j < NPTR -> own m f j = 0) ->
  wp (file_set_size f newsize) (fun r s' => r = 0 /\ kept s s' /\ fpt s' !! PGNUM f <> Some true /\
    exists m', crep s' m' X /\ resized m m' f newsize (keeps ((newsize + 4095) / 4096))) s.
Proof. apply file_set_size_ok. Qed.

(** When the disk is full, a file that needs its indirect block takes the
    server down: file_block_walk stores -E_NO_DISK as a block number, because
    it tests an unsigned variable for being negative, and diskaddr panics. *)
Theorem file_block_walk_disk_full s m X f i :
  fs_meta m -> crep s m X -> file_ok m f -> 10 <= i < NPTR -> own m f (-1) = 0 ->
  (forall b, 1 <= b < nblocks m -> free_bit m b = false) ->
  file_block_walk f i true s = Panic "bad block number in diskaddr".
Proof.
  intros Hm R Hok Hi Hz Hnone. unfold file_block_walk.
  change (NDIRECT + NINDIRECT) with NPTR. destruct (Z.leb_spec NPTR i); [lia|].
  change NDIRECT with 10. destruct (Z.ltb_spec i 10); [lia|].
  eapply bind_wp_eq; [by apply (load_indirect s m X)|]. intros v s1 (-> & R1 & _).
  rewrite Hz. cbn [Z.eqb negb]. cbv zeta.
  eapply bind_wp_eq; [by apply (alloc_block_ok s1 m X)|].
  intros b s2 (_ & [(-> & R2 & _)|(Hb & Hf & _)]); [|rewrite Hnone in Hf by done; done].
  change (u32 (- E_NO_DISK)) with 0xFFFFFFF7. cbn [Z.ltb Z.compare].
  eapply bind_wp_eq; [apply (store_pointer s2 m X f); [done..| |]; unfold f_indirect; lia|].
  intros _ s3 [R3 _]. set (m3 := write32 m (f_indirect f) 0xFFFFFFF7) in *.
  destruct (meta_frame m m3 Hm) as (Hm3 & Hn3 & Hf3).
  { intros a Ha. apply getb_write32_ne.
    destruct (decide (f_indirect f <= a < f_indirect f + 4)) as [Hin|]; [|lia].
    exfalso. eapply (struct_not_meta m f a); [done..|unfold f_indirect in Hin; lia|done]. }
  assert (forall a, f <= a < f + 256 -> acc m3 X a) as Hacc.
  { intros a Ha. destruct (struct_acc m X f a Hm Hok Ha) as [Hx|(H1 & H2 & H3)]; [by left|right].
    rewrite Hn3, Hf3 by (apply in_disk_blk in H1; lia). done. }
  eapply bind_wp_eq; [apply (load32_ok s3 m3 X); [done..| |]; apply Hacc; unfold f_indirect; lia|].
  intros v s4 (-> & R4 & _). unfold m3 at 1. rewrite read32_write32_eq.
  change (u32 0xFFFFFFF7) with 0xFFFFFFF7. unfold diskaddr.
  apply bind_panic. eapply bind_wp_eq with (Q := fun sp s' => sp = super s4 /\ s' = s4); [by apply wpe_gets|].
  intros sp s5 [-> ->].
  eapply bind_wp_eq with (Q := fun b s' => b = true /\ s' = s4); [|by intros b s' [-> ->]].
  cbn [Z.eqb]. destruct (Z.eqb_spec (super s4) 0) as [E|_].
  { rewrite (cr_super _ _ _ R4) in E. by vm_compute in E. }
  apply wpe_bind. eapply wp_wpe; [by apply (load_nb s4 m3 X)|].
  intros nb s5 [-> ->]. wp_steps. pose proof (nblocks_max m3 Hm3).
  destruct (Z.leb_spec (nblocks m3) 0xFFFFFFF7); [done|lia].
Qed.
End claims.

(** ** The theorems at the concrete file system *)

#[local] Existing Instances Ex.hw Ex.ex_good.

Lemma fs_sync_spec_witness :
  wp fs_sync (fun _ s' => crep s' (Ex.m 0xC0) Ex.X /\ kept (Ex.st 0xC0) s' /\
    forall a, 1 <= blk a < nblocks (Ex.m 0xC0) ->
      getb (disk s') (a - DISKMAP) = getb (Ex.m 0xC0) a) (Ex.st 0xC0).
Proof. apply (fs_sync_spec _ _ _ (Ex.ex_meta 0xC0 (or_introl eq_refl)) (Ex.ex_fs_rep 0xC0)). Defined.

Lemma alloc_block_spec_witness :
  wp alloc_block (fun r s' =>
    kept (Ex.st 0xC0) s' /\
    (r = - E_NO_DISK /\ crep s' (Ex.m 0xC0) Ex.X /\
       (forall b, 1 <= b < nblocks (Ex.m 0xC0) -> free_bit (Ex.m 0xC0) b = false) \/
     1 <= r < nblocks (Ex.m 0xC0) /\ free_bit (Ex.m 0xC0) r = true /\
       (forall b, 1 <= b < r -> free_bit (Ex.m 0xC0) b = false) /\
     exists m', crep s' m' Ex.X /\ fs_meta m' /\
       (forall b, free_bit m' b = if decide (b = r) then false else free_bit (Ex.m 0xC0) b) /\
       (forall a, blk a <> blk (bit_addr r) -> getb m' a = getb (Ex.m 0xC0) a) /\
       forall a, blk a = blk (bit_addr r) -> getb (disk s') (a - DISKMAP) = getb m' a)) (Ex.st 0xC0).
Proof. apply (alloc_block_spec _ _ _ (Ex.ex_meta 0xC0 (or_introl eq_refl)) (Ex.ex_fs_rep 0xC0)). Defined.

(** The twelfth block of the file: two blocks are needed, and two are free. *)
Lemma file_get_block_spec_witness :
  wp (file_get_block Ex.f 11) (get_post (Ex.st 0xC0) (Ex.m 0xC0) Ex.X Ex.f 11) (Ex.st 0xC0).
Proof.
  apply (file_get_block_spec _ _ _ _ _ (Ex.ex_meta 0xC0 (or_introl eq_refl)) (Ex.ex_fs_rep 0xC0)
    (Ex.ex_ok 0xC0 (or_introl eq_refl))).
  - unfold NPTR. lia.
  - right. right. exists 6. split; [|reflexivity]. split; [lia|by vm_compute].
Defined.



Lemma file_set_size_spec_witness :
  wp (file_set_size Ex.f 100) (fun r s' => r = 0 /\ kept (Ex.st 0xC0) s' /\
    fpt s' !! PGNUM Ex.f <> Some true /\
    exists m', crep s' m' Ex.X /\ resized (Ex.m 0xC0) m' Ex.f 100 (keeps ((100 + 4095) / 4096)))
    (Ex.st 0xC0).
Proof.
  apply (file_set_size_spec _ _ _ _ _ (Ex.ex_meta 0xC0 (or_introl eq_refl)) (Ex.ex_fs_rep 0xC0)
    (Ex.ex_ok 0xC0 (or_introl eq_refl))).
  - split; [lia|by vm_compute].
  - by vm_compute.
  - change ((fsize (Ex.m 0xC0) Ex.f + 4095) / 4096) with 2. intros j Hj.
    rewrite Ex.ex_own; [|by left|lia]. destruct (Z.eqb_spec j 0); [lia|].
    destruct (Z.eqb_spec j 1); [lia|done].
Defined.

Lemma file_block_walk_disk_full_witness :
  file_block_walk Ex.f 10 true (Ex.st 0) = Panic "bad block number in diskaddr".
Proof.
  apply (file_block_walk_disk_full _ _ _ _ _ (Ex.ex_meta 0 (or_intror eq_refl)) (Ex.ex_fs_rep 0)
    (Ex.ex_ok 0 (or_intror eq_refl))).
  - unfold NPTR. lia.
  - reflexivity.
  - intros b Hb. change (nblocks (Ex.m 0)) with 8 in Hb.
    assert (b = 1 \/ b = 2 \/ b = 3 \/ b = 4 \/ b = 5 \/ b = 6 \/ b = 7) as H by lia.
    repeat (destruct H as [->|H]; [reflexivity|]). subst. reflexivity.
Defined.
