(* ===== verification/Xv6Log.v ===== *)
(** * xv6: buffer cache, disk and log (expansion/bio.c, memide.c, log.c)

    The state has the buffer cache, the in-memory log and the disk, block by
    block.  The doubly linked list of buffers is the list [lru] of their
    indices, most recently used first.  A block's contents are a map from
    offsets to bytes, so the log header is read and written through the same
    words the code uses.

    The disk also keeps the list [trace] of the block writes it was given,
    newest first: a machine that stops at any moment leaves the disk as it was
    after some number of them, which is what the crash theorems quantify over.

    One process runs at a time between calls that sleep; spin locks protect
    nothing further in that setting and are left out.  A call that would sleep
    ends in [Leave]. *)
From S2P Require Import Prelude Mem.

Definition BSIZE : Z := 512.
Definition MAXOPBLOCKS : Z := 10.
Definition LOGSIZE : Z := MAXOPBLOCKS * 3.
Definition NBUF : Z := MAXOPBLOCKS * 3.
Definition ROOTDEV : Z := 1.
Definition NINODE : Z := 50.

(** The 512 bytes of a block. *)
Definition block := gmap Z Z.

(** struct buf: [flags] is its two bits, [b_lock] the pid holding the sleep
    lock. *)
Record buf := mkBuf {
  b_valid : bool; b_dirty : bool; b_dev : Z; b_blockno : Z;
  b_lock : option Z; b_refcnt : Z; b_data : block }.

(** struct log with its logheader. *)
Record log := mkLog {
  l_start : Z; l_size : Z; l_outstanding : Z; l_committing : bool; l_dev : Z;
  lh_n : Z; lh_block : gmap Z Z }.

(** struct superblock. *)
Record superblock := mkSb {
  sb_size : Z; sb_nblocks : Z; sb_ninodes : Z; sb_nlog : Z; sb_logstart : Z;
  sb_inodestart : Z; sb_bmapstart : Z }.

(** struct inode, the copy in memory; [i_lock] is the pid holding its sleep
    lock. *)
Record inode := mkInode {
  i_dev : Z; i_inum : Z; i_ref : Z; i_lock : option Z; i_valid : bool;
  i_type : Z; i_major : Z; i_minor : Z; i_nlink : Z; i_size : Z; i_addrs : gmap Z Z }.

(** [sb] and [inodes] are the globals sb and icache.inode of fs.c, [cwd] the
    index of the current directory of the running process, whose pid is [pid]. *)
Record xst := mkX {
  bufs : gmap Z buf;
  lru : list Z;
  memdisk : gmap Z block;
  disksize : Z;
  trace : list (Z * block);
  xlog : log;
  pid : Z;
  sb : superblock;
  inodes : gmap Z inode;
  cwd : Z }.

Definition set_bufs v s :=
  mkX v (lru s) (memdisk s) (disksize s) (trace s) (xlog s) (pid s) (sb s) (inodes s) (cwd s).
Definition set_lru v s :=
  mkX (bufs s) v (memdisk s) (disksize s) (trace s) (xlog s) (pid s) (sb s) (inodes s) (cwd s).
Definition set_memdisk v s :=
  mkX (bufs s) (lru s) v (disksize s) (trace s) (xlog s) (pid s) (sb s) (inodes s) (cwd s).
Definition set_trace v s :=
  mkX (bufs s) (lru s) (memdisk s) (disksize s) v (xlog s) (pid s) (sb s) (inodes s) (cwd s).
Definition set_xlog v s :=
  mkX (bufs s) (lru s) (memdisk s) (disksize s) (trace s) v (pid s) (sb s) (inodes s) (cwd s).
Definition set_sb v s :=
  mkX (bufs s) (lru s) (memdisk s) (disksize s) (trace s) (xlog s) (pid s) v (inodes s) (cwd s).
Definition set_inodes v s :=
  mkX (bufs s) (lru s) (memdisk s) (disksize s) (trace s) (xlog s) (pid s) (sb s) v (cwd s).

Definition set_flags v d b :=
  mkBuf v d (b_dev b) (b_blockno b) (b_lock b) (b_refcnt b) (b_data b).
Definition set_lock l b :=
  mkBuf (b_valid b) (b_dirty b) (b_dev b) (b_blockno b) l (b_refcnt b) (b_data b).
Definition set_refcnt r b :=
  mkBuf (b_valid b) (b_dirty b) (b_dev b) (b_blockno b) (b_lock b) r (b_data b).
Definition set_data d b :=
  mkBuf (b_valid b) (b_dirty b) (b_dev b) (b_blockno b) (b_lock b) (b_refcnt b) d.

Definition set_lh n bl l :=
  mkLog (l_start l) (l_size l) (l_outstanding l) (l_committing l) (l_dev l) n bl.
Definition set_outstanding o l :=
  mkLog (l_start l) (l_size l) o (l_committing l) (l_dev l) (lh_n l) (lh_block l).
Definition set_committing c l :=
  mkLog (l_start l) (l_size l) (l_outstanding l) c (l_dev l) (lh_n l) (lh_block l).

Definition X := M xst.

Definition get_buf (i : Z) : X buf := let! t := gets bufs in deref (t !! i).
Definition put_buf (i : Z) (b : buf) : X unit :=
  modify (fun s => set_bufs (<[i := b]> (bufs s)) s).

(** ** sleeplock.c *)

Definition acquiresleep (i : Z) : X unit :=
  let! b := get_buf i in
  match b_lock b with
  | Some _ => leave
  | None => let! p := gets pid in put_buf i (set_lock (Some p) b)
  end.

Definition releasesleep (i : Z) : X unit :=
  let! b := get_buf i in put_buf i (set_lock None b).

Definition holdingsleep (i : Z) : X bool :=
  let! b := get_buf i in
  let! p := gets pid in
  ret (bool_decide (b_lock b = Some p)).

(** ** memide.c *)

Definition iderw (i : Z) : X unit :=
  let! h := holdingsleep i in
  if negb h then panic "iderw: buf not locked"
  else
    let! b := get_buf i in
    if b_valid b && negb (b_dirty b) then panic "iderw: nothing to do"
    else if negb (b_dev b =? 1) then panic "iderw: request not for disk 1"
    else
      let! n := gets disksize in
      if n <=? b_blockno b then panic "iderw: block out of range"
      else
        let! d := gets memdisk in
        if b_dirty b then
          modify (set_memdisk (<[b_blockno b := b_data b]> d)) ;;;
          modify (fun s => set_trace ((b_blockno b, b_data b) :: trace s) s) ;;;
          put_buf i (set_flags true false b)
        else put_buf i (set_flags true false (set_data (default ∅ (d !! b_blockno b)) b)).

(** ** bio.c *)

Definition binit : X unit :=
  for_ (seqZ 0 NBUF) (fun i => modify (fun s => set_lru (i :: lru s) s)).

(** The buffer of the list that satisfies the test. *)
Fixpoint find_buf (t : gmap Z buf) (test : buf -> bool) (l : list Z) : option Z :=
  match l with
  | [] => None
  | i :: l' =>
      match t !! i with
      | Some b => if test b then Some i else find_buf t test l'
      | None => find_buf t test l'
      end
  end.

Definition bget (dev blockno : Z) : X Z :=
  let! t := gets bufs in
  let! l := gets lru in
  match find_buf t (fun b => (b_dev b =? dev) && (b_blockno b =? blockno)) l with
  | Some i =>
      let! b := get_buf i in
      put_buf i (set_refcnt (b_refcnt b + 1) b) ;;;
      acquiresleep i ;;;
      ret i
  | None =>
      match find_buf t (fun b => (b_refcnt b =? 0) && negb (b_dirty b)) (reverse l) with
      | Some i =>
          let! b := get_buf i in
          put_buf i (mkBuf false false dev blockno (b_lock b) 1 (b_data b)) ;;;
          acquiresleep i ;;;
          ret i
      | None => panic "bget: no buffers"
      end
  end.

Definition bread (dev blockno : Z) : X Z :=
  let! i := bget dev blockno in
  let! b := get_buf i in
  (if negb (b_valid b) then iderw i else ret tt) ;;;
  ret i.

Definition bwrite (i : Z) : X unit :=
  let! h := holdingsleep i in
  if negb h then panic "bwrite"
  else
    let! b := get_buf i in
    put_buf i (set_flags (b_valid b) true b) ;;;
    iderw i.

Definition brelse (i : Z) : X unit :=
  let! h := holdingsleep i in
  if negb h then panic "brelse"
  else
    releasesleep i ;;;
    let! b := get_buf i in
    put_buf i (set_refcnt (b_refcnt b - 1) b) ;;;
    if b_refcnt b - 1 =? 0 then
      modify (fun s => set_lru (i :: filter (fun j => j <> i) (lru s)) s)
    else ret tt.

(** memmove(to->data, from->data, BSIZE). *)
Definition copy_data (dst src : Z) : X unit :=
  let! b := get_buf src in
  let! d := get_buf dst in
  put_buf dst (set_data (b_data b) d).

(** ** log.c *)

(** Offsets of the fields of struct logheader. *)
Definition hb_n : Z := 0.
Definition hb_block (i : Z) : Z := 4 + 4 * i.

Definition install_trans : X unit :=
  let! n := gets (fun s => lh_n (xlog s)) in
  for_ (seqZ 0 n) (fun tail =>
    let! lg := gets xlog in
    let! lbuf := bread (l_dev lg) (l_start lg + tail + 1) in
    let! b := deref (lh_block lg !! tail) in
    let! dbuf := bread (l_dev lg) b in
    copy_data dbuf lbuf ;;;
    bwrite dbuf ;;;
    brelse lbuf ;;;
    brelse dbuf).

Definition read_head : X unit :=
  let! lg := gets xlog in
  let! i := bread (l_dev lg) (l_start lg) in
  let! b := get_buf i in
  let n := s32 (read32 (b_data b) hb_n) in
  modify (fun s => set_xlog (set_lh n (lh_block (xlog s)) (xlog s)) s) ;;;
  for_ (seqZ 0 n) (fun k =>
    if LOGSIZE <=? k then undef
    else modify (fun s => set_xlog
      (set_lh n (<[k := read32 (b_data b) (hb_block k)]> (lh_block (xlog s))) (xlog s)) s)) ;;;
  brelse i.

Definition write_head : X unit :=
  let! lg := gets xlog in
  let! i := bread (l_dev lg) (l_start lg) in
  let! b := get_buf i in
  put_buf i (set_data (write32 (b_data b) hb_n (lh_n lg)) b) ;;;
  for_ (seqZ 0 (lh_n lg)) (fun k =>
    let! v := deref (lh_block lg !! k) in
    let! b := get_buf i in
    put_buf i (set_data (write32 (b_data b) (hb_block k) v) b)) ;;;
  bwrite i ;;;
  brelse i.

Definition clear_lh : X unit :=
  modify (fun s => set_xlog (set_lh 0 (lh_block (xlog s)) (xlog s)) s).

Definition recover_from_log : X unit :=
  read_head ;;;
  install_trans ;;;
  clear_lh ;;;
  write_head.

(** readsb of fs.c. *)
Definition sb_of (b : block) : superblock :=
  mkSb (read32 b 0) (read32 b 4) (read32 b 8) (read32 b 12) (read32 b 16) (read32 b 20) (read32 b 24).

Definition readsb (dev : Z) : X superblock :=
  let! i := bread dev 1 in
  let! b := get_buf i in
  brelse i ;;;
  ret (sb_of (b_data b)).

(** readsb(dev, &sb) into the global. *)
Definition load_sb (dev : Z) : X unit :=
  let! v := readsb dev in modify (set_sb v).

(** iinit of fs.c: the locks it initialises are not part of the state. *)
Definition iinit (dev : Z) : X unit := load_sb dev.

Definition initlog (dev : Z) : X unit :=
  let! sb := readsb dev in
  modify (fun s => set_xlog (mkLog (s32 (sb_logstart sb)) (s32 (sb_nlog sb))
    (l_outstanding (xlog s)) (l_committing (xlog s)) dev (lh_n (xlog s)) (lh_block (xlog s))) s) ;;;
  recover_from_log.

Definition begin_op : X unit :=
  let! lg := gets xlog in
  if l_committing lg then leave
  else if LOGSIZE <? lh_n lg + (l_outstanding lg + 1) * MAXOPBLOCKS then leave
  else modify (fun s => set_xlog (set_outstanding (l_outstanding lg + 1) (xlog s)) s).

Definition write_log : X unit :=
  let! n := gets (fun s => lh_n (xlog s)) in
  for_ (seqZ 0 n) (fun tail =>
    let! lg := gets xlog in
    let! to := bread (l_dev lg) (l_start lg + tail + 1) in
    let! b := deref (lh_block lg !! tail) in
    let! from := bread (l_dev lg) b in
    copy_data to from ;;;
    bwrite to ;;;
    brelse from ;;;
    brelse to).

Definition commit : X unit :=
  let! n := gets (fun s => lh_n (xlog s)) in
  if 0 <? n then
    write_log ;;;
    write_head ;;;
    install_trans ;;;
    clear_lh ;;;
    write_head
  else ret tt.

Definition end_op : X unit :=
  let! lg := gets xlog in
  let o := l_outstanding lg - 1 in
  modify (fun s => set_xlog (set_outstanding o (xlog s)) s) ;;;
  if l_committing lg then panic "log.committing"
  else if o =? 0 then
    modify (fun s => set_xlog (set_committing true (xlog s)) s) ;;;
    commit ;;;
    modify (fun s => set_xlog (set_committing false (xlog s)) s)
  else ret tt.

(** The index of [blockno] in the header, or its length. *)
Fixpoint log_index (bl : gmap Z Z) (blockno : Z) (l : list Z) (n : Z) : Z :=
  match l with
  | [] => n
  | i :: l' => if bool_decide (bl !! i = Some blockno) then i else log_index bl blockno l' n
  end.

Definition log_write (i : Z) : X unit :=
  let! lg := gets xlog in
  if (LOGSIZE <=? lh_n lg) || (l_size lg - 1 <=? lh_n lg) then panic "too big a transaction"
  else if l_outstanding lg <? 1 then panic "log_write outside of trans"
  else
    let! b := get_buf i in
    let k := log_index (lh_block lg) (b_blockno b) (seqZ 0 (lh_n lg)) (lh_n lg) in
    modify (fun s => set_xlog
      (set_lh (if k =? lh_n lg then lh_n lg + 1 else lh_n lg)
              (<[k := b_blockno b]> (lh_block lg)) (xlog s)) s) ;;;
    put_buf i (set_flags (b_valid b) true b).
