(* ===== verification/Xv6Cache.v ===== *)
(** * Correctness of xv6's buffer cache (expansion/bio.c)

    [brep s d D H]: the disk is [d]; [D] has the contents of the modified
    blocks that are pinned in the cache by the log; [H] are the buffers the
    running process holds.  A reader of block [b] sees [D] where it is defined
    and the disk elsewhere. *)
From S2P Require Import Prelude Mem Xv6Log.

Definition dget (d : gmap Z block) (b : Z) : block := default ∅ (d !! b).
Definition vget (d D : gmap Z block) (b : Z) : block := default (dget d b) (D !! b).

Record brep (s : xst) (d D : gmap Z block) (H : gmap Z buf) : Prop := mk_brep {
  br_disk : memdisk s = d;
  br_dom i : is_Some (bufs s !! i) <-> 0 <= i < NBUF;
  br_lru : lru s ≡ₚ seqZ 0 NBUF;
  br_held i b : H !! i = Some b ->
    bufs s !! i = Some b /\ b_lock b = Some (pid s) /\ b_refcnt b = 1 /\
    b_dev b = 1 /\ b_valid b = true;
  br_free i b : bufs s !! i = Some b -> H !! i = None ->
    b_lock b = None /\ b_refcnt b = 0 /\
    (b_dirty b = true -> b_valid b = true /\ b_dev b = 1 /\ D !! b_blockno b = Some (b_data b)) /\
    (b_valid b = true -> b_dev b = 1 -> b_dirty b = false -> b_data b = dget d (b_blockno b));
  br_dirty n x : D !! n = Some x ->
    exists i b, bufs s !! i = Some b /\ H !! i = None /\ b_dirty b = true /\ b_blockno b = n;
  br_uniq i j bi bj : bufs s !! i = Some bi -> bufs s !! j = Some bj ->
    b_dev bi = 1 -> b_dev bj = 1 -> b_blockno bi = b_blockno bj -> i = j }.

(** The part of the state that the cache and the log do not touch. *)
Definition ident (s : xst) : Z * superblock * gmap Z inode * Z := (pid s, sb s, inodes s, cwd s).

(** Nothing but the cache and the disk changes. *)
Definition same_env (s s' : xst) : Prop :=
  xlog s' = xlog s /\ ident s' = ident s /\ disksize s' = disksize s.

Lemma ident_pid s s' : ident s' = ident s -> pid s' = pid s.
Proof. unfold ident. congruence. Qed.

#[export] Instance same_env_preorder : PreOrder same_env.
Proof.
  split; [done|]. intros s1 s2 s3 (?&?&?) (?&?&?). repeat split; congruence.
Qed.

Lemma brep_ext s s' d D H :
  brep s d D H -> bufs s' = bufs s -> lru s' = lru s -> memdisk s' = memdisk s -> pid s' = pid s ->
  brep s' d D H.
Proof. intros [] E1 E2 E3 E4. constructor; rewrite ?E1, ?E2, ?E3, ?E4; done. Qed.

(** The buffer for block [n] after bread. *)
Definition loaded (s : xst) (d D : gmap Z block) (n : Z) : buf :=
  mkBuf true (bool_decide (is_Some (D !! n))) 1 n (Some (pid s)) 1 (vget d D n).

Lemma loaded_clean s d D n :
  D !! n = None -> loaded s d D n = mkBuf true false 1 n (Some (pid s)) 1 (dget d n).
Proof. intros E. unfold loaded, vget. by rewrite E. Qed.

Lemma find_buf_some t test l i :
  find_buf t test l = Some i -> i ∈ l /\ exists b, t !! i = Some b /\ test b = true.
Proof.
  induction l as [|j l IH]; simpl; [done|]. destruct (t !! j) as [b|] eqn:E.
  - destruct (test b) eqn:Et.
    + intros [= <-]. split; [by left|]. eauto.
    + intros [? ?]%IH. split; [by right|done].
  - intros [? ?]%IH. split; [by right|done].
Qed.

Lemma find_buf_none t test l i b :
  find_buf t test l = None -> i ∈ l -> t !! i = Some b -> test b = false.
Proof.
  induction l as [|j l IH]; simpl; [intros _ []%not_elem_of_nil|].
  destruct (t !! j) as [b'|] eqn:E.
  - destruct (test b') eqn:Et; [done|]. intros Hn [->|Hi]%elem_of_cons Hb; [congruence|auto].
  - intros Hn [->|Hi]%elem_of_cons Hb; [congruence|auto].
Qed.

Lemma wpe_get_buf i b (Q : buf -> xst -> Prop) E s :
  bufs s !! i = Some b -> Q b s -> wpe (get_buf i) Q E s.
Proof. intros Hb HQ. unfold get_buf. wp_steps. rewrite Hb. by wp_steps. Qed.

Lemma wpe_put_buf i b (Q : unit -> xst -> Prop) E s :
  Q tt (set_bufs (<[i := b]> (bufs s)) s) -> wpe (put_buf i b) Q E s.
Proof. intros HQ. unfold put_buf. by wp_steps. Qed.

Lemma wpe_acquiresleep i b (Q : unit -> xst -> Prop) E s :
  bufs s !! i = Some b -> b_lock b = None ->
  Q tt (set_bufs (<[i := set_lock (Some (pid s)) b]> (bufs s)) s) -> wpe (acquiresleep i) Q E s.
Proof.
  intros Hb Hl HQ. unfold acquiresleep. apply wpe_bind, (wpe_get_buf _ b); [done|]. rewrite Hl.
  wp_steps. by apply wpe_put_buf.
Qed.

Lemma wpe_holdingsleep i b (Q : bool -> xst -> Prop) E s :
  bufs s !! i = Some b -> b_lock b = Some (pid s) -> Q true s -> wpe (holdingsleep i) Q E s.
Proof.
  intros Hb Hl HQ. unfold holdingsleep. apply wpe_bind, (wpe_get_buf _ b); [done|]. wp_steps.
  by rewrite bool_decide_eq_true_2.
Qed.

(** Reading a block that is not valid. *)
Lemma wpe_iderw_read i b (Q : unit -> xst -> Prop) E s :
  bufs s !! i = Some b -> b_lock b = Some (pid s) -> b_valid b = false -> b_dirty b = false ->
  b_dev b = 1 -> b_blockno b < disksize s ->
  Q tt (set_bufs (<[i := set_flags true false (set_data (dget (memdisk s) (b_blockno b)) b)]> (bufs s)) s) ->
  wpe (iderw i) Q E s.
Proof.
  intros Hb Hl Hv Hd Hdev Hn HQ. unfold iderw. apply wpe_bind, (wpe_holdingsleep _ b); [done|done|].
  cbn [negb]. apply wpe_bind, (wpe_get_buf _ b); [done|]. rewrite Hv, Hdev, Hd. cbn [andb negb Z.eqb Pos.eqb].
  wp_steps. destruct (Z.leb_spec (disksize s) (b_blockno b)); [lia|]. wp_steps. by apply wpe_put_buf.
Qed.

(** Writing a dirty block. *)
Lemma wpe_iderw_write i b (Q : unit -> xst -> Prop) E s :
  bufs s !! i = Some b -> b_lock b = Some (pid s) -> b_dirty b = true ->
  b_dev b = 1 -> b_blockno b < disksize s ->
  Q tt (set_bufs (<[i := set_flags true false b]> (bufs s))
         (set_trace ((b_blockno b, b_data b) :: trace s)
           (set_memdisk (<[b_blockno b := b_data b]> (memdisk s)) s))) ->
  wpe (iderw i) Q E s.
Proof.
  intros Hb Hl Hd Hdev Hn HQ. unfold iderw. apply wpe_bind, (wpe_holdingsleep _ b); [done|done|].
  cbn [negb]. apply wpe_bind, (wpe_get_buf _ b); [done|]. rewrite Hdev, Hd.
  rewrite andb_false_r. cbn [negb Z.eqb Pos.eqb].
  wp_steps. destruct (Z.leb_spec (disksize s) (b_blockno b)); [lia|]. wp_steps. by apply wpe_put_buf.
Qed.

Section cache.
Implicit Types (s : xst) (d D : gmap Z block) (H : gmap Z buf).

Lemma brep_in_lru s d D H i b : brep s d D H -> bufs s !! i = Some b -> i ∈ lru s.
Proof.
  intros R Hb. rewrite (br_lru _ _ _ _ R). apply elem_of_seqZ.
  pose proof (proj1 (br_dom _ _ _ _ R i) ltac:(eauto)). lia.
Qed.

(** With fewer than NBUF buffers dirty or held, one can be recycled. *)
Lemma brep_recycle s d D H :
  brep s d D H -> (size D + size H < Z.to_nat NBUF)%nat ->
  is_Some (find_buf (bufs s) (fun b => (b_refcnt b =? 0) && negb (b_dirty b)) (reverse (lru s))).
Proof.
  intros R Hsz. destruct (find_buf _ _ _) eqn:E; [eauto|]. exfalso.
  pose (l := filter (fun i => H !! i = None) (seqZ 0 NBUF)).
  assert (forall i, i ∈ l -> exists b, bufs s !! i = Some b /\ b_dirty b = true /\
    b_dev b = 1 /\ D !! b_blockno b = Some (b_data b)) as Hl.
  { intros i Hi. unfold l in Hi. apply list_elem_of_filter in Hi as [Hn Hi%elem_of_seqZ].
    destruct (proj2 (br_dom _ _ _ _ R i) ltac:(lia)) as [b Hb]. exists b. split; [done|].
    destruct (br_free _ _ _ _ R i b Hb Hn) as (_ & Hr & Hd & _).
    assert (b_dirty b = true) as Ht.
    { pose proof (find_buf_none _ _ _ i b E) as Hf. cbv beta in Hf. rewrite Hr in Hf.
      destruct (b_dirty b); [done|]. discriminate Hf; [|done].
      rewrite elem_of_reverse. by eapply brep_in_lru. }
    destruct (Hd Ht) as (_ & ? & ?). done. }
  pose (g := fun i => match bufs s !! i with Some b => b_blockno b | None => 0 end).
  assert (NoDup (g <$> l)) as Hnd.
  { apply NoDup_fmap_2_strong; [|apply NoDup_filter, NoDup_seqZ].
    intros i j Hi Hj Hg. destruct (Hl i Hi) as (bi & Hbi & _ & Hdi & _).
    destruct (Hl j Hj) as (bj & Hbj & _ & Hdj & _). unfold g in Hg. rewrite Hbi, Hbj in Hg.
    by eapply br_uniq. }
  assert (length (g <$> l) <= length (elements (dom D : gset Z)))%nat as Hle.
  { apply submseteq_length, NoDup_submseteq; [done|]. intros x (i & -> & Hi)%list_elem_of_fmap.
    destruct (Hl i Hi) as (b & Hb & _ & _ & Hd). apply elem_of_elements, elem_of_dom.
    unfold g. rewrite Hb. eauto. }
  assert (length (seqZ 0 NBUF) <= length (l ++ elements (dom H : gset Z)))%nat as Hle2.
  { apply submseteq_length, NoDup_submseteq; [apply NoDup_seqZ|]. intros i Hi. apply elem_of_app.
    destruct (H !! i) as [b|] eqn:Ei.
    - right. apply elem_of_elements, elem_of_dom. eauto.
    - left. by apply list_elem_of_filter. }
  rewrite length_app, length_seqZ in Hle2. rewrite length_fmap in Hle.
  change (length (elements (dom D : gset Z))) with (size (dom D : gset Z)) in Hle.
  change (length (elements (dom H : gset Z))) with (size (dom H : gset Z)) in Hle2.
  rewrite size_dom in Hle. rewrite size_dom in Hle2. lia.
Qed.

(** Taking buffer [i] for block [n]. *)
Lemma brep_take s d D H i b n :
  brep s d D H -> bufs s !! i = Some b -> H !! i = None ->
  (forall j bj, bufs s !! j = Some bj -> b_dev bj = 1 -> b_blockno bj = n -> j = i) ->
  (b_dirty b = true -> b_blockno b = n) ->
  brep (set_bufs (<[i := loaded s d D n]> (bufs s)) s) d (delete n D) (<[i := loaded s d D n]> H).
Proof.
  intros [Rd Rdom Rl Rh Rf Rdi Ru] Hb Hi Hone Hdn. constructor; simpl.
  - done.
  - intros j. rewrite lookup_insert_is_Some, Rdom. split; [|intros Hj; destruct (decide (i = j)); auto].
    intros [<-|[_ Hj]]; [|done]. apply Rdom. eauto.
  - done.
  - intros j bj. rewrite !lookup_insert. case_decide; [intros [= <-]; done|]. intros Hj.
    by apply Rh.
  - intros j bj. rewrite !lookup_insert. case_decide; [done|]. intros Hj Hn.
    destruct (Rf j bj Hj Hn) as (H1 & H2 & H3 & H4). do 2 (split; [done|]). split; [|done].
    intros Hd. destruct (H3 Hd) as (? & ? & ?). do 2 (split; [done|]).
    rewrite lookup_delete_ne; [done|]. intros E. assert (j = i) by (by apply (Hone j bj)). congruence.
  - intros k x. rewrite lookup_delete_Some. intros [Hkn Hk].
    destruct (Rdi k x Hk) as (j & bj & Hj & Hn & Hd & Hbj). exists j, bj.
    assert (i <> j) by (intros <-; simplify_eq; by destruct Hkn; rewrite Hdn).
    by rewrite !lookup_insert_ne.
  - intros j k bj bk. rewrite !lookup_insert. repeat case_decide; subst; try done.
    + intros [= <-] Hk _ Hdk Hbn. symmetry. by eapply Hone.
    + intros Hj [= <-] Hdj _ Hbn. by eapply Hone.
    + by apply Ru.
Qed.

Lemma not_cached_clean s d D H n :
  brep s d D H -> find_buf (bufs s) (fun b => (b_dev b =? 1) && (b_blockno b =? n)) (lru s) = None ->
  D !! n = None /\ forall j b, bufs s !! j = Some b -> b_dev b = 1 -> b_blockno b = n -> False.
Proof.
  intros R E.
  assert (forall j b, bufs s !! j = Some b -> b_dev b = 1 -> b_blockno b = n -> False) as Hno.
  { intros j b Hj H1 H2. pose proof (find_buf_none _ _ _ j b E (brep_in_lru _ _ _ _ _ _ R Hj) Hj) as Hf.
    cbv beta in Hf. by rewrite H1, H2, !Z.eqb_refl in Hf. }
  split; [|done]. destruct (D !! n) as [x|] eqn:Ed; [|done]. exfalso.
  destruct (br_dirty _ _ _ _ R n x Ed) as (i & b & Hb & Hi & Hd & Hbn).
  destruct (br_free _ _ _ _ R i b Hb Hi) as (_ & _ & H3 & _). destruct (H3 Hd) as (_ & ? & _).
  by eapply Hno.
Qed.

(** [H] has no buffer for block [n]. *)
Definition unheld H (n : Z) : Prop := forall i b, H !! i = Some b -> b_blockno b <> n.

Lemma cached_dirty s d D H i b :
  brep s d D H -> bufs s !! i = Some b -> H !! i = None -> b_dev b = 1 ->
  b_dirty b = bool_decide (is_Some (D !! b_blockno b)) /\
  (b_valid b = true -> b_data b = vget d D (b_blockno b)).
Proof.
  intros R Hb Hi H1. destruct (br_free _ _ _ _ R i b Hb Hi) as (_ & _ & Hd & Hc).
  destruct (b_dirty b) eqn:E.
  - destruct (Hd eq_refl) as (Hv & _ & HD). rewrite HD. split; [done|]. unfold vget. by rewrite HD.
  - destruct (D !! b_blockno b) as [x|] eqn:HD.
    + exfalso. destruct (br_dirty _ _ _ _ R _ x HD) as (j & bj & Hj & Hjn & Hdj & Hnj).
      destruct (br_free _ _ _ _ R j bj Hj Hjn) as (_ & _ & H3 & _). destruct (H3 Hdj) as (_ & ? & _).
      assert (j = i) as -> by (by eapply (br_uniq _ _ _ _ R)). congruence.
    + split; [done|]. intros Hv. unfold vget. rewrite HD. by apply Hc.
Qed.

(** What bget leaves in the buffer it returns. *)
Definition got s d D H (n i : Z) (s' : xst) : Prop :=
  exists b v data, bufs s !! i = Some b /\ H !! i = None /\
    (forall j bj, bufs s !! j = Some bj -> b_dev bj = 1 -> b_blockno bj = n -> j = i) /\
    (b_dirty b = true -> b_blockno b = n) /\
    s' = set_bufs (<[i := mkBuf v (bool_decide (is_Some (D !! n))) 1 n (Some (pid s)) 1 data]> (bufs s)) s /\
    (if v : bool then data = vget d D n else D !! n = None).

Lemma bget_ok s d D H n :
  brep s d D H -> unheld H n ->
  (is_Some (D !! n) \/ size D + size H < Z.to_nat NBUF)%nat ->
  wp (bget 1 n) (got s d D H n) s.
Proof.
  intros R Hun Hroom. unfold wp, bget. wp_steps.
  destruct (find_buf (bufs s) (fun b => (b_dev b =? 1) && (b_blockno b =? n)) (lru s)) as [i|] eqn:E.
  - destruct (find_buf_some _ _ _ _ E) as (_ & b & Hb & [H1%Z.eqb_eq H2%Z.eqb_eq]%andb_true_iff).
    assert (H !! i = None) as Hi.
    { destruct (H !! i) as [b'|] eqn:Hi; [|done]. destruct (br_held _ _ _ _ R i b' Hi) as (Hb' & _).
      assert (b' = b) as -> by congruence. by destruct (Hun i b Hi). }
    destruct (br_free _ _ _ _ R i b Hb Hi) as (Hl & Hr & Hd & _).
    destruct (cached_dirty _ _ _ _ _ _ R Hb Hi H1) as [Hdi Hva].
    apply wpe_bind, (wpe_get_buf _ b); [done|]. apply wpe_bind, wpe_put_buf, wpe_bind.
    eapply wpe_acquiresleep; [apply lookup_insert_eq|done|]. wp_steps.
    exists b, (b_valid b), (b_data b). split; [done|]. split; [done|].
    split; [intros j bj Hj ? ?; eapply (br_uniq _ _ _ _ R); [done..|congruence]|]. split; [done|].
    split.
    + unfold set_bufs. simpl. rewrite insert_insert_eq. unfold set_lock, set_refcnt. simpl.
      by rewrite Hdi, H1, H2, Hr.
    + destruct (b_valid b) eqn:Hv; [by rewrite <- H2; apply Hva|]. rewrite <- H2.
      destruct (D !! b_blockno b); [|done]. rewrite bool_decide_eq_true_2 in Hdi by eauto.
      destruct (Hd Hdi) as [? _]. congruence.
  - destruct (not_cached_clean _ _ _ _ _ R E) as [HD Hno].
    destruct Hroom as [[x Hx]|Hroom]; [congruence|].
    destruct (brep_recycle _ _ _ _ R Hroom) as [i E']. rewrite E'.
    destruct (find_buf_some _ _ _ _ E') as (_ & b & Hb & [Hr%Z.eqb_eq Hnd]%andb_true_iff).
    apply negb_true_iff in Hnd.
    assert (H !! i = None) as Hi.
    { destruct (H !! i) as [b'|] eqn:Hi; [|done]. destruct (br_held _ _ _ _ R i b' Hi) as (Hb' & _ & ? & _).
      simplify_eq. congruence. }
    destruct (br_free _ _ _ _ R i b Hb Hi) as (Hl & _).
    apply wpe_bind, (wpe_get_buf _ b); [done|]. apply wpe_bind, wpe_put_buf, wpe_bind.
    eapply wpe_acquiresleep; [apply lookup_insert_eq|done|]. wp_steps.
    exists b, false, (b_data b). split; [done|]. split; [done|].
    split; [intros j bj Hj ? ?; by destruct (Hno j bj)|]. split; [congruence|]. split; [|done].
    unfold set_bufs. simpl. rewrite insert_insert_eq. unfold set_lock. simpl.
    rewrite HD. done.
Qed.

Lemma bread_ok s d D H n :
  brep s d D H -> unheld H n -> n < disksize s ->
  (is_Some (D !! n) \/ size D + size H < Z.to_nat NBUF)%nat ->
  wp (bread 1 n) (fun i s' => H !! i = None /\ same_env s s' /\ trace s' = trace s /\
    brep s' d (delete n D) (<[i := loaded s d D n]> H)) s.
Proof.
  intros R Hun Hn Hroom. unfold wp, bread. apply wpe_bind.
  eapply wp_wpe; [by apply (bget_ok s d D H)|].
  intros i s1 (b & v & data & Hb & Hi & Hone & Hdn & -> & Hv). cbn beta.
  pose proof (brep_take s d D H i b n R Hb Hi Hone Hdn) as R'.
  apply wpe_bind. eapply wpe_get_buf; [apply lookup_insert_eq|]. cbn [b_valid]. apply wpe_bind.
  destruct v; cbn [negb].
  - wp_steps. do 3 (split; [done|]). subst data. exact R'.
  - rewrite Hv. eapply wpe_iderw_read; [apply lookup_insert_eq|done|done|done|done|done|]. wp_steps.
    do 3 (split; [done|]). unfold set_bufs in *. simpl in *. rewrite insert_insert_eq.
    rewrite (loaded_clean s d D n Hv) in *. unfold set_flags, set_data. simpl.
    assert (dget (memdisk s) n = dget d n) as -> by (by rewrite (br_disk _ _ _ _ R)). exact R'.
Qed.

(** Changing a held buffer. *)
Lemma brep_held_put s d D H i b b' :
  brep s d D H -> H !! i = Some b ->
  b_lock b' = b_lock b -> b_refcnt b' = b_refcnt b -> b_dev b' = b_dev b ->
  b_valid b' = b_valid b -> b_blockno b' = b_blockno b ->
  brep (set_bufs (<[i := b']> (bufs s)) s) d D (<[i := b']> H).
Proof.
  intros [Rd Rdom Rl Rh Rf Rdi Ru] Hi El Er Ed Ev Eb. destruct (Rh i b Hi) as (Hb & Hl & Hr & Hd & Hv).
  constructor; simpl.
  - done.
  - intros j. rewrite lookup_insert_is_Some, Rdom. split; [|intros Hj; destruct (decide (i = j)); auto].
    intros [<-|[_ Hj]]; [|done]. apply Rdom. eauto.
  - done.
  - intros j bj. rewrite !lookup_insert. case_decide; [intros [= <-]; repeat split; congruence|].
    intros Hj. by apply Rh.
  - intros j bj. rewrite !lookup_insert. case_decide; [done|]. by apply Rf.
  - intros k x Hk. destruct (Rdi k x Hk) as (j & bj & Hj & Hn & Hdj & Hbj). exists j, bj.
    assert (i <> j) by congruence. by rewrite !lookup_insert_ne.
  - intros j k bj bk. rewrite !lookup_insert. repeat case_decide; subst; try done.
    + intros [= <-] Hk ? ? ?. by eapply Ru; [exact Hb|exact Hk|..]; congruence.
    + intros Hj [= <-] ? ? ?. by eapply Ru; [exact Hj|exact Hb|..]; congruence.
    + by apply Ru.
Qed.

Lemma bwrite_ok s d D H i b :
  brep s d D H -> H !! i = Some b -> b_blockno b < disksize s ->
  wp (bwrite i) (fun _ s' => same_env s s' /\ trace s' = (b_blockno b, b_data b) :: trace s /\
    brep s' (<[b_blockno b := b_data b]> d) D (<[i := set_flags true false b]> H)) s.
Proof.
  intros R Hi Hn. destruct (br_held _ _ _ _ R i b Hi) as (Hb & Hl & Hr & Hdev & Hv).
  unfold wp, bwrite. apply wpe_bind, (wpe_holdingsleep _ b); [done|done|]. cbn [negb].
  apply wpe_bind, (wpe_get_buf _ b); [done|]. apply wpe_bind, wpe_put_buf.
  eapply wpe_iderw_write; [apply lookup_insert_eq|done|done|done|done|]. simpl.
  split; [done|]. split; [done|]. unfold set_bufs, set_trace, set_memdisk. simpl.
  rewrite insert_insert_eq. unfold set_flags at 1. simpl.
  pose proof (brep_held_put s d D H i b (set_flags true false b) R Hi eq_refl eq_refl eq_refl
    (eq_sym Hv) eq_refl) as [Rd Rdom Rl Rh Rf Rdi Ru]. simpl in *.
  constructor; simpl; try done.
  - by rewrite <- Rd.
  - intros j bj Hj Hjn. destruct (Rf j bj Hj Hjn) as (H1 & H2 & H3 & H4). do 3 (split; [done|]).
    intros Hvj Hdj Hcl. unfold dget. rewrite lookup_insert_ne; [by apply H4|]. intros E.
    assert (i = j).
    { eapply (Ru i j (set_flags true false b) bj); [apply lookup_insert_eq|done..]. }
    subst j. by rewrite lookup_insert_eq in Hjn.
Qed.

Lemma lru_move (l : list Z) i : NoDup l -> i ∈ l -> i :: filter (fun j => j <> i) l ≡ₚ l.
Proof.
  intros Hnd Hi. apply NoDup_Permutation; [|done|].
  - constructor; [|by apply NoDup_filter]. rewrite list_elem_of_filter. naive_solver.
  - intros x. rewrite elem_of_cons, list_elem_of_filter. destruct (decide (x = i)); naive_solver.
Qed.

(** Giving a buffer back: a modified one stays pinned, one that agrees with the
    disk can be recycled. *)
Lemma brelse_ok s d D H i b :
  brep s d D H -> H !! i = Some b ->
  (b_dirty b = false -> b_data b = dget d (b_blockno b)) -> D !! b_blockno b = None ->
  wp (brelse i) (fun _ s' => same_env s s' /\ trace s' = trace s /\
    brep s' d (if b_dirty b then <[b_blockno b := b_data b]> D else D) (delete i H)) s.
Proof.
  intros R Hi Hcl HDn. destruct (br_held _ _ _ _ R i b Hi) as (Hb & Hl & Hr & Hdev & Hv).
  unfold wp, brelse. apply wpe_bind, (wpe_holdingsleep _ b); [done|done|]. cbn [negb].
  apply wpe_bind. unfold releasesleep. apply wpe_bind, (wpe_get_buf _ b); [done|].
  apply wpe_put_buf. cbn beta. apply wpe_bind. eapply wpe_get_buf; [apply lookup_insert_eq|].
  apply wpe_bind, wpe_put_buf. cbn [b_refcnt set_lock]. rewrite Hr. cbn [Z.sub Z.add Z.opp Z.pos_sub Z.eqb].
  wp_steps. split; [done|]. split; [done|]. unfold set_bufs, set_lru. simpl. rewrite insert_insert_eq.
  set (b' := set_refcnt 0 (set_lock None b)).
  pose proof R as [Rd Rdom Rl Rh Rf Rdi Ru]. constructor; simpl.
  - done.
  - intros j. rewrite lookup_insert_is_Some, Rdom. split; [|intros Hj; destruct (decide (i = j)); auto].
    intros [<-|[_ Hj]]; [|done]. apply Rdom. eauto.
  - rewrite lru_move; [done| |].
    + rewrite Rl. apply NoDup_seqZ.
    + by eapply brep_in_lru.
  - intros j bj. rewrite lookup_delete_Some. intros [Hne Hj]. rewrite lookup_insert_ne by done. by apply Rh.
  - intros j bj. rewrite lookup_insert. case_decide as E.
    + intros [= <-] _. unfold b'. simpl. do 2 (split; [done|]). split; [|by intros _ _].
      intros Hd. rewrite Hd. do 2 (split; [done|]). apply lookup_insert_eq.
    + intros Hj. rewrite lookup_delete_ne by done. intros Hjn.
      destruct (Rf j bj Hj Hjn) as (H1 & H2 & H3 & H4). do 2 (split; [done|]). split; [|done].
      intros Hd. destruct (H3 Hd) as (? & ? & HD). do 2 (split; [done|]). destruct (b_dirty b); [|done].
      rewrite lookup_insert_ne; [done|congruence].
  - intros k x Hk. destruct (decide (b_dirty b = true /\ k = b_blockno b)) as [[Hd ->]|Hno].
    + exists i, b'. rewrite lookup_insert_eq, lookup_delete_eq. done.
    + destruct (Rdi k x) as (j & bj & Hj & Hn & Hdj & Hbj).
      { destruct (b_dirty b); [|done]. rewrite lookup_insert_ne in Hk by naive_solver. done. }
      exists j, bj. assert (i <> j) by congruence. rewrite lookup_insert_ne, lookup_delete_ne by done. done.
  - intros j k bj bk. rewrite !lookup_insert. repeat case_decide; subst; try done.
    + intros [= <-] Hk ? ? ?. by eapply Ru; [exact Hb|exact Hk|..].
    + intros Hj [= <-] ? ? ?. by eapply Ru; [exact Hj|exact Hb|..].
    + by apply Ru.
Qed.
End cache.
