(* ===== verification/Xv6Crash.v ===== *)
(** * The log: commit and recovery (expansion/log.c)

    The operations of the log are described by the exact sequence of block
    writes they give to the disk; [writes d l] is the disk after the writes [l],
    oldest first. *)
From S2P Require Import Prelude Mem Xv6Log Xv6Cache.

Definition writes (d : gmap Z block) (l : list (Z * block)) : gmap Z block :=
  foldl (fun d e => <[e.1 := e.2]> d) d l.

Lemma writes_nil d : writes d [] = d.
Proof. done. Qed.

Lemma writes_app d l1 l2 : writes d (l1 ++ l2) = writes (writes d l1) l2.
Proof. apply foldl_app. Qed.

Lemma writes_ne d l b : b ∉ l.*1 -> dget (writes d l) b = dget d b.
Proof.
  revert d. induction l as [|e l IH]; intros d Hb; [done|]. simpl in *.
  apply not_elem_of_cons in Hb as [Hne Hb]. rewrite IH by done. unfold dget.
  by rewrite lookup_insert_ne.
Qed.

(** The last write to a block counts. *)
Lemma writes_in d d' l b : b ∈ l.*1 -> dget (writes d l) b = dget (writes d' l) b.
Proof.
  revert d d'. induction l as [|e l IH]; intros d d' Hb; [by apply elem_of_nil in Hb|]. simpl in *.
  destruct (decide (b ∈ l.*1)) as [Hin|Hout]; [by apply IH|].
  apply elem_of_cons in Hb as [->|]; [|done]. rewrite !writes_ne by done.
  unfold dget. by rewrite !lookup_insert_eq.
Qed.

Lemma writes_nodup d l e : NoDup l.*1 -> e ∈ l -> dget (writes d l) e.1 = e.2.
Proof.
  revert d. induction l as [|e' l IH]; intros d Hnd He; [by apply elem_of_nil in He|]. simpl in *.
  apply NoDup_cons in Hnd as [Hn Hnd]. apply elem_of_cons in He as [->|He]; [|by apply IH].
  rewrite writes_ne by done. unfold dget. by rewrite lookup_insert_eq.
Qed.

(** Running from [s] to [s'] gave the disk the writes [l] and left the cache
    with the modified blocks [D'] and no buffer held. *)
Record ran (s s' : xst) (d : gmap Z block) (l : list (Z * block)) (D' : gmap Z block) : Prop :=
  mk_ran {
    rn_rep : brep s' (writes d l) D' ∅;
    rn_trace : trace s' = reverse l ++ trace s;
    rn_ident : ident s' = ident s;
    rn_size : disksize s' = disksize s }.

Lemma ran_trans s1 s2 s3 d l1 l2 D1 D2 :
  ran s1 s2 d l1 D1 -> ran s2 s3 (writes d l1) l2 D2 -> ran s1 s3 d (l1 ++ l2) D2.
Proof.
  intros [R1 T1 P1 S1] [R2 T2 P2 S2]. constructor; [by rewrite writes_app| |congruence..].
  by rewrite T2, T1, reverse_app, app_assoc.
Qed.

Section log.
Implicit Types (s : xst) (d D : gmap Z block).

(** Both copy loops end with: copy, write the destination, release both. *)
Lemma copy_tail_ok s d D i j bi bj :
  brep s d D (<[i := bi]> {[j := bj]}) -> i <> j ->
  D !! b_blockno bi = None -> D !! b_blockno bj = None -> b_blockno bi < disksize s ->
  b_blockno bi <> b_blockno bj -> (b_dirty bj = false -> b_data bj = dget d (b_blockno bj)) ->
  wp (copy_data i j ;;; bwrite i ;;; brelse j ;;; brelse i) (fun _ s' => xlog s' = xlog s /\
    ran s s' d [(b_blockno bi, b_data bj)] (if b_dirty bj then <[b_blockno bj := b_data bj]> D else D)) s.
Proof.
  intros R Hij Hi Hj Hn Hne Hcl. unfold wp, copy_data.
  assert ((<[i := bi]> {[j := bj]} : gmap Z buf) !! j = Some bj) as Lj
    by (rewrite lookup_insert_ne, lookup_singleton_eq by done; done).
  assert ((<[i := bi]> {[j := bj]} : gmap Z buf) !! i = Some bi) as Li by apply lookup_insert_eq.
  destruct (br_held _ _ _ _ R j bj Lj) as (Bj & _). destruct (br_held _ _ _ _ R i bi Li) as (Bi & _).
  apply wpe_bind, wpe_bind, (wpe_get_buf _ bj); [done|]. apply wpe_bind, (wpe_get_buf _ bi); [done|].
  apply wpe_put_buf. cbn beta.
  pose proof (brep_held_put _ _ _ _ _ _ (set_data (b_data bj) bi) R Li eq_refl eq_refl eq_refl eq_refl eq_refl) as R1.
  rewrite insert_insert_eq in R1.
  set (s1 := set_bufs (<[i:=set_data (b_data bj) bi]> (bufs s)) s) in *.
  apply wpe_bind. eapply wp_wpe; [eapply (bwrite_ok s1); [exact R1|apply lookup_insert_eq|done]|].
  intros _ s2 (E2 & T2 & R2). cbn beta. rewrite insert_insert_eq in R2. simpl in T2, R2.
  apply wpe_bind. eapply wp_wpe; [eapply (brelse_ok s2 _ _ _ j bj); [exact R2| | |done]|].
  { by rewrite lookup_insert_ne, lookup_singleton_eq. }
  { intros Hd. rewrite Hcl by done. unfold dget. by rewrite lookup_insert_ne. }
  intros _ s3 (E3 & T3 & R3). cbn beta. rewrite delete_insert_ne in R3 by done.
  rewrite delete_singleton_eq in R3.
  eapply wp_wpe; [eapply (brelse_ok s3); [exact R3|apply lookup_insert_eq|..]|].
  { intros _. simpl. unfold dget. by rewrite lookup_insert_eq. }
  { simpl. destruct (b_dirty bj); [by rewrite lookup_insert_ne|done]. }
  intros _ s4 (E4 & T4 & R4). simpl in R4. rewrite delete_insert_id in R4 by done.
  destruct E2 as (? & ? & ?), E3 as (? & ? & ?), E4 as (? & ? & ?). unfold ident in *. simpl in *.
  split; [congruence|]. constructor; [done|simpl; congruence|unfold ident; congruence|congruence].
Qed.

Definition home (lg : log) (b : Z) : Prop := b < l_start lg \/ l_start lg + l_size lg <= b.

(** The entries of a header: block numbers outside the log, and room for them
    in the log area of a disk of [nd] blocks. *)
Record layout (lg : log) (nd : Z) (E : list (Z * block)) : Prop := mk_layout {
  la_dev : l_dev lg = 1;
  la_start : 0 <= l_start lg /\ l_start lg + l_size lg <= nd /\ nd < 2^31;
  la_room : Z.of_nat (length E) < l_size lg /\ Z.of_nat (length E) <= LOGSIZE;
  la_home e : e ∈ E -> home lg e.1 /\ 0 <= e.1 < nd }.

(** The in-memory header lists the blocks of [E]. *)
Definition listed (lg : log) (E : list (Z * block)) : Prop :=
  lh_n lg = Z.of_nat (length E) /\
  forall k e, E !! k = Some e -> lh_block lg !! Z.of_nat k = Some e.1.

(** No block of the log area is modified in the cache. *)
Definition log_clean (lg : log) D : Prop := forall b, ~ home lg b -> D !! b = None.

Definition log_blk (lg : log) (k : nat) : Z := l_start lg + Z.of_nat k + 1.

(** The writes of write_log for the entries from number [k] on. *)
Fixpoint log_writes (lg : log) (k : nat) (E : list (Z * block)) : list (Z * block) :=
  match E with
  | [] => []
  | e :: E' => (log_blk lg k, e.2) :: log_writes lg (S k) E'
  end.

Lemma log_writes_snoc lg k E e :
  log_writes lg k (E ++ [e]) = log_writes lg k E ++ [(log_blk lg (k + length E), e.2)].
Proof.
  revert k. induction E as [|e' E IH]; intros k; simpl.
  - by rewrite Nat.add_0_r.
  - rewrite IH. by replace (k + S (length E))%nat with (S k + length E)%nat by lia.
Qed.

Lemma log_blk_not_home lg nd E k :
  layout lg nd E -> (k < length E)%nat -> ~ home lg (log_blk lg k) /\ 0 <= log_blk lg k < nd.
Proof. intros [_ Hs [Hr _] _] Hk. unfold home, log_blk. lia. Qed.

Lemma unheld_empty n : unheld ∅ n.
Proof. intros i b Hi. by rewrite lookup_empty in Hi. Qed.

Lemma unheld_one i b n : b_blockno b <> n -> unheld {[i := b]} n.
Proof. intros Hn j b' [<- <-]%lookup_singleton_Some. done. Qed.

(** One round of write_log. *)
Lemma write_log_step s d D lg E k e o :
  brep s d D ∅ -> layout lg (disksize s) E -> log_clean lg D -> (size D < Z.to_nat NBUF)%nat ->
  E !! k = Some e -> D !! e.1 = Some e.2 -> o = Some e.1 ->
  wp (let! to := bread 1 (log_blk lg k) in
      let! b := deref o in
      let! from := bread 1 b in
      copy_data to from ;;; bwrite to ;;; brelse from ;;; brelse to)
    (fun _ s' => xlog s' = xlog s /\ ran s s' d [(log_blk lg k, e.2)] D) s.
Proof.
  intros R La Lc Hsz Hk HD ->. pose proof (lookup_lt_Some _ _ _ Hk) as Hlt.
  destruct (log_blk_not_home _ _ _ _ La Hlt) as [Hnh Hrg].
  destruct (la_home _ _ _ La e) as [He Hen]; [by eapply list_elem_of_lookup_2|].
  assert (log_blk lg k <> e.1) as Hne by (by intros E1; rewrite E1 in Hnh).
  unfold wp. apply wpe_bind. eapply wp_wpe; [apply (bread_ok s d D ∅); [done|apply unheld_empty|lia|]|].
  { right. rewrite map_size_empty. lia. }
  intros i s1 (_ & E1 & T1 & R1). cbn beta. rewrite (delete_id D) in R1 by (by apply Lc).
  rewrite loaded_clean, insert_empty in R1 by (by apply Lc).
  apply wpe_bind, (wpe_deref _ e.1); [done|]. apply wpe_bind. eapply wp_wpe; [eapply (bread_ok s1 d D); [exact R1|..]|].
  { by apply unheld_one. }
  { destruct E1 as (_ & _ & ->). lia. }
  { left. rewrite HD. eauto. }
  intros j s2 (Hj & E2 & T2 & R2). cbn beta.
  assert (i <> j) as Hij by (intros <-; by rewrite lookup_singleton_eq in Hj).
  rewrite <- insert_empty, insert_insert_ne, insert_empty in R2 by done.
  assert (loaded s1 d D e.1 = mkBuf true true 1 e.1 (Some (pid s1)) 1 e.2) as El.
  { unfold loaded, vget. rewrite HD. done. }
  rewrite El in R2.
  eapply wp_wpe; [eapply (copy_tail_ok s2); [exact R2|done|..]; simpl|].
  - rewrite lookup_delete_ne by done. by apply Lc.
  - apply lookup_delete_eq.
  - destruct E1 as (_ & _ & E1), E2 as (_ & _ & E2). rewrite E2, E1. lia.
  - done.
  - done.
  - intros _ s3 [X3 R3]. simpl in R3. rewrite insert_delete_id in R3 by done.
    destruct E1 as (X1 & P1 & S1), E2 as (X2 & P2 & S2), R3 as [R3 T3 P3 S3].
    split; [congruence|]. constructor; [done|congruence..].
Qed.

Lemma ran_refl s d D : brep s d D ∅ -> ran s s d [] D.
Proof. by intros R; constructor. Qed.

Lemma write_log_ok s d D E :
  brep s d D ∅ -> layout (xlog s) (disksize s) E -> listed (xlog s) E -> log_clean (xlog s) D ->
  (size D < Z.to_nat NBUF)%nat -> (forall e, e ∈ E -> D !! e.1 = Some e.2) ->
  wp write_log (fun _ s' => xlog s' = xlog s /\ ran s s' d (log_writes (xlog s) 0 E) D) s.
Proof.
  intros R La [Hn Hl] Lc Hsz HD. unfold wp, write_log. wp_steps. rewrite Hn.
  eapply wp_wpe; [apply (wp_for_seq _ (fun i s' => xlog s' = xlog s /\
    ran s s' d (log_writes (xlog s) 0 (take (Z.to_nat i) E)) D)); [lia| |]|].
  - split; [done|]. by apply ran_refl.
  - intros i s1 Hi [X1 R1]. destruct (lookup_lt_is_Some_2 E (Z.to_nat i)) as [e He]; [lia|].
    unfold wp. apply wpe_bind, wpe_gets. rewrite X1, (la_dev _ _ _ La).
    replace (l_start (xlog s) + i + 1) with (log_blk (xlog s) (Z.to_nat i)) by (unfold log_blk; lia).
    pose proof (Hl _ _ He) as Hb. rewrite Z2Nat.id in Hb by lia.
    pose proof R1 as [B1 T1 P1 S1].
    eapply wp_wpe; [eapply (write_log_step s1 _ D (xlog s) E (Z.to_nat i) e); [exact B1|..]|].
    + by rewrite S1.
    + done.
    + done.
    + done.
    + apply HD. by eapply list_elem_of_lookup_2.
    + done.
    + intros _ s2 [X2 R2]. split; [congruence|].
      replace (Z.to_nat (i + 1)) with (S (Z.to_nat i)) by lia.
      rewrite (take_S_r _ _ _ He), log_writes_snoc, length_take_le by lia.
      by eapply ran_trans.
  - intros [] s' [X' R']. rewrite Nat2Z.id, firstn_all in R'. done.
Qed.

(** One round of install_trans. *)
Lemma install_step s d D lg E k e o :
  brep s d D ∅ -> layout lg (disksize s) E -> log_clean lg D -> (size D < Z.to_nat NBUF)%nat ->
  (is_Some (D !! e.1) \/ size D + 1 < Z.to_nat NBUF)%nat ->
  E !! k = Some e -> dget d (log_blk lg k) = e.2 -> o = Some e.1 ->
  wp (let! lbuf := bread 1 (log_blk lg k) in
      let! b := deref o in
      let! dbuf := bread 1 b in
      copy_data dbuf lbuf ;;; bwrite dbuf ;;; brelse lbuf ;;; brelse dbuf)
    (fun _ s' => xlog s' = xlog s /\ ran s s' d [e] (delete e.1 D)) s.
Proof.
  intros R La Lc Hsz Hroom Hk Hdat ->. pose proof (lookup_lt_Some _ _ _ Hk) as Hlt.
  destruct (log_blk_not_home _ _ _ _ La Hlt) as [Hnh Hrg].
  destruct (la_home _ _ _ La e) as [He Hen]; [by eapply list_elem_of_lookup_2|].
  assert (log_blk lg k <> e.1) as Hne by (by intros E1; rewrite E1 in Hnh).
  unfold wp. apply wpe_bind. eapply wp_wpe; [apply (bread_ok s d D ∅); [done|apply unheld_empty|lia|]|].
  { right. rewrite map_size_empty. lia. }
  intros i s1 (_ & E1 & T1 & R1). cbn beta. rewrite (delete_id D) in R1 by (by apply Lc).
  rewrite loaded_clean, insert_empty in R1 by (by apply Lc).
  apply wpe_bind, (wpe_deref _ e.1); [done|]. apply wpe_bind.
  eapply wp_wpe; [eapply (bread_ok s1 d D); [exact R1|..]|].
  { by apply unheld_one. }
  { destruct E1 as (_ & _ & ->). lia. }
  { rewrite map_size_singleton. done. }
  intros j s2 (Hj & E2 & T2 & R2). cbn beta.
  assert (j <> i) as Hij by (intros ->; by rewrite lookup_singleton_eq in Hj).
  eapply wp_wpe; [eapply (copy_tail_ok s2); [exact R2|done|..]; simpl|].
  - apply lookup_delete_eq.
  - rewrite lookup_delete_ne by done. by apply Lc.
  - destruct E1 as (_ & _ & E1), E2 as (_ & _ & E2). rewrite E2, E1. lia.
  - done.
  - done.
  - intros _ s3 [X3 R3]. simpl in R3. rewrite Hdat in R3.
    destruct E1 as (X1 & P1 & S1), E2 as (X2 & P2 & S2), R3 as [R3 T3 P3 S3].
    split; [congruence|]. destruct e. cbn [fst snd] in *. constructor; [done|congruence..].
Qed.

Definition rem_blocks D (E : list (Z * block)) : gmap Z block :=
  foldl (fun D e => delete e.1 D) D E.

Lemma rem_blocks_snoc D E e : rem_blocks D (E ++ [e]) = delete e.1 (rem_blocks D E).
Proof. unfold rem_blocks. by rewrite foldl_app. Qed.

Lemma rem_blocks_lookup D E b :
  rem_blocks D E !! b = if decide (b ∈ E.*1) then None else D !! b.
Proof.
  induction E as [|e E IH] using rev_ind; simpl; [done|].
  rewrite rem_blocks_snoc, lookup_delete, IH, fmap_app. cbn [fmap list_fmap].
  destruct (decide (b ∈ E.*1 ++ [e.1])) as [Hin|Hin];
    rewrite elem_of_app, list_elem_of_singleton in Hin; repeat case_decide; naive_solver.
Qed.

Lemma rem_blocks_size D E : (size (rem_blocks D E) <= size D)%nat.
Proof.
  induction E as [|e E IH] using rev_ind; simpl; [done|]. rewrite rem_blocks_snoc.
  etransitivity; [|exact IH]. rewrite map_size_delete. case_match; unfold id; lia.
Qed.

(** Room in the cache for installing: each block is either pinned there or
    nothing is. *)
Definition install_room D (E : list (Z * block)) : Prop :=
  (size D < Z.to_nat NBUF)%nat /\
  (NoDup E.*1 /\ (forall e, e ∈ E -> is_Some (D !! e.1)) \/ D = ∅).

Lemma install_room_step D E k e :
  install_room D E -> E !! k = Some e ->
  (size (rem_blocks D (take k E)) < Z.to_nat NBUF)%nat /\
  (is_Some (rem_blocks D (take k E) !! e.1) \/ size (rem_blocks D (take k E)) + 1 < Z.to_nat NBUF)%nat.
Proof.
  intros [Hsz Hr] He. pose proof (rem_blocks_size D (take k E)). split; [lia|].
  destruct Hr as [[Hnd HD]| ->].
  - left. rewrite rem_blocks_lookup, decide_False; [apply HD; by eapply list_elem_of_lookup_2|].
    intros Hin. rewrite <- (take_drop_middle _ _ _ He), fmap_app, fmap_cons in Hnd.
    apply NoDup_app in Hnd as (_ & Hnd & _). apply (Hnd _ Hin). by left.
  - right. rewrite map_size_empty in *. change (Z.to_nat NBUF) with 30%nat. lia.
Qed.

(** Writes to home blocks leave the log alone. *)
Lemma home_writes lg nd E d l b :
  layout lg nd E -> (forall e, e ∈ l -> e ∈ E) -> ~ home lg b -> dget (writes d l) b = dget d b.
Proof.
  intros La Hl Hb. apply writes_ne. intros (e & -> & He)%list_elem_of_fmap.
  apply Hb, (la_home _ _ _ La). auto.
Qed.

Lemma install_trans_ok s d D E :
  brep s d D ∅ -> layout (xlog s) (disksize s) E -> listed (xlog s) E -> log_clean (xlog s) D ->
  install_room D E ->
  (forall k e, E !! k = Some e -> dget d (log_blk (xlog s) k) = e.2) ->
  wp install_trans (fun _ s' => xlog s' = xlog s /\ ran s s' d E (rem_blocks D E)) s.
Proof.
  intros R La [Hn Hl] Lc Hroom Hdat. unfold wp, install_trans. wp_steps. rewrite Hn.
  eapply wp_wpe; [apply (wp_for_seq _ (fun i s' => xlog s' = xlog s /\
    ran s s' d (take (Z.to_nat i) E) (rem_blocks D (take (Z.to_nat i) E)))); [lia| |]|].
  - split; [done|]. by apply ran_refl.
  - intros i s1 Hi [X1 R1]. destruct (lookup_lt_is_Some_2 E (Z.to_nat i)) as [e He]; [lia|].
    unfold wp. apply wpe_bind, wpe_gets. rewrite X1, (la_dev _ _ _ La).
    replace (l_start (xlog s) + i + 1) with (log_blk (xlog s) (Z.to_nat i)) by (unfold log_blk; lia).
    pose proof (Hl _ _ He) as Hb. rewrite Z2Nat.id in Hb by lia.
    pose proof R1 as [B1 T1 P1 S1]. destruct (install_room_step D E (Z.to_nat i) e Hroom He) as [Hs1 Hs2].
    eapply wp_wpe; [eapply (install_step s1 _ _ (xlog s) E (Z.to_nat i) e); [exact B1|..]|].
    + by rewrite S1.
    + intros b Hb'. rewrite rem_blocks_lookup. case_decide; [done|]. by apply Lc.
    + done.
    + done.
    + done.
    + rewrite (home_writes _ _ _ _ _ _ La); [by apply Hdat| |].
      * intros x (j & Hj & _)%elem_of_take. by eapply list_elem_of_lookup_2.
      * apply (log_blk_not_home _ _ _ _ La). lia.
    + done.
    + intros _ s2 [X2 R2]. split; [congruence|].
      replace (Z.to_nat (i + 1)) with (S (Z.to_nat i)) by lia.
      rewrite (take_S_r _ _ _ He), rem_blocks_snoc. by eapply ran_trans.
  - intros [] s' [X' R']. rewrite Nat2Z.id, firstn_all in R'. done.
Qed.

(** ** The header block *)

(** The header with [n] entries written over [data]. *)
Definition header (data : block) (n : Z) (bl : Z -> Z) (k : Z) : block :=
  foldl (fun h i => write32 h (hb_block i) (bl i)) (write32 data hb_n n) (seqZ 0 k).

Lemma header_step data n bl k :
  0 <= k -> header data n bl (k + 1) = write32 (header data n bl k) (hb_block k) (bl k).
Proof.
  intros Hk. unfold header. rewrite seqZ_app, foldl_app by lia. by rewrite Z.add_0_l.
Qed.

Lemma header_n data n bl k : 0 <= k -> read32 (header data n bl k) hb_n = u32 n.
Proof.
  intros Hk. revert k Hk. apply natlike_ind.
  - apply read32_write32_eq.
  - intros k Hk IH. rewrite <- Z.add_1_r, header_step, read32_write32_ne; [done| |done].
    unfold hb_block, hb_n. lia.
Qed.

Lemma header_block data n bl k j :
  0 <= j < k -> read32 (header data n bl k) (hb_block j) = u32 (bl j).
Proof.
  intros Hj. assert (0 <= k) as Hk by lia. revert k Hk Hj. apply (natlike_ind (fun k => 0 <= j < k -> _)).
  - lia.
  - intros k Hk IH Hj. rewrite <- Z.add_1_r, header_step by done.
    destruct (decide (j = k)) as [->|Hne]; [apply read32_write32_eq|].
    rewrite read32_write32_ne; [apply IH; lia|]. unfold hb_block. lia.
Qed.

(** A header block that lists [E]. *)
Definition lists (h : block) (E : list (Z * block)) : Prop :=
  s32 (read32 h hb_n) = Z.of_nat (length E) /\
  forall k e, E !! k = Some e -> read32 h (hb_block (Z.of_nat k)) = e.1.

Lemma header_lists lg nd E data :
  layout lg nd E ->
  lists (header data (Z.of_nat (length E)) (fun i => default 0 (E.*1 !! Z.to_nat i)) (Z.of_nat (length E))) E.
Proof.
  intros La. destruct (la_room _ _ _ La) as [_ Hr]. change LOGSIZE with 30 in Hr. split.
  - rewrite header_n by lia. rewrite u32_small, s32_small by lia. done.
  - intros k e He. pose proof (lookup_lt_Some _ _ _ He). rewrite header_block by lia.
    rewrite Nat2Z.id, list_lookup_fmap, He. simpl. destruct (la_start _ _ _ La) as (_ & _ & ?).
    destruct (la_home _ _ _ La e) as [_ ?]; [by eapply list_elem_of_lookup_2|]. apply u32_small. lia.
Qed.

(** The header that write_head stores for the entries [E]. *)
Definition new_header (d : gmap Z block) (lg : log) (E : list (Z * block)) : block :=
  header (dget d (l_start lg)) (Z.of_nat (length E)) (fun i => default 0 (E.*1 !! Z.to_nat i))
    (Z.of_nat (length E)).

Lemma start_not_home lg nd E : layout lg nd E -> ~ home lg (l_start lg) /\ 0 <= l_start lg < nd.
Proof. intros [_ Hs [Hr _] _]. unfold home. lia. Qed.

Lemma write_head_ok s d D E :
  brep s d D ∅ -> layout (xlog s) (disksize s) E -> listed (xlog s) E -> log_clean (xlog s) D ->
  (size D < Z.to_nat NBUF)%nat ->
  wp write_head (fun _ s' => xlog s' = xlog s /\
    ran s s' d [(l_start (xlog s), new_header d (xlog s) E)] D) s.
Proof.
  intros R La [Hn Hl] Lc Hsz. destruct (start_not_home _ _ _ La) as [Hnh Hrg].
  unfold wp, write_head. apply wpe_bind, wpe_gets. rewrite (la_dev _ _ _ La).
  apply wpe_bind. eapply wp_wpe; [apply (bread_ok s d D ∅); [done|apply unheld_empty|lia|]|].
  { right. rewrite map_size_empty. lia. }
  intros i s1 (_ & (X1 & P1 & S1) & T1 & R1). cbn beta. rewrite (delete_id D) in R1 by (by apply Lc).
  rewrite loaded_clean, insert_empty in R1 by (by apply Lc).
  set (start := l_start (xlog s)) in *. set (n := Z.of_nat (length E)) in *.
  pose (hd := fun k => mkBuf true false 1 start (Some (pid s)) 1
    (header (dget d start) n (fun i => default 0 (E.*1 !! Z.to_nat i)) k)).
  destruct (br_held _ _ _ _ R1 i _ (lookup_singleton_eq _ _)) as (Hb & _).
  apply wpe_bind. eapply wpe_get_buf; [exact Hb|]. apply wpe_bind, wpe_put_buf. rewrite Hn. fold n.
  apply wpe_bind. eapply wp_wpe; [apply (wp_for_seq _ (fun k s' => same_env s1 s' /\
    trace s' = trace s1 /\ brep s' d D {[i := hd k]})); [lia| |]|].
  - split; [done|]. split; [done|].
    pose proof (brep_held_put _ _ _ _ i _ (hd 0) R1 (lookup_singleton_eq _ _) eq_refl eq_refl eq_refl eq_refl eq_refl) as R2.
    by rewrite insert_singleton_eq in R2.
  - intros k s2 Hk (E2 & T2 & R2). unfold wp.
    destruct (lookup_lt_is_Some_2 E (Z.to_nat k)) as [e He]; [lia|].
    pose proof (Hl _ _ He) as Hbl. rewrite Z2Nat.id in Hbl by lia.
    apply wpe_bind, (wpe_deref _ e.1); [done|].
    destruct (br_held _ _ _ _ R2 i _ (lookup_singleton_eq _ _)) as (Hb2 & _).
    apply wpe_bind. eapply wpe_get_buf; [exact Hb2|]. apply wpe_put_buf.
    split; [by transitivity s2|]. split; [done|].
    pose proof (brep_held_put _ _ _ _ i _ (hd (k + 1)) R2 (lookup_singleton_eq _ _) eq_refl eq_refl eq_refl eq_refl eq_refl) as R3.
    rewrite insert_singleton_eq in R3. unfold hd in R3 at 1. rewrite header_step in R3 by lia.
    rewrite list_lookup_fmap, He in R3. exact R3.
  - intros _ s2 (E2 & T2 & R2). cbn beta. apply wpe_bind.
    eapply wp_wpe; [eapply (bwrite_ok s2); [exact R2|apply lookup_singleton_eq|]|].
    { destruct E2 as (_ & _ & ->). simpl. lia. }
    intros _ s3 (E3 & T3 & R3). cbn beta. rewrite insert_singleton_eq in R3. simpl in R3, T3.
    eapply wp_wpe; [eapply (brelse_ok s3); [exact R3|apply lookup_singleton_eq|..]|].
    { intros _. simpl. unfold dget. by rewrite lookup_insert_eq. }
    { simpl. by apply Lc. }
    intros _ s4 (E4 & T4 & R4). simpl in R4. rewrite delete_singleton_eq in R4.
    destruct E2 as (X2 & P2 & S2), E3 as (X3 & P3 & S3), E4 as (X4 & P4 & S4).
    split; [congruence|]. constructor; [done| |congruence..].
    simpl. rewrite T4, T3, T2, T1. done.
Qed.

(** The in-memory log with another header. *)
Definition same_place (lg lg' : log) : Prop :=
  l_start lg' = l_start lg /\ l_size lg' = l_size lg /\ l_dev lg' = l_dev lg /\
  l_outstanding lg' = l_outstanding lg /\ l_committing lg' = l_committing lg.

Lemma same_place_layout lg lg' nd E : same_place lg lg' -> layout lg nd E -> layout lg' nd E.
Proof.
  intros (Es & Ez & Ed & _) [H1 H2 H3 H4]. constructor.
  - congruence.
  - by rewrite Es, Ez.
  - by rewrite Ez.
  - intros e He. unfold home. rewrite Es, Ez. by apply H4.
Qed.

Lemma read_head_ok s d D E :
  brep s d D ∅ -> layout (xlog s) (disksize s) E -> log_clean (xlog s) D -> (size D < Z.to_nat NBUF)%nat ->
  lists (dget d (l_start (xlog s))) E ->
  wp read_head (fun _ s' => same_place (xlog s) (xlog s') /\ listed (xlog s') E /\ ran s s' d [] D) s.
Proof.
  intros R La Lc Hsz [Hn Hl]. destruct (start_not_home _ _ _ La) as [Hnh Hrg].
  destruct (la_room _ _ _ La) as [_ Hr]. change LOGSIZE with 30 in Hr.
  unfold wp, read_head. apply wpe_bind, wpe_gets. rewrite (la_dev _ _ _ La).
  apply wpe_bind. eapply wp_wpe; [apply (bread_ok s d D ∅); [done|apply unheld_empty|lia|]|].
  { right. rewrite map_size_empty. lia. }
  intros i s1 (_ & (X1 & P1 & S1) & T1 & R1). cbn beta. rewrite (delete_id D) in R1 by (by apply Lc).
  rewrite loaded_clean, insert_empty in R1 by (by apply Lc).
  destruct (br_held _ _ _ _ R1 i _ (lookup_singleton_eq _ _)) as (Hb & _).
  apply wpe_bind. eapply wpe_get_buf; [exact Hb|]. cbn [b_data]. rewrite Hn. set (n := Z.of_nat (length E)) in *.
  wp_steps. eapply wp_wpe; [apply (wp_for_seq _ (fun k s' => same_place (xlog s) (xlog s') /\
    lh_n (xlog s') = n /\ (forall j e, E !! j = Some e -> Z.of_nat j < k -> lh_block (xlog s') !! Z.of_nat j = Some e.1) /\
    bufs s' = bufs s1 /\ lru s' = lru s1 /\ memdisk s' = memdisk s1 /\ trace s' = trace s1 /\
    ident s' = ident s1 /\ disksize s' = disksize s1)); [lia| |]|].
  - unfold same_place. simpl. rewrite X1. repeat split. intros j e _ Hj. lia.
  - intros k s2 Hk (Sp & En & Hj & E1 & E2 & E3 & E4 & E5 & E6). change LOGSIZE with 30.
    destruct (Z.leb_spec 30 k); [lia|]. unfold wp. wp_steps.
    destruct Sp as (? & ? & ? & ? & ?). unfold same_place. simpl.
    repeat (split; [done|]). split; [|done]. intros j e He Hlt.
    destruct (decide (Z.of_nat j = k)) as [<-|Hne].
    + rewrite lookup_insert_eq. f_equal. by apply Hl.
    + rewrite lookup_insert_ne by done. apply Hj; [done|lia].
  - intros _ s2 (Sp & En & Hj & E1 & E2 & E3 & E4 & E5 & E6). cbn beta.
    assert (brep s2 d D {[i := mkBuf true false 1 (l_start (xlog s)) (Some (pid s)) 1
      (dget d (l_start (xlog s)))]}) as R2.
    { apply (brep_ext s1); [done..|by apply ident_pid]. }
    eapply wp_wpe; [eapply (brelse_ok s2); [exact R2|apply lookup_singleton_eq|done|by apply Lc]|].
    intros _ s3 ((X3 & P3 & S3) & T3 & R3). simpl in R3. rewrite delete_singleton_eq in R3.
    rewrite X3. split; [done|]. split.
    + split; [done|]. intros j e He. apply Hj; [done|]. pose proof (lookup_lt_Some _ _ _ He). lia.
    + constructor; [done|by rewrite T3, E4, T1|congruence|congruence].
Qed.

(** The header with no entries. *)
Definition empty_header (d : gmap Z block) (lg : log) : block := new_header d lg [].

Lemma clear_and_write_ok s d D E :
  brep s d D ∅ -> layout (xlog s) (disksize s) E -> log_clean (xlog s) D -> (size D < Z.to_nat NBUF)%nat ->
  wp (clear_lh ;;; write_head) (fun _ s' => same_place (xlog s) (xlog s') /\ lh_n (xlog s') = 0 /\
    ran s s' d [(l_start (xlog s), empty_header d (xlog s))] D) s.
Proof.
  intros R La Lc Hsz. unfold wp, clear_lh. apply wpe_bind, wpe_modify.
  set (s1 := set_xlog (set_lh 0 (lh_block (xlog s)) (xlog s)) s).
  assert (same_place (xlog s) (xlog s1)) as Sp by done.
  assert (layout (xlog s1) (disksize s1) []) as La1.
  { apply (same_place_layout (xlog s)); [done|]. destruct La as [H1 H2 [H3 H4] H5]. constructor; [done|done|..].
    - simpl. unfold LOGSIZE in *. lia.
    - intros e He. by apply elem_of_nil in He. }
  assert (brep s1 d D ∅) as R1 by (by destruct R; constructor).
  eapply wp_wpe; [apply (write_head_ok s1 d D []); [done|done| |done|done]|].
  { split; [done|]. intros k e He. by rewrite lookup_nil in He. }
  intros _ s2 [X2 [R2 T2 P2 S2]]. rewrite X2. split; [done|]. split; [done|]. by constructor.
Qed.

(** ** recover_from_log *)

Lemma room_empty : (size (∅ : gmap Z block) < Z.to_nat NBUF)%nat.
Proof. rewrite map_size_empty. change (Z.to_nat NBUF) with 30%nat. lia. Qed.

Lemma recover_ok s d E :
  brep s d ∅ ∅ -> layout (xlog s) (disksize s) E -> lists (dget d (l_start (xlog s))) E ->
  (forall k e, E !! k = Some e -> dget d (log_blk (xlog s) k) = e.2) ->
  wp recover_from_log (fun _ s' => same_place (xlog s) (xlog s') /\ lh_n (xlog s') = 0 /\
    ran s s' d (E ++ [(l_start (xlog s), empty_header (writes d E) (xlog s))]) ∅) s.
Proof.
  intros R La Hl Hdat. unfold wp, recover_from_log. apply wpe_bind.
  eapply wp_wpe; [apply (read_head_ok s d ∅ E); [done|done| |apply room_empty|done]|].
  { intros b _. apply lookup_empty. }
  intros _ s1 (Sp1 & L1 & Rn1). cbn beta. pose proof Rn1 as [R1 T1 P1 S1]. simpl in R1.
  pose proof (same_place_layout _ _ _ _ Sp1 La) as La1. rewrite <- S1 in La1.
  apply wpe_bind. eapply wp_wpe; [apply (install_trans_ok s1 d ∅ E); [done|done|done|..]|].
  { intros b _. apply lookup_empty. }
  { split; [apply room_empty|by right]. }
  { intros k e He. unfold log_blk. destruct Sp1 as (-> & _). by apply Hdat. }
  intros _ s2 (X2 & Rn2). cbn beta. pose proof Rn2 as [R2 T2 P2 S2].
  assert (rem_blocks ∅ E = ∅) as Hrem.
  { apply map_eq. intros b. rewrite rem_blocks_lookup, lookup_empty. by case_decide. }
  rewrite Hrem in R2, Rn2.
  eapply wp_wpe; [apply (clear_and_write_ok s2 (writes d E) ∅ E); [done| | |apply room_empty]|].
  { rewrite X2, S2. done. }
  { intros b _. apply lookup_empty. }
  intros _ s3 (Sp3 & Hn3 & Rn3).
  assert (same_place (xlog s) (xlog s3)) as Sp.
  { rewrite X2 in Sp3. destruct Sp1 as (?&?&?&?&?), Sp3 as (?&?&?&?&?). repeat split; congruence. }
  split; [done|]. split; [done|].
  assert (l_start (xlog s2) = l_start (xlog s) /\ empty_header (writes d E) (xlog s2) =
    empty_header (writes d E) (xlog s)) as [Es Eh].
  { rewrite X2. unfold empty_header, new_header. by destruct Sp1 as (-> & _). }
  rewrite Es, Eh in Rn3. eapply ran_trans; [|exact Rn3].
  by apply (ran_trans s s1 s2 d [] E ∅ ∅).
Qed.

(** ** commit *)

(** A transaction that is ready to commit: the blocks of [E] are modified in
    the cache, listed in the header, and outside the log. *)
Record txn (s : xst) (d D : gmap Z block) (E : list (Z * block)) : Prop := mk_txn {
  tx_rep : brep s d D ∅;
  tx_layout : layout (xlog s) (disksize s) E;
  tx_listed : listed (xlog s) E;
  tx_clean : log_clean (xlog s) D;
  tx_room : (size D < Z.to_nat NBUF)%nat;
  tx_nodup : NoDup E.*1;
  tx_dirty e : e ∈ E -> D !! e.1 = Some e.2 }.

Definition commit_writes (lg : log) d (E : list (Z * block)) : list (Z * block) :=
  let A := log_writes lg 0 E in
  let d1 := writes d A in
  let d2 := writes d1 [(l_start lg, new_header d1 lg E)] in
  let d3 := writes d2 E in
  A ++ [(l_start lg, new_header d1 lg E)] ++ E ++ [(l_start lg, empty_header d3 lg)].

Lemma log_writes_elem lg k E b x :
  (b, x) ∈ log_writes lg k E <-> exists j e, E !! j = Some e /\ b = log_blk lg (k + j) /\ x = e.2.
Proof.
  revert k. induction E as [|e E IH]; intros k; simpl.
  - rewrite elem_of_nil. split; [done|]. intros (j & e & He & _). by rewrite lookup_nil in He.
  - rewrite elem_of_cons, IH. split.
    + intros [[= -> ->]|(j & e' & He & -> & ->)].
      * exists 0%nat, e. by rewrite Nat.add_0_r.
      * exists (S j), e'. rewrite <- Nat.add_succ_comm. done.
    + intros ([|j] & e' & He & -> & ->).
      * left. injection He as ->. by rewrite Nat.add_0_r.
      * right. exists j, e'. rewrite <- Nat.add_succ_comm. done.
Qed.

Lemma log_writes_blocks lg nd E l b :
  layout lg nd E -> (forall x, x ∈ l -> x ∈ log_writes lg 0 E) -> home lg b \/ b = l_start lg ->
  b ∉ l.*1.
Proof.
  intros La Hl Hb ([b' x] & -> & Hin)%list_elem_of_fmap. apply Hl in Hin. simpl in *.
  apply log_writes_elem in Hin as (j & e & He & -> & _). apply lookup_lt_Some in He.
  destruct (log_blk_not_home _ _ _ _ La He) as [Hn Hr]. unfold log_blk in *. simpl in *.
  destruct Hb as [Hb|Hb]; [done|]. lia.
Qed.

Lemma log_writes_data lg E d k e :
  E !! k = Some e -> dget (writes d (log_writes lg 0 E)) (log_blk lg k) = e.2.
Proof.
  intros He. assert (NoDup (log_writes lg 0 E).*1) as Hnd.
  { generalize 0%nat. clear. induction E as [|e E IH]; intros k; simpl; [constructor|].
    constructor; [|apply IH]. intros ([b x] & Hb & Hin)%list_elem_of_fmap. simpl in Hb.
    apply log_writes_elem in Hin as (j & e' & _ & -> & _). unfold log_blk in Hb. lia. }
  apply (writes_nodup d (log_writes lg 0 E) (log_blk lg k, e.2) Hnd). apply log_writes_elem. eauto.
Qed.

Lemma commit_ok s d D E :
  txn s d D E -> E <> [] ->
  wp commit (fun _ s' => same_place (xlog s) (xlog s') /\ lh_n (xlog s') = 0 /\
    ran s s' d (commit_writes (xlog s) d E) (rem_blocks D E)) s.
Proof.
  intros [R La Li Lc Hsz Hnd HD] Hne. pose proof (start_not_home _ _ _ La) as [Hsh Hsr].
  unfold wp, commit, commit_writes. wp_steps. destruct Li as [Hn Hl].
  destruct (Z.ltb_spec 0 (lh_n (xlog s))) as [_|Hle].
  2: { destruct E; [done|]. simpl in Hn. lia. }
  pose proof (conj Hn Hl : listed (xlog s) E) as Li.
  apply wpe_bind. eapply wp_wpe; [by apply (write_log_ok s d D E)|]. intros _ s1 (X1 & N1). cbn beta.
  pose proof N1 as [R1 T1 P1 S1]. set (d1 := writes d (log_writes (xlog s) 0 E)) in *. apply wpe_bind.
  rewrite <- X1, <- S1 in La. rewrite <- X1 in Li, Lc.
  eapply wp_wpe; [by apply (write_head_ok s1 d1 D E)|]. intros _ s2 (X2 & N2). cbn beta.
  pose proof N2 as [R2 T2 P2 S2]. rewrite X1 in R2, N2.
  set (d2 := writes d1 [(l_start (xlog s), new_header d1 (xlog s) E)]) in *. apply wpe_bind.
  rewrite <- X2, <- S2 in La. rewrite <- X2 in Li, Lc.
  eapply wp_wpe; [apply (install_trans_ok s2 d2 D E); [done|done|done|done|..]|].
  { split; [done|]. left. split; [done|]. intros e He. rewrite HD by done. eauto. }
  { intros k e He. rewrite X2, X1. unfold d2. pose proof (lookup_lt_Some _ _ _ He) as Hk.
    rewrite writes_ne.
    - by apply log_writes_data.
    - simpl. rewrite list_elem_of_singleton. unfold log_blk. lia. }
  intros _ s3 (X3 & N3). cbn beta. pose proof N3 as [R3 T3 P3 S3].
  set (d3 := writes d2 E) in *.
  eapply wp_wpe; [apply (clear_and_write_ok s3 d3 (rem_blocks D E) E); [done|..]|].
  { by rewrite X3, S3. }
  { rewrite X3. intros b Hb. rewrite rem_blocks_lookup. case_decide; [done|]. by apply Lc. }
  { pose proof (rem_blocks_size D E). lia. }
  intros _ s4 (Sp4 & Hn4 & N4). rewrite X3, X2, X1 in Sp4, N4.
  split; [done|]. split; [done|].
  eapply ran_trans; [exact N1|]. eapply (ran_trans _ s2); [exact N2|]. by eapply ran_trans.
Qed.
End log.
