(* ===== verification/Xv6Recover.v ===== *)
(** * The log: crashes and recovery (expansion/log.c)

    A crash leaves the disk as it was after some number of the block writes it
    was given; everything in memory is lost.  The machine then boots: main
    calls binit, the first process calls iinit and initlog.  The invariant
    [logged] says of a disk that its log area describes the entries [E]; the
    contents it stands for are [writes d E].  Every prefix of the writes of a
    boot keeps what the disk stands for, and the prefixes of the writes of a
    commit stand for either the old or the new contents. *)
From S2P Require Import Prelude Mem Xv6Log Xv6Cache Xv6Crash.

(** ** Booting *)

Definition zero_buf : buf := mkBuf false false 0 0 None 0 ∅.
Definition zero_inode : inode := mkInode 0 0 0 None false 0 0 0 0 0 ∅.
Definition zero_sb : superblock := mkSb 0 0 0 0 0 0 0.

(** Memory as the boot loader leaves it: the globals are zero. *)
Definition boot_state (d : gmap Z block) (nd p : Z) : xst :=
  mkX (list_to_map ((fun i => (i, zero_buf)) <$> seqZ 0 NBUF)) [] d nd []
    (mkLog 0 0 0 false 0 0 ∅) p zero_sb
    (list_to_map ((fun i => (i, zero_inode)) <$> seqZ 0 NINODE)) 0.

(** What main and the first call of forkret do for the file system. *)
Definition boot : X unit := binit ;;; iinit ROOTDEV ;;; initlog ROOTDEV.

(** One crash during a boot: the disk has the first [m] writes. *)
Definition crash_boot (nd p : Z) (d d' : gmap Z block) : Prop :=
  exists s' m, boot (boot_state d nd p) = Ok tt s' /\ d' = writes d (take m (reverse (trace s'))).

(** The log that the superblock of [d] describes. *)
Definition disk_log (d : gmap Z block) : log :=
  let v := sb_of (dget d 1) in mkLog (s32 (sb_logstart v)) (s32 (sb_nlog v)) 0 false 1 0 ∅.

(** The superblock is neither in the log area nor written through the log. *)
Record sb_safe (lg : log) (nd : Z) (E : list (Z * block)) : Prop := mk_sb_safe {
  ss_home : home lg 1;
  ss_nd : 1 < nd;
  ss_out : 1 ∉ E.*1 }.

Record logged (nd : Z) (d : gmap Z block) (E : list (Z * block)) : Prop := mk_logged {
  lo_layout : layout (disk_log d) nd E;
  lo_sb : sb_safe (disk_log d) nd E;
  lo_lists : lists (dget d (l_start (disk_log d))) E;
  lo_data k e : E !! k = Some e -> dget d (log_blk (disk_log d) k) = e.2 }.

Lemma seqZ_map_lookup {A} (x : A) n i :
  (list_to_map ((fun i => (i, x)) <$> seqZ 0 n) : gmap Z A) !! i =
  if decide (0 <= i < n) then Some x else None.
Proof.
  case_decide as Hi.
  - apply elem_of_list_to_map_1.
    + rewrite <- list_fmap_compose. simpl. rewrite list_fmap_id. apply NoDup_seqZ.
    + apply list_elem_of_fmap. exists i. split; [done|]. apply elem_of_seqZ. lia.
  - apply not_elem_of_list_to_map_1. rewrite <- list_fmap_compose. simpl. rewrite list_fmap_id.
    rewrite elem_of_seqZ. lia.
Qed.

Lemma binit_run l s : for_ l (fun i => modify (fun s => set_lru (i :: lru s) s)) s =
  Ok tt (set_lru (reverse l ++ lru s) s).
Proof.
  revert s. induction l as [|i l IH]; intros s; [by destruct s|]. simpl. unfold bind at 1. simpl.
  rewrite IH. rewrite reverse_cons, <- app_assoc. by destruct s.
Qed.

(** An empty cache on any disk. *)
Lemma zero_cache_rep s d :
  bufs s = list_to_map ((fun i => (i, zero_buf)) <$> seqZ 0 NBUF) -> lru s ≡ₚ seqZ 0 NBUF ->
  memdisk s = d -> brep s d ∅ ∅.
Proof.
  intros Eb El Em.
  assert (forall i b, bufs s !! i = Some b -> b = zero_buf) as Hz.
  { intros i b. rewrite Eb, seqZ_map_lookup. case_decide; [by intros [= <-]|done]. }
  constructor.
  - done.
  - intros i. rewrite Eb, seqZ_map_lookup. case_decide; split; intros Hi; [done|eauto|by destruct Hi|done].
  - done.
  - intros i b Hb. by rewrite lookup_empty in Hb.
  - intros i b ->%Hz _. repeat split; done.
  - intros n x Hx. by rewrite lookup_empty in Hx.
  - intros i j bi bj ->%Hz ->%Hz. done.
Qed.

Lemma boot_cache_ok d nd p :
  wp binit (fun _ s' => brep s' d ∅ ∅ /\ trace s' = [] /\ disksize s' = nd /\
    xlog s' = mkLog 0 0 0 false 0 0 ∅) (boot_state d nd p).
Proof.
  unfold wp, wpe, binit. rewrite binit_run. split; [|done].
  apply zero_cache_rep; [done| |done]. cbn [lru set_lru boot_state]. rewrite app_nil_r. apply reverse_Permutation.
Qed.

Lemma readsb_ok s d D :
  brep s d D ∅ -> D !! 1 = None -> (size D < Z.to_nat NBUF)%nat -> 1 < disksize s ->
  wp (readsb 1) (fun v s' => v = sb_of (dget d 1) /\ xlog s' = xlog s /\ ran s s' d [] D) s.
Proof.
  intros R H1 Hsz Hn. unfold wp, readsb. apply wpe_bind.
  eapply wp_wpe; [apply (bread_ok s d D ∅ 1); [done|apply unheld_empty|done|]|].
  { right. rewrite map_size_empty. lia. }
  intros i s1 (_ & (X1 & P1 & S1) & T1 & R1). cbn beta. rewrite (delete_id D) in R1 by done.
  rewrite loaded_clean, insert_empty in R1 by done.
  destruct (br_held _ _ _ _ R1 i _ (lookup_singleton_eq _ _)) as (Hb & _).
  apply wpe_bind. eapply wpe_get_buf; [exact Hb|]. cbn [b_data]. apply wpe_bind.
  eapply wp_wpe; [eapply (brelse_ok s1); [exact R1|apply lookup_singleton_eq|done|done]|].
  intros _ s2 ((X2 & P2 & S2) & T2 & R2). cbn beta. simpl in R2. rewrite delete_singleton_eq in R2.
  wp_steps. split; [done|]. split; [congruence|]. constructor; [done|simpl; congruence|congruence..].
Qed.

Lemma layout_place lg lg' nd E :
  l_start lg' = l_start lg -> l_size lg' = l_size lg -> l_dev lg' = l_dev lg ->
  layout lg nd E -> layout lg' nd E.
Proof.
  intros Hs Hz Hd [H1 H2 H3 H4]. constructor; rewrite ?Hs, ?Hz, ?Hd; [done..|].
  unfold home. rewrite Hs, Hz. exact H4.
Qed.

(** The writes of a boot. *)
Definition boot_writes (d : gmap Z block) (E : list (Z * block)) : list (Z * block) :=
  E ++ [(l_start (disk_log d), empty_header (writes d E) (disk_log d))].

Lemma boot_ok nd p d E :
  logged nd d E ->
  wp boot (fun _ s' => brep s' (writes d (boot_writes d E)) ∅ ∅ /\ trace s' = reverse (boot_writes d E) /\
    lh_n (xlog s') = 0 /\ same_place (disk_log d) (xlog s') /\ disksize s' = nd) (boot_state d nd p).
Proof.
  intros [La [_ Hnd _] Hl Hdat]. unfold wp, boot, iinit, load_sb, initlog, ROOTDEV. apply wpe_bind.
  eapply wp_wpe; [apply boot_cache_ok|]. intros _ s1 (R1 & T1 & S1 & X1). cbn beta.
  apply wpe_bind, wpe_bind. eapply wp_wpe; [apply (readsb_ok s1 d ∅); [done|done|apply room_empty|lia]|].
  intros v s2 (-> & X2 & [R2 T2 P2 S2]). cbn beta. wp_steps.
  eapply wp_wpe; [apply (readsb_ok _ d ∅); [|done|apply room_empty|simpl; lia]|].
  { by apply (brep_ext s2). }
  intros v s3 (-> & X3 & [R3 T3 P3 S3]). cbn beta. wp_steps. simpl in X3, T3, S3.
  eapply wp_wpe; [apply (recover_ok _ d E)|].
  - apply (brep_ext s3); done.
  - simpl. rewrite S3, S2, S1. by apply (layout_place (disk_log d)).
  - exact Hl.
  - intros k e He. by apply Hdat.
  - intros _ s4 (Sp & Hn & [R4 T4 P4 S4]). simpl in *. split; [done|]. split.
    + rewrite T4, T3, T2, T1. by rewrite !app_nil_r.
    + split; [done|]. split; [|congruence]. destruct Sp as (?&?&?&?&?). simpl in *. rewrite X3, X2, X1 in *.
      repeat split; done.
Qed.

(** Writes outside the superblock leave the log where it is. *)
Lemma disk_log_ext d d' : dget d' 1 = dget d 1 -> disk_log d' = disk_log d.
Proof. unfold disk_log. by intros ->. Qed.

Lemma writes_again d l1 l2 b :
  (forall e, e ∈ l1 -> e.1 ∈ l2.*1) -> dget (writes (writes d l1) l2) b = dget (writes d l2) b.
Proof.
  intros Hsub. destruct (decide (b ∈ l2.*1)) as [Hin|Hout]; [by apply writes_in|].
  rewrite !writes_ne; [done|done|..|done]. intros (e & -> & He)%list_elem_of_fmap. auto.
Qed.

Lemma take_elem {A} n (l : list A) x : x ∈ take n l -> x ∈ l.
Proof. intros (j & Hj & _)%elem_of_take. by eapply list_elem_of_lookup_2. Qed.

Lemma disk_log_entries nd d E l :
  sb_safe (disk_log d) nd E -> (forall e, e ∈ l -> e ∈ E) -> disk_log (writes d l) = disk_log d.
Proof.
  intros Hsb Hsub. apply disk_log_ext, writes_ne. intros (e & He1 & He)%list_elem_of_fmap.
  destruct (ss_out _ _ _ Hsb). rewrite He1. apply list_elem_of_fmap. eauto.
Qed.

(** The log area of a disk on which only home blocks listed in [E] differ. *)
Lemma logged_home nd d E l :
  logged nd d E -> (forall e, e ∈ l -> e ∈ E) -> logged nd (writes d l) E.
Proof.
  intros [La Hsb Hl Hdat] Hsub.
  assert (disk_log (writes d l) = disk_log d) as Ed by (by eapply disk_log_entries).
  constructor; rewrite Ed; [done|done|..].
  - rewrite (home_writes _ _ _ _ _ _ La); [done|done|]. by apply (start_not_home _ _ _ La).
  - intros k e He. rewrite (home_writes _ _ _ _ _ _ La); [by apply Hdat|done|].
    apply (log_blk_not_home _ _ _ _ La). by eapply lookup_lt_Some.
Qed.

Lemma layout_nil lg nd E : layout lg nd E -> layout lg nd [].
Proof.
  intros [H1 H2 [H3 H4] H5]. constructor; [done|done| |].
  - simpl. change LOGSIZE with 30. lia.
  - intros e He. by apply elem_of_nil in He.
Qed.

(** A disk whose header is overwritten by the empty one. *)
Lemma logged_cleared nd d E E' :
  logged nd d E -> logged nd (writes d [(l_start (disk_log d), new_header E' (disk_log d) [])]) [].
Proof.
  intros [La Hsb Hl Hdat]. destruct (start_not_home _ _ _ La) as [Hnh _].
  assert (l_start (disk_log d) <> 1) as Hne.
  { intros E1. rewrite E1 in Hnh. by apply Hnh, (ss_home _ _ _ Hsb). }
  assert (disk_log (writes d [(l_start (disk_log d), new_header E' (disk_log d) [])]) = disk_log d) as Ed.
  { apply disk_log_ext. unfold dget. simpl. by rewrite lookup_insert_ne. }
  constructor; rewrite Ed.
  - by eapply layout_nil.
  - destruct Hsb. constructor; [done|done|]. simpl. apply not_elem_of_nil.
  - unfold dget at 1. simpl writes. cbn [foldl writes fst snd]. rewrite lookup_insert_eq. apply (header_lists (disk_log d) nd).
    by eapply layout_nil.
  - done.
Qed.

(** Home blocks are not the header. *)
Lemma header_apart lg nd E d x b :
  layout lg nd E -> home lg b -> dget (writes d [(l_start lg, x)]) b = dget d b.
Proof.
  intros La Hb. apply writes_ne. cbn [fmap list_fmap fst]. rewrite list_elem_of_singleton. intros ->.
  by destruct (start_not_home _ _ _ La).
Qed.

(** What the disk [d'] stands for is what [d] with [E] stands for. *)
Definition stands (nd : Z) (d' d : gmap Z block) (E : list (Z * block)) : Prop :=
  exists E', logged nd d' E' /\ disk_log d' = disk_log d /\
    forall b, home (disk_log d) b -> dget (writes d' E') b = dget (writes d E) b.

Lemma stands_partial nd d E l :
  logged nd d E -> (forall e, e ∈ l -> e ∈ E) -> stands nd (writes d l) d E.
Proof.
  intros L Hsub. exists E. split; [by apply logged_home|].
  split; [eapply disk_log_entries; [by apply (lo_sb _ _ _ L)|done]|].
  intros b _. apply writes_again. intros e He. apply list_elem_of_fmap. eauto.
Qed.

Lemma stands_cleared nd d E d0 :
  logged nd d E ->
  stands nd (writes (writes d E) [(l_start (disk_log d), new_header d0 (disk_log d) [])]) d E.
Proof.
  intros L. assert (logged nd (writes d E) E) as L' by (by apply logged_home).
  assert (disk_log (writes d E) = disk_log d) as Ed by (by eapply disk_log_entries; [apply (lo_sb _ _ _ L)|]).
  rewrite <- Ed. exists []. split; [by apply (logged_cleared nd (writes d E) E)|]. split.
  - transitivity (disk_log (writes d E)); [|done]. apply disk_log_ext. eapply header_apart; [apply (lo_layout _ _ _ L')|].
    apply (ss_home _ _ _ (lo_sb _ _ _ L')).
  - intros b Hb. rewrite writes_nil. eapply header_apart; [apply (lo_layout _ _ _ L')|]. by rewrite Ed.
Qed.

(** A crash during a boot does not change what the disk stands for. *)
Lemma crash_boot_ok nd p d d' E :
  logged nd d E -> crash_boot nd p d d' -> stands nd d' d E.
Proof.
  intros L (s' & m & Hrun & ->). 
  destruct (wp_run _ _ _ _ _ (boot_ok nd p d E L) Hrun) as (_ & T & _). rewrite T, reverse_involutive. clear T Hrun s'.
  unfold boot_writes. destruct (decide (m <= length E)%nat) as [Hm|Hm].
  - rewrite take_app_le by done. apply stands_partial; [done|]. apply take_elem.
  - rewrite take_ge by (rewrite length_app; simpl; lia). rewrite writes_app. by apply stands_cleared.
Qed.

Lemma stands_trans nd d2 d1 d E1 E :
  stands nd d2 d1 E1 -> disk_log d1 = disk_log d ->
  (forall b, home (disk_log d) b -> dget (writes d1 E1) b = dget (writes d E) b) -> stands nd d2 d E.
Proof.
  intros (E2 & L2 & Ed & Hb) Ed1 Hb1. exists E2. split; [done|]. split; [congruence|].
  intros b Hh. rewrite Hb by (by rewrite Ed1). by apply Hb1.
Qed.

(** Any number of crashes during boots. *)
Lemma crash_boots_ok nd p d d1 d2 E :
  stands nd d1 d E -> rtc (crash_boot nd p) d1 d2 -> stands nd d2 d E.
Proof.
  intros S H. revert S. induction H as [|d1 d1' d2 Hc _ IH]; intros S; [done|].
  apply IH. destruct S as (E1 & L1 & Ed & Hb).
  eapply stands_trans; [by eapply crash_boot_ok|done|done].
Qed.

(** A log that is ready for transactions. *)
Record ready (s : xst) : Prop := mk_ready {
  rd_rep : brep s (memdisk s) ∅ ∅;
  rd_empty : lh_n (xlog s) = 0;
  rd_place : same_place (disk_log (memdisk s)) (xlog s);
  rd_logged : logged (disksize s) (memdisk s) [] }.

Lemma stands_boot nd p d d' E :
  stands nd d' d E ->
  wp boot (fun _ s' => ready s' /\ disksize s' = nd /\
    forall b, home (disk_log d) b -> dget (memdisk s') b = dget (writes d E) b) (boot_state d' nd p).
Proof.
  intros (E' & L & Ed & Hb). eapply wp_mono; [by apply boot_ok|].
  intros _ s' (R & _ & Hn & Sp & Hnd). cbn beta. pose proof (br_disk _ _ _ _ R) as Em.
  unfold boot_writes in Em. rewrite writes_app in Em.
  destruct (stands_cleared nd d' E' (writes d' E') L) as (E2 & L2 & Ed2 & _).
  change (new_header (writes d' E') (disk_log d') []) with (empty_header (writes d' E') (disk_log d')) in *.
  rewrite <- Em in *. split; [constructor|].
  - rewrite Em. unfold boot_writes in R. by rewrite writes_app in R.
  - done.
  - by rewrite Ed2.
  - assert (disk_log (writes d' E') = disk_log d') as Ed'
      by (by eapply disk_log_entries; [apply (lo_sb _ _ _ L)|]).
    rewrite Hnd, Em. unfold empty_header. rewrite <- Ed'. by apply (logged_cleared _ _ E'), logged_home.
  - split; [done|]. intros b Hh. rewrite Em, (header_apart _ _ _ _ _ _ (lo_layout _ _ _ L)) by (by rewrite Ed).
    by apply Hb.
Qed.

(** ** The writes of a commit *)

Lemma log_writes_place lg lg' k E :
  l_start lg' = l_start lg -> log_writes lg' k E = log_writes lg k E.
Proof.
  intros Es. revert k. induction E as [|e E IH]; intros k; simpl; [done|]. rewrite IH.
  unfold log_blk. by rewrite Es.
Qed.

Lemma commit_writes_place lg lg' d E :
  l_start lg' = l_start lg -> commit_writes lg' d E = commit_writes lg d E.
Proof.
  intros Es. unfold commit_writes, empty_header, new_header.
  by rewrite (log_writes_place lg lg' 0 E Es), Es.
Qed.

Lemma length_log_writes lg k E : length (log_writes lg k E) = length E.
Proof. revert k. induction E as [|e E IH]; intros k; simpl; [done|]. by rewrite IH. Qed.

Lemma logged_nil_place nd d E : logged nd d [] -> layout (disk_log d) nd E -> 1 ∉ E.*1 ->
  sb_safe (disk_log d) nd E.
Proof. intros [_ [] _ _] _ H. by constructor. Qed.

(** Before the header is written the disk stands for the old contents. *)
Lemma commit_before nd d E l :
  logged nd d [] -> layout (disk_log d) nd E -> (forall x, x ∈ l -> x ∈ log_writes (disk_log d) 0 E) ->
  stands nd (writes d l) d [].
Proof.
  intros L La Hl. pose proof L as [La0 Hsb Hli _].
  assert (forall b, home (disk_log d) b \/ b = l_start (disk_log d) -> dget (writes d l) b = dget d b) as Hsame.
  { intros b Hb. apply writes_ne. by apply (log_writes_blocks _ _ _ _ _ La). }
  assert (disk_log (writes d l) = disk_log d) as Ed.
  { apply disk_log_ext, Hsame. left. apply (ss_home _ _ _ Hsb). }
  exists []. split; [|split; [done|]].
  - constructor; rewrite Ed; [done|done| |done]. rewrite Hsame by (by right). done.
  - intros b Hb. rewrite !writes_nil. apply Hsame. by left.
Qed.

(** Once the header is written the log describes the transaction. *)
Lemma commit_logged nd d E :
  let lg := disk_log d in
  let d1 := writes d (log_writes lg 0 E) in
  let d2 := writes d1 [(l_start lg, new_header d1 lg E)] in
  logged nd d [] -> layout lg nd E -> 1 ∉ E.*1 ->
  logged nd d2 E /\ disk_log d2 = lg /\ forall b, home lg b -> dget d2 b = dget d b.
Proof.
  intros lg d1 d2 L La H1. pose proof (logged_nil_place nd d E L La H1) as Hsb.
  assert (forall b, home lg b -> dget d2 b = dget d b) as Hsame.
  { intros b Hb. unfold d2. rewrite (header_apart _ _ _ _ _ _ La) by done. apply writes_ne.
    eapply log_writes_blocks; [exact La|done|by left]. }
  assert (disk_log d2 = lg) as Ed by (apply disk_log_ext, Hsame, (ss_home _ _ _ Hsb)).
  split; [|done]. constructor; rewrite Ed; [done|done|..].
  - unfold d2 at 1. rewrite (writes_nodup d1 _ (l_start lg, new_header d1 lg E)); [|apply NoDup_singleton|by left].
    by eapply header_lists.
  - intros k e He. unfold d2. rewrite writes_ne; [by apply log_writes_data|].
    cbn [fmap list_fmap fst]. rewrite list_elem_of_singleton. unfold log_blk. lia.
Qed.

(** A crash during a commit: the disk stands for the old contents as long as
    the header is not written, and for the new ones from then on. *)
Lemma commit_prefix nd lg d E m :
  logged nd d [] -> l_start lg = l_start (disk_log d) -> layout (disk_log d) nd E -> 1 ∉ E.*1 ->
  stands nd (writes d (take m (commit_writes lg d E))) d (if decide (m <= length E)%nat then [] else E).
Proof.
  intros L Es La H1. rewrite (commit_writes_place _ _ _ _ Es). unfold commit_writes.
  set (g := disk_log d) in *. set (A := log_writes g 0 E). set (d1 := writes d A).
  set (d2 := writes d1 [(l_start g, new_header d1 g E)]).
  assert (length A = length E) as HA by apply length_log_writes. case_decide as Hm.
  - rewrite take_app_le by lia. eapply commit_before; [done|exact La|]. apply take_elem.
  - replace m with (length A + (1 + (m - S (length E))))%nat by lia.
    rewrite take_app_add, writes_app, (take_app_add' [_]) by done. rewrite writes_app. fold d1 d2.
    destruct (commit_logged nd d E L La H1) as (L2 & Ed2 & Hb2). fold g A d1 d2 in L2, Ed2, Hb2.
    apply (stands_trans _ _ d2 _ E); [|done|].
    + set (k := (m - S (length E))%nat). destruct (decide (k <= length E)%nat).
      * rewrite take_app_le by done. apply stands_partial; [done|]. apply take_elem.
      * rewrite take_ge by (rewrite length_app; simpl; lia). rewrite writes_app.
        unfold empty_header. rewrite <- Ed2. by apply stands_cleared.
    + intros b Hb. destruct (decide (b ∈ E.*1)); [by apply writes_in|]. rewrite !writes_ne by done. by apply Hb2.
Qed.

(** After a commit the log is empty again. *)
Lemma commit_final nd lg d E :
  logged nd d [] -> l_start lg = l_start (disk_log d) -> layout (disk_log d) nd E -> 1 ∉ E.*1 ->
  logged nd (writes d (commit_writes lg d E)) [] /\
  disk_log (writes d (commit_writes lg d E)) = disk_log d.
Proof.
  intros L Es La H1. rewrite (commit_writes_place _ _ _ _ Es). unfold commit_writes.
  rewrite !writes_app. destruct (commit_logged nd d E L La H1) as (L2 & Ed2 & Hb2).
  set (d2 := writes (writes d _) [_]) in *.
  assert (disk_log (writes d2 E) = disk_log d2) as Ed by (by eapply disk_log_entries; [apply (lo_sb _ _ _ L2)|]).
  assert (logged nd (writes d2 E) E) as L3 by (by apply logged_home).
  unfold empty_header. rewrite <- Ed2, <- Ed. split; [by apply (logged_cleared nd (writes d2 E) E)|].
  apply disk_log_ext. eapply header_apart; [apply (lo_layout _ _ _ L3)|apply (ss_home _ _ _ (lo_sb _ _ _ L3))].
Qed.

Lemma commit_view nd lg d E b :
  logged nd d [] -> l_start lg = l_start (disk_log d) -> layout (disk_log d) nd E -> 1 ∉ E.*1 ->
  home (disk_log d) b -> dget (writes d (commit_writes lg d E)) b = dget (writes d E) b.
Proof.
  intros L Es La H1 Hb. rewrite (commit_writes_place _ _ _ _ Es). unfold commit_writes.
  rewrite !writes_app. destruct (commit_logged nd d E L La H1) as (L2 & Ed2 & Hb2).
  rewrite (header_apart _ _ _ _ _ _ La) by done.
  destruct (decide (b ∈ E.*1)); [by apply writes_in|]. rewrite !(writes_ne _ E) by done. by apply Hb2.
Qed.
