(* ===== verification/Xv6Txn.v ===== *)
(** * Operations inside a transaction (expansion/log.c, bio.c)

    [tx s d D H L]: a system call is between begin_op and end_op.  The disk is
    [d], [D] are the modified blocks pinned in the cache, [H] the buffers the
    process holds, and the header lists the blocks [L].  Every modified block
    is listed, and every listed block is modified or held.  The second part has
    the reservations of concurrent calls. *)
From S2P Require Import Prelude Mem Xv6Log Xv6Cache Xv6Crash Xv6Recover.

Record tx (s : xst) (d D : gmap Z block) (H : gmap Z buf) (L : list Z) : Prop := mk_tx {
  t_rep : brep s d D H;
  t_dev : l_dev (xlog s) = 1;
  t_area : 0 <= l_start (xlog s) /\ l_start (xlog s) + l_size (xlog s) <= disksize s /\ disksize s < 2^31;
  t_room : Z.of_nat (length L) < l_size (xlog s) <= LOGSIZE;
  t_home n : n ∈ L -> home (xlog s) n /\ 0 <= n < disksize s;
  t_n : lh_n (xlog s) = Z.of_nat (length L);
  t_block k n : L !! k = Some n -> lh_block (xlog s) !! Z.of_nat k = Some n;
  t_nodup : NoDup L;
  t_pinned n : n ∈ L -> is_Some (D !! n) \/
    exists i b, H !! i = Some b /\ b_blockno b = n /\ b_dirty b = true;
  t_only n : is_Some (D !! n) -> n ∈ L;
  t_held i b : H !! i = Some b -> b_dirty b = true -> b_blockno b ∈ L }.

(** What the steps of a transaction leave alone. *)
Definition tstep (s s' : xst) : Prop :=
  ident s' = ident s /\ disksize s' = disksize s /\ trace s' = trace s /\ same_place (xlog s) (xlog s').

#[export] Instance tstep_preorder : PreOrder tstep.
Proof.
  split.
  - intros s. repeat split.
  - intros s1 s2 s3 (?&?&?&(?&?&?&?&?)) (?&?&?&(?&?&?&?&?)). repeat split; congruence.
Qed.

Lemma same_env_tstep s s' : same_env s s' -> trace s' = trace s -> tstep s s'.
Proof. intros (E1 & E2 & E3) E4. unfold tstep, same_place. by rewrite E1. Qed.

Section tx.
Implicit Types (s : xst) (d D : gmap Z block) (H : gmap Z buf) (L : list Z).

(** A held block is not among the pinned ones. *)
Lemma held_unpinned s d D H i b : brep s d D H -> H !! i = Some b -> D !! b_blockno b = None.
Proof.
  intros R Hi. destruct (D !! b_blockno b) as [x|] eqn:E; [|done]. exfalso.
  destruct (br_held _ _ _ _ R i b Hi) as (Hb & _ & _ & Hd & _).
  destruct (br_dirty _ _ _ _ R _ x E) as (j & bj & Hj & Hjn & Hdj & En).
  destruct (br_free _ _ _ _ R j bj Hj Hjn) as (_ & _ & H3 & _). destruct (H3 Hdj) as (_ & ? & _).
  assert (j = i) as -> by (by eapply (br_uniq _ _ _ _ R)). congruence.
Qed.

(** Two held buffers have different blocks. *)
Lemma held_distinct s d D H i j bi bj :
  brep s d D H -> H !! i = Some bi -> H !! j = Some bj -> b_blockno bi = b_blockno bj -> i = j.
Proof.
  intros R Hi Hj E. destruct (br_held _ _ _ _ R i bi Hi) as (? & _ & _ & ? & _).
  destruct (br_held _ _ _ _ R j bj Hj) as (? & _ & _ & ? & _). by eapply (br_uniq _ _ _ _ R).
Qed.

Lemma tx_same_log s s' d D H D' H' L :
  tx s d D H L -> xlog s' = xlog s -> disksize s' = disksize s -> brep s' d D' H' ->
  (forall n, n ∈ L -> is_Some (D' !! n) \/ exists i b, H' !! i = Some b /\ b_blockno b = n /\ b_dirty b = true) ->
  (forall n, is_Some (D' !! n) -> n ∈ L) ->
  (forall i b, H' !! i = Some b -> b_dirty b = true -> b_blockno b ∈ L) ->
  tx s' d D' H' L.
Proof. intros [] E1 E2 R H1 H2 H3. constructor; rewrite ?E1, ?E2; done. Qed.

Lemma tx_bread_ok s d D H L n :
  tx s d D H L -> unheld H n -> n < disksize s ->
  (is_Some (D !! n) \/ size D + size H < Z.to_nat NBUF)%nat ->
  wp (bread 1 n) (fun i s' => tstep s s' /\ H !! i = None /\
    tx s' d (delete n D) (<[i := loaded s d D n]> H) L) s.
Proof.
  intros T Hun Hn Hroom. eapply wp_mono; [by apply (bread_ok s d D H n); [apply T|..]|].
  intros i s' (Hi & (E1 & E2 & E3) & E4 & R). cbn beta.
  split; [by apply same_env_tstep|]. split; [done|]. eapply tx_same_log; [done..| | |].
  - intros m Hm. destruct (decide (m = n)) as [->|Hne].
    + right. exists i, (loaded s d D n). rewrite lookup_insert_eq. split; [done|]. split; [done|].
      simpl. destruct (t_pinned _ _ _ _ _ T n Hm) as [Hp|(j & b & Hj & Hb & _)].
      * by rewrite bool_decide_eq_true_2.
      * by destruct (Hun j b Hj).
    + destruct (t_pinned _ _ _ _ _ T m Hm) as [Hp|(j & b & Hj & Hb & Hd)].
      * left. by rewrite lookup_delete_ne.
      * right. exists j, b. rewrite lookup_insert_ne by congruence. done.
  - intros m [x Hx]. apply lookup_delete_Some in Hx as [_ Hx]. apply (t_only _ _ _ _ _ T). eauto.
  - intros j b. rewrite lookup_insert. case_decide; [|by apply (t_held _ _ _ _ _ T)].
    intros [= <-]. simpl. intros Hd%bool_decide_eq_true_1. by apply (t_only _ _ _ _ _ T).
Qed.

(** Storing into a held buffer. *)
Lemma tx_put s d D H L i b x :
  tx s d D H L -> H !! i = Some b ->
  tx (set_bufs (<[i := set_data x b]> (bufs s)) s) d D (<[i := set_data x b]> H) L.
Proof.
  intros T Hi. eapply tx_same_log; [done|done|done| |..].
  - by apply (brep_held_put s d D H i b); [apply T|..].
  - intros n Hn. destruct (t_pinned _ _ _ _ _ T n Hn) as [Hp|(j & bj & Hj & Hb & Hd)]; [by left|right].
    destruct (decide (i = j)) as [<-|Hne].
    + exists i, (set_data x b). rewrite lookup_insert_eq. by simplify_eq.
    + exists j, bj. by rewrite lookup_insert_ne.
  - apply (t_only _ _ _ _ _ T).
  - intros j bj. rewrite lookup_insert. case_decide; [|by apply (t_held _ _ _ _ _ T)].
    intros [= <-]. simpl. by apply (t_held _ _ _ _ _ T i).
Qed.

Lemma tx_brelse_ok s d D H L i b :
  tx s d D H L -> H !! i = Some b -> (b_dirty b = false -> b_data b = dget d (b_blockno b)) ->
  wp (brelse i) (fun _ s' => tstep s s' /\
    tx s' d (if b_dirty b then <[b_blockno b := b_data b]> D else D) (delete i H) L) s.
Proof.
  intros T Hi Hcl. pose proof (t_rep _ _ _ _ _ T) as R.
  eapply wp_mono; [apply (brelse_ok s d D H i b); [done..|by eapply held_unpinned]|].
  intros _ s' ((E1 & E2 & E3) & E4 & R'). cbn beta.
  split; [by apply same_env_tstep|]. eapply tx_same_log; [done..| | |].
  - intros n Hn. destruct (t_pinned _ _ _ _ _ T n Hn) as [[x Hp]|(j & bj & Hj & Hb & Hd)].
    + left. destruct (b_dirty b); [|eauto]. apply lookup_insert_is_Some'. right. eauto.
    + destruct (decide (i = j)) as [<-|Hne].
      * left. simplify_eq. rewrite Hd. apply lookup_insert_is_Some'. by left.
      * right. exists j, bj. by rewrite lookup_delete_ne.
  - intros n Hn. destruct (b_dirty b) eqn:Hd; [|by apply (t_only _ _ _ _ _ T)].
    apply lookup_insert_is_Some' in Hn as [<-|Hn]; [by apply (t_held _ _ _ _ _ T i)|].
    by apply (t_only _ _ _ _ _ T).
  - intros j bj. rewrite lookup_delete_Some. intros [_ Hj]. by apply (t_held _ _ _ _ _ T j).
Qed.

(** ** log_write *)

Definition log_add (n : Z) (L : list Z) : list Z := if decide (n ∈ L) then L else L ++ [n].

Lemma log_index_ok lg L n k :
  NoDup L -> (forall j m, L !! j = Some m -> lh_block lg !! Z.of_nat j = Some m) ->
  (k <= length L)%nat -> (forall j, (j < k)%nat -> L !! j <> Some n) ->
  let i := log_index (lh_block lg) n (seqZ (Z.of_nat k) (Z.of_nat (length L - k))) (Z.of_nat (length L)) in
  if decide (n ∈ L) then exists j, i = Z.of_nat j /\ L !! j = Some n else i = Z.of_nat (length L).
Proof.
  intros Hnd Hl. remember (length L - k)%nat as r eqn:Er. revert k Er.
  induction r as [|r IH]; intros k Er Hk Hno; cbn zeta.
  - simpl. case_decide as Hin; [|done]. apply list_elem_of_lookup in Hin as [j Hj].
    pose proof (lookup_lt_Some _ _ _ Hj). destruct (Hno j); [lia|done].
  - rewrite seqZ_cons by lia. simpl. destruct (lookup_lt_is_Some_2 L k) as [m Hm]; [lia|].
    rewrite (Hl k m Hm). case_bool_decide as E.
    + injection E as ->. rewrite decide_True by (by eapply list_elem_of_lookup_2). eauto.
    + replace (Z.succ (Z.of_nat k)) with (Z.of_nat (S k)) by lia.
      replace (Z.pred (Z.of_nat (S r))) with (Z.of_nat r) by lia.
      apply IH; [lia|lia|]. intros j Hj. destruct (decide (j = k)) as [->|]; [congruence|].
      apply Hno. lia.
Qed.

Lemma log_write_ok s d D H L i b :
  tx s d D H L -> H !! i = Some b -> home (xlog s) (b_blockno b) -> 0 <= b_blockno b < disksize s ->
  Z.of_nat (length L) + 1 < l_size (xlog s) -> 1 <= l_outstanding (xlog s) ->
  wp (log_write i) (fun _ s' => tstep s s' /\
    tx s' d D (<[i := set_flags true true b]> H) (log_add (b_blockno b) L)) s.
Proof.
  intros T Hi Hh Hr Hroom Hou. pose proof T as [R Hdev Ha Hro Hho Hn Hbl Hnd Hpin Hon Hhe].
  destruct (br_held _ _ _ _ R i b Hi) as (Hb & Hl & Hrc & Hd & Hv).
  unfold wp, log_write. apply wpe_bind, wpe_gets. rewrite Hn.
  destruct (Z.leb_spec LOGSIZE (Z.of_nat (length L))); [lia|].
  destruct (Z.leb_spec (l_size (xlog s) - 1) (Z.of_nat (length L))); [lia|]. cbn [orb].
  destruct (Z.ltb_spec (l_outstanding (xlog s)) 1); [lia|].
  apply wpe_bind, (wpe_get_buf _ b); [done|]. cbv zeta.
  pose proof (log_index_ok (xlog s) L (b_blockno b) 0 Hnd Hbl) as Hix. cbn zeta in Hix.
  rewrite Nat.sub_0_r in Hix. change (Z.of_nat 0) with 0 in Hix.
  specialize (Hix ltac:(lia) ltac:(lia)). set (k := log_index _ _ _ _) in *.
  apply wpe_bind, wpe_modify, wpe_put_buf. rewrite Hv. split; [repeat split|].
  assert (brep (set_bufs (<[i := set_flags true true b]> (bufs s)) s) d D (<[i := set_flags true true b]> H)) as R'.
  { by apply (brep_held_put s d D H i b). }
  assert (b_blockno b ∈ log_add (b_blockno b) L) as Hin.
  { unfold log_add. case_decide; [done|]. apply elem_of_app. right. by left. }
  assert (forall n, n ∈ L -> n ∈ log_add (b_blockno b) L) as Hsub.
  { intros n Hn'. unfold log_add. case_decide; [done|]. apply elem_of_app. by left. }
  assert (forall n, n ∈ log_add (b_blockno b) L -> n ∈ L \/ n = b_blockno b) as Hsup.
  { intros n. unfold log_add. case_decide; [by left|].
    rewrite elem_of_app, list_elem_of_singleton. tauto. }
  constructor; simpl; [by eapply brep_ext|done|done| | | | | | |..].
  - unfold log_add. case_decide; [done|]. rewrite length_app. simpl. lia.
  - intros n [Hn'| ->]%Hsup; [by apply Hho|done].
  - unfold log_add. case_decide as Hin'.
    + destruct Hix as (j & -> & Hj). apply lookup_lt_Some in Hj.
      destruct (Z.eqb_spec (Z.of_nat j) (Z.of_nat (length L))); lia.
    + rewrite Hix, Z.eqb_refl, length_app. simpl. lia.
  - unfold log_add. case_decide as Hin'.
    + destruct Hix as (j & -> & Hj). intros q n Hq. destruct (decide (q = j)) as [->|Hne].
      * rewrite lookup_insert_eq. congruence.
      * rewrite lookup_insert_ne by lia. by apply Hbl.
    + rewrite Hix. intros q n [Hq|[Hq Hs]]%lookup_app_Some.
      * pose proof (lookup_lt_Some _ _ _ Hq). rewrite lookup_insert_ne by lia. by apply Hbl.
      * apply list_lookup_singleton_Some in Hs as [Hq' <-].
        replace q with (length L) by lia. by rewrite lookup_insert_eq.
  - unfold log_add. case_decide; [done|]. apply NoDup_app. split; [done|].
    split; [|apply NoDup_singleton]. intros x Hx ->%list_elem_of_singleton. done.
  - intros n Hn'. destruct (decide (n = b_blockno b)) as [->|Hne].
    + right. exists i, (set_flags true true b). by rewrite lookup_insert_eq.
    + apply Hsup in Hn' as [Hn'|]; [|done].
      destruct (Hpin n Hn') as [|(j & bj & Hj & Hbj & Hdj)]; [by left|right].
      exists j, bj. rewrite lookup_insert_ne; [done|]. intros ->. simplify_eq.
  - intros n Hn'. by apply Hsub, Hon.
  - clear Hix k. intros j bj. rewrite lookup_insert. case_decide; intros Hj Hdj.
    + by injection Hj as <-.
    + apply Hsub. by eapply Hhe.
Qed.

(** ** begin_op and end_op *)

Lemma begin_op_ok s d D L :
  tx s d D ∅ L -> l_committing (xlog s) = false ->
  lh_n (xlog s) + (l_outstanding (xlog s) + 1) * MAXOPBLOCKS <= LOGSIZE ->
  wp begin_op (fun _ s' => s' = set_xlog (set_outstanding (l_outstanding (xlog s) + 1) (xlog s)) s /\
    tx s' d D ∅ L) s.
Proof.
  intros [R Hdev Ha Hro Hho Hn Hbl Hnd Hpin Hon Hhe] Hc Hroom. unfold wp, begin_op. wp_steps. rewrite Hc.
  destruct (Z.ltb_spec LOGSIZE (lh_n (xlog s) + (l_outstanding (xlog s) + 1) * MAXOPBLOCKS)); [lia|].
  wp_steps. split; [done|]. constructor; simpl; try done. by eapply brep_ext.
Qed.

(** The contents that the transaction commits. *)
Definition entries D L : list (Z * block) := (fun n => (n, default ∅ (D !! n))) <$> L.

Lemma entries_blocks D L : (entries D L).*1 = L.
Proof. unfold entries. rewrite <- list_fmap_compose. simpl. apply list_fmap_id. Qed.

Lemma tx_txn s d D L : tx s d D ∅ L -> txn s d D (entries D L).
Proof.
  intros [R Hdev Ha Hro Hho Hn Hbl Hnd Hpin Hon Hhe].
  assert (size D <= length L)%nat as Hsz.
  { rewrite <- size_dom. change (size (dom D)) with (length (elements (dom D : gset Z))).
    apply submseteq_length, NoDup_submseteq; [apply NoDup_elements|].
    intros n Hn'%elem_of_elements%elem_of_dom. by apply Hon. }
  change LOGSIZE with 30 in Hro.
  assert (length (entries D L) = length L) as Hlen by apply length_fmap.
  constructor; [done| | | | | |].
  - constructor; rewrite ?Hlen; [done|done|change LOGSIZE with 30; lia|].
    intros e (n & -> & He)%list_elem_of_fmap. by apply Hho.
  - split; [by rewrite Hlen|]. intros k e He. unfold entries in He.
    apply list_lookup_fmap_Some in He as (n & -> & Hk). by apply Hbl.
  - intros b Hb. destruct (D !! b) eqn:E; [|done]. destruct Hb. apply Hho, Hon. eauto.
  - change (Z.to_nat NBUF) with 30%nat. lia.
  - by rewrite entries_blocks.
  - intros e (n & -> & He)%list_elem_of_fmap. simpl.
    destruct (Hpin n He) as [[x Hx]|(i & b & Hi & _)]; [by rewrite Hx|by rewrite lookup_empty in Hi].
Qed.

(** The new contents are the view the transaction had. *)
Lemma entries_view s d D L b :
  tx s d D ∅ L -> dget (writes d (entries D L)) b = vget d D b.
Proof.
  intros T. unfold vget. destruct (decide (b ∈ L)) as [Hin|Hout].
  - destruct (t_pinned _ _ _ _ _ T b Hin) as [[x Hx]|(i & bb & Hi & _)]; [|by rewrite lookup_empty in Hi].
    rewrite Hx. apply (writes_nodup d (entries D L) (b, x)).
    + rewrite entries_blocks. apply (t_nodup _ _ _ _ _ T).
    + apply list_elem_of_fmap. exists b. by rewrite Hx.
  - rewrite writes_ne by (by rewrite entries_blocks). destruct (D !! b) eqn:E; [|done].
    destruct Hout. apply (t_only _ _ _ _ _ T). eauto.
Qed.

(** What a crash can leave: after any number of crashes during recovery, a boot
    finds the home blocks as in [V]. *)
Definition recovers (nd p : Z) (d' : gmap Z block) (lg : log) (V : Z -> block) : Prop :=
  forall d2, rtc (crash_boot nd p) d' d2 ->
  wp boot (fun _ sb => ready sb /\ disksize sb = nd /\
    forall b, home lg b -> dget (memdisk sb) b = V b) (boot_state d2 nd p).

Lemma stands_recovers nd p d d' E V :
  stands nd d' d E -> (forall b, home (disk_log d) b -> dget (writes d E) b = V b) ->
  recovers nd p d' (disk_log d) V.
Proof.
  intros S HV d2 Hr. eapply wp_mono; [eapply stands_boot, crash_boots_ok; [exact S|exact Hr]|].
  intros _ s2 (Rd & Hn & Hb). split; [done|]. split; [done|]. intros b Hh. by rewrite Hb, HV.
Qed.

Lemma rem_all D L : (forall n, is_Some (D !! n) -> n ∈ L) -> rem_blocks D (entries D L) = ∅.
Proof.
  intros Hon. apply map_eq. intros n. rewrite rem_blocks_lookup, lookup_empty, entries_blocks.
  case_decide as Hn; [done|]. destruct (D !! n) eqn:E; [|done]. destruct Hn. apply Hon. eauto.
Qed.

(** The log of [s] is the one the disk describes, and it is empty there. *)
Record at_disk (s : xst) d : Prop := mk_at_disk {
  ad_logged : logged (disksize s) d [];
  ad_start : l_start (xlog s) = l_start (disk_log d);
  ad_size : l_size (xlog s) = l_size (disk_log d) }.

(** The outcome of a transaction that ran from [s] to [s'] with the view [V]. *)
Definition committed (s s' : xst) d (V : Z -> block) : Prop :=
  ready s' /\ ident s' = ident s /\ disksize s' = disksize s /\
  (forall b, home (xlog s) b -> dget (memdisk s') b = V b) /\
  exists W, trace s' = reverse W ++ trace s /\ memdisk s' = writes d W /\
    forall m p, recovers (disksize s) p (writes d (take m W)) (disk_log d) (dget d) \/
                recovers (disksize s) p (writes d (take m W)) (disk_log d) V.

Lemma commit_committed s d D L :
  tx s d D ∅ L -> at_disk s d -> 1 ∉ L -> l_outstanding (xlog s) = 0 ->
  wp (commit ;;; modify (fun s => set_xlog (set_committing false (xlog s)) s))
    (fun _ s' => committed s s' d (vget d D)) s.
Proof.
  intros T [Lo Es Ez] H1 Ho. pose proof (tx_txn _ _ _ _ T) as Tn. pose proof T as [R Hdev _ _ _ Hn _ _ Hpin Hon _].
  assert (layout (disk_log d) (disksize s) (entries D L)) as La.
  { eapply (layout_place (xlog s)); [done|done|by rewrite Hdev|apply (tx_layout _ _ _ _ Tn)]. }
  assert (1 ∉ (entries D L).*1) as H1' by (by rewrite entries_blocks).
  unfold wp. apply wpe_bind. destruct (decide (L = [])) as [->|Hne].
  - unfold commit. wp_steps. rewrite Hn. simpl. wp_steps.
    assert (D = ∅) as ->.
    { apply map_eq. intros n. rewrite lookup_empty. destruct (D !! n) eqn:E; [|done].
      by destruct (not_elem_of_nil n); apply Hon; eauto. }
    pose proof (br_disk _ _ _ _ R) as Em. split.
    { constructor; simpl; rewrite ?Em; [by eapply brep_ext|done| |done].
      unfold same_place. simpl. by rewrite Es, Ez, Hdev, Ho. }
    do 2 (split; [done|]). split; [intros b _; simpl; by rewrite Em|].
    exists []. split; [done|]. split; [by simpl; rewrite Em|]. intros m p. left.
    rewrite take_nil, writes_nil. eapply (stands_recovers _ _ d d []); [|done].
    exists []. done.
  - eapply wp_wpe; [apply (commit_ok s d D _ Tn); by destruct L|].
    intros _ s1 (Sp & Hn1 & [R1 T1 P1 S1]). cbn beta. wp_steps.
    set (W := commit_writes (xlog s) d (entries D L)) in *.
    rewrite (rem_all D L Hon) in R1. pose proof (br_disk _ _ _ _ R1) as Em.
    destruct (commit_final _ (xlog s) d _ Lo Es La H1') as [Lf Ef]. fold W in Lf, Ef.
    assert (forall m, stands (disksize s) (writes d (take m W)) d
      (if decide (m <= length (entries D L))%nat then [] else entries D L)) as Hst.
    { intros m. by apply commit_prefix. }
    split.
    { constructor; cbn [memdisk xlog set_xlog disksize]; rewrite ?Em, ?S1, ?Ef; [by eapply brep_ext|done| |done].
      destruct Sp as (?&?&?&?&?). unfold same_place.
      cbn [set_xlog set_committing xlog l_start l_size l_dev l_outstanding l_committing].
      change (l_dev (disk_log d)) with 1. change (l_outstanding (disk_log d)) with 0.
      repeat split; congruence. }
    do 2 (split; [done|]). split.
    { intros b Hb. cbn [memdisk set_xlog]. rewrite Em. unfold W.
      rewrite (commit_view (disksize s)); [by eapply entries_view|done..|].
      unfold home in *. by rewrite <- Es, <- Ez. }
    exists W. split; [done|]. split; [done|]. intros m p. specialize (Hst m). case_decide.
    + left. by eapply stands_recovers.
    + right. eapply stands_recovers; [done|]. intros b _. by eapply entries_view.
Qed.
(** Counters of the log do not matter. *)
Lemma tx_xlog s d D H L lg :
  tx s d D H L -> l_start lg = l_start (xlog s) -> l_size lg = l_size (xlog s) ->
  l_dev lg = l_dev (xlog s) -> lh_n lg = lh_n (xlog s) -> lh_block lg = lh_block (xlog s) ->
  tx (set_xlog lg s) d D H L.
Proof.
  intros [] E1 E2 E3 E4 E5. constructor; cbn [xlog set_xlog disksize]; unfold home in *;
    rewrite ?E1, ?E2, ?E3, ?E4, ?E5; try done. by eapply brep_ext.
Qed.

Lemma end_op_last_ok s d D L :
  tx s d D ∅ L -> at_disk s d -> 1 ∉ L -> l_outstanding (xlog s) = 1 -> l_committing (xlog s) = false ->
  wp end_op (fun _ s' => committed s s' d (vget d D)) s.
Proof.
  intros T [A1 A2 A3] H1 Ho Hc. unfold wp, end_op. wp_steps. rewrite Hc, Ho.
  change (1 - 1 =? 0) with true. cbn iota. apply wpe_bind, wpe_modify.
  eapply wp_wpe; [eapply commit_committed; [|constructor|exact H1|done]|].
  - apply tx_xlog; [by apply tx_xlog|done..].
  - done.
  - done.
  - done.
  - intros _ s' (H2 & H3 & H4 & H5 & H6). done.
Qed.

(** A whole system call: [body] runs inside the transaction. *)
Lemma transaction_ok {A} s (body : X A) (P : A -> gmap Z block -> Prop) :
  ready s -> l_size (xlog s) <= LOGSIZE ->
  (forall s1, tstep (set_xlog (set_outstanding 1 (xlog s)) s) s1 -> tx s1 (memdisk s) ∅ ∅ [] ->
    wp body (fun a s' => exists D L, tstep s1 s' /\ tx s' (memdisk s) D ∅ L /\ 1 ∉ L /\ P a D) s1) ->
  wp (begin_op ;;; let! a := body in end_op ;;; ret a)
    (fun a s' => exists D, P a D /\ committed s s' (memdisk s) (vget (memdisk s) D)) s.
Proof.
  intros [R Hn (Sp1&Sp2&Sp3&Sp4&Sp5) Lo] Hsz Hbody. simpl in Sp3, Sp4, Sp5. change (l_dev (disk_log _)) with 1 in Sp3.
  pose proof (lo_layout _ _ _ Lo) as [Q1 Q2 [Q3 Q4] Q5].
  assert (tx s (memdisk s) ∅ ∅ []) as T.
  { constructor; rewrite ?Sp1, ?Sp2; [done|done|done| |..].
    - split; [done|]. by rewrite <- Sp2.
    - intros n Hn'. by apply elem_of_nil in Hn'.
    - by rewrite Hn.
    - done.
    - constructor.
    - intros n Hn'. by apply elem_of_nil in Hn'.
    - intros n Hn'. rewrite lookup_empty in Hn'. by destruct Hn'.
    - intros i b Hb. by rewrite lookup_empty in Hb. }
  unfold wp. apply wpe_bind. eapply wp_wpe; [apply (begin_op_ok _ _ _ _ T Sp5)|].
  { rewrite Hn, Sp4. done. }
  intros _ s1 [-> T1]. cbn beta. rewrite Sp4 in *. change (0 + 1) with 1 in *. apply wpe_bind.
  eapply wp_wpe; [by apply Hbody|]. intros a s2 (D & L & (E1 & E2 & E3 & (F1&F2&F3&F4&F5)) & T2 & H1 & HP).
  cbn beta. cbn [xlog set_xlog set_outstanding l_start l_size l_dev l_outstanding l_committing disksize trace] in *.
  apply wpe_bind. eapply wp_wpe; [apply (end_op_last_ok s2 (memdisk s) D L T2)|].
  - constructor; [by rewrite E2|congruence|congruence].
  - done.
  - congruence.
  - congruence.
  - intros _ s3 (H2 & H3 & H4 & H5 & W & H6 & H7 & H8). wp_steps. exists D. split; [done|].
    split; [done|]. split; [by rewrite H3, E1|]. split; [by rewrite H4|]. split.
    + intros b Hb. apply H5. unfold home. rewrite F1, F2. exact Hb.
    + exists W. rewrite H6, E3. split; [done|]. split; [done|]. rewrite <- E2. exact H8.
Qed.
End tx.

(** * Log reservations (expansion/log.c)

    begin_op lets a system call start only when the log has room for
    MAXOPBLOCKS blocks of every call in progress.  [lstep] interleaves any
    number of calls: each keeps a budget of blocks it may still write, and
    steps that do not touch the in-memory log are unconstrained. *)

(** ** Code that leaves the in-memory log alone *)

Local Notation keeps := (keeps xlog).

Lemma keeps_get_buf i : keeps (get_buf i).
Proof. unfold get_buf. keep_steps. Qed.

Lemma keeps_put_buf i b : keeps (put_buf i b).
Proof. unfold put_buf. keep_steps. Qed.
#[export] Hint Resolve keeps_get_buf keeps_put_buf : keeps.

Lemma keeps_acquiresleep i : keeps (acquiresleep i).
Proof. unfold acquiresleep. keep_steps. Qed.

Lemma keeps_releasesleep i : keeps (releasesleep i).
Proof. unfold releasesleep. keep_steps. Qed.

Lemma keeps_holdingsleep i : keeps (holdingsleep i).
Proof. unfold holdingsleep. keep_steps. Qed.
#[export] Hint Resolve keeps_acquiresleep keeps_releasesleep keeps_holdingsleep : keeps.

Lemma keeps_iderw i : keeps (iderw i).
Proof. unfold iderw. keep_steps. Qed.

Lemma keeps_bget dev n : keeps (bget dev n).
Proof. unfold bget. keep_steps. Qed.
#[export] Hint Resolve keeps_iderw keeps_bget : keeps.

Lemma keeps_bread dev n : keeps (bread dev n).
Proof. unfold bread. keep_steps. Qed.

Lemma keeps_bwrite i : keeps (bwrite i).
Proof. unfold bwrite. keep_steps. Qed.

Lemma keeps_brelse i : keeps (brelse i).
Proof. unfold brelse. keep_steps. Qed.

Lemma keeps_copy_data i j : keeps (copy_data i j).
Proof. unfold copy_data. keep_steps. Qed.
#[export] Hint Resolve keeps_bread keeps_bwrite keeps_brelse keeps_copy_data : keeps.

Lemma keeps_write_log : keeps write_log.
Proof. unfold write_log. keep_steps. Qed.

Lemma keeps_install_trans : keeps install_trans.
Proof. unfold install_trans. keep_steps. Qed.

Lemma keeps_write_head : keeps write_head.
Proof. unfold write_head. keep_steps. Qed.

Lemma commit_log s s' :
  commit s = Ok tt s' ->
  xlog s' = if 0 <? lh_n (xlog s) then set_lh 0 (lh_block (xlog s)) (xlog s) else xlog s.
Proof.
  unfold commit. cbn [bind gets]. destruct (Z.ltb_spec 0 (lh_n (xlog s))) as [Hn|Hn].
  - unfold bind at 1. cbn [gets]. unfold bind at 1. destruct (write_log s) as [[] s1| | | |] eqn:E1; try done.
    unfold bind at 1. destruct (write_head s1) as [[] s2| | | |] eqn:E2; try done.
    unfold bind at 1. destruct (install_trans s2) as [[] s3| | | |] eqn:E3; try done.
    unfold bind, clear_lh. cbn [modify]. intros E4. rewrite (keeps_write_head _ _ _ E4). cbn [xlog set_xlog].
    by rewrite (keeps_install_trans _ _ _ E3), (keeps_write_head _ _ _ E2), (keeps_write_log _ _ _ E1).
  - unfold bind. cbn [gets]. by intros [= <-].
Qed.

(** ** Interleaved system calls *)

(** The calls in progress, each with the number of blocks it may still write. *)
Inductive lstep : xst * list nat -> xst * list nat -> Prop :=
| ls_begin s s' B : begin_op s = Ok tt s' -> lstep (s, B) (s', Z.to_nat MAXOPBLOCKS :: B)
| ls_write s s' B1 B2 k i :
    log_write i s = Ok tt s' -> lstep (s, B1 ++ S k :: B2) (s', B1 ++ k :: B2)
| ls_end s s' B1 B2 k : end_op s = Ok tt s' -> lstep (s, B1 ++ k :: B2) (s', B1 ++ B2)
| ls_other s s' B : xlog s' = xlog s -> lstep (s, B) (s', B).

Record reserved (c : xst * list nat) : Prop := mk_reserved {
  re_out : l_outstanding (xlog c.1) = Z.of_nat (length c.2);
  re_comm : l_committing (xlog c.1) = false;
  re_n : 0 <= lh_n (xlog c.1);
  re_each k : k ∈ c.2 -> (k <= 10)%nat;
  re_room : lh_n (xlog c.1) + Z.of_nat (sum_list c.2) <= LOGSIZE }.

Lemma sum_bound (B : list nat) : (forall k, k ∈ B -> (k <= 10)%nat) -> (sum_list B <= 10 * length B)%nat.
Proof.
  induction B as [|k B IH]; intros Hk; [done|]. simpl. pose proof (Hk k ltac:(by left)).
  assert (sum_list B <= 10 * length B)%nat by (apply IH; intros j Hj; apply Hk; by right). lia.
Qed.

Lemma log_write_log i s s' :
  log_write i s = Ok tt s' ->
  exists n bl, xlog s' = set_lh n bl (xlog s) /\ lh_n (xlog s) <= n <= lh_n (xlog s) + 1.
Proof.
  unfold log_write. cbn [bind gets]. unfold bind at 1. cbn [gets].
  destruct (_ || _); [done|]. destruct (_ <? _); [done|]. unfold bind at 1, get_buf, bind at 1. cbn [gets].
  destruct (bufs s !! i) as [b|]; [|done]. cbn [deref ret]. cbv zeta.
  unfold bind, put_buf. cbn [modify]. intros [= <-]. cbn [xlog set_bufs set_xlog]. do 2 eexists.
  split; [done|]. destruct (_ =? _); lia.
Qed.

Lemma lstep_reserved c c' : lstep c c' -> reserved c -> reserved c'.
Proof.
  destruct 1 as [s s' B E|s s' B1 B2 k i E|s s' B1 B2 k E|s s' B E]; intros [Ho Hc Hn He Hr]; cbn [fst snd] in *.
  - unfold begin_op, bind in E. cbn [gets] in E. rewrite Hc in E.
    destruct (Z.ltb_spec LOGSIZE (lh_n (xlog s) + (l_outstanding (xlog s) + 1) * MAXOPBLOCKS)) as [|Hle]; [done|].
    injection E as <-. pose proof (sum_bound B He). change MAXOPBLOCKS with 10 in *.
    constructor; cbn [fst snd xlog set_xlog set_outstanding l_outstanding l_committing lh_n length].
    + lia.
    + done.
    + done.
    + intros j [->|Hj]%elem_of_cons; [done|auto].
    + change (sum_list (Z.to_nat 10 :: B)) with (10 + sum_list B)%nat. lia.
  - destruct (log_write_log i s s' E) as (n & bl & E' & Hb).
    constructor; cbn [fst snd]; rewrite ?E'; cbn [l_outstanding l_committing lh_n set_lh].
    + rewrite Ho, !length_app. simpl. lia.
    + done.
    + lia.
    + intros j [Hj|[->|Hj]%elem_of_cons]%elem_of_app.
      * apply He, elem_of_app. by left.
      * assert (S k <= 10)%nat by (apply He, elem_of_app; right; by left). lia.
      * apply He, elem_of_app. right. by right.
    + rewrite sum_list_with_app in *. simpl in *. lia.
  - unfold end_op in E. unfold bind at 1 in E. cbn [gets] in E. unfold bind at 1 in E. cbn [modify] in E.
    rewrite Hc in E. rewrite length_app in Ho. simpl in Ho. rewrite sum_list_with_app in Hr. simpl in Hr.
    assert (forall j, j ∈ B1 ++ B2 -> (j <= 10)%nat) as He'.
    { intros j [Hj|Hj]%elem_of_app; apply He, elem_of_app; [by left|right; by right]. }
    destruct (Z.eqb_spec (l_outstanding (xlog s) - 1) 0) as [Hz|Hz].
    + unfold bind at 1 in E. cbn [modify] in E. unfold bind in E.
      destruct (commit _) as [[] s1| | | |] eqn:Ec; try done. injection E as <-.
      apply commit_log in Ec. cbn [xlog set_xlog set_committing set_outstanding lh_n] in Ec.
      assert (B1 ++ B2 = []) as ->.
      { apply length_zero_iff_nil. rewrite length_app. lia. }
      constructor; cbn [fst snd xlog set_xlog set_committing l_committing l_outstanding lh_n length];
        rewrite ?Ec; destruct (Z.ltb_spec 0 (lh_n (xlog s)));
        cbn [set_lh set_committing set_outstanding lh_n l_outstanding l_committing fst snd]; try done; try lia.
      * intros j []%not_elem_of_nil.
      * intros j []%not_elem_of_nil.
      * change (sum_list []) with 0%nat. lia.
    + injection E as <-. constructor;
        cbn [fst snd xlog set_xlog set_outstanding l_committing l_outstanding lh_n]; try done.
      * rewrite length_app. lia.
      * rewrite sum_list_with_app. lia.
  - constructor; cbn [fst snd]; rewrite ?E; done.
Qed.

(** With a call in progress that has budget left, log_write finds room. *)
Lemma reserved_log_write s B k i b :
  reserved (s, B) -> S k ∈ B -> bufs s !! i = Some b ->
  lh_n (xlog s) < LOGSIZE /\
  (lh_n (xlog s) < l_size (xlog s) - 1 -> exists s', log_write i s = Ok tt s').
Proof.
  intros [Ho Hc Hn He Hr] Hk Hb. cbn [fst snd] in *.
  apply list_elem_of_split in Hk as (B1 & B2 & ->). rewrite sum_list_with_app in Hr. simpl in Hr.
  rewrite length_app in Ho. simpl in Ho. split; [lia|]. intros Hsz.
  unfold log_write. unfold bind at 1. cbn [gets].
  destruct (Z.leb_spec LOGSIZE (lh_n (xlog s))); [lia|].
  destruct (Z.leb_spec (l_size (xlog s) - 1) (lh_n (xlog s))); [lia|]. cbn [orb].
  destruct (Z.ltb_spec (l_outstanding (xlog s)) 1); [lia|].
  unfold bind at 1, get_buf, bind at 1. cbn [gets]. rewrite Hb. cbn [deref ret]. cbv zeta.
  unfold bind, put_buf. cbn [modify]. eauto.
Qed.
