(* ===== verification/Xv6Fs.v ===== *)
(** * xv6: blocks, inodes, directories and paths (expansion/fs.c)

    The inode cache is [inodes], indexed as the array icache.inode; a
    [struct inode *] that may be null is an [option].  A buffer that a function
    fills for its caller (the [dst] of readi) is returned as the list of bytes
    stored there, one that it reads (the [src] of writei) is passed as the list
    of its bytes.  A C string is the list of its bytes up to the terminating
    zero, which is the value read at the end of the list. *)
From S2P Require Import Prelude Mem Xv6Log.

(** ** fs.h, stat.h, param.h *)

Definition ROOTINO : Z := 1.
Definition NDIRECT : Z := 12.
Definition NINDIRECT : Z := BSIZE / 4.
Definition MAXFILE : Z := NDIRECT + NINDIRECT.
Definition sizeof_dinode : Z := 64.
Definition IPB : Z := BSIZE / sizeof_dinode.
Definition IBLOCK (i : Z) (v : superblock) : Z := i / IPB + sb_inodestart v.
Definition BPB : Z := BSIZE * 8.
Definition BBLOCK (b : Z) (v : superblock) : Z := b / BPB + sb_bmapstart v.
Definition DIRSIZ : Z := 14.
Definition sizeof_dirent : Z := 16.
Definition T_DIR : Z := 1.
Definition T_FILE : Z := 2.
Definition T_DEV : Z := 3.
Definition NDEV : Z := 10.

(** Offsets of the fields of struct dinode number [inum] in its block. *)
Definition di_off (inum : Z) : Z := (inum mod IPB) * sizeof_dinode.
Definition di_type (inum : Z) : Z := di_off inum.
Definition di_major (inum : Z) : Z := di_off inum + 2.
Definition di_minor (inum : Z) : Z := di_off inum + 4.
Definition di_nlink (inum : Z) : Z := di_off inum + 6.
Definition di_size (inum : Z) : Z := di_off inum + 8.
Definition di_addrs (inum k : Z) : Z := di_off inum + 12 + 4 * k.

(** A [short] in memory. *)
Definition s16 (x : Z) : Z := let y := u16 x in if y <? 2^15 then y else y - 2^16.
Definition read16 (m : block) (a : Z) : Z := getb m a + 2^8 * getb m (a + 1).
Definition write16 (m : block) (a v : Z) : block := setb (setb m a v) (a + 1) (v / 2^8).

(** Device drivers: the entries of devsw that are not null. *)
Class Devsw := {
  devsw_read : Z -> option (Z -> Z -> X (Z * list Z));
  devsw_write : Z -> option (Z -> list Z -> Z -> X Z) }.

(** ** Blocks *)

Definition upd_data (i : Z) (f : block -> block) : X unit :=
  let! b := get_buf i in put_buf i (set_data (f (b_data b)) b).

Definition bzero (dev bno : Z) : X unit :=
  let! bp := bread dev bno in
  upd_data bp (fun m => fill m 0 0 (Z.to_nat BSIZE)) ;;;
  log_write bp ;;;
  brelse bp.

(** The bit of the bitmap block with the data [m] for its block number [bi]. *)
Definition bit_used (m : block) (bi : Z) : bool :=
  flag (getb m (bi / 8)) (Z.shiftl 1 (bi mod 8)).

Definition balloc (dev : Z) : X Z :=
  let! v := gets sb in
  let! r := for_each ((fun k => k * BPB) <$> seqZ 0 ((sb_size v + BPB - 1) / BPB)) (fun b =>
    let! bp := bread dev (BBLOCK b v) in
    let! r := for_each (seqZ 0 (Z.min BPB (sb_size v - b))) (fun bi =>
      let! x := get_buf bp in
      if negb (bit_used (b_data x) bi) then
        upd_data bp (fun m => setb m (bi / 8) (Z.lor (getb m (bi / 8)) (Z.shiftl 1 (bi mod 8)))) ;;;
        log_write bp ;;;
        brelse bp ;;;
        bzero dev (b + bi) ;;;
        ret (Some (b + bi))
      else ret None) in
    match r with
    | Some _ => ret r
    | None => brelse bp ;;; ret None
    end) in
  match r with
  | Some b => ret b
  | None => panic "balloc: out of blocks"
  end.

Definition bfree (dev b : Z) : X unit :=
  load_sb dev ;;;
  let! v := gets sb in
  let! bp := bread dev (BBLOCK b v) in
  let bi := b mod BPB in
  let! x := get_buf bp in
  if negb (bit_used (b_data x) bi) then panic "freeing free block"
  else
    upd_data bp (fun m => setb m (bi / 8) (Z.land (getb m (bi / 8)) (Z.lnot (Z.shiftl 1 (bi mod 8))))) ;;;
    log_write bp ;;;
    brelse bp.

(** ** Inodes *)

Definition get_inode (ip : Z) : X inode := let! t := gets inodes in deref (t !! ip).
Definition put_inode (ip : Z) (x : inode) : X unit :=
  modify (fun s => set_inodes (<[ip := x]> (inodes s)) s).

Definition set_iref r x := mkInode (i_dev x) (i_inum x) r (i_lock x) (i_valid x)
  (i_type x) (i_major x) (i_minor x) (i_nlink x) (i_size x) (i_addrs x).
Definition set_ilock l x := mkInode (i_dev x) (i_inum x) (i_ref x) l (i_valid x)
  (i_type x) (i_major x) (i_minor x) (i_nlink x) (i_size x) (i_addrs x).
Definition set_ivalid v x := mkInode (i_dev x) (i_inum x) (i_ref x) (i_lock x) v
  (i_type x) (i_major x) (i_minor x) (i_nlink x) (i_size x) (i_addrs x).
Definition set_itype t x := mkInode (i_dev x) (i_inum x) (i_ref x) (i_lock x) (i_valid x)
  t (i_major x) (i_minor x) (i_nlink x) (i_size x) (i_addrs x).
Definition set_isize z x := mkInode (i_dev x) (i_inum x) (i_ref x) (i_lock x) (i_valid x)
  (i_type x) (i_major x) (i_minor x) (i_nlink x) z (i_addrs x).
Definition set_iaddr k a x := mkInode (i_dev x) (i_inum x) (i_ref x) (i_lock x) (i_valid x)
  (i_type x) (i_major x) (i_minor x) (i_nlink x) (i_size x) (<[k := a]> (i_addrs x)).

(** The fields of a dinode copied into an inode, and back. *)
Definition load_dinode (m : block) (x : inode) : inode :=
  let n := i_inum x in
  mkInode (i_dev x) (i_inum x) (i_ref x) (i_lock x) (i_valid x)
    (s16 (read16 m (di_type n))) (s16 (read16 m (di_major n))) (s16 (read16 m (di_minor n)))
    (s16 (read16 m (di_nlink n))) (read32 m (di_size n))
    (list_to_map ((fun k => (k, read32 m (di_addrs n k))) <$> seqZ 0 (NDIRECT + 1))).

Definition store_dinode (x : inode) (m : block) : block :=
  let n := i_inum x in
  let m := write16 m (di_type n) (i_type x) in
  let m := write16 m (di_major n) (i_major x) in
  let m := write16 m (di_minor n) (i_minor x) in
  let m := write16 m (di_nlink n) (i_nlink x) in
  let m := write32 m (di_size n) (i_size x) in
  foldl (fun m k => write32 m (di_addrs n k) (default 0 (i_addrs x !! k))) m (seqZ 0 (NDIRECT + 1)).

(** The first slot of the cache with a property. *)
Fixpoint find_inode (t : gmap Z inode) (test : inode -> bool) (l : list Z) : option Z :=
  match l with
  | [] => None
  | i :: l' =>
      match t !! i with
      | Some x => if test x then Some i else find_inode t test l'
      | None => find_inode t test l'
      end
  end.

Definition iget (dev inum : Z) : X Z :=
  let! t := gets inodes in
  match find_inode t (fun x => (0 <? i_ref x) && (i_dev x =? dev) && (i_inum x =? inum)) (seqZ 0 NINODE) with
  | Some ip =>
      let! x := get_inode ip in
      put_inode ip (set_iref (i_ref x + 1) x) ;;;
      ret ip
  | None =>
      match find_inode t (fun x => i_ref x =? 0) (seqZ 0 NINODE) with
      | Some ip =>
          let! x := get_inode ip in
          put_inode ip (mkInode dev inum 1 (i_lock x) false
            (i_type x) (i_major x) (i_minor x) (i_nlink x) (i_size x) (i_addrs x)) ;;;
          ret ip
      | None => panic "iget: no inodes"
      end
  end.

Definition ialloc (dev type : Z) : X Z :=
  let! v := gets sb in
  let! r := for_each (seqZ 1 (sb_ninodes v - 1)) (fun inum =>
    let! bp := bread dev (IBLOCK inum v) in
    let! b := get_buf bp in
    if s16 (read16 (b_data b) (di_type inum)) =? 0 then
      upd_data bp (fun m => write16 (fill m (di_off inum) 0 (Z.to_nat sizeof_dinode)) (di_type inum) type) ;;;
      log_write bp ;;;
      brelse bp ;;;
      let! ip := iget dev inum in
      ret (Some ip)
    else
      brelse bp ;;;
      ret None) in
  match r with
  | Some ip => ret ip
  | None => panic "ialloc: no inodes"
  end.

Definition iupdate (ip : Z) : X unit :=
  let! x := get_inode ip in
  let! v := gets sb in
  let! bp := bread (i_dev x) (IBLOCK (i_inum x) v) in
  upd_data bp (store_dinode x) ;;;
  log_write bp ;;;
  brelse bp.

Definition idup (ip : Z) : X Z :=
  let! x := get_inode ip in
  put_inode ip (set_iref (i_ref x + 1) x) ;;;
  ret ip.

(** acquiresleep, releasesleep and holdingsleep on the lock of an inode. *)
Definition acquiresleep_inode (ip : Z) : X unit :=
  let! x := get_inode ip in
  match i_lock x with
  | Some _ => leave
  | None => let! p := gets pid in put_inode ip (set_ilock (Some p) x)
  end.

Definition releasesleep_inode (ip : Z) : X unit :=
  let! x := get_inode ip in put_inode ip (set_ilock None x).

Definition holdingsleep_inode (ip : Z) : X bool :=
  let! x := get_inode ip in
  let! p := gets pid in
  ret (bool_decide (i_lock x = Some p)).

Definition ilock (o : option Z) : X unit :=
  match o with
  | None => panic "ilock"
  | Some ip =>
      let! x := get_inode ip in
      if i_ref x <? 1 then panic "ilock"
      else
        acquiresleep_inode ip ;;;
        let! x := get_inode ip in
        if negb (i_valid x) then
          let! v := gets sb in
          let! bp := bread (i_dev x) (IBLOCK (i_inum x) v) in
          let! b := get_buf bp in
          put_inode ip (load_dinode (b_data b) x) ;;;
          brelse bp ;;;
          let! x := get_inode ip in
          put_inode ip (set_ivalid true x) ;;;
          if i_type x =? 0 then panic "ilock: no type" else ret tt
        else ret tt
  end.

Definition iunlock (o : option Z) : X unit :=
  match o with
  | None => panic "iunlock"
  | Some ip =>
      let! h := holdingsleep_inode ip in
      let! x := get_inode ip in
      if negb h || (i_ref x <? 1) then panic "iunlock" else releasesleep_inode ip
  end.

Definition itrunc (ip : Z) : X unit :=
  for_ (seqZ 0 NDIRECT) (fun i =>
    let! x := get_inode ip in
    let! a := deref (i_addrs x !! i) in
    if negb (a =? 0) then
      bfree (i_dev x) a ;;;
      let! x := get_inode ip in
      put_inode ip (set_iaddr i 0 x)
    else ret tt) ;;;
  let! x := get_inode ip in
  let! a := deref (i_addrs x !! NDIRECT) in
  (if negb (a =? 0) then
    let! bp := bread (i_dev x) a in
    for_ (seqZ 0 NINDIRECT) (fun j =>
      let! b := get_buf bp in
      let aj := read32 (b_data b) (4 * j) in
      if negb (aj =? 0) then bfree (i_dev x) aj else ret tt) ;;;
    brelse bp ;;;
    bfree (i_dev x) a ;;;
    let! x := get_inode ip in
    put_inode ip (set_iaddr NDIRECT 0 x)
  else ret tt) ;;;
  let! x := get_inode ip in
  put_inode ip (set_isize 0 x) ;;;
  iupdate ip.

Definition iput (ip : Z) : X unit :=
  acquiresleep_inode ip ;;;
  let! x := get_inode ip in
  (if i_valid x && (i_nlink x =? 0) && (i_ref x =? 1) then
    itrunc ip ;;;
    let! x := get_inode ip in
    put_inode ip (set_itype 0 x) ;;;
    iupdate ip ;;;
    let! x := get_inode ip in
    put_inode ip (set_ivalid false x)
  else ret tt) ;;;
  releasesleep_inode ip ;;;
  let! x := get_inode ip in
  put_inode ip (set_iref (i_ref x - 1) x).

Definition iunlockput (o : option Z) : X unit :=
  iunlock o ;;;
  let! ip := deref o in
  iput ip.

(** ** Inode content *)

Definition bmap (ip bn : Z) : X Z :=
  if bn <? NDIRECT then
    let! x := get_inode ip in
    let! a := deref (i_addrs x !! bn) in
    if a =? 0 then
      let! a := balloc (i_dev x) in
      let! x := get_inode ip in
      put_inode ip (set_iaddr bn a x) ;;;
      ret a
    else ret a
  else
    let bn := bn - NDIRECT in
    if bn <? NINDIRECT then
      let! x := get_inode ip in
      let! a := deref (i_addrs x !! NDIRECT) in
      let! a :=
        (if a =? 0 then
          let! a := balloc (i_dev x) in
          let! x := get_inode ip in
          put_inode ip (set_iaddr NDIRECT a x) ;;;
          ret a
        else ret a) in
      let! bp := bread (i_dev x) a in
      let! b := get_buf bp in
      let a := read32 (b_data b) (4 * bn) in
      let! a :=
        (if a =? 0 then
          let! a := balloc (i_dev x) in
          upd_data bp (fun m => write32 m (4 * bn) a) ;;;
          log_write bp ;;;
          ret a
        else ret a) in
      brelse bp ;;;
      ret a
    else panic "bmap: out of range".

(** struct stat. *)
Record stat := mkStat { st_type : Z; st_dev : Z; st_ino : Z; st_nlink : Z; st_size : Z }.

Definition stati (ip : Z) : X stat :=
  let! x := get_inode ip in
  ret (mkStat (i_type x) (s32 (i_dev x)) (i_inum x) (i_nlink x) (i_size x)).

Section devsw.
Context `{Devsw}.

(** The bytes copied to [dst] in one round of readi, [tot] of [n] being done. *)
Definition io_chunk (n tot off : Z) : Z := Z.min (n - tot) (BSIZE - off mod BSIZE).

Definition readi (ip off n : Z) : X (Z * list Z) :=
  let! x := get_inode ip in
  if i_type x =? T_DEV then
    if (i_major x <? 0) || (NDEV <=? i_major x) then ret (-1, [])
    else
      match devsw_read (i_major x) with
      | None => ret (-1, [])
      | Some f => f ip n
      end
  else if (i_size x <? off) || (u32 (off + n) <? off) then ret (-1, [])
  else
    let n := if i_size x <? off + n then i_size x - off else n in
    loop (Z.to_nat n + 1) (fun '(tot, off, dst) =>
      if tot <? n then
        let! x := get_inode ip in
        let! a := bmap ip (off / BSIZE) in
        let! bp := bread (i_dev x) a in
        let m := io_chunk n tot off in
        let! b := get_buf bp in
        let dst := dst ++ bytes_at (b_data b) (off mod BSIZE) (Z.to_nat m) in
        brelse bp ;;;
        ret (inl (tot + m, off + m, dst))
      else ret (inr (n, dst))) (0, off, []).

Definition writei (ip : Z) (src : list Z) (off n : Z) : X Z :=
  let! x := get_inode ip in
  if i_type x =? T_DEV then
    if (i_major x <? 0) || (NDEV <=? i_major x) then ret (-1)
    else
      match devsw_write (i_major x) with
      | None => ret (-1)
      | Some f => f ip src n
      end
  else if (i_size x <? off) || (u32 (off + n) <? off) then ret (-1)
  else if MAXFILE * BSIZE <? off + n then ret (-1)
  else
    let! off := loop (Z.to_nat n + 1) (fun '(tot, off) =>
      if tot <? n then
        let! x := get_inode ip in
        let! a := bmap ip (off / BSIZE) in
        let! bp := bread (i_dev x) a in
        let m := io_chunk n tot off in
        upd_data bp (fun d => put_bytes d (off mod BSIZE) (take (Z.to_nat m) (drop (Z.to_nat tot) src))) ;;;
        log_write bp ;;;
        brelse bp ;;;
        ret (inl (tot + m, off + m))
      else ret (inr off)) (0, off) in
    let! x := get_inode ip in
    (if (0 <? n) && (i_size x <? off) then
      put_inode ip (set_isize off x) ;;;
      iupdate ip
    else ret tt) ;;;
    ret n.

(** ** Directories *)

(** The first byte of a C string. *)
Definition chr (s : list Z) : Z := default 0 (head s).

(** strncmp and strncpy of string.c. *)
Fixpoint strncmp (p q : list Z) (n : nat) : Z :=
  match n with
  | O => 0
  | S n' => if negb (chr p =? 0) && (chr p =? chr q) then strncmp (tail p) (tail q) n' else chr p - chr q
  end.

Fixpoint strncpy (t : list Z) (n : nat) : list Z :=
  match n with
  | O => []
  | S n' => chr t :: (if chr t =? 0 then replicate n' 0 else strncpy (tail t) n')
  end.

Definition namecmp (s t : list Z) : Z := strncmp s t (Z.to_nat DIRSIZ).

(** A struct dirent in memory. *)
Definition de_inum (de : list Z) : Z := chr de + 2^8 * chr (tail de).
Definition de_name (de : list Z) : list Z := drop 2 de.

(** The offsets of the entries of a directory of the given size. *)
Definition dir_offs (size : Z) : list Z :=
  (fun k => k * sizeof_dirent) <$> seqZ 0 ((size + sizeof_dirent - 1) / sizeof_dirent).

Definition dirlookup (dp : Z) (name : list Z) : X (option (Z * Z)) :=
  let! x := get_inode dp in
  if negb (i_type x =? T_DIR) then panic "dirlookup not DIR"
  else for_each (dir_offs (i_size x)) (fun off =>
    let! (r, de) := readi dp off sizeof_dirent in
    if negb (r =? sizeof_dirent) then panic "dirlookup read"
    else if de_inum de =? 0 then ret None
    else if namecmp name (de_name de) =? 0 then
      let! ip := iget (i_dev x) (de_inum de) in
      ret (Some (ip, off))
    else ret None).

Definition dirlink (dp : Z) (name : list Z) (inum : Z) : X Z :=
  let! r := dirlookup dp name in
  match r with
  | Some (ip, _) => iput ip ;;; ret (-1)
  | None =>
      let! x := get_inode dp in
      let! r := for_each (dir_offs (i_size x)) (fun off =>
        let! (r, de) := readi dp off sizeof_dirent in
        if negb (r =? sizeof_dirent) then panic "dirlink read"
        else if de_inum de =? 0 then ret (Some off)
        else ret None) in
      let off := match r with Some off => off
        | None => (i_size x + sizeof_dirent - 1) / sizeof_dirent * sizeof_dirent end in
      let de := u8 inum :: u8 (u16 inum / 2^8) :: strncpy name (Z.to_nat DIRSIZ) in
      let! r := writei dp de off sizeof_dirent in
      if negb (r =? sizeof_dirent) then panic "dirlink" else ret 0
  end.

(** ** Paths *)

Definition slash : Z := 47.

Fixpoint skip_slashes (path : list Z) : list Z :=
  match path with
  | c :: p => if c =? slash then skip_slashes p else path
  | [] => []
  end.

(** The element at the start of [path] and what follows it. *)
Fixpoint split_elem (path : list Z) : list Z * list Z :=
  match path with
  | c :: p =>
      if (c =? slash) || (c =? 0) then ([], path)
      else let '(e, r) := split_elem p in (c :: e, r)
  | [] => ([], [])
  end.

(** The rest of the path and the name, or None for the null pointer. *)
Definition skipelem (path : list Z) : option (list Z * list Z) :=
  let path := skip_slashes path in
  if chr path =? 0 then None
  else
    let '(e, r) := split_elem path in
    Some (skip_slashes r, take (Z.to_nat DIRSIZ) e).

Definition namex (path : list Z) (nameiparent : bool) : X (option (Z * list Z)) :=
  let! ip := (if chr path =? slash then iget ROOTDEV ROOTINO
              else let! c := gets cwd in idup c) in
  loop (length path + 1) (fun '(ip, path, name) =>
    match skipelem path with
    | None =>
        if nameiparent then iput ip ;;; ret (inr None)
        else ret (inr (Some (ip, name)))
    | Some (path, name) =>
        ilock (Some ip) ;;;
        let! x := get_inode ip in
        if negb (i_type x =? T_DIR) then
          iunlockput (Some ip) ;;;
          ret (inr None)
        else if nameiparent && (chr path =? 0) then
          iunlock (Some ip) ;;;
          ret (inr (Some (ip, name)))
        else
          let! next := dirlookup ip name in
          match next with
          | None => iunlockput (Some ip) ;;; ret (inr None)
          | Some (next, _) =>
              iunlockput (Some ip) ;;;
              ret (inl (next, path, name))
          end
    end) (ip, path, []).

Definition namei (path : list Z) : X (option Z) :=
  let! r := namex path false in ret (fmap fst r).

Definition nameiparent (path : list Z) : X (option (Z * list Z)) := namex path true.
End devsw.
