(* ===== verification/Xv6Alloc.v ===== *)
(** * The block allocator of xv6 inside a transaction (expansion/fs.c)

    bzero, balloc and bfree change blocks through the log.  The bitmap is read
    through the transaction's view [vget d D] of the disk. *)
From S2P Require Import Prelude Mem Xv6Log Xv6Cache Xv6Crash Xv6Recover Xv6Txn Xv6Fs.

Section alloc.
Implicit Types (s : xst) (d D : gmap Z block) (H : gmap Z buf) (L : list Z).

(** Room in the log and in the cache for [c] more blocks. *)
Definition room s H L (c : Z) : Prop := Z.of_nat (length L + size H) + c < l_size (xlog s).

Lemma tx_size s d D H L : tx s d D H L -> (size D <= length L)%nat.
Proof.
  intros T. rewrite <- size_dom. change (size (dom D)) with (length (elements (dom D : gset Z))).
  apply submseteq_length, NoDup_submseteq; [apply NoDup_elements|].
  intros n Hn'%elem_of_elements%elem_of_dom. by apply (t_only _ _ _ _ _ T).
Qed.

Lemma room_cache s d D H L : tx s d D H L -> room s H L 0 -> (size D + size H < Z.to_nat NBUF)%nat.
Proof.
  intros T Hr. pose proof (tx_size _ _ _ _ _ T). pose proof (t_room _ _ _ _ _ T) as [_ Hz].
  unfold room in Hr. change LOGSIZE with 30 in Hz. change (Z.to_nat NBUF) with 30%nat. lia.
Qed.

Lemma log_add_length n L : (length (log_add n L) <= length L + 1)%nat.
Proof. unfold log_add. case_decide; [lia|]. rewrite length_app. simpl. lia. Qed.

(** A block that may be written through the log. *)
Definition writable s (n : Z) : Prop := home (xlog s) n /\ 0 <= n < disksize s.

Lemma tstep_writable s s' n : tstep s s' -> writable s n -> writable s' n.
Proof. intros (_ & E & _ & (E1 & E2 & _)) Hw. unfold writable, home in *. by rewrite E, E1, E2. Qed.

Lemma tstep_room s s' H L c : tstep s s' -> room s H L c -> room s' H L c.
Proof. intros (_ & _ & _ & (_ & E & _)). unfold room. by rewrite E. Qed.

Lemma tstep_out s s' : tstep s s' -> l_outstanding (xlog s') = l_outstanding (xlog s).
Proof. by intros (_ & _ & _ & (_ & _ & _ & E & _)). Qed.

Lemma tstep_sb s s' : tstep s s' -> sb s' = sb s.
Proof. intros (E & _). unfold ident in E. congruence. Qed.

Lemma tstep_inodes s s' : tstep s s' -> inodes s' = inodes s.
Proof. intros (E & _). unfold ident in E. congruence. Qed.

(** Reading a block: afterwards the buffer is held. *)
Lemma tx_get_ok s d D H L n :
  tx s d D H L -> unheld H n -> n < disksize s -> room s H L 0 ->
  wp (bread 1 n) (fun i s' => tstep s s' /\ H !! i = None /\
    tx s' d (delete n D) (<[i := loaded s d D n]> H) L) s.
Proof. intros T Hu Hn Hr. apply tx_bread_ok; [done..|]. right. by eapply room_cache. Qed.

(** Releasing a buffer that was only read. *)
Lemma tx_release_ok s s0 d D H L i n :
  tx s d (delete n D) (<[i := loaded s0 d D n]> H) L -> H !! i = None ->
  wp (brelse i) (fun _ s' => tstep s s' /\ tx s' d D H L) s.
Proof.
  intros T Hi. eapply wp_mono; [eapply (tx_brelse_ok _ _ _ _ _ _ _ T); [apply lookup_insert_eq|]|].
  - simpl. intros Hd%bool_decide_eq_false. unfold vget.
    destruct (D !! n); [by destruct Hd; eauto|done].
  - intros _ s' [St T']. split; [done|]. cbn [b_dirty b_blockno b_data loaded] in T'.
    rewrite delete_insert_id in T' by done. case_bool_decide as Hd.
    + destruct Hd as [x Hx]. unfold vget in T'. rewrite Hx in T'. simpl in T'.
      by rewrite insert_delete_eq, insert_id in T'.
    + rewrite delete_id in T'; [done|]. by apply eq_None_not_Some.
Qed.

(** Changing a held buffer, logging it and releasing it. *)
Lemma tx_modify_ok s d D H L i b f :
  tx s d D H L -> H !! i = Some b -> writable s (b_blockno b) ->
  Z.of_nat (length L) + 1 < l_size (xlog s) -> 1 <= l_outstanding (xlog s) ->
  wp (upd_data i f ;;; log_write i ;;; brelse i) (fun _ s' => tstep s s' /\
    tx s' d (<[b_blockno b := f (b_data b)]> D) (delete i H) (log_add (b_blockno b) L)) s.
Proof.
  intros T Hi [Hh Hn] Hr Ho. unfold wp, upd_data. apply wpe_bind, wpe_bind.
  destruct (br_held _ _ _ _ (t_rep _ _ _ _ _ T) i b Hi) as (Hb & _).
  apply (wpe_get_buf _ b); [done|]. apply wpe_put_buf. cbn beta.
  pose proof (tx_put _ _ _ _ _ _ _ (f (b_data b)) T Hi) as T1. apply wpe_bind.
  eapply wp_wpe; [eapply (log_write_ok _ _ _ _ _ _ _ T1); [apply lookup_insert_eq|done..]|].
  intros _ s2 [St2 T2]. cbn beta. rewrite insert_insert_eq in T2. cbn [b_blockno set_data] in T2.
  eapply wp_wpe; [eapply (tx_brelse_ok _ _ _ _ _ _ _ T2); [apply lookup_insert_eq|done]|].
  intros _ s3 [St3 T3]. cbn [b_dirty set_flags b_blockno set_data b_data] in T3.
  rewrite delete_insert_eq in T3. split; [|done]. etransitivity; [|exact St3]. exact St2.
Qed.

Lemma bzero_ok s d D H L n :
  tx s d D H L -> unheld H n -> writable s n -> room s H L 1 -> 1 <= l_outstanding (xlog s) ->
  wp (bzero 1 n) (fun _ s' => tstep s s' /\
    tx s' d (<[n := fill (vget d D n) 0 0 (Z.to_nat BSIZE)]> D) H (log_add n L)) s.
Proof.
  intros T Hu Hw Hr Ho. unfold wp, bzero. apply wpe_bind. unfold room in Hr.
  eapply wp_wpe; [apply (tx_get_ok s d D H L n T Hu); [apply Hw|unfold room; lia]|].
  intros i s1 (St1 & Hi & T1). cbn beta.
  pose proof (tstep_out _ _ St1). pose proof St1 as (_ & _ & _ & (_ & Hz & _)).
  eapply wp_wpe; [eapply (tx_modify_ok _ _ _ _ _ _ _ _ T1); [apply lookup_insert_eq|..]|].
  - by eapply tstep_writable.
  - rewrite Hz. lia.
  - lia.
  - intros _ s2 [St2 T2]. split; [by etransitivity|]. simpl in T2.
    by rewrite insert_delete_eq, delete_insert_id in T2.
Qed.
(** ** The bitmap *)

Lemma bit_used_testbit m bi : bit_used m bi = Z.testbit (getb m (bi / 8)) (bi mod 8).
Proof. unfold bit_used. apply flag_testbit. apply Z.mod_pos_bound. lia. Qed.

Lemma u8_testbit x j : 0 <= j < 8 -> Z.testbit (u8 x) j = Z.testbit x j.
Proof. intros Hj. unfold u8. by rewrite Z.mod_pow2_bits_low by lia. Qed.

Definition mark (m : block) (bi : Z) : block :=
  setb m (bi / 8) (Z.lor (getb m (bi / 8)) (Z.shiftl 1 (bi mod 8))).
Definition unmark (m : block) (bi : Z) : block :=
  setb m (bi / 8) (Z.land (getb m (bi / 8)) (Z.lnot (Z.shiftl 1 (bi mod 8)))).

Lemma bit_same bi bj : 0 <= bi -> 0 <= bj -> bi / 8 = bj / 8 -> (bi mod 8 =? bj mod 8) = (bi =? bj).
Proof.
  intros H1 H2 E. pose proof (Z.div_mod bi 8). pose proof (Z.div_mod bj 8).
  destruct (Z.eqb_spec bi bj) as [->|Hne]; [by rewrite Z.eqb_refl|].
  destruct (Z.eqb_spec (bi mod 8) (bj mod 8)); lia.
Qed.

Lemma bit_used_mark m bi bj :
  0 <= bi -> 0 <= bj -> bit_used (mark m bi) bj = (bi =? bj) || bit_used m bj.
Proof.
  intros H1 H2. rewrite !bit_used_testbit. unfold mark. rewrite getb_setb.
  pose proof (Z.mod_pos_bound bj 8). case_decide as E.
  - rewrite u8_testbit, Z.lor_spec, Z.shiftl_1_l, Z.pow2_bits_eqb, E by (try apply Z.mod_pos_bound; lia).
    rewrite bit_same by done. apply orb_comm.
  - destruct (Z.eqb_spec bi bj); [congruence|done].
Qed.

Lemma bit_used_unmark m bi bj :
  0 <= bi -> 0 <= bj -> bit_used (unmark m bi) bj = negb (bi =? bj) && bit_used m bj.
Proof.
  intros H1 H2. rewrite !bit_used_testbit. unfold unmark. rewrite getb_setb.
  pose proof (Z.mod_pos_bound bj 8). case_decide as E.
  - rewrite u8_testbit, Z.land_spec, Z.lnot_spec, Z.shiftl_1_l, Z.pow2_bits_eqb, E
      by (try apply Z.mod_pos_bound; lia).
    rewrite bit_same by done. apply andb_comm.
  - destruct (Z.eqb_spec bi bj); [congruence|done].
Qed.

(** Block [b] is marked in use in the view [V]. *)
Definition used (V : Z -> block) (v : superblock) (b : Z) : bool := bit_used (V (BBLOCK b v)) (b mod BPB).

(** Where the allocator works: the bitmap blocks can be written and are not
    held, and the blocks marked free are none of them. *)
Record bitmap_ok s d D H (v : superblock) : Prop := mk_bitmap_ok {
  bm_size : 0 <= sb_size v;
  bm_blocks b : 0 <= b < sb_size v -> writable s (BBLOCK b v) /\ unheld H (BBLOCK b v);
  bm_free b : 0 <= b < sb_size v -> used (vget d D) v b = false ->
    writable s b /\ unheld H b /\ forall b', 0 <= b' < sb_size v -> BBLOCK b' v <> b }.

(** The allocation of block [b]. *)
Record took d D (v : superblock) (b : Z) D' : Prop := mk_took {
  tk_range : 0 <= b < sb_size v;
  tk_free : used (vget d D) v b = false;
  tk_least b' : 0 <= b' < b -> used (vget d D) v b' = true;
  tk_zero a : 0 <= a < BSIZE -> getb (vget d D' b) a = 0;
  tk_bits b' : 0 <= b' < sb_size v -> used (vget d D') v b' = (b =? b') || used (vget d D) v b';
  tk_other n : n <> b -> n <> BBLOCK b v -> vget d D' n = vget d D n }.

Lemma BBLOCK_split v k bi :
  0 <= bi < BPB -> BBLOCK (k * BPB + bi) v = BBLOCK (k * BPB) v /\ (k * BPB + bi) mod BPB = bi.
Proof.
  intros Hb. unfold BBLOCK. change BPB with 4096 in *.
  rewrite Z.div_add_l, Z.div_mul, (Z.div_small bi) by lia. split; [lia|].
  by rewrite Z.add_comm, Z.mod_add, Z.mod_small by lia.
Qed.

Lemma vget_insert d D n x m : vget d (<[n := x]> D) m = if decide (n = m) then x else vget d D m.
Proof. unfold vget. rewrite lookup_insert. by case_decide. Qed.

Lemma took_intro s d D H v b :
  bitmap_ok s d D H v -> 0 <= b < sb_size v -> used (vget d D) v b = false ->
  (forall b', 0 <= b' < b -> used (vget d D) v b' = true) ->
  took d D v b (<[b := fill (vget d (<[BBLOCK b v := mark (vget d D (BBLOCK b v)) (b mod BPB)]> D) b)
      0 0 (Z.to_nat BSIZE)]> (<[BBLOCK b v := mark (vget d D (BBLOCK b v)) (b mod BPB)]> D)).
Proof.
  intros B Hb Hf Hl. destruct (bm_free _ _ _ _ _ B b Hb Hf) as (_ & _ & Hne).
  constructor; [done..| | |].
  - intros a Ha. rewrite vget_insert, decide_True, getb_fill by done. change (Z.of_nat (Z.to_nat BSIZE)) with BSIZE.
    rewrite decide_True by lia. done.
  - intros b' Hb'. unfold used. rewrite !vget_insert. rewrite decide_False by (intros E; by apply (Hne b')).
    case_decide as E; [|].
    + rewrite <- E. rewrite bit_used_mark by (apply Z.mod_pos_bound; done). f_equal.
      unfold BBLOCK in E. pose proof (Z.div_mod b BPB ltac:(done)). pose proof (Z.div_mod b' BPB ltac:(done)).
      destruct (Z.eqb_spec b b') as [->|Hn]; [apply Z.eqb_refl|].
      destruct (Z.eqb_spec (b mod BPB) (b' mod BPB)); nia.
    + destruct (Z.eqb_spec b b') as [->|]; [by destruct E|done].
  - intros n H1 H2. rewrite !vget_insert, !decide_False by congruence. done.
Qed.

(** A run of three commands followed by a fourth. *)
Lemma wp_then {A B C E} s (m1 : X A) (m2 : X B) (m3 : X C) (m4 : X E) Q :
  wp (m1 ;;; m2 ;;; m3) (fun _ s' => wp m4 Q s') s -> wp (m1 ;;; m2 ;;; m3 ;;; m4) Q s.
Proof.
  unfold wp, wpe, bind. destruct (m1 s); [|done..]. destruct (m2 _); [|done..]. by destruct (m3 _).
Qed.

(** The branch of balloc that found the free bit [bi] of the block read. *)
Lemma balloc_found_ok s s0 d D H L i k bi :
  let v := sb s0 in let b := k * BPB + bi in
  tstep s0 s -> H !! i = None ->
  tx s d (delete (BBLOCK (k * BPB) v) D) (<[i := loaded s0 d D (BBLOCK (k * BPB) v)]> H) L ->
  bitmap_ok s0 d D H v -> room s0 H L 2 -> 1 <= l_outstanding (xlog s0) ->
  0 <= bi < BPB -> 0 <= b < sb_size v -> used (vget d D) v b = false ->
  (forall b', 0 <= b' < b -> used (vget d D) v b' = true) ->
  wp (upd_data i (fun m => mark m bi) ;;; log_write i ;;; brelse i ;;; bzero 1 b ;;; ret (Some b))
    (fun r s' => r = Some b /\ tstep s0 s' /\ exists D',
      tx s' d D' H (log_add b (log_add (BBLOCK b v) L)) /\ took d D v b D') s.
Proof.
  intros v b St Hi T B Hr Ho Hbi Hb Hf Hl. destruct (BBLOCK_split v k bi Hbi) as [Eb Em].
  fold b in Eb, Em. destruct (bm_blocks _ _ _ _ _ B b Hb) as [Hw Hu]. pose proof St as (_ & _ & _ & (_ & Hz & _)).
  pose proof (tstep_out _ _ St) as Ho'. unfold room in Hr. unfold wp.
  apply wp_then. eapply wp_mono; [eapply (tx_modify_ok _ _ _ _ _ _ _ _ T); [apply lookup_insert_eq|..]|].
  - cbn [b_blockno loaded]. rewrite <- Eb. by eapply tstep_writable.
  - rewrite Hz. lia.
  - lia.
  - intros _ s1 [St1 T1]. cbn [b_blockno loaded b_data] in T1. cbn beta.
    rewrite insert_delete_eq, delete_insert_id in T1 by done. rewrite <- Eb in T1.
    assert (tstep s0 s1) as St01 by (by etransitivity).
    destruct (bm_free _ _ _ _ _ B b Hb Hf) as (Hwb & Hub & Hnb).
    unfold wp. apply wpe_bind. eapply wp_wpe; [apply (bzero_ok _ _ _ _ _ b T1 Hub)|].
    + by eapply tstep_writable.
    + unfold room. destruct St01 as (_ & _ & _ & (_ & -> & _)).
      pose proof (log_add_length (BBLOCK b v) L). lia.
    + rewrite (tstep_out _ _ St01). done.
    + intros _ s2 [St2 T2]. wp_steps. split; [done|]. split; [by etransitivity|]. eexists. split; [exact T2|].
      rewrite <- Em. by eapply took_intro.
Qed.

Lemma balloc_ok s d D H L :
  tx s d D H L -> bitmap_ok s d D H (sb s) -> room s H L 2 -> 1 <= l_outstanding (xlog s) ->
  (exists b, 0 <= b < sb_size (sb s) /\ used (vget d D) (sb s) b = false) ->
  wp (balloc 1) (fun b s' => tstep s s' /\ exists D',
    tx s' d D' H (log_add b (log_add (BBLOCK b (sb s)) L)) /\ took d D (sb s) b D') s.
Proof.
  intros T B Hr Ho (bf & Hbf & Hff). set (v := sb s) in *. unfold wp, balloc. apply wpe_bind, wpe_gets. fold v.
  rewrite for_each_fmap. apply wpe_bind.
  pose (Q := fun (r : option Z) s' => exists b, r = Some b /\ tstep s s' /\ exists D',
    tx s' d D' H (log_add b (log_add (BBLOCK b v) L)) /\ took d D v b D').
  set (nb := (sb_size v + BPB - 1) / BPB). change BPB with 4096 in nb.
  eapply wp_wpe; [apply (wp_for_each_upto _ (fun k s' => tstep s s' /\ tx s' d D H L /\
    forall b', 0 <= b' < k * BPB -> b' < sb_size v -> used (vget d D) v b' = true) Q)|].
  - unfold nb. apply Z.div_pos; lia.
  - split; [done|]. split; [done|]. intros b' Hb'. lia.
  - intros k s1 Hk (St1 & T1 & Hl1).
    assert (k * BPB < sb_size v) as Hkb.
    { change BPB with 4096. unfold nb in Hk. pose proof (Z.mul_div_le (sb_size v + 4096 - 1) 4096 ltac:(lia)). lia. }
    assert (0 <= k * BPB) as Hk0 by (change BPB with 4096; lia).
    destruct (bm_blocks _ _ _ _ _ B (k * BPB) ltac:(lia)) as [[Hwh Hwn] Hu].
    unfold wp. apply wpe_bind. unfold room in Hr.
    eapply wp_wpe; [apply (tx_get_ok s1 d D H L _ T1 Hu)|].
    { destruct St1 as (_ & -> & _). lia. }
    { unfold room. destruct St1 as (_ & _ & _ & (_ & -> & _)). lia. }
    intros i s2 (St2 & Hi & T2). cbn beta. assert (tstep s s2) as St02 by (by etransitivity).
    assert (loaded s1 d D (BBLOCK (k * BPB) v) = loaded s d D (BBLOCK (k * BPB) v)) as El.
    { unfold loaded. destruct St1 as (Ei & _). by rewrite (ident_pid _ _ Ei). }
    rewrite El in T2. apply wpe_bind.
    eapply wp_wpe; [apply (wp_for_each_upto _ (fun bi s' => s' = s2 /\
      forall b', 0 <= b' < k * BPB + bi -> b' < sb_size v -> used (vget d D) v b' = true)
      (fun r s' => match r with Some b => Q (Some b) s' | None => s' = s2 /\
        forall b', 0 <= b' < (k + 1) * BPB -> b' < sb_size v -> used (vget d D) v b' = true end))|].
    + apply Z.min_glb; [done|lia].
    + split; [done|]. intros b' Hb'. apply Hl1. lia.
    + intros bi s3 Hbi [-> Hl]. assert (0 <= bi < BPB /\ k * BPB + bi < sb_size v) as [Hb1 Hb2] by lia.
      destruct (br_held _ _ _ _ (t_rep _ _ _ _ _ T2) i _ (lookup_insert_eq _ _ _)) as (Hb & _).
      unfold wp. apply wpe_bind. eapply wpe_get_buf; [exact Hb|]. cbn [b_data loaded].
      destruct (BBLOCK_split v k bi Hb1) as [Eb Em].
      assert (used (vget d D) v (k * BPB + bi) = bit_used (vget d D (BBLOCK (k * BPB) v)) bi) as Eu.
      { unfold used. by rewrite Eb, Em. }
      rewrite <- Eu. destruct (used (vget d D) v (k * BPB + bi)) eqn:E; cbn [negb].
      * wp_steps. split; [done|]. intros b' Hb' Hs. destruct (decide (b' = k * BPB + bi)) as [->|]; [done|].
        apply Hl; lia.
      * assert (0 <= k * BPB + bi < sb_size v) as Hrng by lia.
        assert (forall b', 0 <= b' < k * BPB + bi -> used (vget d D) v b' = true) as Hleast
          by (intros b' Hb'; apply Hl; lia).
        pose proof (balloc_found_ok s2 s d D H L i k bi St02 Hi T2 B Hr Ho Hb1 Hrng E Hleast) as Hfound.
        eapply wp_wpe; [exact Hfound|]. intros r s' (-> & St' & D' & T' & Tk). unfold Q. eauto 10.
    + intros s' [-> Hl]. split; [done|]. intros b' Hb' Hs. apply Hl; [|done]. lia.
    + intros r s3. destruct r as [b|]; cbn beta; [intros HQ; by wp_steps|]. intros [-> Hl].
      apply wpe_bind. eapply wp_wpe; [eapply tx_release_ok; [exact T2|done]|].
      intros _ s4 [St4 T4]. wp_steps. split; [by etransitivity|]. done.
  - intros s' (_ & _ & Hl). exfalso. rewrite Hl in Hff; [done| |lia].
    change BPB with 4096. unfold nb. pose proof (Z.mul_succ_div_gt (sb_size v + 4096 - 1) 4096 ltac:(lia)). lia.
  - intros r s' (b & -> & St' & HD). by wp_steps.
Qed.

(** ** bfree *)

Lemma set_sb_same s v : sb s = v -> set_sb v s = s.
Proof. intros <-. by destruct s. Qed.

Lemma load_sb_ok s d D H L :
  tx s d D H L -> unheld H 1 -> 1 < disksize s -> room s H L 0 -> sb s = sb_of (vget d D 1) ->
  wp (load_sb 1) (fun _ s' => tstep s s' /\ tx s' d D H L) s.
Proof.
  intros T Hu Hn Hr Hsb. unfold wp, load_sb, readsb. apply wpe_bind, wpe_bind.
  eapply wp_wpe; [by apply (tx_get_ok s d D H L 1)|]. intros i s1 (St1 & Hi & T1). cbn beta.
  destruct (br_held _ _ _ _ (t_rep _ _ _ _ _ T1) i _ (lookup_insert_eq _ _ _)) as (Hb & _).
  apply wpe_bind. eapply wpe_get_buf; [exact Hb|]. apply wpe_bind.
  eapply wp_wpe; [eapply tx_release_ok; [exact T1|done]|]. intros _ s2 [St2 T2]. cbn beta. wp_steps.
  cbn [b_data loaded]. rewrite set_sb_same; [split; [by etransitivity|done]|].
  by rewrite (tstep_sb _ _ St2), (tstep_sb _ _ St1).
Qed.

(** The release of block [b]. *)
Record gave d D (v : superblock) (b : Z) D' : Prop := mk_gave {
  gv_bits b' : 0 <= b' < sb_size v -> used (vget d D') v b' = negb (b =? b') && used (vget d D) v b';
  gv_other n : n <> BBLOCK b v -> vget d D' n = vget d D n }.

Lemma gave_intro d D v b :
  0 <= b < sb_size v -> gave d D v b (<[BBLOCK b v := unmark (vget d D (BBLOCK b v)) (b mod BPB)]> D).
Proof.
  intros Hb. constructor.
  - intros b' Hb'. unfold used. rewrite vget_insert. case_decide as E.
    + rewrite <- E. rewrite bit_used_unmark by (apply Z.mod_pos_bound; done). do 2 f_equal.
      unfold BBLOCK in E. pose proof (Z.div_mod b BPB ltac:(done)). pose proof (Z.div_mod b' BPB ltac:(done)).
      destruct (Z.eqb_spec b b') as [->|Hn]; [apply Z.eqb_refl|].
      destruct (Z.eqb_spec (b mod BPB) (b' mod BPB)); nia.
    + destruct (Z.eqb_spec b b') as [->|]; [by destruct E|done].
  - intros n Hn. by rewrite vget_insert, decide_False.
Qed.

Lemma bfree_ok s d D H L b :
  tx s d D H L -> sb s = sb_of (vget d D 1) -> unheld H 1 -> 1 < disksize s ->
  0 <= b < sb_size (sb s) -> writable s (BBLOCK b (sb s)) -> unheld H (BBLOCK b (sb s)) ->
  room s H L 1 -> 1 <= l_outstanding (xlog s) -> used (vget d D) (sb s) b = true ->
  wp (bfree 1 b) (fun _ s' => tstep s s' /\ exists D',
    tx s' d D' H (log_add (BBLOCK b (sb s)) L) /\ gave d D (sb s) b D') s.
Proof.
  intros T Hsb Hu1 Hn Hb Hw Hu Hr Ho Hub. unfold wp, bfree. apply wpe_bind. unfold room in Hr.
  eapply wp_wpe; [apply (load_sb_ok s d D H L); [done..|unfold room; lia|done]|].
  intros _ s1 [St1 T1]. cbn beta. apply wpe_bind, wpe_gets. rewrite (tstep_sb _ _ St1).
  pose proof (tstep_writable _ _ _ St1 Hw) as Hw1. apply wpe_bind.
  eapply wp_wpe; [apply (tx_get_ok s1 d D H L _ T1 Hu); [apply Hw1|]|].
  { unfold room. destruct St1 as (_ & _ & _ & (_ & -> & _)). lia. }
  intros i s2 (St2 & Hi & T2). cbn beta zeta. assert (tstep s s2) as St02 by (by etransitivity).
  destruct (br_held _ _ _ _ (t_rep _ _ _ _ _ T2) i _ (lookup_insert_eq _ _ _)) as (Hbb & _).
  apply wpe_bind. eapply wpe_get_buf; [exact Hbb|]. cbn [b_data loaded].
  change (bit_used (vget d D (BBLOCK b (sb s))) (b mod BPB)) with (used (vget d D) (sb s) b).
  rewrite Hub. cbn [negb].
  eapply wp_wpe; [eapply (tx_modify_ok _ _ _ _ _ _ _ _ T2); [apply lookup_insert_eq|..]|].
  - cbn [b_blockno loaded]. by eapply tstep_writable.
  - destruct St02 as (_ & _ & _ & (_ & -> & _)). lia.
  - by rewrite (tstep_out _ _ St02).
  - intros _ s3 [St3 T3]. cbn [b_blockno loaded b_data] in T3.
    rewrite insert_delete_eq, delete_insert_id in T3 by done.
    split; [by etransitivity|]. eexists. split; [exact T3|]. by apply gave_intro.
Qed.

(** A block that is marked free already is not freed again. *)
Lemma bfree_free_panics s d D H L b :
  tx s d D H L -> sb s = sb_of (vget d D 1) -> unheld H 1 -> 1 < disksize s ->
  writable s (BBLOCK b (sb s)) -> unheld H (BBLOCK b (sb s)) -> room s H L 0 ->
  used (vget d D) (sb s) b = false -> bfree 1 b s = Panic "freeing free block".
Proof.
  intros T Hsb Hu1 Hn Hw Hu Hr Hub. unfold bfree.
  eapply bind_wp_eq; [by apply (load_sb_ok s d D H L)|]. intros _ s1 [St1 T1]. cbn beta.
  eapply bind_wp_eq with (Q := fun v s' => v = sb s1 /\ s' = s1); [by apply wpe_gets|].
  intros v s' [-> ->]. rewrite (tstep_sb _ _ St1).
  pose proof (tstep_writable _ _ _ St1 Hw) as Hw1. unfold room in Hr.
  eapply bind_wp_eq; [apply (tx_get_ok s1 d D H L _ T1 Hu); [apply Hw1|]|].
  { unfold room. destruct St1 as (_ & _ & _ & (_ & -> & _)). lia. }
  intros i s2 (St2 & Hi & T2). cbn beta zeta.
  destruct (br_held _ _ _ _ (t_rep _ _ _ _ _ T2) i _ (lookup_insert_eq _ _ _)) as (Hbb & _).
  eapply bind_wp_eq with (Q := fun b' s' => b' = loaded s1 d D (BBLOCK b (sb s)) /\ s' = s2);
    [by eapply wpe_get_buf|].
  intros x s' [-> ->]. cbn [b_data loaded].
  change (bit_used (vget d D (BBLOCK b (sb s))) (b mod BPB)) with (used (vget d D) (sb s) b).
  by rewrite Hub.
Qed.
End alloc.
