(* ===== verification/Xv6Thms.v ===== *)
(** * Properties of xv6's log and block allocator

    The claims about expansion/log.c, bio.c and the block layer of fs.c, with
    the example disk on which each is instantiated: 200 blocks, laid out as
    mkfs does it, with a log of 30 blocks at block 2 and the bitmap in
    block 58. *)
From S2P Require Import Prelude Mem Xv6Log Xv6Cache Xv6Crash Xv6Recover Xv6Txn Xv6Fs Xv6Alloc.

Module XEx.
Definition words (l : list (Z * Z)) : block := foldl (fun m e => write32 m e.1 e.2) ∅ l.
Definition sb_block : block := words [(0, 200); (4, 141); (8, 200); (12, 30); (16, 2); (20, 32); (24, 58)].
Definition bitmap_block : block := fill (∅ : block) 0 255 8.
Definition disk0 : gmap Z block := <[1 := sb_block]> {[58 := bitmap_block]}.
Definition lg : log := mkLog 2 30 0 false 1 0 ∅.

Definition st (d : gmap Z block) : xst :=
  mkX (bufs (boot_state d 200 1)) (seqZ 0 NBUF) d 200 [] lg 1 (sb_of sb_block) (inodes (boot_state d 200 1)) 0.

Lemma disk_log0 : disk_log disk0 = lg.
Proof. vm_compute. reflexivity. Qed.

Lemma st_rep d : brep (st d) d ∅ ∅.
Proof. by apply zero_cache_rep. Qed.

Lemma layout0 E : Z.of_nat (length E) < 30 -> (forall e, e ∈ E -> 60 <= e.1 < 200) -> layout lg 200 E.
Proof.
  intros Hl HE. constructor; [done|cbn [l_start l_size lg]; lia|change LOGSIZE with 30; cbn [l_size lg]; lia|].
  intros e He. specialize (HE e He). unfold home. cbn [l_start l_size lg]. lia.
Qed.

Lemma sb_safe0 E : (forall e, e ∈ E -> 60 <= e.1 < 200) -> sb_safe lg 200 E.
Proof.
  intros HE. constructor; [unfold home; cbn [l_start l_size lg]; lia|lia|].
  intros (e & He1 & He)%list_elem_of_fmap. specialize (HE e He). lia.
Qed.

Lemma logged0 : logged 200 disk0 [].
Proof.
  constructor; rewrite ?disk_log0; [apply layout0; [done|]|apply sb_safe0|vm_compute; done|done];
    intros e []%elem_of_nil.
Qed.

Lemma ready0 : ready (st disk0).
Proof.
  constructor; [apply st_rep|done| |exact logged0]. cbn [memdisk st]. rewrite disk_log0. done.
Qed.

(** A disk whose log holds one committed block that is not installed yet. *)
Definition logged_block : block := fill (∅ : block) 0 7 512.
Definition disk1 : gmap Z block :=
  <[2 := words [(0, 1); (4, 100)]]> (<[3 := logged_block]> disk0).

Lemma logged1 : logged 200 disk1 [(100, logged_block)].
Proof.
  assert (disk_log disk1 = lg) as Ed by (vm_compute; reflexivity).
  assert (forall e : Z * block, e ∈ [(100, logged_block)] -> 60 <= e.1 < 200) as HE.
  { intros e ->%list_elem_of_singleton. simpl. lia. }
  constructor; rewrite ?Ed; [by apply layout0|by apply sb_safe0| |].
  - split; [vm_compute; done|]. intros [|k] e Hk; [|by destruct k]. injection Hk as <-. vm_compute. done.
  - intros [|k] e Hk; [|by destruct k]. injection Hk as <-. unfold log_blk, dget, disk1. cbn [l_start lg].
    rewrite lookup_insert_ne by lia. by rewrite lookup_insert_eq.
Qed.

(** Inside a transaction. *)
Definition st1 : xst := set_xlog (set_outstanding 1 lg) (st disk0).

Lemma tx1 : tx st1 disk0 ∅ ∅ [].
Proof.
  constructor; cbn [st1 set_xlog set_outstanding xlog l_dev l_start l_size lg disksize st lh_n lh_block]; try done.
  - by apply (brep_ext (st disk0)); [apply st_rep|..].
  - intros n []%elem_of_nil.
  - constructor.
  - intros n []%elem_of_nil.
  - intros n [x Hx]. by rewrite lookup_empty in Hx.
Qed.

Lemma unheld0 n : unheld (∅ : gmap Z buf) n.
Proof. apply unheld_empty. Qed.

Lemma bits0 b : 0 <= b < 200 -> used (vget disk0 ∅) (sb st1) b = (b <? 64).
Proof.
  intros Hb. assert (forallb (fun b => eqb (used (vget disk0 ∅) (sb st1) b) (b <? 64)) (seqZ 0 200) = true) as Hall
    by (vm_compute; reflexivity).
  rewrite forallb_forall in Hall. apply eqb_prop, Hall, list_elem_of_In, elem_of_seqZ. lia.
Qed.

Lemma writable1 n : (32 <= n < 200) -> writable st1 n.
Proof. intros Hn. unfold writable, home. cbn [st1 set_xlog xlog set_outstanding l_start l_size lg disksize st]. lia. Qed.

Lemma BBLOCK0 b : 0 <= b < 200 -> BBLOCK b (sb st1) = 58.
Proof.
  intros Hb. unfold BBLOCK. change BPB with 4096. change (sb_bmapstart (sb st1)) with 58.
  by rewrite Z.div_small by lia.
Qed.

Lemma bitmap1 : bitmap_ok st1 disk0 ∅ ∅ (sb st1).
Proof.
  change (sb_size (sb st1)) with 200 || idtac.
  assert (sb_size (sb st1) = 200) as Es by (vm_compute; reflexivity).
  constructor; rewrite ?Es; [lia|..].
  - intros b Hb. rewrite BBLOCK0 by done. split; [apply writable1; lia|apply unheld0].
  - intros b Hb Hf. rewrite bits0 in Hf by done. apply Z.ltb_ge in Hf.
    split; [apply writable1; lia|]. split; [apply unheld0|]. intros b' Hb'. rewrite BBLOCK0 by done. lia.
Qed.
End XEx.

(** ** Claims *)

(** C2: transactions are atomic.  A system call runs between begin_op and
    end_op, from a log that is ready, and works inside the transaction.  Then
    the call returns with the log ready again and the disk holding what the
    call saw; it gave the disk a sequence [W] of block writes such that
    whatever prefix of [W] a crash leaves, and however often the machine
    crashes again while it recovers, a boot ends with all home blocks as they
    were before the call or with all of them as the call left them. *)
Theorem transaction_atomic {A} s (body : X A) (P : A -> gmap Z block -> Prop) :
  ready s -> l_size (xlog s) <= LOGSIZE ->
  (forall s1, tstep (set_xlog (set_outstanding 1 (xlog s)) s) s1 -> tx s1 (memdisk s) ∅ ∅ [] ->
    wp body (fun a s' => exists D L, tstep s1 s' /\ tx s' (memdisk s) D ∅ L /\ 1 ∉ L /\ P a D) s1) ->
  wp (begin_op ;;; let! a := body in end_op ;;; ret a)
    (fun a s' => exists D, P a D /\ committed s s' (memdisk s) (vget (memdisk s) D)) s.
Proof. apply transaction_ok. Qed.

Lemma transaction_atomic_witness :
  wp (begin_op ;;; let! a := bzero 1 100 in end_op ;;; ret a)
    (fun a s' => exists D, D = {[100 := fill (vget XEx.disk0 ∅ 100) 0 0 (Z.to_nat BSIZE)]} /\
      committed (XEx.st XEx.disk0) s' XEx.disk0 (vget XEx.disk0 D)) (XEx.st XEx.disk0).
Proof.
  apply (transaction_atomic (XEx.st XEx.disk0) (bzero 1 100)
    (fun _ D => D = {[100 := fill (vget XEx.disk0 ∅ 100) 0 0 (Z.to_nat BSIZE)]})).
  - exact XEx.ready0.
  - done.
  - intros s1 St T. eapply wp_mono; [apply (bzero_ok s1 _ ∅ ∅ [] 100 T)|].
    + apply unheld_empty.
    + eapply tstep_writable; [exact St|]. exact (XEx.writable1 100 ltac:(lia)).
    + eapply tstep_room; [exact St|]. done.
    + rewrite (tstep_out _ _ St). done.
    + intros _ s' [St' T']. eexists _, _. split; [done|]. split; [exact T'|]. split; [|done].
      unfold log_add. simpl. rewrite list_elem_of_singleton. done.
Defined.

(** Recovery can be repeated.  A disk whose log describes the entries [E]
    recovers to the same contents whatever crashes interrupt the recovery: the
    boot that finally completes ends with the log empty and with every home
    block as the entries of [E] make it. *)
Theorem recovery_repeatable nd p d E d2 :
  logged nd d E -> rtc (crash_boot nd p) d d2 ->
  wp boot (fun _ s' => ready s' /\ disksize s' = nd /\
    forall b, home (disk_log d) b -> dget (memdisk s') b = dget (writes d E) b) (boot_state d2 nd p).
Proof.
  intros L Hr. eapply stands_boot, crash_boots_ok; [|exact Hr]. by exists E.
Qed.

Lemma recovery_repeatable_witness :
  wp boot (fun _ s' => ready s' /\ disksize s' = 200 /\
    forall b, home (disk_log XEx.disk1) b ->
      dget (memdisk s') b = dget (writes XEx.disk1 [(100, XEx.logged_block)]) b)
    (boot_state XEx.disk1 200 1).
Proof. apply (recovery_repeatable 200 1 XEx.disk1 _ XEx.disk1 XEx.logged1). constructor. Defined.

(** C30: the reservations of begin_op hold.  However many system calls
    interleave, as long as each writes at most MAXOPBLOCKS blocks, a call that
    still has budget finds fewer than LOGSIZE blocks in the header, and
    log_write succeeds unless the log area of the disk is too small for them. *)
Theorem log_reservation s0 s B k i b :
  lh_n (xlog s0) = 0 -> l_outstanding (xlog s0) = 0 -> l_committing (xlog s0) = false ->
  rtc lstep (s0, []) (s, B) -> S k ∈ B -> bufs s !! i = Some b ->
  lh_n (xlog s) < LOGSIZE /\
  (lh_n (xlog s) < l_size (xlog s) - 1 -> exists s', log_write i s = Ok tt s').
Proof.
  intros Hn Ho Hc Hr. assert (reserved (s0, [])) as R0.
  { constructor; cbn [fst snd]; [done|done|lia|intros j []%elem_of_nil|by rewrite Hn]. }
  assert (reserved (s, B)) as R.
  { remember (s0, []) as c0 eqn:E0. remember (s, B) as c eqn:Ec. clear E0 Ec.
    induction Hr as [|c1 c2 c3 Hs _ IH]; [done|]. apply IH. by eapply lstep_reserved. }
  intros Hk Hb. by eapply reserved_log_write.
Qed.

Lemma log_reservation_witness :
  lh_n (xlog XEx.st1) < LOGSIZE /\
  (lh_n (xlog XEx.st1) < l_size (xlog XEx.st1) - 1 -> exists s', log_write 0 XEx.st1 = Ok tt s').
Proof.
  apply (log_reservation (XEx.st XEx.disk0) XEx.st1 [10%nat] 9 0 zero_buf); try done.
  - eapply rtc_l; [|apply rtc_refl]. by apply (ls_begin _ XEx.st1 []).
  - by left.
Defined.

(** Reads, logs and releases block [n]. *)
Definition touch_block (n : Z) : X unit := let! i := bread 1 n in log_write i ;;; brelse i.

(** Mkfs makes the log LOGSIZE blocks long including its header, so the
    space that begin_op promises is one block short: three system calls that
    use their full reservation of MAXOPBLOCKS blocks each stop the kernel. *)
Theorem log_full_panics :
  (begin_op ;;; begin_op ;;; begin_op ;;; for_ (seqZ 100 29) touch_block) (XEx.st XEx.disk0) <> Panic "too big a transaction" /\
  (begin_op ;;; begin_op ;;; begin_op ;;; for_ (seqZ 100 30) touch_block) (XEx.st XEx.disk0) =
    Panic "too big a transaction".
Proof. split; [by vm_compute|by vm_compute]. Qed.

(** Balloc returns the lowest block that the bitmap marks free, marks it
    and no other, gives it back filled with zeros, leaves every other block
    alone and logs exactly the two blocks it changed. *)
Theorem balloc_spec s d D H L :
  tx s d D H L -> bitmap_ok s d D H (sb s) -> room s H L 2 -> 1 <= l_outstanding (xlog s) ->
  (exists b, 0 <= b < sb_size (sb s) /\ used (vget d D) (sb s) b = false) ->
  wp (balloc 1) (fun b s' => tstep s s' /\ exists D',
    tx s' d D' H (log_add b (log_add (BBLOCK b (sb s)) L)) /\ took d D (sb s) b D') s.
Proof. apply balloc_ok. Qed.

Lemma balloc_spec_witness :
  wp (balloc 1) (fun b s' => tstep XEx.st1 s' /\ exists D',
    tx s' XEx.disk0 D' ∅ (log_add b (log_add (BBLOCK b (sb XEx.st1)) [])) /\
    took XEx.disk0 ∅ (sb XEx.st1) b D') XEx.st1.
Proof.
  apply (balloc_spec XEx.st1 XEx.disk0 ∅ ∅ [] XEx.tx1 XEx.bitmap1); [done|done|].
  exists 64. split; [done|]. by rewrite XEx.bits0.
Defined.

(** Bfree clears the bit of a block in use and changes nothing else; for a
    block that is already marked free it stops the kernel. *)
Theorem bfree_spec s d D H L b :
  tx s d D H L -> sb s = sb_of (vget d D 1) -> unheld H 1 -> 1 < disksize s ->
  0 <= b < sb_size (sb s) -> writable s (BBLOCK b (sb s)) -> unheld H (BBLOCK b (sb s)) ->
  room s H L 1 -> 1 <= l_outstanding (xlog s) ->
  if used (vget d D) (sb s) b then
    wp (bfree 1 b) (fun _ s' => tstep s s' /\ exists D',
      tx s' d D' H (log_add (BBLOCK b (sb s)) L) /\ gave d D (sb s) b D') s
  else bfree 1 b s = Panic "freeing free block".
Proof.
  intros T Hsb Hu1 Hn Hb Hw Hu Hr Ho. destruct (used (vget d D) (sb s) b) eqn:E; [by apply bfree_ok|].
  eapply bfree_free_panics; [done..| |done]. unfold room in *. lia.
Qed.

Lemma bfree_spec_witness :
  if used (vget XEx.disk0 ∅) (sb XEx.st1) 63 then
    wp (bfree 1 63) (fun _ s' => tstep XEx.st1 s' /\ exists D',
      tx s' XEx.disk0 D' ∅ (log_add (BBLOCK 63 (sb XEx.st1)) []) /\
      gave XEx.disk0 ∅ (sb XEx.st1) 63 D') XEx.st1
  else bfree 1 63 XEx.st1 = Panic "freeing free block".
Proof.
  apply (bfree_spec XEx.st1 XEx.disk0 ∅ ∅ [] 63 XEx.tx1);
    [done|apply unheld_empty|done|done| |apply unheld_empty|done|done].
  rewrite XEx.BBLOCK0 by lia. apply XEx.writable1. lia.
Defined.
