(* ===== verification/Threads.v ===== *)
(** * Threads: semaphores, mutexes and shared variables (include/common_threads.h)

    A program of the threads-* directories is a list of threads over one shared
    state.  A thread is a resumption: either it has returned, or its next step
    is a function of the shared state to the list of its possible outcomes; the
    empty list means that the step is blocked.  Every access to a shared
    variable is a step of its own, so that [x++] is a load followed by a store
    and other threads may run in between.  A configuration makes a step when one
    of its threads does, which is every interleaving.

    The assertions around the pthread calls (common_threads.h) cannot fail
    here: the calls are made on initialised objects. *)
From S2P Require Import Prelude.

(** Shared objects are named; an array element has its index. *)
Definition name : Type := string * Z.

Record shared := mkShared {
  sems : gmap name Z;        (* values of semaphores *)
  locked : gmap name bool;   (* mutexes *)
  vars : gmap name Z;        (* int variables *)
  output : list (list Z) }.  (* the numbers printed, line by line *)

Definition set_sem x v g := mkShared (<[x := v]> (sems g)) (locked g) (vars g) (output g).
Definition set_locked x v g := mkShared (sems g) (<[x := v]> (locked g)) (vars g) (output g).
Definition set_var x v g := mkShared (sems g) (locked g) (<[x := v]> (vars g)) (output g).
Definition add_output l g := mkShared (sems g) (locked g) (vars g) (output g ++ [l]).

Definition sem (g : shared) (x : name) : Z := default 0 (sems g !! x).
Definition is_locked (g : shared) (x : name) : bool := default false (locked g !! x).
Definition var (g : shared) (x : name) : Z := default 0 (vars g !! x).

Inductive thread : Type :=
| Done
| Step (f : shared -> list (shared * thread)).

(** ** The calls of common_threads.h *)

Definition Sem_wait (x : name) (k : thread) : thread :=
  Step (fun g => if 0 <? sem g x then [(set_sem x (sem g x - 1) g, k)] else []).

Definition Sem_post (x : name) (k : thread) : thread :=
  Step (fun g => [(set_sem x (sem g x + 1) g, k)]).

Definition Mutex_lock (x : name) (k : thread) : thread :=
  Step (fun g => if is_locked g x then [] else [(set_locked x true g, k)]).

Definition Mutex_unlock (x : name) (k : thread) : thread :=
  Step (fun g => [(set_locked x false g, k)]).

(** Reading and writing a shared variable. *)
Definition load (x : name) (k : Z -> thread) : thread := Step (fun g => [(g, k (var g x))]).
Definition store (x : name) (v : Z) (k : thread) : thread := Step (fun g => [(set_var x v g, k)]).

(** printf of numbers. *)
Definition printf (l : list Z) (k : thread) : thread := Step (fun g => [(add_output l g, k)]).

(** ** Executions *)

Definition config : Type := shared * list thread.

Inductive cstep : config -> config -> Prop :=
| cstep_thread i g ts f g' t' :
    ts !! i = Some (Step f) -> (g', t') ∈ f g -> cstep (g, ts) (g', <[i := t']> ts).

Definition finished (c : config) : Prop := forall t, t ∈ c.2 -> t = Done.

(** No thread can move although some have not returned. *)
Definition deadlocked (c : config) : Prop := ~ finished c /\ forall c', ~ cstep c c'.

(** A configuration is run by a schedule: which thread moves, and which of its
    outcomes is taken. *)
Fixpoint run (sched : list (nat * nat)) (c : config) : option config :=
  match sched with
  | [] => Some c
  | (i, o) :: sched' =>
      match c.2 !! i with
      | Some (Step f) =>
          match f c.1 !! o with
          | Some (g', t') => run sched' (g', <[i := t']> c.2)
          | None => None
          end
      | _ => None
      end
  end.

Lemma run_steps sched c c' : run sched c = Some c' -> rtc cstep c c'.
Proof.
  revert c. induction sched as [|[i o] sched IH]; intros [g ts]; simpl; [by intros [= <-]|].
  destruct (ts !! i) as [[|f]|] eqn:Ei; try done. destruct (f g !! o) as [[g' t']|] eqn:Eo; [|done].
  intros Hr. eapply rtc_l; [|by apply IH]. econstructor; [done|]. by eapply list_elem_of_lookup_2.
Qed.

(** Executable checks of one schedule. *)
Definition run_check (P : config -> bool) (sched : list (nat * nat)) (c : config) : bool :=
  match run sched c with Some c' => P c' | None => false end.

Lemma run_checked P sched c : run_check P sched c = true -> exists c', run sched c = Some c' /\ P c' = true.
Proof. unfold run_check. destruct (run sched c) as [c'|]; [eauto|done]. Qed.

Lemma Sem_wait_step g ts i x k :
  ts !! i = Some (Sem_wait x k) -> (0 <? sem g x) = true ->
  cstep (g, ts) (set_sem x (sem g x - 1) g, <[i := k]> ts).
Proof. intros Hi Hs. eapply cstep_thread; [exact Hi|]. cbv beta. rewrite Hs. by apply list_elem_of_singleton. Qed.

Lemma run_nsteps sched c c' : run sched c = Some c' -> nsteps cstep (length sched) c c'.
Proof.
  revert c. induction sched as [|[i o] sched IH]; intros [g ts]; simpl; [intros [= <-]; constructor|].
  destruct (ts !! i) as [[|f]|] eqn:Ei; try done. destruct (f g !! o) as [[g' t']|] eqn:Eo; [|done].
  intros Hr. eapply nsteps_l; [|by apply IH]. econstructor; [done|]. by eapply list_elem_of_lookup_2.
Qed.

Lemma sem_set g x y v : sem (set_sem x v g) y = if decide (x = y) then v else sem g y.
Proof. unfold sem, set_sem. simpl. rewrite lookup_insert. by case_decide. Qed.

(** Whether a thread can move, and whether all that remain are blocked. *)
Definition enabled (g : shared) (t : thread) : bool :=
  match t with Done => false | Step f => match f g with [] => false | _ :: _ => true end end.

Definition returned (t : thread) : bool := match t with Done => true | Step _ => false end.

Definition all_returned (c : config) : bool := forallb returned c.2.

Lemma all_returned_finished c : all_returned c = true -> finished c.
Proof.
  intros H t Ht. unfold all_returned in H. rewrite forallb_forall in H.
  specialize (H t (proj1 (list_elem_of_In _ _) Ht)). by destruct t.
Qed.

Lemma enabled_step g ts i t : ts !! i = Some t -> enabled g t = true -> exists c', cstep (g, ts) c'.
Proof.
  intros Hi He. destruct t as [|f]; [done|]. simpl in He. destruct (f g) as [|[g' t'] l] eqn:E; [done|].
  exists (g', <[i := t']> ts). econstructor; [done|]. rewrite E. by left.
Qed.

Lemma stuck_no_step g ts : (forall t, t ∈ ts -> enabled g t = false) -> forall c', ~ cstep (g, ts) c'.
Proof.
  intros Hs c' Hc. inversion Hc as [i g0 ts0 f g' t' Hi Hf]; subst.
  specialize (Hs _ (list_elem_of_lookup_2 _ _ _ Hi)). simpl in Hs. by destruct (f g); [apply elem_of_nil in Hf|].
Qed.

(** The sum of a measure over the threads when one of them changes. *)
Lemma sum_insert {A} (m : A -> nat) (l : list A) i x y :
  l !! i = Some x -> (sum_list_with m (<[i := y]> l) + m x = sum_list_with m l + m y)%nat.
Proof.
  revert i. induction l as [|z l IH]; intros [|i] Hi; simplify_eq/=; [lia|]. specialize (IH i Hi). lia.
Qed.

Lemma sum_zero {A} (m : A -> nat) (l : list A) x : sum_list_with m l = 0%nat -> x ∈ l -> m x = 0%nat.
Proof.
  induction l as [|z l IH]; intros Hs Hx; [by apply elem_of_nil in Hx|]. simpl in Hs.
  apply elem_of_cons in Hx as [->|Hx]; [lia|]. apply IH; [lia|done].
Qed.

Lemma sum_ge {A} (m : A -> nat) (l : list A) i x : l !! i = Some x -> (m x <= sum_list_with m l)%nat.
Proof. revert i. induction l as [|z l IH]; intros [|i] Hi; simplify_eq/=; [lia|]. specialize (IH i Hi). lia. Qed.

Lemma sum_ge2 {A} (m : A -> nat) (l : list A) i j x y :
  l !! i = Some x -> l !! j = Some y -> i <> j -> (m x + m y <= sum_list_with m l)%nat.
Proof.
  revert i j. induction l as [|z l IH]; intros [|i] [|j] Hi Hj Hne; simplify_eq/=.
  - pose proof (sum_ge m l j y Hj). lia.
  - pose proof (sum_ge m l i x Hi). lia.
  - assert (i <> j) as Hne' by congruence. specialize (IH i j Hi Hj Hne'). lia.
Qed.

Lemma sum_pos {A} (m : A -> nat) (l : list A) : (0 < sum_list_with m l)%nat -> exists i x, l !! i = Some x /\ (0 < m x)%nat.
Proof.
  induction l as [|z l IH]; intros Hs; simpl in Hs; [lia|]. destruct (decide (0 < m z)%nat) as [Hz|Hz].
  - by exists 0%nat, z.
  - destruct IH as (i & x & Hi & Hx); [lia|]. by exists (S i), x.
Qed.

(** ** Programs described by phases

    The threads of a configuration are the code of a list of phases. *)
Section phases.
Context {P : Type} (code : P -> thread).

Lemma phase_step g xs c' :
  cstep (g, code <$> xs) c' ->
  exists i x f g' t', xs !! i = Some x /\ code x = Step f /\ (g', t') ∈ f g /\ c' = (g', <[i := t']> (code <$> xs)).
Proof.
  intros Hc. inversion Hc as [i g0 ts f g' t' Hi Hf]; subst.
  apply list_lookup_fmap_Some in Hi as (x & Hx & Hi). by exists i, x, f, g', t'.
Qed.

Lemma phase_insert (i : nat) y (xs : list P) : <[i := code y]> (code <$> xs) = code <$> <[i := y]> xs.
Proof. symmetry. apply list_fmap_insert. Qed.
End phases.

Lemma var_set g x y v : var (set_var x v g) y = if decide (x = y) then v else var g y.
Proof. unfold var, set_var. simpl. rewrite lookup_insert. by case_decide. Qed.

Lemma sem_set_var g x v y : sem (set_var x v g) y = sem g y.
Proof. done. Qed.
Lemma var_set_sem g x v y : var (set_sem x v g) y = var g y.
Proof. done. Qed.
Lemma sem_other g x y v : x <> y -> sem (set_sem x v g) y = sem g y.
Proof. intros H. by rewrite sem_set, decide_False. Qed.
Lemma sem_eq g x v : sem (set_sem x v g) x = v.
Proof. by rewrite sem_set, decide_True. Qed.
Lemma var_other g x y v : x <> y -> var (set_var x v g) y = var g y.
Proof. intros H. by rewrite var_set, decide_False. Qed.
Lemma var_eq g x v : var (set_var x v g) x = v.
Proof. by rewrite var_set, decide_True. Qed.
