(* ===== verification/Dining.v ===== *)
(** * Dining philosophers (threads-sema/dining_philosophers_*.c)

    The two programs differ in get_forks only.  In the one without deadlock
    every philosopher takes the lower-numbered fork first, because philosopher
    4 starts with its right fork, number 0. *)
From S2P Require Import Prelude Threads.

Definition forks (i : Z) : name := ("forks", i).

Definition left (p : Z) : Z := p.
Definition right (p : Z) : Z := (p + 1) mod 5.

(** dining_philosophers_no_deadlock.c *)
Definition get_forks (p : Z) (k : thread) : thread :=
  if p =? 4 then
    Sem_wait (forks (right p)) (Sem_wait (forks (left p)) k)
  else
    Sem_wait (forks (left p)) (Sem_wait (forks (right p)) k).

(** dining_philosophers_deadlock.c *)
Definition get_forks_deadlock (p : Z) (k : thread) : thread :=
  Sem_wait (forks (left p)) (Sem_wait (forks (right p)) k).

Definition put_forks (p : Z) (k : thread) : thread :=
  Sem_post (forks (left p)) (Sem_post (forks (right p)) k).

(** The loop of a philosopher; think and eat do nothing. *)
Fixpoint philosopher_with (get : Z -> thread -> thread) (p : Z) (num_loops : nat) : thread :=
  match num_loops with
  | O => Done
  | S n => get p (put_forks p (philosopher_with get p n))
  end.

Definition philosopher : Z -> nat -> thread := philosopher_with get_forks.
Definition philosopher_deadlock : Z -> nat -> thread := philosopher_with get_forks_deadlock.

(** main after its threads are created. *)
Definition init_forks : shared :=
  mkShared (list_to_map ((fun i => (forks i, 1)) <$> seqZ 0 5)) ∅ ∅ [].
Definition table (phil : Z -> nat -> thread) (num_loops : nat) : config :=
  (init_forks, (fun p => phil p num_loops) <$> seqZ 0 5).

(** ** The program without deadlock *)

(** The forks in the order in which philosopher [p] takes them. *)
Definition fork1 (p : Z) : Z := if p =? 4 then right p else left p.
Definition fork2 (p : Z) : Z := if p =? 4 then left p else right p.

(** Where a philosopher is: the forks it holds, the fork it waits for, and the
    steps it has left. *)
Record phase := mkPhase { held : list Z; wants : option Z; steps_left : nat }.

Inductive at_phase (p : Z) : thread -> phase -> Prop :=
| ph_done : at_phase p Done (mkPhase [] None 0)
| ph_hungry n :
    at_phase p (Sem_wait (forks (fork1 p)) (Sem_wait (forks (fork2 p)) (put_forks p (philosopher p n))))
      (mkPhase [] (Some (fork1 p)) (4 + 4 * n))
| ph_one n :
    at_phase p (Sem_wait (forks (fork2 p)) (put_forks p (philosopher p n)))
      (mkPhase [fork1 p] (Some (fork2 p)) (3 + 4 * n))
| ph_eating n : at_phase p (put_forks p (philosopher p n)) (mkPhase [left p; right p] None (2 + 4 * n))
| ph_leaving n :
    at_phase p (Sem_post (forks (right p)) (philosopher p n)) (mkPhase [right p] None (1 + 4 * n)).

Lemma at_start p n : exists x, at_phase p (philosopher p n) x /\ held x = [] /\ steps_left x = (4 * n)%nat.
Proof.
  destruct n as [|n]; [eexists; split; [constructor|done]|]. eexists (mkPhase [] (Some (fork1 p)) (4 + 4 * n)).
  split; [|simpl; split; [done|lia]]. unfold philosopher. simpl. unfold get_forks.
  pose proof (ph_hungry p n) as Hp. unfold fork1, fork2 in *. by destruct (p =? 4).
Qed.

Lemma fork_range p : 0 <= p < 5 -> 0 <= left p < 5 /\ 0 <= right p < 5 /\ left p <> right p.
Proof.
  intros Hp. unfold left, right. pose proof (Z.mod_pos_bound (p + 1) 5 ltac:(lia)).
  split; [done|]. split; [done|]. intros E.
  destruct (decide (p = 4)) as [->|]; [by vm_compute in E|]. rewrite Z.mod_small in E by lia. lia.
Qed.

(** Forks are taken in increasing order. *)
Lemma fork_order p : 0 <= p < 5 -> 0 <= fork1 p /\ fork1 p < fork2 p < 5 /\
  (forall f, f = fork1 p \/ f = fork2 p <-> f = left p \/ f = right p).
Proof.
  intros Hp. unfold fork1, fork2. destruct (Z.eqb_spec p 4) as [->|Hne].
  - change (right 4) with 0. change (left 4) with 4. repeat split; try lia; tauto.
  - unfold left, right. rewrite Z.mod_small by lia. repeat split; try lia; tauto.
Qed.

(** [own] maps each fork that is taken to the philosopher who has it. *)
Record dinv (c : config) (xs : list phase) (own : gmap Z nat) : Prop := mk_dinv {
  di_len : length xs = 5%nat /\ length c.2 = 5%nat;
  di_phase i t x : c.2 !! i = Some t -> xs !! i = Some x -> at_phase (Z.of_nat i) t x;
  di_own i x : xs !! i = Some x -> forall f, f ∈ held x <-> own !! f = Some i;
  di_forks f : own !! f = None \/ 0 <= f < 5;
  di_ownidx f i : own !! f = Some i -> (i < length xs)%nat;
  di_sem f : 0 <= f < 5 -> sem c.1 (forks f) = match own !! f with Some _ => 0 | None => 1 end }.

Lemma forks_inj f f' : forks f = forks f' -> f = f'.
Proof. unfold forks. congruence. Qed.

Lemma sem_set_forks g f f' v :
  sem (set_sem (forks f) v g) (forks f') = if decide (f = f') then v else sem g (forks f').
Proof.
  rewrite sem_set. destruct (decide (f = f')) as [->|Hne]; [by rewrite decide_True|].
  by rewrite decide_False by (intros ?%forks_inj; done).
Qed.

(** One thread moves to [t'], [x'], the semaphores and owners change as given. *)
Lemma dinv_move g ts xs own i x g' t' x' own' :
  dinv (g, ts) xs own -> xs !! i = Some x -> at_phase (Z.of_nat i) t' x' ->
  (forall f, f ∈ held x' <-> own' !! f = Some i) ->
  (forall j f, j <> i -> own' !! f = Some j <-> own !! f = Some j) ->
  (forall f, own' !! f = None \/ 0 <= f < 5) ->
  (forall f, 0 <= f < 5 -> sem g' (forks f) = match own' !! f with Some _ => 0 | None => 1 end) ->
  dinv (g', <[i := t']> ts) (<[i := x']> xs) own'.
Proof.
  intros [[L1 L2] Hp Ho Hf Hx Hs] Hi Hp' Ho' Hoth Hf' Hs'. cbn [fst snd] in *. constructor; cbn [fst snd].
  - by rewrite !length_insert.
  - intros j t y Ht Hy. destruct (decide (i = j)) as [<-|Hne].
    + assert (i < length ts)%nat by (apply lookup_lt_Some in Hi; lia).
      rewrite list_lookup_insert_eq in Ht by lia. rewrite list_lookup_insert_eq in Hy by lia. by simplify_eq.
    + rewrite list_lookup_insert_ne in Ht by done. rewrite list_lookup_insert_ne in Hy by done. by eapply Hp.
  - intros j y Hy f. destruct (decide (i = j)) as [<-|Hne].
    + apply lookup_lt_Some in Hi. rewrite list_lookup_insert_eq in Hy by lia. simplify_eq. apply Ho'.
    + rewrite list_lookup_insert_ne in Hy by done. rewrite (Hoth j f) by done. by apply Ho.
  - done.
  - intros f j Hj. rewrite length_insert. destruct (decide (j = i)) as [->|Hne].
    + by eapply lookup_lt_Some.
    + eapply Hx. by apply (Hoth j f).
  - done.
Qed.

(** Taking fork [f], which is free. *)
Lemma dinv_take g ts xs own i x f t' x' :
  dinv (g, ts) xs own -> xs !! i = Some x -> 0 <= f < 5 -> 0 < sem g (forks f) ->
  at_phase (Z.of_nat i) t' x' -> (forall f', f' ∈ held x' <-> f' = f \/ f' ∈ held x) ->
  dinv (set_sem (forks f) (sem g (forks f) - 1) g, <[i := t']> ts) (<[i := x']> xs) (<[f := i]> own).
Proof.
  intros D Hi Hf Hpos Hp Hh. pose proof (di_sem _ _ _ D f Hf) as Hs. cbn [fst] in Hs.
  destruct (own !! f) as [j|] eqn:Ef; [lia|].
  eapply dinv_move; [done..| | | |].
  - intros f'. rewrite Hh, (di_own _ _ _ D i x Hi). rewrite lookup_insert. case_decide; naive_solver.
  - intros j f' Hj. rewrite lookup_insert. case_decide; naive_solver.
  - intros f'. rewrite lookup_insert. case_decide; [right; congruence|]. apply (di_forks _ _ _ D).
  - intros f' Hf'. rewrite sem_set_forks, lookup_insert. case_decide; [lia|]. by apply (di_sem _ _ _ D).
Qed.

(** Giving back fork [f]. *)
Lemma dinv_put g ts xs own i x f t' x' :
  dinv (g, ts) xs own -> xs !! i = Some x -> f ∈ held x ->
  at_phase (Z.of_nat i) t' x' -> (forall f', f' ∈ held x' <-> f' <> f /\ f' ∈ held x) ->
  dinv (set_sem (forks f) (sem g (forks f) + 1) g, <[i := t']> ts) (<[i := x']> xs) (delete f own).
Proof.
  intros D Hi Hin Hp Hh. pose proof Hin as Hof. rewrite (di_own _ _ _ D i x Hi) in Hof.
  destruct (di_forks _ _ _ D f) as [Hn|Hf]; [congruence|].
  pose proof (di_sem _ _ _ D f Hf) as Hs. cbn [fst] in Hs. rewrite Hof in Hs.
  eapply dinv_move; [done..| | | |].
  - intros f'. rewrite Hh, (di_own _ _ _ D i x Hi), lookup_delete. case_decide; naive_solver.
  - intros j f' Hj. rewrite lookup_delete. case_decide; naive_solver.
  - intros f'. rewrite lookup_delete. case_decide; [by left|]. apply (di_forks _ _ _ D).
  - intros f' Hf'. rewrite sem_set_forks, lookup_delete. case_decide; [lia|]. by apply (di_sem _ _ _ D).
Qed.

Definition total (xs : list phase) : nat := sum_list_with steps_left xs.

Lemma dinv_step c c' xs own :
  dinv c xs own -> cstep c c' -> exists xs' own', dinv c' xs' own' /\ total xs = S (total xs').
Proof.
  intros D Hc. destruct Hc as [i g ts f g' t' Hi Hf]. pose proof (di_len _ _ _ D) as [L1 L2]. cbn [snd] in L2.
  pose proof (lookup_lt_Some _ _ _ Hi) as Hlt. destruct (lookup_lt_is_Some_2 xs i) as [x Hx]; [lia|].
  pose proof (di_phase _ _ _ D i _ x Hi Hx) as Hp.
  assert (0 <= Z.of_nat i < 5) as Hr by lia. set (p := Z.of_nat i) in *.
  destruct (fork_order p Hr) as (O1 & O2 & O3). destruct (fork_range p Hr) as (R1 & R2 & R3).
  assert (forall x' own' , dinv (g', <[i := t']> ts) (<[i := x']> xs) own' -> steps_left x = S (steps_left x') ->
    exists xs' own', dinv (g', <[i := t']> ts) xs' own' /\ total xs = S (total xs')) as Hfin.
  { intros x' own' D' Es. exists (<[i := x']> xs), own'. split; [done|].
    pose proof (sum_insert steps_left xs i x x' Hx). unfold total. lia. }
  inversion Hp; subst f x.
  - destruct (Z.ltb_spec 0 (sem g (forks (fork1 p)))) as [Hs|]; [|by apply elem_of_nil in Hf].
    apply list_elem_of_singleton in Hf as [= -> ->]. 
    eapply (Hfin (mkPhase [fork1 p] (Some (fork2 p)) (3 + 4 * n))); [|done].
    eapply dinv_take; [done|done|lia|done|apply (ph_one p n)|]. intros f'. simpl.
    rewrite list_elem_of_singleton, elem_of_nil. tauto.
  - destruct (Z.ltb_spec 0 (sem g (forks (fork2 p)))) as [Hs|]; [|by apply elem_of_nil in Hf].
    apply list_elem_of_singleton in Hf as [= -> ->]. 
    eapply (Hfin (mkPhase [left p; right p] None (2 + 4 * n))); [|done].
    eapply dinv_take; [done|done|lia|done|apply (ph_eating p n)|]. intros f'. simpl.
    rewrite !elem_of_cons, !elem_of_nil. specialize (O3 f'). tauto.
  - apply list_elem_of_singleton in Hf as [= -> ->]. 
    eapply (Hfin (mkPhase [right p] None (1 + 4 * n))); [|done].
    eapply dinv_put; [done|done|by left|apply (ph_leaving p n)|]. intros f'. simpl.
    rewrite !elem_of_cons, !elem_of_nil. naive_solver.
  - apply list_elem_of_singleton in Hf as [= -> ->].
    destruct (at_start p n) as (x' & Hp' & Hh & Es). eapply (Hfin x'); [|simpl; rewrite Es; lia].
    eapply dinv_put; [done|done|by left|exact Hp'|]. intros f'. rewrite Hh. simpl.
    rewrite !elem_of_cons, !elem_of_nil. naive_solver.
Qed.

Lemma dinv_init n : exists xs own, dinv (table philosopher n) xs own /\ total xs = (20 * n)%nat.
Proof.
  assert (forall p, exists x, at_phase p (philosopher p n) x /\ held x = [] /\ steps_left x = (4 * n)%nat) as Hst
    by (intros p; apply at_start).
  destruct (Hst 0) as (y0 & P0 & H0 & S0), (Hst 1) as (y1 & P1 & H1 & S1), (Hst 2) as (y2 & P2 & H2 & S2),
    (Hst 3) as (y3 & P3 & H3 & S3), (Hst 4) as (y4 & P4 & H4 & S4).
  exists [y0; y1; y2; y3; y4], ∅. split.
  - constructor.
    + done.
    + intros i t x Ht Hx. do 5 (destruct i as [|i]; [simpl in Ht, Hx; by simplify_eq|]). done.
    + intros i x Hx f. rewrite lookup_empty.
      assert (held x = []) as -> by (do 5 (destruct i as [|i]; [simpl in Hx; by simplify_eq|]); done).
      rewrite elem_of_nil. done.
    + by left.
    + done.
    + intros f Hf. rewrite lookup_empty. cbn [table fst].
      assert (f = 0 \/ f = 1 \/ f = 2 \/ f = 3 \/ f = 4) as [->|[->|[->|[->| ->]]]] by lia; vm_compute; done.
  - unfold total. simpl. lia.
Qed.

(** The highest fork that is taken. *)
Lemma highest_fork (own : gmap Z nat) n :
  (forall f, 0 <= f < Z.of_nat n -> own !! f = None) \/
  exists f i, 0 <= f < Z.of_nat n /\ own !! f = Some i /\ forall f', f < f' < Z.of_nat n -> own !! f' = None.
Proof.
  induction n as [|n [IH|(f & i & Hf & Hi & Hmax)]]; [left; lia|..]; destruct (own !! Z.of_nat n) as [j|] eqn:E.
  - right. exists (Z.of_nat n), j. split; [lia|]. split; [done|]. lia.
  - left. intros f Hf. destruct (decide (f = Z.of_nat n)) as [->|]; [done|]. apply IH. lia.
  - right. exists (Z.of_nat n), j. split; [lia|]. split; [done|]. lia.
  - right. exists f, i. split; [lia|]. split; [done|]. intros f' Hf'.
    destruct (decide (f' = Z.of_nat n)) as [->|]; [done|]. apply Hmax. lia.
Qed.

(** A philosopher who waits for a fork that is free can go on. *)
Lemma free_fork_step g ts xs own i x t f :
  dinv (g, ts) xs own -> ts !! i = Some t -> xs !! i = Some x -> wants x = Some f ->
  own !! f = None -> exists c', cstep (g, ts) c'.
Proof.
  intros D Ht Hx Hw Hn. apply (enabled_step g ts i t Ht).
  pose proof (di_phase _ _ _ D i t x Ht Hx) as Hp. pose proof (di_len _ _ _ D) as [L1 L2]. cbn [snd] in L2.
  pose proof (lookup_lt_Some _ _ _ Ht). destruct (fork_order (Z.of_nat i) ltac:(lia)) as (O1 & O2 & _).
  assert (0 <= f < 5) as Hf by (inversion Hp; subst; simpl in Hw; by simplify_eq; lia).
  pose proof (di_sem _ _ _ D f Hf) as Hs. cbn [fst] in Hs. rewrite Hn in Hs.
  inversion Hp; subst; simpl in Hw; simplify_eq; simpl; by rewrite Hs.
Qed.

Lemma dinv_progress c xs own : dinv c xs own -> ~ finished c -> exists c', cstep c c'.
Proof.
  destruct c as [g ts]. intros D Hnf. pose proof (di_len _ _ _ D) as [L1 L2]. cbn [snd] in L2.
  assert (forall i t, ts !! i = Some t -> exists x, xs !! i = Some x /\ at_phase (Z.of_nat i) t x) as Hph.
  { intros i t Ht. destruct (lookup_lt_is_Some_2 xs i) as [x Hx]; [apply lookup_lt_Some in Ht; lia|].
    exists x. split; [done|]. by eapply (di_phase _ _ _ D). }
  destruct (highest_fork own 5) as [Hnone|(f & i & Hf & Ho & Hmax)].
  - assert (exists i t, ts !! i = Some t /\ t <> Done) as (i & t & Ht & Hd).
    { destruct (decide (Exists (fun t => returned t = false) ts)) as [Hex|Hall].
      - apply Exists_exists in Hex as (t & Hin & Hr). apply list_elem_of_lookup in Hin as [i Hi].
        exists i, t. split; [done|]. by intros ->.
      - exfalso. apply Hnf. intros t Ht. destruct (returned t) eqn:E; [by destruct t|].
        destruct Hall. apply Exists_exists. eauto. }
    destruct (Hph i t Ht) as (x & Hx & Hp). pose proof (lookup_lt_Some _ _ _ Ht).
    destruct (fork_order (Z.of_nat i) ltac:(lia)) as (O1 & O2 & _).
    inversion Hp; subst; [done| | |by eapply enabled_step..].
    + eapply (free_fork_step g ts xs own i); [done..|]. apply Hnone. lia.
    + eapply (free_fork_step g ts xs own i); [done..|]. apply Hnone. lia.
  - assert (exists x, xs !! i = Some x /\ f ∈ held x) as (x & Hx & Hin).
    { destruct (lookup_lt_is_Some_2 xs i) as [x Hx]; [by eapply (di_ownidx _ _ _ D)|].
      exists x. split; [done|]. by apply (di_own _ _ _ D i x Hx). }
    destruct (lookup_lt_is_Some_2 ts i) as [t Ht]; [apply lookup_lt_Some in Hx; lia|].
    pose proof (di_phase _ _ _ D i t x Ht Hx) as Hp. pose proof (lookup_lt_Some _ _ _ Ht).
    destruct (fork_order (Z.of_nat i) ltac:(lia)) as (O1 & O2 & _).
    inversion Hp; subst; simpl in Hin; try by apply elem_of_nil in Hin.
    + apply list_elem_of_singleton in Hin as ->. eapply (free_fork_step g ts xs own i); [done..|].
      apply Hmax. lia.
    + by eapply enabled_step.
    + by eapply enabled_step.
Qed.

Lemma dinv_reachable n k c :
  nsteps cstep k (table philosopher n) c ->
  exists xs own, dinv c xs own /\ (k + total xs = 20 * n)%nat.
Proof.
  destruct (dinv_init n) as (xs & own & D & E). rewrite <- E. clear E. intros H.
  revert xs own D. induction H as [c|k c1 c2 c3 Hs _ IH]; intros xs own D; [eauto|].
  destruct (dinv_step _ _ _ _ D Hs) as (xs' & own' & D' & Et).
  destruct (IH xs' own' D') as (xs2 & own2 & D2 & E2). exists xs2, own2. split; [done|]. lia.
Qed.

(** At the end all forks are back. *)
Lemma dinv_finished c xs own f : dinv c xs own -> finished c -> 0 <= f < 5 -> sem c.1 (forks f) = 1.
Proof.
  intros D Hf Hr. rewrite (di_sem _ _ _ D f Hr). destruct (own !! f) as [i|] eqn:E; [|done]. exfalso.
  pose proof (di_ownidx _ _ _ D f i E) as Hi. destruct (lookup_lt_is_Some_2 xs i Hi) as [x Hx].
  pose proof (di_len _ _ _ D) as [L1 L2]. destruct (lookup_lt_is_Some_2 c.2 i) as [t Ht]; [lia|].
  pose proof (di_phase _ _ _ D i t x Ht Hx) as Hp.
  assert (t = Done) as -> by (apply Hf; by eapply list_elem_of_lookup_2).
  inversion Hp; subst. apply (di_own _ _ _ D i _ Hx) in E. by apply elem_of_nil in E.
Qed.

Lemma dinv_total c xs own : dinv c xs own -> finished c -> total xs = 0%nat.
Proof.
  intros D Hf. pose proof (di_len _ _ _ D) as [L1 L2].
  destruct (decide (total xs = 0%nat)) as [|Hne]; [done|].
  destruct (sum_pos steps_left xs) as (i & x & Hx & Hp); [unfold total in Hne; lia|].
  destruct (lookup_lt_is_Some_2 c.2 i) as [t Ht]; [apply lookup_lt_Some in Hx; lia|].
  pose proof (di_phase _ _ _ D i t x Ht Hx) as Hph.
  assert (t = Done) as -> by (apply Hf; by eapply list_elem_of_lookup_2).
  inversion Hph; subst. simpl in Hp. lia.
Qed.

(** ** The program with a deadlock *)

(** Five threads that each take their own fork first and their neighbour's
    second, whatever they do then. *)
Definition hungry (ks : Z -> thread) : list thread :=
  (fun p => get_forks_deadlock p (ks p)) <$> [0; 1; 2; 3; 4].

Lemma hungry_deadlock ks :
  exists c, rtc cstep (init_forks, hungry ks) c /\ deadlocked c /\ forall f, 0 <= f < 5 -> sem c.1 (forks f) = 0.
Proof.
  pose (grab := fun g p => set_sem (forks p) (sem g (forks p) - 1) g).
  exists (foldl grab init_forks [0; 1; 2; 3; 4], (fun p => Sem_wait (forks (right p)) (ks p)) <$> [0; 1; 2; 3; 4]).
  split; [|split; [split|]].
  - eapply rtc_l; [apply (Sem_wait_step _ _ 0); [done|by vm_compute]|].
    eapply rtc_l; [apply (Sem_wait_step _ _ 1); [done|by vm_compute]|].
    eapply rtc_l; [apply (Sem_wait_step _ _ 2); [done|by vm_compute]|].
    eapply rtc_l; [apply (Sem_wait_step _ _ 3); [done|by vm_compute]|].
    eapply rtc_l; [apply (Sem_wait_step _ _ 4); [done|by vm_compute]|]. apply rtc_refl.
  - intros Hf. by specialize (Hf _ ltac:(left)).
  - apply stuck_no_step. intros t Ht. apply list_elem_of_fmap in Ht as (p & -> & Hp).
    repeat (apply elem_of_cons in Hp as [->|Hp]; [by vm_compute|]). by apply elem_of_nil in Hp.
  - intros f Hf. assert (f = 0 \/ f = 1 \/ f = 2 \/ f = 3 \/ f = 4) as Hd by lia.
    repeat (destruct Hd as [->|Hd]; [by vm_compute|]). subst. by vm_compute.
Qed.

Lemma table_deadlock n :
  table philosopher_deadlock (S n) =
    (init_forks, hungry (fun p => put_forks p (philosopher_deadlock p n))).
Proof. done. Qed.
