(* ===== verification/RwLock.v ===== *)
(** * Readers-writer lock (threads-sema/rwlock.c)

    Any number of reader and writer threads share one lock.  The increments of
    [readers] and [counter] are a load and a store, so the proof has to find
    that [lock->lock] keeps the first two together and the writers' lock the
    last two. *)
From S2P Require Import Prelude Threads.

Definition writelock : name := ("writelock", 0).
Definition lock : name := ("lock", 0).
Definition readers : name := ("readers", 0).
Definition counter : name := ("counter", 0).

Definition rwlock_init : shared := mkShared {[lock := 1; writelock := 1]} ∅ {[readers := 0; counter := 0]} [].

Definition rwlock_acquire_readlock (k : thread) : thread :=
  Sem_wait lock (
  load readers (fun r => store readers (r + 1) (
  load readers (fun r =>
    if r =? 1 then Sem_wait writelock (Sem_post lock k)
    else Sem_post lock k)))).

Definition rwlock_release_readlock (k : thread) : thread :=
  Sem_wait lock (
  load readers (fun r => store readers (r - 1) (
  load readers (fun r =>
    if r =? 0 then Sem_post writelock (Sem_post lock k)
    else Sem_post lock k)))).

Definition rwlock_acquire_writelock (k : thread) : thread := Sem_wait writelock k.
Definition rwlock_release_writelock (k : thread) : thread := Sem_post writelock k.

(** The last value that was read is printed at the end too. *)
Fixpoint reader_from (local : Z) (read_loops : nat) : thread :=
  match read_loops with
  | O => printf [local] Done
  | S n =>
      rwlock_acquire_readlock (
      load counter (fun local =>
      rwlock_release_readlock (
      printf [local] (
      reader_from local n))))
  end.
Definition reader (read_loops : nat) : thread := reader_from 0 read_loops.

Fixpoint writer (write_loops : nat) : thread :=
  match write_loops with
  | O => printf [] Done
  | S n =>
      rwlock_acquire_writelock (
      load counter (fun c => store counter (c + 1) (
      rwlock_release_writelock (
      writer n))))
  end.

(** ** Where a thread is *)

Inductive phase :=
| ROut (l : Z) (n : nat)          (* before a round of the reader *)
| RA1 (n : nat)                   (* acquire: has lock *)
| RA2 (n : nat) (v : Z)           (* has read readers *)
| RA3 (n : nat)                   (* has incremented it *)
| RA4 (n : nat)                   (* waits for writelock *)
| RA5 (n : nat)                   (* gives lock back *)
| RIn (n : nat)                   (* reads counter *)
| ROn (l : Z) (n : nat)           (* has read it; release: before lock *)
| RB1 (l : Z) (n : nat)
| RB2 (l : Z) (n : nat) (v : Z)
| RB3 (l : Z) (n : nat)
| RB4 (l : Z) (n : nat)           (* gives writelock back *)
| RB5 (l : Z) (n : nat)
| RPr (l : Z) (n : nat)           (* prints what it read *)
| WOut (n : nat)
| WIn (n : nat)                   (* has writelock *)
| WOn (n : nat) (v : Z)           (* has read counter *)
| WEnd (n : nat)                  (* has incremented it *)
| Gone.                           (* has returned *)

Definition r_out l n : thread := printf [l] (reader_from l n).
Definition r_in n : thread := load counter (fun l => rwlock_release_readlock (r_out l n)).
Definition r_cmp1 n : thread := load readers (fun r =>
  if r =? 1 then Sem_wait writelock (Sem_post lock (r_in n)) else Sem_post lock (r_in n)).
Definition r_cmp0 l n : thread := load readers (fun r =>
  if r =? 0 then Sem_post writelock (Sem_post lock (r_out l n)) else Sem_post lock (r_out l n)).

Definition code (x : phase) : thread :=
  match x with
  | ROut l n => reader_from l n
  | RA1 n => load readers (fun r => store readers (r + 1) (r_cmp1 n))
  | RA2 n v => store readers (v + 1) (r_cmp1 n)
  | RA3 n => r_cmp1 n
  | RA4 n => Sem_wait writelock (Sem_post lock (r_in n))
  | RA5 n => Sem_post lock (r_in n)
  | RIn n => r_in n
  | ROn l n => rwlock_release_readlock (r_out l n)
  | RB1 l n => load readers (fun r => store readers (r - 1) (r_cmp0 l n))
  | RB2 l n v => store readers (v - 1) (r_cmp0 l n)
  | RB3 l n => r_cmp0 l n
  | RB4 l n => Sem_post writelock (Sem_post lock (r_out l n))
  | RB5 l n => Sem_post lock (r_out l n)
  | RPr l n => r_out l n
  | WOut n => writer n
  | WIn n => load counter (fun c => store counter (c + 1) (rwlock_release_writelock (writer n)))
  | WOn n v => store counter (v + 1) (rwlock_release_writelock (writer n))
  | WEnd n => rwlock_release_writelock (writer n)
  | Gone => Done
  end.

(** Has lock->lock; is counted in readers; has the writers' lock. *)
Definition has_lock (x : phase) : nat :=
  match x with
  | RA1 _ | RA2 _ _ | RA3 _ | RA4 _ | RA5 _ => 1
  | RB1 _ _ | RB2 _ _ _ | RB3 _ _ | RB4 _ _ | RB5 _ _ => 1
  | _ => 0
  end.
Definition counted (x : phase) : nat :=
  match x with
  | RA3 _ | RA4 _ | RA5 _ | RIn _ | ROn _ _ | RB1 _ _ | RB2 _ _ _ => 1
  | _ => 0
  end.
Definition writing (x : phase) : nat :=
  match x with WIn _ | WOn _ _ | WEnd _ => 1 | _ => 0 end.
Definition reading (x : phase) : bool :=
  match x with RIn _ | ROn _ _ => true | _ => false end.

(** Steps a thread may still make. *)
Definition fuel (x : phase) : nat :=
  match x with
  | ROut _ n => 1 + 14 * n
  | RA1 n => 14 + 14 * n | RA2 n _ => 13 + 14 * n | RA3 n => 12 + 14 * n | RA4 n => 11 + 14 * n
  | RA5 n => 10 + 14 * n | RIn n => 9 + 14 * n | ROn _ n => 8 + 14 * n | RB1 _ n => 7 + 14 * n
  | RB2 _ n _ => 6 + 14 * n | RB3 _ n => 5 + 14 * n | RB4 _ n => 4 + 14 * n | RB5 _ n => 3 + 14 * n
  | RPr _ n => 2 + 14 * n
  | WOut n => 1 + 4 * n | WIn n => 4 + 4 * n | WOn n _ => 3 + 4 * n | WEnd n => 2 + 4 * n
  | Gone => 0
  end.

Definition count (m : phase -> nat) (xs : list phase) : Z := Z.of_nat (sum_list_with m xs).

(** [grp]: the readers have the writers' lock.  What the thread that has
    lock->lock knows about it and about the number [r] of readers. *)
Definition knows (r : Z) (grp : bool) (x : phase) : Prop :=
  match x with
  | RA1 _ => grp = (0 <? r)
  | RA2 _ v => v = r /\ grp = (0 <? r)
  | RA3 _ => grp = (1 <? r)
  | RA4 _ => r = 1 /\ grp = false
  | RA5 _ | RB1 _ _ | RB3 _ _ => grp = true
  | RB2 _ _ v => v = r /\ grp = true
  | RB4 _ _ => r = 0 /\ grp = true
  | RB5 _ _ => grp = (0 <? r)
  | _ => True
  end.

Record rwinv (g : shared) (xs : list phase) (grp : bool) : Prop := mk_rwinv {
  rw_lock : sem g lock + count has_lock xs = 1;
  rw_lock_pos : 0 <= sem g lock;
  rw_readers : var g readers = count counted xs;
  rw_wl : sem g writelock + count writing xs + Z.b2z grp = 1;
  rw_wl_pos : 0 <= sem g writelock;
  rw_knows x : x ∈ xs -> knows (var g readers) grp x;
  rw_free : sem g lock = 1 -> grp = (0 <? var g readers) }.

Lemma count_insert m xs i x y :
  xs !! i = Some x -> count m (<[i := y]> xs) = count m xs - Z.of_nat (m x) + Z.of_nat (m y).
Proof. intros Hi. unfold count. pose proof (sum_insert m xs i x y Hi). lia. Qed.

Lemma knows_nolock r grp x : has_lock x = 0%nat -> knows r grp x.
Proof. by destruct x. Qed.

(** Thread [i] moves from phase [x] to phase [y]. *)
Lemma rw_move g xs grp i x g' y grp' :
  rwinv g xs grp -> xs !! i = Some x ->
  sem g' lock + Z.of_nat (has_lock y) = sem g lock + Z.of_nat (has_lock x) -> 0 <= sem g' lock ->
  var g' readers + Z.of_nat (counted x) = var g readers + Z.of_nat (counted y) ->
  sem g' writelock + Z.of_nat (writing y) + Z.b2z grp' =
    sem g writelock + Z.of_nat (writing x) + Z.b2z grp -> 0 <= sem g' writelock ->
  knows (var g' readers) grp' y ->
  (has_lock x = 0 /\ has_lock y = 0 -> var g' readers = var g readers /\ grp' = grp)%nat ->
  (sem g' lock = 1 -> grp' = (0 <? var g' readers)) ->
  rwinv g' (<[i := y]> xs) grp'.
Proof.
  intros [H1 H2 H3 H4 H5 H6 H7] Hi E1 P1 E2 E3 P3 Hy Hsame Hfree.
  assert (forall j z, j <> i -> xs !! j = Some z -> knows (var g' readers) grp' z) as Hoth.
  { intros j z Hj Hz. destruct (decide (has_lock x = 0 /\ has_lock y = 0)%nat) as [Hno|Hlk].
    - destruct (Hsame Hno) as [-> ->]. apply H6. by eapply list_elem_of_lookup_2.
    - apply knows_nolock. pose proof (sum_ge2 has_lock xs i j x z Hi Hz ltac:(done)).
      unfold count in H1. destruct x, y; simpl in *; lia. }
  constructor; [|done| | |done| |done].
  - rewrite (count_insert _ _ _ _ _ Hi). lia.
  - rewrite (count_insert _ _ _ _ _ Hi). lia.
  - rewrite (count_insert _ _ _ _ _ Hi). lia.
  - intros z Hz. apply list_elem_of_lookup in Hz as [j Hj]. destruct (decide (j = i)) as [->|Hne].
    + rewrite list_lookup_insert_eq in Hj by (by eapply lookup_lt_Some). by simplify_eq.
    + rewrite list_lookup_insert_ne in Hj by done. by eapply Hoth.
Qed.

(** The step that a phase makes. *)
Inductive rstep (g : shared) : phase -> shared -> phase -> Prop :=
| rs_enter l n : 0 < sem g lock -> rstep g (ROut l (S n)) (set_sem lock (sem g lock - 1) g) (RA1 n)
| rs_a1 n : rstep g (RA1 n) g (RA2 n (var g readers))
| rs_a2 n v : rstep g (RA2 n v) (set_var readers (v + 1) g) (RA3 n)
| rs_a3 n : rstep g (RA3 n) g (if var g readers =? 1 then RA4 n else RA5 n)
| rs_a4 n : 0 < sem g writelock -> rstep g (RA4 n) (set_sem writelock (sem g writelock - 1) g) (RA5 n)
| rs_a5 n : rstep g (RA5 n) (set_sem lock (sem g lock + 1) g) (RIn n)
| rs_in n : rstep g (RIn n) g (ROn (var g counter) n)
| rs_on l n : 0 < sem g lock -> rstep g (ROn l n) (set_sem lock (sem g lock - 1) g) (RB1 l n)
| rs_b1 l n : rstep g (RB1 l n) g (RB2 l n (var g readers))
| rs_b2 l n v : rstep g (RB2 l n v) (set_var readers (v - 1) g) (RB3 l n)
| rs_b3 l n : rstep g (RB3 l n) g (if var g readers =? 0 then RB4 l n else RB5 l n)
| rs_b4 l n : rstep g (RB4 l n) (set_sem writelock (sem g writelock + 1) g) (RB5 l n)
| rs_b5 l n : rstep g (RB5 l n) (set_sem lock (sem g lock + 1) g) (RPr l n)
| rs_w n : 0 < sem g writelock -> rstep g (WOut (S n)) (set_sem writelock (sem g writelock - 1) g) (WIn n)
| rs_win n : rstep g (WIn n) g (WOn n (var g counter))
| rs_won n v : rstep g (WOn n v) (set_var counter (v + 1) g) (WEnd n)
| rs_wend n : rstep g (WEnd n) (set_sem writelock (sem g writelock + 1) g) (WOut n)
| rs_print l n : rstep g (RPr l n) (add_output [l] g) (ROut l n)
| rs_rdone l : rstep g (ROut l 0) (add_output [l] g) Gone
| rs_wdone : rstep g (WOut 0) (add_output [] g) Gone.

Lemma code_step g x f g' t' :
  code x = Step f -> (g', t') ∈ f g -> exists y, t' = code y /\ rstep g x g' y.
Proof.
  assert (forall b (p : shared * thread) l, p ∈ (if b : bool then [l] else []) -> b = true /\ p = l) as Hif.
  { intros [] p l Hp; [by apply list_elem_of_singleton in Hp|by apply elem_of_nil in Hp]. }
  intros Hc Hf.
  destruct x as [l [|n]|n|n v|n|n|n|n|l n|l n|l n v|l n|l n|l n|l n|[|n]|n|n v|n|]; simpl in Hc; try done;
    injection Hc as <-; cbv beta in Hf;
    first [apply Hif in Hf as [Hlt%Z.ltb_lt [= -> ->]] | apply list_elem_of_singleton in Hf as [= -> ->]].
  - exists Gone. split; [done|by constructor].
  - exists (RA1 n). split; [done|by constructor].
  - exists (RA2 n (var g readers)). split; [done|constructor].
  - exists (RA3 n). split; [done|constructor].
  - eexists. split; [|constructor]. by destruct (var g readers =? 1).
  - exists (RA5 n). split; [done|by constructor].
  - exists (RIn n). split; [done|constructor].
  - exists (ROn (var g counter) n). split; [done|constructor].
  - exists (RB1 l n). split; [done|by constructor].
  - exists (RB2 l n (var g readers)). split; [done|constructor].
  - exists (RB3 l n). split; [done|constructor].
  - eexists. split; [|constructor]. by destruct (var g readers =? 0).
  - exists (RB5 l n). split; [done|constructor].
  - exists (RPr l n). split; [done|constructor].
  - exists (ROut l n). split; [done|constructor].
  - exists Gone. split; [done|constructor].
  - exists (WIn n). split; [done|by constructor].
  - exists (WOn n (var g counter)). split; [done|constructor].
  - exists (WEnd n). split; [done|constructor].
  - exists (WOut n). split; [done|constructor].
Qed.

Lemma sem_lock_wl g v : sem (set_sem lock v g) writelock = sem g writelock.
Proof. by rewrite sem_set, decide_False. Qed.
Lemma sem_wl_lock g v : sem (set_sem writelock v g) lock = sem g lock.
Proof. by rewrite sem_set, decide_False. Qed.
Lemma var_counter g v : var (set_var counter v g) readers = var g readers.
Proof. by rewrite var_set, decide_False. Qed.

Ltac rw_simpl := repeat (rewrite ?sem_lock_wl, ?sem_wl_lock, ?sem_eq, ?var_eq, ?var_counter, ?sem_set_var, ?var_set_sem in *;
  cbn [has_lock counted writing knows Z.b2z Z.of_nat] in * ).

Ltac rw_go R Hi :=
  eapply rw_move; [exact R|exact Hi|..]; rw_simpl; simpl; try done; try lia; try (intros; exfalso; lia).

Lemma rstep_inv g xs grp i x g' y :
  rwinv g xs grp -> xs !! i = Some x -> rstep g x g' y ->
  exists grp', rwinv g' (<[i := y]> xs) grp'.
Proof.
  intros R Hi Hs. pose proof R as [H1 H2 H3 H4 H5 H6 H7].
  pose proof (H6 x ltac:(by eapply list_elem_of_lookup_2)) as Hk.
  pose proof (sum_ge has_lock xs i x Hi) as Gl. pose proof (sum_ge counted xs i x Hi) as Gc.
  pose proof (sum_ge writing xs i x Hi) as Gw. unfold count in H1, H3, H4.
  assert (0 <= var g readers) as Hr0 by lia.
  destruct Hs; simpl in Hk, Gl, Gc, Gw.
  - exists grp. rw_go R Hi.
    apply H7. lia.
  - exists grp. rw_go R Hi.
  - destruct Hk as [-> Hg]. exists grp. rw_go R Hi.
    rewrite Hg. destruct (Z.ltb_spec 0 (var g readers)), (Z.ltb_spec 1 (var g readers + 1)); lia || done.
  - exists grp. destruct (Z.eqb_spec (var g readers) 1); rw_go R Hi.
    + by rewrite Hk, e.
    + rewrite Hk. apply Z.ltb_lt. lia.
  - destruct Hk as [Hr Hg]. subst grp. exists true.
    rw_go R Hi.
  - exists grp. rw_go R Hi.
    intros _. rewrite Hk. symmetry. apply Z.ltb_lt. lia.
  - exists grp. rw_go R Hi.
  - exists grp. rw_go R Hi.
    rewrite H7 by lia. apply Z.ltb_lt. lia.
  - exists grp. rw_go R Hi.
  - destruct Hk as [-> Hg]. exists grp. rw_go R Hi.
  - exists grp. destruct (Z.eqb_spec (var g readers) 0); rw_go R Hi.
    rewrite Hk. symmetry. apply Z.ltb_lt. lia.
  - destruct Hk as [Hr Hg]. subst grp. exists false.
    rw_go R Hi.
  - exists grp. rw_go R Hi.
  - exists grp. rw_go R Hi.
  - exists grp. rw_go R Hi.
  - exists grp. rw_go R Hi.
  - exists grp. rw_go R Hi.
  - exists grp. rw_go R Hi.
  - exists grp. rw_go R Hi.
  - exists grp. rw_go R Hi.
Qed.

(** ** No update of counter is lost *)

(** Increments a writer has still to store. *)
Definition todo (x : phase) : nat :=
  match x with WOut n | WEnd n => n | WIn n | WOn n _ => S n | _ => 0 end.

Record cinv (g : shared) (xs : list phase) (total : Z) : Prop := mk_cinv {
  ci_sum : var g counter + count todo xs = total;
  ci_read n v : WOn n v ∈ xs -> v = var g counter }.

Lemma rstep_counter g xs grp i x g' y total :
  rwinv g xs grp -> xs !! i = Some x -> rstep g x g' y -> cinv g xs total -> cinv g' (<[i := y]> xs) total.
Proof.
  intros R Hi Hs [C1 C2].
  assert (forall n v, WOn n v ∈ <[i := y]> xs -> WOn n v = y \/ exists j, j <> i /\ xs !! j = Some (WOn n v)) as Hin.
  { intros n v Hz. apply list_elem_of_lookup in Hz as [j Hj]. destruct (decide (j = i)) as [->|Hne].
    - rewrite list_lookup_insert_eq in Hj by (by eapply lookup_lt_Some). left. congruence.
    - rewrite list_lookup_insert_ne in Hj by done. eauto. }
  assert (var g' counter = var g counter -> todo x = todo y ->
    (forall n v, y = WOn n v -> v = var g' counter) -> cinv g' (<[i := y]> xs) total) as Hsame.
  { intros Ev Et Hy. constructor.
    - rewrite (count_insert _ _ _ _ _ Hi), Ev, Et. lia.
    - intros n v Hz. destruct (Hin n v Hz) as [Ey|(j & _ & Hj)]; [by eapply Hy|].
      rewrite Ev. apply (C2 n). by eapply list_elem_of_lookup_2. }
  assert (forall k v, xs !! i = Some (WOn k v) -> v = var g counter) as Hv.
  { intros k v Hk. apply (C2 k). by eapply list_elem_of_lookup_2. }
  destruct Hs; try (apply Hsame; [by rewrite ?var_set_sem, ?var_set, ?decide_False|done|done]).
  - apply Hsame; [done|by destruct (_ =? _)|by destruct (_ =? _)].
  - apply Hsame; [done|by destruct (_ =? _)|by destruct (_ =? _)].
  - apply Hsame; [done|done|]. by intros k w [= _ <-].
  - rewrite (Hv n v Hi). constructor.
    + rewrite (count_insert _ _ _ _ _ Hi), var_eq. simpl. lia.
    + intros k w Hz. destruct (Hin k w Hz) as [?|(j & Hj & Hk)]; [done|]. exfalso.
      pose proof (sum_ge2 writing xs i j _ _ Hi Hk ltac:(done)) as Hw. simpl in Hw.
      pose proof (rw_wl _ _ _ R) as H4. pose proof (rw_wl_pos _ _ _ R). unfold count in H4. destruct grp; simpl in H4; lia.
Qed.

(** ** Executions *)

Definition rw_start (rs ws : list nat) : config :=
  (rwlock_init, (reader <$> rs) ++ (writer <$> ws)).

Definition start_phases (rs ws : list nat) : list phase := (ROut 0 <$> rs) ++ (WOut <$> ws).

Lemma sum_fmap {A} (m : phase -> nat) (c : A -> phase) l :
  sum_list_with m (c <$> l) = sum_list_with (fun a => m (c a)) l.
Proof. induction l as [|a l IH]; [done|]. rewrite fmap_cons. simpl. by rewrite IH. Qed.

Lemma sum_scale k (l : list nat) : sum_list_with (fun n => 1 + k * n)%nat l = (length l + k * sum_list l)%nat.
Proof. induction l as [|a l IH]; cbn [sum_list_with length]; [lia|]. rewrite IH. unfold id. lia. Qed.

Lemma start_sum m rs ws :
  sum_list_with m (start_phases rs ws) =
  (sum_list_with (fun n => m (ROut 0 n)) rs + sum_list_with (fun n => m (WOut n)) ws)%nat.
Proof. unfold start_phases. by rewrite sum_list_with_app, !sum_fmap. Qed.

Lemma sum_none {A} (l : list A) : sum_list_with (fun _ => 0%nat) l = 0%nat.
Proof. induction l; simpl; lia. Qed.

Lemma start_inv rs ws :
  rwinv rwlock_init (start_phases rs ws) false /\
  cinv rwlock_init (start_phases rs ws) (Z.of_nat (sum_list ws)) /\
  rw_start rs ws = (rwlock_init, code <$> start_phases rs ws).
Proof.
  split; [|split].
  - constructor; unfold count; rewrite ?start_sum; cbn [has_lock counted writing]; rewrite ?sum_none; try done.
    intros x. unfold start_phases. rewrite elem_of_app. intros [Hx|Hx];
      apply list_elem_of_fmap in Hx as (n & -> & _); done.
  - constructor.
    + unfold count. rewrite start_sum. cbn [todo]. rewrite sum_none. done.
    + intros n v. unfold start_phases. rewrite elem_of_app. intros [Hx|Hx];
        apply list_elem_of_fmap in Hx as (k & ? & _); done.
  - unfold rw_start, start_phases. by rewrite fmap_app, <- !list_fmap_compose.
Qed.

Lemma rstep_fuel g x g' y : rstep g x g' y -> (fuel y < fuel x)%nat.
Proof. destruct 1; simpl; try destruct (_ =? _); simpl; lia. Qed.

Lemma rw_reachable rs ws k c :
  nsteps cstep k (rw_start rs ws) c ->
  exists g xs grp, c = (g, code <$> xs) /\ rwinv g xs grp /\ cinv g xs (Z.of_nat (sum_list ws)) /\
    (k + sum_list_with fuel xs <= length rs + 14 * sum_list rs + length ws + 4 * sum_list ws)%nat.
Proof.
  destruct (start_inv rs ws) as (R & C & E). rewrite E. clear E.
  assert (sum_list_with fuel (start_phases rs ws) <= length rs + 14 * sum_list rs + length ws + 4 * sum_list ws)%nat as Hf.
  { rewrite start_sum. cbn [fuel]. rewrite !sum_scale. lia. }
  revert R C Hf. generalize rwlock_init false (start_phases rs ws). intros g grp xs R C Hf H.
  remember (g, code <$> xs) as c0 eqn:E0. revert g xs grp R C Hf E0.
  set (b := (length rs + 14 * sum_list rs + length ws + 4 * sum_list ws)%nat). generalize b. clear b.
  induction H as [c|k c1 c2 c3 Hs _ IH]; intros b g xs grp R C Hf ->.
  - exists g, xs, grp. done.
  - destruct (phase_step code g xs c2 Hs) as (i & x & f & g' & t' & Hi & Hx & Hin & ->).
    destruct (code_step g x f g' t' Hx Hin) as (y & -> & Hr).
    destruct (rstep_inv g xs grp i x g' y R Hi Hr) as [grp' R'].
    pose proof (rstep_counter g xs grp i x g' y _ R Hi Hr C) as C'.
    pose proof (rstep_fuel _ _ _ _ Hr). pose proof (sum_insert fuel xs i x y Hi).
    destruct (IH (b - 1)%nat g' (<[i := y]> xs) grp' R' C') as (g2 & xs2 & grp2 & E2 & R2 & C2 & F2).
    + lia.
    + by rewrite phase_insert.
    + exists g2, xs2, grp2. split; [done|]. split; [done|]. split; [done|]. lia.
Qed.

Lemma code_enabled g x :
  match x with
  | Gone => True
  | ROut _ (S _) | ROn _ _ => 0 < sem g lock -> enabled g (code x) = true
  | RA4 _ | WOut (S _) => 0 < sem g writelock -> enabled g (code x) = true
  | _ => enabled g (code x) = true
  end.
Proof.
  destruct x as [l [|n]|n|n v|n|n|n|n|l n|l n|l n v|l n|l n|l n|l n|[|n]|n|n v|n|]; simpl; try done;
    by intros ->%Z.ltb_lt.
Qed.

Lemma rw_progress g xs grp i x :
  rwinv g xs grp -> xs !! i = Some x -> code x <> Done -> exists c', cstep (g, code <$> xs) c'.
Proof.
  intros [H1 H2 H3 H4 H5 H6 H7] Hi Hx.
  assert (forall j y, xs !! j = Some y -> enabled g (code y) = true -> exists c', cstep (g, code <$> xs) c') as Hgo.
  { intros j y Hj He. apply (enabled_step g (code <$> xs) j (code y)); [|done]. by rewrite list_lookup_fmap, Hj. }
  assert (forall j y, xs !! j = Some y -> (0 < writing y)%nat -> exists c', cstep (g, code <$> xs) c') as Hwr.
  { intros j y Hj Hw. apply (Hgo j y Hj). pose proof (code_enabled g y). by destruct y; simpl in Hw; try lia. }
  assert (sem g writelock = 0 -> grp = false -> exists c', cstep (g, code <$> xs) c') as Hwl.
  { intros Hz ->. unfold count in H4. simpl in H4. destruct (sum_pos writing xs) as (j & y & Hj & Hw); [lia|].
    by eapply Hwr. }
  destruct (decide (sem g lock = 1)) as [Hl|Hl].
  - pose proof (H7 Hl) as Hg. unfold count in H1.
    assert (0 < sem g lock) as Hl' by lia.
    assert (sem g writelock = 0 -> exists c', cstep (g, code <$> xs) c') as Hwl'.
    { intros Hz. destruct grp; [|by apply Hwl]. symmetry in Hg. apply Z.ltb_lt in Hg.
      unfold count in H3. destruct (sum_pos counted xs) as (j & y & Hj & Hc); [lia|].
      apply (Hgo j y Hj). pose proof (sum_ge has_lock xs j y Hj). pose proof (code_enabled g y).
      destruct y; simpl in *; try lia; auto. }
    pose proof (sum_ge has_lock xs i x Hi). pose proof (code_enabled g x) as He.
    destruct x as [l [|n]|n|n v|n|n|n|n|l n|l n|l n v|l n|l n|l n|l n|[|n]|n|n v|n|]; simpl in *; try done; try lia;
      try (apply (Hgo i _ Hi); auto; done).
    destruct (decide (sem g writelock = 0)); [auto|]. apply (Hgo i _ Hi), He. lia.
  - unfold count in H1. destruct (sum_pos has_lock xs) as (j & y & Hj & Hy); [lia|].
    pose proof (H6 y ltac:(by eapply list_elem_of_lookup_2)) as Hk. pose proof (code_enabled g y) as He.
    destruct y; simpl in Hy, Hk, He; try lia; try (by apply (Hgo j _ Hj)).
    destruct Hk as [_ ->]. destruct (decide (sem g writelock = 0)); [auto|]. apply (Hgo j _ Hj), He. lia.
Qed.

(** Readers that are inside keep the writers out. *)
Lemma rw_reading_grp g xs grp j x : rwinv g xs grp -> xs !! j = Some x -> reading x = true -> grp = true.
Proof.
  intros [H1 H2 H3 H4 H5 H6 H7] Hj Hx.
  assert (counted x = 1 /\ has_lock x = 0)%nat as [Cx Lx] by (by destruct x).
  pose proof (sum_ge counted xs j x Hj). unfold count in *.
  destruct (decide (sem g lock = 1)) as [Hl|Hl].
  - rewrite (H7 Hl). apply Z.ltb_lt. lia.
  - destruct (sum_pos has_lock xs) as (k & y & Hk & Hy); [lia|].
    assert (k <> j) as Hne by (intros ->; simplify_eq; lia).
    pose proof (sum_ge2 counted xs j k x y Hj Hk ltac:(done)) as Hc.
    pose proof (H6 y ltac:(by eapply list_elem_of_lookup_2)) as Ky.
    destruct y; simpl in Hy, Hc, Ky; try lia; destruct_and?; try done; try lia; subst; apply Z.ltb_lt; lia.
Qed.

Lemma rw_excl g xs grp i j x y :
  rwinv g xs grp -> xs !! i = Some x -> writing x = 1%nat -> xs !! j = Some y -> i <> j ->
  reading y = false /\ writing y = 0%nat.
Proof.
  intros R Hi Hx Hj Hne. pose proof (rw_wl _ _ _ R) as Hw. pose proof (rw_wl_pos _ _ _ R). unfold count in Hw.
  pose proof (sum_ge2 writing xs i j x y Hi Hj Hne). split; [|destruct grp; simpl in Hw; lia].
  destruct (reading y) eqn:E; [|done]. rewrite (rw_reading_grp g xs grp j y R Hj E) in Hw. simpl in Hw. lia.
Qed.

Lemma rw_done g xs total : cinv g xs total -> (forall t, t ∈ code <$> xs -> t = Done) -> var g counter = total.
Proof.
  intros [C _] Hf. assert (count todo xs = 0) as Hz; [|lia]. unfold count. clear C.
  induction xs as [|x xs IH]; [done|]. rewrite fmap_cons in Hf. cbn [sum_list_with].
  assert (todo x = 0%nat) as -> by (pose proof (Hf (code x) ltac:(left)); by destruct x as [l [|n]|n|n v|n|n|n|n|l n|l n|l n v|l n|l n|l n|l n|[|n]|n|n v|n|]).
  apply IH. intros t Ht. apply Hf. by right.
Qed.
