(* ===== verification/ProdCons.v ===== *)
(** * Bounded buffer with semaphores (threads-sema/producer_consumer_works.c)

    One producer puts the numbers 0 to loops-1 and then one end marker -1 for
    each consumer into a circular buffer of [max] cells; every consumer takes
    numbers until it gets a marker.  The semaphores empty and full count cells,
    mutex protects the buffer and its two indices. *)
From S2P Require Import Prelude Threads.

Definition s_empty : name := ("empty", 0).
Definition s_full : name := ("full", 0).
Definition s_mutex : name := ("mutex", 0).
Definition v_use : name := ("use", 0).
Definition v_fill : name := ("fill", 0).
Definition buffer (i : Z) : name := ("buffer", i).

Section prodcons.
Variable max : Z.

Definition do_fill (value : Z) (k : thread) : thread :=
  load v_fill (fun fill => store (buffer fill) value (
  load v_fill (fun fill => store v_fill (fill + 1) (
  load v_fill (fun fill =>
    if fill =? max then store v_fill 0 k else k))))).

Definition do_get (k : Z -> thread) : thread :=
  load v_use (fun use => load (buffer use) (fun tmp =>
  load v_use (fun use => store v_use (use + 1) (
  load v_use (fun use =>
    if use =? max then store v_use 0 (k tmp) else k tmp))))).

(** A loop of the producer over the values it puts. *)
Fixpoint produce (vs : list Z) (k : thread) : thread :=
  match vs with
  | [] => k
  | v :: vs' =>
      Sem_wait s_empty (
      Sem_wait s_mutex (
      do_fill v (
      Sem_post s_mutex (
      Sem_post s_full (
      produce vs' k)))))
  end.

Definition producer (loops : Z) (consumers : nat) : thread :=
  produce (seqZ 0 loops) (produce (replicate consumers (-1)) Done).

(** [while (tmp != -1)], for at most [n] rounds: a consumer that would need
    more is stuck, which the theorems exclude. *)
Fixpoint consumer_loop (arg tmp : Z) (n : nat) : thread :=
  if tmp =? -1 then Done
  else
    match n with
    | O => Step (fun _ => [])
    | S n' =>
        Sem_wait s_full (
        Sem_wait s_mutex (
        do_get (fun tmp =>
        Sem_post s_mutex (
        Sem_post s_empty (
        printf [arg; tmp] (
        consumer_loop arg tmp n'))))))
    end.

Definition consumer (arg : Z) (n : nat) : thread := consumer_loop arg 0 n.

(** main after its threads are created. *)
Definition pc_init : shared :=
  mkShared {[s_empty := max; s_full := 0; s_mutex := 1]} ∅ {[v_use := 0; v_fill := 0]} [].
Definition pc_start (loops : Z) (consumers : nat) : config :=
  (pc_init, producer loops consumers ::
    ((fun arg => consumer arg (Z.to_nat loops + consumers)) <$> seqZ 0 (Z.of_nat consumers))).

(** What the producer puts, in order. *)
Definition items (loops : Z) (consumers : nat) : list Z := seqZ 0 loops ++ replicate consumers (-1).

Lemma produce_app vs1 vs2 k : produce vs1 (produce vs2 k) = produce (vs1 ++ vs2) k.
Proof. induction vs1 as [|v vs1 IH]; simpl; [done|]. by rewrite IH. Qed.

(** ** Where the threads are *)

Inductive pphase :=
| PO (vs : list Z) | P1 (v : Z) (vs : list Z) | P2 (v : Z) (vs : list Z) | P3 (v : Z) (vs : list Z) (f : Z)
| P4 (v : Z) (vs : list Z) | P5 (v : Z) (vs : list Z) (f : Z) | P6 (v : Z) (vs : list Z) | P7 (v : Z) (vs : list Z)
| P8 (vs : list Z) | P9 (vs : list Z).

Inductive cphase :=
| CO (a t : Z) (n : nat) | C1 (a : Z) (n : nat) | C2 (a : Z) (n : nat) | C3 (a : Z) (n : nat) (u : Z)
| C4 (a : Z) (n : nat) (t : Z) | C5 (a : Z) (n : nat) (t u : Z) | C6 (a : Z) (n : nat) (t : Z)
| C7 (a : Z) (n : nat) (t : Z) | C8 (a : Z) (n : nat) (t : Z) | C9 (a : Z) (n : nat) (t : Z)
| C10 (a : Z) (n : nat) (t : Z).

Definition p_post vs : thread := Sem_post s_mutex (Sem_post s_full (produce vs Done)).
Definition p_cmp vs : thread := load v_fill (fun f => if f =? max then store v_fill 0 (p_post vs) else p_post vs).
Definition p_inc vs : thread := load v_fill (fun f => store v_fill (f + 1) (p_cmp vs)).

Definition pcode (x : pphase) : thread :=
  match x with
  | PO vs => produce vs Done
  | P1 v vs => Sem_wait s_mutex (do_fill v (p_post vs))
  | P2 v vs => do_fill v (p_post vs)
  | P3 v vs f => store (buffer f) v (p_inc vs)
  | P4 v vs => p_inc vs
  | P5 v vs f => store v_fill (f + 1) (p_cmp vs)
  | P6 v vs => p_cmp vs
  | P7 v vs => store v_fill 0 (p_post vs)
  | P8 vs => p_post vs
  | P9 vs => Sem_post s_full (produce vs Done)
  end.

Definition c_print a n t : thread := printf [a; t] (consumer_loop a t n).
Definition c_post a n t : thread := Sem_post s_mutex (Sem_post s_empty (c_print a n t)).
Definition c_cmp a n t : thread := load v_use (fun u => if u =? max then store v_use 0 (c_post a n t) else c_post a n t).
Definition c_inc a n t : thread := load v_use (fun u => store v_use (u + 1) (c_cmp a n t)).

Definition ccode (x : cphase) : thread :=
  match x with
  | CO a t n => consumer_loop a t n
  | C1 a n => Sem_wait s_mutex (do_get (c_post a n))
  | C2 a n => do_get (c_post a n)
  | C3 a n u => load (buffer u) (fun t => c_inc a n t)
  | C4 a n t => c_inc a n t
  | C5 a n t u => store v_use (u + 1) (c_cmp a n t)
  | C6 a n t => c_cmp a n t
  | C7 a n t => store v_use 0 (c_post a n t)
  | C8 a n t => c_post a n t
  | C9 a n t => Sem_post s_empty (c_print a n t)
  | C10 a n t => c_print a n t
  end.

(** The steps of the two kinds of thread. *)
Inductive pstep (g : shared) : pphase -> shared -> pphase -> Prop :=
| ps_0 v vs : 0 < sem g s_empty -> pstep g (PO (v :: vs)) (set_sem s_empty (sem g s_empty - 1) g) (P1 v vs)
| ps_1 v vs : 0 < sem g s_mutex -> pstep g (P1 v vs) (set_sem s_mutex (sem g s_mutex - 1) g) (P2 v vs)
| ps_2 v vs : pstep g (P2 v vs) g (P3 v vs (var g v_fill))
| ps_3 v vs f : pstep g (P3 v vs f) (set_var (buffer f) v g) (P4 v vs)
| ps_4 v vs : pstep g (P4 v vs) g (P5 v vs (var g v_fill))
| ps_5 v vs f : pstep g (P5 v vs f) (set_var v_fill (f + 1) g) (P6 v vs)
| ps_6 v vs : pstep g (P6 v vs) g (if var g v_fill =? max then P7 v vs else P8 vs)
| ps_7 v vs : pstep g (P7 v vs) (set_var v_fill 0 g) (P8 vs)
| ps_8 vs : pstep g (P8 vs) (set_sem s_mutex (sem g s_mutex + 1) g) (P9 vs)
| ps_9 vs : pstep g (P9 vs) (set_sem s_full (sem g s_full + 1) g) (PO vs).

Inductive costep (g : shared) : cphase -> shared -> cphase -> Prop :=
| ks_0 a t n : t <> -1 -> 0 < sem g s_full ->
    costep g (CO a t (S n)) (set_sem s_full (sem g s_full - 1) g) (C1 a n)
| ks_1 a n : 0 < sem g s_mutex -> costep g (C1 a n) (set_sem s_mutex (sem g s_mutex - 1) g) (C2 a n)
| ks_2 a n : costep g (C2 a n) g (C3 a n (var g v_use))
| ks_3 a n u : costep g (C3 a n u) g (C4 a n (var g (buffer u)))
| ks_4 a n t : costep g (C4 a n t) g (C5 a n t (var g v_use))
| ks_5 a n t u : costep g (C5 a n t u) (set_var v_use (u + 1) g) (C6 a n t)
| ks_6 a n t : costep g (C6 a n t) g (if var g v_use =? max then C7 a n t else C8 a n t)
| ks_7 a n t : costep g (C7 a n t) (set_var v_use 0 g) (C8 a n t)
| ks_8 a n t : costep g (C8 a n t) (set_sem s_mutex (sem g s_mutex + 1) g) (C9 a n t)
| ks_9 a n t : costep g (C9 a n t) (set_sem s_empty (sem g s_empty + 1) g) (C10 a n t)
| ks_10 a n t : costep g (C10 a n t) (add_output [a; t] g) (CO a t n).

Lemma elem_if (b : bool) (p l : shared * thread) : p ∈ (if b then [l] else []) -> b = true /\ p = l.
Proof. destruct b; [by intros ->%list_elem_of_singleton|by intros ?%elem_of_nil]. Qed.

Lemma pcode_step g x f g' t' :
  pcode x = Step f -> (g', t') ∈ f g -> exists y, t' = pcode y /\ pstep g x g' y.
Proof.
  intros Hc Hf. destruct x as [[|v vs]|v vs|v vs|v vs u|v vs|v vs u|v vs|v vs|vs|vs]; simpl in Hc; try done;
    injection Hc as <-; cbv beta in Hf;
    first [apply elem_if in Hf as [Hlt%Z.ltb_lt [= -> ->]] | apply list_elem_of_singleton in Hf as [= -> ->]];
    try by (eexists; split; [|econstructor; done]; done).
  eexists. split; [|constructor]. by destruct (_ =? _).
Qed.

Lemma ccode_step g x f g' t' :
  ccode x = Step f -> (g', t') ∈ f g -> exists y, t' = ccode y /\ costep g x g' y.
Proof.
  intros Hc Hf. destruct x as [a t n|a n|a n|a n u|a n t|a n t u|a n t|a n t|a n t|a n t|a n t]; simpl in Hc.
  1: destruct n as [|n]; simpl in Hc; destruct (Z.eqb_spec t (-1)); try done.
  all: injection Hc as <-; cbv beta in Hf;
    first [apply elem_if in Hf as [Hlt%Z.ltb_lt [= -> ->]] | apply list_elem_of_singleton in Hf as [= -> ->] |
      by apply elem_of_nil in Hf];
    try by (eexists; split; [|econstructor; done]; done).
  eexists. split; [|constructor]. by destruct (_ =? _).
Qed.

(** ** The invariant *)

(** Has the mutex; has taken a cell of the other side's semaphore but not yet
    moved the number; has moved it but not yet posted; has stepped the index
    past the cell. *)
Definition pm x : nat := match x with PO _ | P1 _ _ | P9 _ => 0 | _ => 1 end.
Definition pcl x : nat := match x with PO _ | P8 _ | P9 _ => 0 | _ => 1 end.
Definition pun x : nat := match x with P8 _ | P9 _ => 1 | _ => 0 end.
Definition pb x : nat := match x with P6 _ _ | P7 _ _ => 1 | _ => 0 end.
Definition cm x : nat := match x with CO _ _ _ | C1 _ _ | C9 _ _ _ | C10 _ _ _ => 0 | _ => 1 end.
Definition ccl x : nat := match x with CO _ _ _ | C8 _ _ _ | C9 _ _ _ | C10 _ _ _ => 0 | _ => 1 end.
Definition cun x : nat := match x with C8 _ _ _ | C9 _ _ _ => 1 | _ => 0 end.
Definition cb x : nat := match x with C6 _ _ _ | C7 _ _ _ => 1 | _ => 0 end.

(** The values still to be put; the values taken and not printed yet. *)
Definition pend x : list Z :=
  match x with
  | PO vs | P8 vs | P9 vs => vs
  | P1 v vs | P2 v vs | P3 v vs _ | P4 v vs | P5 v vs _ | P6 v vs | P7 v vs => v :: vs
  end.
Definition tmps x : list Z :=
  match x with C8 _ _ t | C9 _ _ t | C10 _ _ t => [t] | _ => [] end.

(** The consumer has not got its end marker yet; it has rounds left for the
    [len] numbers not taken yet. *)
Definition active x : nat :=
  match x with
  | CO _ t _ | C8 _ _ t | C9 _ _ t | C10 _ _ t => if t =? -1 then 0 else 1
  | _ => 1
  end.
Definition rounds_ok (len : nat) x : Prop :=
  match x with
  | CO _ _ n | C8 _ n _ | C9 _ n _ | C10 _ n _ => (len <= n)%nat
  | C1 _ n | C2 _ n | C3 _ n _ | C4 _ n _ | C5 _ n _ _ | C6 _ n _ | C7 _ n _ => (len <= S n)%nat
  end.

Definition fpos (u : Z) (q : list Z) : Z := (u + Z.of_nat (length q)) mod max.

(** What a thread that has the mutex knows. *)
Definition pknows (g : shared) u q x : Prop :=
  match x with
  | P3 v _ f => f = fpos u q
  | P4 v _ | P6 v _ => var g (buffer (fpos u q)) = v
  | P5 v _ f => var g (buffer (fpos u q)) = v /\ f = fpos u q
  | P7 v _ => var g (buffer (fpos u q)) = v /\ fpos u q + 1 = max
  | _ => True
  end.
Definition cknows (u : Z) (q : list Z) x : Prop :=
  match x with
  | C3 _ _ w => w = u
  | C4 _ _ t | C6 _ _ t => head q = Some t
  | C5 _ _ t w => head q = Some t /\ w = u
  | C7 _ _ t => head q = Some t /\ u + 1 = max
  | _ => True
  end.

Definition printed (g : shared) : list Z := (fun l => default 0 (l !! 1%nat)) <$> output g.
Definition markers (l : list Z) : nat := length (filter (fun v => v = -1) l).

(** [u] is the cell of the first number, [q] the numbers in the buffer, [got]
    the numbers taken so far. *)
Record pinv (its : list Z) (g : shared) (p : pphase) (cs : list cphase) (u : Z) (q got : list Z) : Prop := mk_pinv {
  i_mutex : sem g s_mutex + Z.of_nat (pm p + sum_list_with cm cs) = 1 /\ 0 <= sem g s_mutex;
  i_full : sem g s_full + Z.of_nat (pun p + sum_list_with ccl cs) = Z.of_nat (length q) /\ 0 <= sem g s_full;
  i_empty : sem g s_empty + Z.of_nat (pcl p + sum_list_with cun cs) = max - Z.of_nat (length q) /\ 0 <= sem g s_empty;
  i_u : 0 <= u < max;
  i_buf k v : q !! k = Some v -> var g (buffer ((u + Z.of_nat k) mod max)) = v;
  i_fill : var g v_fill = fpos u q + Z.of_nat (pb p);
  i_use : var g v_use = u + Z.of_nat (sum_list_with cb cs);
  i_pk : pknows g u q p;
  i_ck c : c ∈ cs -> cknows u q c;
  i_items : got ++ q ++ pend p = its;
  i_out : got ≡ₚ printed g ++ concat (tmps <$> cs);
  i_act : markers (q ++ pend p) = sum_list_with active cs;
  i_rounds c : c ∈ cs -> rounds_ok (length (q ++ pend p)) c }.

Lemma elem_insert {A} (l : list A) j x y c :
  l !! j = Some x -> c ∈ <[j := y]> l -> c = y \/ exists k, k <> j /\ l !! k = Some c.
Proof.
  intros Hj Hc. apply list_elem_of_lookup in Hc as [k Hk]. destruct (decide (k = j)) as [->|Hne].
  - rewrite list_lookup_insert_eq in Hk by (by eapply lookup_lt_Some). left. congruence.
  - rewrite list_lookup_insert_ne in Hk by done. right. eauto.
Qed.

Lemma concat_insert {A} (f : A -> list Z) l j x y :
  l !! j = Some x -> concat (f <$> <[j := y]> l) ++ f x ≡ₚ concat (f <$> l) ++ f y.
Proof.
  revert j. induction l as [|z l IH]; intros [|j] Hj; simplify_eq/=.
  - rewrite <- !app_assoc, (Permutation_app_comm _ (f x)), (Permutation_app_comm _ (f y)).
    rewrite !app_assoc. apply Permutation_app_tail, Permutation_app_comm.
  - rewrite <- !app_assoc. apply Permutation_app_head. by apply IH.
Qed.

Lemma perm_exchange {A} (a a' c c' s t : list A) :
  a' ++ t ≡ₚ a ++ s -> c' ++ s ≡ₚ c ++ t -> a ++ c ≡ₚ a' ++ c'.
Proof.
  intros H1 H2. assert (forall w x y z : list A, (w ++ x) ++ (y ++ z) ≡ₚ (w ++ y) ++ (x ++ z)) as H4.
  { intros w x y z. rewrite <- !app_assoc. apply Permutation_app_head. rewrite !app_assoc.
    apply Permutation_app_tail, Permutation_app_comm. }
  apply (Permutation_app_inv_r (s ++ t)). rewrite (H4 a c s t), <- H1, <- H2, (H4 a' t c' s).
  apply Permutation_app_head, Permutation_app_comm.
Qed.

Lemma cknows_free u q c : cm c = 0%nat -> cknows u q c.
Proof. by destruct c. Qed.
Lemma pknows_free g u q p : pm p = 0%nat -> pknows g u q p.
Proof. by destruct p. Qed.

Lemma fpos_range u q : 0 < max -> 0 <= fpos u q < max.
Proof. intros Hm. apply Z.mod_pos_bound. lia. Qed.

Lemma fpos_snoc u q v : fpos u (q ++ [v]) = (fpos u q + 1) mod max.
Proof. unfold fpos. rewrite length_app, Zplus_mod_idemp_l. simpl. f_equal. lia. Qed.

(** The cells of the buffer that are in use are not the next one to be filled. *)
Lemma cell_ne u q k :
  0 <= u < max -> Z.of_nat (length q) < max -> (k < length q)%nat -> (u + Z.of_nat k) mod max <> fpos u q.
Proof.
  intros Hu Hq Hk E. unfold fpos in E. assert ((Z.of_nat (length q) - Z.of_nat k) mod max = 0) as Hz.
  { replace (Z.of_nat (length q) - Z.of_nat k) with ((u + Z.of_nat (length q)) - (u + Z.of_nat k)) by lia.
    rewrite Zminus_mod, E, Z.sub_diag. apply Z.mod_0_l. lia. }
  rewrite Z.mod_small in Hz by lia. lia.
Qed.

(** A consumer moves without taking a number out. *)
Lemma c_move its g p cs u q got j x g' y :
  pinv its g p cs u q got -> cs !! j = Some x ->
  sem g' s_mutex + Z.of_nat (cm y) = sem g s_mutex + Z.of_nat (cm x) -> 0 <= sem g' s_mutex ->
  sem g' s_full + Z.of_nat (ccl y) = sem g s_full + Z.of_nat (ccl x) -> 0 <= sem g' s_full ->
  sem g' s_empty + Z.of_nat (cun y) = sem g s_empty + Z.of_nat (cun x) -> 0 <= sem g' s_empty ->
  (forall i, var g' (buffer i) = var g (buffer i)) -> var g' v_fill = var g v_fill ->
  var g' v_use + Z.of_nat (cb x) = var g v_use + Z.of_nat (cb y) -> cknows u q y ->
  printed g' ++ tmps y ≡ₚ printed g ++ tmps x -> active y = active x ->
  rounds_ok (length (q ++ pend p)) y ->
  pinv its g' p (<[j := y]> cs) u q got.
Proof.
  intros [M Fu Em Hu Hb Hf Hus Hpk Hck Hit Hout Hact Hr] Hj E1 P1' E2 P2' E3 P3' Eb Ef Eu Ky Ep Ea Ry.
  pose proof (sum_insert cm cs j x y Hj). pose proof (sum_insert ccl cs j x y Hj).
  pose proof (sum_insert cun cs j x y Hj). pose proof (sum_insert cb cs j x y Hj).
  pose proof (sum_insert active cs j x y Hj).
  constructor; try done; try lia.
  - intros k v Hk. rewrite Eb. by apply Hb.
  - destruct p; simpl in *; rewrite ?Eb; done.
  - intros c Hc. destruct (elem_insert cs j x y c Hj Hc) as [->|(k & _ & Hk)]; [done|].
    apply Hck. by eapply list_elem_of_lookup_2.
  - rewrite Hout. eapply perm_exchange; [exact Ep|]. by apply concat_insert.
  - intros c Hc. destruct (elem_insert cs j x y c Hj Hc) as [->|(k & _ & Hk)]; [done|].
    apply Hr. by eapply list_elem_of_lookup_2.
Qed.

(** The producer moves without putting a number in. *)
Lemma p_move its g p cs u q got g' p' :
  pinv its g p cs u q got ->
  sem g' s_mutex + Z.of_nat (pm p') = sem g s_mutex + Z.of_nat (pm p) -> 0 <= sem g' s_mutex ->
  sem g' s_full + Z.of_nat (pun p') = sem g s_full + Z.of_nat (pun p) -> 0 <= sem g' s_full ->
  sem g' s_empty + Z.of_nat (pcl p') = sem g s_empty + Z.of_nat (pcl p) -> 0 <= sem g' s_empty ->
  (forall k, (k < length q)%nat ->
    var g' (buffer ((u + Z.of_nat k) mod max)) = var g (buffer ((u + Z.of_nat k) mod max))) ->
  var g' v_use = var g v_use -> var g' v_fill + Z.of_nat (pb p) = var g v_fill + Z.of_nat (pb p') ->
  pknows g' u q p' -> output g' = output g -> pend p' = pend p ->
  pinv its g' p' cs u q got.
Proof.
  intros [M Fu Em Hu Hb Hf Hus Hpk Hck Hit Hout Hact Hr] E1 P1' E2 P2' E3 P3' Eb Eu Ef Kp Eo Ep.
  constructor; rewrite ?Ep; try done; try lia.
  - intros k v Hk. rewrite Eb by (by eapply lookup_lt_Some). by apply Hb.
  - unfold printed. by rewrite Eo.
Qed.

Lemma sum_le {A} (m1 m2 : A -> nat) l : (forall x, (m1 x <= m2 x)%nat) -> (sum_list_with m1 l <= sum_list_with m2 l)%nat.
Proof. intros Hle. induction l as [|x l IH]; simpl; [done|]. specialize (Hle x). lia. Qed.

(** The number [v] is in the buffer. *)
Lemma p_insert its g p cs u q got g' v vs :
  pinv its g p cs u q got -> p = P6 v vs \/ p = P7 v vs ->
  (forall x, sem g' x = sem g x) -> (forall i, var g' (buffer i) = var g (buffer i)) ->
  var g' v_use = var g v_use -> output g' = output g -> var g' v_fill = fpos u (q ++ [v]) ->
  pinv its g' (P8 vs) cs u (q ++ [v]) got.
Proof.
  intros [M Fu Em Hu Hb Hf Hus Hpk Hck Hit Hout Hact Hr] Hp Es Eb Eu Eo Ef.
  assert (pm p = 1 /\ pun p = 0 /\ pcl p = 1)%nat as (X1 & X2 & X3) by (by destruct Hp as [->| ->]).
  assert (pend p = v :: vs) as X4 by (by destruct Hp as [->| ->]).
  assert (var g (buffer (fpos u q)) = v) as X5 by (by destruct Hp as [->| ->]; [|destruct Hpk]).
  rewrite X4 in *. pose proof (length_app q [v]) as Hlen. simpl in Hlen.
  constructor; rewrite ?Es, ?Hlen; cbn [pm pun pcl pb pend pknows]; try done; try lia.
  - intros k w [Hk|[Hge Hk]]%lookup_app_Some; rewrite Eb; [by apply Hb|].
    apply list_lookup_singleton_Some in Hk as [Hk <-]. replace k with (length q) by lia. done.
  - intros c Hc. apply cknows_free. apply list_elem_of_lookup in Hc as [k Hk].
    pose proof (sum_ge cm cs k c Hk). lia.
  - by rewrite <- app_assoc.
  - unfold printed. by rewrite Eo.
  - by rewrite <- app_assoc.
  - intros c Hc. rewrite <- app_assoc. by apply Hr.
Qed.

Lemma markers_cons t l : markers (t :: l) = ((if decide (t = (-1)%Z) then 1 else 0) + markers l)%nat.
Proof. unfold markers. rewrite filter_cons. by case_decide. Qed.

Lemma rounds_mono len x : rounds_ok (S len) x -> rounds_ok len x.
Proof. destruct x; simpl; lia. Qed.

Lemma mod_step u k : 0 < max -> ((u + 1) mod max + Z.of_nat k) mod max = (u + Z.of_nat (S k)) mod max.
Proof. intros Hm. rewrite Zplus_mod_idemp_l. f_equal. lia. Qed.

(** The number [t] is out of the buffer. *)
Lemma c_remove its g p cs u q got j x g' a n t :
  pinv its g p cs u q got -> cs !! j = Some x -> x = C6 a n t \/ x = C7 a n t ->
  (forall z, sem g' z = sem g z) -> (forall i, var g' (buffer i) = var g (buffer i)) ->
  var g' v_fill = var g v_fill -> output g' = output g -> var g' v_use = (u + 1) mod max ->
  exists q', q = t :: q' /\ pinv its g' p (<[j := C8 a n t]> cs) ((u + 1) mod max) q' (got ++ [t]).
Proof.
  intros [M Fu Em Hu Hb Hf Hus Hpk Hck Hit Hout Hact Hr] Hj Hx Es Eb Ef Eo Eu.
  pose proof (Hck x ltac:(by eapply list_elem_of_lookup_2)) as Kx.
  pose proof (Hr x ltac:(by eapply list_elem_of_lookup_2)) as Rx.
  assert (head q = Some t) as Hh by (by destruct Hx as [->| ->]; [|destruct Kx]).
  destruct q as [|t' q']; [done|]. injection Hh as ->. exists q'. split; [done|].
  assert (cm x = 1 /\ ccl x = 1 /\ cun x = 0 /\ cb x = 1 /\ active x = 1)%nat as (X1 & X2 & X3 & X4 & X5)
    by (by destruct Hx as [->| ->]).
  assert (tmps x = []) as X6 by (by destruct Hx as [->| ->]).
  pose proof (sum_insert cm cs j x (C8 a n t) Hj). pose proof (sum_insert ccl cs j x (C8 a n t) Hj).
  pose proof (sum_insert cun cs j x (C8 a n t) Hj). pose proof (sum_insert cb cs j x (C8 a n t) Hj).
  pose proof (sum_insert active cs j x (C8 a n t) Hj) as Sa.
  assert (sum_list_with cb cs <= sum_list_with cm cs)%nat by (apply sum_le; intros []; simpl; lia).
  cbn [cm ccl cun cb active length] in *.
  assert (pm p = 0)%nat as Hpm by lia.
  constructor; rewrite ?Es; try lia.
  - by apply Z.mod_pos_bound; lia.
  - intros k v Hk. rewrite Eb, mod_step by lia. by apply (Hb (S k)).
  - rewrite Ef, Hf. unfold fpos. simpl length. by rewrite mod_step by lia.
  - by apply pknows_free.
  - intros c Hc. destruct (elem_insert cs j x _ c Hj Hc) as [->|(k & Hne & Hk)]; [done|].
    apply cknows_free. pose proof (sum_ge2 cm cs j k x c Hj Hk ltac:(done)). lia.
  - by rewrite <- app_assoc.
  - rewrite Hout. unfold printed. rewrite Eo. pose proof (concat_insert tmps cs j x (C8 a n t) Hj) as Hc.
    rewrite X6, app_nil_r in Hc. rewrite Hc. cbn [tmps]. by rewrite app_assoc.
  - cbn [app] in Hact. rewrite markers_cons in Hact. destruct (Z.eqb_spec t (-1)); case_decide; try lia.
  - intros c Hc. destruct (elem_insert cs j x _ c Hj Hc) as [->|(k & Hne & Hk)].
    + cbn [rounds_ok]. destruct Hx as [->| ->]; simpl in Rx; lia.
    + apply rounds_mono. apply (Hr c). by eapply list_elem_of_lookup_2.
Qed.

(** Different shared objects have different names. *)
Ltac name_ne := unfold buffer, v_use, v_fill, s_mutex, s_full, s_empty in *; congruence.
Ltac shared_simpl := repeat first
  [ rewrite sem_set_var | rewrite var_set_sem | rewrite sem_eq | rewrite sem_other by name_ne | rewrite var_eq | rewrite var_other by name_ne ].

Ltac p_go I :=
  eapply (p_move _ _ _ _ _ _ _ _ _ I); cbn [pm pcl pun pb pend pknows]; shared_simpl; try done; try lia;
  try (intros; shared_simpl; done).

Lemma pstep_inv its g p cs u q got g' p' :
  0 < max -> pinv its g p cs u q got -> pstep g p g' p' -> exists q', pinv its g' p' cs u q' got.
Proof.
  intros Hm I Hs. pose proof I as [M Fu Em Hu Hb Hf Hus Hpk Hck Hit Hout Hact Hr].
  pose proof (fpos_range u q Hm) as Hfp.
  destruct Hs; cbn [pm pcl pun pb pend pknows] in *.
  - exists q. p_go I.
  - exists q. p_go I.
  - exists q. p_go I.
  - exists q. subst f. p_go I.
    intros k Hk. rewrite var_other; [done|]. intros [= E]. symmetry in E.
    by apply (cell_ne u q k) in E; [|lia..].
  - exists q. p_go I.
  - destruct Hpk as [Hv ->]. exists q.
    p_go I.
  - destruct (Z.eqb_spec (var g v_fill) max) as [E|E].
    + exists q. p_go I.
    + exists (q ++ [v]). eapply p_insert; [exact I|by left|done..|]. rewrite fpos_snoc.
      rewrite Z.mod_small by lia. lia.
  - destruct Hpk as [Hv Hl]. exists (q ++ [v]). eapply p_insert; [exact I|by right|done|..]; shared_simpl; try done.
    + intros i. by rewrite var_other by name_ne.
    + rewrite fpos_snoc, Hl. by rewrite Z.mod_same by lia.
  - exists q. p_go I.
  - exists q. p_go I.
Qed.

(** Only the thread that has the mutex can have stepped the index. *)
Lemma holder_cb cs j x : cs !! j = Some x -> cm x = 1%nat -> (sum_list_with cm cs <= 1)%nat -> sum_list_with cb cs = cb x.
Proof.
  intros Hj Hx Hs. pose proof (sum_insert cm cs j x (CO 0 0 0) Hj). pose proof (sum_insert cb cs j x (CO 0 0 0) Hj).
  assert (sum_list_with cb (<[j := CO 0 0 0]> cs) <= sum_list_with cm (<[j := CO 0 0 0]> cs))%nat
    by (apply sum_le; intros []; simpl; lia).
  cbn [cm cb] in *. lia.
Qed.

Lemma printed_add g a t : printed (add_output [a; t] g) = printed g ++ [t].
Proof. unfold printed. cbn [output add_output]. by rewrite fmap_app. Qed.

Ltac c_go I Hj :=
  eapply (c_move _ _ _ _ _ _ _ _ _ _ _ I Hj); cbn [cm ccl cun cb active cknows tmps rounds_ok]; shared_simpl;
  try done; try lia; try (intros; shared_simpl; done).

Lemma costep_inv its g p cs u q got j x g' y :
  0 < max -> pinv its g p cs u q got -> cs !! j = Some x -> costep g x g' y ->
  exists u' q' got', pinv its g' p (<[j := y]> cs) u' q' got'.
Proof.
  intros Hm I Hj Hs. pose proof I as [M Fu Em Hu Hb Hf Hus Hpk Hck Hit Hout Hact Hr].
  pose proof (Hck x ltac:(by eapply list_elem_of_lookup_2)) as Kx.
  pose proof (Hr x ltac:(by eapply list_elem_of_lookup_2)) as Rx.
  pose proof (sum_ge ccl cs j x Hj) as Gc. pose proof (holder_cb cs j x Hj) as Hcb.
  destruct Hs as [a t n Ht Hf0|a n Hf1|a n|a n w|a n t|a n t w|a n t|a n t|a n t|a n t|a n t];
    cbn [cm ccl cun cb active cknows tmps rounds_ok] in *.
  - exists u, q, got. c_go I Hj. destruct (Z.eqb_spec t (-1)); lia.
  - exists u, q, got. c_go I Hj.
  - exists u, q, got. c_go I Hj.
  - exists u, q, got. subst w. c_go I Hj. destruct q as [|t q]; [simpl in Fu; lia|].
    rewrite <- (Hb 0%nat t) by done. simpl. by rewrite Z.add_0_r, Z.mod_small.
  - exists u, q, got. c_go I Hj. split; [done|]. lia.
  - destruct Kx as [Hh ->]. exists u, q, got. c_go I Hj.
  - destruct (Z.eqb_spec (var g v_use) max) as [E|E].
    + exists u, q, got. c_go I Hj. split; [done|]. lia.
    + destruct (c_remove its g p cs u q got j _ g a n t I Hj) as (q' & _ & I'); try done; [by left| |eauto].
      rewrite Z.mod_small; lia.
  - destruct Kx as [Hh Hl].
    destruct (c_remove its g p cs u q got j _ (set_var v_use 0 g) a n t I Hj) as (q' & _ & I');
      [by right|done|intros i|..|eauto]; rewrite ?var_eq, ?Hl, ?Z.mod_same by lia;
      rewrite ?var_other by name_ne; done.
  - exists u, q, got. c_go I Hj.
  - exists u, q, got. c_go I Hj.
  - exists u, q, got. c_go I Hj; [apply M|apply Fu|apply Em|]. by rewrite printed_add, app_nil_r.
Qed.

(** ** Executions *)

(** Steps the threads may still make. *)
Definition pfuel x : nat :=
  match x with
  | PO vs => 10 * length vs | P1 _ vs => 9 + 10 * length vs | P2 _ vs => 8 + 10 * length vs
  | P3 _ vs _ => 7 + 10 * length vs | P4 _ vs => 6 + 10 * length vs | P5 _ vs _ => 5 + 10 * length vs
  | P6 _ vs => 4 + 10 * length vs | P7 _ vs => 3 + 10 * length vs | P8 vs => 2 + 10 * length vs
  | P9 vs => 1 + 10 * length vs
  end.
Definition cfuel x : nat :=
  match x with
  | CO _ _ n => 11 * n | C1 _ n => 10 + 11 * n | C2 _ n => 9 + 11 * n | C3 _ n _ => 8 + 11 * n
  | C4 _ n _ => 7 + 11 * n | C5 _ n _ _ => 6 + 11 * n | C6 _ n _ => 5 + 11 * n | C7 _ n _ => 4 + 11 * n
  | C8 _ n _ => 3 + 11 * n | C9 _ n _ => 2 + 11 * n | C10 _ n _ => 1 + 11 * n
  end.

Lemma pstep_fuel g p g' p' : pstep g p g' p' -> (pfuel p' < pfuel p)%nat.
Proof. destruct 1; simpl; try destruct (_ =? _); simpl; lia. Qed.
Lemma costep_fuel g x g' y : costep g x g' y -> (cfuel y < cfuel x)%nat.
Proof. destruct 1; simpl; try destruct (_ =? _); simpl; lia. Qed.

Definition threads p cs : list thread := pcode p :: (ccode <$> cs).

Lemma pc_reachable its k g0 p0 cs0 u0 q0 got0 c :
  0 < max -> pinv its g0 p0 cs0 u0 q0 got0 -> nsteps cstep k (g0, threads p0 cs0) c ->
  exists g p cs u q got, c = (g, threads p cs) /\ pinv its g p cs u q got /\ length cs = length cs0 /\
    (k + pfuel p + sum_list_with cfuel cs <= pfuel p0 + sum_list_with cfuel cs0)%nat.
Proof.
  intros Hm I Hn. remember (g0, threads p0 cs0) as c0 eqn:E0. revert g0 p0 cs0 u0 q0 got0 I E0.
  induction Hn as [c|k c1 c2 c3 Hs _ IH]; intros g p cs u q got I ->.
  - exists g, p, cs, u, q, got. refine (conj eq_refl (conj I (conj eq_refl _))). lia.
  - inversion Hs as [i g1 ts f g' t' Hi Hf]; subst. destruct i as [|j]; unfold threads in Hi; simpl in Hi.
    + injection Hi as Hi. destruct (pcode_step g p f g' t' Hi Hf) as (p' & -> & Hp).
      destruct (pstep_inv its g p cs u q got g' p' Hm I Hp) as [q' I']. pose proof (pstep_fuel _ _ _ _ Hp).
      destruct (IH g' p' cs u q' got I' eq_refl) as (g2 & p2 & cs2 & u2 & q2 & got2 & -> & I2 & L2 & F2).
      exists g2, p2, cs2, u2, q2, got2. refine (conj eq_refl (conj I2 (conj L2 _))). lia.
    + apply list_lookup_fmap_Some in Hi as (x & Hx & Hj). symmetry in Hx.
      destruct (ccode_step g x f g' t' Hx Hf) as (y & -> & Hc).
      destruct (costep_inv its g p cs u q got j x g' y Hm I Hj Hc) as (u' & q' & got' & I').
      pose proof (costep_fuel _ _ _ _ Hc). pose proof (sum_insert cfuel cs j x y Hj).
      destruct (IH g' p (<[j := y]> cs) u' q' got' I') as (g2 & p2 & cs2 & u2 & q2 & got2 & -> & I2 & L2 & F2).
      { unfold threads. simpl. by rewrite phase_insert. }
      exists g2, p2, cs2, u2, q2, got2. rewrite length_insert in L2. refine (conj eq_refl (conj I2 (conj L2 _))). lia.
Qed.

(** A thread that is not waiting for a semaphore can go on. *)
Lemma pcode_mutex g x : pm x = 1%nat -> enabled g (pcode x) = true.
Proof. destruct x; simpl; intros; try done. Qed.
Lemma ccode_mutex g x : cm x = 1%nat -> enabled g (ccode x) = true.
Proof. destruct x; simpl; intros; try done. Qed.

Lemma markers_pos l : -1 ∈ l -> (0 < markers l)%nat.
Proof.
  intros Hl. unfold markers. destruct (filter _ l) eqn:E; [|simpl; lia].
  assert (-1 ∈ filter (fun v => v = -1) l) as Hin by (by apply list_elem_of_filter).
  rewrite E in Hin. by apply elem_of_nil in Hin.
Qed.

Lemma last_suffix l v (vs : list Z) : last (l ++ v :: vs) = Some (-1) -> -1 ∈ v :: vs.
Proof.
  rewrite last_app_cons. intros H. apply last_Some in H as [k ->]. set_solver.
Qed.

(** Nobody is inside: the buffer has a number for a waiting consumer or a free
    cell for the producer. *)
Lemma idle_progress its g vs cs u q got :
  0 < max -> last its = Some (-1) -> pinv its g (PO vs) cs u q got -> (forall c, c ∈ cs -> exists a t n, c = CO a t n) ->
  ~ finished (g, threads (PO vs) cs) ->
  enabled g (pcode (PO vs)) = true \/ exists j c, cs !! j = Some c /\ enabled g (ccode c) = true.
Proof.
  intros Hm Hl [M Fu Em Hu Hb Hf Hus Hpk Hck Hit Hout Hact Hr] Hco Hnf.
  assert (sum_list_with ccl cs = 0 /\ sum_list_with cun cs = 0)%nat as [Z1 Z2].
  { split; apply Nat.le_0_r; rewrite <- (Nat.mul_0_r (length cs)).
    all: clear -Hco; induction cs as [|c cs IH]; simpl; [done|].
    all: destruct (Hco c) as (a & t & n & ->); [left|]; simpl; apply IH; intros; apply Hco; by right. }
  cbn [pm pcl pun pb pend] in *.
  destruct vs as [|v vs].
  - destruct (decide (sum_list_with active cs = 0)%nat) as [Ha|Ha].
    + exfalso. apply Hnf. intros t Ht. unfold threads in Ht. cbn [snd] in Ht.
      apply elem_of_cons in Ht as [->|Ht]; [done|]. apply list_elem_of_fmap in Ht as (c & -> & Hc).
      pose proof (sum_zero _ _ _ Ha Hc) as Hz. destruct (Hco c Hc) as (a & t & n & ->).
      simpl in Hz. destruct n; simpl; by destruct (_ =? _).
    + destruct (sum_pos active cs) as (j & c & Hj & Hc); [lia|]. right. exists j, c. split; [done|].
      pose proof (Hr c ltac:(by eapply list_elem_of_lookup_2)) as Rc.
      destruct (Hco c ltac:(by eapply list_elem_of_lookup_2)) as (a & t & n & ->).
      simpl in Hc, Rc. rewrite app_nil_r in *. destruct q as [|t' q]; [by unfold markers in Hact; simpl in Hact; lia|].
      destruct n as [|n]; [simpl in Rc; lia|]. simpl. destruct (t =? -1); [lia|]. simpl in Fu.
      unfold enabled, Sem_wait. destruct (Z.ltb_spec 0 (sem g s_full)); [done|lia].
  - assert (-1 ∈ v :: vs) as Hin by (apply (last_suffix (got ++ q)); by rewrite <- app_assoc, Hit).
    pose proof (markers_pos (q ++ v :: vs) ltac:(set_solver)) as Hmk.
    destruct (decide (0 < sem g s_empty)) as [He|He].
    + left. simpl. unfold enabled, Sem_wait. destruct (Z.ltb_spec 0 (sem g s_empty)); [done|lia].
    + destruct (sum_pos active cs) as (j & c & Hj & Hc); [lia|]. right. exists j, c. split; [done|].
      pose proof (Hr c ltac:(by eapply list_elem_of_lookup_2)) as Rc.
      destruct (Hco c ltac:(by eapply list_elem_of_lookup_2)) as (a & t & n & ->).
      simpl in Hc, Rc. rewrite length_app in Rc.
      destruct n as [|n]; [simpl in Rc; lia|]. simpl. destruct (t =? -1); [lia|].
      unfold enabled, Sem_wait. destruct (Z.ltb_spec 0 (sem g s_full)); [done|lia].
Qed.

Lemma pc_progress its g p cs u q got :
  0 < max -> last its = Some (-1) -> pinv its g p cs u q got -> ~ finished (g, threads p cs) ->
  exists c', cstep (g, threads p cs) c'.
Proof.
  intros Hm Hl I Hnf.
  assert (enabled g (pcode p) = true \/ (exists j c, cs !! j = Some c /\ enabled g (ccode c) = true) ->
    exists c', cstep (g, threads p cs) c') as Hgo.
  { intros [He|(j & c & Hj & He)].
    - by eapply (enabled_step g (threads p cs) 0).
    - apply (enabled_step g (threads p cs) (S j) (ccode c)); [|done]. simpl. by rewrite list_lookup_fmap, Hj. }
  apply Hgo. pose proof (i_mutex _ _ _ _ _ _ _ I) as [M _].
  destruct (decide (0 < sem g s_mutex)) as [Hs|Hs].
  - destruct (decide (Exists (fun c => enabled g (ccode c) = true) cs)) as [Hex|Hno].
    { apply Exists_exists in Hex as (c & Hc & He). apply list_elem_of_lookup in Hc as [j Hj]. eauto. }
    destruct (enabled g (pcode p)) eqn:Hp; [by left|].
    assert (forall c, c ∈ cs -> exists a t n, c = CO a t n) as Hco.
    { intros c Hc. assert (enabled g (ccode c) <> true) as Hd by (intros He; apply Hno, Exists_exists; eauto).
      destruct c; eauto; exfalso; apply Hd; try done. simpl. unfold enabled, Sem_wait.
      by destruct (Z.ltb_spec 0 (sem g s_mutex)); [|lia]. }
    assert (exists vs, p = PO vs) as [vs ->].
    { destruct p; eauto; exfalso; try (by simpl in Hp). simpl in Hp. unfold enabled, Sem_wait in Hp.
      by destruct (Z.ltb_spec 0 (sem g s_mutex)); [|lia]. }
    rewrite <- Hp. by eapply idle_progress.
  - assert (pm p = 1 \/ 0 < sum_list_with cm cs)%nat as [Hpm|Hc] by (destruct p; simpl in *; lia).
    + left. by apply pcode_mutex.
    + right. apply sum_pos in Hc as (j & c & Hj & Hc). exists j, c. split; [done|]. apply ccode_mutex.
      destruct c; simpl in *; lia.
Qed.

(** When all threads have returned everything was printed. *)
Lemma pc_done its g p cs u q got :
  last its = Some (-1) -> pinv its g p cs u q got -> finished (g, threads p cs) ->
  printed g ≡ₚ its /\ sem g s_empty = max /\ sem g s_full = 0.
Proof.
  intros Hl [M Fu Em Hu Hb Hf Hus Hpk Hck Hit Hout Hact Hr] Hfin.
  assert (p = PO []) as ->.
  { pose proof (Hfin (pcode p) ltac:(left)) as Hp. by destruct p as [[|]| | | | | | | | |]. }
  assert (forall c, c ∈ cs -> active c = 0 /\ ccl c = 0 /\ cun c = 0 /\ tmps c = [])%nat as Hc.
  { intros c Hc. pose proof (Hfin (ccode c)) as Hd. unfold threads in Hd. cbn [snd] in Hd.
    specialize (Hd ltac:(right; apply list_elem_of_fmap; eauto)). destruct c as [a t n| | | | | | | | | |]; try done.
    destruct n; simpl in *; by destruct (_ =? _). }
  assert (sum_list_with active cs = 0 /\ sum_list_with ccl cs = 0 /\ sum_list_with cun cs = 0)%nat as (S1 & S2 & S3)
    by (clear -Hc; induction cs as [|c cs IH]; simpl; [done|]; destruct (Hc c ltac:(left)) as (-> & -> & -> & _);
        apply IH; intros; apply Hc; by right).
  assert (concat (tmps <$> cs) = []) as S4
    by (clear -Hc; induction cs as [|c cs IH]; simpl; [done|]; destruct (Hc c ltac:(left)) as (_ & _ & _ & ->);
        apply IH; intros; apply Hc; by right).
  cbn [pend pun pcl] in *. rewrite app_nil_r in *. destruct q as [|t q].
  - rewrite app_nil_r in Hit. subst its. rewrite Hout, S4, app_nil_r. simpl in *. lia || (split; [done|lia]).
  - pose proof (markers_pos (t :: q)) as Hm. rewrite <- Hit in Hl. apply last_suffix in Hl. specialize (Hm Hl). lia.
Qed.

(** ** The initial state *)

Lemma sum_const {A B} (m : B -> nat) (f : A -> B) n l :
  (forall x, m (f x) = n) -> sum_list_with m (f <$> l) = (n * length l)%nat.
Proof. intros H. induction l as [|x l IH]; [simpl; lia|]. rewrite fmap_cons. cbn [sum_list_with length]. rewrite H, IH. lia. Qed.

Lemma markers_app l1 l2 : markers (l1 ++ l2) = (markers l1 + markers l2)%nat.
Proof. unfold markers. by rewrite filter_app, length_app. Qed.

Lemma markers_none l : -1 ∉ l -> markers l = 0%nat.
Proof.
  induction l as [|x l IH]; intros Hl; [done|]. rewrite markers_cons, IH by set_solver.
  rewrite decide_False; [done|]. set_solver.
Qed.

Lemma markers_items loops consumers : markers (items loops consumers) = consumers.
Proof.
  unfold items. rewrite markers_app, markers_none.
  - induction consumers as [|n IH]; [done|]. cbn [replicate]. rewrite markers_cons, decide_True by done. lia.
  - intros Hx%elem_of_seqZ. lia.
Qed.

Lemma last_items loops consumers : (0 < consumers)%nat -> last (items loops consumers) = Some (-1).
Proof.
  intros Hc. unfold items. destruct consumers as [|n]; [lia|]. rewrite replicate_S_end, app_assoc. apply last_snoc.
Qed.

Definition consumers_at (loops : Z) (consumers : nat) : list cphase :=
  (fun arg => CO arg 0 (Z.to_nat loops + consumers)) <$> seqZ 0 (Z.of_nat consumers).

Lemma pc_start_threads loops consumers :
  pc_start loops consumers = (pc_init, threads (PO (items loops consumers)) (consumers_at loops consumers)).
Proof.
  unfold pc_start, threads, producer, consumers_at, items. rewrite produce_app, <- list_fmap_compose. done.
Qed.

Lemma pc_init_inv loops consumers :
  0 < max -> pinv (items loops consumers) pc_init (PO (items loops consumers)) (consumers_at loops consumers) 0 [] [].
Proof.
  intros Hm. pose proof (length_seqZ 0 (Z.of_nat consumers)) as Hlen. rewrite Nat2Z.id in Hlen.
  constructor; unfold consumers_at; rewrite ?(sum_const _ _ 0 _), ?(sum_const active _ 1 _) by done; try done; try lia.
  - change (sem pc_init s_empty) with max. cbn. lia.
  - intros c Hc. by apply list_elem_of_fmap in Hc as (a & -> & _).
  - clear. induction (seqZ 0 (Z.of_nat consumers)) as [|a l IH]; simpl; [done|]. done.
  - cbn [app pend]. rewrite markers_items. lia.
  - intros c Hc. apply list_elem_of_fmap in Hc as (a & -> & _). simpl. unfold items.
    rewrite length_app, length_replicate, length_seqZ. done.
Qed.

Lemma length_items loops consumers : length (items loops consumers) = (Z.to_nat loops + consumers)%nat.
Proof. unfold items. by rewrite length_app, length_replicate, length_seqZ. Qed.

Lemma consumers_fuel loops consumers :
  sum_list_with cfuel (consumers_at loops consumers) = (11 * (Z.to_nat loops + consumers) * consumers)%nat.
Proof.
  unfold consumers_at. rewrite (sum_const _ _ (11 * (Z.to_nat loops + consumers))) by done.
  by rewrite length_seqZ, Nat2Z.id.
Qed.
End prodcons.
