(* ===== verification/ThreadsThms.v ===== *)
(** * Theorems on the programs with threads

    Every property speaks of all interleavings: [nsteps cstep k c0 c] is an
    execution of [k] steps, whatever the order of the threads. *)
From S2P Require Import Prelude Threads Dining RwLock ProdCons.

(** C28: Five philosophers of dining_philosophers_no_deadlock.c with [n] rounds
    each never deadlock and always finish: an execution has at most [20 * n]
    steps, as long as a philosopher has not returned some thread can move, and
    when all have returned every fork is back on the table. *)
Theorem dining_finishes n k c :
  nsteps cstep k (table philosopher n) c ->
  (k <= 20 * n)%nat /\
  (~ finished c -> exists c', cstep c c') /\
  (finished c -> k = (20 * n)%nat /\ forall f, 0 <= f < 5 -> sem c.1 (forks f) = 1).
Proof.
  intros H. destruct (dinv_reachable n k c H) as (xs & own & D & E). split; [lia|]. split.
  - by eapply dinv_progress.
  - intros Hf. split; [|intros f; by eapply dinv_finished]. pose proof (dinv_total _ _ _ D Hf). lia.
Qed.

(** A complete execution: the philosophers eat one after the other. *)
Definition in_turn : list (nat * nat) := (fun i => (i / 4, 0)%nat) <$> seq 0 20.

Lemma dining_finishes_witness :
  exists c, run in_turn (table philosopher 1) = Some c /\ finished c /\ length in_turn = 20%nat /\
    forall f, 0 <= f < 5 -> sem c.1 (forks f) = 1.
Proof.
  destruct (run_checked all_returned in_turn (table philosopher 1)) as (c & E & Hf%all_returned_finished); [by vm_compute|].
  exists c. split; [done|]. split; [done|].
  destruct (dining_finishes 1 20 c (run_nsteps in_turn _ _ E)) as (_ & _ & H). destruct (H Hf) as [_ Hs].
  split; [done|exact Hs].
Defined.

(** The program of dining_philosophers_deadlock.c can deadlock however many
    rounds are asked for: every philosopher gets its left fork and then waits
    for the right one for ever. *)
Theorem dining_deadlocks n :
  exists c, rtc cstep (table philosopher_deadlock (S n)) c /\ deadlocked c /\
    forall f, 0 <= f < 5 -> sem c.1 (forks f) = 0.
Proof. rewrite table_deadlock. apply hungry_deadlock. Qed.

(** C27: The readers-writer lock of rwlock.c excludes: while a writer is between
    acquiring and releasing the lock, no other writer is, and no reader is
    between its acquire and the start of its release.  The threads of a
    reachable configuration are where the phases [xs] say. *)
Theorem rwlock_exclusion rs ws k c :
  nsteps cstep k (rw_start rs ws) c ->
  exists xs, c.2 = code <$> xs /\
    forall i j x y, xs !! i = Some x -> writing x = 1%nat -> xs !! j = Some y -> i <> j ->
      reading y = false /\ writing y = 0%nat.
Proof.
  intros H. destruct (rw_reachable rs ws k c H) as (g & xs & grp & -> & R & _). exists xs. split; [done|].
  intros i j x y. by eapply rw_excl.
Qed.

(** One reader and one writer; the writer has entered first and has read the
    counter, while the reader is waiting for it. *)
Definition writer_first : list (nat * nat) := [(1, 0); (1, 0); (0, 0); (0, 0); (0, 0); (0, 0)]%nat.

Lemma rwlock_exclusion_witness :
  exists c xs, run writer_first (rw_start [1%nat] [1%nat]) = Some c /\ c.2 = code <$> xs /\
    forall i j x y, xs !! i = Some x -> writing x = 1%nat -> xs !! j = Some y -> i <> j ->
      reading y = false /\ writing y = 0%nat.
Proof.
  destruct (run_checked (fun _ => true) writer_first (rw_start [1%nat] [1%nat])) as (c & E & _); [by vm_compute|].
  destruct (rwlock_exclusion [1%nat] [1%nat] 6 c (run_nsteps writer_first _ _ E)) as (xs & H1 & H2).
  exists c, xs. exact (conj E (conj H1 H2)).
Defined.

(** C32: The program of rwlock.c with any numbers of readers and writers always
    finishes, no increment of the counter is lost, and it cannot deadlock. *)
Theorem rwlock_finishes rs ws k c :
  nsteps cstep k (rw_start rs ws) c ->
  (k <= length rs + 14 * sum_list rs + length ws + 4 * sum_list ws)%nat /\
  (~ finished c -> exists c', cstep c c') /\
  (finished c -> var c.1 counter = Z.of_nat (sum_list ws)).
Proof.
  intros H. destruct (rw_reachable rs ws k c H) as (g & xs & grp & -> & R & C & F). split; [lia|]. split.
  - intros Hn. destruct (decide (Exists (fun x => returned (code x) = false) xs)) as [Hex|Hall].
    + apply Exists_exists in Hex as (x & Hin & Hr). apply list_elem_of_lookup in Hin as [i Hi].
      eapply (rw_progress g xs grp i x R Hi). by intros E; rewrite E in Hr.
    + exfalso. apply Hn. intros t Ht. apply list_elem_of_fmap in Ht as (x & -> & Hx).
      destruct (code x) eqn:E; [done|]. destruct Hall. apply Exists_exists. exists x. by rewrite E.
  - by apply rw_done.
Qed.

(** The writer first, then the reader with all its steps. *)
Definition writer_then_reader : list (nat * nat) := replicate 5 (1, 0)%nat ++ replicate 15 (0, 0)%nat.

Lemma rwlock_finishes_witness :
  exists c, run writer_then_reader (rw_start [1%nat] [1%nat]) = Some c /\ finished c /\ var c.1 counter = 1.
Proof.
  destruct (run_checked all_returned writer_then_reader (rw_start [1%nat] [1%nat])) as (c & E & Hf%all_returned_finished); [by vm_compute|].
  exists c. split; [done|]. split; [done|].
  destruct (rwlock_finishes [1%nat] [1%nat] 20 c (run_nsteps writer_then_reader _ _ E)) as (_ & _ & H). by apply H.
Defined.

(** C12: The bounded buffer of producer_consumer_works.c, for any positive size
    of the buffer, any number of rounds and at least one consumer, always
    finishes without deadlock.  At the end what the consumers printed is
    exactly what the producer put in, each number once and one end marker for
    each consumer, and the buffer is empty. *)
Theorem bounded_buffer_delivers max loops consumers k c :
  0 < max -> (0 < consumers)%nat -> nsteps cstep k (pc_start max loops consumers) c ->
  (k <= (10 + 11 * consumers) * (Z.to_nat loops + consumers))%nat /\
  (~ finished c -> exists c', cstep c c') /\
  (finished c -> printed c.1 ≡ₚ items loops consumers /\ sem c.1 s_empty = max /\ sem c.1 s_full = 0).
Proof.
  intros Hm Hc. rewrite pc_start_threads. intros H.
  destruct (pc_reachable max _ _ _ _ _ _ _ _ _ Hm (pc_init_inv max loops consumers Hm) H)
    as (g & p & cs & u & q & got & -> & I & _ & F).
  pose proof (last_items loops consumers Hc) as Hl. split; [|split].
  - rewrite (consumers_fuel loops consumers) in F. cbn [pfuel] in F. rewrite length_items in F. lia.
  - by eapply pc_progress.
  - intros Hf. by eapply pc_done.
Qed.

(** A buffer of one cell: producer and consumer alternate. *)
Definition alternate : list (nat * nat) :=
  replicate 10 (0, 0)%nat ++ replicate 11 (1, 0)%nat ++ replicate 10 (0, 0)%nat ++ replicate 11 (1, 0)%nat.

Lemma bounded_buffer_delivers_witness :
  exists c, run alternate (pc_start 1 1 1) = Some c /\ finished c /\ printed c.1 ≡ₚ [0; -1].
Proof.
  destruct (run_checked all_returned alternate (pc_start 1 1 1)) as (c & E & Hf%all_returned_finished); [by vm_compute|].
  exists c. split; [done|]. split; [done|].
  destruct (bounded_buffer_delivers 1 1 1 42 c ltac:(lia) ltac:(lia) (run_nsteps alternate _ _ E)) as (_ & _ & H).
  by destruct (H Hf).
Defined.

(** At every point of every execution of producer_consumer_works.c the
    circular buffer is a queue between the producer and the consumers: the
    producer's sequence splits into what was taken out, the at most [max]
    numbers that lie in the cells from [u] on, wrapping around, and what is
    still to be put in; nothing is printed that was not taken out, and nothing
    more often than it was. *)
Theorem bounded_buffer_queue max loops consumers k c :
  0 < max -> nsteps cstep k (pc_start max loops consumers) c ->
  exists got q todo u,
    items loops consumers = got ++ q ++ todo /\ Z.of_nat (length q) <= max /\ printed c.1 ⊆+ got /\
    0 <= u < max /\ forall i v, q !! i = Some v -> var c.1 (buffer ((u + Z.of_nat i) mod max)) = v.
Proof.
  intros Hm. rewrite pc_start_threads. intros H.
  destruct (pc_reachable max _ _ _ _ _ _ _ _ _ Hm (pc_init_inv max loops consumers Hm) H)
    as (g & p & cs & u & q & got & -> & I & _ & F).
  destruct I as [M Fu Em Hu Hb Hf Hus Hpk Hck Hit Hout Hact Hr].
  exists got, q, (pend p), u. split; [done|]. split; [lia|]. split; [|done].
  rewrite Hout. apply submseteq_inserts_r. done.
Qed.

(** The producer fills a buffer of two cells and waits. *)
Lemma bounded_buffer_queue_witness :
  exists c got q todo, run (replicate 19 (0, 0)%nat) (pc_start 2 3 1) = Some c /\
    items 3 1 = got ++ q ++ todo /\ Z.of_nat (length q) <= 2 /\ printed c.1 ⊆+ got.
Proof.
  destruct (run_checked (fun _ => true) (replicate 19 (0, 0)%nat) (pc_start 2 3 1)) as (c & E & _); [by vm_compute|].
  destruct (bounded_buffer_queue 2 3 1 19 c ltac:(lia) (run_nsteps _ _ _ E)) as (got & q & todo & u & H1 & H2 & H3 & _).
  exists c, got, q, todo. exact (conj E (conj H1 (conj H2 H3))).
Defined.
