(* ===== verification/Chksum.v ===== *)
(** * net/lwip/core/ipv4/inet_chksum.c: the Internet checksum

    The three variants of lwip_standard_chksum, the functions over chains of
    buffers, and their equality with one's complement addition of RFC 1071.
    A buffer is the list of its bytes; the variants that read words get its
    address too.  A chain of pbufs is the list of their payloads. *)
From S2P Require Import Prelude Mem.

(** core/ipv4/inet.c *)
Definition htons (n : Z) : Z := u16 (Z.lor (Z.shiftl (Z.land n 0xff) 8) (Z.shiftr (Z.land n 0xff00) 8)).

Definition SWAP_BYTES_IN_WORD (w : Z) : Z :=
  Z.lor (u32 (Z.shiftl (Z.land w 0xff) 8)) (Z.shiftr (Z.land w 0xff00) 8).
Definition FOLD_U32T (u : Z) : Z := u32 (Z.shiftr u 16 + Z.land u 0xffff).

Module Chksum1.
Fixpoint sum_words (data : list Z) (acc : Z) : Z :=
  match data with
  | b0 :: b1 :: data => sum_words data (u32 (acc + Z.lor (u16 (Z.shiftl b0 8)) b1))
  | [b0] => u32 (acc + u16 (Z.shiftl b0 8))
  | [] => acc
  end.

Definition lwip_standard_chksum (data : list Z) : Z :=
  let acc := sum_words data 0 in
  let acc := FOLD_U32T acc in
  let acc := if negb (Z.land acc 0xffff0000 =? 0) then FOLD_U32T acc else acc in
  htons (u16 acc).
End Chksum1.

Definition le16 (b0 b1 : Z) : Z := b0 + 2^8 * b1.
Definition le32 (b0 b1 b2 b3 : Z) : Z := le16 b0 b1 + 2^16 * le16 b2 b3.

(** [while (len > 1) sum += *ps++;] with the bytes that are left. *)
Fixpoint sum_halves (data : list Z) (sum : Z) : Z * list Z :=
  match data with
  | b0 :: b1 :: data => sum_halves data (u32 (sum + le16 b0 b1))
  | _ => (sum, data)
  end.

(** The leading byte of a buffer at an odd address becomes the high byte of [t]. *)
Definition head_byte (odd : bool) (data : list Z) : Z * list Z :=
  match data with
  | b :: data' => if odd then (2^8 * b, data') else (0, data)
  | [] => (0, [])
  end.

(** The end of variants 2 and 3: the byte left over becomes the low byte of [t]. *)
Definition finish (odd : bool) (sum t : Z) (rest : list Z) : Z :=
  let t := match rest with b :: _ => t + b | [] => t end in
  let sum := u32 (sum + t) in
  let sum := FOLD_U32T (FOLD_U32T sum) in
  u16 (if odd then SWAP_BYTES_IN_WORD sum else sum).

Module Chksum2.
Definition lwip_standard_chksum (dataptr : Z) (data : list Z) : Z :=
  let odd := Z.land dataptr 1 =? 1 in
  let '(t, data) := head_byte odd data in
  let '(sum, rest) := sum_halves data 0 in
  finish odd sum t rest.
End Chksum2.

Module Chksum3.
(** [tmp = sum + w; if (tmp < sum) tmp++;] *)
Definition add_carry (sum w : Z) : Z :=
  let tmp := u32 (sum + w) in if tmp <? sum then u32 (tmp + 1) else tmp.

(** [while (len > 7)]: two 32-bit words at a time. *)
Fixpoint sum_longs (data : list Z) (sum : Z) : Z * list Z :=
  match data with
  | b0 :: b1 :: b2 :: b3 :: b4 :: b5 :: b6 :: b7 :: data =>
      sum_longs data (add_carry (add_carry sum (le32 b0 b1 b2 b3)) (le32 b4 b5 b6 b7))
  | _ => (sum, data)
  end.

Definition lwip_standard_chksum (dataptr : Z) (data : list Z) : Z :=
  let odd := Z.land dataptr 1 =? 1 in
  let '(t, data1) := head_byte odd data in
  let ps := dataptr + Z.of_nat (length data - length data1) in
  let '(sum, data2) :=
    match data1 with
    | b0 :: b1 :: data2 => if negb (Z.land ps 3 =? 0) then (le16 b0 b1, data2) else (0, data1)
    | _ => (0, data1)
    end in
  let '(sum, data3) := sum_longs data2 sum in
  let sum := FOLD_U32T sum in
  let '(sum, rest) := sum_halves data3 sum in
  finish odd sum t rest.
End Chksum3.

(** ** Chains of buffers

    LWIP_CHKSUM is the first variant, which inet_chksum.c selects unless told
    otherwise. *)

Definition LWIP_CHKSUM : list Z -> Z := Chksum1.lwip_standard_chksum.

Definition lnot16 (x : Z) : Z := u16 (Z.lnot (Z.land x 0xffff)).

Definition inet_chksum (data : list Z) : Z := u16 (Z.lnot (LWIP_CHKSUM data)).

(** One buffer of the chain: the accumulator and the flag [swapped]. *)
Definition add_pbuf (len : Z) (data : list Z) (st : Z * bool) : Z * bool :=
  let '(acc, swapped) := st in
  let acc := FOLD_U32T (u32 (acc + LWIP_CHKSUM data)) in
  if negb (len `mod` 2 =? 0) then (SWAP_BYTES_IN_WORD acc, negb swapped) else (acc, swapped).

Definition unswap (st : Z * bool) : Z :=
  let '(acc, swapped) := st in if swapped then SWAP_BYTES_IN_WORD acc else acc.

Definition sum_chain (chain : list (list Z)) : Z :=
  unswap (fold_left (fun st data => add_pbuf (Z.of_nat (length data)) data st) chain (0, false)).

Definition inet_chksum_pbuf (chain : list (list Z)) : Z := lnot16 (sum_chain chain).

Definition add_pseudo (acc src dest proto proto_len : Z) : Z :=
  let acc := u32 (acc + Z.land src 0xffff) in
  let acc := u32 (acc + Z.land (Z.shiftr src 16) 0xffff) in
  let acc := u32 (acc + Z.land dest 0xffff) in
  let acc := u32 (acc + Z.land (Z.shiftr dest 16) 0xffff) in
  let acc := u32 (acc + htons proto) in
  let acc := u32 (acc + htons proto_len) in
  lnot16 (FOLD_U32T (FOLD_U32T acc)).

Definition inet_chksum_pseudo (chain : list (list Z)) (src dest proto proto_len : Z) : Z :=
  add_pseudo (sum_chain chain) src dest proto proto_len.

(** Stops after [chksum_len] bytes; None is the failure of the assertion. *)
Fixpoint sum_partial (chain : list (list Z)) (chksum_len : Z) (st : Z * bool) : option (Z * bool) :=
  match chain with
  | [] => Some st
  | data :: chain =>
      if 0 <? chksum_len then
        let len := Z.of_nat (length data) in
        let chklen := if chksum_len <? len then chksum_len else len in
        let st := add_pbuf len (take (Z.to_nat chklen) data) st in
        if chksum_len - chklen <? 0x7fff then sum_partial chain (chksum_len - chklen) st else None
      else Some st
  end.

Definition inet_chksum_pseudo_partial (chain : list (list Z)) (src dest proto proto_len chksum_len : Z) : option Z :=
  st ← sum_partial chain chksum_len (0, false);
  Some (add_pseudo (unswap st) src dest proto proto_len).

(** ** One's complement addition (RFC 1071) *)

Definition onec_add (a b : Z) : Z := let s := a + b in if s <? 2^16 then s else s - 2^16 + 1.

(** The 16-bit words of the bytes in network order, the last one padded. *)
Fixpoint be_words (l : list Z) : list Z :=
  match l with
  | b0 :: b1 :: l => (2^8 * b0 + b1) :: be_words l
  | [b0] => [2^8 * b0]
  | [] => []
  end.

Definition rfc1071 (l : list Z) : Z := foldr onec_add 0 (be_words l).

Definition bytes_ok (l : list Z) : Prop := Forall (fun b => 0 <= b < 2^8) l.

(** ** Sums modulo 65535

    One's complement addition is addition modulo 65535 that keeps the two
    zeros apart: [same] relates sums with the same 16-bit result. *)

Definition same (s t : Z) : Prop :=
  0 <= s /\ 0 <= t /\ (exists k, s = t + 65535 * k) /\ (s = 0 <-> t = 0).

(** The representative in [0, 65535]. *)
Definition red (s : Z) : Z := if s =? 0 then 0 else (s - 1) `mod` 65535 + 1.

#[export] Instance same_sym : Symmetric same.
Proof. intros s t (Hs & Ht & (k & ->) & Hz). split; [done|]. split; [done|]. split; [exists (-k); lia|]. lia. Qed.

#[export] Instance same_trans : Transitive same.
Proof.
  intros s t u (Hs & Ht & (k & ->) & Hz) (_ & Hu & (j & ->) & Hz'). split; [done|]. split; [done|].
  split; [exists (k + j); lia|]. lia.
Qed.

#[export] Instance add_same : Proper (same ==> same ==> same) Z.add.
Proof.
  intros s t (Hs & Ht & (k & ->) & Hz) s' t' (Hs' & Ht' & (j & ->) & Hz'). split; [lia|]. split; [lia|].
  split; [exists (k + j); lia|]. lia.
Qed.

Lemma same_refl s : 0 <= s -> same s s.
Proof. intros. split; [done|]. split; [done|]. split; [exists 0; lia|done]. Qed.

Lemma same_mul c s t : 0 < c -> same s t -> same (c * s) (c * t).
Proof.
  intros Hc (Hs & Ht & (k & ->) & Hz). split; [nia|]. split; [nia|]. split; [exists (c * k); lia|]. nia.
Qed.

(** 256 is its own inverse, and so is 65536 of itself. *)
Lemma same_65536 s : 0 <= s -> same (65536 * s) s.
Proof. intros. split; [lia|]. split; [done|]. split; [exists s; lia|]. lia. Qed.

Lemma red_range s : 0 <= red s <= 65535.
Proof. unfold red. destruct (Z.eqb_spec s 0); [lia|]. pose proof (Z.mod_pos_bound (s - 1) 65535). lia. Qed.

Lemma same_red s : 0 <= s -> same (red s) s.
Proof.
  intros Hs. pose proof (red_range s). unfold red in *. destruct (Z.eqb_spec s 0) as [->|]; [by apply same_refl|].
  split; [lia|]. split; [lia|]. split; [|pose proof (Z.mod_pos_bound (s - 1) 65535); lia].
  exists (- ((s - 1) / 65535)). pose proof (Z.div_mod (s - 1) 65535). lia.
Qed.

Lemma same_small s t : same s t -> s <= 65535 -> t <= 65535 -> s = t.
Proof. intros (Hs & Ht & (k & ->) & Hz) H1 H2. assert (k = 0 \/ k = 1 \/ k = -1) as [->|[->| ->]] by lia; lia. Qed.

Lemma red_unique x s : same x s -> x <= 65535 -> x = red s.
Proof.
  intros H Hx. apply same_small; [|done|apply red_range]. etransitivity; [exact H|]. symmetry. apply same_red, H.
Qed.

Lemma red_same s t : same s t -> red s = red t.
Proof. intros H. apply red_unique; [|apply red_range]. etransitivity; [apply same_red, H|done]. Qed.

Lemma fold_eq u : 0 <= u < 2^32 -> FOLD_U32T u = u / 65536 + u `mod` 65536.
Proof.
  intros Hu. unfold FOLD_U32T. rewrite Z.shiftr_div_pow2 by lia.
  change 0xffff with (Z.ones 16). rewrite Z.land_ones by lia. apply u32_small. Z.div_mod_to_equations. lia.
Qed.

Lemma same_fold u : 0 <= u < 2^32 -> same (FOLD_U32T u) u.
Proof.
  intros Hu. rewrite fold_eq by done. split; [Z.div_mod_to_equations; lia|]. split; [lia|]. split.
  - exists (- (u / 65536)). Z.div_mod_to_equations; lia.
  - Z.div_mod_to_equations; lia.
Qed.

(** One fold is enough for the sum of two 16-bit words, two for 32 bits. *)
Lemma fold_red u : 0 <= u <= 0x1fffe -> FOLD_U32T u = red u.
Proof. intros Hu. apply red_unique; [apply same_fold; lia|]. rewrite fold_eq by lia. Z.div_mod_to_equations; lia. Qed.

Lemma fold_bound u : 0 <= u < 2^32 -> 0 <= FOLD_U32T u <= 0x1fffe.
Proof. intros Hu. rewrite fold_eq by lia. Z.div_mod_to_equations; lia. Qed.

Lemma fold2_red u : 0 <= u < 2^32 -> FOLD_U32T (FOLD_U32T u) = red u.
Proof. intros Hu. rewrite fold_red by (by apply fold_bound). by apply red_same, same_fold. Qed.

Lemma swap_eq w : 0 <= w <= 65535 -> SWAP_BYTES_IN_WORD w = red (256 * w) /\ htons w = red (256 * w).
Proof.
  intros Hw. assert (Z.lor (Z.shiftl (Z.land w 0xff) 8) (Z.shiftr (Z.land w 0xff00) 8) = w `mod` 256 * 256 + w / 256) as E.
  { change 0xff with (Z.ones 8). rewrite Z.land_ones, Z.shiftl_mul_pow2 by lia. rewrite Z.shiftr_land.
    change (Z.shiftr 0xff00 8) with (Z.ones 8). rewrite Z.land_ones, Z.shiftr_div_pow2 by lia.
    rewrite (Z.mod_small (w / 2^8)) by (Z.div_mod_to_equations; lia).
    apply (lor_mul_low 8); [lia|]. Z.div_mod_to_equations; lia. }
  assert (w `mod` 256 * 256 + w / 256 = red (256 * w)) as <-.
  { apply red_unique; [|Z.div_mod_to_equations; lia]. split; [Z.div_mod_to_equations; lia|]. split; [lia|]. split.
    - exists (- (w / 256)). Z.div_mod_to_equations; lia.
    - Z.div_mod_to_equations; lia. }
  split.
  - unfold SWAP_BYTES_IN_WORD. rewrite u32_small; [exact E|]. change 0xff with (Z.ones 8).
    rewrite Z.land_ones, Z.shiftl_mul_pow2 by lia. pose proof (Z.mod_pos_bound w (2^8)). lia.
  - unfold htons. rewrite E. apply u16_small. Z.div_mod_to_equations; lia.
Qed.

Lemma swap_red w : 0 <= w <= 65535 -> SWAP_BYTES_IN_WORD w = red (256 * w).
Proof. intros. by apply swap_eq. Qed.

Lemma htons_red w : 0 <= w <= 65535 -> htons w = red (256 * w).
Proof. intros. by apply swap_eq. Qed.

(** ** The bytes as a little-endian number

    Modulo 65535 this is the sum of the 16-bit words, read in host order. *)

Fixpoint le_num (l : list Z) : Z :=
  match l with [] => 0 | b :: l => b + 256 * le_num l end.

Lemma le_num_nonneg l : bytes_ok l -> 0 <= le_num l.
Proof. induction 1; simpl; lia. Qed.

Lemma le_num_app l1 l2 : le_num (l1 ++ l2) = le_num l1 + 256 ^ Z.of_nat (length l1) * le_num l2.
Proof.
  induction l1 as [|b l1 IH]; [simpl; lia|]. cbn [app le_num length]. rewrite IH, Nat2Z.inj_succ, Z.pow_succ_r; lia.
Qed.

(** Induction over bytes two at a time. *)
Lemma pairs_ind (P : list Z -> Prop) :
  P [] -> (forall b, P [b]) -> (forall b0 b1 l, P l -> P (b0 :: b1 :: l)) -> forall l, P l.
Proof.
  intros H0 H1 H2. fix IH 1. intros [|b0 [|b1 l]]; [exact H0|apply H1|apply H2, IH].
Qed.

Lemma onec_red a b : 0 <= a <= 65535 -> 0 <= b <= 65535 -> onec_add a b = red (a + b).
Proof.
  intros Ha Hb. unfold onec_add. destruct (Z.ltb_spec (a + b) (2^16)); (apply red_unique; [|lia]); [apply same_refl; lia|].
  split; [lia|]. split; [lia|]. split; [exists (-1); lia|]. lia.
Qed.

Definition be_sum (l : list Z) : Z := foldr Z.add 0 (be_words l).

Lemma be_sum_nonneg l : bytes_ok l -> 0 <= be_sum l <= 65535 * Z.of_nat (length l).
Proof.
  induction l as [|b|b0 b1 l IH] using pairs_ind; intros Hl; unfold be_sum in *; cbn [be_words foldr length].
  - lia.
  - apply Forall_cons in Hl as [Hb _]. lia.
  - apply Forall_cons in Hl as [Hb0 [Hb1 Hl]%Forall_cons]. specialize (IH Hl). lia.
Qed.

Lemma rfc1071_red l : bytes_ok l -> rfc1071 l = red (be_sum l).
Proof.
  induction l as [|b|b0 b1 l IH] using pairs_ind; intros Hl; unfold be_sum, rfc1071 in *; cbn [be_words foldr].
  - done.
  - apply Forall_cons in Hl as [Hb _]. apply onec_red; lia.
  - apply Forall_cons in Hl as [Hb0 [Hb1 Hl]%Forall_cons]. rewrite IH by done.
    rewrite onec_red by (try apply red_range; lia). apply red_same, add_same; [apply same_refl; lia|].
    apply same_red. by apply be_sum_nonneg.
Qed.

Lemma be_le_sum l : bytes_ok l -> same (256 * be_sum l) (le_num l).
Proof.
  induction l as [|b|b0 b1 l IH] using pairs_ind; intros Hl; unfold be_sum in *; cbn [be_words foldr le_num].
  - by apply same_refl.
  - apply Forall_cons in Hl as [Hb _]. replace (256 * (2^8 * b + 0)) with (65536 * b) by lia.
    replace (b + 256 * 0) with b by lia. apply same_65536. lia.
  - apply Forall_cons in Hl as [Hb0 [Hb1 Hl]%Forall_cons]. specialize (IH Hl). pose proof (le_num_nonneg l Hl).
    replace (256 * (2^8 * b0 + b1 + foldr Z.add 0 (be_words l)))
      with (65536 * b0 + 256 * b1 + 256 * foldr Z.add 0 (be_words l)) by lia.
    replace (b0 + 256 * (b1 + 256 * le_num l)) with (b0 + 256 * b1 + 65536 * le_num l) by lia.
    apply add_same; [apply add_same; [apply same_65536; lia|apply same_refl; lia]|].
    etransitivity; [exact IH|]. symmetry. by apply same_65536.
Qed.

(** What the checksum routines compute: RFC 1071 in host order. *)
Lemma htons_rfc1071 l : bytes_ok l -> htons (rfc1071 l) = red (le_num l).
Proof.
  intros Hl. rewrite rfc1071_red, htons_red by (done || apply red_range). apply red_same.
  etransitivity; [|by apply be_le_sum]. apply same_mul; [lia|]. apply same_red. by apply be_sum_nonneg.
Qed.

(** ** The three variants *)

Lemma sum_words_eq l acc : bytes_ok l -> 0 <= acc -> acc + 65535 * Z.of_nat (length l) < 2^32 ->
  Chksum1.sum_words l acc = acc + be_sum l.
Proof.
  revert acc. induction l as [|b|b0 b1 l IH] using pairs_ind; intros acc Hl Ha Hb; unfold be_sum;
    cbn [Chksum1.sum_words be_words foldr length] in *.
  - lia.
  - apply Forall_cons in Hl as [Hb0 _]. rewrite Z.shiftl_mul_pow2, u16_small, u32_small by lia. lia.
  - apply Forall_cons in Hl as [Hb0 [Hb1 Hl]%Forall_cons]. rewrite Z.shiftl_mul_pow2, u16_small by lia.
    rewrite (lor_mul_low 8) by lia. rewrite u32_small by lia. rewrite IH by (done || lia). unfold be_sum. lia.
Qed.

Lemma chksum1_eq l : bytes_ok l -> Z.of_nat (length l) < 2^16 -> Chksum1.lwip_standard_chksum l = red (le_num l).
Proof.
  intros Hl Hn. unfold Chksum1.lwip_standard_chksum. rewrite sum_words_eq by (done || lia). rewrite Z.add_0_l.
  pose proof (be_sum_nonneg l Hl). set (u := be_sum l) in *. pose proof (fold_bound u ltac:(lia)) as Hf.
  assert ((if negb (Z.land (FOLD_U32T u) 0xffff0000 =? 0) then FOLD_U32T (FOLD_U32T u) else FOLD_U32T u) = red u) as ->.
  { destruct (Z.eqb_spec (Z.land (FOLD_U32T u) 0xffff0000) 0) as [E|E]; cbn [negb].
    - apply red_unique; [apply same_fold; lia|]. apply (f_equal (fun x => Z.testbit x 16)) in E.
      rewrite Z.land_spec, Z.testbit_0_l in E. change (Z.testbit 0xffff0000 16) with true in E.
      rewrite andb_true_r in E. destruct (Z_lt_le_dec 65535 (FOLD_U32T u)); [|done].
      rewrite Z.testbit_odd, Z.shiftr_div_pow2 in E by lia.
      assert (FOLD_U32T u / 2^16 = 1) as E1 by (Z.div_mod_to_equations; lia). by rewrite E1 in E.
    - apply fold2_red. lia. }
  rewrite u16_small by (pose proof (red_range u); lia). rewrite htons_red by apply red_range.
  rewrite <- htons_rfc1071, htons_red, rfc1071_red by (done || rewrite ?rfc1071_red by done; apply red_range). done.
Qed.

(** The byte that is left after the 16-bit words. *)
Definition tail_val (rest : list Z) : Z := match rest with b :: _ => b | [] => 0 end.

Lemma sum_halves_eq l sum : bytes_ok l -> 0 <= sum -> sum + 65535 * Z.of_nat (length l) < 2^32 ->
  let '(s, rest) := sum_halves l sum in
  (0 <= s /\ 2 * s <= 2 * sum + 65535 * Z.of_nat (length l)) /\ 0 <= tail_val rest < 2^8 /\
  same (s + tail_val rest) (sum + le_num l).
Proof.
  revert sum. induction l as [|b|b0 b1 l IH] using pairs_ind; intros sum Hl Hs Hb;
    cbn [sum_halves le_num length tail_val] in *.
  - split; [lia|]. split; [lia|]. apply same_refl. lia.
  - apply Forall_cons in Hl as [Hb0 _]. split; [lia|]. split; [lia|]. replace (b + 256 * 0) with b by lia. apply same_refl. lia.
  - apply Forall_cons in Hl as [Hb0 [Hb1 Hl]%Forall_cons]. unfold le16. rewrite u32_small by lia.
    specialize (IH (sum + (b0 + 2^8 * b1)) Hl ltac:(lia) ltac:(lia)).
    destruct (sum_halves l (sum + (b0 + 2^8 * b1))) as [s rest]. destruct IH as (H1 & H2 & H3).
    split; [lia|]. split; [done|]. etransitivity; [exact H3|]. pose proof (le_num_nonneg l Hl).
    replace (sum + (b0 + 256 * (b1 + 256 * le_num l))) with (sum + (b0 + 2^8 * b1) + 65536 * le_num l) by lia.
    apply add_same; [apply same_refl; lia|]. symmetry. by apply same_65536.
Qed.

Lemma finish_eq odd sum t rest : 0 <= sum -> 0 <= t -> 0 <= tail_val rest -> sum + t + tail_val rest < 2^32 ->
  finish odd sum t rest = red ((if odd then 256 else 1) * (sum + t + tail_val rest)).
Proof.
  intros Hs Ht Hr Hb. unfold finish.
  replace (match rest with b :: _ => t + b | [] => t end) with (t + tail_val rest) by (destruct rest; simpl; lia).
  rewrite Z.add_assoc, u32_small, fold2_red by lia. set (u := sum + t + tail_val rest) in *.
  pose proof (red_range u). destruct odd.
  - rewrite swap_red, u16_small by (done || pose proof (red_range (256 * red u)); lia).
    apply red_same, same_mul; [lia|]. apply same_red. lia.
  - rewrite u16_small by lia. f_equal. lia.
Qed.

(** A leading byte taken off at an odd address. *)
Lemma head_byte_eq odd l t l' : bytes_ok l -> head_byte odd l = (t, l') ->
  bytes_ok l' /\ 0 <= t < 2^16 /\ (length l' <= length l)%nat /\
  same ((if odd then 256 else 1) * (t + le_num l')) (le_num l).
Proof.
  intros Hl. pose proof (le_num_nonneg l Hl). destruct l as [|b l]; cbn [head_byte].
  - intros [= <- <-]. repeat split; try done; try lia; [by destruct odd|]. exists 0. by destruct odd.
  - destruct odd; intros [= <- <-].
    + pose proof Hl as [Hb Hl']%Forall_cons. pose proof (le_num_nonneg l Hl'). split; [done|]. split; [lia|].
      split; [simpl; lia|]. cbn [le_num]. replace (256 * (2^8 * b + le_num l)) with (65536 * b + 256 * le_num l) by lia.
      apply add_same; [apply same_65536; lia|apply same_refl; lia].
    + split; [done|]. split; [lia|]. split; [done|]. rewrite Z.mul_1_l, Z.add_0_l. by apply same_refl.
Qed.

Lemma chksum2_eq a l : bytes_ok l -> Z.of_nat (length l) < 2^16 -> Chksum2.lwip_standard_chksum a l = red (le_num l).
Proof.
  intros Hl Hn. unfold Chksum2.lwip_standard_chksum. set (odd := Z.land a 1 =? 1).
  destruct (head_byte odd l) as [t l'] eqn:E. destruct (head_byte_eq _ _ _ _ Hl E) as (Hl' & Ht & Hlen & Hsame).
  pose proof (sum_halves_eq l' 0 Hl' ltac:(lia) ltac:(lia)) as Hh.
  destruct (sum_halves l' 0) as [s rest]. destruct Hh as (Hs & Hr & Hsame2).
  rewrite finish_eq by lia. apply red_same. etransitivity; [|exact Hsame].
  apply same_mul; [destruct odd; lia|]. rewrite Z.add_0_l in Hsame2. rewrite (Z.add_comm s t), <- Z.add_assoc.
  apply add_same; [apply same_refl; lia|done].
Qed.

Lemma add_carry_same s w : 0 <= s < 2^32 -> 0 <= w < 2^32 ->
  0 <= Chksum3.add_carry s w < 2^32 /\ same (Chksum3.add_carry s w) (s + w).
Proof.
  intros Hs Hw. unfold Chksum3.add_carry. destruct (Z_lt_le_dec (s + w) (2^32)).
  - rewrite u32_small by lia. destruct (Z.ltb_spec (s + w) s); [lia|]. split; [lia|]. apply same_refl. lia.
  - assert (u32 (s + w) = s + w - 2^32) as ->.
    { unfold u32. symmetry. apply (Z.mod_unique_pos _ _ 1); lia. }
    destruct (Z.ltb_spec (s + w - 2^32) s); [|lia]. rewrite u32_small by lia. split; [lia|].
    split; [lia|]. split; [lia|]. split; [exists (-65537); lia|]. lia.
Qed.

Lemma le32_num b0 b1 b2 b3 l : 0 <= le_num l -> 0 <= le32 b0 b1 b2 b3 ->
  same (le32 b0 b1 b2 b3 + le_num l) (le_num (b0 :: b1 :: b2 :: b3 :: l)).
Proof.
  intros Hl Hw. unfold le32, le16 in *. cbn [le_num].
  replace (b0 + 256 * (b1 + 256 * (b2 + 256 * (b3 + 256 * le_num l))))
    with (b0 + 2^8 * b1 + 2^16 * (b2 + 2^8 * b3) + 65536 * (65536 * le_num l)) by lia.
  apply add_same; [by apply same_refl|]. symmetry.
  etransitivity; [apply same_65536; lia|by apply same_65536].
Qed.

Lemma le32_range b0 b1 b2 b3 l : bytes_ok (b0 :: b1 :: b2 :: b3 :: l) -> 0 <= le32 b0 b1 b2 b3 < 2^32 /\ bytes_ok l.
Proof.
  intros [H0 [H1 [H2 [H3 Hl]%Forall_cons]%Forall_cons]%Forall_cons]%Forall_cons.
  split; [unfold le32, le16; lia|done].
Qed.

Lemma sum_longs_eq n l sum : (length l <= n)%nat -> bytes_ok l -> 0 <= sum < 2^32 ->
  let '(s, rest) := Chksum3.sum_longs l sum in
  0 <= s < 2^32 /\ bytes_ok rest /\ (length rest <= length l)%nat /\ same (s + le_num rest) (sum + le_num l).
Proof.
  revert l sum. induction n as [|n IH]; intros l sum Hn Hl Hs.
  { destruct l; [|simpl in Hn; lia]. simpl. repeat split; try done; try lia. exists 0. lia. }
  assert (0 <= sum + le_num l) by (pose proof (le_num_nonneg l Hl); lia).
  destruct l as [|b0 [|b1 [|b2 [|b3 [|b4 [|b5 [|b6 [|b7 l]]]]]]]];
    try (cbn [Chksum3.sum_longs]; split; [done|]; split; [done|]; split; [done|]; by apply same_refl).
  cbn [Chksum3.sum_longs]. destruct (le32_range _ _ _ _ _ Hl) as [Hw0 Hl1]. destruct (le32_range _ _ _ _ _ Hl1) as [Hw1 Hl2].
  destruct (add_carry_same sum (le32 b0 b1 b2 b3) Hs Hw0) as [Hs1 Hsame1]. set (s1 := Chksum3.add_carry sum _) in *.
  destruct (add_carry_same s1 (le32 b4 b5 b6 b7) Hs1 Hw1) as [Hs2 Hsame2]. set (s2 := Chksum3.add_carry s1 _) in *.
  specialize (IH l s2 ltac:(simpl in Hn; lia) Hl2 Hs2). destruct (Chksum3.sum_longs l s2) as [s rest].
  destruct IH as (H1 & H2 & H3 & H4). split; [done|]. split; [done|]. split; [simpl; lia|].
  etransitivity; [exact H4|]. pose proof (le_num_nonneg l Hl2). pose proof (le_num_nonneg _ Hl1).
  etransitivity; [apply add_same; [exact Hsame2|by apply same_refl]|].
  rewrite <- Z.add_assoc. etransitivity; [apply add_same; [exact Hsame1|apply le32_num; lia]|].
  rewrite <- Z.add_assoc. apply add_same; [apply same_refl; lia|apply le32_num; lia].
Qed.

Lemma chksum3_eq a l : bytes_ok l -> Z.of_nat (length l) < 2^16 -> Chksum3.lwip_standard_chksum a l = red (le_num l).
Proof.
  intros Hl Hn. unfold Chksum3.lwip_standard_chksum. set (odd := Z.land a 1 =? 1).
  destruct (head_byte odd l) as [t l1] eqn:E. destruct (head_byte_eq _ _ _ _ Hl E) as (Hl1 & Ht & Hlen & Hsame).
  set (ps := a + _). pose proof (le_num_nonneg l1 Hl1).
  assert (exists s2 l2, match l1 with
      | b0 :: b1 :: data2 => if negb (Z.land ps 3 =? 0) then (le16 b0 b1, data2) else (0, l1)
      | _ => (0, l1) end = (s2, l2) /\ 0 <= s2 < 2^16 /\ bytes_ok l2 /\ (length l2 <= length l1)%nat /\
      same (s2 + le_num l2) (le_num l1)) as (s2 & l2 & -> & Hs2 & Hl2 & Hlen2 & Hsame2).
  { destruct l1 as [|b0 [|b1 l2]]; [| |destruct (negb _)];
      try (eexists 0, _; split; [done|]; split; [lia|]; split; [done|]; split; [done|]; rewrite Z.add_0_l; by apply same_refl).
    pose proof Hl1 as [Hb0 [Hb1 Hl2]%Forall_cons]%Forall_cons. eexists _, _. split; [done|]. unfold le16. split; [lia|].
    split; [done|]. split; [simpl; lia|]. pose proof (le_num_nonneg l2 Hl2). cbn [le_num].
    replace (b0 + 256 * (b1 + 256 * le_num l2)) with (b0 + 2^8 * b1 + 65536 * le_num l2) by lia.
    apply add_same; [apply same_refl; lia|]. symmetry. by apply same_65536. }
  pose proof (sum_longs_eq (length l2) l2 s2 ltac:(lia) Hl2 ltac:(lia)) as H3.
  destruct (Chksum3.sum_longs l2 s2) as [s3 l3]. destruct H3 as (Hs3 & Hl3 & Hlen3 & Hsame3).
  pose proof (fold_bound s3 Hs3) as Hf. pose proof (le_num_nonneg l3 Hl3).
  pose proof (sum_halves_eq l3 (FOLD_U32T s3) Hl3 ltac:(lia) ltac:(lia)) as H4.
  destruct (sum_halves l3 (FOLD_U32T s3)) as [s4 rest]. destruct H4 as (Hs4 & Hr & Hsame4).
  rewrite finish_eq by lia. apply red_same. etransitivity; [|exact Hsame].
  apply same_mul; [destruct odd; lia|]. rewrite (Z.add_comm s4 t), <- Z.add_assoc.
  apply add_same; [apply same_refl; lia|]. etransitivity; [exact Hsame4|].
  etransitivity; [apply add_same; [by apply same_fold|by apply same_refl]|]. by etransitivity.
Qed.

(** ** Chains *)

(** After the buffers [done] the accumulator is their sum, in the byte order
    that the flag says. *)
Definition acc_ok (l : list Z) (st : Z * bool) : Prop :=
  0 <= st.1 <= 65535 /\ same ((if st.2 then 256 else 1) * st.1) (le_num l) /\ st.2 = negb (Nat.even (length l)).

Lemma pow256 n l : 0 <= l -> same (256 ^ Z.of_nat n * l) ((if Nat.even n then 1 else 256) * l).
Proof.
  intros Hl. induction n as [n IH] using lt_wf_ind. destruct n as [|[|n]].
  - simpl. apply same_refl. lia.
  - simpl. apply same_refl. lia.
  - change (Nat.even (S (S n))) with (Nat.even n). etransitivity; [|apply (IH n); lia].
    rewrite !Nat2Z.inj_succ, !Z.pow_succ_r by lia.
    replace (256 * (256 * 256 ^ Z.of_nat n) * l) with (65536 * (256 ^ Z.of_nat n * l)) by lia.
    apply same_65536. apply Z.mul_nonneg_nonneg; [apply Z.pow_nonneg; lia|done].
Qed.

Lemma Z_even_of_nat n : Z.even (Z.of_nat n) = Nat.even n.
Proof.
  induction n as [|n IH]; [done|]. rewrite Nat2Z.inj_succ, Z.even_succ, <- Z.negb_even, IH. by rewrite Nat.even_succ, <- Nat.negb_even.
Qed.

Lemma add_pbuf_acc l data st : bytes_ok l -> bytes_ok data -> Z.of_nat (length data) < 2^16 -> acc_ok l st ->
  acc_ok (l ++ data) (add_pbuf (Z.of_nat (length data)) data st).
Proof.
  intros Hl Hd Hn. destruct st as [acc sw]. intros (Ha & Hsame & Hsw). cbn [fst snd] in *.
  pose proof (le_num_nonneg l Hl). pose proof (le_num_nonneg data Hd).
  unfold add_pbuf, LWIP_CHKSUM. rewrite chksum1_eq by done. pose proof (red_range (le_num data)) as Hr.
  rewrite u32_small, fold_red by lia. set (u := acc + red (le_num data)). pose proof (red_range u).
  assert (same ((if sw then 256 else 1) * red u) (le_num (l ++ data))) as Hu.
  { rewrite le_num_app. etransitivity; [apply same_mul; [destruct sw; lia|apply same_red; unfold u; lia]|].
    unfold u. rewrite Z.mul_add_distr_l. apply add_same; [done|].
    etransitivity; [apply same_mul; [destruct sw; lia|by apply same_red]|].
    symmetry. etransitivity; [by apply pow256|]. rewrite Hsw. destruct (Nat.even (length l)); apply same_refl; simpl; lia. }
  unfold acc_ok. rewrite length_app, Nat.even_add.
  assert (negb (Z.of_nat (length data) `mod` 2 =? 0) = negb (Nat.even (length data))) as ->.
  { f_equal. rewrite Zmod_even, Z_even_of_nat. by destruct (Nat.even (length data)). }
  destruct (Nat.even (length data)) eqn:E; cbn [negb fst snd].
  - split; [lia|]. split; [done|]. rewrite Hsw. by destruct (Nat.even (length l)).
  - rewrite swap_red by done. split; [apply red_range|]. split; [|rewrite Hsw; by destruct (Nat.even (length l))].
    etransitivity; [|exact Hu]. destruct sw; cbn [negb]; rewrite ?Z.mul_1_l.
    + etransitivity; [apply same_red; lia|]. apply same_refl. lia.
    + etransitivity; [apply same_mul; [lia|apply same_red; lia]|]. rewrite Z.mul_assoc. apply same_65536. lia.
Qed.

Lemma unswap_acc l st : acc_ok l st -> unswap st = red (le_num l).
Proof.
  destruct st as [acc sw]. intros (Ha & Hsame & _). cbn [fst snd unswap] in *. destruct sw.
  - rewrite swap_red by done. by apply red_same.
  - rewrite Z.mul_1_l in Hsame. apply red_unique; [done|lia].
Qed.

(** The byte order that the last buffer leaves the accumulator in does not
    matter. *)
Lemma unswap_last len data st :
  0 <= st.1 <= 65535 -> bytes_ok data -> Z.of_nat (length data) < 2^16 ->
  unswap (add_pbuf len data st) = red ((if st.2 then 256 else 1) * (st.1 + le_num data)).
Proof.
  destruct st as [acc sw]. cbn [fst snd]. intros Ha Hd Hn. pose proof (le_num_nonneg data Hd).
  unfold add_pbuf, LWIP_CHKSUM. rewrite chksum1_eq by done. pose proof (red_range (le_num data)) as Hr.
  rewrite u32_small, fold_red by lia. set (u := acc + red (le_num data)). pose proof (red_range u).
  assert (same (red u) (acc + le_num data)) as Hu.
  { etransitivity; [apply same_red; unfold u; lia|]. apply add_same; [apply same_refl; lia|by apply same_red]. }
  destruct (negb _), sw; cbn [unswap negb]; rewrite ?(swap_red (red u)) by done; rewrite ?Z.mul_1_l.
  - by apply red_same, same_mul.
  - rewrite swap_red by apply red_range. apply red_same.
    etransitivity; [apply same_mul; [lia|apply same_red; lia]|]. rewrite Z.mul_assoc.
    etransitivity; [apply same_65536; lia|done].
  - by apply red_same, same_mul.
  - apply red_unique; [done|lia].
Qed.

Definition pbuf_ok (data : list Z) : Prop := bytes_ok data /\ Z.of_nat (length data) < 2^16.

Lemma acc_start : acc_ok [] (0, false).
Proof. split; [done|]. split; [by apply same_refl|done]. Qed.

Lemma fold_acc chain l st : Forall pbuf_ok chain -> bytes_ok l -> acc_ok l st ->
  acc_ok (l ++ concat chain) (fold_left (fun st data => add_pbuf (Z.of_nat (length data)) data st) chain st).
Proof.
  intros Hc. revert l st. induction Hc as [|data chain [Hd Hn] _ IH]; intros l st Hl Hst; cbn [fold_left concat].
  - by rewrite app_nil_r.
  - rewrite app_assoc. apply IH; [by apply Forall_app|by apply add_pbuf_acc].
Qed.

Lemma sum_chain_eq chain : Forall pbuf_ok chain -> sum_chain chain = red (le_num (concat chain)).
Proof.
  intros Hc. apply unswap_acc. apply (fold_acc chain [] (0, false)); [done|constructor|apply acc_start].
Qed.

Lemma sum_partial_eq chain l n st : Forall pbuf_ok chain -> bytes_ok l -> acc_ok l st -> 0 <= n < 0x7fff ->
  exists st', sum_partial chain n st = Some st' /\ unswap st' = red (le_num (l ++ take (Z.to_nat n) (concat chain))).
Proof.
  intros Hc. revert l n st. induction Hc as [|data chain [Hd Hn] _ IH]; intros l n st Hl Hst Hb; cbn [sum_partial concat].
  { exists st. rewrite take_nil, app_nil_r. split; [done|by apply unswap_acc]. }
  destruct (Z.ltb_spec 0 n).
  2:{ exists st. replace (Z.to_nat n) with 0%nat by lia. rewrite take_0, app_nil_r. split; [done|by apply unswap_acc]. }
  destruct (Z.ltb_spec n (Z.of_nat (length data))).
  - rewrite Z.sub_diag. change (0 <? 0x7fff) with true. cbv iota. rewrite take_app_le by lia.
    assert (bytes_ok (take (Z.to_nat n) data)) as Ht by (by apply Forall_take).
    exists (add_pbuf (Z.of_nat (length data)) (take (Z.to_nat n) data) st). split; [by destruct chain|].
    pose proof Hst as (Ha & Hsame & Hsw). rewrite unswap_last by (done || rewrite length_take; lia).
    apply red_same. rewrite le_num_app, Z.mul_add_distr_l. apply add_same; [done|]. symmetry.
    pose proof (le_num_nonneg _ Ht). etransitivity; [by apply pow256|]. rewrite Hsw.
    destruct (Nat.even (length l)); apply same_refl; simpl; lia.
  - destruct (Z.ltb_spec (n - Z.of_nat (length data)) 0x7fff); [|lia].
    rewrite Nat2Z.id, (take_ge data) by lia.
    destruct (IH (l ++ data) (n - Z.of_nat (length data)) (add_pbuf (Z.of_nat (length data)) data st)) as (st' & E & Hu);
      [by apply Forall_app|by apply add_pbuf_acc|lia|].
    exists st'. split; [done|]. rewrite Hu, <- app_assoc. do 3 f_equal. rewrite (take_app_ge data) by lia. f_equal. f_equal. lia.
Qed.

(** ** The pseudo header *)

Definition addr_bytes (a : Z) : list Z := [a `mod` 2^8; (a / 2^8) `mod` 2^8; (a / 2^16) `mod` 2^8; a / 2^24].
Definition pseudo_header (src dest proto len : Z) : list Z :=
  addr_bytes src ++ addr_bytes dest ++ [0; proto; len / 2^8; len `mod` 2^8].

Lemma addr_bytes_ok a : 0 <= a < 2^32 ->
  bytes_ok (addr_bytes a) /\ le_num (addr_bytes a) = a /\
  same (Z.land a 0xffff + Z.land (Z.shiftr a 16) 0xffff) a.
Proof.
  intros Ha. split; [|split].
  - unfold addr_bytes. repeat (apply Forall_cons; split; [Z.div_mod_to_equations; lia|]). constructor.
  - unfold addr_bytes. cbn [le_num]. Z.div_mod_to_equations. lia.
  - change 0xffff with (Z.ones 16). rewrite !Z.land_ones, Z.shiftr_div_pow2 by lia.
    rewrite (Z.mod_small (a / 2^16)) by (Z.div_mod_to_equations; lia).
    split; [Z.div_mod_to_equations; lia|]. split; [lia|]. split.
    + exists (- (a / 2^16)). Z.div_mod_to_equations; lia.
    + Z.div_mod_to_equations; lia.
Qed.

Lemma land_ffff a : 0 <= Z.land a 0xffff < 2^16.
Proof. change 0xffff with (Z.ones 16). rewrite Z.land_ones by lia. apply Z.mod_pos_bound. lia. Qed.

Lemma lnot16_eq x : 0 <= x <= 65535 -> lnot16 x = 65535 - x.
Proof.
  intros Hx. unfold lnot16. assert (Z.land x 0xffff = x) as ->.
  { change 0xffff with (Z.ones 16). rewrite Z.land_ones, Z.mod_small; lia. }
  unfold Z.lnot, u16. symmetry. apply (Z.mod_unique_pos _ _ (-1)); lia.
Qed.

Lemma pseudo_ok src dest proto len : 0 <= src < 2^32 -> 0 <= dest < 2^32 -> 0 <= proto < 2^8 -> 0 <= len < 2^16 ->
  bytes_ok (pseudo_header src dest proto len).
Proof.
  intros Hs Hd Hp Hl. unfold pseudo_header. apply Forall_app. split; [by apply addr_bytes_ok|].
  apply Forall_app. split; [by apply addr_bytes_ok|].
  repeat (apply Forall_cons; split; [Z.div_mod_to_equations; lia|]). constructor.
Qed.

Lemma add_pseudo_eq d src dest proto len :
  bytes_ok d -> 0 <= src < 2^32 -> 0 <= dest < 2^32 -> 0 <= proto < 2^8 -> 0 <= len < 2^16 ->
  add_pseudo (red (le_num d)) src dest proto len = lnot16 (red (le_num (pseudo_header src dest proto len ++ d))).
Proof.
  intros Hd Hs Hde Hp Hl. unfold add_pseudo. pose proof (red_range (le_num d)). pose proof (le_num_nonneg d Hd).
  pose proof (land_ffff src). pose proof (land_ffff dest). pose proof (land_ffff (Z.shiftr src 16)). pose proof (land_ffff (Z.shiftr dest 16)).
  rewrite !htons_red by lia. pose proof (red_range (256 * proto)). pose proof (red_range (256 * len)).
  repeat match goal with |- context [u32 (?a + ?b)] =>
    lazymatch a with context [u32 _] => fail | _ => rewrite (u32_small (a + b)) by lia end end.
  rewrite fold2_red by lia. f_equal. apply red_same.
  unfold pseudo_header. rewrite !le_num_app. cbn [length addr_bytes app].
  destruct (addr_bytes_ok src Hs) as (_ & -> & Hs1). destruct (addr_bytes_ok dest Hde) as (_ & -> & Hs2).
  set (p4 := le_num [0; proto; _; _]).
  assert (same (red (256 * proto) + red (256 * len)) p4) as Hs3.
  { etransitivity; [apply add_same; apply same_red; lia|]. unfold p4. cbn [le_num].
    split; [lia|]. split; [Z.div_mod_to_equations; lia|]. split.
    - exists (len / 2^8 - (len / 2^8 + 256 * (len `mod` 2^8))). Z.div_mod_to_equations; lia.
    - Z.div_mod_to_equations; lia. }
  assert (0 <= p4) as Hp4 by apply Hs3.
  rewrite <- !Z.add_assoc, (Z.add_comm (red (le_num d))), !Z.add_assoc.
  apply add_same.
  - rewrite <- Z.add_assoc. etransitivity; [apply add_same; [|exact Hs3]|].
    + rewrite <- Z.add_assoc. apply add_same; [exact Hs1|exact Hs2].
    + rewrite <- Z.add_assoc. apply add_same; [apply same_refl; lia|]. symmetry.
      etransitivity; [apply (pow256 4); apply Z.add_nonneg_nonneg; [lia|apply Z.mul_nonneg_nonneg; [apply Z.pow_nonneg; lia|done]]|].
      cbn [Nat.even]. rewrite Z.mul_1_l. apply add_same; [apply same_refl; lia|].
      etransitivity; [by apply (pow256 4)|]. cbn [Nat.even]. rewrite Z.mul_1_l. by apply same_refl.
  - etransitivity; [by apply same_red|]. symmetry. etransitivity; [by apply (pow256 12)|]. cbn [Nat.even]. rewrite Z.mul_1_l. by apply same_refl.
Qed.

(** ** A stored checksum verifies *)

Lemma inet_chksum_eq l : bytes_ok l -> Z.of_nat (length l) < 2^16 -> inet_chksum l = 65535 - red (le_num l).
Proof.
  intros Hl Hn. unfold inet_chksum, LWIP_CHKSUM. rewrite chksum1_eq by done. pose proof (red_range (le_num l)).
  unfold Z.lnot, u16. symmetry. apply (Z.mod_unique_pos _ _ (-1)); lia.
Qed.

Lemma store_chksum pre post : bytes_ok pre -> bytes_ok post -> Nat.even (length pre) = true ->
  let c := 65535 - red (le_num (pre ++ [0; 0] ++ post)) in
  bytes_ok (pre ++ [c `mod` 2^8; c / 2^8] ++ post) /\ red (le_num (pre ++ [c `mod` 2^8; c / 2^8] ++ post)) = 65535.
Proof.
  intros Hpre Hpost Hev. cbv zeta. set (z := le_num (pre ++ [0; 0] ++ post)). pose proof (red_range z) as Hr.
  set (c := 65535 - red z). assert (bytes_ok (pre ++ [0; 0] ++ post)) as Hz.
  { apply Forall_app. split; [done|]. by repeat (apply Forall_cons; split; [lia|]). }
  assert (0 <= z) as Hz0 by (by apply le_num_nonneg). pose proof (le_num_nonneg pre Hpre). pose proof (le_num_nonneg post Hpost).
  split.
  { apply Forall_app. split; [done|]. repeat (apply Forall_cons; split; [Z.div_mod_to_equations; lia|]). done. }
  assert (le_num (pre ++ [c `mod` 2^8; c / 2^8] ++ post) = z + 256 ^ Z.of_nat (length pre) * c) as ->.
  { unfold z. rewrite !le_num_app. cbn [le_num app].
    rewrite <- (Z.add_assoc (le_num pre)), <- Z.mul_add_distr_l. f_equal. f_equal. cbn [length]. pose proof (Z.div_mod c (2^8)). lia. }
  symmetry. apply red_unique; [|lia]. symmetry.
  etransitivity; [apply add_same; [symmetry; by apply same_red|apply pow256; lia]|].
  rewrite Hev, Z.mul_1_l. replace (red z + c) with 65535 by lia. by apply same_refl.
Qed.
