(* ===== verification/NetThms.v ===== *)
(** * Theorems about the Internet checksum of lwIP

    All three variants of the code, on buffers at any address, and the sums
    over chains of buffers with and without the pseudo header compute the sum
    of RFC 1071; a packet with its checksum stored verifies. *)
From S2P Require Import Prelude Mem Chksum.

(** C24: on every buffer of less than 64 KB, at any address, the portable
    checksum, the one that adds 16-bit words and the unrolled one that adds
    32-bit words with carries give the same result, the one's complement sum
    of RFC 1071 in network byte order. *)
Theorem chksum_variants dataptr data : bytes_ok data -> Z.of_nat (length data) < 2^16 ->
  Chksum1.lwip_standard_chksum data = htons (rfc1071 data) /\
  Chksum2.lwip_standard_chksum dataptr data = htons (rfc1071 data) /\
  Chksum3.lwip_standard_chksum dataptr data = htons (rfc1071 data).
Proof. intros Hd Hn. rewrite htons_rfc1071, chksum1_eq, chksum2_eq, chksum3_eq by done. done. Qed.

Lemma chksum_variants_witness :
  Chksum3.lwip_standard_chksum 5 [69; 0; 255; 255; 1; 2; 3; 4; 5; 6; 7; 8; 9] = htons (rfc1071 [69; 0; 255; 255; 1; 2; 3; 4; 5; 6; 7; 8; 9]).
Proof. apply (chksum_variants 5 [69; 0; 255; 255; 1; 2; 3; 4; 5; 6; 7; 8; 9]); [|done]. repeat (constructor; [lia|]). constructor. Defined.

(** C25: the checksum of a chain of pbufs does not depend on how the packet is
    split, pbufs of odd length included: it is the complement of the RFC 1071
    sum of the bytes one after the other, for inet_chksum_pbuf of the packet,
    for inet_chksum_pseudo of the pseudo header and the packet, and for
    inet_chksum_pseudo_partial of the pseudo header and the first chksum_len
    bytes (less than 0x7fff; its assertion then holds). *)
Theorem chksum_chain chain src dest proto proto_len chksum_len :
  Forall pbuf_ok chain -> 0 <= src < 2^32 -> 0 <= dest < 2^32 -> 0 <= proto < 2^8 -> 0 <= proto_len < 2^16 -> 0 <= chksum_len < 0x7fff ->
  let hdr := pseudo_header src dest proto proto_len in
  inet_chksum_pbuf chain = 65535 - htons (rfc1071 (concat chain)) /\
  inet_chksum_pseudo chain src dest proto proto_len = 65535 - htons (rfc1071 (hdr ++ concat chain)) /\
  inet_chksum_pseudo_partial chain src dest proto proto_len chksum_len =
    Some (65535 - htons (rfc1071 (hdr ++ take (Z.to_nat chksum_len) (concat chain)))).
Proof.
  intros Hc Hs Hd Hp Hl Hn. cbv zeta. assert (bytes_ok (concat chain)) as Hb.
  { clear -Hc. induction Hc as [|data chain [Hd _] _ IH]; [constructor|]. by apply Forall_app. }
  pose proof (pseudo_ok src dest proto proto_len Hs Hd Hp Hl) as Hh. split_and!.
  - unfold inet_chksum_pbuf. rewrite sum_chain_eq, htons_rfc1071, lnot16_eq by (done || apply red_range). done.
  - unfold inet_chksum_pseudo. rewrite sum_chain_eq, add_pseudo_eq, htons_rfc1071, lnot16_eq by (done || apply red_range || by apply Forall_app). done.
  - unfold inet_chksum_pseudo_partial. destruct (sum_partial_eq chain [] chksum_len (0, false) Hc) as (st & -> & Hst); [constructor|apply acc_start|done|].
    cbn [mbind option_bind]. rewrite Hst. cbn [app]. assert (bytes_ok (take (Z.to_nat chksum_len) (concat chain))) by (by apply Forall_take).
    rewrite add_pseudo_eq, htons_rfc1071, lnot16_eq by (done || apply red_range || by apply Forall_app). done.
Qed.

Lemma chksum_chain_witness :
  inet_chksum_pseudo [[1; 2; 3]; []; [4]; [5; 6; 7; 8; 9]] 0x0f02000a 0x0202000a 17 9 =
  65535 - htons (rfc1071 (pseudo_header 0x0f02000a 0x0202000a 17 9 ++ [1; 2; 3; 4; 5; 6; 7; 8; 9])).
Proof.
  apply (chksum_chain [[1; 2; 3]; []; [4]; [5; 6; 7; 8; 9]] 0x0f02000a 0x0202000a 17 9 0); try lia.
  repeat (constructor; [split; [repeat (constructor; [lia|]); constructor|done]|]). constructor.
Defined.

(** Storing the checksum of a header, computed with zero in its two-byte
    field at an even offset, makes inet_chksum of the header zero, which is
    what ip_input tests. *)
Theorem chksum_verifies pre post :
  bytes_ok pre -> bytes_ok post -> Nat.even (length pre) = true -> Z.of_nat (length pre + length post) < 2^16 - 2 ->
  let c := inet_chksum (pre ++ [0; 0] ++ post) in
  inet_chksum (pre ++ [c `mod` 2^8; c / 2^8] ++ post) = 0.
Proof.
  intros Hpre Hpost Hev Hn. cbv zeta. assert (bytes_ok (pre ++ [0; 0] ++ post)) as Hz.
  { apply Forall_app. split; [done|]. by repeat (apply Forall_cons; split; [lia|]). }
  rewrite (inet_chksum_eq (pre ++ [0; 0] ++ post)) by (done || rewrite !length_app; cbn [length]; lia).
  destruct (store_chksum pre post Hpre Hpost Hev) as [Hb Hr]. rewrite inet_chksum_eq by (done || rewrite !length_app; cbn [length]; lia).
  rewrite Hr. lia.
Qed.

Lemma chksum_verifies_witness : inet_chksum ([69; 0; 0; 20] ++ [0xba; 0xeb] ++ [7]) <> 0 /\
  (let c := inet_chksum ([69; 0; 0; 20] ++ [0; 0] ++ [7]) in inet_chksum ([69; 0; 0; 20] ++ [c `mod` 2^8; c / 2^8] ++ [7]) = 0).
Proof.
  split; [vm_compute; discriminate|].
  apply (chksum_verifies [69; 0; 0; 20] [7]); [repeat (constructor; [lia|]); constructor..|done|done].
Defined.
