(* ===== verification/Grep.v ===== *)
(** * expansion/grep.c: the matcher of regular expressions and the line loop

    A C string is the list of its bytes before the terminating zero.  The
    matcher is related to the language of the pattern, and the loop over the
    buffer to the lines of the file. *)
From S2P Require Import Prelude.

(** ** The code *)

(** [matchstar]; [here] is matchhere on the rest of the pattern. *)
Fixpoint matchstar (here : list Z -> bool) (c : Z) (text : list Z) : bool :=
  here text ||
  match text with
  | t :: text' => ((t =? c) || (c =? 46)) && matchstar here c text'
  | [] => false
  end.

(** [*text != 0 && (re[0] == '.' || re[0] == *text)], then [here] behind it. *)
Definition match_one (here : list Z -> bool) (c : Z) (text : list Z) : bool :=
  match text with
  | t :: text' => ((c =? 46) || (c =? t)) && here text'
  | [] => false
  end.

Fixpoint matchhere (re text : list Z) : bool :=
  match re with
  | [] => true
  | c :: re' =>
      match re' with
      | d :: re'' =>
          if d =? 42 then matchstar (matchhere re'') c text else match_one (matchhere re') c text
      | [] =>
          if c =? 36 then match text with [] => true | _ => false end
          else match_one (matchhere re') c text
      end
  end.

(** The loop over the suffixes of the text. *)
Fixpoint match_any (re text : list Z) : bool :=
  matchhere re text || match text with _ :: text' => match_any re text' | [] => false end.

Definition match_ (re text : list Z) : bool :=
  match re with
  | c :: re' => if c =? 94 then matchhere re' text else match_any re text
  | [] => match_any re text
  end.

(** [strchr(p, '\n')]: the bytes before the newline and those behind it. *)
Fixpoint split_line (p : list Z) : option (list Z * list Z) :=
  match p with
  | [] => None
  | c :: p' =>
      if c =? 10 then Some ([], p')
      else if c =? 0 then None
      else match split_line p' with Some (l, r) => Some (c :: l, r) | None => None end
  end.

(** What one call of read with room for [n] bytes returns, when the data
    arrives in the pieces [inp]; nothing at the end of the file. *)
Definition read (n : nat) (inp : list (list Z)) : list Z * list (list Z) :=
  match inp with
  | [] => ([], [])
  | c :: inp' => if decide (length c <= n)%nat then (c, inp') else (take n c, drop n c :: inp')
  end.

Definition sizeof_buf : nat := 1024.

(** The inner loop over the lines of the buffer: what is left of it, whether a
    line was found, and the output. *)
Fixpoint lines_loop (fuel : nat) (pattern p : list Z) (found : bool) (out : list Z) : list Z * bool * list Z :=
  match fuel with
  | O => (p, found, out)
  | S fuel =>
      match split_line p with
      | None => (p, found, out)
      | Some (line, rest) =>
          lines_loop fuel pattern rest true (if match_ pattern line then out ++ line ++ [10] else out)
      end
  end.

(** The outer loop: [buf] holds the first [m] bytes of the buffer.  None when
    the fuel runs out. *)
Fixpoint grep_loop (fuel : nat) (pattern buf : list Z) (inp : list (list Z)) (out : list Z) : option (list Z) :=
  match fuel with
  | O => None
  | S fuel =>
      match read (sizeof_buf - length buf - 1) inp with
      | ([], _) => Some out
      | (chunk, inp) =>
          let data := buf ++ chunk in
          let '(p, found, out) := lines_loop (S (length data)) pattern data false out in
          grep_loop fuel pattern (if found then p else []) inp out
      end
  end.

(** Every round reads at least one byte. *)
Definition grep (pattern : list Z) (inp : list (list Z)) : option (list Z) :=
  grep_loop (S (S (length (concat inp) + length inp))) pattern [] inp [].

(** ** The language of a pattern *)

Inductive item := Lit (c : Z) | Any.
Inductive piece := One (i : item) | Star (i : item).

Definition item_of (c : Z) : item := if c =? 46 then Any else Lit c.

Definition item_ok (i : item) (t : Z) : Prop := match i with Any => True | Lit c => t = c end.

(** The pieces of a pattern and whether it ends with the anchor $. *)
Fixpoint parse (re : list Z) : list piece * bool :=
  match re with
  | [] => ([], false)
  | c :: re' =>
      match re' with
      | d :: re'' =>
          if d =? 42 then (Star (item_of c) :: (parse re'').1, (parse re'').2)
          else (One (item_of c) :: (parse re').1, (parse re').2)
      | [] => if c =? 36 then ([], true) else ([One (item_of c)], false)
      end
  end.

Inductive matches : list piece -> list Z -> Prop :=
| matches_nil : matches [] []
| matches_one i ps t s : item_ok i t -> matches ps s -> matches (One i :: ps) (t :: s)
| matches_skip i ps s : matches ps s -> matches (Star i :: ps) s
| matches_more i ps t s : item_ok i t -> matches (Star i :: ps) s -> matches (Star i :: ps) (t :: s).

(** The pattern matches at the beginning of the text. *)
Definition matches_here (p : list piece * bool) (text : list Z) : Prop :=
  exists s rest, text = s ++ rest /\ matches p.1 s /\ (p.2 = true -> rest = []).

Definition matches_text (re text : list Z) : Prop :=
  match re with
  | c :: re' =>
      if decide (c = 94) then matches_here (parse re') text
      else exists before suffix, text = before ++ suffix /\ matches_here (parse re) suffix
  | [] => True
  end.

Create HintDb grep.
#[export] Hint Constructors matches : grep.

Lemma item_of_ok c t : item_ok (item_of c) t <-> c = 46 \/ t = c.
Proof. unfold item_of. destruct (Z.eqb_spec c 46); simpl; naive_solver. Qed.

Lemma here_nil text : matches_here ([], false) text.
Proof. exists [], text. split; [done|]. split; [constructor|done]. Qed.

Lemma here_end text : matches_here ([], true) text <-> text = [].
Proof.
  split.
  - intros (s & rest & -> & Hm & He). inversion Hm; subst. by rewrite He.
  - intros ->. exists [], []. split; [done|]. split; [constructor|done].
Qed.

Lemma here_one c ps e text :
  matches_here (One (item_of c) :: ps, e) text <->
  exists t text', text = t :: text' /\ (c = 46 \/ t = c) /\ matches_here (ps, e) text'.
Proof.
  split.
  - intros (s & rest & -> & Hm & He). inversion Hm as [|i ps' t s' Hi Hs| |]; subst. exists t, (s' ++ rest).
    split; [done|]. split; [by apply item_of_ok|]. by exists s', rest.
  - intros (t & text' & -> & Hi & s & rest & -> & Hm & He). exists (t :: s), rest. split; [done|].
    split; [|done]. constructor; [by apply item_of_ok|done].
Qed.

Lemma here_star c ps e text :
  matches_here (Star (item_of c) :: ps, e) text <->
  matches_here (ps, e) text \/
  exists t text', text = t :: text' /\ (c = 46 \/ t = c) /\ matches_here (Star (item_of c) :: ps, e) text'.
Proof.
  split.
  - intros (s & rest & -> & Hm & He). inversion Hm as [| |i ps' s' Hs|i ps' t s' Hi Hs]; subst.
    + left. by exists s, rest.
    + right. exists t, (s' ++ rest). split; [done|]. split; [by apply item_of_ok|]. by exists s', rest.
  - intros [(s & rest & -> & Hm & He)|(t & text' & -> & Hi & s & rest & -> & Hm & He)].
    + exists s, rest. split; [done|]. split; [by constructor|done].
    + exists (t :: s), rest. split; [done|]. split; [|done]. apply matches_more; [by apply item_of_ok|done].
Qed.

Lemma matchstar_spec here c ps e :
  (forall text, here text = true <-> matches_here (ps, e) text) ->
  forall text, matchstar here c text = true <-> matches_here (Star (item_of c) :: ps, e) text.
Proof.
  intros Hh text. induction text as [|t text IH]; rewrite here_star; simpl; rewrite orb_true_iff, Hh.
  - split; [intros [?|[=]]; by left|]. intros [?|(t & text' & [=] & _)]. by left.
  - rewrite andb_true_iff, orb_true_iff, !Z.eqb_eq, IH. split.
    + intros [?|[? ?]]; [by left|]. right. exists t, text. naive_solver.
    + intros [?|(t' & text' & [= <- <-] & ? & ?)]; [by left|]. right. naive_solver.
Qed.

Lemma match_one_spec here c ps e text :
  (forall text, here text = true <-> matches_here (ps, e) text) ->
  match_one here c text = true <-> matches_here (One (item_of c) :: ps, e) text.
Proof.
  intros Hh. rewrite here_one. destruct text as [|t text]; simpl.
  - split; [done|]. by intros (? & ? & [=] & _).
  - rewrite andb_true_iff, orb_true_iff, !Z.eqb_eq, Hh. naive_solver.
Qed.

Lemma matchhere_spec re text : matchhere re text = true <-> matches_here (parse re) text.
Proof.
  revert text. induction re as [re IH] using (induction_ltof1 _ (@length Z)). unfold ltof in IH. intros text.
  destruct re as [|c [|d re]]; cbn [matchhere parse].
  - split; [intros _; apply here_nil|done].
  - destruct (Z.eqb_spec c 36) as [->|].
    + rewrite here_end. by destruct text.
    + apply match_one_spec. intros t. split; [intros _; apply here_nil|done].
  - assert (forall re', (length re' < S (S (length re)))%nat -> forall text,
      matchhere re' text = true <-> matches_here ((parse re').1, (parse re').2) text) as IH'.
    { intros re' Hl t. rewrite <- surjective_pairing. by apply IH. }
    destruct (d =? 42).
    + apply matchstar_spec, IH'. lia.
    + apply match_one_spec. apply (IH' (d :: re)). simpl. lia.
Qed.

Lemma match_any_spec re text :
  match_any re text = true <-> exists before suffix, text = before ++ suffix /\ matches_here (parse re) suffix.
Proof.
  induction text as [|t text IH]; simpl; rewrite orb_true_iff, matchhere_spec.
  - split; [intros [?|[=]]; by exists [], []|]. intros (b & s & E & H). symmetry in E. apply app_nil in E as [-> ->]. by left.
  - rewrite IH. split.
    + intros [H|(b & s & -> & H)]; [by exists [], (t :: text)|by exists (t :: b), s].
    + intros ([|t' b] & s & E & H); simplify_eq/=; [by left|]. right. by exists b, s.
Qed.

Lemma match_spec re text : match_ re text = true <-> matches_text re text.
Proof.
  unfold match_, matches_text. destruct re as [|c re].
  - split; [done|]. intros _. apply match_any_spec. exists [], text. split; [done|apply here_nil].
  - case_decide as H.
    + subst c. apply matchhere_spec.
    + destruct (Z.eqb_spec c 94); [done|]. apply match_any_spec.
Qed.

(** ** The lines of a file *)

Definition nl (l : list Z) : list Z := l ++ [10].
Definition line_ok (l : list Z) : Prop := Forall (fun c => c <> 10 /\ c <> 0) l.

(** What grep should print. *)
Definition grep_lines (pattern : list Z) (lines : list (list Z)) : list Z :=
  concat (nl <$> filter (fun l => match_ pattern l = true) lines).

Lemma split_line_nl l r : line_ok l -> split_line (nl l ++ r) = Some (l, r).
Proof.
  unfold nl. induction 1 as [|c l [Hc Hz] _ IH]; [done|]. simpl.
  destruct (Z.eqb_spec c 10); [done|]. destruct (Z.eqb_spec c 0); [done|]. simpl in IH. by rewrite IH.
Qed.

Lemma split_line_none l : line_ok l -> split_line l = None.
Proof.
  induction 1 as [|c l [Hc Hz] _ IH]; [done|]. simpl.
  destruct (Z.eqb_spec c 10); [done|]. destruct (Z.eqb_spec c 0); [done|]. by rewrite IH.
Qed.

Lemma lines_loop_eq pattern ls r : Forall line_ok ls -> line_ok r -> forall fuel found out, (length ls < fuel)%nat ->
  lines_loop fuel pattern (concat (nl <$> ls) ++ r) found out =
    (r, match ls with [] => found | _ => true end, out ++ grep_lines pattern ls).
Proof.
  intros Hls Hr. induction Hls as [|l ls Hl _ IH]; intros [|fuel] found out Hf; try (simpl in Hf; lia); cbn [lines_loop].
  - unfold grep_lines. simpl. by rewrite (split_line_none r Hr), app_nil_r.
  - rewrite fmap_cons. cbn [concat]. rewrite <- app_assoc, split_line_nl by done. rewrite IH by (simpl in Hf; lia).
    f_equal; [by destruct ls|]. unfold grep_lines. rewrite filter_cons.
    destruct (match_ pattern l) eqn:E; [rewrite decide_True by done|rewrite decide_False by done].
    + rewrite fmap_cons. cbn [concat]. unfold nl. by rewrite <- !app_assoc.
    + done.
Qed.

(** The beginning of a text of lines: whole lines and a part of the next one. *)
Lemma take_lines ls tail n : Forall line_ok ls -> line_ok tail ->
  exists ls1 ls2 r, ls = ls1 ++ ls2 /\ take n (concat (nl <$> ls) ++ tail) = concat (nl <$> ls1) ++ r /\ line_ok r /\
    (length (concat (nl <$> ls1)) <= n)%nat /\
    (r ++ drop n (concat (nl <$> ls) ++ tail) = concat (nl <$> ls2) ++ tail) /\
    (forall l, head ls = Some l -> (length (nl l) <= n)%nat -> ls1 <> []).
Proof.
  intros Hls Ht. revert n. induction Hls as [|l ls Hl Hls IH]; intros n.
  - exists [], [], (take n tail). simpl. split; [done|]. split; [done|]. split; [by apply Forall_take|]. split; [lia|].
    split; [apply take_drop|done].
  - rewrite fmap_cons. cbn [concat]. destruct (decide (length (nl l) <= n)%nat) as [Hle|Hlt].
    + destruct (IH (n - length (nl l))%nat) as (ls1 & ls2 & r & -> & E & Hr & Hn & Ed & _). exists (l :: ls1), ls2, r.
      split; [done|]. rewrite <- !app_assoc, take_app_ge, drop_app_ge by done. rewrite E. rewrite fmap_cons. cbn [concat].
      split; [by rewrite app_assoc|]. split; [done|]. rewrite length_app. split; [lia|]. by split.
    + exists [], (l :: ls), (take n (nl l)). split; [done|]. rewrite <- !app_assoc, take_app_le, drop_app_le by lia.
      split; [done|]. split; [|split; [simpl; lia|split; [|intros l' [= <-]; lia]]].
      * unfold nl in *. rewrite length_app in Hlt. simpl in Hlt. rewrite take_app_le by lia. by apply Forall_take.
      * rewrite fmap_cons. cbn [concat]. by rewrite app_assoc, take_drop, app_assoc.
Qed.

(** A text without newline at the beginning of a line is part of the line. *)
Lemma part_of_line r x l y : line_ok r -> r ++ x = nl l ++ y -> (length r <= length l)%nat.
Proof.
  intros Hr E. destruct (decide (length r <= length l)%nat); [done|exfalso].
  assert (r !! length l = Some 10) as H10.
  { rewrite <- (lookup_app_l r x), E by lia. unfold nl. rewrite <- app_assoc. cbn [app]. by rewrite list_lookup_middle. }
  by apply (Forall_lookup_1 _ _ _ _ Hr) in H10 as [? _].
Qed.

Lemma part_of_file r x ls tail : line_ok r -> r ++ x = concat (nl <$> ls) ++ tail ->
  Forall (fun l => (length l <= 1022)%nat) ls -> (length tail <= 1022)%nat -> (length r <= 1022)%nat.
Proof.
  intros Hr E Hls Ht. destruct Hls as [|l ls Hl _].
  - simpl in E. apply (f_equal length) in E. rewrite length_app in E. lia.
  - rewrite fmap_cons in E. cbn [concat] in E. rewrite <- app_assoc in E. pose proof (part_of_line _ _ _ _ Hr E). lia.
Qed.

Definition pending (rest : list Z) : list (list Z) := match rest with [] => [] | _ => [rest] end.

Lemma read_pending n rest inp : inp = pending rest \/ inp = [rest] ->
  exists inp', read n inp = (take n rest, inp') /\ (inp' = pending (drop n rest) \/ inp' = [drop n rest]).
Proof.
  intros [->| ->].
  - destruct rest as [|c rest]; simpl; [exists []; rewrite take_nil, drop_nil; by split; [|left]|].
    case_decide.
    + exists []. rewrite take_ge, drop_ge by (simpl; lia). by split; [|left].
    + exists [drop n (c :: rest)]. by split; [|right].
  - simpl. case_decide.
    + exists []. rewrite take_ge, drop_ge by lia. by split; [|left].
    + exists [drop n rest]. by split; [|right].
Qed.

Lemma grep_loop_file pattern tail : line_ok tail -> (length tail <= 1022)%nat -> forall fuel ls buf rest inp out,
  Forall line_ok ls -> Forall (fun l => (length l <= 1022)%nat) ls -> line_ok buf ->
  inp = pending rest \/ inp = [rest] -> (length rest < fuel)%nat ->
  (buf ++ rest = concat (nl <$> ls) ++ tail \/ ls = [] /\ rest = []) ->
  grep_loop fuel pattern buf inp out = Some (out ++ grep_lines pattern ls).
Proof.
  intros Ht Htl fuel. induction fuel as [|fuel IH]; intros ls buf rest inp out Hls Hlen Hbuf Hinp Hf Hstream; [lia|].
  cbn [grep_loop]. unfold sizeof_buf. destruct rest as [|c rest].
  { assert (ls = []) as ->.
    { destruct Hstream as [E|[? _]]; [|done]. destruct ls as [|l ls]; [done|exfalso].
      rewrite fmap_cons in E. cbn [concat] in E. rewrite <- app_assoc in E. pose proof (part_of_line _ _ _ _ Hbuf E).
      apply (f_equal length) in E. unfold nl in E. rewrite !length_app in E. simpl in E. lia. }
    destruct (read_pending (1024 - length buf - 1) [] inp Hinp) as (inp' & -> & _). rewrite take_nil.
    unfold grep_lines. simpl. by rewrite app_nil_r. }
  destruct Hstream as [E|[_ [=]]]. set (R := c :: rest) in *.
  assert (length buf <= 1022)%nat as Hb by (by eapply part_of_file).
  set (n := (1024 - length buf - 1)%nat). destruct (read_pending n R inp Hinp) as (inp' & -> & Hinp').
  assert (take n R = c :: take (n - 1) rest) as En by (unfold R, n; destruct (1024 - length buf - 1)%nat eqn:?; [lia|]; simpl; by rewrite Nat.sub_0_r).
  rewrite En. rewrite <- En.
  assert (buf ++ take n R = take 1023 (buf ++ R)) as ->.
  { rewrite take_app_ge by lia. f_equal. f_equal. unfold n. lia. }
  rewrite E. destruct (take_lines ls tail 1023 Hls Ht) as (ls1 & ls2 & r & El & Ed & Hr & _ & Er & Hne). rewrite Ed. subst ls.
  apply Forall_app in Hls as [Hls1 Hls2]. apply Forall_app in Hlen as [Hlen1 Hlen2].
  rewrite lines_loop_eq; [|done|done|].
  2:{ rewrite length_app. assert (length ls1 <= length (concat (nl <$> ls1)))%nat; [|lia].
      clear. induction ls1 as [|l ls1 IH]; [done|]. rewrite fmap_cons. cbn [concat length]. unfold nl at 1.
      rewrite !length_app. simpl. lia. }
  assert (drop 1023 (buf ++ R) = drop n R) as Edrop.
  { rewrite drop_app_ge by lia. f_equal. unfold n. lia. }
  rewrite <- E, Edrop in Er.
  assert (length (drop n R) < fuel)%nat as Hfuel by (rewrite length_drop; unfold R, n in *; simpl in *; lia).
  destruct ls1 as [|l1 ls1].
  - assert (ls2 = []) as ->.
    { destruct ls2 as [|l2 ls2]; [done|]. exfalso. apply (Hne l2); [done| |done]. apply Forall_cons in Hlen2 as [? _].
      unfold nl. rewrite length_app. simpl. lia. }
    assert (drop n R = []) as Ez.
    { apply (f_equal length) in E. simpl in E. rewrite length_app in E. rewrite <- length_zero_iff_nil, length_drop. unfold n. lia. }
    erewrite (IH [] [] (drop n R)); [|constructor|constructor|constructor|done|done|by right].
    unfold grep_lines. simpl. by rewrite !app_nil_r.
  - cbv iota. erewrite (IH ls2 r (drop n R)); [|done|done|done|done|done|left; exact Er].
    rewrite <- app_assoc. f_equal. f_equal. unfold grep_lines. by rewrite filter_app, fmap_app, concat_app.
Qed.

Lemma grep_file pattern ls tail :
  Forall line_ok ls -> Forall (fun l => (length l <= 1022)%nat) ls -> line_ok tail -> (length tail <= 1022)%nat ->
  grep pattern [concat (nl <$> ls) ++ tail] = Some (grep_lines pattern ls).
Proof.
  intros Hls Hlen Ht Htl. unfold grep.
  rewrite (grep_loop_file pattern tail Ht Htl _ ls [] (concat (nl <$> ls) ++ tail) _ [] Hls Hlen); try done.
  - constructor.
  - by right.
  - simpl. rewrite app_nil_r. lia.
  - by left.
Qed.
