(* ===== verification/Umalloc.v ===== *)
(** * expansion/umalloc.c: malloc and free of xv6 user programs

    Memory is counted in headers, units of 8 bytes.  The state holds the
    headers, the pointer [freep] (0 for null) and the size of the process in
    bytes, which sbrk moves.  [base] is the address of the static header, below
    the heap, which begins at [heap0].  [oom old new] tells whether the kernel
    lacks the memory to grow the process. *)
From Stdlib Require Import Sorting.Sorted.
From S2P Require Import Prelude.

Record heap := mkHeap { hdrs : gmap Z (Z * Z); freep : Z; psize : Z }.

Definition U := M heap.

Definition sizeof_Header : Z := 8.
Definition XKERNBASE : Z := 0x80000000.

Section umalloc.
Context (base heap0 : Z) (oom : Z -> Z -> bool).

Definition valid (s : heap) (p : Z) : bool := (p =? base) || ((heap0 <=? p) && (p <? psize s / sizeof_Header)).

Definition get_hdr (p : Z) : U (Z * Z) :=
  let! s := gets id in
  if valid s p then ret (default (0, 0) (hdrs s !! p)) else undef.
Definition s_ptr (p : Z) : U Z := let! h := get_hdr p in ret h.1.
Definition s_size (p : Z) : U Z := let! h := get_hdr p in ret h.2.
Definition put_hdr (p : Z) (h : Z * Z) : U unit := modify (fun s => mkHeap (<[p := h]> (hdrs s)) (freep s) (psize s)).
Definition set_ptr (p q : Z) : U unit := let! h := get_hdr p in put_hdr p (q, h.2).
Definition set_size (p n : Z) : U unit := let! h := get_hdr p in put_hdr p (h.1, n).
Definition set_freep (p : Z) : U unit := modify (fun s => mkHeap (hdrs s) p (psize s)).
Definition set_psize (n : Z) : U unit := modify (fun s => mkHeap (hdrs s) (freep s) n).

(** sys_sbrk with growproc: the old size, or -1. *)
Definition sbrk (n : Z) : U Z :=
  let! sz := gets psize in
  let newsz := u32 (sz + n) in
  if 0 <? n then
    if (XKERNBASE <=? newsz) || oom sz newsz then ret (-1)
    else set_psize (if newsz <? sz then sz else newsz) ;;; ret sz
  else if n <? 0 then
    if sz <=? newsz then ret sz
    else if newsz =? 0 then ret (-1)
    else set_psize newsz ;;; ret sz
  else ret sz.

(** The number of units, a bound for the length of the free list. *)
Definition units (s : heap) : nat := Z.to_nat (psize s / sizeof_Header).

(** A round of the loop that looks for the place of [bp]. *)
Definition free_body (bp p : Z) : U (Z + Z) :=
  let! q := s_ptr p in
  if (p <? bp) && (bp <? q) then ret (inr p)
  else if (q <=? p) && ((p <? bp) || (bp <? q)) then ret (inr p)
  else ret (inl q).

(** Join to the upper neighbour [q], join to the lower neighbour [p]. *)
Definition free_up (bp q bsize : Z) : U unit :=
  if bp + bsize =? q then
    let! qsize := s_size q in
    set_size bp (u32 (bsize + qsize)) ;;;
    let! qq := s_ptr q in
    set_ptr bp qq
  else set_ptr bp q.

Definition free_down (bp p : Z) : U unit :=
  let! psize := s_size p in
  if p + psize =? bp then
    let! bsize := s_size bp in
    set_size p (u32 (psize + bsize)) ;;;
    let! bq := s_ptr bp in
    set_ptr p bq
  else set_ptr p bp.

Definition free (ap : Z) : U unit :=
  let bp := ap - 1 in
  let! fp := gets freep in
  let! fuel := gets units in
  let! p := loop (S (S fuel)) (free_body bp) fp in
  let! bsize := s_size bp in
  let! q := s_ptr p in
  free_up bp q bsize ;;;
  free_down bp p ;;;
  set_freep p.

Definition morecore (nu : Z) : U Z :=
  let nu := if nu <? 4096 then 4096 else nu in
  let! p := sbrk (s32 (nu * sizeof_Header)) in
  if p =? -1 then ret 0
  else if negb (p `mod` sizeof_Header =? 0) then undef
  else
    let hp := p / sizeof_Header in
    set_size hp nu ;;;
    free (hp + 1) ;;;
    gets freep.

(** One round of the loop of malloc, with [prevp] and [p]. *)
Definition malloc_step (nunits : Z) (st : Z * Z) : U ((Z * Z) + Z) :=
  let '(prevp, p) := st in
  let! n := s_size p in
  if nunits <=? n then
    let! r := (if n =? nunits then
                 let! q := s_ptr p in
                 set_ptr prevp q ;;; ret p
               else
                 set_size p (n - nunits) ;;;
                 let p' := p + (n - nunits) in
                 set_size p' nunits ;;; ret p') in
    set_freep prevp ;;;
    ret (inr (r + 1))
  else
    let! fp := gets freep in
    if p =? fp then
      let! p := morecore nunits in
      if p =? 0 then ret (inr 0)
      else let! q := s_ptr p in ret (inl (p, q))
    else let! q := s_ptr p in ret (inl (p, q)).

Definition nunits_of (nbytes : Z) : Z := u32 (nbytes + sizeof_Header - 1) / sizeof_Header + 1.

(** Two rounds over the free list: one before morecore, one behind it. *)
Definition malloc (nbytes : Z) : U Z :=
  let nunits := nunits_of nbytes in
  let! fp := gets freep in
  let! prevp :=
    (if fp =? 0 then
       put_hdr base (base, 0) ;;; set_freep base ;;; ret base
     else ret fp) in
  let! q := s_ptr prevp in
  let! n := gets units in
  loop (2 * n + Z.to_nat nunits + 4100)%nat (malloc_step nunits) (prevp, q).

(** ** The free list *)

Definition hd_addr (l : list (Z * Z)) (e : Z) : Z := match l with [] => e | b :: _ => b.1 end.

(** The headers of the blocks [l] are linked in this order; the last one
    points to [e]. *)
Fixpoint lseg (h : gmap Z (Z * Z)) (l : list (Z * Z)) (e : Z) : Prop :=
  match l with
  | [] => True
  | b :: l => h !! b.1 = Some (hd_addr l e, b.2) /\ lseg h l e
  end.

Lemma hd_addr_app l1 l2 e : hd_addr (l1 ++ l2) e = hd_addr l1 (hd_addr l2 e).
Proof. by destruct l1. Qed.

Lemma lseg_app h l1 l2 e : lseg h (l1 ++ l2) e <-> lseg h l1 (hd_addr l2 e) /\ lseg h l2 e.
Proof.
  induction l1 as [|b l1 IH]; simpl; [tauto|]. rewrite IH, hd_addr_app. tauto.
Qed.

Lemma lseg_insert h l e a v : ~ In a l.*1 -> lseg h l e -> lseg (<[a := v]> h) l e.
Proof.
  induction l as [|b l IH]; simpl; [done|]. intros Hn [Hb Hl]. split; [|apply IH; tauto].
  rewrite lookup_insert_ne; [done|]. intros ->. tauto.
Qed.

(** Block [x] ends before block [y] begins. *)
Definition before (x y : Z * Z) : Prop := x.1 + x.2 < y.1.

Definition covers (l : list (Z * Z)) (u : Z) : Prop := exists a n, In (a, n) l /\ a <= u < a + n.

(** The free blocks are [blocks], in the order of their addresses, no two of
    them adjacent; [alloc] has the blocks in use with their sizes; together they
    are the heap, without overlap. *)
Record heap_ok (s : heap) (blocks : list (Z * Z)) (alloc : gmap Z Z) : Prop := mk_heap_ok {
  ok_base : 0 < base < heap0;
  ok_size : psize s `mod` sizeof_Header = 0 /\ heap0 <= psize s / sizeof_Header /\ 0 <= psize s < XKERNBASE;
  ok_links : lseg (hdrs s) ((base, 0) :: blocks) base;
  ok_sorted : StronglySorted before ((base, 0) :: blocks);
  ok_sizes : Forall (fun b => 0 < b.2) blocks;
  ok_freep : In (freep s) (base :: blocks.*1);
  ok_alloc a n : alloc !! a = Some n -> 0 < n /\ exists q, hdrs s !! a = Some (q, n);
  ok_alloc_disj a n b m : alloc !! a = Some n -> alloc !! b = Some m -> a < b -> a + n <= b;
  ok_free_disj a n u : alloc !! a = Some n -> a <= u < a + n -> ~ covers blocks u;
  ok_cover u : heap0 <= u < psize s / sizeof_Header <->
    covers blocks u \/ exists a n, alloc !! a = Some n /\ a <= u < a + n }.

(** ** Reading and writing headers *)

Lemma get_hdr_run s p q n : valid s p = true -> hdrs s !! p = Some (q, n) -> get_hdr p s = Ok (q, n) s.
Proof. intros Hv Hp. unfold get_hdr, bind, gets. cbn [id]. by rewrite Hv, Hp. Qed.

Lemma s_ptr_run s p q n : valid s p = true -> hdrs s !! p = Some (q, n) -> s_ptr p s = Ok q s.
Proof. intros Hv Hp. unfold s_ptr, bind. by rewrite (get_hdr_run s p q n). Qed.

Lemma s_size_run s p q n : valid s p = true -> hdrs s !! p = Some (q, n) -> s_size p s = Ok n s.
Proof. intros Hv Hp. unfold s_size, bind. by rewrite (get_hdr_run s p q n). Qed.

Lemma wpe_hdr p q n Q E s : valid s p = true -> hdrs s !! p = Some (q, n) -> Q (q, n) s -> wpe (get_hdr p) Q E s.
Proof. intros Hv Hp HQ. unfold wpe. by rewrite (get_hdr_run s p q n). Qed.

Lemma wpe_ptr p q n Q E s : valid s p = true -> hdrs s !! p = Some (q, n) -> Q q s -> wpe (s_ptr p) Q E s.
Proof. intros Hv Hp HQ. unfold wpe. by rewrite (s_ptr_run s p q n). Qed.

Lemma wpe_size p q n Q E s : valid s p = true -> hdrs s !! p = Some (q, n) -> Q n s -> wpe (s_size p) Q E s.
Proof. intros Hv Hp HQ. unfold wpe. by rewrite (s_size_run s p q n). Qed.

Definition with_hdr (s : heap) (p : Z) (h : Z * Z) : heap := mkHeap (<[p := h]> (hdrs s)) (freep s) (psize s).

Lemma wpe_set_ptr p v q n Q E s : valid s p = true -> hdrs s !! p = Some (q, n) ->
  Q tt (with_hdr s p (v, n)) -> wpe (set_ptr p v) Q E s.
Proof. intros Hv Hp HQ. unfold set_ptr. apply wpe_bind. by eapply wpe_hdr. Qed.

Lemma wpe_set_size p v q n Q E s : valid s p = true -> hdrs s !! p = Some (q, n) ->
  Q tt (with_hdr s p (q, v)) -> wpe (set_size p v) Q E s.
Proof. intros Hv Hp HQ. unfold set_size. apply wpe_bind. by eapply wpe_hdr. Qed.

(** A loop that follows the links of a segment without changing the state. *)
Lemma loop_lseg {B} (body : Z -> U (Z + B)) s seg e fuel :
  lseg (hdrs s) seg e ->
  (forall b q, In b seg -> hdrs s !! b.1 = Some (q, b.2) -> body b.1 s = Ok (inl q) s) ->
  loop (length seg + fuel) body (hd_addr seg e) s = loop fuel body e s.
Proof.
  induction seg as [|b seg IH]; [done|]. intros [Hb Hseg] Hbody. cbn [length Nat.add loop hd_addr]. unfold bind.
  rewrite (Hbody b _ (or_introl eq_refl) Hb). apply IH; [done|]. intros b' q Hin. apply Hbody. by right.
Qed.

(** ** The order of the blocks *)

Lemma sorted_split l1 x l2 : StronglySorted before (l1 ++ x :: l2) ->
  Forall (fun y => before y x) l1 /\ Forall (before x) l2.
Proof.
  induction l1 as [|y l1 IH]; simpl; intros H; apply StronglySorted_inv in H as [H Hy]; [done|].
  destruct (IH H) as [H1 H2]. split; [|done]. constructor; [|done].
  rewrite List.Forall_forall in Hy. apply Hy, in_elt.
Qed.

Lemma sorted_app l1 l2 : StronglySorted before (l1 ++ l2) <->
  StronglySorted before l1 /\ StronglySorted before l2 /\ Forall (fun x => Forall (before x) l2) l1.
Proof.
  induction l1 as [|x l1 IH]; simpl.
  - split; [intros H; split; [constructor|]; split; [done|constructor]|tauto].
  - split.
    + intros H. apply StronglySorted_inv in H as [H Hx]. apply IH in H as (H1 & H2 & H3). apply Forall_app in Hx as [Hx1 Hx2].
      split; [by constructor|]. split; [done|by constructor].
    + intros (H1 & H2 & H3). apply StronglySorted_inv in H1 as [H1 Hx]. apply Forall_cons in H3 as [H3 H4].
      constructor; [by apply IH|by apply Forall_app].
Qed.

Lemma sorted_length l lo hi : StronglySorted before l -> Forall (fun b => 0 < b.2 /\ lo <= b.1 < hi) l ->
  Z.of_nat (length l) <= Z.max 0 (hi - lo).
Proof.
  revert lo. induction l as [|b l IH]; intros lo Hs Hl; [simpl; lia|]. apply StronglySorted_inv in Hs as [Hs Hb].
  apply Forall_cons in Hl as [[Hb2 Hb1] Hl]. specialize (IH (b.1 + 1) Hs). cbn [length].
  assert (Z.of_nat (length l) <= Z.max 0 (hi - (b.1 + 1))); [|lia]. apply IH.
  apply Forall_forall. intros y Hy. rewrite Forall_forall in Hl. rewrite List.Forall_forall in Hb.
  specialize (Hl y Hy). specialize (Hb y ltac:(by apply list_elem_of_In)). unfold before in Hb. lia.
Qed.

(** The last node at or before an address. *)
Lemma locate (l : list (Z * Z)) x bp : x.1 < bp -> StronglySorted before (x :: l) -> Forall (fun b => 0 < b.2) l -> 0 <= x.2 ->
  exists l1 y l2, x :: l = l1 ++ y :: l2 /\ y.1 < bp /\ Forall (fun b => b.1 < bp) l1 /\ Forall (fun b => bp <= b.1) l2.
Proof.
  revert x. induction l as [|z l IH]; intros x Hx Hs Hp Hx2; [by exists [], x, []|].
  pose proof Hs as Hs'. apply StronglySorted_inv in Hs as [Hs Hz]. apply Forall_cons in Hp as [Hz2 Hp].
  destruct (Z_lt_le_dec z.1 bp) as [Hlt|Hge].
  - destruct (IH z Hlt Hs Hp ltac:(lia)) as (l1 & y & l2 & -> & Hy & H1 & H2). exists (x :: l1), y, l2.
    split; [done|]. split; [done|]. split; [by constructor|done].
  - exists [], x, (z :: l). split; [done|]. split; [done|]. split; [constructor|]. constructor; [done|].
    apply StronglySorted_inv in Hs as [_ Hl]. apply Forall_forall. intros y Hy.
    rewrite List.Forall_forall in Hl. specialize (Hl y ltac:(by apply list_elem_of_In)). unfold before in Hl. lia.
Qed.

Section ok.
Context (s : heap) (blocks : list (Z * Z)) (alloc : gmap Z Z) (OK : heap_ok s blocks alloc).

Lemma block_in_heap a n : In (a, n) blocks -> 0 < n /\ heap0 <= a /\ a + n <= psize s / sizeof_Header.
Proof.
  intros Hin. pose proof (ok_sizes _ _ _ OK) as Hp. rewrite List.Forall_forall in Hp. specialize (Hp _ Hin). simpl in Hp.
  split; [done|].
  assert (forall u, a <= u < a + n -> heap0 <= u < psize s / sizeof_Header) as Hu.
  { intros u Hu. apply (ok_cover _ _ _ OK). left. by exists a, n. }
  pose proof (Hu a). pose proof (Hu (a + n - 1)). lia.
Qed.

Lemma alloc_in_heap a n : alloc !! a = Some n -> 0 < n /\ heap0 <= a /\ a + n <= psize s / sizeof_Header.
Proof.
  intros Ha. destruct (ok_alloc _ _ _ OK a n Ha) as [Hn _]. split; [done|].
  assert (forall u, a <= u < a + n -> heap0 <= u < psize s / sizeof_Header) as Hu.
  { intros u Hu. apply (ok_cover _ _ _ OK). right. by exists a, n. }
  pose proof (Hu a). pose proof (Hu (a + n - 1)). lia.
Qed.

Lemma valid_heap a : heap0 <= a < psize s / sizeof_Header -> valid s a = true.
Proof. intros. unfold valid. apply orb_true_iff. right. apply andb_true_iff. lia. Qed.

Lemma valid_node b : In b ((base, 0) :: blocks) -> valid s b.1 = true.
Proof.
  intros [<-|Hb]; [unfold valid; cbn; by rewrite Z.eqb_refl|]. destruct b as [a n].
  pose proof (block_in_heap a n Hb). apply valid_heap. cbn. lia.
Qed.

Lemma node_hdr b : In b ((base, 0) :: blocks) -> exists q, hdrs s !! b.1 = Some (q, b.2).
Proof.
  intros Hb. pose proof (ok_links _ _ _ OK) as Hl. apply in_split in Hb as (l1 & l2 & E). rewrite E in Hl.
  apply lseg_app in Hl as [_ [Hb _]]. eauto.
Qed.

(** The length of the free list is within the fuel. *)
Lemma list_fuel : (length blocks <= units s)%nat.
Proof.
  pose proof (sorted_length blocks heap0 (psize s / sizeof_Header)) as H.
  pose proof (ok_size _ _ _ OK) as (_ & Hh & _). pose proof (ok_base _ _ _ OK). unfold units. apply Nat2Z.inj_le.
  rewrite Z2Nat.id by lia. assert (Z.of_nat (length blocks) <= Z.max 0 (psize s / sizeof_Header - heap0)); [|lia].
  apply H; [by eapply StronglySorted_inv, (ok_sorted _ _ _ OK)|].
  apply Forall_forall. intros [a n] Hin. apply list_elem_of_In in Hin. pose proof (block_in_heap a n Hin). cbn. lia.
Qed.

(** The place of the block [bp] in the list, between [p] and the head of [l2]. *)
Definition place (bp m : Z) (l1 : list (Z * Z)) (p n : Z) (l2 : list (Z * Z)) : Prop :=
  (base, 0) :: blocks = l1 ++ (p, n) :: l2 /\ p < bp /\ p + n <= bp /\
  Forall (fun b => b.1 + b.2 <= bp) l1 /\ Forall (fun b => bp + m <= b.1) l2.

Lemma alloc_place bp m : alloc !! bp = Some m -> exists l1 p n l2, place bp m l1 p n l2.
Proof.
  intros Ha. pose proof (alloc_in_heap bp m Ha). pose proof (ok_base _ _ _ OK).
  destruct (locate blocks (base, 0) bp) as (l1 & [p n] & l2 & E & Hp & H1 & H2);
    [cbn; lia|apply (ok_sorted _ _ _ OK)|apply (ok_sizes _ _ _ OK)|done|].
  assert (forall b, In b ((base, 0) :: blocks) -> b.1 < bp -> b.1 + b.2 <= bp) as Hlow.
  { intros [a k] Hin Hlt. cbn in *. destruct Hin as [[= <- <-]|Hin]; [lia|]. destruct (Z_le_gt_dec (a + k) bp); [done|].
    exfalso. apply (ok_free_disj _ _ _ OK bp m bp Ha); [lia|]. exists a, k. split; [done|lia]. }
  assert (forall b, In b ((base, 0) :: blocks) -> bp <= b.1 -> bp + m <= b.1) as Hhigh.
  { intros [a k] Hin Hge. cbn in *. destruct Hin as [[= <- <-]|Hin]; [lia|]. destruct (Z_le_gt_dec (bp + m) a); [done|].
    pose proof (block_in_heap a k Hin).
    exfalso. apply (ok_free_disj _ _ _ OK bp m a Ha); [lia|]. exists a, k. split; [done|lia]. }
  exists l1, p, n, l2. split; [done|]. split; [done|]. rewrite E in Hlow, Hhigh. split; [|split].
  - apply (Hlow (p, n)); [apply in_elt|done].
  - rewrite List.Forall_forall in *. intros b Hb. apply Hlow; [apply in_app_iff; by left|]. by apply H1.
  - rewrite List.Forall_forall in *. intros b Hb. apply Hhigh; [apply in_app_iff; right; by right|]. by apply H2.
Qed.

Lemma nodes_nonneg b : In b ((base, 0) :: blocks) -> 0 <= b.2.
Proof.
  intros [<-|Hb]; [done|]. pose proof (ok_sizes _ _ _ OK) as H. rewrite List.Forall_forall in H. specialize (H b Hb). lia.
Qed.

Lemma nodes_pos b : In b ((base, 0) :: blocks) -> b.1 <> base -> 0 < b.2.
Proof.
  intros [<-|Hb] Hne; [done|]. pose proof (ok_sizes _ _ _ OK) as H. rewrite List.Forall_forall in H. by apply H.
Qed.

(** The next node of a node is the first one or behind it. *)
Lemma next_facts l1 a n l2 : (base, 0) :: blocks = l1 ++ (a, n) :: l2 ->
  hdrs s !! a = Some (hd_addr l2 base, n) /\ (l2 = [] \/ a < hd_addr l2 base).
Proof.
  intros E. pose proof (ok_links _ _ _ OK) as Hl. pose proof (ok_sorted _ _ _ OK) as Hs.
  pose proof (nodes_nonneg (a, n)) as Hn. rewrite E in Hl, Hs, Hn. apply lseg_app in Hl as [_ [Ha _]].
  split; [done|]. destruct l2 as [|y l2]; [by left|right]. apply sorted_split in Hs as [_ Hs].
  apply Forall_cons in Hs as [Hs _]. specialize (Hn ltac:(apply in_elt)). unfold before in Hs. cbn in *. lia.
Qed.

Lemma node_unique b q : In b ((base, 0) :: blocks) -> hdrs s !! b.1 = Some (q, b.2) ->
  exists l1 l2, (base, 0) :: blocks = l1 ++ b :: l2 /\ q = hd_addr l2 base /\ (l2 = [] \/ b.1 < q).
Proof.
  intros Hin Hq. destruct b as [a n]. apply in_split in Hin as (l1 & l2 & E).
  destruct (next_facts l1 a n l2 E) as [Ha Hn]. cbn in Hq. rewrite Ha in Hq. injection Hq as <-. by exists l1, l2.
Qed.

Lemma free_body_run bp a n q : In (a, n) ((base, 0) :: blocks) -> hdrs s !! a = Some (q, n) ->
  free_body bp a s =
    if (a <? bp) && (bp <? q) then Ok (inr a) s
    else if (q <=? a) && ((a <? bp) || (bp <? q)) then Ok (inr a) s else Ok (inl q) s.
Proof.
  intros Hin Ha. unfold free_body, bind. rewrite (s_ptr_run s a q n); [|by apply (valid_node (a, n))|done]. by repeat case_match.
Qed.

Lemma head_base l1 p n l2 : (base, 0) :: blocks = l1 ++ (p, n) :: l2 -> hd_addr l1 p = base /\ base <= p.
Proof.
  intros E. pose proof (ok_sorted _ _ _ OK) as Hs. destruct l1 as [|x l1].
  - injection E as Ep _ _. cbn. lia.
  - injection E as <- E. split; [done|]. rewrite E in Hs. apply StronglySorted_inv in Hs as [_ Hs].
    rewrite List.Forall_forall in Hs. specialize (Hs (p, n) ltac:(apply in_elt)). unfold before in Hs. cbn in Hs. lia.
Qed.

Lemma free_stop bp m l1 p n l2 fuel : alloc !! bp = Some m -> place bp m l1 p n l2 ->
  loop (S fuel) (free_body bp) p s = Ok p s.
Proof.
  intros Ha (E & Hp & _ & _ & H2). pose proof (alloc_in_heap bp m Ha). pose proof (ok_base _ _ _ OK).
  destruct (next_facts l1 p n l2 E) as [Hq _]. destruct (head_base l1 p n l2 E) as [_ Hb]. cbn [loop]. unfold bind.
  rewrite (free_body_run bp p n (hd_addr l2 base)); [|rewrite E; apply in_elt|done].
  destruct (Z.ltb_spec p bp); [|lia]. cbn [andb orb]. destruct l2 as [|[y k] l2]; cbn [hd_addr fst].
  - destruct (Z.ltb_spec bp base); [lia|]. destruct (Z.leb_spec base p); [done|lia].
  - apply Forall_cons in H2 as [H2 _]. cbn in H2. destruct (Z.ltb_spec bp y); [done|lia].
Qed.

Lemma free_go_low bp m l1 p n l2 b q : alloc !! bp = Some m -> place bp m l1 p n l2 ->
  In b l1 -> hdrs s !! b.1 = Some (q, b.2) -> free_body bp b.1 s = Ok (inl q) s.
Proof.
  intros Ha (E & Hp & _ & H1 & _) Hin Hq. destruct b as [a k]. cbn [fst snd] in *. apply in_split in Hin as (x1 & x2 & ->).
  rewrite <- app_assoc in E. cbn [app] in E.
  destruct (next_facts x1 a k (x2 ++ (p, n) :: l2) E) as [Hq' Hlt]. rewrite Hq' in Hq. injection Hq as <-.
  rewrite (free_body_run bp a k (hd_addr (x2 ++ (p, n) :: l2) base)); [|rewrite E; apply in_elt|done].
  assert (hd_addr (x2 ++ (p, n) :: l2) base < bp) as Hn.
  { destruct x2 as [|[y j] x2]; [done|]. cbn. pose proof (ok_sorted _ _ _ OK) as Hs. pose proof (nodes_nonneg (y, j)) as Hj.
    rewrite E in Hs, Hj. replace (x1 ++ (a, k) :: ((y, j) :: x2) ++ (p, n) :: l2)
      with ((x1 ++ [(a, k)]) ++ (y, j) :: x2 ++ (p, n) :: l2) in Hs, Hj by (by rewrite <- !app_assoc).
    specialize (Hj ltac:(apply in_elt)). apply sorted_split in Hs as [_ Hs]. apply Forall_app in Hs as [_ Hs].
    apply Forall_cons in Hs as [Hs _]. unfold before in Hs. cbn in *. lia. }
  destruct Hlt as [Hnil|Hlt]; [by destruct x2|].
  destruct (Z.ltb_spec bp (hd_addr (x2 ++ (p, n) :: l2) base)); [lia|]. rewrite andb_false_r.
  destruct (Z.leb_spec (hd_addr (x2 ++ (p, n) :: l2) base) a); [lia|done].
Qed.

Lemma free_go_high bp m l1 p n l2 b q : alloc !! bp = Some m -> place bp m l1 p n l2 ->
  In b l2 -> hdrs s !! b.1 = Some (q, b.2) -> free_body bp b.1 s = Ok (inl q) s.
Proof.
  intros Ha (E & _ & _ & _ & H2) Hin Hq. pose proof (alloc_in_heap bp m Ha). pose proof (ok_base _ _ _ OK).
  destruct b as [a k]. rewrite List.Forall_forall in H2. specialize (H2 (a, k) Hin). cbn in H2.
  assert (In (a, k) ((base, 0) :: blocks)) as Hin' by (rewrite E; apply in_app_iff; right; by right).
  destruct (node_unique (a, k) q Hin' Hq) as (x1 & x2 & _ & Eq & Hlt). cbn [fst snd] in *.
  rewrite (free_body_run bp a k q) by done. destruct (Z.ltb_spec a bp); [lia|]. cbn [andb orb].
  destruct Hlt as [->|Hlt].
  - cbn in Eq. subst q. destruct (Z.ltb_spec bp base); [lia|]. by rewrite andb_false_r.
  - destruct (Z.leb_spec q a); [lia|done].
Qed.

Lemma freep_node : exists b, In b ((base, 0) :: blocks) /\ b.1 = freep s.
Proof.
  pose proof (ok_freep _ _ _ OK) as [Hf|Hf]; [exists (base, 0); split; [by left|done]|].
  apply list_elem_of_In, list_elem_of_fmap in Hf as (b & Hf & Hin). exists b. split; [right; by apply list_elem_of_In|done].
Qed.

Lemma free_loop bp m l1 p n l2 : alloc !! bp = Some m -> place bp m l1 p n l2 ->
  loop (S (S (units s))) (free_body bp) (freep s) s = Ok p s.
Proof.
  intros Ha Hpl. pose proof (free_stop bp m l1 p n l2) as Hstop.
  pose proof (fun b q => free_go_low bp m l1 p n l2 b q Ha Hpl) as Hgo1.
  pose proof (fun b q => free_go_high bp m l1 p n l2 b q Ha Hpl) as Hgo2.
  pose proof Hpl as (E & _). destruct (head_base l1 p n l2 E) as [Hhd _].
  pose proof (ok_links _ _ _ OK) as Hl. rewrite E in Hl. apply lseg_app in Hl as [Hl1 [Hlp Hl2]].
  assert (length l1 + length l2 <= units s)%nat as Hfuel.
  { pose proof list_fuel as Hf. apply (f_equal length) in E. rewrite length_app in E. simpl in E. lia. }
  destruct freep_node as (b & Hb & <-). rewrite E in Hb. apply in_app_iff in Hb as [Hb|[<-|Hb]].
  - apply in_split in Hb as (x1 & x2 & ->). apply lseg_app in Hl1 as [_ Hl1]. rewrite length_app in Hfuel. simpl in Hfuel.
    replace (S (S (units s))) with (length (b :: x2) + S (S (units s) - length (b :: x2)))%nat by (simpl; lia).
    replace (b.1) with (hd_addr (b :: x2) p) by done.
    rewrite (loop_lseg (free_body bp) s (b :: x2) p); [by eapply Hstop|done|].
    intros b' q Hin. apply Hgo1. apply in_app_iff. by right.
  - by eapply Hstop.
  - apply in_split in Hb as (x1 & x2 & ->). apply lseg_app in Hl2 as [_ Hl2]. rewrite length_app in Hfuel. simpl in Hfuel.
    replace (S (S (units s))) with (length ((b :: x2) ++ l1) + S (S (units s) - length ((b :: x2) ++ l1)))%nat
      by (rewrite length_app; simpl; lia).
    replace (b.1) with (hd_addr ((b :: x2) ++ l1) p) by done.
    rewrite (loop_lseg (free_body bp) s ((b :: x2) ++ l1) p); [by eapply Hstop| |].
    + apply lseg_app. rewrite Hhd. done.
    + intros b' q Hin. apply in_app_iff in Hin as [Hin|Hin]; [|by apply Hgo1].
      apply Hgo2. apply in_app_iff. by right.
Qed.

(** ** Joining a block with its neighbours *)

Definition merge_up (bp m : Z) (l2 : list (Z * Z)) : Z * list (Z * Z) :=
  match l2 with
  | (q, k) :: l2' => if bp + m =? q then (m + k, l2') else (m, l2)
  | [] => (m, [])
  end.

Definition merge_down (p n bp m : Z) : list (Z * Z) :=
  if p + n =? bp then [(p, n + m)] else [(p, n); (bp, m)].

Lemma merge_up_ok bp m l2 m' l2' : 0 < m -> StronglySorted before l2 -> Forall (fun b => 0 < b.2) l2 ->
  Forall (fun b => bp + m <= b.1) l2 -> merge_up bp m l2 = (m', l2') ->
  0 < m' /\ StronglySorted before l2' /\ Forall (fun b => 0 < b.2) l2' /\ Forall (fun b => bp + m' < b.1) l2' /\
  (forall u, covers l2' u \/ bp <= u < bp + m' <-> covers l2 u \/ bp <= u < bp + m).
Proof.
  intros Hm Hs Hp Hb. destruct l2 as [|[q k] l2]; cbn [merge_up].
  - intros [= <- <-]. split; [done|]. split; [done|]. split; [done|]. split; [constructor|done].
  - pose proof Hs as [Hs' Hq]%StronglySorted_inv. pose proof Hp as [Hk Hp']%Forall_cons. apply Forall_cons in Hb as [Hbq Hb].
    cbn in Hk, Hbq. destruct (Z.eqb_spec (bp + m) q) as [E|E]; intros [= <- <-].
    + split; [lia|]. split; [done|]. split; [done|]. split.
      * rewrite List.Forall_forall in *. intros y Hy. specialize (Hq y Hy). unfold before in Hq. cbn in Hq. lia.
      * intros u. split.
        -- intros [(a & n & Hin & Hu)|Hu]; [left; exists a, n; split; [by right|done]|].
           destruct (Z_lt_le_dec u (bp + m)); [right; lia|]. left. exists q, k. split; [by left|lia].
        -- intros [(a & n & [[= <- <-]|Hin] & Hu)|Hu]; [right; lia|left; by exists a, n|right; lia].
    + split; [done|]. split; [done|]. split; [done|]. split; [|done]. constructor; [cbn; lia|].
      rewrite List.Forall_forall in *. intros y Hy. specialize (Hq y Hy). unfold before in Hq. cbn in Hq. lia.
Qed.

Lemma merge_down_ok p n bp m : 0 <= n -> 0 < m -> p + n <= bp ->
  StronglySorted before (merge_down p n bp m) /\
  (forall y, before (bp, m) y -> Forall (fun x => before x y) (merge_down p n bp m)) /\
  (forall x, before x (p, n) -> Forall (before x) (merge_down p n bp m)) /\
  (forall u, covers (merge_down p n bp m) u <-> covers [(p, n)] u \/ bp <= u < bp + m).
Proof.
  intros Hn Hm Hp. unfold merge_down, before, covers. destruct (Z.eqb_spec (p + n) bp) as [E|E].
  - split; [repeat constructor|]. cbn. split; [intros y Hy; constructor; [cbn; lia|constructor]|].
    split; [intros x Hx; constructor; [done|constructor]|]. intros u. split.
    + intros (a & k & [[= <- <-]|[]] & Hu). destruct (Z_lt_le_dec u bp); [left; exists p, n; split; [by left|lia]|right; lia].
    + intros [(a & k & [[= <- <-]|[]] & Hu)|Hu]; exists p, (n + m); (split; [by left|lia]).
  - split; [repeat constructor; cbn; lia|]. cbn. split; [intros y Hy; repeat constructor; cbn; lia|].
    split; [intros x Hx; repeat constructor; cbn; lia|]. intros u. split.
    + intros (a & k & [[= <- <-]|[[= <- <-]|[]]] & Hu); [left; exists p, n; split; [by left|lia]|right; lia].
    + intros [(a & k & [[= <- <-]|[]] & Hu)|Hu]; [exists p, n; split; [by left|lia]|exists bp, m; split; [right; by left|lia]].
Qed.

Lemma covers_app l1 l2 u : covers (l1 ++ l2) u <-> covers l1 u \/ covers l2 u.
Proof.
  unfold covers. split.
  - intros (a & n & Hin & Hu). apply in_app_iff in Hin as [Hin|Hin]; [left|right]; eauto.
  - intros [(a & n & Hin & Hu)|(a & n & Hin & Hu)]; exists a, n; (split; [apply in_app_iff; tauto|done]).
Qed.

Lemma covers_base l u : covers ((base, 0) :: l) u <-> covers l u.
Proof.
  unfold covers. split; intros (a & n & Hin & Hu); [destruct Hin as [[= <- <-]|Hin]; [lia|]|]; exists a, n; [done|].
  split; [by right|done].
Qed.

(** The free list with the block [bp] put back. *)
Lemma new_nodes bp m l1 p n l2 m' l2' : alloc !! bp = Some m -> place bp m l1 p n l2 -> merge_up bp m l2 = (m', l2') ->
  exists blocks', l1 ++ merge_down p n bp m' ++ l2' = (base, 0) :: blocks' /\
    StronglySorted before ((base, 0) :: blocks') /\ Forall (fun b => 0 < b.2) blocks' /\
    (forall u, covers blocks' u <-> covers blocks u \/ bp <= u < bp + m).
Proof.
  intros Ha (E & Hp & Hpn & H1 & H2) Hm. pose proof (alloc_in_heap bp m Ha) as Hbp. pose proof (ok_base _ _ _ OK) as Hbase.
  pose proof (ok_sorted _ _ _ OK) as Hs. pose proof (ok_sizes _ _ _ OK) as Hsz.
  pose proof (nodes_nonneg (p, n) ltac:(rewrite E; apply in_elt)) as Hn. cbn in Hn.
  rewrite E in Hs. pose proof Hs as (Hs1 & Hsr & Hcr)%sorted_app.
  pose proof (sorted_split l1 (p, n) l2 Hs) as [Hlp Hpl]. apply StronglySorted_inv in Hsr as [Hs2 _].
  assert (Forall (fun b => 0 < b.2) l2) as Hsz2.
  { rewrite List.Forall_forall in *. intros b Hb. apply Hsz. destruct l1 as [|x l1]; injection E as _ E.
    - intros. by subst.
    - rewrite E. apply in_app_iff. right. by right. }
  destruct (merge_up_ok bp m l2 m' l2' ltac:(lia) Hs2 Hsz2 H2 Hm) as (Hm' & Hs2' & Hsz2' & Hb2' & Hc2).
  destruct (merge_down_ok p n bp m' Hn Hm' Hpn) as (Hsd & Hdup & Hddn & Hcd).
  assert (StronglySorted before (l1 ++ merge_down p n bp m' ++ l2')) as HS.
  { apply sorted_app. split; [done|]. split.
    - apply sorted_app. split; [done|]. split; [done|]. apply List.Forall_forall. intros x Hx. apply List.Forall_forall. intros y Hy.
      rewrite List.Forall_forall in Hb2'. specialize (Hdup y (Hb2' y Hy)). rewrite List.Forall_forall in Hdup. by apply Hdup.
    - rewrite List.Forall_forall in Hlp |- *. intros x Hx. apply Forall_app. split; [by apply Hddn, Hlp|].
      rewrite List.Forall_forall in Hb2' |- *. intros y Hy. specialize (Hb2' y Hy). rewrite List.Forall_forall in H1.
      specialize (H1 x Hx). unfold before. lia. }
  assert (exists blocks', l1 ++ merge_down p n bp m' ++ l2' = (base, 0) :: blocks') as (blocks' & E').
  { destruct l1 as [|x l1].
    - injection E as <- <- _. unfold merge_down. destruct (Z.eqb_spec (base + 0) bp); [lia|]. by eexists.
    - injection E as <- _. by eexists. }
  exists blocks'. split; [done|]. rewrite E' in HS. split; [done|].
  assert (forall u, covers blocks' u <-> covers blocks u \/ bp <= u < bp + m) as Hcov.
  { intros u. rewrite <- (covers_base blocks'), <- (covers_base blocks), E, <- E'. rewrite !covers_app, Hcd.
    change ((p, n) :: l2) with ([(p, n)] ++ l2). rewrite covers_app. specialize (Hc2 u). tauto. }
  split; [|done]. apply List.Forall_forall. intros b Hb. apply StronglySorted_inv in HS as [_ HS].
  rewrite List.Forall_forall in HS. specialize (HS b Hb). unfold before in HS. cbn in HS.
  assert (In b (l1 ++ merge_down p n bp m' ++ l2')) as Hin by (rewrite E'; by right).
  apply in_app_iff in Hin as [Hin|Hin]; [|apply in_app_iff in Hin as [Hin|Hin]].
  - apply nodes_pos; [rewrite E; apply in_app_iff; by left|lia].
  - unfold merge_down in Hin. destruct (p + n =? bp); [destruct Hin as [<-|[]]; cbn; lia|].
    destruct Hin as [<-|[<-|[]]]; [|done]. apply (nodes_pos (p, n)); [rewrite E; apply in_elt|]. cbn in *. lia.
  - rewrite List.Forall_forall in Hsz2'. by apply Hsz2'.
Qed.

Lemma with_hdr_twice p h1 h2 : with_hdr (with_hdr s p h1) p h2 = with_hdr s p h2.
Proof. unfold with_hdr. cbn. by rewrite insert_insert_eq. Qed.

Lemma alloc_valid bp m : alloc !! bp = Some m -> valid s bp = true /\ exists q, hdrs s !! bp = Some (q, m).
Proof.
  intros Ha. split; [apply valid_heap; pose proof (alloc_in_heap bp m Ha); lia|]. by apply (ok_alloc _ _ _ OK).
Qed.

Lemma free_up_ok bp m l1 p n l2 m' l2' : alloc !! bp = Some m -> place bp m l1 p n l2 -> merge_up bp m l2 = (m', l2') ->
  wp (free_up bp (hd_addr l2 base) m) (fun _ s' => s' = with_hdr s bp (hd_addr l2' base, m')) s.
Proof.
  intros Ha (E & Hp & Hpn & H1 & H2) Hm. pose proof (alloc_in_heap bp m Ha). pose proof (ok_base _ _ _ OK).
  destruct (alloc_valid bp m Ha) as [Hv (q0 & Hq0)]. unfold wp, free_up.
  destruct l2 as [|[q k] l2]; cbn [hd_addr fst merge_up] in *.
  - injection Hm as <- <-. destruct (Z.eqb_spec (bp + m) base); [lia|]. by eapply wpe_set_ptr.
  - destruct (Z.eqb_spec (bp + m) q) as [Eq|Eq]; injection Hm as <- <-; [|by eapply wpe_set_ptr].
    assert (In (q, k) ((base, 0) :: blocks)) as Hin by (rewrite E; apply in_app_iff; right; right; by left).
    pose proof (valid_node (q, k) Hin) as Hvq. cbn in Hvq.
    destruct (next_facts (l1 ++ [(p, n)]) q k l2) as [Hq _]; [by rewrite E, <- app_assoc|].
    destruct Hin as [[= <- <-]|Hin]; [lia|]. pose proof (block_in_heap q k Hin).
    assert (psize s / sizeof_Header < 2^32) as Hsz.
    { pose proof (ok_size _ _ _ OK) as (_ & _ & Hz). unfold sizeof_Header, XKERNBASE in *. Z.div_mod_to_equations; lia. }
    apply wpe_bind. eapply wpe_size; [done|exact Hq|]. apply wpe_bind. eapply wpe_set_size; [done|exact Hq0|].
    apply wpe_bind. eapply (wpe_ptr q (hd_addr l2 base) k); [done|cbn; rewrite lookup_insert_ne by lia; exact Hq|].
    eapply (wpe_set_ptr bp); [done|cbn; apply lookup_insert_eq|]. rewrite with_hdr_twice, u32_small by lia. done.
Qed.

Lemma free_down_ok bp p n q m' e s1 : valid s1 p = true -> valid s1 bp = true -> p <> bp -> 0 <= n -> 0 <= m' -> n + m' < 2^32 ->
  hdrs s1 !! p = Some (q, n) -> hdrs s1 !! bp = Some (e, m') ->
  wp (free_down bp p) (fun _ s' => s' = with_hdr s1 p (if p + n =? bp then (e, n + m') else (bp, n))) s1.
Proof.
  intros Hvp Hvb Hne Hn Hm' Hlt Hp Hb. unfold wp, free_down. apply wpe_bind. eapply wpe_size; [done|exact Hp|].
  destruct (p + n =? bp); [|by eapply wpe_set_ptr].
  apply wpe_bind. eapply wpe_size; [done|exact Hb|]. apply wpe_bind. eapply wpe_set_size; [done|exact Hp|].
  apply wpe_bind. eapply (wpe_ptr bp e m'); [done|cbn; by rewrite lookup_insert_ne|].
  eapply (wpe_set_ptr p); [done|cbn; apply lookup_insert_eq|]. unfold with_hdr. cbn. by rewrite insert_insert_eq, u32_small by lia.
Qed.
End ok.

(** The links of the new free list. *)
Lemma new_links h l1 p n bp m' l2' : lseg h l1 p -> lseg h l2' base ->
  ~ In p l1.*1 -> ~ In bp l1.*1 -> ~ In p l2'.*1 -> ~ In bp l2'.*1 -> p <> bp ->
  lseg (<[p := if p + n =? bp then (hd_addr l2' base, n + m') else (bp, n)]> (<[bp := (hd_addr l2' base, m')]> h))
    (l1 ++ merge_down p n bp m' ++ l2') base.
Proof.
  intros H1 H2 Hp1 Hb1 Hp2 Hb2 Hne. apply lseg_app.
  assert (hd_addr (merge_down p n bp m' ++ l2') base = p) as -> by (unfold merge_down; by destruct (p + n =? bp)).
  split; [by repeat apply lseg_insert|]. apply lseg_app. split; [|by repeat apply lseg_insert].
  unfold merge_down. destruct (p + n =? bp); cbn.
  - by rewrite lookup_insert_eq.
  - rewrite lookup_insert_eq, lookup_insert_ne, lookup_insert_eq by done. done.
Qed.

(** Addresses on the two sides of the place are different from [p] and [bp]. *)
Lemma place_fresh s blocks alloc bp m l1 p n l2 m' l2' : heap_ok s blocks alloc -> alloc !! bp = Some m ->
  place blocks bp m l1 p n l2 -> merge_up bp m l2 = (m', l2') ->
  ~ In p l1.*1 /\ ~ In bp l1.*1 /\ ~ In p l2'.*1 /\ ~ In bp l2'.*1 /\ lseg (hdrs s) l1 p /\ lseg (hdrs s) l2' base.
Proof.
  intros OK Ha (E & Hp & Hpn & H1 & H2) Hm. pose proof (alloc_in_heap s blocks alloc OK bp m Ha).
  pose proof (ok_sorted _ _ _ OK) as Hs. pose proof (ok_links _ _ _ OK) as Hl. rewrite E in Hs, Hl.
  apply sorted_split in Hs as [Hlp _]. apply lseg_app in Hl as [Hl1 [_ Hl2]].
  assert (forall b, In b l1 -> 0 <= b.2) as Hnn.
  { intros b Hb. apply (nodes_nonneg s blocks alloc OK). rewrite E. apply in_app_iff. by left. }
  assert (forall b, In b l2' -> In b l2) as Hsub.
  { unfold merge_up in Hm. destruct l2 as [|[q k] l2]; [by injection Hm as _ <-|].
    destruct (bp + m =? q); injection Hm as _ <-; [by right|done]. }
  rewrite List.Forall_forall in Hlp, H1, H2.
  assert (forall a (l : list (Z * Z)), In a l.*1 -> exists b, In b l /\ b.1 = a) as Hfst.
  { intros a l Hin. apply list_elem_of_In, list_elem_of_fmap in Hin as (b & -> & Hb). exists b. by rewrite <- list_elem_of_In. }
  repeat split; try (intros Hin; apply Hfst in Hin as (b & Hb & Eb)).
  - specialize (Hlp b Hb). specialize (Hnn b Hb). unfold before in Hlp. cbn in Hlp. lia.
  - specialize (Hlp b Hb). specialize (Hnn b Hb). unfold before in Hlp. cbn in Hlp. lia.
  - specialize (H2 b (Hsub b Hb)). lia.
  - specialize (H2 b (Hsub b Hb)). lia.
  - exact Hl1.
  - unfold merge_up in Hm. destruct l2 as [|[q k] l2]; [by injection Hm as _ <-|].
    destruct (bp + m =? q); injection Hm as _ <-; [by destruct Hl2|done].
Qed.

Lemma merge_up_bound s blocks alloc bp m l1 p n l2 m' l2' : heap_ok s blocks alloc -> alloc !! bp = Some m ->
  place blocks bp m l1 p n l2 -> merge_up bp m l2 = (m', l2') -> bp + m' <= psize s / sizeof_Header < 2^32.
Proof.
  intros OK Ha (E & _) Hm. pose proof (alloc_in_heap s blocks alloc OK bp m Ha). pose proof (ok_base _ _ _ OK). split.
  - unfold merge_up in Hm. destruct l2 as [|[q k] l2]; [injection Hm as <- _; lia|].
    assert (In (q, k) ((base, 0) :: blocks)) as Hin by (rewrite E; apply in_app_iff; right; right; by left).
    destruct (Z.eqb_spec (bp + m) q); injection Hm as <- _; [|lia]. destruct Hin as [[= <- <-]|Hin]; [lia|].
    pose proof (block_in_heap s blocks alloc OK q k Hin). lia.
  - pose proof (ok_size _ _ _ OK) as (_ & _ & Hz). unfold sizeof_Header, XKERNBASE in *. Z.div_mod_to_equations; lia.
Qed.

Lemma merge_up_pos s blocks alloc bp m l1 p n l2 m' l2' : heap_ok s blocks alloc -> alloc !! bp = Some m ->
  place blocks bp m l1 p n l2 -> merge_up bp m l2 = (m', l2') -> 0 < m'.
Proof.
  intros OK Ha (E & _) Hm. pose proof (alloc_in_heap s blocks alloc OK bp m Ha). unfold merge_up in Hm.
  destruct l2 as [|[q k] l2]; [injection Hm as <- _; lia|]. destruct (bp + m =? q); injection Hm as <- _; [|lia].
  pose proof (nodes_nonneg s blocks alloc OK (q, k)) as Hk. rewrite E in Hk.
  specialize (Hk ltac:(apply in_app_iff; right; right; by left)). cbn in Hk. lia.
Qed.

(** The invariant after the block [bp] went back to the free list. *)
Lemma free_inv s blocks alloc bp m s' blocks' : heap_ok s blocks alloc -> alloc !! bp = Some m -> psize s' = psize s ->
  lseg (hdrs s') ((base, 0) :: blocks') base -> StronglySorted before ((base, 0) :: blocks') ->
  Forall (fun b => 0 < b.2) blocks' -> In (freep s') (base :: blocks'.*1) ->
  (forall a k, a <> bp -> alloc !! a = Some k -> hdrs s' !! a = hdrs s !! a) ->
  (forall u, covers blocks' u <-> covers blocks u \/ bp <= u < bp + m) ->
  heap_ok s' blocks' (delete bp alloc).
Proof.
  intros OK Ha Hps Hl Hs Hsz Hf Hh Hc. pose proof (alloc_in_heap s blocks alloc OK bp m Ha).
  assert (forall a k u, delete bp alloc !! a = Some k -> a <= u < a + k -> ~ (bp <= u < bp + m)) as Hout.
  { intros a k u Hk Hu Hb. apply lookup_delete_Some in Hk as [Hne Hk].
    destruct (Z_lt_le_dec a bp); [pose proof (ok_alloc_disj _ _ _ OK a k bp m Hk Ha); lia|].
    pose proof (ok_alloc_disj _ _ _ OK bp m a k Ha Hk). lia. }
  constructor; try done.
  - apply (ok_base _ _ _ OK).
  - rewrite Hps. apply (ok_size _ _ _ OK).
  - intros a k [Hne Hk]%lookup_delete_Some. rewrite (Hh a k); [by apply (ok_alloc _ _ _ OK)|done|done].
  - intros a k b j [_ Hk]%lookup_delete_Some [_ Hj]%lookup_delete_Some. by apply (ok_alloc_disj _ _ _ OK a k b j).
  - intros a k u Hk Hu. rewrite Hc. intros [Hcu|Hcu]; [|by eapply Hout].
    apply lookup_delete_Some in Hk as [_ Hk]. by apply (ok_free_disj _ _ _ OK a k u).
  - intros u. rewrite Hps, (ok_cover _ _ _ OK u), Hc. split.
    + intros [Hu|(a & k & Hk & Hu)]; [tauto|]. destruct (decide (a = bp)) as [->|Hne].
      * rewrite Ha in Hk. injection Hk as <-. tauto.
      * right. exists a, k. split; [by apply lookup_delete_Some|done].
    + intros [[Hu|Hu]|(a & k & [_ Hk]%lookup_delete_Some & Hu)]; [tauto|right; by exists bp, m|right; by exists a, k].
Qed.

Lemma free_ok s blocks alloc bp m : heap_ok s blocks alloc -> alloc !! bp = Some m ->
  wp (free (bp + 1)) (fun _ s' => exists blocks', heap_ok s' blocks' (delete bp alloc) /\ psize s' = psize s /\
    forall u, covers blocks' u <-> covers blocks u \/ bp <= u < bp + m) s.
Proof.
  intros OK Ha. pose proof (alloc_in_heap s blocks alloc OK bp m Ha) as Hbp. pose proof (ok_base _ _ _ OK) as Hbase.
  destruct (alloc_place s blocks alloc OK bp m Ha) as (l1 & p & n & l2 & Hpl).
  destruct (merge_up bp m l2) as [m' l2'] eqn:Hm.
  destruct (new_nodes s blocks alloc OK bp m l1 p n l2 m' l2' Ha Hpl Hm) as (blocks' & E' & Hs' & Hsz' & Hcov).
  destruct (place_fresh s blocks alloc bp m l1 p n l2 m' l2' OK Ha Hpl Hm) as (F1 & F2 & F3 & F4 & L1 & L2).
  pose proof Hpl as (E & Hp & Hpn & _).
  assert (In (p, n) ((base, 0) :: blocks)) as Hin by (rewrite E; apply in_elt).
  pose proof (valid_node s blocks alloc OK (p, n) Hin) as Hvp. cbn in Hvp.
  pose proof (nodes_nonneg s blocks alloc OK (p, n) Hin) as Hn. cbn in Hn.
  destruct (next_facts s blocks alloc OK l1 p n l2 E) as [Hhp _].
  destruct (alloc_valid s blocks alloc OK bp m Ha) as [Hvb (q0 & Hq0)].
  unfold wp, free. replace (bp + 1 - 1) with bp by lia. wp_steps.
  unfold wpe at 1. rewrite (free_loop s blocks alloc OK bp m l1 p n l2 Ha Hpl).
  wp_steps. eapply wpe_size; [done|exact Hq0|]. wp_steps. eapply wpe_ptr; [done|exact Hhp|].
  wp_steps.
  eapply wp_wpe; [eapply (free_up_ok s blocks alloc OK); eassumption|]. intros _ s1 ->. wp_steps.
  assert (bp + m' <= psize s / sizeof_Header < 2^32) as Hsz by (by eapply merge_up_bound).
  assert (0 < m') as Hm'0 by (by eapply merge_up_pos). destruct (head_base s blocks alloc OK l1 p n l2 E) as [_ Hbp0].
  eapply wp_wpe; [apply (free_down_ok bp p n (hd_addr l2 base) m' (hd_addr l2' base)); try done; try lia|].
  { cbn. rewrite lookup_insert_ne by lia. exact Hhp. } { cbn. apply lookup_insert_eq. }
  intros _ s2 ->. wp_steps. exists blocks'. split; [|split; [done|exact Hcov]].
  eapply (free_inv s blocks alloc bp m); try eassumption; try done.
  - rewrite <- E'. by apply (new_links (hdrs s)); try lia.
  - change (In p (((base, 0) :: blocks').*1)). rewrite <- E', fmap_app. apply in_app_iff. right.
    rewrite fmap_app. apply in_app_iff. left. unfold merge_down. destruct (p + n =? bp); by left.
  - intros a k Hne Hk. cbn. rewrite !lookup_insert_ne; [done|lia|]. intros <-.
    destruct Hin as [[= <- <-]|Hin]; [pose proof (alloc_in_heap s blocks alloc OK base k Hk); lia|].
    pose proof (block_in_heap s blocks alloc OK p n Hin).
    apply (ok_free_disj _ _ _ OK p k p Hk); [pose proof (alloc_in_heap s blocks alloc OK p k Hk); lia|].
    exists p, n. split; [done|lia].
Qed.

(** ** Growing the heap *)

(** A range of units that are all free lies in one block. *)
Lemma contiguous l a n : StronglySorted before l -> Forall (fun b => 0 < b.2) l -> 0 < n ->
  (forall u, a <= u < a + n -> covers l u) -> exists b, In b l /\ b.1 <= a /\ a + n <= b.1 + b.2.
Proof.
  intros Hs Hp Hn Hc. destruct (Hc a ltac:(lia)) as (b & m & Hb & Hu). exists (b, m). split; [done|]. cbn.
  split; [lia|]. destruct (Z_le_gt_dec (a + n) (b + m)) as [|Hgt]; [done|exfalso].
  destruct (Hc (b + m) ltac:(lia)) as (c & k & Hck & Hu').
  apply in_split in Hb as (l1 & l2 & ->). apply sorted_split in Hs as [H1 H2]. rewrite List.Forall_forall in *.
  apply in_app_iff in Hck as [Hck|[[= <- <-]|Hck]].
  - specialize (H1 _ Hck). specialize (Hp (c, k) ltac:(apply in_app_iff; by left)). unfold before in H1. cbn in *. lia.
  - lia.
  - specialize (H2 _ Hck). unfold before in H2. cbn in *. lia.
Qed.

(** The heap after sbrk, with the new memory as a block in use. *)
Lemma sbrk_extends s blocks alloc nu q : heap_ok s blocks alloc -> 0 < nu -> psize s + 8 * nu < XKERNBASE ->
  let hp := psize s / sizeof_Header in
  alloc !! hp = None /\
  heap_ok (mkHeap (<[hp := (q, nu)]> (hdrs s)) (freep s) (psize s + 8 * nu)) blocks (<[hp := nu]> alloc).
Proof.
  intros OK Hnu Hk hp. pose proof (ok_base _ _ _ OK) as Hbase. pose proof (ok_size _ _ _ OK) as (Hz & Hh & Hr).
  assert ((psize s + 8 * nu) / sizeof_Header = hp + nu) as Ediv.
  { unfold hp, sizeof_Header. replace (psize s + 8 * nu) with (psize s + nu * 8) by lia. by rewrite Z.div_add by lia. }
  assert (forall a k, alloc !! a = Some k -> 0 < k /\ heap0 <= a /\ a + k <= hp) as Hal.
  { intros a k Ha. by apply (alloc_in_heap s blocks alloc OK). }
  assert (alloc !! hp = None) as Hnone.
  { destruct (alloc !! hp) as [k|] eqn:Ek; [|done]. specialize (Hal hp k Ek). lia. }
  split; [done|]. assert (forall u, covers blocks u -> heap0 <= u < hp) as Hcb.
  { intros u Hu. apply (ok_cover _ _ _ OK). by left. }
  constructor; cbn [hdrs freep psize]; try apply OK.
  - rewrite Ediv. split; [|lia]. unfold sizeof_Header in *. rewrite <- (Z.mul_comm nu), Z.mod_add by lia. done.
  - apply lseg_insert; [|apply (ok_links _ _ _ OK)]. intros Hin.
    apply list_elem_of_In, list_elem_of_fmap in Hin as (b & Eb & Hb). apply list_elem_of_In in Hb.
    destruct Hb as [<-|Hb]; [cbn in Eb; lia|]. destruct b as [a k]. pose proof (block_in_heap s blocks alloc OK a k Hb) as Hbk.
    cbn in Eb. fold hp in Hbk. lia.
  - intros a k Ha. destruct (decide (a = hp)) as [->|Hne].
    + rewrite lookup_insert_eq in Ha. injection Ha as <-. split; [done|]. exists q. apply lookup_insert_eq.
    + rewrite lookup_insert_ne in Ha by done. rewrite lookup_insert_ne by done. by apply (ok_alloc _ _ _ OK).
  - intros a k b j [[<- <-]|[Hne Ha]]%lookup_insert_Some [[<- <-]|[Hne' Hb]]%lookup_insert_Some Hlt; try lia.
    + specialize (Hal b j Hb). lia.
    + specialize (Hal a k Ha). lia.
    + by apply (ok_alloc_disj _ _ _ OK a k b j).
  - intros a k u [[<- <-]|[Hne Ha]]%lookup_insert_Some Hu Hc; [specialize (Hcb u Hc); lia|].
    by apply (ok_free_disj _ _ _ OK a k u).
  - intros u. rewrite Ediv. pose proof (ok_cover _ _ _ OK u) as Hcu. fold hp in Hcu. split.
    + intros Hu. destruct (Z_lt_le_dec u hp) as [Hlt|Hge].
      * destruct (proj1 Hcu ltac:(lia)) as [Hc|(a & k & Ha & Hau)]; [by left|right].
        exists a, k. split; [|done]. apply lookup_insert_Some. right. split; [intros <-; specialize (Hal _ _ Ha); lia|done].
      * right. exists hp, nu. split; [apply lookup_insert_eq|lia].
    + intros [Hc|(a & k & [[<- <-]|[_ Ha]]%lookup_insert_Some & Hau)]; [specialize (Hcb u Hc); lia|lia|].
      specialize (Hal a k Ha). lia.
Qed.

(** sbrk cannot give the process the memory for [nunits] units. *)
Definition refused (sz nunits : Z) : Prop :=
  let newsz := sz + sizeof_Header * Z.max nunits 4096 in XKERNBASE <= newsz \/ oom sz newsz = true.

Lemma morecore_ok s blocks alloc nunits : heap_ok s blocks alloc -> 0 < nunits -> 8 * nunits < 2^31 ->
  wp (morecore nunits) (fun r s' => (r = 0 /\ s' = s /\ refused (psize s) nunits) \/
    (r <> 0 /\ r = freep s' /\ exists blocks', heap_ok s' blocks' alloc /\
      (units s' <= units s + Z.to_nat nunits + 4096)%nat /\ exists b, In b blocks' /\ nunits <= b.2)) s.
Proof.
  intros OK Hn Hlt. pose proof (ok_base _ _ _ OK) as Hbase. pose proof (ok_size _ _ _ OK) as (Hz & Hh & Hr).
  unfold wp, morecore. set (nu := if nunits <? 4096 then 4096 else nunits).
  assert (nunits <= nu /\ 8 * nu < 2^31 /\ nu <= nunits + 4096) as (Hnu & Hnu8 & Hnu4)
    by (unfold nu; destruct (Z.ltb_spec nunits 4096); lia).
  assert (psize s + nu * 8 = psize s + sizeof_Header * Z.max nunits 4096) as Hmax
    by (unfold nu, sizeof_Header; destruct (Z.ltb_spec nunits 4096); lia).
  unfold sbrk, sizeof_Header. rewrite s32_small by lia. wp_steps. unfold XKERNBASE in *.
  destruct (Z.ltb_spec 0 (nu * 8)); [|lia]. rewrite u32_small by lia.
  destruct (Z.leb_spec 0x80000000 (psize s + nu * 8)) as [|Hk]; cbn [orb]; [wp_steps; left; unfold refused, XKERNBASE; rewrite <- Hmax; by auto|].
  destruct (oom _ _) eqn:Hoom; [wp_steps; left; unfold refused; rewrite <- Hmax; by auto|]. destruct (Z.ltb_spec (psize s + nu * 8) (psize s)); [lia|]. wp_steps. unfold set_psize. wp_steps. cbn [psize].
  destruct (Z.eqb_spec (psize s) (-1)); [lia|]. unfold sizeof_Header in Hz. rewrite Hz. cbn [Z.eqb negb].
  set (hp := psize s / 8). set (s1 := mkHeap (hdrs s) (freep s) (psize s + nu * 8)).
  assert (valid s1 hp = true) as Hv.
  { unfold valid. apply orb_true_iff. right. cbn [psize s1]. unfold sizeof_Header. rewrite Z.div_add by lia.
    apply andb_true_iff. unfold hp. unfold sizeof_Header in Hh. lia. }
  wp_steps. unfold set_size, get_hdr. wp_steps. cbn [id]. rewrite Hv. wp_steps. unfold put_hdr. wp_steps. cbn [hdrs freep psize s1].
  destruct (sbrk_extends s blocks alloc nu (default (0, 0) (hdrs s !! hp)).1 OK ltac:(lia) ltac:(unfold XKERNBASE; lia)) as [Hnone OK'].
  replace (psize s + 8 * nu) with (psize s + nu * 8) in OK' by lia. unfold sizeof_Header in Hnone, OK'. fold hp in Hnone, OK'.
  eapply wp_wpe; [eapply (free_ok _ blocks _ hp nu OK'); apply lookup_insert_eq|].
  intros _ s3 (blocks' & OK3 & Hp3 & Hc3). wp_steps. right. rewrite delete_insert_id in OK3 by done.
  destruct (freep_node s3 blocks' alloc OK3) as (b & Hb & Eb). split; [|split; [done|]].
  - destruct Hb as [<-|Hb]; [cbn in Eb; lia|]. destruct b as [a k]. pose proof (block_in_heap s3 blocks' alloc OK3 a k Hb).
    cbn in Eb. lia.
  - exists blocks'. split; [done|]. split.
    + unfold units. rewrite Hp3. cbn [psize]. unfold sizeof_Header. rewrite Z.div_add by lia.
      unfold sizeof_Header in Hh. fold hp in Hh |- *. lia.
    + destruct (contiguous blocks' hp nu) as (b' & Hb' & Hlo & Hhi).
      * apply (StronglySorted_inv (ok_sorted _ _ _ OK3)).
      * apply (ok_sizes _ _ _ OK3).
      * lia.
      * intros u Hu. apply Hc3. by right.
      * exists b'. split; [done|lia].
Qed.

(** ** Taking a block *)

(** The invariant after the units [a', a' + nu) left the free list. *)
Lemma take_inv s blocks alloc s' blocks' a' nu : heap_ok s blocks alloc -> psize s' = psize s -> 0 < nu ->
  lseg (hdrs s') ((base, 0) :: blocks') base -> StronglySorted before ((base, 0) :: blocks') ->
  Forall (fun b => 0 < b.2) blocks' -> In (freep s') (base :: blocks'.*1) ->
  (exists q, hdrs s' !! a' = Some (q, nu)) ->
  (forall a k, alloc !! a = Some k -> hdrs s' !! a = hdrs s !! a) ->
  (forall u, covers blocks u <-> covers blocks' u \/ a' <= u < a' + nu) ->
  (forall u, covers blocks' u -> ~ (a' <= u < a' + nu)) ->
  alloc !! a' = None /\ heap_ok s' blocks' (<[a' := nu]> alloc).
Proof.
  intros OK Hps Hnu Hl Hs Hsz Hf Ha' Hh Hc Hd.
  assert (forall a k, alloc !! a = Some k -> a + k <= a' \/ a' + nu <= a) as Hout.
  { intros a k Hk. pose proof (alloc_in_heap s blocks alloc OK a k Hk).
    destruct (Z_le_gt_dec (a + k) a'); [by left|]. destruct (Z_le_gt_dec (a' + nu) a); [by right|exfalso].
    apply (ok_free_disj _ _ _ OK a k (Z.max a a') Hk); [lia|]. apply Hc. right. lia. }
  assert (alloc !! a' = None) as Hnone.
  { destruct (alloc !! a') as [k|] eqn:E; [|done]. pose proof (alloc_in_heap s blocks alloc OK a' k E). specialize (Hout a' k E). lia. }
  split; [done|]. constructor; try done.
  - apply (ok_base _ _ _ OK).
  - rewrite Hps. apply (ok_size _ _ _ OK).
  - intros a k [[<- <-]|[Hne Hk]]%lookup_insert_Some; [done|]. rewrite (Hh a k Hk). by apply (ok_alloc _ _ _ OK).
  - intros a k b j [[<- <-]|[Hne Hk]]%lookup_insert_Some [[<- <-]|[Hne' Hj]]%lookup_insert_Some Hlt; try lia.
    + pose proof (alloc_in_heap s blocks alloc OK b j Hj). specialize (Hout b j Hj). lia.
    + specialize (Hout a k Hk). lia.
    + by apply (ok_alloc_disj _ _ _ OK a k b j).
  - intros a k u [[<- <-]|[Hne Hk]]%lookup_insert_Some Hu Hcu; [by apply (Hd u)|].
    apply (ok_free_disj _ _ _ OK a k u Hk Hu). apply Hc. by left.
  - intros u. rewrite Hps, (ok_cover _ _ _ OK u), Hc. split.
    + intros [[Hu|Hu]|(a & k & Hk & Hu)]; [by left|right; exists a', nu; split; [apply lookup_insert_eq|done]|].
      right. exists a, k. split; [|done]. apply lookup_insert_Some. right. split; [intros <-; congruence|done].
    + intros [Hu|(a & k & [[<- <-]|[_ Hk]]%lookup_insert_Some & Hu)]; [tauto|tauto|right; by exists a, k].
Qed.

(** What malloc returned: a block of [nu] units that was not in use. *)
Definition got (alloc : gmap Z Z) (nu r : Z) (s' : heap) : Prop :=
  exists a blocks', r = a + 1 /\ alloc !! a = None /\ heap_ok s' blocks' (<[a := nu]> alloc).

Lemma alloc_not_node s blocks alloc x k b : heap_ok s blocks alloc -> alloc !! x = Some k ->
  In b ((base, 0) :: blocks) -> b.1 <> x.
Proof.
  intros OK Hx Hb <-. pose proof (alloc_in_heap s blocks alloc OK _ k Hx). pose proof (ok_base _ _ _ OK).
  destruct b as [a n]. destruct Hb as [[= <- <-]|Hb]; cbn in *; [lia|]. pose proof (block_in_heap s blocks alloc OK a n Hb).
  apply (ok_free_disj _ _ _ OK a k a Hx); [lia|]. exists a, n. split; [done|lia].
Qed.

(** The nodes behind the first one have a size. *)
Lemma pos_nodes l : StronglySorted before ((base, 0) :: l) ->
  (forall b, In b l -> b.1 <> base -> 0 < b.2) -> Forall (fun b => 0 < b.2) l.
Proof.
  intros Hs Hb. apply StronglySorted_inv in Hs as [_ Hs]. rewrite List.Forall_forall in *. intros b Hin.
  apply Hb; [done|]. specialize (Hs b Hin). unfold before in Hs. cbn in Hs. lia.
Qed.

(** The addresses around a node of a sorted list. *)
Lemma node_fresh k1 b k2 : StronglySorted before (k1 ++ b :: k2) -> (forall x, In x (k1 ++ b :: k2) -> 0 <= x.2) ->
  ~ In b.1 k1.*1 /\ ~ In b.1 k2.*1.
Proof.
  intros Hs Hn. apply sorted_split in Hs as [H1 H2]. rewrite List.Forall_forall in H1, H2.
  split; intros Hin; apply list_elem_of_In, list_elem_of_fmap in Hin as (x & Ex & Hx); apply list_elem_of_In in Hx.
  - specialize (H1 x Hx). specialize (Hn x ltac:(apply in_app_iff; by left)). unfold before in H1. lia.
  - specialize (H2 x Hx). specialize (Hn b ltac:(apply in_elt)). unfold before in H2. lia.
Qed.

(** A block of exactly the size: it is unlinked. *)
Lemma take_all s blocks alloc k1 pv pn a n k2 : heap_ok s blocks alloc ->
  (base, 0) :: blocks = k1 ++ (pv, pn) :: (a, n) :: k2 -> 0 < n ->
  let s' := mkHeap (<[pv := (hd_addr k2 base, pn)]> (hdrs s)) pv (psize s) in
  alloc !! a = None /\ exists blocks', heap_ok s' blocks' (<[a := n]> alloc).
Proof.
  intros OK E Hn s'. pose proof (ok_sorted _ _ _ OK) as Hs. pose proof (ok_links _ _ _ OK) as Hl.
  pose proof (nodes_nonneg s blocks alloc OK) as Hnn. rewrite E in Hs, Hl, Hnn.
  destruct (node_fresh k1 (pv, pn) ((a, n) :: k2) Hs Hnn) as [F1 F2]. cbn [fst fmap list_fmap In] in F2.
  pose proof (sorted_split (k1 ++ [(pv, pn)]) (a, n) k2) as Hsp. rewrite <- app_assoc in Hsp. destruct (Hsp Hs) as [Hlo Hhi].
  assert (exists blocks', (base, 0) :: blocks' = k1 ++ (pv, pn) :: k2) as (blocks' & E').
  { destruct k1 as [|x k1]; [injection E as <- <- _|injection E as <- _]; by eexists. }
  assert (StronglySorted before ((base, 0) :: blocks')) as Hs'.
  { rewrite E'. apply sorted_app in Hs as (S1 & S2 & C). apply StronglySorted_inv in S2 as [S2 Fp]. apply StronglySorted_inv in S2 as [S2 _].
    apply Forall_cons in Fp as [_ Fp]. apply sorted_app. split; [done|]. split; [by constructor|].
    eapply Forall_impl; [exact C|]. intros x Hx. apply Forall_cons in Hx as [Hx1 Hx2]. apply Forall_cons in Hx2 as [_ Hx2]. by constructor. }
  apply lseg_app in Hl as [L1 [Lp [La L2]]]. cbn [fst snd hd_addr] in *.
  assert (forall b, In b ((base, 0) :: blocks') -> b.1 + b.2 < a \/ a + n < b.1) as Hd.
  { intros b Hb. rewrite E' in Hb. rewrite List.Forall_forall in Hlo, Hhi. apply in_app_iff in Hb as [Hb|[<-|Hb]].
    - left. apply (Hlo b). apply in_app_iff. by left.
    - left. apply (Hlo (pv, pn)). apply in_app_iff. right. by left.
    - right. by apply (Hhi b). }
  destruct (take_inv s blocks alloc s' blocks' a n) as [H1 H2]; try done.
  - rewrite E'. apply lseg_app. split; [by apply lseg_insert|]. cbn. rewrite lookup_insert_eq. split; [done|].
    apply lseg_insert; [tauto|done].
  - apply pos_nodes; [done|]. intros b Hb. apply (nodes_pos s blocks alloc OK). rewrite E.
    assert (In b ((base, 0) :: blocks')) as Hb' by (by right). rewrite E' in Hb'.
    apply in_app_iff in Hb' as [Hb'|[Hb'|Hb']]; apply in_app_iff; [by left|right; by left|right; right; by right].
  - change (In pv (((base, 0) :: blocks').*1)). rewrite E', fmap_app. apply in_app_iff. right. by left.
  - exists (hd_addr k2 base). cbn. rewrite lookup_insert_ne by (intros ->; apply F2; by left). done.
  - intros x k Hx. cbn. rewrite lookup_insert_ne; [done|].
    apply (alloc_not_node s blocks alloc x k (pv, pn) OK Hx). rewrite E. apply in_elt.
  - intros u. rewrite <- (covers_base blocks), <- (covers_base blocks'), E, E'.
    change ((pv, pn) :: (a, n) :: k2) with ([(pv, pn)] ++ [(a, n)] ++ k2). change ((pv, pn) :: k2) with ([(pv, pn)] ++ k2).
    rewrite !covers_app. assert (covers [(a, n)] u <-> a <= u < a + n) as Hone.
    { split; [by intros (c & m & [[= <- <-]|[]] & Hu)|]. intros Hu. exists a, n. split; [by left|done]. }
    rewrite Hone. tauto.
  - intros u (c & m & Hc & Hu) Hau. destruct (Hd (c, m)) as [Hx|Hx]; [by right| |]; cbn in Hx; lia.
  - split; [done|by exists blocks'].
Qed.

(** A larger block: its end is taken. *)
Lemma take_part s blocks alloc k1 a n k2 nu q pv : heap_ok s blocks alloc ->
  (base, 0) :: blocks = k1 ++ (a, n) :: k2 -> 0 < nu < n -> In pv (base :: blocks.*1) ->
  let a' := a + (n - nu) in
  let s' := mkHeap (<[a' := (q, nu)]> (<[a := (hd_addr k2 base, n - nu)]> (hdrs s))) pv (psize s) in
  alloc !! a' = None /\ exists blocks', heap_ok s' blocks' (<[a' := nu]> alloc).
Proof.
  intros OK E Hn Hpv a' s'. pose proof (ok_sorted _ _ _ OK) as Hs. pose proof (ok_links _ _ _ OK) as Hl.
  pose proof (nodes_nonneg s blocks alloc OK) as Hnn. rewrite E in Hs, Hl, Hnn.
  destruct (node_fresh k1 (a, n) k2 Hs Hnn) as [F1 F2]. destruct (sorted_split k1 (a, n) k2 Hs) as [Hlo Hhi].
  apply lseg_app in Hl as [L1 [La L2]]. cbn [fst snd hd_addr] in *.
  assert (forall b, In b k1 -> b.1 + b.2 < a /\ 0 <= b.2) as Hb1.
  { intros b Hb. rewrite List.Forall_forall in Hlo. split; [by apply (Hlo b)|]. apply Hnn. apply in_app_iff. by left. }
  assert (forall b, In b k2 -> a + n < b.1) as Hb2 by (intros b Hb; rewrite List.Forall_forall in Hhi; by apply (Hhi b)).
  assert (forall l : list (Z * Z), (forall b, In b l -> b.1 <> a') -> ~ In a' l.*1) as Hfresh.
  { intros l Hb Hin. apply list_elem_of_In, list_elem_of_fmap in Hin as (x & Ex & Hx). apply list_elem_of_In in Hx. by apply (Hb x). }
  assert (exists blocks', (base, 0) :: blocks' = k1 ++ (a, n - nu) :: k2) as (blocks' & E').
  { destruct k1 as [|x k1]; [injection E as <- <- _; lia|injection E as <- _; by eexists]. }
  assert (StronglySorted before ((base, 0) :: blocks')) as Hs'.
  { rewrite E'. apply sorted_app in Hs as (S1 & S2 & C). apply StronglySorted_inv in S2 as [S2 _].
    apply sorted_app. split; [done|]. split; [constructor; [done|]; eapply Forall_impl; [exact Hhi|]; intros y; unfold before; cbn; lia|].
    eapply Forall_impl; [exact C|]. intros x Hx. apply Forall_cons in Hx as [Hx1 Hx2]. by constructor. }
  destruct (take_inv s blocks alloc s' blocks' a' nu) as [H1 H2]; try done; try lia.
  - rewrite E'. apply lseg_app. split; [|split; [|]].
    + apply lseg_insert; [|by apply lseg_insert]. apply Hfresh. intros b Hb. specialize (Hb1 b Hb). lia.
    + cbn. rewrite lookup_insert_ne, lookup_insert_eq by lia. done.
    + apply lseg_insert; [|by apply lseg_insert]. apply Hfresh. intros b Hb. specialize (Hb2 b Hb). lia.
  - apply pos_nodes; [done|]. intros b Hb Hne.
    assert (In b ((base, 0) :: blocks')) as Hb' by (by right). rewrite E' in Hb'.
    apply in_app_iff in Hb' as [Hb'|[<-|Hb']]; [| cbn; lia|];
      (apply (nodes_pos s blocks alloc OK); [rewrite E; apply in_app_iff|done]); [by left|right; by right].
  - change (In pv (((base, 0) :: blocks').*1)). change (In pv (((base, 0) :: blocks).*1)) in Hpv.
    rewrite E' . rewrite E in Hpv. rewrite fmap_app in Hpv |- *. exact Hpv.
  - exists q. apply lookup_insert_eq.
  - intros x k Hx. cbn. pose proof (alloc_not_node s blocks alloc x k (a, n) OK Hx ltac:(rewrite E; apply in_elt)) as Hne.
    pose proof (alloc_in_heap s blocks alloc OK x k Hx).
    assert (x <> a') as Hne'.
    { intros ->. apply (ok_free_disj _ _ _ OK a' k a' Hx); [lia|]. rewrite <- covers_base, E. exists a, n. split; [apply in_elt|lia]. }
    rewrite !lookup_insert_ne by (done || cbn in Hne; congruence). done.
  - intros u. rewrite <- (covers_base blocks), <- (covers_base blocks'), E, E'.
    change ((a, n) :: k2) with ([(a, n)] ++ k2). change ((a, n - nu) :: k2) with ([(a, n - nu)] ++ k2).
    rewrite !covers_app. assert (forall m, covers [(a, m)] u <-> a <= u < a + m) as Hone.
    { intros m. split; [by intros (c & j & [[= <- <-]|[]] & Hu)|]. intros Hu. exists a, m. split; [by left|done]. }
    rewrite !Hone. assert (a <= u < a + n <-> a <= u < a + (n - nu) \/ a' <= u < a' + nu) as -> by lia. tauto.
  - intros u (c & m & Hc & Hu) Hau. assert (In (c, m) ((base, 0) :: blocks')) as Hc' by (by right). rewrite E' in Hc'.
    apply in_app_iff in Hc' as [Hc'|[[= <- <-]|Hc']]; [specialize (Hb1 _ Hc'); cbn in Hb1; lia|lia|].
    specialize (Hb2 _ Hc'). cbn in Hb2. lia.
  - split; [done|by exists blocks'].
Qed.

Lemma found_ok s blocks alloc nu k1 pv pn a n k2 : heap_ok s blocks alloc ->
  (base, 0) :: blocks = k1 ++ (pv, pn) :: (a, n) :: k2 -> 0 < nu <= n ->
  wp (malloc_step nu (pv, a)) (fun x s' => exists r, x = inr r /\ got alloc nu r s') s.
Proof.
  intros OK E Hn. assert (In (pv, pn) ((base, 0) :: blocks) /\ In (a, n) ((base, 0) :: blocks)) as [Hp Ha].
  { rewrite E. split; [apply in_elt|]. apply in_app_iff. right. right. by left. }
  pose proof (valid_node s blocks alloc OK _ Hp) as Vp. pose proof (valid_node s blocks alloc OK _ Ha) as Va. cbn in Vp, Va.
  destruct (next_facts s blocks alloc OK k1 pv pn _ E) as [Hhp _].
  assert ((base, 0) :: blocks = (k1 ++ [(pv, pn)]) ++ (a, n) :: k2) as E2 by (by rewrite E, <- app_assoc).
  destruct (next_facts s blocks alloc OK _ a n k2 E2) as [Hha _]. unfold wp, malloc_step. apply wpe_bind.
  eapply wpe_size; [done|exact Hha|]. destruct (Z.leb_spec nu n); [|lia].
  destruct (Z.eqb_spec n nu) as [->|Hne]; wp_steps.
  - eapply wpe_ptr; [done|exact Hha|]. wp_steps. eapply wpe_set_ptr; [done|exact Hhp|]. unfold set_freep. wp_steps.
    destruct (take_all s blocks alloc k1 pv pn a nu k2 OK E ltac:(lia)) as (H1 & blocks' & H2).
    eexists. split; [reflexivity|]. exists a, blocks'. split; [done|]. split; [done|exact H2].
  - eapply wpe_set_size; [done|exact Hha|]. wp_steps. unfold set_size, get_hdr, set_freep, put_hdr. wp_steps. cbn [id].
    assert (valid (with_hdr s a (hd_addr k2 base, n - nu)) (a + (n - nu)) = true) as ->.
    { destruct Ha as [[= <- <-]|Ha]; [lia|]. pose proof (block_in_heap s blocks alloc OK a n Ha). apply valid_heap. cbn. lia. }
    wp_steps. eexists. split; [reflexivity|].
    destruct (take_part s blocks alloc (k1 ++ [(pv, pn)]) a n k2 nu
      (default (0, 0) (hdrs (with_hdr s a (hd_addr k2 base, n - nu)) !! (a + (n - nu)))).1 pv OK E2 ltac:(lia)) as (H1 & blocks' & H2).
    { change (In pv (((base, 0) :: blocks).*1)). rewrite E, fmap_app. apply in_app_iff. right. by left. }
    exists (a + (n - nu)), blocks'. split; [done|]. split; [done|exact H2].
Qed.

(** ** The search for a block *)

Fixpoint last_addr (prev : Z) (l : list (Z * Z)) : Z :=
  match l with [] => prev | b :: l => last_addr b.1 l end.

Lemma malloc_skip s nu seg e fuel prev : lseg (hdrs s) seg e ->
  (forall b, In b seg -> valid s b.1 = true /\ b.2 < nu /\ b.1 <> freep s) ->
  loop (length seg + fuel) (malloc_step nu) (prev, hd_addr seg e) s =
  loop fuel (malloc_step nu) (last_addr prev seg, e) s.
Proof.
  revert prev. induction seg as [|b seg IH]; intros prev Hl Hb; [done|]. destruct Hl as [Hh Hl].
  destruct (Hb b (or_introl eq_refl)) as (Hv & Hsm & Hf). cbn [length Nat.add loop hd_addr last_addr].
  assert (malloc_step nu (prev, b.1) s = Ok (inl (b.1, hd_addr seg e)) s) as Hstep.
  { unfold malloc_step, bind at 1. rewrite (s_size_run s b.1 _ b.2 Hv Hh). destruct (Z.leb_spec nu b.2); [lia|].
    unfold bind, gets. destruct (Z.eqb_spec b.1 (freep s)); [done|]. by rewrite (s_ptr_run s b.1 _ b.2 Hv Hh). }
  unfold bind at 1. rewrite Hstep. apply IH; [done|]. intros b' Hin. apply Hb. by right.
Qed.

Lemma last_addr_links h f l e : lseg h (f :: l) e ->
  exists b, In b (f :: l) /\ b.1 = last_addr f.1 l /\ h !! b.1 = Some (e, b.2).
Proof.
  revert f. induction l as [|g l IH]; intros f [Hf Hl]; [exists f; split; [by left|done]|].
  destruct (IH g Hl) as (b & Hb & E & Hh). exists b. split; [by right|done].
Qed.

Section scan.
Context (s : heap) (blocks : list (Z * Z)) (alloc : gmap Z Z) (OK : heap_ok s blocks alloc) (nu : Z) (Hnu : 0 < nu).

(** A node that points to another is the one in front of it. *)
Lemma pred_node b c : In b ((base, 0) :: blocks) -> In c blocks -> hdrs s !! b.1 = Some (c.1, b.2) ->
  exists k1 k2, (base, 0) :: blocks = k1 ++ b :: c :: k2.
Proof.
  intros Hb Hc Hh. destruct (node_unique s blocks alloc OK b c.1 Hb Hh) as (k1 & k2 & E & Eq & _).
  destruct c as [c n]. pose proof (block_in_heap s blocks alloc OK c n Hc). pose proof (ok_base _ _ _ OK).
  destruct k2 as [|[y j] k2]; cbn in Eq; [lia|]. subst y.
  exists k1, k2. rewrite E. do 3 f_equal. f_equal.
  destruct (node_hdr s blocks alloc OK (c, n) (or_intror Hc)) as (q1 & H1).
  destruct (node_hdr s blocks alloc OK (c, j)) as (q2 & H2); [rewrite E; apply in_app_iff; right; right; by left|].
  cbn in H1, H2. congruence.
Qed.

(** The nodes in the order of the search, [freep] last. *)
Lemma cycle : exists f seg, f.1 = freep s /\ In f ((base, 0) :: blocks) /\ (forall b, In b ((base, 0) :: blocks) <-> In b seg \/ b = f) /\
  lseg (hdrs s) (f :: seg) f.1 /\ (forall b, In b seg -> b.1 <> freep s) /\ (length seg <= units s)%nat.
Proof.
  destruct (freep_node s blocks alloc OK) as (f & Hf & Ef). pose proof Hf as (l1 & l2 & E)%in_split.
  pose proof (ok_links _ _ _ OK) as Hl. pose proof (ok_sorted _ _ _ OK) as Hs. pose proof (nodes_nonneg s blocks alloc OK) as Hnn.
  rewrite E in Hl, Hs, Hnn. apply lseg_app in Hl as [L1 [Lf L2]]. destruct f as [fa fn].
  destruct (head_base s blocks alloc OK l1 fa fn l2 E) as [Hhd _]. destruct (node_fresh l1 (fa, fn) l2 Hs Hnn) as [F1 F2].
  cbn [fst hd_addr] in *. exists (fa, fn), (l2 ++ l1). split; [done|]. split; [done|]. split; [|split; [|split]].
  - intros b. rewrite E. rewrite !in_app_iff. cbn. intuition.
  - cbn [lseg fst]. rewrite hd_addr_app, Hhd. split; [done|]. apply lseg_app. rewrite Hhd. done.
  - intros b Hb Eb. assert (forall l : list (Z * Z), In b l -> In b.1 l.*1) as Hfm.
    { intros l Hin. apply list_elem_of_In, list_elem_of_fmap. exists b. split; [done|by apply list_elem_of_In]. }
    rewrite Eb, <- Ef in Hfm. apply in_app_iff in Hb as [Hb|Hb]; apply Hfm in Hb; contradiction.
  - pose proof (list_fuel s blocks alloc OK). apply (f_equal length) in E. rewrite !length_app in *. simpl in E. lia.
Qed.

Lemma first_big (l : list (Z * Z)) : Forall (fun b => b.2 < nu) l \/
  exists x1 c x2, l = x1 ++ c :: x2 /\ Forall (fun b => b.2 < nu) x1 /\ nu <= c.2.
Proof.
  induction l as [|b l IH]; [by left|]. destruct (Z_lt_le_dec b.2 nu) as [Hlt|Hge]; [|right; by exists [], b, l].
  destruct IH as [IH|(x1 & c & x2 & -> & H1 & H2)]; [left; by constructor|right].
  exists (b :: x1), c, x2. split; [done|]. split; [by constructor|done].
Qed.

(** Where the search begins. *)
Definition start (q : Z) : Prop := exists n, hdrs s !! freep s = Some (q, n).

Lemma wpe_run {A} (m : U A) m' Q E : m s = m' s -> wpe m' Q E s -> wpe m Q E s.
Proof. intros Eq. unfold wpe. by rewrite Eq. Qed.

Lemma found_after f x1 c fuel : f.1 = freep s -> In f ((base, 0) :: blocks) -> (forall b, In b x1 -> In b ((base, 0) :: blocks)) ->
  lseg (hdrs s) (f :: x1) c.1 -> (forall b, In b x1 -> b.1 <> freep s) -> Forall (fun b => b.2 < nu) x1 ->
  In c ((base, 0) :: blocks) -> nu <= c.2 ->
  wp (loop (length x1 + S fuel) (malloc_step nu) (f.1, hd_addr x1 c.1)) (got alloc nu) s.
Proof.
  intros Ef Hf Hx Hl Hne Hsm Hc Hbig. destruct (last_addr_links _ _ _ _ Hl) as (b & Hb & Eb & Hh).
  assert (In c blocks) as Hcb by (destruct Hc as [<-|Hc]; [cbn in Hbig; lia|done]).
  destruct (pred_node b c) as (k1 & k2 & E); [destruct Hb as [<-|Hb]; [done|by apply Hx]|done|done|].
  eapply wpe_run.
  { apply malloc_skip; [by destruct Hl|]. intros y Hy. rewrite List.Forall_forall in Hsm. split; [|split].
    - apply (valid_node s blocks alloc OK), Hx, Hy.
    - by apply Hsm.
    - by apply Hne. }
  rewrite <- Eb. destruct b as [pv pn], c as [a n]. cbn [fst snd] in *. cbn [loop]. apply wpe_bind.
  eapply wp_wpe; [apply (found_ok s blocks alloc nu k1 pv pn a n k2 OK E); lia|].
  intros x s' (r & -> & Hg). by apply wpe_ret.
Qed.

Lemma scan_big q fuel : start q -> (exists b, In b blocks /\ nu <= b.2) -> (units s < fuel)%nat ->
  wp (loop fuel (malloc_step nu) (freep s, q)) (got alloc nu) s.
Proof.
  intros (n & Hq) (b & Hb & Hbig) Hfuel. destruct cycle as (f & seg & Ef & Hf & Hmem & Hl & Hne & Hlen).
  assert (q = hd_addr seg f.1) as ->.
  { destruct Hl as [Hl _]. rewrite Ef in Hl |- *. rewrite Hl in Hq. by injection Hq. }
  assert (forall b, In b seg -> In b ((base, 0) :: blocks)) as Hseg by (intros; apply Hmem; by left).
  rewrite <- Ef. destruct (first_big seg) as [Hall|(x1 & c & x2 & -> & Hsm & Hc)].
  - assert (b = f) as ->.
    { destruct (proj1 (Hmem b) (or_intror Hb)) as [Hin| ->]; [|done]. rewrite List.Forall_forall in Hall. specialize (Hall b Hin). lia. }
    replace fuel with (length seg + S (fuel - length seg - 1))%nat by lia. by apply found_after.
  - rewrite length_app in Hlen. simpl in Hlen. rewrite hd_addr_app. cbn [hd_addr].
    replace fuel with (length x1 + S (fuel - length x1 - 1))%nat by lia.
    assert (forall y, In y x1 -> In y (x1 ++ c :: x2)) as Hsub by (intros y Hy; apply in_app_iff; by left).
    apply found_after; try done.
    + intros y Hy. by apply Hseg, Hsub.
    + change (f :: x1 ++ c :: x2) with ((f :: x1) ++ c :: x2) in Hl. by apply lseg_app in Hl as [Hl _].
    + intros y Hy. by apply Hne, Hsub.
    + apply Hseg, in_elt.
Qed.

(** Without a block large enough the search comes to [freep] and asks for
    more memory. *)
Lemma scan_none q : start q -> Forall (fun b => b.2 < nu) blocks ->
  exists k, (k <= units s)%nat /\ forall fuel,
    loop (k + S fuel) (malloc_step nu) (freep s, q) s =
    bind (let! p := morecore nu in
          if p =? 0 then ret (inr 0) else let! q := s_ptr p in ret (inl (p, q)))
      (fun r => match r with inl a' => loop fuel (malloc_step nu) a' | inr b => ret b end) s.
Proof.
  intros (n & Hq) Hall. destruct cycle as (f & seg & Ef & Hf & Hmem & Hl & Hne & Hlen).
  assert (q = hd_addr seg f.1) as ->.
  { destruct Hl as [Hl _]. rewrite Ef in Hl |- *. rewrite Hl in Hq. by injection Hq. }
  assert (forall b, In b ((base, 0) :: blocks) -> b.2 < nu) as Hsm.
  { intros b [<-|Hb]; [done|]. rewrite List.Forall_forall in Hall. by apply Hall. }
  exists (length seg). split; [done|]. intros fuel. rewrite <- Ef at 1.
  rewrite malloc_skip; [|by destruct Hl|].
  2:{ intros b Hb. assert (In b ((base, 0) :: blocks)) as Hb' by (apply Hmem; by left).
      split; [by apply (valid_node s blocks alloc OK)|]. split; [by apply Hsm|by apply Hne]. }
  cbn [loop]. unfold bind at 1. unfold malloc_step at 1. unfold bind at 1.
  destruct (node_hdr s blocks alloc OK f Hf) as (q' & Hh).
  rewrite (s_size_run s f.1 q' f.2); [|by apply (valid_node s blocks alloc OK)|done].
  specialize (Hsm f Hf). destruct (Z.leb_spec nu f.2); [lia|]. unfold bind at 1, gets. rewrite Ef, Z.eqb_refl. done.
Qed.
End scan.

Lemma start_ok s blocks alloc : heap_ok s blocks alloc ->
  valid s (freep s) = true /\ exists q n, hdrs s !! freep s = Some (q, n).
Proof.
  intros OK. destruct (freep_node s blocks alloc OK) as (f & Hf & <-). split; [by apply (valid_node s blocks alloc OK)|].
  destruct (node_hdr s blocks alloc OK f Hf) as (q & Hq). by exists q, f.2.
Qed.

(** The whole loop of malloc. *)
Lemma malloc_loop s blocks alloc nu q fuel : heap_ok s blocks alloc -> 0 < nu -> 8 * nu < 2^31 -> start s q ->
  (2 * units s + Z.to_nat nu + 4100 <= fuel)%nat ->
  wp (loop fuel (malloc_step nu) (freep s, q)) (fun r s' =>
    (r = 0 /\ s' = s /\ Forall (fun b => b.2 < nu) blocks /\ refused (psize s) nu) \/ got alloc nu r s') s.
Proof.
  intros OK Hnu H31 Hq Hfuel. destruct (first_big nu blocks) as [Hall|(x1 & c & x2 & E & _ & Hc)].
  - destruct (scan_none s blocks alloc OK nu Hnu q Hq Hall) as (k & Hk & Erun).
    replace fuel with (k + S (fuel - k - 1))%nat by lia. eapply wpe_run; [apply Erun|].
    apply wpe_bind, wpe_bind. eapply wp_wpe; [by apply (morecore_ok s blocks alloc)|].
    intros r s' [(-> & -> & Href)|(Hr & -> & blocks' & OK' & Hun & Hbig)]; [wp_steps; by left|].
    destruct (Z.eqb_spec (freep s') 0); [done|]. destruct (start_ok s' blocks' alloc OK') as (Hv & q' & n' & Hq').
    apply wpe_bind. eapply wpe_ptr; [done|exact Hq'|]. wp_steps.
    eapply wp_wpe; [apply (scan_big s' blocks' alloc OK' nu Hnu); [by exists n'|done|lia]|]. intros r s'' Hg. by right.
  - eapply wp_mono; [apply (scan_big s blocks alloc OK nu Hnu); [done| |lia]|].
    + exists c. split; [rewrite E; apply in_elt|done].
    + intros r s' Hg. by right.
Qed.

Lemma nunits_ok nbytes : 0 <= nbytes < 2^31 - 15 ->
  0 < nunits_of nbytes /\ 8 * nunits_of nbytes < 2^31 /\ nbytes + sizeof_Header <= sizeof_Header * nunits_of nbytes.
Proof.
  intros Hn. unfold nunits_of, sizeof_Header. rewrite u32_small by lia. Z.div_mod_to_equations. lia.
Qed.

(** The process before the first call of malloc. *)
Definition fresh_heap (s : heap) : Prop :=
  freep s = 0 /\ 0 < base < heap0 /\ psize s = sizeof_Header * heap0 /\ 0 <= psize s < XKERNBASE.

Lemma init_ok s : fresh_heap s -> heap_ok (mkHeap (<[base := (base, 0)]> (hdrs s)) base (psize s)) [] ∅.
Proof.
  intros (Hf & Hb & Hp & Hr). unfold sizeof_Header in Hp.
  assert (psize s / 8 = heap0) as Hd by (rewrite Hp, Z.mul_comm, Z.div_mul; lia).
  constructor; cbn [hdrs freep psize]; try done.
  - unfold sizeof_Header. split; [rewrite Hp, Z.mul_comm; apply Z.mod_mul; lia|]. lia.
  - cbn. by rewrite lookup_insert_eq.
  - repeat constructor.
  - by left.
  - intros u. unfold sizeof_Header. rewrite Hd. split; [lia|]. intros [(a & n & [] & _)|(a & n & Ha & _)]. done.
Qed.

(** malloc from a state of the invariant or from the fresh one. *)
Lemma malloc_ok s blocks alloc nbytes : 0 <= nbytes < 2^31 - 15 ->
  heap_ok s blocks alloc \/ (fresh_heap s /\ blocks = [] /\ alloc = ∅) ->
  wp (malloc nbytes) (fun r s' =>
    (r = 0 /\ heap_ok s' blocks alloc /\ Forall (fun b => b.2 < nunits_of nbytes) blocks /\ refused (psize s') (nunits_of nbytes)) \/
    got alloc (nunits_of nbytes) r s') s.
Proof.
  intros Hn Hs. destruct (nunits_ok nbytes Hn) as (Hnu & H31 & _).
  assert (forall s, heap_ok s blocks alloc -> wp (let! q := s_ptr (freep s) in
      let! n := gets units in
      loop (2 * n + Z.to_nat (nunits_of nbytes) + 4100)%nat (malloc_step (nunits_of nbytes)) (freep s, q))
    (fun r s' => (r = 0 /\ heap_ok s' blocks alloc /\ Forall (fun b => b.2 < nunits_of nbytes) blocks /\ refused (psize s') (nunits_of nbytes)) \/
      got alloc (nunits_of nbytes) r s') s) as Hrun.
  { clear s Hs. intros s OK. destruct (start_ok s blocks alloc OK) as (Hv & q & n & Hq). unfold wp.
    apply wpe_bind. eapply wpe_ptr; [done|exact Hq|]. apply wpe_bind, wpe_gets.
    eapply wp_wpe; [apply (malloc_loop s blocks alloc); [done|done|done|by exists n|lia]|].
    intros r s' [(-> & -> & Hall & Href)|Hg]; [by left|by right]. }
  unfold wp, malloc. apply wpe_bind, wpe_gets. apply wpe_bind. destruct Hs as [OK|(Hf & -> & ->)].
  - destruct (start_ok s blocks alloc OK) as (Hv & q & n & Hq). destruct (freep_node s blocks alloc OK) as (f & Hin & Ef).
    pose proof (ok_base _ _ _ OK). destruct (Z.eqb_spec (freep s) 0) as [E0|_].
    { exfalso. destruct Hin as [<-|Hin]; [cbn in Ef; lia|]. destruct f as [a k]. pose proof (block_in_heap s blocks alloc OK a k Hin).
      cbn in Ef. lia. }
    apply wpe_ret. by apply Hrun.
  - pose proof Hf as (-> & _). cbn [Z.eqb]. unfold put_hdr, set_freep. wp_steps. cbn [freep hdrs psize].
    apply wpe_bind_inv, (Hrun _ (init_ok s Hf)).
Qed.

(** With 2 GB and more the argument of sbrk is negative and the heap does not
    grow. *)
Lemma sbrk_negative s n : 0 <= psize s -> n < 0 -> psize s + n + 2^32 < 2^32 -> psize s <= psize s + n + 2^32 -> sbrk n s = Ok (psize s) s.
Proof.
  intros Hp Hn Hlt Hle. unfold sbrk, bind, gets, ret. destruct (Z.ltb_spec 0 n); [lia|]. destruct (Z.ltb_spec n 0); [|lia].
  assert (u32 (psize s + n) = psize s + n + 2^32) as -> by (unfold u32; symmetry; apply (Z.mod_unique_pos _ _ (-1)); lia).
  by destruct (Z.leb_spec (psize s) (psize s + n + 2^32)); [|lia].
Qed.

Lemma malloc_huge s nbytes : fresh_heap s -> 2^31 - 15 <= nbytes < 2^32 - psize s - 16 -> malloc nbytes s = Undef.
Proof.
  intros (Hf & Hb & Hp & Hr) Hn. unfold XKERNBASE, sizeof_Header in *.
  assert (2^28 <= nunits_of nbytes /\ 8 * nunits_of nbytes < 2^32 - psize s) as [H1 H2].
  { unfold nunits_of, sizeof_Header. rewrite u32_small by lia. Z.to_euclidean_division_equations; lia. }
  unfold malloc. set (nu := nunits_of nbytes) in *. unfold bind at 1, gets at 1. rewrite Hf, Z.eqb_refl.
  unfold bind, put_hdr, set_freep, modify, ret, gets. cbn [hdrs freep psize]. set (s1 := mkHeap _ base (psize s)).
  assert (valid s1 base = true) as Hv by (unfold valid; by rewrite Z.eqb_refl).
  rewrite (s_ptr_run s1 base base 0) by (done || apply lookup_insert_eq).
  replace (2 * units s1 + Z.to_nat nu + 4100)%nat with (S (2 * units s1 + Z.to_nat nu + 4099)) by lia. cbn [loop].
  unfold bind at 1, malloc_step. unfold bind at 1. rewrite (s_size_run s1 base base 0) by (done || apply lookup_insert_eq).
  destruct (Z.leb_spec nu 0); [lia|]. unfold bind at 1, gets at 1. cbn [freep s1]. rewrite Z.eqb_refl.
  unfold bind at 1, morecore. unfold bind at 1. destruct (Z.ltb_spec nu 4096); [lia|].
  assert (s32 (nu * sizeof_Header) = nu * 8 - 2^32) as ->.
  { unfold s32, sizeof_Header. rewrite u32_small by lia. by destruct (Z.ltb_spec (nu * 8) (2^31)); [lia|]. }
  rewrite sbrk_negative by (cbn [psize s1]; lia). cbn [psize s1]. destruct (Z.eqb_spec (psize s) (-1)); [lia|].
  unfold sizeof_Header. rewrite Hp, (Z.mul_comm 8), Z.mod_mul, Z.div_mul by lia. cbn [Z.eqb negb].
  unfold bind, set_size, get_hdr, gets. unfold bind. cbn [id]. assert (valid s1 heap0 = false) as ->; [|done].
  unfold valid. cbn [psize s1]. rewrite Hp. unfold sizeof_Header. rewrite (Z.mul_comm 8), Z.div_mul by lia.
  destruct (Z.eqb_spec heap0 base); [lia|]. rewrite Z.leb_refl, Z.ltb_irrefl. done.
Qed.
End umalloc.
