(* ===== verification/UserThms.v ===== *)
(** * Theorems about the xv6 user programs: grep and the allocator *)
From S2P Require Import Prelude Grep Umalloc.

(** C26: grep prints exactly the lines of a file that match, in order, for every
    file with lines of at most 1022 bytes and no zero byte, read in pieces of
    the size of the rest of the buffer; a last line without a newline is not
    looked at.  The matcher (match, matchhere and matchstar) accepts a line
    exactly when the line is in the language of the pattern: the pattern of
    characters, dots and stars matches a part of the line, a prefix of it if
    the pattern begins with a caret, a suffix if it ends with a dollar sign. *)
Theorem grep_spec pattern ls tail :
  Forall line_ok ls -> Forall (fun l => (length l <= 1022)%nat) ls -> line_ok tail -> (length tail <= 1022)%nat ->
  grep pattern [concat (nl <$> ls) ++ tail] = Some (concat (nl <$> filter (fun l => match_ pattern l = true) ls)) /\
  forall line, match_ pattern line = true <-> matches_text pattern line.
Proof. intros H1 H2 H3 H4. split; [by apply grep_file|]. intros line. apply match_spec. Qed.

(** Pattern ^a.*b$ on the lines "ab", "ba" and "axxb", and the rest "ab". *)
Lemma grep_spec_witness :
  grep [94; 97; 46; 42; 98; 36] [[97; 98; 10; 98; 97; 10; 97; 120; 120; 98; 10; 97; 98]] = Some [97; 98; 10; 97; 120; 120; 98; 10].
Proof.
  destruct (grep_spec [94; 97; 46; 42; 98; 36] [[97; 98]; [98; 97]; [97; 120; 120; 98]] [97; 98]) as [H _];
    [repeat (constructor; try done)|repeat (apply Forall_cons_2; [cbn; lia|]); apply Forall_nil_2|repeat (constructor; try done)|cbn; lia|].
  transitivity (Some (concat (nl <$> filter (fun l => match_ [94; 97; 46; 42; 98; 36] l = true) [[97; 98]; [98; 97]; [97; 120; 120; 98]])));
    [exact H|vm_compute; reflexivity].
Defined.

(** Grep loses lines that arrive in two pieces, as they do from a pipe: a
    line that matches is printed when it arrives at once, and nothing is
    printed when the first read returns a part of it, because the code empties
    the buffer when the buffer has no newline. *)
Theorem grep_splits_lines : exists pattern line a b, line = a ++ b /\ match_ pattern line = true /\
  grep pattern [nl line] = Some (nl line) /\ grep pattern [a; b ++ [10]] = Some [].
Proof. exists [97], [97; 98; 99], [97; 98], [99]. vm_compute. done. Qed.


(** A heap with the static header at unit 1 and no memory yet. *)
Definition heap_start : heap := mkHeap ∅ 0 16.
Definition never (old new : Z) : bool := false.
Definition heap_after (m : U Z) : heap := match m heap_start with Ok _ s => s | _ => heap_start end.


(** free of a block in use ends, returns its units to the free list, which
    stays sorted and merged, and keeps every other block and its header. *)
Theorem free_spec base heap0 s blocks alloc bp m :
  heap_ok base heap0 s blocks alloc -> alloc !! bp = Some m ->
  exists s' blocks', free base heap0 (bp + 1) s = Ok tt s' /\ heap_ok base heap0 s' blocks' (delete bp alloc) /\
    psize s' = psize s /\ forall u, covers blocks' u <-> covers blocks u \/ bp <= u < bp + m.
Proof.
  intros OK Ha. destruct (wp_ends _ _ _ (free_ok base heap0 never s blocks alloc bp m OK Ha)) as ([] & s' & Hrun & blocks' & H1 & H2 & H3).
  by exists s', blocks'.
Qed.

(** The state after malloc(100): 14 units at the end of the 4096 that were added. *)
Lemma free_spec_witness : exists r s1 s' blocks', malloc 1 2 never 100 heap_start = Ok r s1 /\
  free 1 2 r s1 = Ok tt s' /\ heap_ok 1 2 s' blocks' ∅.
Proof.
  assert (fresh_heap 1 2 heap_start) as Hf by done. assert (0 <= 100 < 2^31 - 15) as Hn by lia.
  destruct (wp_ends _ _ _ (malloc_ok 1 2 never heap_start [] ∅ 100 Hn (or_intror (conj Hf (conj eq_refl eq_refl))))) as (r & s1 & Hrun & H).
  exists r, s1.
  assert (r <> 0) as Hr by (vm_compute in Hrun; congruence).
  destruct H as [[-> _] | (a & blocks & -> & _ & OK)]; [done|].
  destruct (free_spec 1 2 s1 blocks _ a (nunits_of 100) OK (lookup_insert_eq _ _ _)) as (s' & blocks' & Hfree & OK' & _).
  exists s', blocks'. split; [done|]. split; [done|]. by rewrite delete_insert_id in OK'.
Defined.

(** The size computation of malloc overflows.  The largest seven arguments
    ask for one unit, so that malloc does for them what it does for zero bytes,
    and returns a block with no room behind its header; from 2 GB on, the
    argument of sbrk is negative, sbrk succeeds without growing the process and
    the write of the new header is outside its memory. *)
Theorem malloc_wraps base heap0 oom s nbytes :
  (2^32 - 7 <= nbytes < 2^32 -> malloc base heap0 oom nbytes = malloc base heap0 oom 0 /\ nunits_of nbytes = 1) /\
  (fresh_heap base heap0 s -> 2^31 - 15 <= nbytes < 2^32 - psize s - 16 -> malloc base heap0 oom nbytes s = Undef).
Proof.
  split.
  - intros Hn. assert (nunits_of nbytes = 1) as E.
    { unfold nunits_of, u32, sizeof_Header. Z.to_euclidean_division_equations; lia. }
    split; [|done]. unfold malloc. by rewrite E.
  - intros (Hf & Hb & Hp & Hr) Hn. by apply malloc_huge.
Qed.

Lemma malloc_wraps_witness :
  malloc 1 2 never (2^32 - 1) = malloc 1 2 never 0 /\ nunits_of (2^32 - 1) = 1 /\
  (exists r s', malloc 1 2 never 0 heap_start = Ok r s' /\ r <> 0) /\ malloc 1 2 never (2^31) heap_start = Undef.
Proof.
  assert (2^32 - 7 <= 2^32 - 1 < 2^32) as H1 by lia. destruct (proj1 (malloc_wraps 1 2 never heap_start (2^32 - 1)) H1) as [E1 E2].
  split; [exact E1|]. split; [exact E2|]. split.
  - destruct (malloc 1 2 never 0 heap_start) as [r s'| | | |] eqn:E; vm_compute in E; try discriminate E.
    exists r, s'. split; [reflexivity|]. congruence.
  - apply (proj2 (malloc_wraps 1 2 never heap_start (2^31))); [done|]. cbn [psize heap_start]. lia.
Defined.
