(* ===== verification/Xv6Pipe.v ===== *)
(** * expansion/pipe.c with sleep and wakeup of proc.c: one pipe, any number of processes

    Every process makes a list of calls on one pipe.  A step of a process is
    one test, assignment or lock operation of the code, with the place in the
    code as its program counter, so that the reachable states are those of all
    interleavings on any number of CPUs.  [plock] is p->lock and [ptlock] is
    ptable.lock, with the process that holds it.  A process that is not
    sleeping is RUNNABLE; the scheduler may run it at any time.  [wlog] and
    [rlog] record the bytes ever put into the pipe and taken out of it, with
    the process that did so; no step depends on them.  The model comes first,
    then who holds which lock and the queue in the ring buffer, then that no
    wakeup is lost. *)
From S2P Require Import Prelude.

Definition PIPESIZE : Z := 512.

(** The two addresses processes sleep on: &p->nread and &p->nwrite. *)
Inductive chan := NREAD | NWRITE.
Inductive pstate := RUNNABLE | SLEEPING (c : chan).

#[export] Instance chan_eq_dec : EqDecision chan.
Proof. solve_decision. Defined.
#[export] Instance pstate_eq_dec : EqDecision pstate.
Proof. solve_decision. Defined.

(** Places in wakeup, in sleep, and in the three operations. *)
Inductive wk := WkAcquire | WkWakeup1 | WkRelease.
Inductive sl := SlAcquire | SlRelease | SlSet | SlSched | SlAsleep | SlTidy | SlReacquire.
Inductive wpc := WAcquire | WFor | WFull | WWake (w : wk) | WSleep (x : sl) | WEnd (w : wk) | WReturn (r : Z).
Inductive rpc := RAcquire | REmpty | RSleep (x : sl) | RFor | RWake (w : wk) | RReturn (r : Z).
Inductive cpc := CAcquire | CWake (w : wk) | CRelease.

(** A call in progress, with its arguments and local variables. *)
Inductive pc :=
| Idle
| Write (addr : list Z) (i : nat) (l : wpc)
| Read (n : nat) (buf : list Z) (l : rpc)
| Close (writable : bool) (l : cpc)
| Kill (u : nat) (l : wk).

Inductive call := pipewrite (addr : list Z) | piperead (n : nat) | pipeclose (writable : bool) | kill (u : nat).

(** What a call returned, with the bytes it put into the pipe or took out. *)
Inductive result := Wrote (r : Z) (bytes : list Z) | Got (r : Z) (bytes : list Z) | Closed | Killed (r : Z).

Record proc := mkProc { at_ : pc; state : pstate; killed : bool; calls : list call; results : list result }.

Record pipe := mkPipe {
  data : list Z; nread : Z; nwrite : Z; readopen : bool; writeopen : bool;
  plock : option nat; ptlock : option nat; procs : list proc; panicked : bool;
  wlog : list (nat * Z); rlog : list (nat * Z) }.

(** ** Updates *)

Definition set_plock v p := mkPipe (data p) (nread p) (nwrite p) (readopen p) (writeopen p) v (ptlock p) (procs p) (panicked p) (wlog p) (rlog p).
Definition set_ptlock v p := mkPipe (data p) (nread p) (nwrite p) (readopen p) (writeopen p) (plock p) v (procs p) (panicked p) (wlog p) (rlog p).
Definition set_procs v p := mkPipe (data p) (nread p) (nwrite p) (readopen p) (writeopen p) (plock p) (ptlock p) v (panicked p) (wlog p) (rlog p).
Definition set_panicked p := mkPipe (data p) (nread p) (nwrite p) (readopen p) (writeopen p) (plock p) (ptlock p) (procs p) true (wlog p) (rlog p).
Definition set_open r w p := mkPipe (data p) (nread p) (nwrite p) r w (plock p) (ptlock p) (procs p) (panicked p) (wlog p) (rlog p).

(** [p->data[p->nwrite++ % PIPESIZE] = c;] *)
Definition put_byte (t : nat) (c : Z) p :=
  mkPipe (<[Z.to_nat (nwrite p `mod` PIPESIZE) := c]> (data p)) (nread p) (u32 (nwrite p + 1)) (readopen p) (writeopen p)
    (plock p) (ptlock p) (procs p) (panicked p) (wlog p ++ [(t, c)]) (rlog p).

(** [p->data[p->nread++ % PIPESIZE]] *)
Definition next_byte p : Z := default 0 (data p !! Z.to_nat (nread p `mod` PIPESIZE)).
Definition take_byte (t : nat) p :=
  mkPipe (data p) (u32 (nread p + 1)) (nwrite p) (readopen p) (writeopen p)
    (plock p) (ptlock p) (procs p) (panicked p) (wlog p) (rlog p ++ [(t, next_byte p)]).

Definition set_at (l : pc) (q : proc) : proc := mkProc l (state q) (killed q) (calls q) (results q).
Definition set_state (x : pstate) (q : proc) : proc := mkProc (at_ q) x (killed q) (calls q) (results q).
Definition upd_proc (t : nat) (f : proc -> proc) p := set_procs (alter f t (procs p)) p.
Definition goto (t : nat) (l : pc) p := upd_proc t (set_at l) p.

(** ** Locks (spinlock.c)

    acquire waits for a lock that another process holds and panics on its own;
    release panics unless the caller holds the lock. *)

Definition acquire (get : pipe -> option nat) (set : option nat -> pipe -> pipe) (t : nat) (p : pipe) : option pipe :=
  match get p with
  | None => Some (set (Some t) p)
  | Some u => if decide (u = t) then Some (set_panicked p) else None
  end.

Definition release (get : pipe -> option nat) (set : option nat -> pipe -> pipe) (t : nat) (p : pipe) : pipe :=
  if decide (get p = Some t) then set None p else set_panicked p.

(** ** wakeup and sleep (proc.c) *)

Definition wakeup1 (c : chan) (p : pipe) : pipe :=
  set_procs ((fun q => if decide (state q = SLEEPING c) then set_state RUNNABLE q else q) <$> procs p) p.

(** A step inside wakeup: the new state and place, None when it returns. *)
Definition wakeup (c : chan) (t : nat) (w : wk) (p : pipe) : option (pipe * option wk) :=
  match w with
  | WkAcquire => p ← acquire ptlock set_ptlock t p; Some (p, Some WkWakeup1)
  | WkWakeup1 => Some (wakeup1 c p, Some WkRelease)
  | WkRelease => Some (release ptlock set_ptlock t p, None)
  end.

(** A step inside sleep(c, &p->lock).  In [SlSched] the process has entered the
    scheduler, which releases ptable.lock; in [SlAsleep] it waits until it is
    RUNNABLE and the scheduler, holding ptable.lock, switches to it. *)
Definition sleep (c : chan) (t : nat) (x : sl) (p : pipe) : option (pipe * option sl) :=
  match x with
  | SlAcquire => p ← acquire ptlock set_ptlock t p; Some (p, Some SlRelease)
  | SlRelease => Some (release plock set_plock t p, Some SlSet)
  | SlSet => Some (upd_proc t (set_state (SLEEPING c)) p, Some SlSched)
  | SlSched => Some (release ptlock set_ptlock t p, Some SlAsleep)
  | SlAsleep =>
      q ← procs p !! t;
      if decide (state q = RUNNABLE) then p ← acquire ptlock set_ptlock t p; Some (p, Some SlTidy) else None
  | SlTidy => Some (release ptlock set_ptlock t p, Some SlReacquire)
  | SlReacquire => p ← acquire plock set_plock t p; Some (p, None)
  end.

(** ** The operations on the pipe *)

Definition return_ (t : nat) (r : result) (p : pipe) : pipe :=
  upd_proc t (fun q => mkProc Idle (state q) (killed q) (calls q) (results q ++ [r])) p.

Definition full (p : pipe) : bool := nwrite p =? u32 (nread p + PIPESIZE).
Definition empty (p : pipe) : bool := nread p =? nwrite p.

Definition pipewrite_step (t : nat) (q : proc) (addr : list Z) (i : nat) (l : wpc) (p : pipe) : option pipe :=
  let at_w i l := goto t (Write addr i l) in
  match l with
  | WAcquire => p ← acquire plock set_plock t p; Some (at_w i WFor p)
  | WFor => Some (at_w i (if (i <? length addr)%nat then WFull else WEnd WkAcquire) p)
  | WFull =>
      if full p then
        if negb (readopen p) || killed q then Some (at_w i (WReturn (-1)) p)
        else Some (at_w i (WWake WkAcquire) p)
      else Some (at_w (S i) WFor (put_byte t (default 0 (addr !! i)) p))
  | WWake w =>
      r ← wakeup NREAD t w p;
      Some (at_w i (match r.2 with Some w => WWake w | None => WSleep SlAcquire end) r.1)
  | WSleep x =>
      r ← sleep NWRITE t x p;
      Some (at_w i (match r.2 with Some x => WSleep x | None => WFull end) r.1)
  | WEnd w =>
      r ← wakeup NREAD t w p;
      Some (at_w i (match r.2 with Some w => WEnd w | None => WReturn (Z.of_nat (length addr)) end) r.1)
  | WReturn r => Some (return_ t (Wrote r (take i addr)) (release plock set_plock t p))
  end.

Definition piperead_step (t : nat) (q : proc) (n : nat) (buf : list Z) (l : rpc) (p : pipe) : option pipe :=
  let at_r buf l := goto t (Read n buf l) in
  match l with
  | RAcquire => p ← acquire plock set_plock t p; Some (at_r buf REmpty p)
  | REmpty =>
      if empty p && writeopen p then
        if killed q then Some (at_r buf (RReturn (-1)) p) else Some (at_r buf (RSleep SlAcquire) p)
      else Some (at_r buf RFor p)
  | RSleep x =>
      r ← sleep NREAD t x p;
      Some (at_r buf (match r.2 with Some x => RSleep x | None => REmpty end) r.1)
  | RFor =>
      if (length buf <? n)%nat && negb (empty p) then Some (at_r (buf ++ [next_byte p]) RFor (take_byte t p))
      else Some (at_r buf (RWake WkAcquire) p)
  | RWake w =>
      r ← wakeup NWRITE t w p;
      Some (at_r buf (match r.2 with Some w => RWake w | None => RReturn (Z.of_nat (length buf)) end) r.1)
  | RReturn r => Some (return_ t (Got r buf) (release plock set_plock t p))
  end.

Definition pipeclose_step (t : nat) (writable : bool) (l : cpc) (p : pipe) : option pipe :=
  let at_c l := goto t (Close writable l) in
  match l with
  | CAcquire =>
      p ← acquire plock set_plock t p;
      Some (at_c (CWake WkAcquire) (if writable then set_open (readopen p) false p else set_open false (writeopen p) p))
  | CWake w =>
      r ← wakeup (if writable then NREAD else NWRITE) t w p;
      Some (at_c (match r.2 with Some w => CWake w | None => CRelease end) r.1)
  | CRelease => Some (return_ t Closed (release plock set_plock t p))
  end.

(** kill (proc.c): the flag, and the end of the victim's sleep. *)
Definition kill_step (t u : nat) (l : wk) (p : pipe) : option pipe :=
  match l with
  | WkAcquire => p ← acquire ptlock set_ptlock t p; Some (goto t (Kill u WkWakeup1) p)
  | WkWakeup1 =>
      Some (goto t (Kill u WkRelease)
        (upd_proc u (fun q => mkProc (at_ q) RUNNABLE true (calls q) (results q)) p))
  | WkRelease =>
      Some (return_ t (Killed (if (u <? length (procs p))%nat then 0 else -1)) (release ptlock set_ptlock t p))
  end.

(** Reading or writing is not over for the process. *)
Definition reading (q : proc) : bool :=
  match at_ q with Read _ _ _ => true | _ => false end ||
  existsb (fun c => match c with piperead _ => true | _ => false end) (calls q).
Definition writing (q : proc) : bool :=
  match at_ q with Write _ _ _ => true | _ => false end ||
  existsb (fun c => match c with pipewrite _ => true | _ => false end) (calls q).

(** fileclose calls pipeclose when the last reference to that end goes. *)
Definition may_close (writable : bool) (p : pipe) : bool :=
  forallb (fun q => negb (if writable then writing q else reading q)) (procs p).

Definition start_call (t : nat) (q : proc) (p : pipe) : option pipe :=
  match calls q with
  | [] => None
  | c :: cs =>
      let begin l := upd_proc t (fun q => mkProc l (state q) (killed q) cs (results q)) p in
      match c with
      | pipewrite addr => Some (begin (Write addr 0 WAcquire))
      | piperead n => Some (begin (Read n [] RAcquire))
      | pipeclose writable => if may_close writable p then Some (begin (Close writable CAcquire)) else None
      | kill u => Some (begin (Kill u WkAcquire))
      end
  end.

(** The next step of process [t]; None if it has to wait or is done. *)
Definition pipe_step (t : nat) (p : pipe) : option pipe :=
  q ← procs p !! t;
  match at_ q with
  | Idle => start_call t q p
  | Write addr i l => pipewrite_step t q addr i l p
  | Read n buf l => piperead_step t q n buf l p
  | Close writable l => pipeclose_step t writable l p
  | Kill u l => kill_step t u l p
  end.

Definition pstep (p p' : pipe) : Prop := exists t, pipe_step t p = Some p'.

(** The pipe as pipealloc leaves it, and processes about to make their calls. *)
Definition pipe0 (junk : list Z) (cs : list (list call)) : pipe :=
  mkPipe junk 0 0 true true None None ((fun c => mkProc Idle RUNNABLE false c []) <$> cs) false [] [].

(** ** Who holds the locks *)

Definition wk_pt (w : wk) : bool := match w with WkAcquire => false | _ => true end.
Definition sl_pt (x : sl) : bool := match x with SlRelease | SlSet | SlSched | SlTidy => true | _ => false end.
Definition sl_p (x : sl) : bool := match x with SlAcquire | SlRelease => true | _ => false end.

(** The process holds ptable.lock, the process holds p->lock. *)
Definition holds_pt (l : pc) : bool :=
  match l with
  | Idle => false
  | Write _ _ (WWake w | WEnd w) | Read _ _ (RWake w) | Close _ (CWake w) | Kill _ w => wk_pt w
  | Write _ _ (WSleep x) | Read _ _ (RSleep x) => sl_pt x
  | _ => false
  end.
Definition holds_p (l : pc) : bool :=
  match l with
  | Idle | Kill _ _ | Write _ _ WAcquire | Read _ _ RAcquire | Close _ CAcquire => false
  | Write _ _ (WSleep x) | Read _ _ (RSleep x) => sl_p x
  | _ => true
  end.

(** A lock is held by the process whose place says so. *)
Definition lock_ok (holds : pc -> bool) (lk : option nat) (ls : list pc) : Prop :=
  forall t, lk = Some t <-> exists l, ls !! t = Some l /\ holds l = true.

(** The places of all processes. *)
Definition places (p : pipe) : list pc := at_ <$> procs p.

Definition locks (p : pipe) : Prop :=
  lock_ok holds_p (plock p) (places p) /\ lock_ok holds_pt (ptlock p) (places p).

Lemma lock_upd holds lk ls t l l' :
  lock_ok holds lk ls -> ls !! t = Some l -> (holds l' = true -> holds l = false -> lk = None) ->
  lock_ok holds (if holds l' then Some t else if holds l then None else lk) (<[t := l']> ls).
Proof.
  intros H Ht Hfree u. assert (lk = Some t <-> holds l = true) as Hl.
  { rewrite (H t), Ht. split; [|eauto]. by intros (? & [= ->] & ?). }
  destruct (decide (u = t)) as [-> | Hu].
  - rewrite list_lookup_insert_eq by (by apply lookup_lt_Some in Ht).
    destruct (holds l') eqn:E; [split; eauto|]. destruct (holds l) eqn:El; [split; [done|]|rewrite Hl; split; [done|]];
      intros (? & [= <-] & ?); congruence.
  - rewrite list_lookup_insert_ne by done. rewrite <- (H u).
    destruct (holds l'), (holds l); try done; [|rewrite Hfree by done|]; intuition congruence.
Qed.

(** ** The bytes in the pipe *)

(** What a process has written and read so far. *)
Definition written (q : proc) : list Z :=
  concat ((fun r => match r with Wrote _ b => b | _ => [] end) <$> results q) ++
  match at_ q with Write addr i _ => take i addr | _ => [] end.
Definition received (q : proc) : list Z :=
  concat ((fun r => match r with Got _ b => b | _ => [] end) <$> results q) ++
  match at_ q with Read _ buf _ => buf | _ => [] end.

Definition of_proc (t : nat) (log : list (nat * Z)) : list Z := (filter (fun e => e.1 = t) log).*2.
#[global] Arguments of_proc : simpl never.

(** The buffer holds the bytes written and not yet read, from nread on. *)
Definition ring_ok (p : pipe) (queue : list Z) : Prop :=
  (wlog p).*2 = (rlog p).*2 ++ queue /\ (length queue <= 512)%nat /\ length (data p) = 512%nat /\
  nread p = u32 (Z.of_nat (length (rlog p))) /\ nwrite p = u32 (Z.of_nat (length (wlog p))) /\
  (forall j c, queue !! j = Some c -> data p !! ((length (rlog p) + j) `mod` 512)%nat = Some c).

(** The logs agree with what the processes did; the index of a write that is in
    its loop body is in range. *)
Definition logs_ok (p : pipe) : Prop :=
  forall t q, procs p !! t = Some q ->
    written q = of_proc t (wlog p) /\ received q = of_proc t (rlog p) /\
    match at_ q with
    | Write addr i WFull => (i < length addr)%nat
    | Write addr i (WWake _ | WSleep _) => (i < length addr)%nat
    | _ => True
    end.

(** ** Steps in terms of the locks *)

Lemma acquire_inv get set t p p' :
  get p <> Some t -> acquire get set t p = Some p' -> get p = None /\ p' = set (Some t) p.
Proof. unfold acquire. intros Hn. destruct (get p); [case_decide; [congruence|done]|]. by intros [= <-]. Qed.

Lemma release_own get set t p : get p = Some t -> release get set t p = set None p.
Proof. unfold release. intros H. by rewrite decide_True. Qed.

Lemma places_upd t f l p : (forall q, at_ (f q) = l) -> places (upd_proc t f p) = <[t := l]> (places p).
Proof.
  intros H. apply list_eq. intros u. unfold places, upd_proc. cbn. rewrite list_lookup_fmap. destruct (decide (u = t)) as [-> | Hu].
  - rewrite list_lookup_alter_eq. destruct (procs p !! t) eqn:E; cbn.
    + rewrite list_lookup_insert_eq by (rewrite length_fmap; by apply lookup_lt_Some in E). by rewrite H.
    + rewrite list_insert_ge by (rewrite length_fmap; by apply lookup_ge_None in E). by rewrite list_lookup_fmap, E.
  - rewrite list_lookup_alter_ne, list_lookup_insert_ne by done. by rewrite list_lookup_fmap.
Qed.

Lemma places_same t f p : (forall q, at_ (f q) = at_ q) -> places (upd_proc t f p) = places p.
Proof.
  intros H. apply list_eq. intros u. unfold places, upd_proc. cbn. rewrite !list_lookup_fmap. destruct (decide (u = t)) as [-> | Hu].
  - rewrite list_lookup_alter_eq. destruct (procs p !! t); cbn; by rewrite ?H.
  - by rewrite list_lookup_alter_ne by done.
Qed.

Lemma places_wakeup1 c p : places (wakeup1 c p) = places p.
Proof. unfold places, wakeup1. cbn. rewrite <- list_fmap_compose. apply list_fmap_ext. intros _ q _. cbn. by case_decide. Qed.

Lemma locks_p p t q : locks p -> procs p !! t = Some q -> if holds_p (at_ q) then plock p = Some t else plock p <> Some t.
Proof.
  intros [H _] Hq. specialize (H t). assert (places p !! t = Some (at_ q)) as Hl by (unfold places; by rewrite list_lookup_fmap, Hq).
  rewrite Hl in H. destruct (holds_p (at_ q)) eqn:E; [apply H; eauto|]. intros Hp. apply H in Hp as (? & [= <-] & ?). congruence.
Qed.
Lemma locks_pt p t q : locks p -> procs p !! t = Some q -> if holds_pt (at_ q) then ptlock p = Some t else ptlock p <> Some t.
Proof.
  intros [_ H] Hq. specialize (H t). assert (places p !! t = Some (at_ q)) as Hl by (unfold places; by rewrite list_lookup_fmap, Hq).
  rewrite Hl in H. destruct (holds_pt (at_ q)) eqn:E; [apply H; eauto|]. intros Hp. apply H in Hp as (? & [= <-] & ?). congruence.
Qed.

(** All the steps process [t] can make from a state where the locks are held as
    its place says, each with its resulting state. *)
Ltac resolve_locks H :=
  repeat match type of H with
  | context [acquire ?g ?s ?t ?p] =>
      let E := fresh "Eacq" in let x := fresh "pa" in
      destruct (acquire g s t p) as [x|] eqn:E; [|discriminate H]; apply acquire_inv in E as [E ->]; [|assumption]
  | context [release ?g ?s ?t ?p] => rewrite (release_own g s t p) in H by assumption
  | context [match ?b with _ => _ end] => destruct b eqn:?; try discriminate H
  end; cbn [mbind option_bind fst snd] in H.
Ltac step_cases HL Hq H :=
  let l := fresh "l" in let cs := fresh "cs" in let Hp := fresh "Hp" in let Hpt := fresh "Hpt" in
  pose proof (locks_p _ _ _ HL Hq) as Hp; pose proof (locks_pt _ _ _ HL Hq) as Hpt;
  unfold pipe_step in H; rewrite Hq in H; cbn [mbind option_bind] in H;
  match type of Hq with _ = Some ?q => destruct q as [l st kl cs rs] end; cbn [at_] in *;
  destruct l as [|addr i [ | | |[]|[]|[]|r]|n buf [ | |[]| |[]|r]|cw [ |[]| ]|victim []];
  cbn in Hp, Hpt;
  unfold start_call, pipewrite_step, piperead_step, pipeclose_step, kill_step, wakeup, sleep in H;
  try rewrite Hq in H; cbn [mbind option_bind fst snd calls state killed] in H;
  try (destruct cs as [|[addr|n|cw|victim] cs]; [discriminate H|..]);
  repeat (progress resolve_locks H); injection H as <-.

(** The places after a step. *)
Lemma places_goto t l p : places (goto t l p) = <[t := l]> (places p).
Proof. by apply places_upd. Qed.
Lemma places_return t r p : places (return_ t r p) = <[t := Idle]> (places p).
Proof. by apply places_upd. Qed.
Lemma places_begin t l cs p :
  places (upd_proc t (fun q => mkProc l (state q) (killed q) cs (results q)) p) = <[t := l]> (places p).
Proof. by apply places_upd. Qed.
Ltac places_simpl :=
  repeat first [rewrite places_goto | rewrite places_return | rewrite places_begin | rewrite places_same by done | rewrite places_wakeup1].

Lemma locks_set p t q lp lpt l ls :
  locks p -> procs p !! t = Some q -> ls = <[t := l]> (places p) ->
  lp = (if holds_p l then Some t else if holds_p (at_ q) then None else plock p) ->
  lpt = (if holds_pt l then Some t else if holds_pt (at_ q) then None else ptlock p) ->
  (holds_p l = true -> holds_p (at_ q) = false -> plock p = None) ->
  (holds_pt l = true -> holds_pt (at_ q) = false -> ptlock p = None) ->
  lock_ok holds_p lp ls /\ lock_ok holds_pt lpt ls.
Proof.
  intros [H1 H2] Hq -> -> -> Hp Hpt. assert (places p !! t = Some (at_ q)) by (unfold places; by rewrite list_lookup_fmap, Hq).
  split; by apply lock_upd.
Qed.

Lemma locks_step t p p' : locks p -> pipe_step t p = Some p' -> locks p' /\ panicked p' = panicked p.
Proof.
  intros HL H. destruct (procs p !! t) as [q|] eqn:Hq; [|by unfold pipe_step in H; rewrite Hq in H].
  step_cases HL Hq H; (split; [|reflexivity]); unfold locks; places_simpl;
    (eapply locks_set; [exact HL|exact Hq|reflexivity|cbn; done..]).
Qed.

(** ** The ring buffer *)

Lemma ring_index n : Z.to_nat (u32 (Z.of_nat n) `mod` PIPESIZE) = (n `mod` 512)%nat.
Proof.
  unfold u32, PIPESIZE. apply Nat2Z.inj. rewrite Nat2Z.inj_mod.
  rewrite Z2Nat.id by (apply Z.mod_pos_bound; lia). change (Z.of_nat 512) with 512. Z.to_euclidean_division_equations; lia.
Qed.

Lemma ring_distinct n j k : (j < k < 512)%nat -> ((n + k) `mod` 512)%nat <> ((n + j) `mod` 512)%nat.
Proof.
  intros H E. apply (f_equal Z.of_nat) in E. rewrite !Nat2Z.inj_mod, !Nat2Z.inj_add in E. change (Z.of_nat 512) with 512 in E.
  Z.to_euclidean_division_equations; lia.
Qed.

Lemma ring_len p queue : ring_ok p queue -> length (wlog p) = (length (rlog p) + length queue)%nat.
Proof. intros (H & _). apply (f_equal length) in H. by rewrite length_app, !length_fmap in H. Qed.

Lemma full_iff p queue : ring_ok p queue -> full p = true <-> length queue = 512%nat.
Proof.
  intros H. pose proof (ring_len p queue H) as Hl. destruct H as (_ & Hn & _ & Hr & Hw & _).
  unfold full. rewrite Z.eqb_eq, Hr, Hw, Hl. unfold u32, PIPESIZE. Z.to_euclidean_division_equations; lia.
Qed.

Lemma empty_iff p queue : ring_ok p queue -> empty p = true <-> queue = [].
Proof.
  intros H. pose proof (ring_len p queue H) as Hl. destruct H as (_ & Hn & _ & Hr & Hw & _).
  unfold empty. rewrite Z.eqb_eq, Hr, Hw, Hl, <- length_zero_iff_nil. unfold u32. Z.to_euclidean_division_equations; lia.
Qed.

Lemma ring_put t c p queue : ring_ok p queue -> full p = false -> ring_ok (put_byte t c p) (queue ++ [c]).
Proof.
  intros H Hf. pose proof (ring_len p queue H) as Hl. pose proof (full_iff p queue H) as Hfull.
  destruct H as (Hwl & Hn & Hd & Hr & Hw & Hq). assert (length queue < 512)%nat by (destruct (decide (length queue = 512%nat)); [rewrite (proj2 Hfull) in Hf; done|lia]).
  unfold ring_ok, put_byte. cbn. split_and!.
  - rewrite fmap_app, Hwl, <- app_assoc. done.
  - rewrite length_app. cbn. lia.
  - by rewrite length_insert.
  - done.
  - rewrite Hw, length_app. cbn. unfold u32. rewrite Zplus_mod_idemp_l. f_equal. lia.
  - intros j x Hj. rewrite Hw, ring_index. rewrite Hl. apply lookup_app_Some in Hj as [Hj | [Hge Hj]].
    + pose proof (lookup_lt_Some _ _ _ Hj). rewrite list_lookup_insert_ne; [by apply Hq|].
      apply ring_distinct; lia.
    + assert (j = length queue) as -> by (apply lookup_lt_Some in Hj; cbn in Hj; lia). rewrite Nat.sub_diag in Hj. injection Hj as ->.
      rewrite list_lookup_insert_eq; [done|]. rewrite Hd. apply Nat.mod_upper_bound. lia.
Qed.

Lemma ring_take t p queue :
  ring_ok p queue -> empty p = false -> exists queue', queue = next_byte p :: queue' /\ ring_ok (take_byte t p) queue'.
Proof.
  intros H He. pose proof (empty_iff p queue H) as Hemp. destruct queue as [|c queue]; [by rewrite (proj2 Hemp) in He|].
  destruct H as (Hwl & Hn & Hd & Hr & Hw & Hq). assert (next_byte p = c) as Hc.
  { unfold next_byte. rewrite Hr, ring_index. specialize (Hq 0%nat c eq_refl). by rewrite Nat.add_0_r in Hq; rewrite Hq. }
  exists queue. rewrite Hc. split; [done|]. unfold ring_ok, take_byte. cbn. rewrite Hc. split_and!.
  - rewrite Hwl, fmap_app, <- app_assoc. done.
  - cbn in Hn. lia.
  - done.
  - rewrite Hr, length_app. cbn. unfold u32. rewrite Zplus_mod_idemp_l. f_equal. lia.
  - done.
  - intros j x Hj. rewrite length_app, <- Nat.add_assoc. by apply (Hq (S j)).
Qed.

Lemma ring_step t p p' queue : locks p -> ring_ok p queue -> pipe_step t p = Some p' -> exists queue', ring_ok p' queue'.
Proof.
  intros HL HR H. destruct (procs p !! t) as [q|] eqn:Hq; [|by unfold pipe_step in H; rewrite Hq in H].
  step_cases HL Hq H; try (exists queue; exact HR).
  - eexists. by apply (ring_put t (default 0 (addr !! i))).
  - apply andb_prop in Heqb as [_ He]. apply negb_true_iff in He. destruct (ring_take t p queue HR He) as (queue' & _ & H). by exists queue'.
Qed.

(** ** What a step changes in the processes *)

Lemma procs_upd t f p u : procs (upd_proc t f p) !! u = if decide (u = t) then f <$> procs p !! u else procs p !! u.
Proof. unfold upd_proc. cbn. case_decide as E; [subst; apply list_lookup_alter_eq|by apply list_lookup_alter_ne]. Qed.
Lemma procs_wakeup1 c p u :
  procs (wakeup1 c p) !! u = (fun q => if decide (state q = SLEEPING c) then set_state RUNNABLE q else q) <$> procs p !! u.
Proof. unfold wakeup1. cbn. by rewrite list_lookup_fmap. Qed.

(** The part of a process only its own steps change. *)
Definition same_code (q q0 : proc) : Prop := at_ q = at_ q0 /\ calls q = calls q0 /\ results q = results q0.

Ltac procs_simpl :=
  unfold goto, return_ in *;
  repeat first [rewrite procs_upd in * | rewrite procs_wakeup1 in * | rewrite decide_True in * by done | rewrite decide_False in * by done];
  cbn [procs set_plock set_ptlock put_byte take_byte set_open] in *.

Lemma others_step t p p' u q : locks p -> pipe_step t p = Some p' -> u <> t -> procs p' !! u = Some q ->
  exists q0, procs p !! u = Some q0 /\ same_code q q0.
Proof.
  intros HL H Hu Hq'. destruct (procs p !! t) as [q1|] eqn:Hq; [|by unfold pipe_step in H; rewrite Hq in H].
  step_cases HL Hq H; procs_simpl; try (exists q; done);
    repeat match goal with H : context [decide (?x = ?y)] |- _ => destruct (decide (x = y)) end;
    (destruct (procs p !! u) as [q0|] eqn:E; [|done]); exists q0; cbn in *; simplify_eq; (split; [done|]); try case_decide; done.
Qed.

(** ** The logs record what the processes did *)

Lemma of_proc_snoc t u c log : of_proc t (log ++ [(u, c)]) = of_proc t log ++ (if decide (u = t) then [c] else []).
Proof. unfold of_proc. rewrite filter_app, filter_cons. cbn. case_decide; cbn; by rewrite ?fmap_app, ?app_nil_r. Qed.

Lemma logs_others t u p p' : u <> t -> locks p -> pipe_step t p = Some p' ->
  of_proc u (wlog p') = of_proc u (wlog p) /\ of_proc u (rlog p') = of_proc u (rlog p).
Proof.
  intros Hu HL H. destruct (procs p !! t) as [q|] eqn:Hq; [|by unfold pipe_step in H; rewrite Hq in H].
  step_cases HL Hq H; try done; unfold goto, upd_proc, put_byte, take_byte; cbn;
    rewrite of_proc_snoc, decide_False, app_nil_r by done; done.
Qed.

Lemma written_code q q0 : same_code q q0 -> written q = written q0 /\ received q = received q0.
Proof. intros (H1 & H2 & H3). unfold written, received. by rewrite H1, H3. Qed.

Lemma logs_own t p p' q q' : locks p -> procs p !! t = Some q -> logs_ok p -> pipe_step t p = Some p' -> procs p' !! t = Some q' ->
  written q' = of_proc t (wlog p') /\ received q' = of_proc t (rlog p') /\
  match at_ q' with Write addr i (WFull | WWake _ | WSleep _) => (i < length addr)%nat | _ => True end.
Proof.
  intros HL Hq Hlogs H Hq'. destruct (Hlogs t q Hq) as (HW & HG & Hi). unfold written, received in *.
  step_cases HL Hq H; procs_simpl;
    repeat match goal with H : context [decide (?x = ?y)] |- _ => destruct (decide (x = y)) end;
    rewrite Hq in Hq'; cbn in Hq', HW, HG, Hi |- *; simplify_eq; cbn; unfold put_byte, take_byte; cbn;
    rewrite ?of_proc_snoc, ?fmap_app, ?concat_app, ?decide_True by done; cbn; rewrite ?app_nil_r in *; try done.
  all: try (case_decide; done).
  - split_and!; try done. by apply Nat.ltb_lt.
  - split_and!; try done. rewrite <- HW, (take_S_r addr i (default 0 (addr !! i))), app_assoc; [done|].
    by destruct (lookup_lt_is_Some_2 addr i Hi) as [c ->].
  - split_and!; try done. by rewrite <- HG, app_assoc.
Qed.

Lemma logs_step t p p' : locks p -> logs_ok p -> pipe_step t p = Some p' -> logs_ok p'.
Proof.
  intros HL Hlogs H u q' Hq'. destruct (decide (u = t)) as [-> | Hu].
  - destruct (procs p !! t) as [q|] eqn:Hq; [|by unfold pipe_step in H; rewrite Hq in H].
    destruct (logs_own t p p' q q' HL Hq Hlogs H Hq') as (H1 & H2 & H3). split_and!; [done..|].
    by destruct (at_ q') as [|?? []| | |].
  - destruct (others_step t p p' u q' HL H Hu Hq') as (q0 & Hq0 & Hsame). destruct (logs_others t u p p' Hu HL H) as [-> ->].
    destruct (written_code q' q0 Hsame) as [-> ->]. destruct Hsame as (-> & _). by apply Hlogs.
Qed.

(** Only processes appear in the logs. *)
Definition tags_ok (p : pipe) : Prop :=
  forall u, procs p !! u = None -> of_proc u (wlog p) = [] /\ of_proc u (rlog p) = [].

Lemma tags_step t p p' : locks p -> tags_ok p -> pipe_step t p = Some p' -> tags_ok p'.
Proof.
  intros HL HT H u Hu. destruct (procs p !! t) as [q|] eqn:Hq; [|by unfold pipe_step in H; rewrite Hq in H].
  assert (procs p !! u = None) as Hu0.
  { clear HT. step_cases HL Hq H; procs_simpl; try done; destruct (procs p !! u); try done; by repeat case_decide. }
  assert (u <> t) by congruence. destruct (logs_others t u p p') as [-> ->]; [done..|]. by apply HT.
Qed.

Lemma of_proc_only w log : (forall u, u <> w -> of_proc u log = []) -> of_proc w log = log.*2.
Proof.
  induction log as [|[u c] log IH]; [done|]. intros H. unfold of_proc in *. rewrite filter_cons. cbn. destruct (decide (u = w)) as [-> | Hu].
  - cbn. f_equal. apply IH. intros v Hv. specialize (H v Hv). rewrite filter_cons in H. cbn in H. by rewrite decide_False in H.
  - specialize (H u Hu). rewrite filter_cons in H. cbn in H. by rewrite decide_True in H.
Qed.

(** ** Reachable states *)

Definition pipe_ok (p : pipe) : Prop := locks p /\ panicked p = false /\ logs_ok p /\ tags_ok p /\ exists queue, ring_ok p queue.

Lemma pipe0_ok junk cs : length junk = 512%nat -> pipe_ok (pipe0 junk cs).
Proof.
  intros Hj. split_and!; [|done| |done|exists []; unfold ring_ok; cbn; split_and!; try done; lia].
  - assert (forall holds, holds Idle = false -> lock_ok holds None (places (pipe0 junk cs))) as Hnone.
    { intros holds Hidle t. split; [done|]. intros (l & Hl & Hh). unfold places, pipe0 in Hl. cbn in Hl. rewrite <- list_fmap_compose in Hl.
      apply list_lookup_fmap_Some in Hl as (c & -> & _). cbn in Hh. congruence. }
    split; by apply Hnone.
  - intros t q Hq. unfold pipe0 in Hq. cbn in Hq. apply list_lookup_fmap_Some in Hq as (c & -> & _). done.
Qed.

Lemma pipe_step_ok t p p' : pipe_ok p -> pipe_step t p = Some p' -> pipe_ok p'.
Proof.
  intros (HL & Hp & Hlogs & HT & queue & HR) H. destruct (locks_step t p p' HL H) as [HL' Hp']. split_and!.
  - done.
  - by rewrite Hp'.
  - by apply (logs_step t p).
  - by apply (tags_step t p).
  - by apply (ring_step t p p' queue).
Qed.

Lemma reach_ok p p' : pipe_ok p -> rtc pstep p p' -> pipe_ok p'.
Proof. intros H Hr. induction Hr as [|p p1 p2 [t Ht] _ IH]; [done|]. apply IH. by eapply pipe_step_ok. Qed.

(** Process steps in the order of a schedule. *)
Fixpoint run (sched : list nat) (p : pipe) : option pipe :=
  match sched with
  | [] => Some p
  | t :: sched => p ← pipe_step t p; run sched p
  end.

Lemma run_reach sched p p' : run sched p = Some p' -> rtc pstep p p'.
Proof.
  revert p. induction sched as [|t sched IH]; intros p H; [injection H as <-; constructor|].
  cbn in H. destruct (pipe_step t p) as [p1|] eqn:E; [|done]. apply rtc_l with p1; [by exists t|]. by apply IH.
Qed.

(** * No wakeup of the pipe is lost

    The second invariant of the pipe of [Xv6Pipe], for processes nobody kills:
    a process that sleeps on the pipe, or is about to, either waits for
    something that is still to happen, or the process that made it happen
    holds p->lock and has the call of wakeup ahead of it. *)

(** ** Who sleeps, who is about to, and who will wake them *)

Definition sleep_at (l : pc) : option (chan * sl) :=
  match l with
  | Write _ _ (WSleep x) => Some (NWRITE, x)
  | Read _ _ (RSleep x) => Some (NREAD, x)
  | _ => None
  end.

(** SLEEPING only inside sleep, on the channel of that sleep. *)
Definition state_ok (q : proc) : Prop :=
  match state q, sleep_at (at_ q) with
  | SLEEPING c, Some (c', (SlSched | SlAsleep)) => c = c'
  | SLEEPING _, _ => False
  | RUNNABLE, Some (_, SlSched) => False
  | RUNNABLE, _ => True
  end.

(** Past the release of p->lock and not yet woken. *)
Definition waits (q : proc) : option chan :=
  match sleep_at (at_ q) with
  | Some (c, (SlSet | SlSched)) => Some c
  | Some (c, SlAsleep) => match state q with SLEEPING _ => Some c | RUNNABLE => None end
  | _ => None
  end.

(** Decided to sleep, with p->lock still held. *)
Definition about (l : pc) : option chan :=
  match l with
  | Write _ _ (WWake _ | WSleep (SlAcquire | SlRelease)) => Some NWRITE
  | Read _ _ (RSleep (SlAcquire | SlRelease)) => Some NREAD
  | _ => None
  end.

Definition before_wakeup (w : wk) : bool := match w with WkRelease => false | _ => true end.

(** The process at this place will call wakeup on [c]. *)
Definition owes (c : chan) (l : pc) : bool :=
  match c, l with
  | NWRITE, Read _ buf RFor => negb (length buf =? 0)%nat
  | NWRITE, Read _ _ (RWake w) | NWRITE, Close false (CWake w) => before_wakeup w
  | NREAD, Write _ _ (WFor | WFull) => true
  | NREAD, Write _ _ (WWake w | WEnd w) | NREAD, Close true (CWake w) => before_wakeup w
  | _, _ => false
  end.

(** What a process sleeping on [c] waits to see the end of. *)
Definition cond (c : chan) (p : pipe) : bool :=
  match c with NWRITE => full p && readopen p | NREAD => empty p && writeopen p end.

Definition owed (c : chan) (p : pipe) : Prop := exists t l, places p !! t = Some l /\ owes c l = true.

Definition open_ (writable : bool) (p : pipe) : bool := if writable then writeopen p else readopen p.

(** An end is closed only when no process will use it any more. *)
Definition ends_ok (p : pipe) : Prop :=
  forall w, (open_ w p = false \/ exists t l, places p !! t = Some (Close w l)) -> may_close w p = true.

Definition is_kill (c : call) : bool := match c with kill _ => true | _ => false end.

(** Nobody is killed, or will be. *)
Definition unkilled (q : proc) : Prop :=
  killed q = false /\ forallb (fun c => negb (is_kill c)) (calls q) = true /\
  match at_ q with Kill _ _ => False | _ => True end.

Definition wait_ok (p : pipe) : Prop :=
  (forall t q, procs p !! t = Some q -> unkilled q /\ state_ok q) /\ ends_ok p /\
  (forall t q c, procs p !! t = Some q -> about (at_ q) = Some c -> cond c p = true) /\
  (forall t q c, procs p !! t = Some q -> waits q = Some c -> cond c p = true \/ owed c p).

Lemma place_of p t q : procs p !! t = Some q -> places p !! t = Some (at_ q).
Proof. intros H. unfold places. by rewrite list_lookup_fmap, H. Qed.
Lemma place_proc p t l : places p !! t = Some l -> exists q, procs p !! t = Some q /\ at_ q = l.
Proof. unfold places. intros H. apply list_lookup_fmap_Some in H as (q & -> & Hq). eauto. Qed.

(** The step of [t] under the lock invariant, with the process named. *)
Ltac start_cases HL H :=
  match type of H with pipe_step ?t ?p = _ =>
    let q := fresh "q" in let Hq := fresh "Hq" in
    destruct (procs p !! t) as [q|] eqn:Hq; [|by unfold pipe_step in H; rewrite Hq in H]; step_cases HL Hq H
  end.

(** The place of [t] after its step. *)
Ltac own_place :=
  match goal with Hq : procs ?p !! ?t = Some _ |- _ =>
    places_simpl; rewrite list_lookup_insert_eq by (rewrite ?length_insert; unfold places; rewrite length_fmap; by apply lookup_lt_Some in Hq)
  end.

(** ** What a step does to the conditions *)

Lemma step_cond c t p p' : locks p -> pipe_step t p = Some p' -> cond c p = true ->
  cond c p' = true \/ exists l, places p' !! t = Some l /\ owes c l = true.
Proof.
  intros HL H Hc. start_cases HL H; try (left; exact Hc); destruct c; try (left; exact Hc);
    try (right; eexists; (split; [own_place; reflexivity|]); done); cbn in Hc; apply andb_prop in Hc as [Hc _].
  - congruence.
  - rewrite Hc in Heqb. by rewrite andb_false_r in Heqb.
  - right. eexists. split; [own_place; reflexivity|]. cbn. rewrite length_app. cbn. by rewrite Nat.add_1_r.
Qed.

(** A process that has decided to sleep holds p->lock: nobody else changes what
    it has seen. *)
Lemma step_about c t u p p' q : locks p -> pipe_step t p = Some p' -> u <> t -> procs p !! u = Some q -> about (at_ q) = Some c ->
  cond c p = true -> cond c p' = true.
Proof.
  intros HL H Hu Hqu Ha Hc. assert (plock p = Some u) as Hown.
  { pose proof (locks_p p u q HL Hqu) as Hp. by destruct (at_ q) as [|?? [| | | |[]| |]|?? [| |[]| | |]| |]. }
  start_cases HL H; try exact Hc; congruence.
Qed.

(** A process that owes a wakeup does it: then nobody waits on the channel. *)
Lemma no_waiters c t p l : locks p -> sleep_at l = None -> ptlock p = Some t ->
  (forall u q, procs p !! u = Some q -> state_ok q) ->
  forall u q', procs (goto t l (wakeup1 c p)) !! u = Some q' -> waits q' <> Some c.
Proof.
  intros HL Hl Hpt Hst u q' Hq'. unfold goto in Hq'. rewrite procs_upd in Hq'. destruct (procs (wakeup1 c p) !! u) as [q1|] eqn:Hw; [|by case_decide].
  case_decide as Hu; injection Hq' as <-; [unfold waits; cbn; by rewrite Hl|].
  rewrite procs_wakeup1 in Hw. destruct (procs p !! u) as [q0|] eqn:E; [|done].
  cbn in Hw. injection Hw as <-. specialize (Hst u q0 E). pose proof (locks_pt p u q0 HL E) as Hown. unfold state_ok in Hst. unfold waits.
  assert (at_ (if decide (state q0 = SLEEPING c) then set_state RUNNABLE q0 else q0) = at_ q0) as -> by (by case_decide).
  destruct (sleep_at (at_ q0)) as [[c' x]|] eqn:Es; [|done]. intros Hw.
  assert (holds_pt (at_ q0) = sl_pt x) as Hx by (destruct (at_ q0) as [|?? []|?? []| |]; cbn in Es; by simplify_eq).
  rewrite Hx in Hown. destruct x; try done; cbn in Hown; try congruence. case_decide as Ed; [done|].
  destruct (state q0) as [|c2]; [done|]. congruence.
Qed.

Lemma step_owes c t p p' l : locks p -> wait_ok p -> pipe_step t p = Some p' -> places p !! t = Some l -> owes c l = true ->
  (exists l', places p' !! t = Some l' /\ owes c l' = true) \/ (forall u q, procs p' !! u = Some q -> waits q <> Some c).
Proof.
  intros HL (Hall & Hends & _) H Hl Ho.
  assert (forall u q, procs p !! u = Some q -> state_ok q) as Hst by (intros u q Hq; by apply (Hall u q Hq)).
  start_cases HL H; rewrite (place_of _ _ _ Hq) in Hl; injection Hl as <-; destruct c; try discriminate Ho;
    try (left; eexists; (split; [own_place; reflexivity|]); done); try (right; by apply no_waiters); try by destruct cw.
  - right. assert (readopen p = false) as Hro.
    { destruct (Hall t _ Hq) as [[Hk _] _]. cbn in Hk. subst kl. rewrite orb_false_r in Heqb0. by apply negb_true_iff. }
    intros u q Hu Hw. unfold goto in Hu. rewrite procs_upd in Hu. case_decide as Htu.
    + subst u. rewrite Hq in Hu. by injection Hu as <-.
    + assert (may_close false p = true) as Hmc by (apply Hends; by left). unfold may_close in Hmc. rewrite forallb_forall in Hmc.
      specialize (Hmc q (proj1 (list_elem_of_In _ _) (list_elem_of_lookup_2 _ _ _ Hu))). unfold reading in Hmc. unfold waits in Hw.
      by destruct (at_ q) as [|?? [| | | |[]| |]|?? [| |[]| | |]| |]; destruct (state q).
  - left. eexists. split; [own_place; reflexivity|]. cbn. rewrite length_app. cbn. by rewrite Nat.add_1_r.
Qed.

(** ** The invariant is kept *)

(** The end [w] of the pipe is still in use by the process. *)
Definition uses (w : bool) (q : proc) : bool := if w then writing q else reading q.

Lemma may_close_iff w p : may_close w p = true <-> forall t q, procs p !! t = Some q -> uses w q = false.
Proof.
  unfold may_close. rewrite forallb_forall. split.
  - intros H t q Hq. apply negb_true_iff. exact (H q (proj1 (list_elem_of_In _ _) (list_elem_of_lookup_2 _ _ _ Hq))).
  - intros H q Hq. apply list_elem_of_In, list_elem_of_lookup in Hq as [t Hq]. apply negb_true_iff. exact (H t q Hq).
Qed.

Ltac own_proc Hq' :=
  match goal with Hq : procs ?p !! ?t = Some _ |- _ =>
    procs_simpl; repeat match goal with H : context [decide (?x = ?y)] |- _ => destruct (decide (x = y)) end;
    rewrite Hq in Hq'; cbn in Hq'; injection Hq' as <-
  end.

Lemma uses_own w t p p' q q' : locks p -> procs p !! t = Some q -> pipe_step t p = Some p' -> procs p' !! t = Some q' ->
  uses w q = false -> uses w q' = false.
Proof.
  intros HL Hq H Hq' Hu. destruct w; unfold uses, writing, reading in *; step_cases HL Hq H; own_proc Hq'; cbn in *; 
    try case_decide; cbn in *; try done; by rewrite ?orb_true_r in Hu.
Qed.

Lemma may_close_step w t p p' : locks p -> pipe_step t p = Some p' -> may_close w p = true -> may_close w p' = true.
Proof.
  rewrite !may_close_iff. intros HL H Hm u q' Hq'. destruct (decide (u = t)) as [-> | Hu].
  - destruct (procs p !! t) as [q|] eqn:Hq; [|by unfold pipe_step in H; rewrite Hq in H]. eapply uses_own; eauto.
  - destruct (others_step t p p' u q' HL H Hu Hq') as (q0 & Hq0 & Ha & Hc & _). specialize (Hm u q0 Hq0).
    unfold uses, writing, reading in *. by rewrite Ha, Hc.
Qed.

Lemma ends_step t p p' : locks p -> ends_ok p -> pipe_step t p = Some p' -> ends_ok p'.
Proof.
  intros HL He H w Hw. apply (may_close_step w t p p' HL H).
  destruct Hw as [Hw | (u & l & Hl)].
  - start_cases HL H; try (apply He; left; exact Hw); destruct w; try (apply He; left; exact Hw);
      apply He; right; exists t; eexists; by apply place_of in Hq.
  - destruct (decide (u = t)) as [-> | Hu].
    + start_cases HL H; revert Hl; own_place; intros [= <-]; try (apply He; right; exists t; eexists; by apply place_of in Hq); done.
    + apply place_proc in Hl as (q' & Hq' & Hat). destruct (others_step t p p' u q' HL H Hu Hq') as (q0 & Hq0 & Ha & _).
      apply He. right. exists u, l. rewrite (place_of _ _ _ Hq0), <- Ha, Hat. done.
Qed.

Lemma others_woken t p p' u q' : locks p -> wait_ok p -> pipe_step t p = Some p' -> u <> t -> procs p' !! u = Some q' ->
  exists q0, procs p !! u = Some q0 /\ (q' = q0 \/ q' = set_state RUNNABLE q0 /\ ptlock p = Some t).
Proof.
  intros HL (Hall & _) H Hu Hq'. start_cases HL H; destruct (Hall t _ Hq) as [(_ & _ & Hk) _]; try done; procs_simpl; try (exists q'; auto; done);
    (destruct (procs p !! u) as [q0|] eqn:E; [|done]); exists q0; cbn in Hq'; injection Hq' as <-; (split; [done|]); case_decide; auto.
Qed.

Lemma own_state t p p' q' : locks p -> wait_ok p -> pipe_step t p = Some p' -> procs p' !! t = Some q' -> unkilled q' /\ state_ok q'.
Proof.
  intros HL (Hall & _) H Hq'. start_cases HL H; destruct (Hall t _ Hq) as [(Hk & Hc & Hnk) Hst]; unfold state_ok in Hst; cbn in Hk, Hc, Hnk, Hst;
    try done; try (apply andb_prop in Hc as [? Hc]; done); own_proc Hq'; unfold unkilled, state_ok; cbn;
    try (apply andb_prop in Hc as [? Hc]); (destruct st as [|c0]; [|try done]); cbn; try done;
    try (destruct c0; done).
Qed.

Lemma state_step t p p' u q' : locks p -> wait_ok p -> pipe_step t p = Some p' -> procs p' !! u = Some q' -> unkilled q' /\ state_ok q'.
Proof.
  intros HL HW H Hq'. destruct (decide (u = t)) as [-> | Hu]; [by eapply own_state|].
  destruct (others_woken t p p' u q' HL HW H Hu Hq') as (q0 & Hq0 & [-> | [-> Hpt]]); destruct (proj1 HW u q0 Hq0) as [Hk Hst]; [done|].
  split; [done|]. pose proof (locks_pt p u q0 HL Hq0) as Hown. unfold state_ok. cbn.
  destruct (at_ q0) as [|?? [| | | |[]| |]|?? [| |[]| | |]| |]; try done; cbn in Hown; congruence.
Qed.

(** A process on its way to sleep, by its own step. *)
Lemma own_about c t p p' q' : locks p -> wait_ok p -> pipe_step t p = Some p' -> procs p' !! t = Some q' -> about (at_ q') = Some c ->
  cond c p' = true.
Proof.
  intros HL (Hall & _ & Hab & _) H Hq' Ha. start_cases HL H; own_proc Hq'; cbn in Ha; try done; specialize (Hab t _ c Hq); cbn in Hab; try by apply Hab.
  - injection Ha as <-. apply orb_false_iff in Heqb0 as [Hr _]. apply negb_false_iff in Hr. exact (andb_true_intro (conj Heqb Hr)).
  - injection Ha as <-. exact Heqb.
Qed.

Lemma own_waits c t p p' q' : locks p -> pipe_step t p = Some p' -> procs p' !! t = Some q' -> waits q' = Some c ->
  exists q, procs p !! t = Some q /\ (about (at_ q) = Some c \/ waits q = Some c).
Proof.
  intros HL H Hq' Hw. start_cases HL H; eexists; (split; [reflexivity|]); own_proc Hq'; cbn in *; try done; try (by left); try (by right); destruct st; by right.
Qed.

(** What a waiting process waits for still holds, or it is still owed a wakeup. *)
Lemma waits_step c t u p p' q' : locks p -> wait_ok p -> pipe_step t p = Some p' -> procs p' !! u = Some q' -> waits q' = Some c ->
  cond c p = true \/ owed c p -> cond c p' = true \/ owed c p'.
Proof.
  intros HL HW H Hq' Hw [Hc | (v & l & Hv & Hl)].
  - destruct (step_cond c t p p' HL H Hc) as [Hc' | (l & Hl & Ho)]; [by left|]. right. by exists t, l.
  - destruct (decide (v = t)) as [-> | Hvt].
    + destruct (step_owes c t p p' l HL HW H Hv Hl) as [(l' & Hl' & Ho) | Hnone]; [right; by exists t, l'|].
      by destruct (Hnone u q' Hq').
    + right. exists v, l. split; [|done]. destruct (place_proc p v l Hv) as (q0 & Hq0 & Hat).
      start_cases HL H; places_simpl; rewrite list_lookup_insert_ne by done; done.
Qed.

Lemma wait_step t p p' : locks p -> wait_ok p -> pipe_step t p = Some p' -> wait_ok p'.
Proof.
  intros HL HW H. pose proof HW as (Hall & Hends & Hab & Hwt). split_and!.
  - intros u q' Hq'. by eapply state_step.
  - by eapply ends_step.
  - intros u q' c Hq' Ha. destruct (decide (u = t)) as [-> | Hu]; [by eapply own_about|].
    destruct (others_step t p p' u q' HL H Hu Hq') as (q0 & Hq0 & Hat & _). rewrite Hat in Ha.
    exact (step_about c t u p p' q0 HL H Hu Hq0 Ha (Hab u q0 c Hq0 Ha)).
  - intros u q' c Hq' Hw. apply (waits_step c t u p p' q' HL HW H Hq' Hw). destruct (decide (u = t)) as [-> | Hu].
    + destruct (own_waits c t p p' q' HL H Hq' Hw) as (q & Hq & [Ha | Hw0]); [left; by eapply Hab|by eapply Hwt].
    + destruct (others_woken t p p' u q' HL HW H Hu Hq') as (q0 & Hq0 & [-> | [-> _]]); [by eapply Hwt|].
      apply (Hwt u q0 c Hq0). revert Hw. unfold waits. cbn. by destruct (sleep_at (at_ q0)) as [[? []]|].
Qed.

Definition no_kills (cs : list (list call)) : bool := forallb (forallb (fun c => negb (is_kill c))) cs.

Lemma wait0 junk cs : no_kills cs = true -> wait_ok (pipe0 junk cs).
Proof.
  intros Hk. assert (forall t q, procs (pipe0 junk cs) !! t = Some q -> exists c, In c cs /\ q = mkProc Idle RUNNABLE false c []) as Hp.
  { intros t q Hq. cbn in Hq. apply list_lookup_fmap_Some in Hq as (c & -> & Hc). exists c. split; [|done].
    by eapply list_elem_of_In, list_elem_of_lookup_2. }
  split_and!.
  - intros t q Hq. destruct (Hp t q Hq) as (c & Hc & ->). split; [|done]. split_and!; [done| |done]. cbn.
    unfold no_kills in Hk. rewrite forallb_forall in Hk. by apply Hk.
  - intros w [Hw | (t & l & Hl)]; [by destruct w|]. apply place_proc in Hl as (q & Hq & Hat). by destruct (Hp t q Hq) as (c & _ & ->).
  - intros t q c Hq Ha. by destruct (Hp t q Hq) as (c0 & _ & ->).
  - intros t q c Hq Ha. by destruct (Hp t q Hq) as (c0 & _ & ->).
Qed.

Lemma reach_wait_ok p p' : pipe_ok p -> wait_ok p -> rtc pstep p p' -> pipe_ok p' /\ wait_ok p'.
Proof.
  intros H HW Hr. induction Hr as [|p p1 p2 [t Ht] _ IH]; [done|]. apply IH; [by eapply pipe_step_ok|].
  eapply wait_step; [apply H|exact HW|exact Ht].
Qed.

(** ** States without a step *)

(** All calls returned; waiting for the others to finish with an end; or asleep
    with the reason for it still there. *)
Definition resting (p : pipe) (q : proc) : Prop :=
  (at_ q = Idle /\ calls q = []) \/
  (exists w cs, at_ q = Idle /\ calls q = pipeclose w :: cs /\ may_close w p = false) \/
  (exists addr i, at_ q = Write addr i (WSleep SlAsleep) /\ state q = SLEEPING NWRITE /\ full p = true /\ readopen p = true) \/
  (exists n buf, at_ q = Read n buf (RSleep SlAsleep) /\ state q = SLEEPING NREAD /\ empty p = true /\ writeopen p = true).

(** The next step of a process known by its place. *)
Ltac eval_step Hq :=
  unfold pipe_step; rewrite Hq; cbn [mbind option_bind at_];
  unfold start_call, pipewrite_step, piperead_step, pipeclose_step, kill_step, wakeup, sleep, acquire;
  cbn [mbind option_bind at_ state killed calls].

Lemma pt_holder_runs t p : locks p -> ptlock p = Some t -> pipe_step t p <> None.
Proof.
  intros HL Hpt. destruct (proj1 (proj2 HL t) Hpt) as (l & Hl & Hh). apply place_proc in Hl as (q & Hq & <-).
  destruct q as [l st kl cs rs]. cbn in Hh. eval_step Hq.
  by destruct l as [|?? [| | |[]|[]|[]|]|?? [| |[]| |[]|]|? [|[]|]|? []].
Qed.

Lemma p_holder_runs t p : locks p -> ptlock p = None -> plock p = Some t -> pipe_step t p <> None.
Proof.
  intros HL Hpt Hp. destruct (proj1 (proj1 HL t) Hp) as (l & Hl & Hh). apply place_proc in Hl as (q & Hq & <-).
  pose proof (locks_pt p t q HL Hq) as Hpt'. destruct q as [l st kl cs rs]. cbn in Hh, Hpt'. eval_step Hq. rewrite Hpt.
  destruct l as [|?? [| | |[]|[]|[]|]|?? [| |[]| |[]|]|? [|[]|]|? []]; try done; cbn; repeat (case_match; try done).
Qed.

Lemma stuck_resting p : locks p -> wait_ok p -> (forall t, pipe_step t p = None) -> forall t q, procs p !! t = Some q -> resting p q.
Proof.
  intros HL (Hall & _ & _ & Hwt) Hstuck t q Hq.
  assert (ptlock p = None) as Hpt by (destruct (ptlock p) as [u|] eqn:E; [by destruct (pt_holder_runs u p HL E)|done]).
  assert (plock p = None) as Hp by (destruct (plock p) as [u|] eqn:E; [by destruct (p_holder_runs u p HL Hpt E)|done]).
  assert (forall c, ~ owed c p) as Hno.
  { intros c (u & l & Hl & Ho). assert (plock p = Some u) as Hu; [|congruence]. apply (proj1 HL u). exists l. split; [done|].
    by destruct c, l as [|?? []|?? []|[] []|]. }
  specialize (Hstuck t). specialize (Hwt t q). destruct (Hall t q Hq) as [(Hk & _ & Hnk) Hst].
  pose proof (locks_p p t q HL Hq) as Hp'. pose proof (locks_pt p t q HL Hq) as Hpt'.
  destruct q as [l st kl cs rs]. cbn in Hp', Hpt', Hk, Hnk. unfold resting. cbn. revert Hstuck. eval_step Hq. rewrite Hpt, Hp. intros Hstuck.
  destruct l as [|addr i [| | |[]|[]|[]|]|n buf [| |[]| |[]|]|? [|[]|]|? []]; try done; cbn in Hp', Hpt'; try congruence.
  - destruct cs as [|[addr|n|w|v] cs]; try done; [by left|]. right. left. exists w, cs. split_and!; [done..|]. by destruct (may_close w p).
  - rewrite Hq in Hstuck. cbn in Hstuck. destruct st as [|c]; [done|]. cbn in Hst. subst c.
    destruct (Hwt NWRITE Hq eq_refl) as [Hc | Hc]; [|by destruct (Hno NWRITE)].
    apply andb_prop in Hc as [Hf Hr]. right. right. left. by exists addr, i.
  - rewrite Hq in Hstuck. cbn in Hstuck. destruct st as [|c]; [done|]. cbn in Hst. subst c.
    destruct (Hwt NREAD Hq eq_refl) as [Hc | Hc]; [|by destruct (Hno NREAD)].
    apply andb_prop in Hc as [Hf Hr]. right. right. right. by exists n, buf.
Qed.
