(* ===== verification/PipeThms.v ===== *)
(** * Theorems about the xv6 pipe

    The bytes come out in the order they went in; no wakeup is lost as long as
    nobody is killed; and the case in which one is. *)
From S2P Require Import Prelude Xv6Pipe.

(** C14: whatever the interleaving of any number of processes that write, read,
    close and kill, acquire and release never panic, and the bytes read from
    the pipe followed by at most PIPESIZE bytes that are still in it are the
    bytes written, in order: every process wrote and received its share of the
    two logs.  With one writer and one reader, what the reader got is what the
    writer wrote, up to the bytes in the pipe. *)
Theorem pipe_fifo junk cs p :
  length junk = 512%nat -> rtc pstep (pipe0 junk cs) p ->
  panicked p = false /\
  exists wl rl queue, wl.*2 = rl.*2 ++ queue /\ (length queue <= 512)%nat /\
    (forall t q, procs p !! t = Some q -> written q = of_proc t wl /\ received q = of_proc t rl) /\
    (forall w r qw qr, procs p !! w = Some qw -> procs p !! r = Some qr ->
       (forall u q, u <> w -> procs p !! u = Some q -> written q = []) ->
       (forall u q, u <> r -> procs p !! u = Some q -> received q = []) ->
       written qw = received qr ++ queue).
Proof.
  intros Hj Hr. destruct (reach_ok _ p (pipe0_ok junk cs Hj) Hr) as (_ & Hp & Hlogs & HT & queue & HR). split; [done|].
  exists (wlog p), (rlog p), queue. pose proof HR as (Hq & Hn & _). split_and!; [done..| |].
  - intros t q Ht. by destruct (Hlogs t q Ht) as (? & ? & _).
  - intros w r qw qr Hw Hrd Ho1 Ho2. destruct (Hlogs w qw Hw) as (-> & _). destruct (Hlogs r qr Hrd) as (_ & -> & _).
    rewrite !of_proc_only; [done| |].
    + intros u Hu. destruct (procs p !! u) as [q|] eqn:E; [|by apply HT]. rewrite <- (proj1 (proj2 (Hlogs u q E))). by eapply Ho2.
    + intros u Hu. destruct (procs p !! u) as [q|] eqn:E; [|by apply HT]. rewrite <- (proj1 (Hlogs u q E)). by eapply Ho1.
Qed.

(** Reader 0 sleeps on the empty pipe, writer 1 writes two bytes and wakes it. *)
Definition two_calls : list (list call) := [[piperead 5; pipeclose false]; [pipewrite [7; 8]; pipeclose true]].
Definition two_sched : list nat := replicate 7 0%nat ++ replicate 11 1%nat ++ replicate 10 0%nat.
Definition two_run : pipe := default (pipe0 [] []) (run two_sched (pipe0 (replicate 512 0) two_calls)).

Lemma pipe_fifo_witness : panicked two_run = false /\ rlog two_run = [(0%nat, 7); (0%nat, 8)].
Proof.
  split; [|vm_compute; reflexivity].
  apply (pipe_fifo (replicate 512 0) two_calls); [reflexivity|]. apply (run_reach two_sched). vm_compute. reflexivity.
Defined.


(** The reader gets the byte of the only write and sleeps again. *)
Definition again_calls : list (list call) := [[piperead 5; piperead 5]; [pipewrite [7]]].
Definition again_sched : list nat := replicate 7 0%nat ++ replicate 9 1%nat ++ replicate 17 0%nat.
Definition again_run : pipe := default (pipe0 [] []) (run again_sched (pipe0 (replicate 512 0) again_calls)).


(** Process 0 reads, process 1 writes 513 bytes, process 2 kills process 1 when
    the pipe is full; process 3 keeps the write end open. *)
Definition kill_calls : list (list call) := [[piperead 1]; [pipewrite (replicate 513 7)]; [kill 1]; []].
Definition kill_sched : list nat := replicate 7 0%nat ++ replicate 1027 1%nat ++ replicate 4 2%nat ++ replicate 2 1%nat.

(** C38: a wakeup is lost when a writer is killed.  pipewrite returns -1 from the
    test in its loop without wakeup(&p->nread): a reader stays asleep on a full
    pipe, both ends open, and no process has a step left. *)
Theorem pipewrite_killed_strands_reader :
  exists p, rtc pstep (pipe0 (replicate 512 0) kill_calls) p /\ (forall t, pipe_step t p = None) /\
    full p = true /\ readopen p = true /\ writeopen p = true /\
    (results <$> procs p) = [[]; [Wrote (-1) (replicate 512 7)]; [Killed 0]; []] /\
    (exists q, procs p !! 0%nat = Some q /\ state q = SLEEPING NREAD /\ at_ q = Read 1 [] (RSleep SlAsleep)).
Proof.
  assert (exists p, run kill_sched (pipe0 (replicate 512 0) kill_calls) = Some p) as [p Hp].
  { destruct (run _ _) as [p|] eqn:E; [by exists p|]. vm_compute in E. discriminate E. }
  exists p. split; [by eapply run_reach|]. vm_compute in Hp. injection Hp as <-. split_and!; [|vm_compute; reflexivity..|].
  - intros [|[|[|[|t]]]]; vm_compute; reflexivity.
  - eexists. split; [reflexivity|]. done.
Qed.
