(* ===== verification/Xv6Vm.v ===== *)
(** * expansion/kalloc.c and expansion/vm.c: page allocator and address spaces

    The state is physical memory, byte by byte, and the head of the free list,
    which runs through the first words of the free pages.  The kernel reads and
    writes memory at the addresses where setupkvm maps it, KERNBASE to
    KERNBASE + PHYSTOP; an access elsewhere is [Undef].  [kend] and [kdata] are
    the symbols end and data of kernel.ld.  The code runs for one process; the
    lock around the free list has no other effect then.  The macros PDX, PTX,
    PTE_ADDR and so on of xv6's mmu.h are those of [Mmu]. *)
From S2P Require Import Prelude Mem Mmu.

(** memlayout.h *)
Definition EXTMEM : Z := 0x100000.
Definition PHYSTOP : Z := 0xE000000.
Definition DEVSPACE : Z := 0xFE000000.
Definition KERNBASE : Z := 0x80000000.
Definition KERNLINK : Z := KERNBASE + EXTMEM.
Definition V2P (a : Z) : Z := u32 (a - KERNBASE).
Definition P2V (a : Z) : Z := u32 (a + KERNBASE).

(** mmu.h *)
Definition PGROUNDUP (sz : Z) : Z := Z.land (u32 (sz + PGSIZE - 1)) 0xFFFFF000.
Definition PGROUNDDOWN (a : Z) : Z := Z.land a 0xFFFFF000.
Definition PTE_FLAGS (pte : Z) : Z := Z.land pte 0xFFF.

Record vmst := mkVm { mem : gmap Z Z; freelist : Z }.

Definition V := M vmst.

(** Kernel addresses. *)
Definition kmapped (v n : Z) : bool := (KERNBASE <=? v) && (v + n <=? KERNBASE + PHYSTOP).

Definition with_mem (f : gmap Z Z -> gmap Z Z) : V unit := modify (fun s => mkVm (f (mem s)) (freelist s)).
Definition set_freelist (v : Z) : V unit := modify (fun s => mkVm (mem s) v).

Definition kread (v : Z) : V Z :=
  if kmapped v 4 then gets (fun s => read32 (mem s) (v - KERNBASE)) else undef.
Definition kwrite (v x : Z) : V unit :=
  if kmapped v 4 then with_mem (fun m => write32 m (v - KERNBASE) x) else undef.
Definition kmemset (v c n : Z) : V unit :=
  if kmapped v n then with_mem (fun m => fill m (v - KERNBASE) c (Z.to_nat n)) else undef.
Definition kmemmove (dst src n : Z) : V unit :=
  if kmapped dst n && kmapped src n then
    with_mem (fun m => put_bytes m (dst - KERNBASE) (bytes_at m (src - KERNBASE) (Z.to_nat n)))
  else undef.
(** memmove from a buffer outside the memory of the model. *)
Definition kput (dst : Z) (l : list Z) : V unit :=
  if kmapped dst (Z.of_nat (length l)) then with_mem (fun m => put_bytes m (dst - KERNBASE) l) else undef.

Section vm.
Context (kend kdata : Z).

(** ** kalloc.c *)

Definition kfree (v : Z) : V unit :=
  if negb (v `mod` PGSIZE =? 0) || (v <? kend) || (PHYSTOP <=? V2P v) then panic "kfree"
  else
    kmemset v 1 PGSIZE ;;;
    let! fl := gets freelist in
    kwrite v fl ;;;
    set_freelist v.

Definition kalloc : V Z :=
  let! r := gets freelist in
  (if r =? 0 then ret tt else let! next := kread r in set_freelist next) ;;;
  ret r.

(** A round of the loop, with [p]. *)
Definition freerange_step (vend p : Z) : V (Z + unit) :=
  if p + PGSIZE <=? vend then kfree p ;;; ret (inl (p + PGSIZE)) else ret (inr tt).

Definition freerange (vstart vend : Z) : V unit :=
  loop (Z.to_nat (vend / PGSIZE) + 1) (freerange_step vend) (PGROUNDUP vstart).

Definition kinit1 (vstart vend : Z) : V unit := freerange vstart vend.
Definition kinit2 (vstart vend : Z) : V unit := freerange vstart vend.

(** ** vm.c *)

Definition walkpgdir (pgdir va : Z) (alloc : bool) : V Z :=
  let pde := pgdir + 4 * PDX va in
  let! e := kread pde in
  if flag e PTE_P then ret (P2V (PTE_ADDR e) + 4 * PTX va)
  else if negb alloc then ret 0
  else
    let! pgtab := kalloc in
    if pgtab =? 0 then ret 0
    else
      kmemset pgtab 0 PGSIZE ;;;
      kwrite pde (Z.lor (Z.lor (Z.lor (V2P pgtab) PTE_P) PTE_W) PTE_U) ;;;
      ret (pgtab + 4 * PTX va).

(** A round of the loop, with [a] and [pa]. *)
Definition mappages_step (pgdir perm last : Z) (st : Z * Z) : V ((Z * Z) + Z) :=
  let '(a, pa) := st in
  let! pte := walkpgdir pgdir a true in
  if pte =? 0 then ret (inr (-1))
  else
    let! e := kread pte in
    if flag e PTE_P then panic "remap"
    else
      kwrite pte (Z.lor (Z.lor pa perm) PTE_P) ;;;
      if a =? last then ret (inr 0) else ret (inl (u32 (a + PGSIZE), u32 (pa + PGSIZE))).

Definition mappages (pgdir va size pa perm : Z) : V Z :=
  let a := PGROUNDDOWN va in
  let last := PGROUNDDOWN (u32 (va + size - 1)) in
  loop (Z.to_nat (last / PGSIZE) + 1) (mappages_step pgdir perm last) (a, pa).

(** virt, phys_start, phys_end, perm *)
Definition kmap : list (Z * Z * Z * Z) :=
  [(KERNBASE, 0, EXTMEM, PTE_W);
   (KERNLINK, V2P KERNLINK, V2P kdata, 0);
   (kdata, V2P kdata, PHYSTOP, PTE_W);
   (DEVSPACE, DEVSPACE, 0, PTE_W)].

(** A round of the loop; [a] skips to the next page table where there is none. *)
Definition deallocuvm_step (pgdir oldsz a : Z) : V (Z + unit) :=
  if a <? oldsz then
    let! pte := walkpgdir pgdir a false in
    if pte =? 0 then ret (inl (u32 (u32 (PGADDR (PDX a + 1) 0 0 - PGSIZE) + PGSIZE)))
    else
      let! e := kread pte in
      (if flag e PTE_P then
         let pa := PTE_ADDR e in
         (if pa =? 0 then panic "kfree" else ret tt) ;;;
         kfree (P2V pa) ;;;
         kwrite pte 0
       else ret tt) ;;;
      ret (inl (u32 (a + PGSIZE)))
  else ret (inr tt).

Definition deallocuvm (pgdir oldsz newsz : Z) : V Z :=
  if oldsz <=? newsz then ret oldsz
  else
    loop (Z.to_nat (oldsz / PGSIZE) + 2) (deallocuvm_step pgdir oldsz) (PGROUNDUP newsz) ;;;
    ret newsz.

Definition freevm (pgdir : Z) : V unit :=
  (if pgdir =? 0 then panic "freevm: no pgdir" else ret tt) ;;;
  deallocuvm pgdir KERNBASE 0 ;;;
  for_ (seqZ 0 NPDENTRIES) (fun i =>
    let! e := kread (pgdir + 4 * i) in
    if flag e PTE_P then kfree (P2V (PTE_ADDR e)) else ret tt) ;;;
  kfree pgdir.

Fixpoint map_all (pgdir : Z) (ks : list (Z * Z * Z * Z)) : V Z :=
  match ks with
  | [] => ret pgdir
  | (virt, phys_start, phys_end, perm) :: ks =>
      let! r := mappages pgdir virt (u32 (phys_end - phys_start)) phys_start perm in
      if r <? 0 then freevm pgdir ;;; ret 0 else map_all pgdir ks
  end.

Definition setupkvm : V Z :=
  let! pgdir := kalloc in
  if pgdir =? 0 then ret 0
  else
    kmemset pgdir 0 PGSIZE ;;;
    (if DEVSPACE <? P2V PHYSTOP then panic "PHYSTOP too high" else ret tt) ;;;
    map_all pgdir kmap.

Definition inituvm (pgdir : Z) (init : list Z) : V unit :=
  (if PGSIZE <=? Z.of_nat (length init) then panic "inituvm: more than a page" else ret tt) ;;;
  let! mem := kalloc in
  kmemset mem 0 PGSIZE ;;;
  mappages pgdir 0 PGSIZE (V2P mem) (Z.lor PTE_W PTE_U) ;;;
  kput mem init.

(** A round of the loop, with [a]. *)
Definition allocuvm_step (pgdir oldsz newsz a : Z) : V (Z + Z) :=
  if a <? newsz then
    let! mem := kalloc in
    if mem =? 0 then
      deallocuvm pgdir newsz oldsz ;;;
      ret (inr 0)
    else
      kmemset mem 0 PGSIZE ;;;
      let! r := mappages pgdir a PGSIZE (V2P mem) (Z.lor PTE_W PTE_U) in
      if r <? 0 then
        deallocuvm pgdir newsz oldsz ;;;
        kfree mem ;;;
        ret (inr 0)
      else ret (inl (u32 (a + PGSIZE)))
  else ret (inr newsz).

Definition allocuvm (pgdir oldsz newsz : Z) : V Z :=
  if KERNBASE <=? newsz then ret 0
  else if newsz <? oldsz then ret oldsz
  else loop (Z.to_nat (newsz / PGSIZE) + 2) (allocuvm_step pgdir oldsz newsz) (PGROUNDUP oldsz).

Definition clearpteu (pgdir uva : Z) : V unit :=
  let! pte := walkpgdir pgdir uva false in
  (if pte =? 0 then panic "clearpteu" else ret tt) ;;;
  let! e := kread pte in
  kwrite pte (Z.land e (Z.lxor 0xFFFFFFFF PTE_U)).

(** A round of the loop for the child [d], with [i]. *)
Definition copyuvm_step (pgdir sz d i : Z) : V (Z + Z) :=
  if i <? sz then
    let! pte := walkpgdir pgdir i false in
    (if pte =? 0 then panic "copyuvm: pte should exist" else ret tt) ;;;
    let! e := kread pte in
    (if flag e PTE_P then ret tt else panic "copyuvm: page not present") ;;;
    let pa := PTE_ADDR e in
    let flags := PTE_FLAGS e in
    let! mem := kalloc in
    if mem =? 0 then freevm d ;;; ret (inr 0)
    else
      kmemmove mem (P2V pa) PGSIZE ;;;
      let! r := mappages d i PGSIZE (V2P mem) flags in
      if r <? 0 then kfree mem ;;; freevm d ;;; ret (inr 0)
      else ret (inl (u32 (i + PGSIZE)))
  else ret (inr d).

Definition copyuvm (pgdir sz : Z) : V Z :=
  let! d := setupkvm in
  if d =? 0 then ret 0
  else loop (Z.to_nat (sz / PGSIZE) + 2) (copyuvm_step pgdir sz d) 0.

(** The result of walkpgdir is used without a test: at address 0 there is no
    kernel memory. *)
Definition uva2ka (pgdir uva : Z) : V Z :=
  let! pte := walkpgdir pgdir uva false in
  let! e := kread pte in
  if negb (flag e PTE_P) then ret 0
  else if negb (flag e PTE_U) then ret 0
  else ret (P2V (PTE_ADDR e)).

(** A round of the loop, with [va] and the rest of the buffer. *)
Definition copyout_step (pgdir : Z) (st : Z * list Z) : V ((Z * list Z) + Z) :=
  let '(va, p) := st in
  let len := Z.of_nat (length p) in
  if 0 <? len then
    let va0 := PGROUNDDOWN va in
    let! pa0 := uva2ka pgdir va0 in
    if pa0 =? 0 then ret (inr (-1))
    else
      let n := PGSIZE - (va - va0) in
      let n := if len <? n then len else n in
      kput (pa0 + (va - va0)) (take (Z.to_nat n) p) ;;;
      ret (inl (u32 (va0 + PGSIZE), drop (Z.to_nat n) p))
  else ret (inr 0).

Definition copyout (pgdir va : Z) (p : list Z) : V Z :=
  loop (length p + 1) (copyout_step pgdir) (va, p).
End vm.
