(* ===== verification/Xv6VmRep.v ===== *)
(** * The abstract view of xv6's free list and address spaces

    The free list is a list of page numbers.  An address space with directory
    page [d] is a map [T] from directory indices to the pages of its tables and
    a map [M] from virtual page numbers to entries.  [owned] are the pages that
    belong to it: the directory, the tables and the frames of its user half. *)
From S2P Require Import Prelude Mem Mmu Xv6Vm.

Definition kva (p : Z) : Z := p * 4096 + KERNBASE.

(** The symbols of kernel.ld. *)
Record layout_ok (kend kdata : Z) : Prop := mk_layout_ok {
  lay_data : KERNLINK < kdata < kend;
  lay_align : kdata `mod` 4096 = 0;
  lay_end : kend <= KERNBASE + PHYSTOP }.

(** Memory unchanged in the pages of [P]. *)
Definition same_on (P : Z -> Prop) (m m' : gmap Z Z) : Prop :=
  forall p b, P p -> p * 4096 <= b < (p + 1) * 4096 -> getb m' b = getb m b.

Lemma same_on_refl P m : same_on P m m.
Proof. done. Qed.

Lemma same_on_trans (P Q R : Z -> Prop) m1 m2 m3 :
  same_on P m1 m2 -> same_on Q m2 m3 -> (forall p, R p -> P p /\ Q p) -> same_on R m1 m3.
Proof. intros H1 H2 HR p b Hp Hb. destruct (HR p Hp). rewrite (H2 p b), (H1 p b); done. Qed.

Lemma same_on_weaken (P Q : Z -> Prop) m m' : same_on P m m' -> (forall p, Q p -> P p) -> same_on Q m m'.
Proof. intros H HQ p b Hp. by apply H, HQ. Qed.

Lemma same_word P m m' p i : same_on P m m' -> P p -> 0 <= i < 1024 -> word m' p i = word m p i.
Proof. intros H Hp Hi. unfold word. symmetry. apply read32_ext. intros b Hb. symmetry. apply (H p); [done|lia]. Qed.

Lemma same_write m p i v : 0 <= i < 1024 -> same_on (fun q => q <> p) m (write32 m (p * 4096 + 4 * i) v).
Proof. intros Hi q b Hq Hb. apply getb_write32_ne. lia. Qed.

Lemma same_fill m p c : same_on (fun q => q <> p) m (fill m (p * 4096) c (Z.to_nat 4096)).
Proof. intros q b Hq Hb. rewrite getb_fill. case_decide; [lia|done]. Qed.

Lemma same_put m p o l : 0 <= o -> o + Z.of_nat (length l) <= 4096 -> same_on (fun q => q <> p) m (put_bytes m (p * 4096 + o) l).
Proof. intros Ho Hl q b Hq Hb. apply getb_put_bytes_out. lia. Qed.

(** ** Addresses *)

Lemma V2P_kva p : 0 <= p * 4096 < PHYSTOP -> V2P (kva p) = p * 4096.
Proof. unfold V2P, kva, PHYSTOP, KERNBASE. intros H. rewrite u32_small; lia. Qed.

Lemma P2V_page p : 0 <= p * 4096 < PHYSTOP -> P2V (p * 4096) = kva p.
Proof. unfold P2V, kva, PHYSTOP, KERNBASE. intros H. rewrite u32_small; lia. Qed.

Lemma mapped_word p i : 0 <= p * 4096 < PHYSTOP -> 0 <= i < 1024 -> kmapped (kva p + 4 * i) 4 = true.
Proof. unfold kmapped, kva, PHYSTOP. intros. apply andb_true_iff. rewrite !Z.leb_le. change (0xE000000) with (57344 * 4096) in *. lia. Qed.

Lemma mapped_page p : 0 <= p * 4096 < PHYSTOP -> kmapped (kva p) PGSIZE = true.
Proof. unfold kmapped, kva, PHYSTOP, PGSIZE. intros. apply andb_true_iff. rewrite !Z.leb_le. change (0xE000000) with (57344 * 4096) in *. lia. Qed.

Lemma rounddown_page a : 0 <= a < 2^32 -> PGROUNDDOWN a = a / 4096 * 4096.
Proof. intros H. pose proof (PTE_ADDR_spec a H) as E. rewrite PGNUM_div in E. exact E. Qed.

Lemma roundup_page a : 0 <= a < 2^32 - 4095 -> PGROUNDUP a = (a + 4095) / 4096 * 4096.
Proof.
  intros H. unfold PGROUNDUP, PGSIZE. replace (a + 4096 - 1) with (a + 4095) by lia. rewrite u32_small by lia. apply rounddown_page. lia.
Qed.

Lemma PDX_page v : 0 <= v < 2^20 -> PDX (v * 4096) = v / 1024.
Proof. intros H. rewrite PDX_small by lia. change (2^22) with (4096 * 1024). rewrite <- Z.div_div by lia. by rewrite Z.div_mul by lia. Qed.

Lemma PTX_page v : PTX (v * 4096) = v `mod` 1024.
Proof. rewrite PTX_div. by rewrite Z.div_mul by lia. Qed.

(** ** Reading and writing through the kernel's addresses *)

Lemma wpe_kread p i Q E s : 0 <= p * 4096 < PHYSTOP -> 0 <= i < 1024 -> Q (word (mem s) p i) s -> wpe (kread (kva p + 4 * i)) Q E s.
Proof.
  intros Hp Hi HQ. unfold kread. rewrite mapped_word by done. apply wpe_gets.
  by replace (kva p + 4 * i - KERNBASE) with (p * 4096 + 4 * i) by (unfold kva; lia).
Qed.

Lemma wpe_kwrite p i x Q E s : 0 <= p * 4096 < PHYSTOP -> 0 <= i < 1024 ->
  Q tt (mkVm (write32 (mem s) (p * 4096 + 4 * i) x) (freelist s)) -> wpe (kwrite (kva p + 4 * i) x) Q E s.
Proof.
  intros Hp Hi HQ. unfold kwrite. rewrite mapped_word by done.
  replace (kva p + 4 * i - KERNBASE) with (p * 4096 + 4 * i) by (unfold kva; lia). exact HQ.
Qed.

Lemma wpe_kmemset p c Q E s : 0 <= p * 4096 < PHYSTOP ->
  Q tt (mkVm (fill (mem s) (p * 4096) c (Z.to_nat 4096)) (freelist s)) -> wpe (kmemset (kva p) c PGSIZE) Q E s.
Proof.
  intros Hp HQ. unfold kmemset. rewrite mapped_page by done. replace (kva p - KERNBASE) with (p * 4096) by (unfold kva; lia). exact HQ.
Qed.

(** ** Entries *)

Lemma page_flag p f m : 0 <= f < 4096 -> 0 <= m < 4096 -> flag (p * 4096 + f) m = flag f m.
Proof. intros Hf Hm. unfold flag. by rewrite land_page_flags. Qed.

Lemma page_addr p f : 0 <= f < 4096 -> 0 <= p * 4096 + f < 2^32 -> PTE_ADDR (p * 4096 + f) = p * 4096.
Proof. intros Hf Hr. rewrite PTE_ADDR_spec by done. by rewrite PGNUM_flags. Qed.

Section rep.
Context (kend kdata : Z) (LAY : layout_ok kend kdata).

(** Pages kfree accepts. *)
Definition avail (p : Z) : Prop := kend <= kva p /\ p * 4096 < PHYSTOP.

Lemma avail_phys p : avail p -> 0 < p /\ 0 <= p * 4096 < PHYSTOP.
Proof.
  intros [H1 H2]. pose proof (lay_data _ _ LAY). unfold KERNLINK, kva, KERNBASE, EXTMEM in *. lia.
Qed.

Lemma kva_nonzero p : avail p -> (kva p =? 0) = false.
Proof. intros H. apply avail_phys in H. apply Z.eqb_neq. unfold kva, KERNBASE. lia. Qed.

(** ** The free list *)

Fixpoint flist (m : gmap Z Z) (head : Z) (l : list Z) : Prop :=
  match l with
  | [] => head = 0
  | p :: l => head = kva p /\ avail p /\ flist m (word m p 0) l
  end.

Definition free_ok (s : vmst) (l : list Z) : Prop := flist (mem s) (freelist s) l /\ NoDup l.

Lemma flist_avail m h l p : flist m h l -> p ∈ l -> avail p.
Proof. revert h. induction l as [|q l IH]; intros h H Hp; [by apply elem_of_nil in Hp|]. apply elem_of_cons in Hp as [-> | Hp]; [apply H|]. destruct H as (_ & _ & H). by eapply IH. Qed.

Lemma flist_same m m' h l : same_on (fun p => p ∈ l) m m' -> flist m h l -> flist m' h l.
Proof.
  revert h. induction l as [|p l IH]; intros h Hs H; [done|]. destruct H as (-> & Hp & H). split; [done|]. split; [done|].
  rewrite (same_word _ m m' p 0 Hs) by (lia || by left). apply IH; [|done]. eapply same_on_weaken; [exact Hs|]. intros q. by right.
Qed.

Lemma free_same s s' l : free_ok s l -> freelist s' = freelist s -> same_on (fun p => p ∈ l) (mem s) (mem s') -> free_ok s' l.
Proof. intros [H Hn] E Hs. split; [|done]. rewrite E. by eapply flist_same. Qed.

Lemma kalloc_ok s l : free_ok s l ->
  wp kalloc (fun r s' => mem s' = mem s /\
    match l with
    | [] => r = 0 /\ s' = s
    | p :: l => r = kva p /\ avail p /\ p ∉ l /\ free_ok s' l
    end) s.
Proof.
  intros [H Hn]. unfold wp, kalloc. wp_steps. destruct l as [|p l].
  - cbn in H. rewrite H. cbn [Z.eqb]. wp_steps. done.
  - destruct H as (-> & Hp & H). rewrite kva_nonzero by done. apply NoDup_cons in Hn as [Hn Hl]. wp_steps.
    replace (kva p) with (kva p + 4 * 0) at 1 by lia. pose proof (avail_phys p Hp). apply wpe_kread; [lia|lia|].
    wp_steps. unfold set_freelist. wp_steps. done.
Qed.

Lemma kfree_ok s l p : free_ok s l -> avail p -> p ∉ l ->
  wp (kfree kend (kva p)) (fun _ s' => free_ok s' (p :: l) /\ same_on (fun q => q <> p) (mem s) (mem s')) s.
Proof.
  intros Hf Hp Hl. pose proof (avail_phys p Hp) as [H0 Hr]. unfold wp, kfree. rewrite V2P_kva by done.
  assert ((kva p `mod` PGSIZE =? 0) = true) as ->.
  { apply Z.eqb_eq. unfold kva, PGSIZE, KERNBASE. replace (p * 4096 + 0x80000000) with ((p + 0x80000) * 4096) by lia. apply Z.mod_mul. lia. }
  destruct Hp as [Hp1 Hp2]. destruct (Z.ltb_spec (kva p) kend); [lia|]. destruct (Z.leb_spec PHYSTOP (p * 4096)); [lia|]. cbn [negb orb].
  wp_steps. apply wpe_kmemset; [done|]. wp_steps. cbn [freelist]. replace (kva p) with (kva p + 4 * 0) at 1 by lia.
  apply wpe_kwrite; [done|lia|]. cbn [mem freelist]. unfold set_freelist. wp_steps. cbn [mem freelist].
  assert (same_on (fun q => q <> p) (mem s) (write32 (fill (mem s) (p * 4096) 1 (Z.to_nat 4096)) (p * 4096 + 4 * 0) (freelist s))) as Hs.
  { eapply same_on_trans; [apply same_fill|apply same_write; lia|]. intros q Hq. exact (conj Hq Hq). }
  split; [|exact Hs]. destruct Hf as [Hf Hn]. split; [|by apply NoDup_cons]. split; [done|]. split; [done|].
  cbn [mem]. rewrite word_write_eq.
  assert (u32 (freelist s) = freelist s) as ->.
  { apply u32_small. destruct l as [|q l]; cbn in Hf; [lia|]. destruct Hf as (-> & Hq & _). apply avail_phys in Hq. unfold kva, KERNBASE, PHYSTOP in *. lia. }
  eapply flist_same; [|exact Hf]. eapply same_on_weaken; [exact Hs|]. intros q Hq ->. done.
Qed.
(** ** Address spaces *)

Definition UPAGE : Z := 2^19.

Record as_ok (m : gmap Z Z) (d : Z) (T M : gmap Z Z) : Prop := mk_as_ok {
  as_d : avail d;
  as_pde i : 0 <= i < 1024 ->
    match T !! i with
    | Some t => flag (word m d i) PTE_P = true /\ PTE_ADDR (word m d i) = t * 4096 /\ avail t
    | None => flag (word m d i) PTE_P = false
    end;
  as_pte i t j : T !! i = Some t -> 0 <= j < 1024 ->
    match M !! (i * 1024 + j) with
    | Some e => word m t j = e /\ flag e PTE_P = true
    | None => flag (word m t j) PTE_P = false
    end;
  as_T i t : T !! i = Some t -> 0 <= i < 1024 /\ t <> d;
  as_M v e : M !! v = Some e -> 0 <= v < 2^20 /\ is_Some (T !! (v / 1024));
  as_Tinj i j t : T !! i = Some t -> T !! j = Some t -> i = j;
  as_user v e : M !! v = Some e -> v < UPAGE ->
    avail (PGNUM e) /\ PGNUM e <> d /\ (forall i, T !! i <> Some (PGNUM e));
  as_uinj v w e f : M !! v = Some e -> M !! w = Some f -> v < UPAGE -> w < UPAGE -> PGNUM e = PGNUM f -> v = w }.

(** The pages that belong to the address space. *)
Definition frame_of (M : gmap Z Z) (p : Z) : Prop := exists v e, M !! v = Some e /\ v < UPAGE /\ PGNUM e = p.
Definition table_of (d : Z) (T : gmap Z Z) (p : Z) : Prop := p = d \/ exists i, T !! i = Some p.
Definition owned (d : Z) (T M : gmap Z Z) (p : Z) : Prop := table_of d T p \/ frame_of M p.

(** An address space beside the free list. *)
Record vm_ok (s : vmst) (l : list Z) (d : Z) (T M : gmap Z Z) : Prop := mk_vm_ok {
  vm_free : free_ok s l;
  vm_as : as_ok (mem s) d T M;
  vm_disj p : p ∈ l -> ~ owned d T M p }.

(** No page is lost or made up. *)
Definition conserve (l : list Z) (d : Z) (T M : gmap Z Z) (l' : list Z) (T' M' : gmap Z Z) : Prop :=
  forall p, p ∈ l' \/ owned d T' M' p <-> p ∈ l \/ owned d T M p.

Lemma frame_not_table m d T M p : as_ok m d T M -> frame_of M p -> ~ table_of d T p.
Proof.
  intros H (v & e & Hv & Hu & <-) [Hd | (i & Hi)]; destruct (as_user _ _ _ _ H v e Hv Hu) as (_ & H1 & H2); [done|by apply (H2 i)].
Qed.

Lemma as_same m m' d T M : as_ok m d T M -> same_on (table_of d T) m m' -> as_ok m' d T M.
Proof.
  intros H Hs. destruct H. constructor; try done.
  - intros i Hi. rewrite (same_word _ m m' d i Hs) by (done || by left). by apply as_pde0.
  - intros i t j Hi Hj. rewrite (same_word _ m m' t j Hs) by (done || (right; by exists i)). by apply as_pte0.
Qed.

(** A page that is neither free nor in the address space is added as a table. *)
Lemma as_new_table m d T M i p : as_ok m d T M -> 0 <= i < 1024 -> T !! i = None -> avail p -> ~ owned d T M p ->
  let m1 := fill m (p * 4096) 0 (Z.to_nat 4096) in
  let m2 := write32 m1 (d * 4096 + 4 * i) (Z.lor (Z.lor (Z.lor (p * 4096) PTE_P) PTE_W) PTE_U) in
  as_ok m2 d (<[i := p]> T) M /\ same_on (fun q => q <> p /\ q <> d) m m2.
Proof.
  intros H Hi HT Hp Hno m1 m2.
  assert (same_on (fun q => q <> p /\ q <> d) m m2) as Hs.
  { eapply same_on_trans; [apply same_fill|apply same_write; lia|]. done. }
  assert (p <> d) as Hpd by (intros ->; apply Hno; left; by left).
  assert (forall j, T !! j <> Some p) as HpT by (intros j Hj; apply Hno; left; right; by exists j).
  assert (forall e v, M !! v = Some e -> v < UPAGE -> PGNUM e <> p) as HpM by (intros e v Hv Hu <-; apply Hno; right; by exists v, e).
  split; [|done]. destruct (avail_phys p Hp) as [Hp0 Hpr].
  assert (0 <= p * 4096 + 7 < 2^32) as Hr by (unfold PHYSTOP in *; lia).
  assert (Z.lor (Z.lor (Z.lor (p * 4096) PTE_P) PTE_W) PTE_U = p * 4096 + 7) as He.
  { rewrite <- !Z.lor_assoc. change (Z.lor PTE_P (Z.lor PTE_W PTE_U)) with 7. by apply (lor_page_flags p 7). }
  destruct H. constructor; try done.
  - intros j Hj. destruct (decide (j = i)) as [-> | Hji].
    + rewrite lookup_insert_eq. unfold m2. rewrite word_write_eq, He, u32_small by done. split_and!; [| |done].
      * by rewrite page_flag.
      * by apply page_addr.
    + rewrite lookup_insert_ne by done. unfold m2. rewrite word_write_ne, (same_word _ m m1 d j (same_fill m p 0)) by (done || congruence).
      by apply as_pde0.
  - intros j t k Hj Hk. apply lookup_insert_Some in Hj as [[<- <-] | [Hji Hj]].
    + assert (M !! (i * 1024 + k) = None) as ->.
      { destruct (M !! (i * 1024 + k)) as [e|] eqn:E; [|done]. apply as_M0 in E as [_ [t Ht]].
        replace ((i * 1024 + k) / 1024) with i in Ht by (rewrite Z.div_add_l, Z.div_small; lia). congruence. }
      unfold m2, m1. rewrite word_write_ne, word_fill_eq by (done || congruence). done.
    + assert (t <> p) as Htp by (intros ->; by apply (HpT j)). pose proof (as_T0 j t Hj) as [_ Htd].
      rewrite (same_word _ m m2 t k Hs) by done. by apply as_pte0.
  - intros j t Hj. apply lookup_insert_Some in Hj as [[<- <-] | [Hji Hj]]; [done|by apply as_T0].
  - intros v e Hv. destruct (as_M0 v e Hv) as [? [t Ht]]. split; [done|]. destruct (decide (v / 1024 = i)) as [->|]; [rewrite lookup_insert_eq; by eexists|].
    rewrite lookup_insert_ne by done. by eexists.
  - intros j k t Hj Hk. apply lookup_insert_Some in Hj as [[<- <-] | [Hji Hj]]; apply lookup_insert_Some in Hk as [[<- ?] | [Hki Hk]]; try done.
    + by apply HpT in Hk.
    + subst t. by apply HpT in Hj.
    + by eapply as_Tinj0.
  - intros v e Hv Hu. destruct (as_user0 v e Hv Hu) as (H1 & H2 & H3). split_and!; [done..|]. intros j Hj.
    apply lookup_insert_Some in Hj as [[_ E] | [_ Hj]]; [by apply (HpM e v Hv Hu)|by apply (H3 j)].
Qed.
(** Writing the entry of one virtual page. *)
Lemma as_write m d T M M' v t x : as_ok m d T M -> 0 <= v < 2^20 -> T !! (v / 1024) = Some t -> 0 <= x < 2^32 ->
  (forall w, M' !! w = if decide (w = v) then if flag x PTE_P then Some x else None else M !! w) ->
  (flag x PTE_P = true -> v < UPAGE -> avail (PGNUM x) /\ ~ table_of d T (PGNUM x) /\
     forall w f, w <> v -> M !! w = Some f -> w < UPAGE -> PGNUM f <> PGNUM x) ->
  as_ok (write32 m (t * 4096 + 4 * (v `mod` 1024)) x) d T M'.
Proof.
  intros H Hv Ht Hx HM' Hu. pose proof (Z.mod_pos_bound v 1024 ltac:(lia)) as Hj. pose proof (Z.div_mod v 1024 ltac:(lia)) as Hdm.
  set (m' := write32 _ _ _). assert (same_on (fun q => q <> t) m m') as Hs by (apply same_write; lia).
  assert (forall w f, M' !! w = Some f -> (w = v /\ f = x /\ flag x PTE_P = true) \/ (w <> v /\ M !! w = Some f)) as Hcase.
  { intros w f Hw. rewrite HM' in Hw. case_decide; [|by right]. destruct (flag x PTE_P); [left; by simplify_eq|done]. }
  pose proof H as Hold. destruct H. constructor; try done.
  - intros i Hi. destruct (as_T0 _ _ Ht) as [_ Htd]. rewrite (same_word _ m m' d i Hs) by done. by apply as_pde0.
  - intros i t' j Hi Hj'. rewrite HM'. destruct (decide (i = v / 1024 /\ j = v `mod` 1024)) as [[-> ->] | Hne].
    + rewrite decide_True by lia. rewrite Ht in Hi. injection Hi as <-. unfold m'. rewrite word_write_eq, u32_small by done.
      by destruct (flag x PTE_P) eqn:Ef.
    + rewrite decide_False.
      2:{ intros E. apply Hne. split; [|rewrite <- E; rewrite Z.add_comm, Z.mod_add, Z.mod_small; lia].
          rewrite <- E, Z.div_add_l, Z.div_small; lia. }
      unfold m'. rewrite word_write_ne; [by apply as_pte0|lia|lia|]. intros [= -> <-]. apply Hne. split; [|done]. by eapply as_Tinj0.
  - intros w f Hw. destruct (Hcase w f Hw) as [(-> & _) | [_ Hw']]; [by rewrite Ht|by eapply as_M0].
  - intros w f Hw Hlt. destruct (Hcase w f Hw) as [(-> & -> & Hf) | [_ Hw']]; [|by eapply as_user0].
    destruct (Hu Hf Hlt) as (H1 & H2 & _). split_and!; [done| |]; intros; intros E; apply H2; [by left|right; by eexists].
  - intros w1 w2 e f Hw1 Hw2 Hl1 Hl2 E. destruct (Hcase w1 e Hw1) as [(-> & -> & Hf1) | [Hne1 Hw1']]; destruct (Hcase w2 f Hw2) as [(-> & -> & Hf2) | [Hne2 Hw2']].
    + done.
    + by destruct (proj2 (proj2 (Hu Hf1 Hl1)) w2 f Hne2 Hw2' Hl2).
    + by destruct (proj2 (proj2 (Hu Hf2 Hl2)) w1 e Hne1 Hw1' Hl1).
    + by apply (as_uinj0 w1 w2 e f).
Qed.

(** ** walkpgdir *)

Lemma vm_same s s' l d T M : vm_ok s l d T M -> freelist s' = freelist s ->
  same_on (fun p => p ∈ l \/ table_of d T p) (mem s) (mem s') -> vm_ok s' l d T M.
Proof.
  intros [Hf Ha Hd] E Hs. constructor; [|eapply as_same; [exact Ha|]|done].
  - eapply free_same; [exact Hf|done|]. eapply same_on_weaken; [exact Hs|]. by left.
  - eapply same_on_weaken; [exact Hs|]. by right.
Qed.

(** The entry exists: the state stays the same. *)
Lemma walk_found s d T M v t alloc : as_ok (mem s) d T M -> 0 <= v < 2^20 -> T !! (v / 1024) = Some t ->
  walkpgdir (kva d) (v * 4096) alloc s = Ok (kva t + 4 * (v `mod` 1024)) s.
Proof.
  intros H Hv Ht. destruct (as_T _ _ _ _ H _ _ Ht) as [Hi _]. pose proof (as_pde _ _ _ _ H _ Hi) as Hp. rewrite Ht in Hp.
  destruct Hp as (Hf & Ha & Hav). destruct (avail_phys d (as_d _ _ _ _ H)) as [_ Hd]. destruct (avail_phys t Hav) as [_ Htr].
  unfold walkpgdir. rewrite PDX_page, PTX_page by done. unfold bind.
  assert (kread (kva d + 4 * (v / 1024)) s = Ok (word (mem s) d (v / 1024)) s) as ->.
  { unfold kread. rewrite mapped_word by done. unfold gets. do 2 f_equal. unfold word, kva. f_equal. lia. }
  rewrite Hf, Ha, P2V_page by done. done.
Qed.

Lemma walk_none s d T M v : as_ok (mem s) d T M -> 0 <= v < 2^20 -> T !! (v / 1024) = None ->
  walkpgdir (kva d) (v * 4096) false s = Ok 0 s.
Proof.
  intros H Hv Ht. assert (0 <= v / 1024 < 1024) as Hi by (Z.div_mod_to_equations; lia). pose proof (as_pde _ _ _ _ H _ Hi) as Hp. rewrite Ht in Hp.
  destruct (avail_phys d (as_d _ _ _ _ H)) as [_ Hd]. unfold walkpgdir. rewrite PDX_page, PTX_page by done. unfold bind.
  assert (kread (kva d + 4 * (v / 1024)) s = Ok (word (mem s) d (v / 1024)) s) as ->.
  { unfold kread. rewrite mapped_word by done. unfold gets. do 2 f_equal. unfold word, kva. f_equal. lia. }
  by rewrite Hp.
Qed.

(** What a function does that makes tables: it takes pages from the free list and
    writes only free pages, the directory and the tables. *)
Record grow (s : vmst) (l : list Z) (d : Z) (T : gmap Z Z) (s' : vmst) (l' : list Z) (T' : gmap Z Z) : Prop := mk_grow {
  grow_l p : p ∈ l' -> p ∈ l;
  grow_T i t : T !! i = Some t -> T' !! i = Some t;
  grow_tab p : table_of d T' p -> table_of d T p \/ p ∈ l;
  grow_same : same_on (fun p => p ∉ l /\ ~ table_of d T p) (mem s) (mem s') }.

Lemma grow_refl s l d T : grow s l d T s l T.
Proof. constructor; try done. by left. Qed.

Lemma grow_trans s l d T s1 l1 T1 s2 l2 T2 : grow s l d T s1 l1 T1 -> grow s1 l1 d T1 s2 l2 T2 -> grow s l d T s2 l2 T2.
Proof.
  intros [A1 A2 A3 A4] [B1 B2 B3 B4]. constructor.
  - intros p Hp. by apply A1, B1.
  - intros i t Hi. by apply B2, A2.
  - intros p Hp. destruct (B3 p Hp) as [Hp1 | Hp1]; [by apply A3|right; by apply A1].
  - eapply same_on_trans; [exact A4|exact B4|]. intros p [Hp1 Hp2]. split; [done|]. split; [intros Hp; by apply Hp1, A1|].
    intros Hp. by destruct (A3 p Hp).
Qed.

(** With [alloc] it is made, from a free page; if there is none nothing happens. *)
Lemma walk_alloc s l d T M v : vm_ok s l d T M -> 0 <= v < 2^20 ->
  wp (walkpgdir (kva d) (v * 4096) true) (fun r s' =>
    (r = 0 /\ s' = s /\ l = []) \/
    exists l' T' t, r = kva t + 4 * (v `mod` 1024) /\ T' !! (v / 1024) = Some t /\ avail t /\ vm_ok s' l' d T' M /\
      conserve l d T M l' T' M /\ grow s l d T s' l' T') s.
Proof.
  intros Hvm Hv. pose proof Hvm as [Hf Ha Hdj]. destruct (T !! (v / 1024)) as [t|] eqn:Ht.
  { unfold wp, wpe. rewrite (walk_found s d T M v t true Ha Hv Ht). right. exists l, T, t. destruct (as_T _ _ _ _ Ha _ _ Ht) as [Hi _].
    pose proof (as_pde _ _ _ _ Ha _ Hi) as Hp. rewrite Ht in Hp. split_and!; try done; [apply Hp|apply grow_refl]. }
  assert (0 <= v / 1024 < 1024) as Hi by (Z.div_mod_to_equations; lia). pose proof (as_pde _ _ _ _ Ha _ Hi) as Hp. rewrite Ht in Hp.
  destruct (avail_phys d (as_d _ _ _ _ Ha)) as [_ Hd]. unfold wp, walkpgdir. rewrite PDX_page, PTX_page by done.
  apply wpe_bind, wpe_kread; [done..|]. rewrite Hp. cbn [negb]. wp_steps. eapply wp_wpe; [apply (kalloc_ok s l Hf)|].
  intros r s1 [Em Hr]. destruct l as [|p l]; [destruct Hr as [-> ->]; cbn [Z.eqb]; wp_steps; by left|].
  destruct Hr as (-> & Hpa & Hpl & Hf1). rewrite kva_nonzero by done. destruct (avail_phys p Hpa) as [_ Hpr].
  wp_steps. apply wpe_kmemset; [done|]. wp_steps. apply wpe_kwrite; [done..|]. cbn [mem freelist]. rewrite Em, V2P_kva by done. wp_steps.
  assert (~ owned d T M p) as Hno by (apply Hdj; by left).
  destruct (as_new_table (mem s) d T M (v / 1024) p Ha Hi Ht Hpa Hno) as [Hnew Hsame]. right. exists l, (<[v / 1024 := p]> T), p.
  assert (forall q, owned d (<[v / 1024 := p]> T) M q <-> q = p \/ owned d T M q) as Hown.
  { intros q. unfold owned, table_of. split.
    - intros [[-> | (j & Hj)] | Hfr]; [tauto| |tauto]. apply lookup_insert_Some in Hj as [[_ ->] | [_ Hj]]; [by left|]. right. left. right. by exists j.
    - intros [-> | [[-> | (j & Hj)] | Hfr]]; [|tauto| |tauto]; left; right; [exists (v / 1024); apply lookup_insert_eq|].
      exists j. rewrite lookup_insert_ne; [done|]. intros <-. congruence. }
  split_and!; [done|apply lookup_insert_eq|done| | |].
  - constructor; [|done|].
    + eapply free_same; [exact Hf1|done|]. cbn [mem]. rewrite Em. eapply same_on_weaken; [exact Hsame|]. intros q Hq.
      split; [by intros ->|]. intros ->. apply (Hdj d); [by right|]. left. by left.
    + intros q Hq Ho. apply Hown in Ho as [-> | Ho]; [done|]. apply (Hdj q); [by right|done].
  - intros q. rewrite Hown, elem_of_cons. tauto.
  - constructor.
    + intros q Hq. by right.
    + intros j t Hj. rewrite lookup_insert_ne; [done|]. intros <-. congruence.
    + intros q [-> | (j & Hj)]; [left; by left|]. apply lookup_insert_Some in Hj as [[_ <-] | [_ Hj]]; [right; by left|left; right; by exists j].
    + cbn [mem]. eapply same_on_weaken; [exact Hsame|]. intros q [Hq1 Hq2]. split; [intros ->; apply Hq1; by left|]. intros ->. apply Hq2. by left.
Qed.
End rep.
