(* ===== verification/Xv6VmOps.v ===== *)
(** * The operations on address spaces keep the abstract view

    mappages, deallocuvm, freevm, setupkvm, allocuvm, copyuvm and copyout of
    expansion/vm.c against [Xv6VmRep]. *)
From S2P Require Import Prelude Mem Mmu Xv6Vm Xv6VmRep.

Section ops.
Context (kend kdata : Z) (LAY : layout_ok kend kdata).

Notation avail := (avail kend).
Notation free_ok := (free_ok kend).
Notation as_ok := (as_ok kend).
Notation vm_ok := (vm_ok kend).

(** ** mappages *)

Definition entry (pa perm : Z) : Z := Z.lor (Z.lor pa perm) PTE_P.

Lemma entry_page p perm : 0 <= perm < 4096 -> entry (p * 4096) perm = p * 4096 + Z.lor perm PTE_P /\ 0 <= Z.lor perm PTE_P < 4096.
Proof.
  intros Hp. assert (0 <= Z.lor perm PTE_P < 4096) as H by (apply (lor_range perm PTE_P 12); unfold PTE_P; lia).
  split; [|done]. unfold entry. rewrite <- Z.lor_assoc. by apply lor_page_flags.
Qed.

Lemma entry_present p perm : 0 <= perm < 4096 -> flag (entry (p * 4096) perm) PTE_P = true.
Proof.
  intros Hp. destruct (entry_page p perm Hp) as [-> Hr]. rewrite page_flag by (done || unfold PTE_P; lia).
  unfold flag. apply negb_true_iff, Z.eqb_neq. intros E. apply (f_equal (fun x => Z.testbit x 0)) in E.
  rewrite Z.land_spec, Z.lor_spec in E. cbn in E. by rewrite orb_true_r in E.
Qed.

Lemma entry_num p perm : 0 <= perm < 4096 -> PGNUM (entry (p * 4096) perm) = p.
Proof. intros Hp. destruct (entry_page p perm Hp) as [-> Hr]. by apply PGNUM_flags. Qed.

Lemma entry_range p perm : 0 <= perm < 4096 -> 0 <= p < 2^20 -> 0 <= entry (p * 4096) perm < 2^32.
Proof. intros Hp Hr. destruct (entry_page p perm Hp) as [-> Hf]. lia. Qed.

(** The frame of a page that is about to be mapped: neither free nor owned. *)
Definition loose (l : list Z) (d : Z) (T M : gmap Z Z) (p : Z) : Prop := avail p /\ p ∉ l /\ ~ owned d T M p.

Lemma owned_insert d T M v x p : M !! v = None ->
  owned d T (<[v := x]> M) p <-> owned d T M p \/ v < UPAGE /\ p = PGNUM x.
Proof.
  intros Hv. unfold owned, frame_of. split.
  - intros [Ht | (w & e & Hw & Hu & <-)]; [tauto|]. apply lookup_insert_Some in Hw as [[<- <-] | [_ Hw]]; [tauto|]. left. right. by exists w, e.
  - intros [[Ht | (w & e & Hw & Hu & <-)] | [Hu ->]]; [tauto| |].
    + right. exists w, e. split; [|done]. rewrite lookup_insert_ne; [done|]. intros ->. congruence.
    + right. exists v, x. split; [apply lookup_insert_eq|done].
Qed.

(** A round of the loop of mappages. *)
Lemma map_step s l d T M v p perm last : vm_ok s l d T M -> 0 <= v < 2^20 -> 0 <= p < 2^20 -> 0 <= perm < 4096 -> M !! v = None ->
  (v < UPAGE -> loose l d T M p) ->
  wp (mappages_step (kva d) perm last (v * 4096, p * 4096)) (fun r s' =>
    (r = inr (-1) /\ s' = s /\ l = []) \/
    exists l' T', r = (if v * 4096 =? last then inr 0 else inl (u32 (v * 4096 + PGSIZE), u32 (p * 4096 + PGSIZE))) /\
      vm_ok s' l' d T' (<[v := entry (p * 4096) perm]> M) /\ grow s l d T s' l' T' /\
      forall q, q ∈ l' \/ owned d T' M q <-> q ∈ l \/ owned d T M q) s.
Proof.
  intros Hvm Hv Hp Hperm HM Hu. unfold wp, mappages_step. wp_steps.
  eapply wp_wpe; [by apply (walk_alloc kend kdata LAY s l d T M v)|]. intros r s1 [(-> & -> & ->) | (l1 & T1 & t & -> & Ht & Hta & Hvm1 & Hcons & Hg)].
  { cbn [Z.eqb]. wp_steps. by left. }
  destruct (avail_phys _ _ LAY t Hta) as [Ht0 Htr]. pose proof (Z.mod_pos_bound v 1024 ltac:(lia)) as Hj.
  destruct (Z.eqb_spec (kva t + 4 * (v `mod` 1024)) 0); [unfold kva, KERNBASE in *; lia|].
  pose proof Hvm1 as [Hf1 Ha1 Hd1]. wp_steps. apply wpe_kread; [done..|].
  pose proof (as_pte _ _ _ _ _ Ha1 _ t (v `mod` 1024) Ht Hj) as Hpte.
  replace (v / 1024 * 1024 + v `mod` 1024) with v in Hpte by (pose proof (Z.div_mod v 1024); lia). rewrite HM in Hpte. rewrite Hpte.
  wp_steps. apply wpe_kwrite; [done..|]. fold (entry (p * 4096) perm). set (x := entry (p * 4096) perm) in *.
  assert (flag x PTE_P = true) as Hx by (by apply entry_present). assert (PGNUM x = p) as Hnum by (by apply entry_num).
  assert (vm_ok (mkVm (write32 (mem s1) (t * 4096 + 4 * (v `mod` 1024)) x) (freelist s1)) l1 d T1 (<[v := x]> M)) as Hvm2.
  { constructor; cbn [mem].
    - eapply free_same; [exact Hf1|done|]. cbn [mem]. eapply same_on_weaken; [by apply same_write|]. intros q Hq ->.
      apply (Hd1 t Hq). left. right. by eexists.
    - eapply (as_write kend (mem s1) d T1 M); try done; [by apply entry_range| |].
      + intros w. rewrite Hx. case_decide as E; [rewrite E; apply lookup_insert_eq|by apply lookup_insert_ne].
      + intros _ Hlt. rewrite Hnum. destruct (Hu Hlt) as (H1 & H2 & H3). split_and!; [done| |].
        * intros Htab. destruct (grow_tab _ _ _ _ _ _ _ Hg p Htab); [|done]. apply H3. by left.
        * intros w f _ Hw Hlw <-. apply H3. right. by exists w, f.
    - intros q Hq Ho. apply owned_insert in Ho as [Ho | [Hlt ->]]; [by apply (Hd1 q)| |done]. rewrite Hnum in Hq.
      destruct (Hu Hlt) as (_ & H2 & _). by apply H2, (grow_l _ _ _ _ _ _ _ Hg). }
  assert (grow s l d T (mkVm (write32 (mem s1) (t * 4096 + 4 * (v `mod` 1024)) x) (freelist s1)) l1 T1) as Hg2.
  { eapply grow_trans; [exact Hg|]. constructor; try done; [by left|]. cbn [mem]. eapply same_on_weaken; [by apply same_write|].
    intros q [_ Hq] ->. apply Hq. right. by eexists. }
  destruct (v * 4096 =? last); wp_steps; right; exists l1, T1; split_and!; try done.
Qed.
(** The state a function leaves: another view of the same pages. *)
Definition leaves (s : vmst) (l : list Z) (d : Z) (T M : gmap Z Z) (s' : vmst) (l' : list Z) (T' M' : gmap Z Z) : Prop :=
  vm_ok s' l' d T' M' /\ grow s l d T s' l' T' /\ conserve l d T M l' T' M'.

Lemma leaves_refl s l d T M : vm_ok s l d T M -> leaves s l d T M s l T M.
Proof. intros H. split; [done|]. split; [apply grow_refl|by intros p]. Qed.

Lemma leaves_trans s l d T M s1 l1 T1 M1 s2 l2 T2 M2 :
  leaves s l d T M s1 l1 T1 M1 -> leaves s1 l1 d T1 M1 s2 l2 T2 M2 -> leaves s l d T M s2 l2 T2 M2.
Proof.
  intros (_ & G1 & C1) (H2 & G2 & C2). split; [done|]. split; [by eapply grow_trans|]. intros p. by rewrite (C2 p), (C1 p).
Qed.

(** One page of the user half. *)
Lemma mappages_user s l d T M v p perm : vm_ok s l d T M -> 0 <= v < UPAGE -> 0 <= p < 2^20 -> 0 <= perm < 4096 -> M !! v = None ->
  loose l d T M p ->
  wp (mappages (kva d) (v * 4096) PGSIZE (p * 4096) perm) (fun r s' =>
    (r = -1 /\ s' = s /\ l = []) \/
    exists l' T', r = 0 /\ vm_ok s' l' d T' (<[v := entry (p * 4096) perm]> M) /\ grow s l d T s' l' T' /\ conserve l d T M l' T' M) s.
Proof.
  intros Hvm Hv Hp Hperm HM Hl. unfold UPAGE in Hv. unfold wp, mappages, PGSIZE.
  rewrite (rounddown_page (v * 4096)), Z.div_mul by lia. rewrite u32_small, rounddown_page by lia.
  replace ((v * 4096 + 4096 - 1) / 4096) with v by (Z.div_mod_to_equations; lia).
  rewrite Nat.add_1_r. cbn [loop]. apply wpe_bind. eapply wp_wpe; [apply (map_step s l d T M v p perm (v * 4096)); try done; lia|].
  intros r s' [(-> & -> & ->) | (l' & T' & -> & H)]; [wp_steps; by left|]. rewrite Z.eqb_refl. wp_steps. right. by exists l', T'.
Qed.

(** A range of pages of the kernel half. *)
Lemma map_kernel n : forall fuel s l d T M v p perm, vm_ok s l d T M -> UPAGE <= v -> v + Z.of_nat (S n) <= 2^20 ->
  0 <= p -> p + Z.of_nat (S n) <= 2^20 -> 0 <= perm < 4096 -> (forall k, v <= k < v + Z.of_nat (S n) -> M !! k = None) -> (n < fuel)%nat ->
  wp (loop fuel (mappages_step (kva d) perm ((v + Z.of_nat n) * 4096)) (v * 4096, p * 4096)) (fun r s' =>
    exists l' T' M', leaves s l d T M s' l' T' M' /\ (forall k, ~ (v <= k < v + Z.of_nat (S n)) -> M' !! k = M !! k) /\
      (r = -1 /\ l' = [] \/ r = 0 /\ forall k, v <= k < v + Z.of_nat (S n) -> M' !! k = Some (entry ((p + (k - v)) * 4096) perm))) s.
Proof.
  induction n as [|n IH]; intros fuel s l d T M v p perm Hvm Hv Hvn Hp Hpn Hperm HM Hfuel; (destruct fuel as [|fuel]; [lia|]);
    cbn [loop]; apply wpe_bind; unfold UPAGE in *.
  all: eapply wp_wpe; [apply (map_step s l d T M v p perm _ Hvm); [lia|lia|done|apply HM; lia|unfold UPAGE; lia]|].
  all: intros r s1 [(-> & -> & ->) | (l1 & T1 & -> & Hvm1 & Hg & Hc)]; [wp_steps; exists [], T, M; split; [by apply leaves_refl|]; split; [done|by left]|].
  all: assert (leaves s l d T M s1 l1 T1 (<[v := entry (p * 4096) perm]> M)) as Hlv
    by (split; [done|]; split; [done|]; intros q; rewrite owned_insert by (apply HM; lia); rewrite <- (Hc q); unfold UPAGE; intuition lia).
  - replace (v + Z.of_nat 0) with v by lia. rewrite Z.eqb_refl. wp_steps. exists l1, T1, (<[v := entry (p * 4096) perm]> M).
    split; [done|]. split; [intros k Hk; apply lookup_insert_ne; lia|]. right. split; [done|]. intros k Hk.
    replace k with v by lia. rewrite lookup_insert_eq. do 3 f_equal. lia.
  - destruct (Z.eqb_spec (v * 4096) ((v + Z.of_nat (S n)) * 4096)); [lia|]. unfold PGSIZE. rewrite !u32_small by lia.
    replace (v * 4096 + 4096) with ((v + 1) * 4096) by lia. replace (p * 4096 + 4096) with ((p + 1) * 4096) by lia.
    replace (v + Z.of_nat (S n)) with (v + 1 + Z.of_nat n) by lia.
    eapply wp_wpe; [apply (IH fuel s1 l1 d T1 (<[v := entry (p * 4096) perm]> M) (v + 1) (p + 1) perm Hvm1); try lia|].
    { intros k Hk. rewrite lookup_insert_ne by lia. apply HM. lia. }
    intros r s2 (l2 & T2 & M2 & Hlv2 & Hout & Hr). exists l2, T2, M2. split; [by eapply leaves_trans|].
    assert (M2 !! v = Some (entry (p * 4096) perm)) as Ev by (rewrite Hout by lia; apply lookup_insert_eq).
    split; [intros k Hk; rewrite Hout by lia; apply lookup_insert_ne; lia|]. destruct Hr as [Hr | [-> Hr]]; [by left|]. right. split; [done|].
    intros k Hk. destruct (decide (k = v)) as [-> | Hne]; [rewrite Ev; do 3 f_equal; lia|]. rewrite Hr by lia. do 3 f_equal. lia.
Qed.

Lemma mappages_kernel s l d T M v p n perm : vm_ok s l d T M -> UPAGE <= v -> 0 < n -> v + n <= 2^20 ->
  0 <= p -> p + n <= 2^20 -> 0 <= perm < 4096 -> (forall k, v <= k < v + n -> M !! k = None) ->
  wp (mappages (kva d) (v * 4096) (n * 4096) (p * 4096) perm) (fun r s' =>
    exists l' T' M', leaves s l d T M s' l' T' M' /\ (forall k, ~ (v <= k < v + n) -> M' !! k = M !! k) /\
      (r = -1 /\ l' = [] \/ r = 0 /\ forall k, v <= k < v + n -> M' !! k = Some (entry ((p + (k - v)) * 4096) perm))) s.
Proof.
  intros Hvm Hv Hn Hvn Hp Hpn Hperm HM. unfold UPAGE in *. unfold wp, mappages, PGSIZE.
  rewrite (rounddown_page (v * 4096)), Z.div_mul by lia. assert (PGROUNDDOWN (u32 (v * 4096 + n * 4096 - 1)) = (v + Z.of_nat (Z.to_nat (n - 1))) * 4096) as ->.
  { rewrite u32_small, rounddown_page by lia. rewrite Z2Nat.id by lia. f_equal. symmetry. apply (Z.div_unique_pos _ _ _ 4095); lia. }
  rewrite Z.div_mul by lia.
  pose proof (map_kernel (Z.to_nat (n - 1)) (Z.to_nat (v + Z.of_nat (Z.to_nat (n - 1))) + 1) s l d T M v p perm) as H.
  replace (Z.of_nat (S (Z.to_nat (n - 1)))) with n in H by lia. apply H; try done; unfold UPAGE; lia.
Qed.
(** ** deallocuvm *)

(** The number of pages that hold [sz] bytes. *)
Definition pgup (sz : Z) : Z := (sz + 4095) / 4096.

Lemma owned_delete m d T M v e p : as_ok m d T M -> M !! v = Some e -> v < UPAGE ->
  owned d T (delete v M) p <-> owned d T M p /\ p <> PGNUM e.
Proof.
  intros H Hv Hu. destruct (as_user _ _ _ _ _ H v e Hv Hu) as (_ & H1 & H2). unfold owned. split.
  - intros [Ht | (w & f & Hw & Hwu & <-)].
    + split; [by left|]. intros ->. destruct Ht as [E | (i & Hi)]; [done|by apply (H2 i)].
    + apply lookup_delete_Some in Hw as [Hne Hw]. split; [right; by exists w, f|]. intros E. apply Hne. symmetry. by apply (as_uinj _ _ _ _ _ H w v f e).
  - intros [[Ht | (w & f & Hw & Hwu & <-)] Hp]; [by left|]. right. exists w, f. split; [|done]. apply lookup_delete_Some. split; [|done].
    intros ->. congruence.
Qed.

(** Giving back one page. *)
Lemma unmap_one s l d T M v e t : vm_ok s l d T M -> 0 <= v < UPAGE -> T !! (v / 1024) = Some t -> M !! v = Some e ->
  wp (kfree kend (kva (PGNUM e)) ;;; kwrite (kva t + 4 * (v `mod` 1024)) 0) (fun _ s' =>
    vm_ok s' (PGNUM e :: l) d T (delete v M) /\
    same_on (fun p => p <> PGNUM e /\ ~ table_of d T p) (mem s) (mem s')) s.
Proof.
  intros Hvm Hv Ht He. pose proof Hvm as [Hf Ha Hdj]. unfold UPAGE in Hv. destruct (as_user _ _ _ _ _ Ha v e He) as (Hav & Hnd & HnT); [unfold UPAGE; lia|].
  destruct (as_T _ _ _ _ _ Ha _ _ Ht) as [Hi _]. pose proof (as_pde _ _ _ _ _ Ha _ Hi) as Hpde. rewrite Ht in Hpde. destruct Hpde as (_ & _ & Hta).
  destruct (avail_phys _ _ LAY t Hta) as [_ Htr]. pose proof (Z.mod_pos_bound v 1024 ltac:(lia)) as Hj.
  assert (PGNUM e ∉ l) as Hnl by (intros Hin; apply (Hdj _ Hin); right; exists v, e; split; [done|]; split; [unfold UPAGE; lia|done]).
  unfold wp. wp_steps. eapply wp_wpe; [by apply (kfree_ok kend kdata LAY s l (PGNUM e))|]. intros _ s1 [Hf1 Hs1].
  wp_steps. apply wpe_kwrite; [done..|].
  assert (as_ok (mem s1) d T M) as Ha1.
  { eapply as_same; [exact Ha|]. eapply same_on_weaken; [exact Hs1|]. intros q Hq ->. destruct Hq as [E | (j & Hq)]; [done|by apply (HnT j)]. }
  assert (forall q, owned d T (delete v M) q <-> owned d T M q /\ q <> PGNUM e) as Hown by (intros q; apply (owned_delete (mem s)); [done..|unfold UPAGE; lia]).
  split.
  - constructor; cbn [mem].
    + eapply free_same; [exact Hf1|done|]. cbn [mem]. eapply same_on_weaken; [by apply same_write|]. intros q Hq ->.
      apply elem_of_cons in Hq as [-> | Hq]; [by apply (HnT (v / 1024))|]. apply (Hdj t Hq). left. right. by eexists.
    + eapply (as_write kend (mem s1) d T M); try done; [lia|]. intros w. case_decide as E; [rewrite E; apply lookup_delete_eq|by apply lookup_delete_ne].
    + intros q Hq Ho. apply Hown in Ho as [Ho Hne]. apply elem_of_cons in Hq as [-> | Hq]; [done|]. by apply (Hdj q).
  - cbn [mem]. eapply same_on_trans; [exact Hs1|by apply same_write|]. intros q [Hq1 Hq2]. split; [done|]. intros ->. apply Hq2. right. by eexists.
Qed.

(** What deallocuvm leaves. *)
Definition unmapped (s : vmst) (l : list Z) (d : Z) (T M : gmap Z Z) (v v1 : Z) (s' : vmst) : Prop :=
  exists l' M', vm_ok s' l' d T M' /\ conserve l d T M l' T M' /\
    (forall w, M' !! w = if decide (v <= w < v1) then None else M !! w) /\
    (forall p, p ∈ l -> p ∈ l') /\ same_on (fun p => p ∉ l' /\ ~ table_of d T p) (mem s) (mem s').

Lemma dealloc_loop n : forall fuel s l d T M v oldsz, vm_ok s l d T M -> 0 <= v -> 0 <= oldsz <= KERNBASE ->
  (Z.to_nat (pgup oldsz - v) <= n)%nat -> (n < fuel)%nat ->
  wp (loop fuel (deallocuvm_step kend (kva d) oldsz) (v * 4096)) (fun _ s' => unmapped s l d T M v (pgup oldsz) s') s.
Proof.
  unfold KERNBASE. induction n as [|n IH]; intros fuel s l d T M v oldsz Hvm Hv Hsz Hn Hfuel; (destruct fuel as [|fuel]; [lia|]);
    assert (pgup oldsz <= 2^19) as Hup by (unfold pgup; Z.div_mod_to_equations; lia); cbn [loop]; apply wpe_bind; unfold deallocuvm_step.
  all: assert (v * 4096 < oldsz <-> v < pgup oldsz) as Hiff by (unfold pgup; Z.div_mod_to_equations; lia).
  all: destruct (Z.ltb_spec (v * 4096) oldsz) as [Hlt | Hge];
    [|wp_steps; exists l, M; split_and!; try done; intros w; case_decide; [lia|done]].
  1:{ exfalso. lia. }
  pose proof (vm_as _ _ _ _ _ _ Hvm) as Ha. assert (0 <= v < 2^20) as Hv20 by lia.
  destruct (T !! (v / 1024)) as [t|] eqn:Ht.
  - destruct (as_T _ _ _ _ _ Ha _ _ Ht) as [Hi _]. pose proof (as_pde _ _ _ _ _ Ha _ Hi) as Hpde. rewrite Ht in Hpde. destruct Hpde as (_ & _ & Hta).
    destruct (avail_phys _ _ LAY t Hta) as [Ht0 Htr]. pose proof (Z.mod_pos_bound v 1024 ltac:(lia)) as Hj.
    wp_steps. unfold wpe at 1. rewrite (walk_found kend kdata LAY s d T M v t false Ha Hv20 Ht).
    destruct (Z.eqb_spec (kva t + 4 * (v `mod` 1024)) 0); [unfold kva, KERNBASE in *; lia|]. wp_steps. apply wpe_kread; [done..|].
    pose proof (as_pte _ _ _ _ _ Ha _ t (v `mod` 1024) Ht Hj) as Hpte.
    replace (v / 1024 * 1024 + v `mod` 1024) with v in Hpte by (pose proof (Z.div_mod v 1024); lia).
    replace (u32 (v * 4096 + PGSIZE)) with ((v + 1) * 4096) by (unfold PGSIZE; rewrite u32_small; lia).
    destruct (M !! v) as [e|] eqn:EM.
    + destruct Hpte as [He Hfl]. pose proof (word_range (mem s) t (v `mod` 1024)) as Hr. rewrite He in *. rewrite Hfl.
      rewrite PTE_ADDR_spec by done. assert (v < UPAGE) as Hu by (unfold UPAGE; lia). destruct (as_user _ _ _ _ _ Ha v e EM Hu) as (Hav & _ & _).
      destruct (avail_phys _ _ LAY _ Hav) as [Hp0 Hpr]. rewrite P2V_page by done. destruct (Z.eqb_spec (PGNUM e * 4096) 0); [lia|].
      wp_steps. apply wpe_bind_inv. eapply wp_wpe; [apply (unmap_one s l d T M v e t Hvm); try done; unfold UPAGE; lia|].
      intros _ s1 [Hvm1 Hs1]. wp_steps.
      eapply wp_wpe; [apply (IH fuel s1 _ d T (delete v M) (v + 1) oldsz Hvm1); unfold KERNBASE; lia|].
      intros _ s2 (l2 & M2 & Hvm2 & Hc2 & HM2 & Hl2 & Hs2). exists l2, M2. split_and!; [done| | | |].
      * intros p. rewrite (Hc2 p), elem_of_cons, (owned_delete _ d T M v e p Ha EM Hu). split; [|destruct (decide (p = PGNUM e)); tauto].
        intros [[-> | ?] | ?]; [right; right; by exists v, e|tauto..].
      * intros w. rewrite HM2. repeat case_decide; try lia; try done; [|apply lookup_delete_ne; lia].
        destruct (decide (w = v)) as [-> |]; [by rewrite lookup_delete_eq|lia].
      * intros p Hp. apply Hl2. by right.
      * eapply same_on_trans; [exact Hs1|exact Hs2|]. intros p [Hp1 Hp2]. split; [|done]. split; [|done]. intros ->. apply Hp1, Hl2. by left.
    + rewrite Hpte. wp_steps. eapply wp_wpe; [apply (IH fuel s l d T M (v + 1) oldsz Hvm); unfold KERNBASE; lia|].
      intros _ s2 (l2 & M2 & Hvm2 & Hc2 & HM2 & Hl2 & Hs2). exists l2, M2. split_and!; try done.
      intros w. rewrite HM2. repeat case_decide; try lia; try done. by replace w with v by lia.
  - wp_steps. unfold wpe at 1. rewrite (walk_none kend kdata LAY s d T M v Ha Hv20 Ht). cbn [Z.eqb]. wp_steps.
    set (v' := (v / 1024 + 1) * 1024). assert (v < v' <= 2^19 + 1024 /\ forall w, v <= w < v' -> w / 1024 = v / 1024) as [Hv' Hdiv].
    { unfold v'. split; [Z.div_mod_to_equations; lia|]. intros w Hw. Z.div_mod_to_equations; lia. }
    replace (u32 (u32 (PGADDR (PDX (v * 4096) + 1) 0 0 - PGSIZE) + PGSIZE)) with (v' * 4096).
    2:{ rewrite PDX_page by done. unfold PGADDR, PDXSHIFT, PTXSHIFT, PGSIZE. rewrite Z.shiftl_0_l, !Z.lor_0_r, Z.shiftl_mul_pow2 by lia.
        unfold v' in *. rewrite (u32_small ((v / 1024 + 1) * 2^22)) by (Z.div_mod_to_equations; lia).
        rewrite (u32_small ((v / 1024 + 1) * 2^22 - 4096)) by (Z.div_mod_to_equations; lia). rewrite u32_small by (Z.div_mod_to_equations; lia). lia. }
    eapply wp_wpe; [apply (IH fuel s l d T M v' oldsz Hvm); unfold KERNBASE; lia|].
    intros _ s2 (l2 & M2 & Hvm2 & Hc2 & HM2 & Hl2 & Hs2). exists l2, M2. split_and!; try done.
    intros w. rewrite HM2. repeat case_decide; try lia; try done.
    destruct (M !! w) as [e|] eqn:E; [|done]. destruct (as_M _ _ _ _ _ Ha w e E) as [_ [t E2]]. rewrite Hdiv in E2 by lia. congruence.
Qed.

Lemma deallocuvm_ok s l d T M oldsz newsz : vm_ok s l d T M -> 0 <= newsz < 2^32 - 4095 -> 0 <= oldsz <= KERNBASE ->
  wp (deallocuvm kend (kva d) oldsz newsz) (fun r s' => r = Z.min oldsz newsz /\ unmapped s l d T M (pgup newsz) (pgup oldsz) s') s.
Proof.
  intros Hvm Hn Ho. unfold wp, deallocuvm. destruct (Z.leb_spec oldsz newsz).
  - wp_steps. split; [lia|]. exists l, M. split_and!; try done. intros w. case_decide; [|done].
    assert (pgup oldsz <= pgup newsz) by (apply Z.div_le_mono; lia). lia.
  - wp_steps. rewrite roundup_page by done. fold (pgup newsz).
    eapply wp_wpe; [apply (dealloc_loop (Z.to_nat (pgup oldsz - pgup newsz)) _ s l d T M (pgup newsz) oldsz Hvm)|].
    + unfold pgup. Z.div_mod_to_equations; lia.
    + done.
    + lia.
    + unfold pgup, PGSIZE. Z.div_mod_to_equations; lia.
    + intros u s' Hs. wp_steps. split; [lia|done].
Qed.
(** ** freevm *)

(** The loop over the directory, with the tables below [i] given back. *)
Definition tables_freed (s1 : vmst) (l1 : list Z) (T : gmap Z Z) (i : Z) (s : vmst) : Prop :=
  exists l, free_ok s l /\ (forall p, p ∈ l <-> p ∈ l1 \/ exists j, 0 <= j < i /\ T !! j = Some p) /\
    same_on (fun p => p ∉ l1 /\ forall j, T !! j <> Some p) (mem s1) (mem s).

Lemma free_table s1 l1 d T M i s : vm_ok s1 l1 d T M -> 0 <= i < 1024 -> tables_freed s1 l1 T i s ->
  wp (let! e := kread (kva d + 4 * i) in
      if flag e PTE_P then kfree kend (P2V (PTE_ADDR e)) else ret tt) (fun _ s' => tables_freed s1 l1 T (i + 1) s') s.
Proof.
  intros [Hf Ha Hdj] Hi (l & Hfl & Hl & Hs). destruct (avail_phys _ _ LAY d (as_d _ _ _ _ _ Ha)) as [_ Hd].
  unfold wp. wp_steps. apply wpe_kread; [done..|].
  assert (word (mem s) d i = word (mem s1) d i) as ->.
  { apply (same_word _ _ _ d i Hs); [|done]. split; [intros Hin; apply (Hdj d Hin); left; by left|]. intros j Hj. by destruct (as_T _ _ _ _ _ Ha j d Hj). }
  pose proof (as_pde _ _ _ _ _ Ha i Hi) as Hpde. destruct (T !! i) as [t|] eqn:Ht.
  - destruct Hpde as (-> & -> & Hta). destruct (avail_phys _ _ LAY t Hta) as [_ Htr]. rewrite P2V_page by done.
    assert (t ∉ l) as Htl.
    { rewrite Hl. intros [Hin | (j & Hj & Hjt)]; [apply (Hdj t Hin); left; right; by eexists|]. rewrite (as_Tinj _ _ _ _ _ Ha j i t Hjt Ht) in Hj. lia. }
    eapply wp_wpe; [by apply (kfree_ok kend kdata LAY s l t)|]. intros _ s' [Hf' Hs']. exists (t :: l). split_and!; [done| |].
    + intros p. rewrite elem_of_cons, Hl. split.
      * intros [-> | [Hin | (j & Hj & Hjt)]]; [right; exists i; split; [lia|done]|by left|right; exists j; split; [lia|done]].
      * intros [Hin | (j & Hj & Hjt)]; [tauto|]. destruct (decide (j = i)) as [-> |]; [left; congruence|]. right. right. exists j. split; [lia|done].
    + eapply same_on_trans; [exact Hs|exact Hs'|]. intros p [Hp1 Hp2]. split; [done|]. intros ->. by apply (Hp2 i).
  - rewrite Hpde. wp_steps. exists l. split_and!; [done| |done]. intros p. rewrite Hl. split.
    + intros [Hin | (j & Hj & Hjt)]; [by left|]. right. exists j. split; [lia|done].
    + intros [Hin | (j & Hj & Hjt)]; [by left|]. right. exists j. split; [|done]. destruct (decide (j = i)) as [-> |]; [congruence|lia].
Qed.

Lemma freevm_ok s l d T M : vm_ok s l d T M ->
  wp (freevm kend (kva d)) (fun _ s' => exists l', free_ok s' l' /\ (forall p, p ∈ l' <-> p ∈ l \/ owned d T M p) /\
    same_on (fun p => p ∉ l /\ ~ owned d T M p) (mem s) (mem s')) s.
Proof.
  intros Hvm. pose proof (vm_as _ _ _ _ _ _ Hvm) as Ha. pose proof (as_d _ _ _ _ _ Ha) as Hd. unfold wp, freevm. rewrite (kva_nonzero _ _ LAY) by done. wp_steps.
  eapply wp_wpe; [apply (deallocuvm_ok s l d T M KERNBASE 0 Hvm); unfold KERNBASE; lia|].
  intros r s1 (_ & l1 & M1 & Hvm1 & Hc1 & HM1 & Hl1 & Hs1). wp_steps.
  assert (forall p, ~ frame_of M1 p) as Hnof.
  { intros p (v & e & Hv & Hu & _). destruct (as_M _ _ _ _ _ (vm_as _ _ _ _ _ _ Hvm1) v e Hv) as [Hr _]. rewrite HM1 in Hv.
    case_decide as H; [done|]. apply H. change (pgup 0) with 0. change (pgup KERNBASE) with (2^19). unfold UPAGE in Hu. lia. }
  assert (forall p, p ∈ l1 \/ table_of d T p <-> p ∈ l \/ owned d T M p) as Hall by (intros p; rewrite <- (Hc1 p); unfold owned; specialize (Hnof p); tauto).
  change NPDENTRIES with 1024. eapply wp_wpe; [apply (wp_for_seq _ (tables_freed s1 l1 T) 1024)|].
  - lia.
  - exists l1. split_and!; [apply (vm_free _ _ _ _ _ _ Hvm1)| |done]. intros p. split; [by left|]. intros [? | (j & ? & _)]; [done|lia].
  - intros i s' Hi HI. by apply (free_table s1 l1 d T M1 i s').
  - intros _ s2 (l2 & Hf2 & Hl2 & Hs2). wp_steps.
    assert (forall p, p ∈ l2 <-> p ∈ l1 \/ exists j, T !! j = Some p) as Hl2'.
    { intros p. rewrite Hl2. split; intros [? | (j & Hj)]; try tauto; right; exists j; [tauto|]. destruct (as_T _ _ _ _ _ Ha j p Hj) as [? _]. done. }
    assert (d ∉ l2) as Hd2.
    { rewrite Hl2'. intros [Hin | (j & Hj)]; [apply (vm_disj _ _ _ _ _ _ Hvm1 d Hin); left; by left|]. by destruct (as_T _ _ _ _ _ Ha j d Hj). }
    eapply wp_wpe; [by apply (kfree_ok kend kdata LAY s2 l2 d)|]. intros _ s3 [Hf3 Hs3]. exists (d :: l2). split_and!; [done| |].
    + intros p. rewrite elem_of_cons, Hl2', <- (Hall p). unfold table_of. tauto.
    + eapply (same_on_trans (fun p => p ∉ l /\ ~ owned d T M p)); [|eapply same_on_trans; [exact Hs2|exact Hs3|]; intros p Hp; exact Hp|].
      * eapply same_on_weaken; [exact Hs1|]. intros p Hp. assert (~ (p ∈ l1 \/ table_of d T p)) by (rewrite (Hall p); tauto). tauto.
      * intros p Hp. split; [done|]. assert (~ (p ∈ l1 \/ table_of d T p)) as Hn by (rewrite (Hall p); tauto). unfold table_of in Hn. split; [split; [tauto|]|tauto].
        intros j Hj. apply Hn. right. right. by exists j.
Qed.
(** ** setupkvm *)

(** The kernel half of every address space. *)
Definition kern_entry (v : Z) : option Z :=
  if decide (2^19 <= v < 2^19 + 256) then Some (entry ((v - 2^19) * 4096) PTE_W)
  else if decide (2^19 + 256 <= v < kdata / 4096) then Some (entry ((v - 2^19) * 4096) 0)
  else if decide (kdata / 4096 <= v < 2^19 + 57344) then Some (entry ((v - 2^19) * 4096) PTE_W)
  else if decide (DEVSPACE / 4096 <= v < 2^20) then Some (entry (v * 4096) PTE_W)
  else None.

(** A new address space [d] made from the free list [l], with the entries [M]. *)
Definition fresh_as (s : vmst) (l : list Z) (d : Z) (M : gmap Z Z) (s' : vmst) : Prop :=
  exists l' T, vm_ok s' l' d T M /\ (forall p, p ∈ l <-> p ∈ l' \/ owned d T M p) /\ same_on (fun p => p ∉ l) (mem s) (mem s').

(** A new address space has at most a directory, 1024 tables and its frames. *)
Lemma owned_bound m d T M n l : as_ok m d T M -> 0 <= n -> (forall v e, M !! v = Some e -> v < UPAGE -> v < n) -> NoDup l ->
  (forall p, p ∈ l -> owned d T M p) -> Z.of_nat (length l) <= 1025 + n.
Proof.
  intros Ha Hn HM Hnd Hl.
  set (c := d :: ((fun i => default 0 (T !! i)) <$> seqZ 0 1024) ++ ((fun v => PGNUM (default 0 (M !! v))) <$> seqZ 0 n)).
  assert (length l <= length c)%nat as Hlen.
  { apply NoDup_incl_length; [by apply NoDup_ListNoDup|]. intros p Hp. apply list_elem_of_In in Hp. apply list_elem_of_In.
    unfold c. rewrite elem_of_cons, elem_of_app. destruct (Hl p Hp) as [[-> | (i & Hi)] | (v & e & Hv & Hu & <-)]; [by left| |].
    - right. left. apply list_elem_of_fmap. exists i. rewrite Hi. split; [done|]. apply elem_of_seqZ. destruct (as_T _ _ _ _ _ Ha i p Hi). lia.
    - right. right. apply list_elem_of_fmap. exists v. rewrite Hv. split; [done|]. apply elem_of_seqZ. specialize (HM v e Hv Hu).
      destruct (as_M _ _ _ _ _ Ha v e Hv). lia. }
  unfold c in Hlen. cbn [length] in Hlen. rewrite length_app, !length_fmap, !length_seqZ in Hlen. lia.
Qed.

(** Nothing allocated: the free list has the same pages and no other page changed. *)
Definition given_back (s : vmst) (l : list Z) (s' : vmst) : Prop :=
  exists l', free_ok s' l' /\ (forall p, p ∈ l' <-> p ∈ l) /\ same_on (fun p => p ∉ l) (mem s) (mem s').

Lemma fresh_free s l d M s1 : fresh_as s l d M s1 -> wp (freevm kend (kva d)) (fun _ s' => given_back s l s') s1.
Proof.
  intros (l1 & T & Hvm & Hl & Hs). eapply wp_mono; [apply (freevm_ok s1 l1 d T M Hvm)|]. intros _ s' (l' & Hf & Hl' & Hs').
  exists l'. split_and!; [done|intros p; by rewrite Hl', Hl|]. eapply same_on_trans; [exact Hs|exact Hs'|]. intros p Hp. split; [done|]. rewrite Hl in Hp. tauto.
Qed.

(** A range of the kernel half; if memory runs out everything is given back. *)
Lemma map_all_step s l d M s1 v p n perm phys_end ks Q : free_ok s l -> (forall v, v < UPAGE -> M !! v = None) -> fresh_as s l d M s1 -> UPAGE <= v -> 0 < n -> v + n <= 2^20 -> 0 <= p -> p + n <= 2^20 ->
  0 <= perm < 4096 -> u32 (phys_end - p * 4096) = n * 4096 -> (forall k, v <= k < v + n -> M !! k = None) ->
  (forall s', given_back s l s' -> Z.of_nat (length l) <= 1025 -> Q 0 s') ->
  (forall s' M', fresh_as s l d M' s' -> (forall v, v < UPAGE -> M' !! v = None) -> (forall k, M' !! k = if decide (v <= k < v + n) then Some (entry ((p + (k - v)) * 4096) perm) else M !! k) ->
     wp (map_all kend (kva d) ks) Q s') ->
  wp (map_all kend (kva d) ((v * 4096, p * 4096, phys_end, perm) :: ks)) Q s1.
Proof.
  intros Hf HU (l1 & T & Hvm & Hl & Hs) Hv Hn Hvn Hp Hpn Hperm Hsz HM Hfail Hok. cbn [map_all]. rewrite Hsz. unfold wp. wp_steps.
  eapply wp_wpe; [by apply (mappages_kernel s1 l1 d T M v p n perm)|]. intros r s2 (l2 & T2 & M2 & (Hvm2 & Hg & Hc) & Hout & Hr).
  assert (fresh_as s l d M2 s2) as Hfr.
  { exists l2, T2. split_and!; [done|intros q; by rewrite Hl, (Hc q)|]. eapply same_on_trans; [exact Hs|apply (grow_same _ _ _ _ _ _ _ Hg)|].
    intros q Hq. split; [done|]. rewrite Hl in Hq. unfold owned in Hq. tauto. }
  assert (forall v, v < UPAGE -> M2 !! v = None) as HU2 by (intros w Hw; rewrite Hout by lia; by apply HU).
  destruct Hr as [[-> ->] | [-> Hr]]; cbn [Z.ltb Z.compare].
  - wp_steps. eapply wp_wpe; [by apply (fresh_free s l d M2)|]. intros u s3 Hs3. wp_steps. apply Hfail; [done|].
    apply (owned_bound (mem s2) d T2 M2 0 l (vm_as _ _ _ _ _ _ Hvm2)); [lia| |apply Hf|].
    + intros w e Hw Hu. rewrite HU2 in Hw; done.
    + intros q Hq. rewrite Hl, <- (Hc q) in Hq. destruct Hq as [Hq | Hq]; [by apply elem_of_nil in Hq|done].
  - apply (Hok s2 M2 Hfr HU2). intros k. case_decide; [by apply Hr|by apply Hout].
Qed.

Lemma as_empty m d : avail d -> as_ok (fill m (d * 4096) 0 (Z.to_nat 4096)) d ∅ ∅.
Proof. intros Hd. constructor; try done. intros i Hi. by rewrite lookup_empty, word_fill_eq. Qed.

Lemma setupkvm_ok s l : free_ok s l ->
  wp (setupkvm kend kdata) (fun r s' => (r = 0 /\ given_back s l s' /\ Z.of_nat (length l) <= 1025) \/
    exists d M, r = kva d /\ avail d /\ fresh_as s l d M s' /\ forall v, M !! v = kern_entry v) s.
Proof.
  intros Hf. unfold wp, setupkvm. wp_steps. eapply wp_wpe; [apply (kalloc_ok kend kdata LAY s l Hf)|]. intros r s1 [Em Hr].
  destruct l as [|d l0].
  { destruct Hr as [-> ->]. cbn [Z.eqb]. wp_steps. left. split; [done|]. split; [|cbn; lia]. exists []. by split_and!. }
  destruct Hr as (-> & Hd & Hdl & Hf1). rewrite (kva_nonzero _ _ LAY) by done. destruct (avail_phys _ _ LAY d Hd) as [_ Hdr]. wp_steps.
  apply wpe_kmemset; [done|]. change (DEVSPACE <? P2V PHYSTOP) with false. wp_steps.
  set (s2 := mkVm _ _). assert (fresh_as s (d :: l0) d ∅ s2) as Hfr.
  { exists l0, ∅. assert (forall p, owned d ∅ ∅ p <-> p = d) as Hown.
    { intros p. unfold owned, table_of, frame_of. setoid_rewrite lookup_empty. split; [|auto]. intros [[-> | (i & ?)] | (v & e & ? & _)]; done. }
    split_and!.
    - constructor; [|by apply as_empty|].
      + eapply free_same; [exact Hf1|done|]. eapply same_on_weaken; [apply same_fill|]. by intros p Hp ->.
      + intros p Hp Ho. apply Hown in Ho as ->. done.
    - intros p. rewrite elem_of_cons, Hown. tauto.
    - unfold s2. cbn [mem]. rewrite Em. eapply same_on_weaken; [apply same_fill|]. intros p Hp ->. apply Hp. by left. }
  pose proof (lay_data _ _ LAY) as Hk1. pose proof (lay_align _ _ LAY) as Hk2. pose proof (lay_end _ _ LAY) as Hk3.
  set (kd := kdata / 4096). assert (kdata = kd * 4096) as Hkd by (unfold kd; pose proof (Z.div_mod kdata 4096); lia).
  unfold KERNLINK, KERNBASE, EXTMEM, PHYSTOP in Hk1, Hk3.
  assert (V2P kdata = (kd - 2^19) * 4096) as Hv2p by (unfold V2P, KERNBASE; rewrite u32_small; lia).
  unfold kmap. change KERNBASE with (2^19 * 4096). change 0 with (0 * 4096) at 3.
  eapply (map_all_step s (d :: l0) d ∅ s2 (2^19) 0 256 PTE_W EXTMEM); try done; try (unfold UPAGE, PTE_W; lia).
  { intros s' Hs'. by left. }
  intros s3 M3 Hfr3 HU3 HM3. change KERNLINK with ((2^19 + 256) * 4096). change (V2P ((2^19 + 256) * 4096)) with (256 * 4096).
  eapply (map_all_step s (d :: l0) d M3 s3 (2^19 + 256) 256 (kd - 2^19 - 256) 0); try done; try (unfold UPAGE; lia).
  { rewrite Hv2p, u32_small; lia. } { intros k Hk. rewrite HM3. case_decide; [lia|done]. } { intros s' Hs'. by left. }
  intros s4 M4 Hfr4 HU4 HM4. rewrite Hv2p, Hkd.
  eapply (map_all_step s (d :: l0) d M4 s4 kd (kd - 2^19) (2^19 + 57344 - kd) PTE_W); try done; try (unfold UPAGE, PTE_W; lia).
  { unfold PHYSTOP. rewrite u32_small; lia. } { intros k Hk. rewrite HM4. case_decide; [lia|]. rewrite HM3. case_decide; [lia|done]. } { intros s' Hs'. by left. }
  intros s5 M5 Hfr5 HU5 HM5. change DEVSPACE with (0xFE000 * 4096).
  eapply (map_all_step s (d :: l0) d M5 s5 0xFE000 0xFE000 0x2000 PTE_W); try done; try (unfold UPAGE, PTE_W; lia).
  { intros k Hk. rewrite HM5. case_decide; [lia|]. rewrite HM4. case_decide; [lia|]. rewrite HM3. case_decide; [lia|done]. } { intros s' Hs'. by left. }
  intros s6 M6 Hfr6 HU6 HM6. cbn [map_all]. unfold wp. wp_steps. right. exists d, M6. split_and!; [done..|]. intros v.
  rewrite HM6, HM5, HM4, HM3. unfold kern_entry. fold kd. change (DEVSPACE / 4096) with 0xFE000.
  repeat case_decide; try lia; try done; do 3 f_equal; lia.
Qed.
(** ** copyuvm *)

Lemma flags_range e : 0 <= PTE_FLAGS e < 4096.
Proof. unfold PTE_FLAGS. rewrite land_FFF. apply Z.mod_pos_bound. lia. Qed.

Lemma entry_flags p e : flag e PTE_P = true -> PTE_FLAGS (entry (p * 4096) (PTE_FLAGS e)) = PTE_FLAGS e.
Proof.
  intros He. pose proof (flags_range e) as Hr. destruct (entry_page p (PTE_FLAGS e) Hr) as [-> Hr'].
  assert (Z.lor (PTE_FLAGS e) PTE_P = PTE_FLAGS e) as ->.
  { apply Z.bits_inj'. intros n Hn. unfold PTE_FLAGS, PTE_P. rewrite Z.lor_spec, Z.land_spec. destruct (decide (n = 0)) as [-> | Hne].
    - unfold flag, PTE_P in He. apply negb_true_iff, Z.eqb_neq in He. change 1 with (Z.ones 1) in He. rewrite Z.land_ones in He by lia.
      assert (Z.testbit e 0 = true) as ->; [|done]. rewrite Z.bit0_odd, Zodd_mod. change (2^1) with 2 in He. apply Zeq_is_eq_bool. pose proof (Z.mod_pos_bound e 2). lia.
    - assert (Z.testbit 1 n = false) as ->; [|apply orb_false_r]. apply (Z.pow2_bits_false 0). lia. }
  unfold PTE_FLAGS at 1. rewrite land_FFF, Z.add_comm, Z.mod_add, Z.mod_small; [done| |lia]. exact Hr.
Qed.

(** [b'] in the copy [s'] and [b] in [s] hold the same bytes. *)
Definition same_page (s : vmst) (p : Z) (s' : vmst) (p' : Z) : Prop :=
  forall o, 0 <= o < 4096 -> getb (mem s') (p' * 4096 + o) = getb (mem s) (p * 4096 + o).

Section copy.
Context (s : vmst) (l : list Z) (dp : Z) (Tp Mp : gmap Z Z).
Context (Hparent : vm_ok s l dp Tp Mp).

(** The child after [v] pages. *)
Definition copied (d : Z) (v : Z) (M : gmap Z Z) (s1 : vmst) : Prop :=
  fresh_as s l d M s1 /\ (forall w, UPAGE <= w -> M !! w = kern_entry w) /\ (forall w, v <= w < UPAGE -> M !! w = None) /\
  forall w e, 0 <= w < v -> Mp !! w = Some e ->
    exists e', M !! w = Some e' /\ PTE_FLAGS e' = PTE_FLAGS e /\ same_page s (PGNUM e) s1 (PGNUM e').

Lemma parent_same s1 p : same_on (fun p => p ∉ l) (mem s) (mem s1) -> owned dp Tp Mp p -> same_on (fun q => q = p) (mem s) (mem s1).
Proof. intros Hs Hp. eapply same_on_weaken; [exact Hs|]. intros q -> Hq. by apply (vm_disj _ _ _ _ _ _ Hparent p). Qed.

Lemma parent_as s1 : same_on (fun p => p ∉ l) (mem s) (mem s1) -> as_ok (mem s1) dp Tp Mp.
Proof.
  intros Hs. eapply as_same; [apply Hparent|]. eapply same_on_weaken; [exact Hs|]. intros p Hp Hin.
  apply (vm_disj _ _ _ _ _ _ Hparent p Hin). by left.
Qed.

Lemma same_page_step s1 s2 p p' : same_page s p s1 p' -> same_on (fun q => q = p') (mem s1) (mem s2) -> same_page s p s2 p'.
Proof. intros H Hs o Ho. rewrite (Hs p' (p' * 4096 + o)) by lia. by apply H. Qed.

(** When the copy fails the free pages were few. *)
Lemma copy_bound d v M s1 l1 T : (length l1 <= 1)%nat -> 0 <= v -> (forall w, v <= w < UPAGE -> M !! w = None) -> vm_ok s1 l1 d T M ->
  (forall q, q ∈ l <-> q ∈ l1 \/ owned d T M q) -> Z.of_nat (length l) <= 1026 + v.
Proof.
  intros Hl1 Hv HM Hvm Hl. pose proof (vm_free _ _ _ _ _ _ Hparent) as [_ Hnd].
  set (l2 := filter (fun q => q ∉ l1) l). assert (Z.of_nat (length l2) <= 1025 + v) as H2.
  { apply (owned_bound (mem s1) d T M v l2 (vm_as _ _ _ _ _ _ Hvm)); [done| |by apply NoDup_filter|].
    - intros w e Hw Hu. destruct (decide (w < v)); [done|]. rewrite HM in Hw; [done|lia].
    - intros q Hq. apply list_elem_of_filter in Hq as [Hq1 Hq2]. apply Hl in Hq2. tauto. }
  assert (length l <= length (l1 ++ l2))%nat as H3.
  { apply NoDup_incl_length; [by apply NoDup_ListNoDup|]. intros q Hq. apply list_elem_of_In in Hq. apply list_elem_of_In. apply elem_of_app.
    destruct (decide (q ∈ l1)); [by left|]. right. by apply list_elem_of_filter. }
  rewrite length_app in H3. lia.
Qed.

(** The page [p], taken from the free list, becomes the copy of the parent's page [v]. *)
Lemma copy_page d v M s1 l1 T e p : copied d v M s1 -> 0 <= v < UPAGE -> Mp !! v = Some e ->
  vm_ok s1 (p :: l1) d T M -> (forall q, q ∈ l <-> q ∈ p :: l1 \/ owned d T M q) -> same_on (fun q => q ∉ l) (mem s) (mem s1) ->
  forall s2, free_ok s2 l1 -> mem s2 = mem s1 -> avail p ->
  wp (kmemmove (kva p) (kva (PGNUM e)) PGSIZE ;;;
      let! r := mappages (kva d) (v * 4096) PGSIZE (V2P (kva p)) (PTE_FLAGS e) in
      if r <? 0 then kfree kend (kva p) ;;; freevm kend (kva d) ;;; ret (inr 0)
      else ret (inl (u32 (v * 4096 + PGSIZE)))) (fun r s' =>
    (r = inr 0 /\ given_back s l s' /\ Z.of_nat (length l) <= 1026 + v) \/ (r = inl ((v + 1) * 4096) /\ exists M', copied d (v + 1) M' s')) s2.
Proof.
  intros Hcp Hv He Hvm1 Hl1 Hs1 s2 Hf2 Em Hp. unfold UPAGE in Hv. pose proof Hvm1 as [_ Ha1 Hd1]. pose proof Hparent as [_ Hpa Hpd].
  assert (v < UPAGE) as Hu by (unfold UPAGE; lia). destruct (as_user _ _ _ _ _ Hpa v e He Hu) as (Hfa & _ & _).
  destruct (avail_phys _ _ LAY p Hp) as [_ Hpr]. destruct (avail_phys _ _ LAY _ Hfa) as [_ Hfr]. pose proof (flags_range e) as Hfl.
  assert (p ∉ l1 /\ ~ owned d T M p) as [Hpl Hpo].
  { split; [apply (NoDup_cons p l1), (vm_free _ _ _ _ _ _ Hvm1)|]. apply Hd1. by left. }
  assert (owned dp Tp Mp (PGNUM e)) as Hown by (right; by exists v, e).
  unfold wp. wp_steps. unfold kmemmove at 1. rewrite !mapped_page by done. cbn [andb]. unfold with_mem. wp_steps.
  replace (kva p - KERNBASE) with (p * 4096) by (unfold kva; lia). replace (kva (PGNUM e) - KERNBASE) with (PGNUM e * 4096) by (unfold kva; lia).
  rewrite V2P_kva by done. set (s3 := mkVm _ _). change (Z.to_nat PGSIZE) with (Z.to_nat 4096) in s3.
  assert (same_on (fun q => q <> p) (mem s1) (mem s3)) as Hs3.
  { unfold s3. cbn [mem]. rewrite Em. replace (p * 4096) with (p * 4096 + 0) by lia. apply same_put; [lia|]. rewrite length_bytes_at. lia. }
  assert (vm_ok s3 l1 d T M) as Hvm3.
  { constructor.
    - eapply free_same; [exact Hf2|done|]. rewrite Em. eapply same_on_weaken; [exact Hs3|]. by intros q Hq ->.
    - eapply as_same; [exact Ha1|]. eapply same_on_weaken; [exact Hs3|]. intros q Hq ->. apply Hpo. by left.
    - intros q Hq. apply Hd1. by right. }
  eapply wp_wpe; [apply (mappages_user s3 l1 d T M v p (PTE_FLAGS e) Hvm3)|].
  { unfold UPAGE. lia. } { unfold PHYSTOP in Hpr. lia. } { done. } { apply Hcp. unfold UPAGE. lia. } { done. }
  intros r s4 [(-> & -> & ->) | (l4 & T4 & -> & Hvm4 & Hg & Hc)]; cbn [Z.ltb Z.compare].
  - wp_steps. eapply wp_wpe; [by apply (kfree_ok kend kdata LAY s3 [] p (vm_free _ _ _ _ _ _ Hvm3) Hp)|]. intros u s5 [Hf5 Hs5]. wp_steps.
    eapply wp_wpe; [apply (fresh_free s l d M s5)|intros u' s6 Hs6; wp_steps; left; split_and!; [done..|]].
    2:{ destruct Hcp as (_ & _ & Hcn & _). apply (copy_bound d v M s1 [p] T); try done. cbn. lia. }
    exists [p], T. split_and!; [|done|].
    + constructor; [done| |intros q Hq; by apply Hd1]. eapply as_same; [exact Ha1|]. eapply same_on_trans; [exact Hs3|exact Hs5|].
      intros q Hq. assert (q <> p); [|done]. intros ->. apply Hpo. by left.
    + eapply same_on_trans; [exact Hs1|eapply same_on_trans; [exact Hs3|exact Hs5|]; intros q Hq; exact Hq|].
      intros q Hq. split; [done|]. assert (q <> p); [|done]. intros ->. apply Hq, Hl1. left. by left.
  - wp_steps. right. split; [f_equal; unfold PGSIZE; rewrite u32_small; lia|]. exists (<[v := entry (p * 4096) (PTE_FLAGS e)]> M).
    destruct Hcp as (_ & Hck & Hcn & Hcc). assert (M !! v = None) as HMv by (apply Hcn; unfold UPAGE; lia).
    assert (same_on (fun q => q <> p /\ q ∉ l1 /\ ~ table_of d T q) (mem s1) (mem s4)) as Hs14.
    { eapply same_on_trans; [exact Hs3|apply (grow_same _ _ _ _ _ _ _ Hg)|]. intros q (H1 & H2 & H3). done. }
    split_and!.
    + exists l4, T4. split_and!; [done| |].
      * intros q. rewrite owned_insert by done. rewrite (entry_num p _ Hfl), Hl1, elem_of_cons. specialize (Hc q). tauto.
      * eapply same_on_trans; [exact Hs1|exact Hs14|]. intros q Hq. split; [done|]. rewrite Hl1, elem_of_cons in Hq. unfold owned in Hq. tauto.
    + intros w Hw. rewrite lookup_insert_ne by (unfold UPAGE in *; lia). by apply Hck.
    + intros w Hw. rewrite lookup_insert_ne by lia. apply Hcn. lia.
    + intros w f Hw Hf. destruct (decide (w = v)) as [-> | Hne].
      * rewrite He in Hf. injection Hf as <-. eexists. split; [apply lookup_insert_eq|]. rewrite (entry_num p _ Hfl). split.
        { apply entry_flags. destruct (as_M _ _ _ _ _ Hpa v e He) as [_ [t Ht]]. pose proof (as_pte _ _ _ _ _ Hpa _ t (v `mod` 1024) Ht) as Hpte.
          replace (v / 1024 * 1024 + v `mod` 1024) with v in Hpte by (pose proof (Z.div_mod v 1024); lia). rewrite He in Hpte. apply Hpte, Z.mod_pos_bound. lia. }
        assert (same_page s (PGNUM e) s3 p) as Hpg.
        { intros o Ho. unfold s3. cbn [mem]. rewrite getb_copy, Em. rewrite decide_True by lia. replace (PGNUM e * 4096 + (p * 4096 + o - p * 4096)) with (PGNUM e * 4096 + o) by lia.
          apply (parent_same s1 (PGNUM e) Hs1 Hown (PGNUM e)); [done|lia]. }
        eapply same_page_step; [exact Hpg|]. eapply same_on_weaken; [apply (grow_same _ _ _ _ _ _ _ Hg)|]. intros q ->. split; [done|]. intros Ht. apply Hpo. by left.
      * destruct (Hcc w f) as (e' & He' & Hfe & Hpg); [lia|done|]. exists e'. rewrite lookup_insert_ne by done. split_and!; [done..|].
        eapply same_page_step; [exact Hpg|]. eapply same_on_weaken; [exact Hs14|]. intros q ->.
        assert (frame_of M (PGNUM e')) as Hfr' by (exists w, e'; split; [done|]; split; [unfold UPAGE; lia|done]).
        split_and!; [intros E; apply Hpo; right; by rewrite <- E|intros Hin; apply (Hd1 (PGNUM e')); [by right|by right]|by eapply frame_not_table].
Qed.
Lemma copy_loop sz d n : forall fuel v M s1, copied d v M s1 -> avail d -> 0 <= v -> 0 <= sz < KERNBASE ->
  (forall w, 0 <= w < pgup sz -> is_Some (Mp !! w)) -> (Z.to_nat (pgup sz - v) <= n)%nat -> (n < fuel)%nat -> v <= pgup sz ->
  wp (loop fuel (copyuvm_step kend (kva dp) sz (kva d)) (v * 4096)) (fun r s' =>
    (r = 0 /\ given_back s l s' /\ Z.of_nat (length l) <= 1026 + pgup sz) \/ (r = kva d /\ exists M', copied d (pgup sz) M' s')) s1.
Proof.
  unfold KERNBASE. induction n as [|n IH]; intros fuel v M s1 Hcp Hd Hv Hsz Hpres Hn Hfuel Hle; (destruct fuel as [|fuel]; [lia|]);
    cbn [loop]; apply wpe_bind; unfold copyuvm_step.
  all: assert (v * 4096 < sz <-> v < pgup sz) as Hiff by (unfold pgup; Z.div_mod_to_equations; lia).
  all: assert (pgup sz <= 2^19) as Hup by (unfold pgup; Z.div_mod_to_equations; lia).
  all: destruct (Z.ltb_spec (v * 4096) sz) as [Hlt | Hge]; [|wp_steps; right; split; [done|]; exists M; by replace (pgup sz) with v by lia].
  1:{ exfalso. lia. }
  pose proof Hcp as ((l1 & T & Hvm1 & Hl1 & Hs1) & _). pose proof (parent_as s1 Hs1) as Hpa.
  destruct (Hpres v) as [e He]; [lia|]. destruct (as_M _ _ _ _ _ Hpa v e He) as [Hv20 [t Ht]].
  destruct (as_T _ _ _ _ _ Hpa _ _ Ht) as [Hi _]. pose proof (as_pde _ _ _ _ _ Hpa _ Hi) as Hpde. rewrite Ht in Hpde. destruct Hpde as (_ & _ & Hta).
  destruct (avail_phys _ _ LAY t Hta) as [Ht0 Htr]. pose proof (Z.mod_pos_bound v 1024 ltac:(lia)) as Hj.
  pose proof (as_pte _ _ _ _ _ Hpa _ t (v `mod` 1024) Ht Hj) as Hpte.
  replace (v / 1024 * 1024 + v `mod` 1024) with v in Hpte by (pose proof (Z.div_mod v 1024); lia). rewrite He in Hpte. destruct Hpte as [Hw Hfl].
  pose proof (word_range (mem s1) t (v `mod` 1024)) as Hr. rewrite Hw in Hr.
  assert (v < UPAGE) as Hu by (unfold UPAGE; lia). destruct (as_user _ _ _ _ _ Hpa v e He Hu) as (Hfa & _ & _). destruct (avail_phys _ _ LAY _ Hfa) as [_ Hfr].
  wp_steps. unfold wpe at 1. rewrite (walk_found kend kdata LAY s1 dp Tp Mp v t false Hpa Hv20 Ht).
  destruct (Z.eqb_spec (kva t + 4 * (v `mod` 1024)) 0); [unfold kva, KERNBASE in *; lia|]. wp_steps. apply wpe_kread; [done..|].
  rewrite Hw, Hfl, PTE_ADDR_spec, P2V_page by done. wp_steps.
  eapply wp_wpe; [apply (kalloc_ok kend kdata LAY s1 l1), Hvm1|]. intros r s2 [Em Hr2]. destruct l1 as [|p l1].
  - destruct Hr2 as [-> ->]. cbn [Z.eqb]. wp_steps. eapply wp_wpe; [apply (fresh_free s l d M s1), Hcp|]. intros u s3 Hs3. wp_steps. left. split_and!; [done..|].
    assert (Z.of_nat (length l) <= 1026 + v); [|lia]. destruct Hcp as (_ & _ & Hcn & _). apply (copy_bound d v M s1 [] T); try done. cbn. lia.
  - destruct Hr2 as (-> & Hp & Hpl & Hf2). rewrite (kva_nonzero _ _ LAY) by done.
    eapply wp_wpe; [apply (copy_page d v M s1 l1 T e p Hcp); try done|].
    intros r s3 [(-> & Hgb & Hb) | [-> [M' Hcp']]]; wp_steps; [left; split_and!; [done..|lia]|]. apply (IH fuel (v + 1) M' s3 Hcp'); try done; lia.
Qed.

Lemma copyuvm_ok sz : 0 <= sz < KERNBASE -> (forall w, 0 <= w < pgup sz -> is_Some (Mp !! w)) ->
  wp (copyuvm kend kdata (kva dp) sz) (fun r s' =>
    (r = 0 /\ given_back s l s' /\ Z.of_nat (length l) <= 1026 + pgup sz) \/ exists d M, r = kva d /\ avail d /\ copied d (pgup sz) M s') s.
Proof.
  intros Hsz Hpres. unfold wp, copyuvm. wp_steps. eapply wp_wpe; [apply (setupkvm_ok s l), Hparent|].
  assert (0 <= pgup sz) as Hpg by (unfold pgup; apply Z.div_pos; lia).
  intros r s1 [(-> & Hgb & Hb) | (d & M & -> & Hd & Hfr & HM)]; [cbn [Z.eqb]; wp_steps; left; split_and!; [done..|lia]|]. rewrite (kva_nonzero _ _ LAY) by done.
  assert (copied d 0 M s1) as Hcp.
  { split_and!; [done|by intros w _| |lia]. intros w Hw. rewrite HM. unfold kern_entry, UPAGE in *. pose proof (lay_data _ _ LAY) as Hk.
    unfold KERNLINK, KERNBASE, EXTMEM in Hk. assert (2^19 <= kdata / 4096) by (apply Z.div_le_lower_bound; lia). change (DEVSPACE / 4096) with 0xFE000.
    repeat (case_decide; [lia|]). done. }
  eapply wp_wpe; [apply (copy_loop sz d (Z.to_nat (pgup sz)) _ 0 M s1 Hcp Hd); try done; try lia|].
  { unfold pgup, PGSIZE. Z.div_mod_to_equations; lia. }
  intros r s2 [(-> & Hgb & Hb) | [-> [M' Hcp']]]; [by left|]. right. by exists d, M'.
Qed.
End copy.
End ops.
