(* ===== verification/Xv6VmUser.v ===== *)
(** * Growing a process and writing to its memory

    allocuvm, uva2ka and copyout of expansion/vm.c, and kinit of kalloc.c. *)
From S2P Require Import Prelude Mem Mmu Xv6Vm Xv6VmRep Xv6VmOps.

Section user.
Context (kend kdata : Z) (LAY : layout_ok kend kdata).

Notation avail := (avail kend).
Notation free_ok := (free_ok kend).
Notation as_ok := (as_ok kend).
Notation vm_ok := (vm_ok kend).

(** ** allocuvm *)

(** A page of zeros with the permissions allocuvm gives. *)
Definition zero_page (s : vmst) (o : option Z) : Prop :=
  exists p, o = Some (entry (p * 4096) (Z.lor PTE_W PTE_U)) /\ 0 <= p < 2^20 /\ forall b, 0 <= b < 4096 -> getb (mem s) (p * 4096 + b) = 0.

Section alloc.
Context (s : vmst) (l : list Z) (d : Z) (T M : gmap Z Z) (v0 : Z) (Hvm : vm_ok s l d T M) (Hv0 : 0 <= v0).

(** The address space with the pages [v0] to [v] added. *)
Definition grown (v : Z) (l1 : list Z) (T1 M1 : gmap Z Z) (s1 : vmst) : Prop :=
  vm_ok s1 l1 d T1 M1 /\ conserve l d T M l1 T1 M1 /\ grow s l d T s1 l1 T1 /\
  (forall w, ~ (v0 <= w < v) -> M1 !! w = M !! w) /\ (forall w, v0 <= w < v -> zero_page s1 (M1 !! w)).

(** The address space has its old entries again. *)
Definition shrunk (s1 : vmst) : Prop :=
  exists l1 T1 M1, vm_ok s1 l1 d T1 M1 /\ conserve l d T M l1 T1 M1 /\ (forall w, M1 !! w = M !! w) /\
    same_on (fun p => p ∉ l /\ ~ table_of d T p) (mem s) (mem s1).

(** The failing branch: what was added is taken back. *)
Lemma undo v v1 l1 T1 M1 s1 oldsz newsz : grown v l1 T1 M1 s1 -> v <= v1 -> v0 = pgup oldsz -> v1 = pgup newsz ->
  (forall w, v0 <= w < v1 -> M !! w = None) -> 0 <= oldsz <= newsz -> newsz <= KERNBASE ->
  wp (deallocuvm kend (kva d) newsz oldsz) (fun _ s' => exists l2 M2, vm_ok s' l2 d T1 M2 /\ conserve l1 d T1 M1 l2 T1 M2 /\
    (forall w, M2 !! w = M !! w) /\ same_on (fun p => p ∉ l /\ ~ table_of d T p) (mem s) (mem s')) s1.
Proof.
  intros (Hvm1 & Hc1 & Hg & Hout & Hin) Hle -> -> HM Hold Hnew.
  eapply wp_mono; [apply (deallocuvm_ok kend kdata LAY s1 l1 d T1 M1 newsz oldsz Hvm1); unfold KERNBASE in *; lia|].
  intros r s' (_ & l2 & M2 & Hvm2 & Hc2 & HM2 & Hl2 & Hs2). assert (forall w, M2 !! w = M !! w) as Heq.
  { intros w. rewrite HM2. case_decide; [by rewrite HM|]. apply Hout. lia. }
  exists l2, M2. split_and!; [done..|]. eapply same_on_trans; [apply (grow_same _ _ _ _ _ _ _ Hg)|exact Hs2|].
  intros p [Hp1 Hp2]. split; [done|]. split.
  - intros Hp. assert (p ∈ l \/ owned d T M p) as [? | [? | (w & e & Hw & Hu & <-)]] by (rewrite <- (Hc1 p), <- (Hc2 p); by left); [done..|].
    apply (vm_disj _ _ _ _ _ _ Hvm2 _ Hp). right. exists w, e. by rewrite Heq.
  - intros Hp. by destruct (grow_tab _ _ _ _ _ _ _ Hg p Hp).
Qed.

(** When memory runs out every page that was free is a table or a new frame. *)
Lemma grown_bound v l1 T1 M1 s1 : (length l1 <= 1)%nat -> v0 <= v -> grown v l1 T1 M1 s1 -> Z.of_nat (length l) <= 1026 + (v - v0).
Proof.
  intros Hl1 Hv (Hvm1 & Hc & Hg & Hout & Hin). pose proof (vm_free _ _ _ _ _ _ Hvm) as [_ Hnd]. pose proof (vm_as _ _ _ _ _ _ Hvm1) as Ha1.
  set (c := l1 ++ d :: ((fun i => default 0 (T1 !! i)) <$> seqZ 0 1024) ++ ((fun w => PGNUM (default 0 (M1 !! w))) <$> seqZ v0 (v - v0))).
  assert (length l <= length c)%nat as Hlen.
  { apply NoDup_incl_length; [by apply NoDup_ListNoDup|]. intros p Hp. apply list_elem_of_In in Hp. apply list_elem_of_In.
    unfold c. rewrite elem_of_app, elem_of_cons, elem_of_app.
    assert (p ∈ l1 \/ owned d T1 M1 p) as [? | [[-> | (i & Hi)] | (w & e & Hw & Hu & <-)]] by (rewrite (Hc p); by left); [by left|auto| |].
    - right. right. left. apply list_elem_of_fmap. exists i. rewrite Hi. split; [done|]. apply elem_of_seqZ. destruct (as_T _ _ _ _ _ Ha1 i p Hi). lia.
    - right. right. right. apply list_elem_of_fmap. exists w. rewrite Hw. split; [done|]. apply elem_of_seqZ.
      destruct (decide (v0 <= w < v)); [lia|]. rewrite Hout in Hw by done. destruct (vm_disj _ _ _ _ _ _ Hvm _ Hp). right. by exists w, e. }
  unfold c in Hlen. rewrite length_app in Hlen. cbn [length] in Hlen. rewrite length_app, !length_fmap, !length_seqZ in Hlen. lia.
Qed.

(** The page [p], taken from the free list and cleared, before it is mapped. *)
Definition in_hand (v p : Z) (l1 : list Z) (T1 M1 : gmap Z Z) (s1 s3 : vmst) : Prop :=
  grown v (p :: l1) T1 M1 s1 /\ vm_ok s3 l1 d T1 M1 /\ avail p /\ p ∉ l1 /\ ~ owned d T1 M1 p /\ p ∈ l /\
  same_on (fun q => q <> p) (mem s1) (mem s3) /\ forall b, 0 <= b < 4096 -> getb (mem s3) (p * 4096 + b) = 0.

Lemma take_page v p l1 T1 M1 s1 s2 : grown v (p :: l1) T1 M1 s1 -> mem s2 = mem s1 -> free_ok s2 l1 -> avail p -> p ∉ l1 ->
  in_hand v p l1 T1 M1 s1 (mkVm (fill (mem s1) (p * 4096) 0 (Z.to_nat 4096)) (freelist s2)).
Proof.
  intros Hgr Em Hf2 Hp Hpl. pose proof Hgr as ([Hf1 Ha1 Hd1] & _ & Hg1 & _).
  assert (~ owned d T1 M1 p) as Hpo by (apply Hd1; by left). pose proof (same_fill (mem s1) p 0) as Hs3.
  split_and!; try done.
  - constructor; [| |intros q Hq; apply Hd1; by right].
    + eapply free_same; [exact Hf2|done|]. rewrite Em. eapply same_on_weaken; [exact Hs3|]. by intros q Hq ->.
    + eapply as_same; [exact Ha1|]. eapply same_on_weaken; [exact Hs3|]. intros q Hq ->. apply Hpo. by left.
  - apply (grow_l _ _ _ _ _ _ _ Hg1). by left.
  - intros b Hb. cbn [mem]. by rewrite getb_fill, decide_True by lia.
Qed.

(** No page for a table: the page in hand and what was added are given back. *)
Lemma alloc_undo v v1 p T1 M1 s1 s3 oldsz newsz : in_hand v p [] T1 M1 s1 s3 -> v <= v1 -> v0 = pgup oldsz -> v1 = pgup newsz ->
  (forall w, v0 <= w < v1 -> M !! w = None) -> 0 <= oldsz <= newsz -> newsz <= KERNBASE ->
  wp (deallocuvm kend (kva d) newsz oldsz ;;; kfree kend (kva p) ;;; ret (inr 0 : Z + Z)) (fun r s' => r = inr 0 /\ shrunk s') s3.
Proof.
  intros (Hgr & Hvm3 & Hp & _ & Hpo & Hpin & Hs3 & _) Hle -> -> HM Hold Hnew. pose proof Hgr as (_ & Hc1 & Hg1 & Hout & _).
  unfold wp. wp_steps. eapply wp_wpe; [apply (deallocuvm_ok kend kdata LAY s3 [] d T1 M1 newsz oldsz Hvm3); unfold KERNBASE in *; lia|].
  intros r s5 (_ & l5 & M5 & Hvm5 & Hc5 & HM5 & Hl5 & Hs5). wp_steps.
  assert (p ∉ l5 /\ ~ owned d T1 M5 p) as [Hp5 Hpo5].
  { assert (~ (p ∈ l5 \/ owned d T1 M5 p)) as Hn5; [|tauto]. rewrite (Hc5 p). by intros [Hq%elem_of_nil | Hq]. }
  eapply wp_wpe; [by apply (kfree_ok kend kdata LAY s5 l5 p (vm_free _ _ _ _ _ _ Hvm5) Hp)|]. intros u s6 [Hf6 Hs6]. wp_steps. split; [done|].
  assert (forall w, M5 !! w = M !! w) as Heq by (intros w; rewrite HM5; case_decide; [by rewrite HM|apply Hout; lia]).
  exists (p :: l5), T1, M5. split_and!; [|intros q; rewrite <- (Hc1 q), !elem_of_cons; specialize (Hc5 q); rewrite elem_of_nil in *; tauto|done|].
  - constructor; [done| |].
    + eapply as_same; [apply Hvm5|]. eapply same_on_weaken; [exact Hs6|]. intros q Hq ->. apply Hpo5. by left.
    + intros q Hq. apply elem_of_cons in Hq as [-> | Hq]; [done|]. by apply (vm_disj _ _ _ _ _ _ Hvm5).
  - eapply same_on_trans; [apply (grow_same _ _ _ _ _ _ _ Hg1)|eapply same_on_trans; [exact Hs3|eapply same_on_trans; [exact Hs5|exact Hs6|intros q Hq; exact Hq]|intros q Hq; exact Hq]|].
    intros q [Hq1 Hq2]. assert (q <> p) by (by intros ->). split; [done|]. split; [done|]. split; [|done].
    split; [|intros Ht; by destruct (grow_tab _ _ _ _ _ _ _ Hg1 q Ht)]. intros Hq5.
    assert (q ∈ l \/ owned d T M q) as [? | [? | (w & e & Hw & Hu & <-)]];
      [rewrite <- (Hc1 q); specialize (Hc5 q); rewrite elem_of_nil in Hc5; tauto|done..|].
    apply (vm_disj _ _ _ _ _ _ Hvm5 _ Hq5). right. exists w, e. by rewrite Heq.
Qed.

(** The page in hand is mapped. *)
Lemma alloc_page v p l1 T1 M1 s1 s3 l4 T4 s4 : in_hand v p l1 T1 M1 s1 s3 -> v0 <= v < UPAGE -> M !! v = None ->
  vm_ok s4 l4 d T4 (<[v := entry (p * 4096) (Z.lor PTE_W PTE_U)]> M1) -> grow s3 l1 d T1 s4 l4 T4 -> conserve l1 d T1 M1 l4 T4 M1 ->
  grown (v + 1) l4 T4 (<[v := entry (p * 4096) (Z.lor PTE_W PTE_U)]> M1) s4.
Proof.
  intros (Hgr & Hvm3 & Hp & Hpl & Hpo & Hpin & Hs3 & Hz3) Hv HMv0 Hvm4 Hg4 Hc4. pose proof Hgr as (Hvm1 & Hc1 & Hg1 & Hout & Hin).
  pose proof Hvm1 as [_ Ha1 Hd1]. destruct (avail_phys _ _ LAY p Hp) as [_ Hpr].
  assert (M1 !! v = None) as HMv by (rewrite Hout by lia; done).
  assert (PGNUM (entry (p * 4096) (Z.lor PTE_W PTE_U)) = p) as Hnum by (by apply entry_num).
  assert (same_on (fun q => q <> p /\ q ∉ l1 /\ ~ table_of d T1 q) (mem s1) (mem s4)) as Hs14.
  { eapply same_on_trans; [exact Hs3|apply (grow_same _ _ _ _ _ _ _ Hg4)|]. intros q (H1 & H2 & H3). done. }
  split_and!; [done| | | |].
  - intros q. rewrite owned_insert, Hnum by done. rewrite <- (Hc1 q), elem_of_cons. specialize (Hc4 q). tauto.
  - constructor.
    + intros q Hq. apply (grow_l _ _ _ _ _ _ _ Hg1). right. by apply (grow_l _ _ _ _ _ _ _ Hg4).
    + intros i t Hi. by apply (grow_T _ _ _ _ _ _ _ Hg4), (grow_T _ _ _ _ _ _ _ Hg1).
    + intros q Hq. destruct (grow_tab _ _ _ _ _ _ _ Hg4 q Hq) as [Hq1 | Hq1]; [by apply (grow_tab _ _ _ _ _ _ _ Hg1)|].
      right. apply (grow_l _ _ _ _ _ _ _ Hg1). by right.
    + eapply same_on_trans; [apply (grow_same _ _ _ _ _ _ _ Hg1)|exact Hs14|]. intros q [Hq1 Hq2]. split; [done|]. split_and!.
      * by intros ->.
      * intros Hq. apply Hq1, (grow_l _ _ _ _ _ _ _ Hg1). by right.
      * intros Hq. by destruct (grow_tab _ _ _ _ _ _ _ Hg1 q Hq).
  - intros w Hw. rewrite lookup_insert_ne by lia. apply Hout. lia.
  - intros w Hw. destruct (decide (w = v)) as [-> | Hne].
    + rewrite lookup_insert_eq. exists p. split; [done|]. split; [unfold PHYSTOP in Hpr; lia|]. intros b Hb.
      rewrite (grow_same _ _ _ _ _ _ _ Hg4 p) by (lia || (split; [done|intros Ht; apply Hpo; by left])). by apply Hz3.
    + rewrite lookup_insert_ne by done. destruct (Hin w) as (q & Hq & Hqr & Hz); [lia|]. exists q. split; [done|]. split; [done|]. intros b Hb.
      assert (frame_of M1 q) as Hfr by (exists w, (entry (q * 4096) (Z.lor PTE_W PTE_U)); split; [done|]; split; [lia|by apply entry_num]).
      rewrite (Hs14 q) by (lia || (split_and!; [intros ->; apply Hpo; by right|intros Hq1; apply (Hd1 q); by right|by eapply frame_not_table])).
      by apply Hz.
Qed.

Lemma alloc_loop oldsz newsz n : forall fuel v l1 T1 M1 s1, grown v l1 T1 M1 s1 -> v0 <= v <= pgup newsz -> v0 = pgup oldsz ->
  0 <= oldsz <= newsz -> newsz < KERNBASE -> (forall w, v0 <= w < pgup newsz -> M !! w = None) ->
  (Z.to_nat (pgup newsz - v) <= n)%nat -> (n < fuel)%nat ->
  wp (loop fuel (allocuvm_step kend (kva d) oldsz newsz) (v * 4096)) (fun r s' =>
    (r = 0 /\ shrunk s' /\ Z.of_nat (length l) <= 1026 + (pgup newsz - v0)) \/
    (r = newsz /\ exists l' T' M', grown (pgup newsz) l' T' M' s')) s1.
Proof.
  unfold KERNBASE. induction n as [|n IH]; intros fuel v l1 T1 M1 s1 Hgr Hv Hv0e Hold Hnew HM Hn Hfuel; (destruct fuel as [|fuel]; [lia|]);
    cbn [loop]; apply wpe_bind; unfold allocuvm_step.
  all: assert (v * 4096 < newsz <-> v < pgup newsz) as Hiff by (unfold pgup; Z.div_mod_to_equations; lia).
  all: assert (pgup newsz <= 2^19) as Hup by (unfold pgup; Z.div_mod_to_equations; lia).
  all: destruct (Z.ltb_spec (v * 4096) newsz) as [Hlt | Hge]; [|wp_steps; right; split; [done|]; exists l1, T1, M1; by replace (pgup newsz) with v by lia].
  1:{ exfalso. lia. }
  pose proof Hgr as (Hvm1 & Hc1 & _ & Hout & _).
  wp_steps. eapply wp_wpe; [by apply (kalloc_ok kend kdata LAY s1 l1), Hvm1|]. intros r s2 [Em Hr]. destruct l1 as [|p l1].
  - destruct Hr as [-> ->]. cbn [Z.eqb]. wp_steps.
    eapply wp_wpe; [apply (undo v (pgup newsz) [] T1 M1 s1 oldsz newsz Hgr); try done; unfold KERNBASE; lia|].
    intros r s3 (l3 & M3 & Hvm3 & Hc3 & HM3 & Hs3). wp_steps. left. split_and!; [done| |].
    + exists l3, T1, M3. split_and!; try done. intros q. by rewrite (Hc3 q), (Hc1 q).
    + pose proof (grown_bound v [] T1 M1 s1 ltac:(cbn; lia) ltac:(lia) Hgr). lia.
  - destruct Hr as (-> & Hp & Hpl & Hf2). rewrite (kva_nonzero _ _ LAY) by done. destruct (avail_phys _ _ LAY p Hp) as [_ Hpr]. wp_steps.
    apply wpe_kmemset; [done|]. rewrite Em, V2P_kva by done. pose proof (take_page v p l1 T1 M1 s1 s2 Hgr Em Hf2 Hp Hpl) as Hh.
    set (s3 := mkVm _ _) in *. pose proof Hh as (_ & Hvm3 & _ & _ & Hpo & _).
    wp_steps. eapply wp_wpe; [apply (mappages_user kend kdata LAY s3 l1 d T1 M1 v p (Z.lor PTE_W PTE_U) Hvm3)|].
    { unfold UPAGE. lia. } { unfold PHYSTOP in Hpr. lia. } { by vm_compute. } { rewrite Hout by lia. apply HM. lia. } { done. }
    intros r s4 [(-> & -> & ->) | (l4 & T4 & -> & Hvm4 & Hg4 & Hc4)]; cbn [Z.ltb Z.compare].
    + eapply wp_wpe; [apply (alloc_undo v (pgup newsz) p T1 M1 s1 s3 oldsz newsz Hh); try done; unfold KERNBASE; lia|].
      intros u s5 [-> Hs5]. wp_steps. left. split_and!; [done..|]. pose proof (grown_bound v [p] T1 M1 s1 ltac:(cbn; lia) ltac:(lia) Hgr). lia.
    + wp_steps. replace (u32 (v * 4096 + PGSIZE)) with ((v + 1) * 4096) by (unfold PGSIZE; rewrite u32_small; lia).
      apply (IH fuel (v + 1) l4 T4 (<[v := entry (p * 4096) (Z.lor PTE_W PTE_U)]> M1) s4); try done; try lia.
      apply (alloc_page v p l1 T1 M1 s1 s3); try done; [unfold UPAGE; lia|apply HM; lia].
Qed.
End alloc.

Lemma allocuvm_ok s l d T M oldsz newsz : vm_ok s l d T M -> 0 <= oldsz <= newsz -> newsz < KERNBASE ->
  (forall w, pgup oldsz <= w < pgup newsz -> M !! w = None) ->
  wp (allocuvm kend (kva d) oldsz newsz) (fun r s' =>
    (r = 0 /\ shrunk s l d T M s' /\ Z.of_nat (length l) <= 1026 + (pgup newsz - pgup oldsz)) \/
    (r = newsz /\ exists l' T' M', grown s l d T M (pgup oldsz) (pgup newsz) l' T' M' s')) s.
Proof.
  intros Hvm Hold Hnew HM. unfold wp, allocuvm. unfold KERNBASE in *. destruct (Z.leb_spec 0x80000000 newsz); [lia|].
  destruct (Z.ltb_spec newsz oldsz); [lia|]. rewrite roundup_page by lia. fold (pgup oldsz).
  assert (0 <= pgup oldsz <= pgup newsz) as Hpg by (unfold pgup; Z.div_mod_to_equations; lia).
  eapply wp_wpe; [apply (alloc_loop s l d T M (pgup oldsz) Hvm (proj1 Hpg) oldsz newsz (Z.to_nat (pgup newsz - pgup oldsz)) _ (pgup oldsz) l T M s)|]; try done; try (unfold KERNBASE; lia).
  - split_and!; try done; [apply grow_refl|]. intros w Hw. lia.
  - unfold pgup, PGSIZE. Z.div_mod_to_equations; lia.
Qed.
(** ** copyout *)

(** The byte a process sees at the user address [a]. *)
Definition ubyte (m : gmap Z Z) (M : gmap Z Z) (a : Z) : option Z :=
  e ← M !! (a / 4096); Some (getb m (PGNUM e * 4096 + a `mod` 4096)).

(** A page the user may access. *)
Definition upage (M : gmap Z Z) (v : Z) : Prop := exists e, M !! v = Some e /\ flag e PTE_U = true.

Lemma uva2ka_ok s d T M v : as_ok (mem s) d T M -> 0 <= v < UPAGE -> upage M v ->
  exists e, M !! v = Some e /\ avail (PGNUM e) /\ uva2ka (kva d) (v * 4096) s = Ok (kva (PGNUM e)) s.
Proof.
  intros Ha Hv (e & He & Hu). destruct (as_user _ _ _ _ _ Ha v e He (proj2 Hv)) as (Hav & _). exists e. split; [done|]. split; [done|].
  destruct (as_M _ _ _ _ _ Ha v e He) as [Hv20 [t Ht]]. destruct (as_T _ _ _ _ _ Ha _ _ Ht) as [Hi _].
  pose proof (as_pde _ _ _ _ _ Ha _ Hi) as Hpde. rewrite Ht in Hpde. destruct Hpde as (_ & _ & Hta). destruct (avail_phys _ _ LAY t Hta) as [_ Htr].
  pose proof (Z.mod_pos_bound v 1024 ltac:(lia)) as Hj. pose proof (as_pte _ _ _ _ _ Ha _ t (v `mod` 1024) Ht Hj) as Hpte.
  replace (v / 1024 * 1024 + v `mod` 1024) with v in Hpte by (pose proof (Z.div_mod v 1024); lia). rewrite He in Hpte. destruct Hpte as [Hw Hfl].
  unfold uva2ka, bind. rewrite (walk_found kend kdata LAY s d T M v t false Ha Hv20 Ht).
  assert (kread (kva t + 4 * (v `mod` 1024)) s = Ok e s) as ->.
  { unfold kread. rewrite mapped_word by done. unfold gets. rewrite <- Hw. do 2 f_equal. unfold word, kva. f_equal. lia. }
  rewrite Hfl, Hu. cbn [negb]. pose proof (word_range (mem s) t (v `mod` 1024)) as Hr. rewrite Hw in Hr. destruct (avail_phys _ _ LAY _ Hav) as [_ Hpr].
  rewrite PTE_ADDR_spec, P2V_page by done. done.
Qed.

(** Writing bytes into one page of the process. *)
Lemma put_in_page m d T M v e o l : as_ok m d T M -> 0 <= v < UPAGE -> M !! v = Some e -> 0 <= o -> o + Z.of_nat (length l) <= 4096 ->
  let m' := put_bytes m (PGNUM e * 4096 + o) l in
  as_ok m' d T M /\ forall a, 0 <= a < UPAGE * 4096 ->
    ubyte m' M a = if decide (v * 4096 + o <= a < v * 4096 + o + Z.of_nat (length l)) then u8 <$> l !! Z.to_nat (a - (v * 4096 + o)) else ubyte m M a.
Proof.
  intros Ha Hv He Ho Hl m'. pose proof (same_put m (PGNUM e) o l Ho Hl) as Hs. fold m' in Hs.
  assert (frame_of M (PGNUM e)) as Hfr by (exists v, e; split; [done|]; split; [lia|done]). split.
  { eapply as_same; [exact Ha|]. eapply same_on_weaken; [exact Hs|]. intros q Hq ->. by apply (frame_not_table _ m d T M (PGNUM e) Ha). }
  intros a Har. pose proof (Z.div_mod a 4096 ltac:(lia)) as Hdm. pose proof (Z.mod_pos_bound a 4096 ltac:(lia)) as Hmb. unfold ubyte.
  destruct (decide (a / 4096 = v)) as [E | Hne].
  - rewrite E, He. cbn [mbind option_bind]. unfold m'. rewrite getb_put_bytes. destruct (decide (v * 4096 + o <= a < v * 4096 + o + Z.of_nat (length l))) as [Hc | Hc].
    + replace (PGNUM e * 4096 + a `mod` 4096 - (PGNUM e * 4096 + o)) with (a - (v * 4096 + o)) by lia.
      destruct (lookup_lt_is_Some_2 l (Z.to_nat (a - (v * 4096 + o)))) as [x Hx]; [lia|]. rewrite Hx. rewrite decide_True by lia. done.
    + replace (PGNUM e * 4096 + a `mod` 4096 - (PGNUM e * 4096 + o)) with (a - (v * 4096 + o)) by lia.
      destruct (l !! Z.to_nat (a - (v * 4096 + o))) as [x|] eqn:Ex; [|done]. apply lookup_lt_Some in Ex. rewrite decide_False by lia. done.
  - rewrite decide_False by lia. destruct (M !! (a / 4096)) as [f|] eqn:Ef; [|done]. cbn [mbind option_bind]. f_equal.
    apply (Hs (PGNUM f)); [|lia]. intros E. apply Hne. apply (as_uinj _ _ _ _ _ Ha (a / 4096) v f e); try done; [|lia].
    unfold UPAGE in *. apply Z.div_lt_upper_bound; lia.
Qed.

Lemma copyout_loop n : forall fuel s d T M va p, as_ok (mem s) d T M -> 0 <= va -> va + Z.of_nat (length p) <= UPAGE * 4096 ->
  (forall v, va / 4096 <= v -> v * 4096 < va + Z.of_nat (length p) -> upage M v) -> (length p <= n)%nat -> (n < fuel)%nat ->
  wp (loop fuel (copyout_step (kva d)) (va, p)) (fun r s' => r = 0 /\ as_ok (mem s') d T M /\ freelist s' = freelist s /\
    forall a, 0 <= a < UPAGE * 4096 ->
      ubyte (mem s') M a = if decide (va <= a < va + Z.of_nat (length p)) then u8 <$> p !! Z.to_nat (a - va) else ubyte (mem s) M a) s.
Proof.
  induction n as [|n IH]; intros fuel s d T M va p Ha Hva Hend Hup Hn Hfuel; (destruct fuel as [|fuel]; [lia|]); cbn [loop]; apply wpe_bind; unfold copyout_step.
  all: destruct (Z.ltb_spec 0 (Z.of_nat (length p))) as [Hlen | Hlen];
    [|wp_steps; split_and!; try done; intros a Har; rewrite decide_False by lia; done].
  1:{ lia. }
  set (v := va / 4096). set (o := va `mod` 4096). assert (va = v * 4096 + o /\ 0 <= o < 4096) as [Hvo Hor]
    by (unfold v, o; pose proof (Z.div_mod va 4096); pose proof (Z.mod_pos_bound va 4096); lia).
  unfold UPAGE in *. assert (0 <= v < 2^19) as Hv by lia. rewrite rounddown_page by lia. fold v.
  destruct (uva2ka_ok s d T M v Ha Hv) as (e & He & Hav & Hrun); [apply Hup; lia|]. destruct (avail_phys _ _ LAY _ Hav) as [_ Hpr].
  wp_steps. unfold wpe at 1. rewrite Hrun, (kva_nonzero _ _ LAY) by done.
  replace (PGSIZE - (va - v * 4096)) with (4096 - o) by (unfold PGSIZE; lia). replace (va - v * 4096) with o by lia.
  set (k := if Z.of_nat (length p) <? 4096 - o then Z.of_nat (length p) else 4096 - o).
  assert (0 < k <= Z.of_nat (length p) /\ o + k <= 4096 /\ (k = Z.of_nat (length p) \/ o + k = 4096)) as (Hk1 & Hk2 & Hk3)
    by (unfold k; destruct (Z.ltb_spec (Z.of_nat (length p)) (4096 - o)); lia).
  assert (Z.of_nat (length (take (Z.to_nat k) p)) = k) as Hlk by (rewrite length_take; lia).
  wp_steps. unfold kput. assert (kmapped (kva (PGNUM e) + o) (Z.of_nat (length (take (Z.to_nat k) p))) = true) as ->.
  { rewrite Hlk. unfold kmapped, kva, PHYSTOP in *. apply andb_true_iff. rewrite !Z.leb_le. change 0xE000000 with (57344 * 4096) in *. lia. }
  unfold with_mem. wp_steps. replace (kva (PGNUM e) + o - KERNBASE) with (PGNUM e * 4096 + o) by (unfold kva; lia).
  destruct (put_in_page (mem s) d T M v e o (take (Z.to_nat k) p) Ha) as [Ha' Hub]; [unfold UPAGE; lia|done|lia|lia|]. rewrite Hlk in Hub.
  replace (u32 (v * 4096 + PGSIZE)) with ((v + 1) * 4096) by (unfold PGSIZE; rewrite u32_small; lia).
  eapply wp_wpe; [apply (IH fuel (mkVm (put_bytes (mem s) (PGNUM e * 4096 + o) (take (Z.to_nat k) p)) (freelist s)) d T M ((v + 1) * 4096) (drop (Z.to_nat k) p) Ha'); try rewrite length_drop; unfold UPAGE; try lia|].
  { intros w Hw1 Hw2. rewrite Z.div_mul in Hw1 by lia. apply Hup; lia. }
  intros r s' (-> & Ha2 & Hfl & Hub2). split_and!; try done. cbn [mem] in Hub2. unfold UPAGE in *. intros a Har. rewrite Hub2, Hub by lia.
  rewrite length_drop, lookup_drop, lookup_take. repeat case_decide; try lia; try done; try (f_equal; f_equal; lia).
Qed.

Lemma copyout_ok s d T M va p : as_ok (mem s) d T M -> 0 <= va -> va + Z.of_nat (length p) <= KERNBASE ->
  (forall v, va / 4096 <= v -> v * 4096 < va + Z.of_nat (length p) -> upage M v) ->
  wp (copyout (kva d) va p) (fun r s' => r = 0 /\ as_ok (mem s') d T M /\ freelist s' = freelist s /\ forall a, 0 <= a < KERNBASE ->
      ubyte (mem s') M a = if decide (va <= a < va + Z.of_nat (length p)) then u8 <$> p !! Z.to_nat (a - va) else ubyte (mem s) M a) s.
Proof. intros Ha Hva Hend Hup. unfold copyout. apply (copyout_loop (length p)); try done; lia. Qed.
(** ** freerange *)

Lemma freerange_loop n : forall fuel s l p vend, free_ok s l -> kend <= kva p -> vend <= KERNBASE + PHYSTOP ->
  (forall q, p <= q -> kva q + 4096 <= vend -> q ∉ l) -> (Z.to_nat (vend / 4096 - kva p / 4096) <= n)%nat -> (n < fuel)%nat ->
  wp (loop fuel (freerange_step kend vend) (kva p)) (fun _ s' => exists l', free_ok s' l' /\
    (forall q, q ∈ l' <-> q ∈ l \/ p <= q /\ kva q + 4096 <= vend) /\
    same_on (fun q => ~ (p <= q /\ kva q + 4096 <= vend)) (mem s) (mem s')) s.
Proof.
  assert (forall p, kva p / 4096 = p + 2^19) as Hdiv.
  { intros p. unfold kva, KERNBASE. replace (p * 4096 + 0x80000000) with ((p + 2^19) * 4096) by lia. apply Z.div_mul. lia. }
  assert (forall p vend, kva p + 4096 <= vend <-> p + 2^19 < vend / 4096) as Hiff.
  { intros p vend. unfold kva, KERNBASE. Z.div_mod_to_equations; lia. }
  induction n as [|n IH]; intros fuel s l p vend Hf Hp Hend Hno Hn Hfuel; (destruct fuel as [|fuel]; [lia|]); cbn [loop]; apply wpe_bind; unfold freerange_step, PGSIZE.
  all: destruct (Z.leb_spec (kva p + 4096) vend) as [Hle | Hgt];
    [|wp_steps; exists l; split; [done|]; split; [|apply same_on_refl]; intros q; split; [by left|]; intros [? | [Hq1 Hq2]]; [done|]; unfold kva in *; lia].
  { exfalso. apply Hiff in Hle. rewrite Hdiv in Hn. lia. }
  wp_steps. assert (avail p) as Hav by (split; [done|unfold kva in Hle; lia]).
  eapply wp_wpe; [apply (kfree_ok kend kdata LAY s l p Hf Hav), Hno; [lia|done]|]. intros u s1 [Hf1 Hs1]. wp_steps.
  replace (kva p + 4096) with (kva (p + 1)) by (unfold kva; lia).
  eapply wp_wpe; [apply (IH fuel s1 (p :: l) (p + 1) vend Hf1); try done; try lia|].
  - unfold kva in *. lia.
  - intros q Hq1 Hq2. rewrite not_elem_of_cons. split; [lia|]. apply Hno; [lia|done].
  - rewrite Hdiv in *. lia.
  - intros u' s' (l' & Hf' & Hl' & Hs'). exists l'. split; [done|]. split.
    2: { eapply same_on_trans; [exact Hs1|exact Hs'|]. intros q Hq. split; [intros ->; apply Hq; split; [lia|done]|]. intros [? ?]. apply Hq. split; [lia|done]. }
    intros q. rewrite Hl', elem_of_cons. split.
    + intros [[-> | ?] | [? ?]]; [right; split; [lia|done]|by left|right; split; [lia|done]].
    + intros [? | [Hq1 Hq2]]; [tauto|]. destruct (decide (q = p)) as [-> |]; [tauto|]. right. split; [lia|done].
Qed.

(** kinit1 and kinit2 put the pages of the range on the free list. *)
Lemma freerange_ok s l vstart vend : free_ok s l -> kend <= vstart -> KERNBASE <= vstart -> vend <= KERNBASE + PHYSTOP -> vstart <= vend ->
  (forall q, vstart <= kva q -> kva q + 4096 <= vend -> q ∉ l) ->
  wp (freerange kend vstart vend) (fun _ s' => exists l', free_ok s' l' /\
    (forall q, q ∈ l' <-> q ∈ l \/ vstart <= kva q /\ kva q + 4096 <= vend) /\
    same_on (fun q => ~ (vstart <= kva q /\ kva q + 4096 <= vend)) (mem s) (mem s')) s.
Proof.
  intros Hf Hk Hkb Hend Hle Hno. unfold freerange. unfold KERNBASE, PHYSTOP in Hkb, Hend. rewrite roundup_page by lia. fold (pgup vstart).
  set (p := pgup vstart - 2^19). assert (pgup vstart * 4096 = kva p) as -> by (unfold p, kva, KERNBASE; lia).
  assert (forall q, vstart <= kva q <-> p <= q) as Hiff by (intros q; unfold p, pgup, kva, KERNBASE; Z.div_mod_to_equations; lia).
  eapply wp_mono; [apply (freerange_loop (Z.to_nat (vend / 4096 - kva p / 4096)) _ s l p vend Hf)|].
  - assert (vstart <= kva p) by (by apply Hiff). lia.
  - unfold KERNBASE, PHYSTOP. lia.
  - intros q Hq. by apply Hno, Hiff.
  - lia.
  - assert (0 <= kva p / 4096) by (apply Z.div_pos; [assert (vstart <= kva p) by (by apply Hiff); lia|lia]). change PGSIZE with 4096. lia.
  - intros u s' (l' & Hf' & Hl' & Hs'). exists l'. split; [done|]. split; [intros q; by rewrite Hl', Hiff|].
    eapply same_on_weaken; [exact Hs'|]. intros q. by rewrite Hiff.
Qed.
End user.
