(* ===== verification/Xv6MemThms.v ===== *)
(** * Theorems about xv6's address spaces

    fork's copy of an address space, growing a process, freeing its memory and
    writing into it: every operation is exact about the pages it takes from and
    gives to the free list, and returns an error only when memory is short. *)
From S2P Require Import Prelude Mem Mmu Xv6Vm Xv6VmRep Xv6VmOps Xv6VmUser.

(** C10: copyuvm, called by fork, makes a copy of the user half of an address
    space.  The child has the kernel's mappings, sees at every address below
    the size the byte the parent sees, with the same permissions, and has no
    other user page; its directory, tables and frames come from the free list,
    so that no page is shared, and nothing else in memory changes, the parent
    included.  It fails only if fewer pages are free than a directory, 1024
    tables, the frames and one more, and then every page is free again. *)
Theorem copyuvm_spec kend kdata s l dp Tp Mp sz :
  layout_ok kend kdata -> vm_ok kend s l dp Tp Mp -> 0 <= sz < KERNBASE -> (forall v, 0 <= v < pgup sz -> is_Some (Mp !! v)) ->
  exists r s', copyuvm kend kdata (kva dp) sz s = Ok r s' /\ same_on (fun p => p ∉ l) (mem s) (mem s') /\
    ((r = 0 /\ Z.of_nat (length l) <= 1026 + pgup sz /\ exists l', free_ok kend s' l' /\ forall p, p ∈ l' <-> p ∈ l) \/
     exists d l' T M, r = kva d /\ vm_ok kend s' l' d T M /\ (forall p, p ∈ l <-> p ∈ l' \/ owned d T M p) /\
       (forall v, UPAGE <= v -> M !! v = kern_entry kdata v) /\
       (forall v, pgup sz <= v < UPAGE -> M !! v = None) /\
       (forall v, 0 <= v < pgup sz -> PTE_FLAGS <$> M !! v = PTE_FLAGS <$> Mp !! v) /\
       (forall a, 0 <= a < pgup sz * 4096 -> ubyte (mem s') M a = ubyte (mem s) Mp a)).
Proof.
  intros LAY Hvm Hsz Hpres. destruct (wp_ends _ _ _ (copyuvm_ok kend kdata LAY s l dp Tp Mp Hvm sz Hsz Hpres)) as (r & s' & Hrun & Hr).
  exists r, s'. split; [done|]. destruct Hr as [(-> & (l' & Hf & Hl & Hs) & Hb) | (d & M & -> & _ & (l' & T & Hvm' & Hl & Hs) & Hk & Hn & Hc)].
  { split; [done|]. left. split_and!; try done. by exists l'. }
  split; [done|]. right. exists d, l', T, M. split_and!; try done.
  - intros v Hv. destruct (Hpres v Hv) as [e He]. destruct (Hc v e Hv He) as (e' & He' & Hf & _). rewrite He, He'. cbn. by rewrite Hf.
  - intros a Ha. assert (0 <= a / 4096 < pgup sz) as Hv by (split; [apply Z.div_pos|apply Z.div_lt_upper_bound]; lia).
    destruct (Hpres _ Hv) as [e He]. destruct (Hc _ e Hv He) as (e' & He' & _ & Hp). unfold ubyte. rewrite He, He'. cbn. f_equal.
    apply Hp, Z.mod_pos_bound. lia.
Qed.

(** A parent with one page, the frame 302, and one free page. *)
Definition wit_mem : gmap Z Z :=
  let m1 := fill ∅ (300 * 4096) 0 (Z.to_nat 4096) in
  let m2 := write32 (fill m1 (301 * 4096) 0 (Z.to_nat 4096)) (300 * 4096 + 4 * 0) (Z.lor (Z.lor (Z.lor (301 * 4096) PTE_P) PTE_W) PTE_U) in
  write32 m2 (301 * 4096 + 4 * (0 `mod` 1024)) (302 * 4096 + 7).
Definition wit_state : vmst := mkVm wit_mem (kva 303).
Definition wit_T : gmap Z Z := <[0 := 301]> ∅.
Definition wit_M : gmap Z Z := <[0 := 302 * 4096 + 7]> ∅.

Lemma wit_layout : layout_ok 0x80110000 0x80108000.
Proof. by constructor. Qed.

Lemma wit_avail p : 272 <= p < 57344 -> avail 0x80110000 p.
Proof. intros H. unfold avail, kva, KERNBASE, PHYSTOP. lia. Qed.

Lemma wit_ok : vm_ok 0x80110000 wit_state [303] 300 wit_T wit_M.
Proof.
  assert (forall p, owned 300 wit_T wit_M p -> p = 300 \/ p = 301 \/ p = 302) as Hown.
  { intros p [[-> | (i & Hi)] | (v & e & Hv & _ & <-)]; [by left| |].
    - right. left. unfold wit_T in Hi. apply lookup_insert_Some in Hi as [[_ <-] | [_ Hi]]; [done|by rewrite lookup_empty in Hi].
    - right. right. unfold wit_M in Hv. apply lookup_insert_Some in Hv as [[_ <-] | [_ Hv]]; [done|by rewrite lookup_empty in Hv]. }
  constructor.
  - split; [|apply NoDup_singleton]. split; [done|]. split; [apply wit_avail; lia|]. cbn [flist]. unfold wit_state, wit_mem. cbn [mem].
    rewrite word_write_ne by (done || lia). rewrite (word_write_ne _ 300 0) by (done || lia). rewrite !word_fill_ne by lia. done.
  - unfold wit_state, wit_mem. cbn [mem]. assert (~ owned 300 ∅ ∅ 301) as Hno.
    { intros [[? | (i & Hi)] | (v & e & Hv & _)]; [done|by rewrite lookup_empty in Hi|by rewrite lookup_empty in Hv]. }
    destruct (as_new_table _ _ wit_layout _ 300 ∅ ∅ 0 301 (as_empty _ ∅ 300 (wit_avail 300 ltac:(lia)))) as [Has _];
      [lia|done|apply wit_avail; lia|done|].
    eapply (as_write _ _ 300 wit_T ∅ wit_M 0 301); [exact Has|lia|done|lia| |].
    + intros w. change (flag (302 * 4096 + 7) PTE_P) with true. unfold wit_M. case_decide as E; [subst; apply lookup_insert_eq|by apply lookup_insert_ne].
    + intros _ _. change (PGNUM (302 * 4096 + 7)) with 302. split; [apply wit_avail; lia|]. split; [|by intros w f _ Hf].
      intros [? | (i & Hi)]; [done|]. unfold wit_T in Hi. apply lookup_insert_Some in Hi as [[_ E] | [_ Hi]]; [done|by rewrite lookup_empty in Hi].
  - intros p Hp Ho. apply list_elem_of_singleton in Hp. apply Hown in Ho. lia.
Qed.

Lemma wit_present v : 0 <= v < pgup 4096 -> is_Some (wit_M !! v).
Proof. change (pgup 4096) with 1. intros H. replace v with 0 by lia. by exists (302 * 4096 + 7). Qed.

Lemma copyuvm_spec_witness : exists r s', copyuvm 0x80110000 0x80108000 (kva 300) 4096 wit_state = Ok r s'.
Proof.
  destruct (copyuvm_spec 0x80110000 0x80108000 wit_state [303] 300 wit_T wit_M 4096 wit_layout wit_ok) as (r & s' & H & _);
    [done|exact wit_present|]. by exists r, s'.
Defined.

(** C22: freevm gives back exactly the pages of the address space, its user
    frames, its page tables and its directory, each once, without changing any
    other page; it never meets a page that is already free. *)
Theorem freevm_spec kend kdata s l d T M :
  layout_ok kend kdata -> vm_ok kend s l d T M ->
  exists s' l', freevm kend (kva d) s = Ok tt s' /\ free_ok kend s' l' /\ (forall p, p ∈ l' <-> p ∈ l \/ owned d T M p) /\
    same_on (fun p => p ∉ l /\ ~ owned d T M p) (mem s) (mem s').
Proof.
  intros LAY Hvm. destruct (wp_ends _ _ _ (freevm_ok kend kdata LAY s l d T M Hvm)) as ([] & s' & Hrun & l' & H1 & H2 & H3).
  by exists s', l'.
Qed.

Lemma freevm_spec_witness : exists s' l', freevm 0x80110000 (kva 300) wit_state = Ok tt s' /\ free_ok 0x80110000 s' l' /\
  300 ∈ l' /\ 301 ∈ l' /\ 302 ∈ l' /\ 303 ∈ l'.
Proof.
  destruct (freevm_spec 0x80110000 0x80108000 wit_state [303] 300 wit_T wit_M wit_layout wit_ok) as (s' & l' & H1 & H2 & H3 & _).
  exists s', l'. split; [exact H1|]. split; [exact H2|]. rewrite !H3. split; [right; left; left; reflexivity|].
  split; [right; left; right; exists 0; reflexivity|]. split; [right; right; exists 0, (302 * 4096 + 7); split_and!; reflexivity|].
  left. apply list_elem_of_here.
Defined.

(** allocuvm grows a process by fresh pages of zeros that the user may write,
    taken from the free list, and leaves its other pages alone; if memory runs
    out it returns 0 with the old mappings, and every page that was free or
    belonged to the process still does. *)
Theorem allocuvm_spec kend kdata s l d T M oldsz newsz :
  layout_ok kend kdata -> vm_ok kend s l d T M -> 0 <= oldsz <= newsz -> newsz < KERNBASE ->
  (forall v, pgup oldsz <= v < pgup newsz -> M !! v = None) ->
  exists r s' l' T' M', allocuvm kend (kva d) oldsz newsz s = Ok r s' /\ vm_ok kend s' l' d T' M' /\
    (forall p, p ∈ l' \/ owned d T' M' p <-> p ∈ l \/ owned d T M p) /\
    same_on (fun p => p ∉ l /\ ~ table_of d T p) (mem s) (mem s') /\
    ((r = 0 /\ (forall v, M' !! v = M !! v) /\ Z.of_nat (length l) <= 1026 + (pgup newsz - pgup oldsz)) \/
     (r = newsz /\ forall v, if decide (pgup oldsz <= v < pgup newsz) then zero_page s' (M' !! v) else M' !! v = M !! v)).
Proof.
  intros LAY Hvm Hold Hnew HM. destruct (wp_ends _ _ _ (allocuvm_ok kend kdata LAY s l d T M oldsz newsz Hvm Hold Hnew HM)) as (r & s' & Hrun & Hr).
  exists r, s'. destruct Hr as [(-> & (l' & T' & M' & H1 & H2 & H3 & H4) & Hb) | (-> & l' & T' & M' & H1 & H2 & H3 & H4 & H5)]; exists l', T', M'.
  - split_and!; try done. left. done.
  - split_and!; try done; [apply (grow_same _ _ _ _ _ _ _ H3)|]. right. split; [done|]. intros v. case_decide; [by apply H5|by apply H4].
Qed.

Lemma allocuvm_spec_witness : exists r s', allocuvm 0x80110000 (kva 300) 4096 5000 wit_state = Ok r s' /\ r = 5000.
Proof.
  destruct (allocuvm_spec 0x80110000 0x80108000 wit_state [303] 300 wit_T wit_M 4096 5000 wit_layout wit_ok) as (r & s' & l' & T' & M' & H & _ & _ & _ & Hr);
    [lia|done| |].
  { change (pgup 4096) with 1. change (pgup 5000) with 2. intros v Hv. replace v with 1 by lia. reflexivity. }
  exists r, s'. split; [exact H|]. destruct Hr as [[-> _] | [-> _]]; [|reflexivity].
  assert (match allocuvm 0x80110000 (kva 300) 4096 5000 wit_state with Ok r _ => r | _ => 0 end = 5000) as E by (vm_compute; reflexivity).
  rewrite H in E. discriminate E.
Defined.

(** Copyout, called by exec, writes the buffer into the memory of a process
    through its page table, across page boundaries: the process then sees the
    bytes of the buffer at the addresses from va on and its old bytes
    elsewhere, provided the pages are mapped for the user. *)
Theorem copyout_spec kend kdata s d T M va p :
  layout_ok kend kdata -> as_ok kend (mem s) d T M -> 0 <= va -> va + Z.of_nat (length p) <= KERNBASE ->
  (forall v, va / 4096 <= v -> v * 4096 < va + Z.of_nat (length p) -> upage M v) ->
  exists s', copyout (kva d) va p s = Ok 0 s' /\ as_ok kend (mem s') d T M /\ freelist s' = freelist s /\
    forall a, 0 <= a < KERNBASE ->
      ubyte (mem s') M a = if decide (va <= a < va + Z.of_nat (length p)) then u8 <$> p !! Z.to_nat (a - va) else ubyte (mem s) M a.
Proof.
  intros LAY Ha Hva Hend Hup. destruct (wp_ends _ _ _ (copyout_ok kend kdata LAY s d T M va p Ha Hva Hend Hup)) as (r & s' & Hrun & -> & H).
  by exists s'.
Qed.

Lemma copyout_spec_witness : exists s', copyout (kva 300) 4090 [1; 2; 3] wit_state = Ok 0 s' /\ ubyte (mem s') wit_M 4091 = Some 2.
Proof.
  destruct (copyout_spec 0x80110000 0x80108000 wit_state 300 wit_T wit_M 4090 [1; 2; 3] wit_layout (vm_as _ _ _ _ _ _ wit_ok)) as (s' & H & _ & _ & Hb);
    [lia|done| |].
  { change (4090 / 4096) with 0. cbn [length]. intros v H1 H2. replace v with 0 by lia. exists (302 * 4096 + 7). done. }
  exists s'. split; [exact H|]. rewrite Hb by (unfold KERNBASE; lia). reflexivity.
Defined.

(** A missing page table makes uva2ka read the entry at address 0. *)
Theorem uva2ka_no_table kend kdata s d T M v :
  layout_ok kend kdata -> as_ok kend (mem s) d T M -> 0 <= v < UPAGE -> T !! (v / 1024) = None ->
  walkpgdir (kva d) (v * 4096) false s = Ok 0 s /\ uva2ka (kva d) (v * 4096) s = Undef.
Proof.
  intros LAY Ha Hv Ht. unfold UPAGE in Hv. assert (walkpgdir (kva d) (v * 4096) false s = Ok 0 s) as E by (eapply walk_none; [done..|lia|done]).
  split; [done|]. unfold uva2ka, bind. by rewrite E.
Qed.
