(* ===== verification/Xv6Proc.v ===== *)
(** * expansion/proc.c: fork, exit, wait, kill and the scheduler

    The process table with the memory behind it.  A step is a stretch of kernel
    code of one process: a critical section under ptable.lock, or what fork and
    growproc do between two of them.  The steps of all processes interleave
    freely, on any number of CPUs; a call of copyuvm, allocuvm or deallocuvm is
    one step, though other CPUs may use the free list while it runs.  [at_]
    tells where in fork or wait the kernel thread of a process is.  Files, the
    working directory, the trap frame except its result, the context and the
    process name are left out.  The memory is any implementation of the
    interface [Vm]. *)
From S2P Require Import Prelude.

(** ** What proc.c uses of kalloc.c and vm.c

    None stands for a panic or an undefined access. *)
Class Vm (mt : Type) := {
  vm_kalloc : mt -> option (Z * mt);
  vm_kfree : Z -> mt -> option mt;
  vm_copyuvm : Z -> Z -> mt -> option (Z * mt);
  vm_freevm : Z -> mt -> option mt;
  vm_allocuvm : Z -> Z -> Z -> mt -> option (Z * mt);
  vm_deallocuvm : Z -> Z -> Z -> mt -> option (Z * mt) }.

(** Its promise, about the pages: [vm_has m F K S] says that the pages [F] are
    free, the pages [K] were given out by kalloc, and [S] has the address
    spaces by the address of their directory, with size and pages. *)
Class VmLaws (mt : Type) `{Vm mt} := {
  vm_has : mt -> gset Z -> gset Z -> gmap Z (Z * gset Z) -> Prop;
  vm_disjoint m F K S : vm_has m F K S -> F ## K /\ 0 ∉ K /\ S !! 0 = None /\
    (forall d sz ps, S !! d = Some (sz, ps) -> ps ## F /\ ps ## K) /\
    (forall d d' sz sz' ps ps', S !! d = Some (sz, ps) -> S !! d' = Some (sz', ps') -> d <> d' -> ps ## ps');
  kalloc_law m F K S : vm_has m F K S -> exists r m', vm_kalloc m = Some (r, m') /\
    ((r = 0 /\ F = ∅ /\ vm_has m' F K S) \/ (r ∈ F /\ r <> 0 /\ vm_has m' (F ∖ {[r]}) ({[r]} ∪ K) S));
  kfree_law m F K S p : vm_has m F K S -> p ∈ K -> exists m', vm_kfree p m = Some m' /\ vm_has m' ({[p]} ∪ F) (K ∖ {[p]}) S;
  copyuvm_law m F K S d sz ps : vm_has m F K S -> S !! d = Some (sz, ps) -> exists r m', vm_copyuvm d sz m = Some (r, m') /\
    ((r = 0 /\ vm_has m' F K S) \/
     exists ps', r <> 0 /\ ps' ⊆ F /\ S !! r = None /\ vm_has m' (F ∖ ps') K (<[r := (sz, ps')]> S));
  freevm_law m F K S d sz ps : vm_has m F K S -> S !! d = Some (sz, ps) -> exists m', vm_freevm d m = Some m' /\
    vm_has m' (ps ∪ F) K (delete d S);
  allocuvm_law m F K S d sz ps n : vm_has m F K S -> S !! d = Some (sz, ps) -> 0 < n < 2^31 -> exists r m' sz' ps',
    vm_allocuvm d sz (u32 (sz + n)) m = Some (r, m') /\ (r <> 0 -> r = sz') /\ (r = 0 -> sz' = sz) /\
    (exists F', vm_has m' F' K (<[d := (sz', ps')]> S) /\ F' ∪ ps' = F ∪ ps);
  deallocuvm_law m F K S d sz ps n : vm_has m F K S -> S !! d = Some (sz, ps) -> -(2^31) <= n < 0 -> exists r m' ps',
    vm_deallocuvm d sz (u32 (sz + n)) m = Some (r, m') /\ r = (if u32 (sz + n) <? sz then u32 (sz + n) else sz) /\
    (exists F', vm_has m' F' K (<[d := (r, ps')]> S) /\ F' ∪ ps' = F ∪ ps) }.

(** ** The process table *)

Inductive procstate := UNUSED | EMBRYO | SLEEPING | RUNNABLE | RUNNING | ZOMBIE.

#[export] Instance procstate_eq_dec : EqDecision procstate.
Proof. solve_decision. Defined.

(** A process sleeps on a process, in wait, or on another address. *)
Inductive pchan := OnProc (i : nat) | OnAddr (a : Z).

#[export] Instance pchan_eq_dec : EqDecision pchan.
Proof. solve_decision. Defined.

(** Outside fork and wait; in fork before the kernel stack, the address space
    and the state of the child [np] are set; in wait. *)
Inductive kpc := User | ForkStack (np : nat) | ForkCopy (np : nat) | ForkRun (np : nat) | InWait.

Record proc := mkProc { sz : Z; pgdir : Z; kstack : Z; state : procstate; pid : Z; parent : option nat; chan : option pchan;
  killed : bool; eax : Z; at_ : kpc }.

Definition NPROC : nat := 64.
Definition proc0 : proc := mkProc 0 0 0 UNUSED 0 None None false 0 User.

Section proc.
Context {mt : Type} `{Vm mt}.

Record kst := mkK { procs : list proc; nextpid : Z; initproc : nat; mm : mt; crashed : bool }.

Definition set_state (x : procstate) (q : proc) := mkProc (sz q) (pgdir q) (kstack q) x (pid q) (parent q) (chan q) (killed q) (eax q) (at_ q).
Definition set_at (l : kpc) (q : proc) := mkProc (sz q) (pgdir q) (kstack q) (state q) (pid q) (parent q) (chan q) (killed q) (eax q) l.
Definition set_parent (o : option nat) (q : proc) := mkProc (sz q) (pgdir q) (kstack q) (state q) (pid q) o (chan q) (killed q) (eax q) (at_ q).
Definition set_kstack (v : Z) (q : proc) := mkProc (sz q) (pgdir q) v (state q) (pid q) (parent q) (chan q) (killed q) (eax q) (at_ q).
Definition set_sz (v : Z) (q : proc) := mkProc v (pgdir q) (kstack q) (state q) (pid q) (parent q) (chan q) (killed q) (eax q) (at_ q).
Definition set_eax (v : Z) (q : proc) := mkProc (sz q) (pgdir q) (kstack q) (state q) (pid q) (parent q) (chan q) (killed q) v User.

Definition upd (i : nat) (f : proc -> proc) (k : kst) : kst := mkK (alter f i (procs k)) (nextpid k) (initproc k) (mm k) (crashed k).
Definition map_procs (f : proc -> proc) (k : kst) : kst := mkK (f <$> procs k) (nextpid k) (initproc k) (mm k) (crashed k).
Definition set_mm (m : mt) (k : kst) : kst := mkK (procs k) (nextpid k) (initproc k) m (crashed k).
Definition crash (k : kst) : kst := mkK (procs k) (nextpid k) (initproc k) (mm k) true.

(** A system call of process [t] returns [v]. *)
Definition return_ (t : nat) (v : Z) (k : kst) : kst := upd t (set_eax v) k.

Definition wakeup1 (c : pchan) (k : kst) : kst :=
  map_procs (fun q => if decide (state q = SLEEPING /\ chan q = Some c) then set_state RUNNABLE q else q) k.

(** The process sleeps on [c] and goes on at [l] when it is woken. *)
Definition sleep_on (t : nat) (c : pchan) (l : kpc) (k : kst) : kst :=
  upd t (fun q => mkProc (sz q) (pgdir q) (kstack q) SLEEPING (pid q) (parent q) (Some c) (killed q) (eax q) l) k.

Definition yield (t : nat) (k : kst) : kst := upd t (set_state RUNNABLE) k.

(** The first process of the table that [f] accepts. *)
Definition find_proc (f : proc -> bool) (k : kst) : option nat := fst <$> list_find (fun q => f q = true) (procs k).

(** allocproc up to the release of the lock; the caller is fork of [t]. *)
Definition allocproc (t : nat) (k : kst) : kst :=
  match find_proc (fun q => bool_decide (state q = UNUSED)) k with
  | Some i =>
      let k := upd i (fun q => mkProc (sz q) (pgdir q) (kstack q) EMBRYO (nextpid k) (parent q) (chan q) (killed q) (eax q) (at_ q)) k in
      upd t (set_at (ForkStack i)) (mkK (procs k) (s32 (nextpid k + 1)) (initproc k) (mm k) (crashed k))
  | None => return_ t (-1) k
  end.

(** The rest of allocproc. *)
Definition alloc_stack (t np : nat) (k : kst) : kst :=
  match vm_kalloc (mm k) with
  | None => crash k
  | Some (v, m) =>
      let k := upd np (set_kstack v) (set_mm m k) in
      if v =? 0 then return_ t (-1) (upd np (set_state UNUSED) k)
      else upd t (set_at (ForkCopy np)) k
  end.

(** fork from copyuvm to the second acquire. *)
Definition fork_copy (t np : nat) (q : proc) (k : kst) : kst :=
  match vm_copyuvm (pgdir q) (sz q) (mm k) with
  | None => crash k
  | Some (d, m) =>
      let k := upd np (fun c => mkProc (sz c) d (kstack c) (state c) (pid c) (parent c) (chan c) (killed c) (eax c) (at_ c)) (set_mm m k) in
      if d =? 0 then
        match procs k !! np with
        | None => crash k
        | Some c =>
            match vm_kfree (kstack c) (mm k) with
            | None => crash k
            | Some m => return_ t (-1) (upd np (fun c => set_state UNUSED (set_kstack 0 c)) (set_mm m k))
            end
        end
      else
        upd t (set_at (ForkRun np))
          (upd np (fun c => mkProc (sz q) (pgdir c) (kstack c) (state c) (pid c) (Some t) (chan c) (killed c) 0 User) k)
  end.

Definition fork_run (t np : nat) (k : kst) : kst :=
  match procs k !! np with
  | None => crash k
  | Some c => return_ t (pid c) (upd np (set_state RUNNABLE) k)
  end.

(** The loop of exit: children go to init, which is woken for a zombie. *)
Definition reparent (t : nat) (k : kst) : kst :=
  let zombie := existsb (fun q => bool_decide (parent q = Some t /\ state q = ZOMBIE)) (procs k) in
  let k := map_procs (fun q => if decide (parent q = Some t) then set_parent (Some (initproc k)) q else q) k in
  if zombie then wakeup1 (OnProc (initproc k)) k else k.

(** exit after the files are closed. *)
Definition exit (t : nat) (q : proc) (k : kst) : kst :=
  if decide (t = initproc k) then crash k
  else
    let k := match parent q with Some p => wakeup1 (OnProc p) k | None => k end in
    upd t (set_state ZOMBIE) (reparent t k).

(** One scan of wait, with the lock held throughout. *)
Definition wait (t : nat) (q : proc) (k : kst) : kst :=
  match find_proc (fun c => bool_decide (parent c = Some t /\ state c = ZOMBIE)) k with
  | Some i =>
      match procs k !! i with
      | None => crash k
      | Some c =>
          match vm_kfree (kstack c) (mm k) with
          | None => crash k
          | Some m =>
              match vm_freevm (pgdir c) m with
              | None => crash k
              | Some m =>
                  return_ t (pid c)
                    (upd i (fun c => mkProc (sz c) (pgdir c) 0 UNUSED 0 None (chan c) false (eax c) (at_ c)) (set_mm m k))
              end
          end
      end
  | None =>
      let havekids := existsb (fun c => bool_decide (parent c = Some t)) (procs k) in
      if negb havekids || killed q then return_ t (-1) k
      else sleep_on t (OnProc t) InWait k
  end.

Definition kill (t : nat) (p : Z) (k : kst) : kst :=
  match find_proc (fun c => pid c =? p) k with
  | Some i =>
      return_ t 0 (upd i (fun c => mkProc (sz c) (pgdir c) (kstack c) (if decide (state c = SLEEPING) then RUNNABLE else state c)
        (pid c) (parent c) (chan c) true (eax c) (at_ c)) k)
  | None => return_ t (-1) k
  end.

Definition growproc (t : nat) (q : proc) (n : Z) (k : kst) : kst :=
  if 0 <? n then
    match vm_allocuvm (pgdir q) (sz q) (u32 (sz q + n)) (mm k) with
    | None => crash k
    | Some (r, m) => if r =? 0 then return_ t (-1) (set_mm m k) else return_ t 0 (upd t (set_sz r) (set_mm m k))
    end
  else if n <? 0 then
    match vm_deallocuvm (pgdir q) (sz q) (u32 (sz q + n)) (mm k) with
    | None => crash k
    | Some (r, m) => if r =? 0 then return_ t (-1) (set_mm m k) else return_ t 0 (upd t (set_sz r) (set_mm m k))
    end
  else return_ t 0 k.

Definition set_chan (o : option pchan) (q : proc) := mkProc (sz q) (pgdir q) (kstack q) (state q) (pid q) (parent q) o (killed q) (eax q) (at_ q).

(** switchuvm's tests, when the scheduler picks a process, and the end of sleep
    if the process was in it; the lock is held throughout. *)
Definition schedule (t : nat) (q : proc) (k : kst) : kst :=
  if (kstack q =? 0) || (pgdir q =? 0) then crash k else upd t (fun q => set_chan None (set_state RUNNING q)) k.

(** ** Steps *)

Inductive event :=
| Schedule (t : nat) | Yield (t : nat) | Continue (t : nat)
| Fork (t : nat) | Exit (t : nat) | Wait (t : nat) | Kill (t : nat) (p : Z) | Sleep (t : nat) (a : Z) | Wakeup (t : nat) (a : Z) | Grow (t : nat) (n : Z).

Definition actor (e : event) : nat :=
  match e with
  | Schedule t | Yield t | Continue t | Fork t | Exit t | Wait t | Kill t _ | Sleep t _ | Wakeup t _ | Grow t _ => t
  end.

(** What process [q] at index [t] does; None if it cannot. *)
Definition act (e : event) (t : nat) (q : proc) (k : kst) : option kst :=
  match e, state q, at_ q with
  | Schedule _, RUNNABLE, _ => Some (schedule t q k)
  | Yield _, RUNNING, _ => Some (yield t k)
  | Continue _, RUNNING, ForkStack np => Some (alloc_stack t np k)
  | Continue _, RUNNING, ForkCopy np => Some (fork_copy t np q k)
  | Continue _, RUNNING, ForkRun np => Some (fork_run t np k)
  | Continue _, RUNNING, InWait => Some (wait t q k)
  | Fork _, RUNNING, User => Some (allocproc t k)
  | Exit _, RUNNING, User => Some (exit t q k)
  | Wait _, RUNNING, User => Some (wait t q k)
  | Kill _ p, RUNNING, User => Some (kill t p k)
  | Sleep _ a, RUNNING, User => Some (sleep_on t (OnAddr a) User k)
  | Wakeup _ a, RUNNING, User => Some (wakeup1 (OnAddr a) k)
  | Grow _ n, RUNNING, User => if decide (-(2^31) <= n < 2^31) then Some (growproc t q n k) else None
  | _, _, _ => None
  end.

Definition pstep (e : event) (k : kst) : option kst := q ← procs k !! actor e; act e (actor e) q k.

(** The table that userinit leaves: process 0 is init, with its stack and
    address space. *)
Definition booted (stack d : Z) (m : mt) : kst :=
  mkK (mkProc 4096 d stack RUNNABLE 1 None None false 0 User :: replicate (NPROC - 1) proc0) 2 0 m false.
End proc.
