(* ===== verification/Xv6ProcTree.v ===== *)
(** * The process table: states, parents and forks in progress

    The invariant of the table itself, without the memory: every child under
    construction belongs to one process that is in fork, every process that
    has been started has a parent that can wait for it, and a process sleeping
    in wait has a child and no zombie among its children.  Three lemmas keep it:
    [tree_gentle] for changes of one process at a time that neither make nor
    remove a process, [tree_two] for a step of fork or wait on a child, and
    [tree_exit]. *)
From S2P Require Import Prelude Xv6Proc.

Definition running (x : procstate) : Prop := x = RUNNING \/ x = RUNNABLE.
Definition alive (x : procstate) : Prop := running x \/ x = SLEEPING.
Definition started (x : procstate) : Prop := alive x \/ x = ZOMBIE.

(** The child a process in fork is making. *)
Definition child (l : kpc) : option nat :=
  match l with ForkStack i | ForkCopy i | ForkRun i => Some i | User | InWait => None end.

(** How far the child is. *)
Definition stage (t : nat) (l : kpc) (c : proc) : Prop :=
  match l with
  | ForkStack _ => kstack c = 0 /\ parent c = None
  | ForkCopy _ => kstack c <> 0 /\ parent c = None
  | ForkRun _ => kstack c <> 0 /\ parent c = Some t
  | _ => True
  end.

(** What a slot of the table holds by its state. *)
Definition slot_ok (q : proc) : Prop :=
  match state q with
  | UNUSED => kstack q = 0 /\ parent q = None
  | EMBRYO => True
  | _ => kstack q <> 0
  end.

Record tree_ok (ps : list proc) (init : nat) : Prop := mk_tree_ok {
  t_slot i q : ps !! i = Some q -> slot_ok q;
  t_fork t q i : ps !! t = Some q -> child (at_ q) = Some i ->
    running (state q) /\ exists c, ps !! i = Some c /\ state c = EMBRYO /\ stage t (at_ q) c;
  t_forker i c : ps !! i = Some c -> state c = EMBRYO -> exists t q, ps !! t = Some q /\ child (at_ q) = Some i;
  t_uniq t t' q q' i : ps !! t = Some q -> ps !! t' = Some q' -> child (at_ q) = Some i -> child (at_ q') = Some i -> t = t';
  t_inwait i q : ps !! i = Some q -> at_ q = InWait -> alive (state q) /\ (state q = SLEEPING -> chan q = Some (OnProc i));
  t_parent i q : ps !! i = Some q -> started (state q) -> i = init \/ exists j p, parent q = Some j /\ ps !! j = Some p /\ alive (state p);
  t_noself i q : ps !! i = Some q -> parent q <> Some i;
  t_init : exists q, ps !! init = Some q /\ alive (state q) /\ parent q = None;
  t_wait i q j : ps !! i = Some q -> state q = SLEEPING -> chan q = Some (OnProc j) ->
    j = i /\ killed q = false /\ (exists n c, ps !! n = Some c /\ parent c = Some i) /\
    (forall n c, ps !! n = Some c -> parent c = Some i -> state c <> ZOMBIE) }.

Ltac states := unfold started, alive, running in *; intuition congruence.

(** The parent of a child in fork is unknown until the last step, and then the
    process that forks it. *)
Lemma embryo_parent ps init t q i c : tree_ok ps init -> ps !! t = Some q -> child (at_ q) = Some i -> ps !! i = Some c ->
  parent c = None \/ parent c = Some t.
Proof.
  intros Ht Hq Hc Hi. destruct (t_fork _ _ Ht t q i Hq Hc) as (_ & c' & Hc' & _ & Hst). simplify_eq.
  destruct (at_ q); simpl in *; try done; naive_solver.
Qed.

Lemma lookup_insert_slot (ps : list proc) i x y : ps !! i = Some x -> forall j, <[i := y]> ps !! j = if decide (j = i) then Some y else ps !! j.
Proof.
  intros Hi j. case_decide as E; [subst; apply list_lookup_insert_eq; by eapply lookup_lt_Some|by apply list_lookup_insert_ne].
Qed.

(** ** Changes that neither make nor remove a process *)

Section gentle.
Context (ps ps' : list proc) (init : nat).

(** What may happen to one process. *)
Inductive gentle (i : nat) (q q' : proc) : Prop :=
| g_same : state q' = state q -> at_ q' = at_ q -> chan q' = chan q -> killed q' = killed q \/ state q <> SLEEPING -> gentle i q q'
| g_run : running (state q) -> running (state q') -> at_ q' = at_ q \/ child (at_ q) = None /\ child (at_ q') = None -> gentle i q q'
| g_wake : state q = SLEEPING -> running (state q') -> at_ q' = at_ q -> gentle i q q'
| g_sleep a : running (state q) -> child (at_ q) = None -> state q' = SLEEPING -> chan q' = Some (OnAddr a) -> at_ q' = User -> gentle i q q'
| g_wait : running (state q) -> child (at_ q) = None -> state q' = SLEEPING -> chan q' = Some (OnProc i) -> at_ q' = InWait ->
    killed q' = false -> (exists n c, ps !! n = Some c /\ parent c = Some i) ->
    (forall n c, ps !! n = Some c -> parent c = Some i -> state c <> ZOMBIE) -> gentle i q q'.

Context (Ht : tree_ok ps init).
Context (Hlen : length ps' = length ps).
Context (HG : forall i q q', ps !! i = Some q -> ps' !! i = Some q' -> parent q' = parent q /\ kstack q' = kstack q /\ gentle i q q').

(** What every such change keeps. *)
Definition kept (q q' : proc) : Prop :=
  parent q' = parent q /\ kstack q' = kstack q /\ child (at_ q') = child (at_ q) /\
  (child (at_ q) <> None -> at_ q' = at_ q) /\
  (alive (state q) <-> alive (state q')) /\ (state q = UNUSED <-> state q' = UNUSED) /\
  (state q = EMBRYO <-> state q' = EMBRYO) /\ (state q = ZOMBIE <-> state q' = ZOMBIE).

Lemma gentle_kept i q q' : ps !! i = Some q -> ps' !! i = Some q' -> kept q q'.
Proof.
  intros Hq Hq'. destruct (HG i q q' Hq Hq') as (Hp & Hk & Hg).
  assert (child (at_ q') = child (at_ q) /\ (child (at_ q) <> None -> at_ q' = at_ q)) as [Hc Ha].
  { destruct Hg as [? Ha|? ? [Ha|[]]|? ? Ha|? ? ? ? ? Ha|? ? ? ? Ha]; rewrite ?Ha; simpl; split; congruence. }
  unfold kept, alive, running. split_and!; try done; destruct Hg; unfold running in *; intuition congruence.
Qed.

Lemma gentle_old i q' : ps' !! i = Some q' -> exists q, ps !! i = Some q /\ kept q q'.
Proof.
  intros Hq'. destruct (lookup_lt_is_Some_2 ps i) as [q Hq]; [rewrite <- Hlen; by eapply lookup_lt_Some|].
  exists q. split; [done|]. by eapply gentle_kept.
Qed.

Lemma gentle_new i q : ps !! i = Some q -> exists q', ps' !! i = Some q' /\ kept q q'.
Proof.
  intros Hq. destruct (lookup_lt_is_Some_2 ps' i) as [q' Hq']; [rewrite Hlen; by eapply lookup_lt_Some|].
  exists q'. split; [done|]. by eapply gentle_kept.
Qed.

Lemma gentle_fork t q' i : ps' !! t = Some q' -> child (at_ q') = Some i ->
  running (state q') /\ exists c, ps' !! i = Some c /\ state c = EMBRYO /\ stage t (at_ q') c.
Proof.
  intros Hq' Hc. destruct (gentle_old t q' Hq') as (q & Hq & _ & _ & Hch & Hat & _). rewrite Hch in Hc.
  destruct (t_fork _ _ Ht t q i Hq Hc) as (Hr & c & Hi & He & Hst).
  destruct (gentle_new i c Hi) as (c' & Hi' & Hp & Hk & _ & _ & _ & _ & Hee & _). split.
  - destruct (HG t q q' Hq Hq') as (_ & _ & []); states.
  - exists c'. split_and!; [done|by apply Hee|]. rewrite Hat by congruence. destruct (at_ q); simpl in *; congruence.
Qed.

Lemma gentle_inwait i q' : ps' !! i = Some q' -> at_ q' = InWait -> alive (state q') /\ (state q' = SLEEPING -> chan q' = Some (OnProc i)).
Proof.
  intros Hq' Ha. destruct (gentle_old i q' Hq') as (q & Hq & Hkept). destruct (HG i q q' Hq Hq') as (_ & _ & Hg).
  destruct Hg as [Hs Ha' Hc|? ? _|? ? _| |]; [|states..]. rewrite Hs, Hc. apply (t_inwait _ _ Ht i q Hq). congruence.
Qed.

Lemma gentle_wait i q' j : ps' !! i = Some q' -> state q' = SLEEPING -> chan q' = Some (OnProc j) ->
  j = i /\ killed q' = false /\ (exists n c, ps' !! n = Some c /\ parent c = Some i) /\
  (forall n c, ps' !! n = Some c -> parent c = Some i -> state c <> ZOMBIE).
Proof.
  intros Hq' Hs Hc. destruct (gentle_old i q' Hq') as (q & Hq & Hkept). destruct (HG i q q' Hq Hq') as (_ & _ & Hg).
  assert (j = i /\ killed q' = false /\ (exists n c, ps !! n = Some c /\ parent c = Some i) /\
    (forall n c, ps !! n = Some c -> parent c = Some i -> state c <> ZOMBIE)) as (-> & Hkl & (n & c & Hn & Hpc) & Hz).
  { destruct Hg as [Hs' _ Hc' Hk| | | |]; [|states..|simplify_eq; by split_and!].
    destruct (t_wait _ _ Ht i q j Hq) as (-> & Hkl & Hkid & Hz); [congruence..|]. split_and!; try done. destruct Hk; congruence. }
  split_and!; [done..| |].
  - destruct (gentle_new n c Hn) as (c' & Hn' & Hp & _). exists n, c'. by rewrite Hp.
  - intros n' c' Hn' Hp'. destruct (gentle_old n' c' Hn') as (c0 & Hc0 & Hp & _ & _ & _ & _ & _ & _ & Hzz).
    rewrite Hp in Hp'. rewrite <- Hzz. by eapply Hz.
Qed.

Lemma gentle_parent i q' : ps' !! i = Some q' -> started (state q') -> i = init \/ exists j p, parent q' = Some j /\ ps' !! j = Some p /\ alive (state p).
Proof.
  intros Hq' Hst. destruct (gentle_old i q' Hq') as (q & Hq & Hp & _ & _ & _ & Hal & _ & _ & Hz).
  destruct (t_parent _ _ Ht i q Hq) as [-> | (j & p & Hj & Hpj & Hpa)]; [unfold started in *; rewrite Hal, Hz; done|by left|].
  destruct (gentle_new j p Hpj) as (p' & Hpj' & _ & _ & _ & _ & Hal' & _). right. exists j, p'. rewrite Hp. by rewrite <- Hal'.
Qed.

Lemma tree_gentle : tree_ok ps' init.
Proof.
  constructor; [|exact gentle_fork| | |exact gentle_inwait|exact gentle_parent| | |exact gentle_wait].
  - intros i q' Hq'. destruct (gentle_old i q' Hq') as (q & Hq & Hp & Hk & _ & _ & Hal & Hu & He & Hz).
    pose proof (t_slot _ _ Ht i q Hq) as Hs. unfold slot_ok in *. rewrite Hk, Hp.
    destruct (state q') eqn:E'; [by rewrite (proj2 Hu eq_refl) in Hs|done| | | |by rewrite (proj2 Hz eq_refl) in Hs];
      (destruct (proj2 Hal) as [[E | E] | E]; [states|..]; by rewrite E in Hs).
  - intros i q' Hq' He'. destruct (gentle_old i q' Hq') as (q & Hq & _ & _ & _ & _ & _ & _ & He & _).
    destruct (t_forker _ _ Ht i q Hq) as (t & p & Hp & Hc); [by apply He|].
    destruct (gentle_new t p Hp) as (p' & Hp' & _ & _ & Hch & _). exists t, p'. by rewrite Hch.
  - intros t t' q q' i Hq Hq' Hc Hc'. destruct (gentle_old t q Hq) as (p & Hp & _ & _ & Hch & _).
    destruct (gentle_old t' q' Hq') as (p' & Hp' & _ & _ & Hch' & _). apply (t_uniq _ _ Ht t t' p p' i); congruence.
  - intros i q' Hq'. destruct (gentle_old i q' Hq') as (q & Hq & Hp & _). rewrite Hp. by eapply t_noself.
  - destruct (t_init _ _ Ht) as (q & Hq & Hal & Hp). destruct (gentle_new init q Hq) as (q' & Hq' & Hp' & _ & _ & _ & Hal' & _).
    exists q'. rewrite Hp', <- Hal'. done.
Qed.
End gentle.

(** ** A step of fork or wait on a child *)

Section two.
Context (ps : list proc) (init t i : nat) (q q' c c' : proc).
Context (Ht : tree_ok ps init) (Hq : ps !! t = Some q) (Hc : ps !! i = Some c).
Context (Hr : running (state q)) (Hr' : running (state q')) (Hp : parent q' = parent q) (Hk : kstack q' = kstack q).
Context (Hold : child (at_ q) = Some i \/ child (at_ q) = None /\ (state c = UNUSED \/ state c = ZOMBIE /\ parent c = Some t)).
Context (Hnew : child (at_ q') = Some i /\ state c' = EMBRYO /\ stage t (at_ q') c' \/
  child (at_ q') = None /\ (state c' = UNUSED /\ slot_ok c' \/ state c' = RUNNABLE /\ kstack c' <> 0 /\ parent c' = Some t)).
Context (Hat : at_ c' = User).

Notation ps' := (<[t := q']> (<[i := c']> ps)).

Lemma two_old : ~ alive (state c) /\ child (at_ c) = None /\ (parent c = None \/ parent c = Some t).
Proof.
  destruct Hold as [Hch | [Hch Hst]].
  - destruct (t_fork _ _ Ht t q i Hq Hch) as (_ & c0 & Hc0 & He & _). simplify_eq. split_and!; [states| |by eapply embryo_parent].
    destruct (child (at_ c)) eqn:E; [|done]. destruct (t_fork _ _ Ht i c _ Hc E). states.
  - pose proof (t_slot _ _ Ht i c Hc) as Hs. unfold slot_ok in Hs. split_and!.
    + states.
    + destruct (child (at_ c)) eqn:E; [|done]. destruct (t_fork _ _ Ht i c _ Hc E). states.
    + destruct Hst as [Hu | [_ ?]]; [|by right]. rewrite Hu in Hs. left. apply Hs.
Qed.

Lemma two_ne : i <> t /\ i <> init.
Proof.
  destruct two_old as (Ha & _). split; intros ->; apply Ha.
  - simplify_eq. by left.
  - by destruct (t_init _ _ Ht) as (? & ? & ? & _); simplify_eq.
Qed.

Lemma two_alone j p : j <> t -> ps !! j = Some p -> child (at_ p) <> Some i.
Proof.
  intros Hj Hpj Hch. destruct Hold as [Hch' | [_ Hst]]; [by apply Hj; eapply (t_uniq _ _ Ht)|].
  destruct (t_fork _ _ Ht j p i Hpj Hch) as (_ & c0 & Hc0 & He & _). simplify_eq. destruct Hst as [? | [? _]]; congruence.
Qed.

Lemma two_new : (parent c' = None \/ parent c' = Some t) /\ state c' <> ZOMBIE /\ state c' <> SLEEPING /\ slot_ok c' /\
  (state c' = EMBRYO <-> child (at_ q') = Some i) /\ (child (at_ q') = None \/ child (at_ q') = Some i).
Proof.
  destruct Hnew as [(Hch & Hs & Hst) | (Hch & [[Hu Hs] | (Hru & Hks & Hpa)])].
  - split_and!; try congruence; [|by unfold slot_ok; rewrite Hs|done|by right].
    destruct (at_ q'); simpl in *; try done; naive_solver.
  - unfold slot_ok in *. rewrite Hu, Hch in *. naive_solver.
  - unfold slot_ok in *. rewrite Hru, Hch. naive_solver.
Qed.

Lemma two_lookup j : ps' !! j = if decide (j = t) then Some q' else if decide (j = i) then Some c' else ps !! j.
Proof.
  destruct two_ne as [Hne _]. rewrite (lookup_insert_slot _ t q).
  - case_decide; [done|]. by apply lookup_insert_slot with c.
  - by rewrite list_lookup_insert_ne.
Qed.

(** The cases of a lookup in the new table: [t], the child, or another slot. *)
Ltac two_cases H :=
  rewrite two_lookup in H; destruct (decide (_ = t)) as [-> | ];
  [injection H as <-|destruct (decide (_ = i)) as [-> | ]; [injection H as <-|]].

Lemma two_t : ps' !! t = Some q'.
Proof. rewrite two_lookup. by case_decide. Qed.
Lemma two_i : ps' !! i = Some c'.
Proof. destruct two_ne. rewrite two_lookup. by repeat case_decide. Qed.
Lemma two_other j : j <> t -> j <> i -> ps' !! j = ps !! j.
Proof. intros. rewrite two_lookup. by repeat case_decide. Qed.

Lemma two_slot j x : ps' !! j = Some x -> slot_ok x.
Proof.
  intros Hx. two_cases Hx; [|by apply two_new|by eapply t_slot]. pose proof (t_slot _ _ Ht t q Hq) as Hs.
  unfold slot_ok in *. rewrite Hk. unfold running in *. destruct Hr as [E|E], Hr' as [E'|E']; rewrite E in Hs; by rewrite E'.
Qed.

Lemma two_fork j x n : ps' !! j = Some x -> child (at_ x) = Some n ->
  running (state x) /\ exists y, ps' !! n = Some y /\ state y = EMBRYO /\ stage j (at_ x) y.
Proof.
  intros Hx Hch. two_cases Hx.
  - split; [done|]. pose proof Hnew as [(Hch' & Hs & Hst) | (Hch' & _)]; [|congruence]. assert (n = i) as -> by congruence. exists c'. by rewrite two_i.
  - by rewrite Hat in Hch.
  - destruct (t_fork _ _ Ht j x n Hx Hch) as (Hrx & y & Hy & Hye & Hst). split; [done|]. exists y. rewrite two_other; [done| |].
    + intros ->. simplify_eq. states.
    + intros ->. by destruct (two_alone j x).
Qed.

Lemma two_forker n y : ps' !! n = Some y -> state y = EMBRYO -> exists j x, ps' !! j = Some x /\ child (at_ x) = Some n.
Proof.
  intros Hy He. two_cases Hy; [states| |].
  - exists t, q'. rewrite two_t. split; [done|]. by apply two_new.
  - destruct (t_forker _ _ Ht n y Hy He) as (j & x & Hx & Hch). exists j, x. rewrite two_other; [done| |].
    + intros ->. simplify_eq. pose proof Hold as [? | [? _]]; congruence.
    + intros ->. simplify_eq. destruct two_old as (_ & ? & _). congruence.
Qed.

Lemma two_uniq j j' x x' n : ps' !! j = Some x -> ps' !! j' = Some x' -> child (at_ x) = Some n -> child (at_ x') = Some n -> j = j'.
Proof.
  intros Hx Hx' Hch Hch'. destruct two_new as (_ & _ & _ & _ & _ & Hcq).
  two_cases Hx; two_cases Hx'; try (rewrite Hat in *; done); try done.
  - destruct Hcq as [? | ?]; [congruence|]. destruct (two_alone j' x'); congruence.
  - destruct Hcq as [? | ?]; [congruence|]. destruct (two_alone j x); congruence.
  - by eapply (t_uniq _ _ Ht).
Qed.

Lemma two_parent j x : ps' !! j = Some x -> started (state x) -> j = init \/ exists n p, parent x = Some n /\ ps' !! n = Some p /\ alive (state p).
Proof.
  intros Hx Hst.
  assert (forall n p, ps !! n = Some p -> alive (state p) -> exists p', ps' !! n = Some p' /\ alive (state p')) as Hal.
  { intros n p Hn Ha. destruct (decide (n = t)) as [-> | Hnt]; [exists q'; rewrite two_t; split; [done|by left]|].
    exists p. rewrite two_other; [done..|]. intros ->. simplify_eq. by destruct two_old. }
  assert (forall y, ps !! j = Some y -> parent x = parent y -> started (state y) -> j = init \/ exists n p, parent x = Some n /\ ps' !! n = Some p /\ alive (state p)) as Hkeep.
  { intros y Hy Hpy Hsy. destruct (t_parent _ _ Ht j y Hy Hsy) as [? | (n & p & Hn & Hpn & Ha)]; [by left|]. right.
    destruct (Hal n p Hpn Ha) as (p' & ? & ?). exists n, p'. by rewrite Hpy. }
  two_cases Hx; [apply (Hkeep q); [done..|by left; left]| |by apply (Hkeep x)].
  right. pose proof Hnew as [(_ & Hs & _) | (_ & [[Hs _] | (_ & _ & Hpa)])]; [states..|].
  exists t, q'. rewrite two_t. split_and!; try done. by left.
Qed.

Lemma two_wait j x n : ps' !! j = Some x -> state x = SLEEPING -> chan x = Some (OnProc n) ->
  n = j /\ killed x = false /\ (exists n c, ps' !! n = Some c /\ parent c = Some j) /\
  (forall n c, ps' !! n = Some c -> parent c = Some j -> state c <> ZOMBIE).
Proof.
  intros Hx Hs Hch. destruct two_new as (Hpc' & Hz' & Hsl & _). destruct two_old as (_ & _ & Hpc). destruct two_ne as [Hne _].
  two_cases Hx; [states|congruence|]. destruct (t_wait _ _ Ht j x n Hx Hs Hch) as (-> & Hkl & (m & y & Hy & Hpy) & Hz). split_and!; [done..| |].
  - destruct (decide (m = t)) as [-> | Hmt]; [exists t, q'; rewrite two_t; simplify_eq; split; [done|congruence]|].
    exists m, y. rewrite two_other; [done..|]. intros ->. simplify_eq. destruct Hpc; congruence.
  - intros m' y' Hy' Hpy'. two_cases Hy'; [states|done|by eapply Hz].
Qed.

Lemma tree_two : tree_ok ps' init.
Proof.
  constructor; [exact two_slot|exact two_fork|exact two_forker|exact two_uniq| |exact two_parent| | |exact two_wait].
  - intros j x Hx Hw. two_cases Hx; [states|congruence|]. by eapply t_inwait.
  - intros j x Hx. destruct two_ne as [Hne _]. two_cases Hx; [rewrite Hp; by eapply t_noself| |by eapply t_noself].
    destruct two_new as ([-> | ->] & _); congruence.
  - destruct (t_init _ _ Ht) as (x & Hx & Ha & Hpx). destruct (decide (init = t)) as [E | Hit].
    + exists q'. rewrite E in Hx |- *. rewrite two_t. assert (x = q) by congruence. subst x. split_and!; [done|by left|congruence].
    + exists x. rewrite two_other; [done..|]. destruct two_ne. congruence.
Qed.
End two.

(** ** Exit *)

Section exit.
Context (ps ps' : list proc) (init t : nat) (q : proc).
Context (Ht : tree_ok ps init) (Hq : ps !! t = Some q) (Hr : running (state q)) (Hu : at_ q = User) (Hti : t <> init).
Context (Hpar : forall p x, parent q = Some p -> ps !! p = Some x -> state x = SLEEPING -> chan x <> Some (OnProc p)).
Context (Hz : forall n c x, ps !! n = Some c -> parent c = Some t -> state c = ZOMBIE -> ps !! init = Some x -> state x = SLEEPING -> chan x <> Some (OnProc init)).
Context (Hps' : forall j, ps' !! j = (fun x => if decide (j = t) then set_state ZOMBIE x
  else if decide (parent x = Some t) then set_parent (Some init) x else x) <$> ps !! j).

Lemma exit_old j x' : ps' !! j = Some x' -> exists x, ps !! j = Some x /\ at_ x' = at_ x /\ kstack x' = kstack x /\ chan x' = chan x /\ killed x' = killed x /\
  (state x' = state x \/ j = t /\ x = q /\ state x' = ZOMBIE) /\ (j = t -> state x' = ZOMBIE) /\
  (parent x' = parent x /\ parent x <> Some t \/ parent x = Some t /\ parent x' = Some init).
Proof.
  rewrite Hps'. destruct (ps !! j) as [x|] eqn:E; [|done]. simpl. intros H. injection H as <-. exists x. split; [done|].
  case_decide; [|case_decide]; subst; simpl; split_and!; try done; auto; [right|]; simplify_eq; auto.
  left. split; [done|]. by apply (t_noself _ _ Ht).
Qed.

Lemma exit_new j x : ps !! j = Some x -> exists x', ps' !! j = Some x' /\ at_ x' = at_ x /\ kstack x' = kstack x /\
  (j <> t -> state x' = state x) /\ (parent x <> Some t -> parent x' = parent x).
Proof.
  intros Hx. rewrite Hps', Hx. simpl. eexists. split; [done|]. case_decide; [|case_decide]; split_and!; try done; simpl; congruence.
Qed.

(** No child in fork is a child of a process outside fork. *)
Lemma exit_embryo j x : ps !! j = Some x -> state x = EMBRYO -> parent x <> Some t.
Proof.
  intros Hx He Hpx. destruct (t_forker _ _ Ht j x Hx He) as (n & y & Hy & Hch).
  destruct (embryo_parent _ _ n y j x Ht Hy Hch Hx); [congruence|]. simplify_eq. by rewrite Hu in Hch.
Qed.

Lemma exit_fork j x' n : ps' !! j = Some x' -> child (at_ x') = Some n ->
  running (state x') /\ exists y, ps' !! n = Some y /\ state y = EMBRYO /\ stage j (at_ x') y.
Proof.
  intros Hx' Hch. destruct (exit_old j x' Hx') as (x & Hx & Ha & _ & _ & _ & Hst & _). rewrite Ha in *.
  destruct (t_fork _ _ Ht j x n Hx Hch) as (Hrx & y & Hy & Hye & Hsy). split.
  - destruct Hst as [-> | (_ & -> & _)]; [done|]. by rewrite Hu in Hch.
  - destruct (exit_new n y Hy) as (y' & Hy' & _ & Hky & Hst' & Hpy). exists y'.
    assert (n <> t) by (intros ->; simplify_eq; states). rewrite Hst' by done. split_and!; [done..|].
    pose proof (exit_embryo n y Hy Hye) as Hne. specialize (Hpy Hne). destruct (at_ x); simpl in *; congruence.
Qed.

Lemma exit_parent j x' : ps' !! j = Some x' -> started (state x') -> j = init \/ exists n p, parent x' = Some n /\ ps' !! n = Some p /\ alive (state p).
Proof.
  intros Hx' Hst. destruct (exit_old j x' Hx') as (x & Hx & _ & _ & _ & _ & Hs & _ & Hp).
  assert (started (state x)) as Hsx by (destruct Hs as [<- | (_ & -> & _)]; [done|by left; left]).
  destruct Hp as [[Hp Hnt] | [Hp Hp']].
  - destruct (t_parent _ _ Ht j x Hx Hsx) as [? | (n & p & Hn & Hpn & Ha)]; [by left|]. right.
    destruct (exit_new n p Hpn) as (p' & Hp' & _ & _ & Hsp & _). exists n, p'. rewrite Hsp by congruence. by rewrite Hp.
  - right. destruct (t_init _ _ Ht) as (z & Hz' & Ha & _). destruct (exit_new init z Hz') as (z' & Hz'' & _ & _ & Hsz & _).
    exists init, z'. by rewrite Hsz.
Qed.

Lemma exit_wait j x' n : ps' !! j = Some x' -> state x' = SLEEPING -> chan x' = Some (OnProc n) ->
  n = j /\ killed x' = false /\ (exists n c, ps' !! n = Some c /\ parent c = Some j) /\
  (forall n c, ps' !! n = Some c -> parent c = Some j -> state c <> ZOMBIE).
Proof.
  intros Hx' Hs Hch. destruct (exit_old j x' Hx') as (x & Hx & _ & _ & Hcx & Hkx & Hst & Hjt & _).
  assert (j <> t) by (intros ->; rewrite Hjt in Hs; done). assert (state x = SLEEPING) as Hsx by (destruct Hst as [<- | (? & _)]; done).
  destruct (t_wait _ _ Ht j x n Hx Hsx) as (-> & Hkl & (m & y & Hy & Hpy) & Hzz); [congruence|]. split_and!; [done|congruence| |].
  - destruct (exit_new m y Hy) as (y' & Hy' & _ & _ & _ & Hpp). exists m, y'. split; [done|]. rewrite Hpp; congruence.
  - intros m' y' Hy' Hpy' Hzy. destruct (exit_old m' y' Hy') as (z & Hzl & _ & _ & _ & _ & Hsz & Hmt & Hpz).
    destruct Hpz as [[Hpz Hnt] | [Hpz Hpi]].
    + destruct Hsz as [Hsz | (-> & -> & _)]; [apply (Hzz m' z Hzl); congruence|]. apply (Hpar j x); congruence.
    + assert (j = init) as -> by congruence. destruct Hsz as [Hsz | (-> & -> & _)]; [|by apply (t_noself _ _ Ht t q)].
      apply (Hz m' z x); congruence.
Qed.

Lemma tree_exit : tree_ok ps' init.
Proof.
  constructor; [|exact exit_fork| | | |exact exit_parent| | |exact exit_wait].
  - intros j x' Hx'. destruct (exit_old j x' Hx') as (x & Hx & _ & Hk & _ & _ & Hs & _ & Hp). pose proof (t_slot _ _ Ht j x Hx) as Hok.
    unfold slot_ok in *. rewrite Hk. destruct Hs as [-> | (-> & -> & ->)].
    + destruct (state x); try done. destruct Hok as [? Hn]. rewrite Hn in Hp. destruct Hp as [[-> _] | [? _]]; done.
    + destruct Hr as [E | E]; by rewrite E in Hok.
  - intros j x' Hx' He. destruct (exit_old j x' Hx') as (x & Hx & _ & _ & _ & _ & Hs & _). destruct Hs as [Hs | (_ & _ & ?)]; [|congruence].
    destruct (t_forker _ _ Ht j x Hx) as (n & y & Hy & Hch); [congruence|]. destruct (exit_new n y Hy) as (y' & Hy' & Ha & _).
    exists n, y'. by rewrite Ha.
  - intros j j' x x' n Hx Hx' Hch Hch'. destruct (exit_old j x Hx) as (y & Hy & Ha & _). destruct (exit_old j' x' Hx') as (y' & Hy' & Ha' & _).
    apply (t_uniq _ _ Ht j j' y y' n); congruence.
  - intros j x' Hx' Hw. destruct (exit_old j x' Hx') as (x & Hx & Ha & _ & Hc & _ & Hs & _). rewrite Ha in Hw.
    destruct Hs as [-> | (_ & -> & _)]; [rewrite Hc; by eapply t_inwait|congruence].
  - intros j x' Hx' Hpj. destruct (exit_old j x' Hx') as (x & Hx & _ & _ & _ & _ & _ & _ & [[Hp _] | [Hp Hp']]).
    + rewrite Hp in Hpj. by apply (t_noself _ _ Ht j x).
    + assert (j = init) as -> by congruence. destruct (t_init _ _ Ht) as (y & Hy & _ & ?). congruence.
  - destruct (t_init _ _ Ht) as (x & Hx & Ha & Hp). destruct (exit_new init x Hx) as (x' & Hx' & _ & _ & Hs & Hpp).
    exists x'. rewrite Hs, Hpp by congruence. done.
Qed.
End exit.
