(* ===== verification/Xv6ProcInv.v ===== *)
(** * The processes and their memory

    The pages of the machine are free, or kernel stacks, or in an address
    space; the stacks and the address spaces are those of the slots of the
    table that own one.  Every step of every process keeps this and the table
    ([proc_step_inv]), against the interface [VmLaws] only. *)
From S2P Require Import Prelude Xv6Proc Xv6ProcTree.

(** ** What the slots of the table own *)

(** A slot has an address space once the process is started, and in the last
    step of fork. *)
Definition has_dir (q : proc) : bool :=
  match state q with UNUSED => false | EMBRYO => bool_decide (parent q <> None) | _ => true end.

Definition owns (q : proc) : Z * option (Z * Z) := (kstack q, if has_dir q then Some (pgdir q, sz q) else None).

Record res_ok (rs : list (Z * option (Z * Z))) (K : gset Z) (S : gmap Z (Z * gset Z)) : Prop := mk_res_ok {
  r_stack p : p ∈ K <-> p <> 0 /\ exists i o, rs !! i = Some (p, o);
  r_sinj i j p o o' : p <> 0 -> rs !! i = Some (p, o) -> rs !! j = Some (p, o') -> i = j;
  r_dir i p d s : rs !! i = Some (p, Some (d, s)) -> exists ps, S !! d = Some (s, ps);
  r_dinj i j p p' d s s' : rs !! i = Some (p, Some (d, s)) -> rs !! j = Some (p', Some (d, s')) -> i = j;
  r_dom d v : S !! d = Some v -> exists i p s, rs !! i = Some (p, Some (d, s)) }.

(** The pages that are somewhere. *)
Definition held (F K : gset Z) (S : gmap Z (Z * gset Z)) (p : Z) : Prop :=
  p ∈ F \/ p ∈ K \/ exists d s ps, S !! d = Some (s, ps) /\ p ∈ ps.

Section res.
Context (rs : list (Z * option (Z * Z))) (K : gset Z) (S : gmap Z (Z * gset Z)) (Hres : res_ok rs K S).

Lemma slot_lookup i y x j : rs !! i = Some y -> <[i := x]> rs !! j = if decide (j = i) then Some x else rs !! j.
Proof.
  intros Hi. case_decide as E; [subst; apply list_lookup_insert_eq; by eapply lookup_lt_Some|by apply list_lookup_insert_ne].
Qed.

Ltac slots := repeat match goal with
  | H : <[_ := _]> rs !! _ = Some _ |- _ => erewrite slot_lookup in H by eassumption; case_decide; simplify_eq
  end.

Lemma res_set_stack i o p : rs !! i = Some (0, o) -> p ∉ K -> p <> 0 -> res_ok (<[i := (p, o)]> rs) ({[p]} ∪ K) S.
Proof.
  intros Hi Hp Hp0. destruct Hres as [Hs Hsi Hd Hdi Hdom].
  assert (forall j o', rs !! j <> Some (p, o')) as Hno by (intros j o' Hj; apply Hp, Hs; eauto).
  constructor.
  - intros p'. rewrite elem_of_union, elem_of_singleton, Hs. split.
    + intros [-> | (Hp' & j & o' & Hj)]; [split; [done|]; exists i, o; by erewrite slot_lookup, decide_True by done|].
      split; [done|]. exists j, o'. erewrite slot_lookup by done. case_decide; [congruence|done].
    + intros (Hp' & j & o' & Hj). slots; eauto.
  - intros j j' p' o' o'' Hp' Hj Hj'. slots; try done; try naive_solver; by eapply Hsi.
  - intros j p' d s Hj. slots; by eapply Hd.
  - intros j j' p' p'' d s s' Hj Hj'. slots; try done; by eapply Hdi.
  - intros d v Hv. destruct (Hdom d v Hv) as (j & p' & s & Hj). destruct (decide (j = i)) as [-> |].
    + simplify_eq. exists i, p, s. by erewrite slot_lookup, decide_True by done.
    + exists j, p', s. by rewrite list_lookup_insert_ne.
Qed.

Lemma res_drop_stack i o p : rs !! i = Some (p, o) -> p <> 0 -> res_ok (<[i := (0, o)]> rs) (K ∖ {[p]}) S.
Proof.
  intros Hi Hp0. destruct Hres as [Hs Hsi Hd Hdi Hdom]. constructor.
  - intros p'. rewrite elem_of_difference, elem_of_singleton, Hs. split.
    + intros ((Hp' & j & o' & Hj) & Hne). split; [done|]. exists j, o'. erewrite slot_lookup by done. case_decide; [congruence|done].
    + intros (Hp' & j & o' & Hj). slots. split; [eauto|]. intros ->. by assert (j = i) by (by eapply Hsi).
  - intros j j' p' o' o'' Hp' Hj Hj'. slots; try done; by eapply Hsi.
  - intros j p' d s Hj. slots; by eapply Hd.
  - intros j j' p' p'' d s s' Hj Hj'. slots; try done; by eapply Hdi.
  - intros d v Hv. destruct (Hdom d v Hv) as (j & p' & s & Hj). destruct (decide (j = i)) as [-> |].
    + simplify_eq. exists i, 0, s. by erewrite slot_lookup, decide_True by done.
    + exists j, p', s. by rewrite list_lookup_insert_ne.
Qed.

Lemma stack_same i p o o' p' : rs !! i = Some (p, o) ->
  (exists j o'', <[i := (p, o')]> rs !! j = Some (p', o'')) <-> exists j o'', rs !! j = Some (p', o'').
Proof.
  intros Hi. split; intros (j & o'' & Hj).
  - slots; eauto.
  - destruct (decide (j = i)) as [-> |]; [simplify_eq; exists i, o'; by erewrite slot_lookup, decide_True by done|].
    exists j, o''. by rewrite list_lookup_insert_ne.
Qed.

Lemma res_set_dir i p d s ps : rs !! i = Some (p, None) -> S !! d = None -> res_ok (<[i := (p, Some (d, s))]> rs) K (<[d := (s, ps)]> S).
Proof.
  intros Hi HS. destruct Hres as [Hs Hsi Hd Hdi Hdom].
  assert (forall j p' s', rs !! j <> Some (p', Some (d, s'))) as Hno by (intros j p' s' Hj; destruct (Hd j p' d s' Hj); congruence).
  constructor.
  - intros p'. rewrite Hs. by erewrite stack_same.
  - intros j j' p' o' o'' Hp' Hj Hj'. slots; try done; by eapply Hsi.
  - intros j p' d' s' Hj. slots; [rewrite lookup_insert_eq; eauto|]. rewrite lookup_insert_ne by (intros <-; by eapply Hno). by eapply Hd.
  - intros j j' p' p'' d' s' s'' Hj Hj'. slots; try done; try naive_solver; by eapply Hdi.
  - intros d' v Hv. destruct (decide (d' = d)) as [-> | Hne].
    + exists i, p, s. by erewrite slot_lookup, decide_True by done.
    + rewrite lookup_insert_ne in Hv by done. destruct (Hdom d' v Hv) as (j & p' & s' & Hj). exists j, p', s'.
      rewrite list_lookup_insert_ne; [done|]. intros <-. congruence.
Qed.

Lemma res_drop_dir i p d s : rs !! i = Some (p, Some (d, s)) -> res_ok (<[i := (p, None)]> rs) K (delete d S).
Proof.
  intros Hi. destruct Hres as [Hs Hsi Hd Hdi Hdom]. constructor.
  - intros p'. rewrite Hs. by erewrite stack_same.
  - intros j j' p' o' o'' Hp' Hj Hj'. slots; try done; by eapply Hsi.
  - intros j p' d' s' Hj. slots. rewrite lookup_delete_ne; [by eapply Hd|]. intros <-. by assert (j = i) by (by eapply Hdi).
  - intros j j' p' p'' d' s' s'' Hj Hj'. slots; try done; by eapply Hdi.
  - intros d' v Hv. apply lookup_delete_Some in Hv as [Hne Hv]. destruct (Hdom d' v Hv) as (j & p' & s' & Hj). exists j, p', s'.
    rewrite list_lookup_insert_ne; [done|]. intros <-. congruence.
Qed.

Lemma res_size i p d s s' ps : rs !! i = Some (p, Some (d, s)) -> res_ok (<[i := (p, Some (d, s'))]> rs) K (<[d := (s', ps)]> S).
Proof.
  intros Hi. destruct Hres as [Hs Hsi Hd Hdi Hdom]. constructor.
  - intros p'. rewrite Hs. by erewrite stack_same.
  - intros j j' p' o' o'' Hp' Hj Hj'. slots; try done; by eapply Hsi.
  - intros j p' d' t Hj. slots; [rewrite lookup_insert_eq; eauto|]. rewrite lookup_insert_ne; [by eapply Hd|].
    intros <-. by assert (j = i) by (by eapply Hdi).
  - intros j j' p' p'' d' t t' Hj Hj'. slots; try done; by eapply Hdi.
  - intros d' v Hv. destruct (decide (d' = d)) as [-> | Hne].
    + exists i, p, s'. by erewrite slot_lookup, decide_True by done.
    + rewrite lookup_insert_ne in Hv by done. destruct (Hdom d' v Hv) as (j & p' & t & Hj). exists j, p', t.
      rewrite list_lookup_insert_ne; [done|]. intros <-. congruence.
Qed.
End res.

(** The pages of the address spaces but one. *)
Definition elsewhere (S : gmap Z (Z * gset Z)) (d p : Z) : Prop := exists d' s ps, d' <> d /\ S !! d' = Some (s, ps) /\ p ∈ ps.

Section held.
Context (F K : gset Z) (S : gmap Z (Z * gset Z)) (d : Z).

Lemma held_split s ps p : S !! d = Some (s, ps) -> held F K S p <-> p ∈ F \/ p ∈ K \/ p ∈ ps \/ elsewhere S d p.
Proof.
  intros HS. unfold held, elsewhere. split.
  - intros [? | [? | (d' & s' & ps' & HS' & Hp)]]; [auto..|]. destruct (decide (d' = d)) as [-> |]; [simplify_eq; auto|]. do 3 right. eauto 7.
  - intros [? | [? | [? | (d' & s' & ps' & _ & ? & ?)]]]; eauto 8.
Qed.

Lemma held_insert s ps p : held F K (<[d := (s, ps)]> S) p <-> p ∈ F \/ p ∈ K \/ p ∈ ps \/ elsewhere S d p.
Proof.
  unfold held, elsewhere. split.
  - intros [? | [? | (d' & s' & ps' & HS & Hp)]]; [auto..|]. apply lookup_insert_Some in HS as [[-> ?] | [? HS]]; [simplify_eq; auto|].
    do 3 right. eauto 7.
  - intros [? | [? | [Hp | (d' & s' & ps' & Hne & HS & Hp)]]]; [auto..| |].
    + do 2 right. exists d, s, ps. by rewrite lookup_insert_eq.
    + do 2 right. exists d', s', ps'. by rewrite lookup_insert_ne.
Qed.

Lemma held_delete p : held F K (delete d S) p <-> p ∈ F \/ p ∈ K \/ elsewhere S d p.
Proof.
  unfold held, elsewhere. split.
  - intros [? | [? | (d' & s' & ps' & HS & Hp)]]; [auto..|]. apply lookup_delete_Some in HS as [? HS]. do 2 right. eauto 7.
  - intros [? | [? | (d' & s' & ps' & Hne & HS & Hp)]]; [auto..|]. do 2 right. exists d', s', ps'. by rewrite lookup_delete_ne.
Qed.

Lemma held_none p : S !! d = None -> held F K S p <-> p ∈ F \/ p ∈ K \/ elsewhere S d p.
Proof. intros HS. rewrite <- held_delete. by rewrite delete_id. Qed.
End held.

(** ** The invariant *)

Section inv.
Context {mt : Type} `{VmLaws mt}.
Implicit Types (k : kst (mt := mt)) (T : gset Z) (ps : list proc).

Definition inv T k : Prop := crashed k = false /\ tree_ok (procs k) (initproc k) /\
  exists F K S, vm_has (mm k) F K S /\ res_ok (owns <$> procs k) K S /\ forall p, p ∈ T <-> held F K S p.

Definition with_procs (ps : list proc) k : kst := mkK ps (nextpid k) (initproc k) (mm k) (crashed k).

Lemma upd_with k i f q : procs k !! i = Some q -> upd i f k = with_procs (<[i := f q]> (procs k)) k.
Proof.
  intros Hq. unfold upd, with_procs. f_equal. apply list_eq. intros j. destruct (decide (j = i)) as [-> | Hj].
  - rewrite list_lookup_alter_eq, Hq, list_lookup_insert_eq by (by eapply lookup_lt_Some). done.
  - by rewrite list_lookup_alter_ne, list_lookup_insert_ne by done.
Qed.

Lemma owns_one ps i q q' : ps !! i = Some q -> owns q' = owns q -> owns <$> <[i := q']> ps = owns <$> ps.
Proof.
  intros Hq Ho. rewrite list_fmap_insert, Ho. apply list_insert_id. by rewrite list_lookup_fmap, Hq.
Qed.

Lemma owns_lookup ps i q : ps !! i = Some q -> (owns <$> ps) !! i = Some (owns q).
Proof. intros Hq. by rewrite list_lookup_fmap, Hq. Qed.

Lemma owns_two ps t i q q' c' : ps !! t = Some q -> t <> i -> owns q' = owns q ->
  owns <$> <[t := q']> (<[i := c']> ps) = <[i := owns c']> (owns <$> ps).
Proof.
  intros Hq Hne Ho. rewrite (owns_one _ t q q'); [apply list_fmap_insert| |done]. by rewrite list_lookup_insert_ne.
Qed.

(** A change of the table alone. *)
Lemma inv_table T k ps n : inv T k -> tree_ok ps (initproc k) -> owns <$> ps = owns <$> procs k ->
  inv T (mkK ps n (initproc k) (mm k) (crashed k)).
Proof. intros (Hc & _ & F & K & S & Hm & Hr & HT) Ht Ho. split_and!; [done..|]. exists F, K, S. simpl. by rewrite Ho. Qed.

Lemma gentle_one ps init i q q' : tree_ok ps init -> ps !! i = Some q -> parent q' = parent q -> kstack q' = kstack q -> gentle ps i q q' ->
  tree_ok (<[i := q']> ps) init.
Proof.
  intros Ht Hq Hp Hk Hg. apply (tree_gentle ps _ init Ht); [apply length_insert|]. intros j x x' Hx Hx'.
  rewrite (lookup_insert_slot _ i q) in Hx' by done. case_decide; simplify_eq; [done|]. split_and!; try done. apply g_same; auto.
Qed.

Lemma inv_one T k i q q' : inv T k -> procs k !! i = Some q -> parent q' = parent q -> owns q' = owns q -> gentle (procs k) i q q' ->
  inv T (with_procs (<[i := q']> (procs k)) k).
Proof.
  intros Hi Hq Hp Ho Hg. apply inv_table; [done| |by apply (owns_one _ i q)]. destruct Hi as (_ & Ht & _).
  apply (gentle_one _ _ i q); try done. by injection Ho.
Qed.

Lemma owns_run q q' : alive (state q) -> alive (state q') -> kstack q' = kstack q -> pgdir q' = pgdir q -> sz q' = sz q -> owns q' = owns q.
Proof.
  intros Ha Ha' Hk Hd Hs. unfold owns, has_dir. rewrite Hk, Hd, Hs.
  destruct Ha as [[-> | ->] | ->], Ha' as [[-> | ->] | ->]; done.
Qed.

Lemma inv_return T k t v q : inv T k -> procs k !! t = Some q -> running (state q) -> child (at_ q) = None -> inv T (return_ t v k).
Proof.
  intros Hi Hq Hr Hc. unfold return_. rewrite (upd_with k t _ q) by done. apply (inv_one _ _ t q); try done. apply g_run; simpl; auto.
Qed.

Lemma inv_wakeup T k c : inv T k -> inv T (wakeup1 c k).
Proof.
  intros Hi. apply inv_table; [done| |].
  - destruct Hi as (_ & Ht & _). apply (tree_gentle (procs k)); [done|by rewrite length_fmap|]. intros i q q' Hq Hq'.
    rewrite list_lookup_fmap, Hq in Hq'. simplify_eq/=. case_decide as E; (split; [done|split; [done|]]).
    + apply g_wake; [apply E|by right|done].
    + apply g_same; auto.
  - rewrite <- list_fmap_compose. apply list_fmap_ext. intros i q _. simpl. case_decide as E; [|done].
    apply owns_run; try done; [right; apply E|left; by right].
Qed.

Lemma dead_user ps init i c : tree_ok ps init -> ps !! i = Some c -> ~ alive (state c) -> at_ c = User.
Proof.
  intros Ht Hc Ha. destruct (at_ c) eqn:E; [done|..]; try (destruct (t_fork _ _ Ht i c np Hc) as [Hr _]; [by rewrite E|]; by destruct Ha; left).
  by destruct (t_inwait _ _ Ht i c Hc E).
Qed.

Lemma find_proc_Some f k i : find_proc f k = Some i -> exists c, procs k !! i = Some c /\ f c = true.
Proof.
  unfold find_proc. intros Hf. apply fmap_Some in Hf as ([j c] & Hf & ->). apply list_find_Some in Hf as (? & ? & _). by exists c.
Qed.

Lemma find_proc_None f k : find_proc f k = None -> forall i c, procs k !! i = Some c -> f c = false.
Proof.
  unfold find_proc. intros Hf i c Hc. apply fmap_None in Hf. apply list_find_None in Hf. rewrite Forall_lookup in Hf.
  specialize (Hf i c Hc). by destruct (f c).
Qed.

Lemma find_proc_insert f k ps t q q' : procs k !! t = Some q -> f q' = f q -> ps = <[t := q']> (procs k) ->
  forall n (m : mt), find_proc f (mkK ps n (initproc k) m (crashed k)) = find_proc f k.
Proof.
  intros Hq Hf -> n m. unfold find_proc. simpl. revert t Hq. induction (procs k) as [|x l IH]; intros t Hq; [done|].
  destruct t as [|t]; simpl in *; [simplify_eq; rewrite Hf; by case_decide|]. case_decide; [done|].
  specialize (IH t Hq). destruct (list_find _ (<[t := q']> l)) as [[]|], (list_find _ l) as [[]|]; simpl in *; congruence.
Qed.

(** ** A step of a process on a child *)

(** The table after a step of process [t] on slot [i], with the resources it
    leaves. *)
Lemma inv_two T k t i q q' c c' m n F K S : crashed k = false -> tree_ok (procs k) (initproc k) ->
  procs k !! t = Some q -> procs k !! i = Some c -> running (state q) -> running (state q') -> parent q' = parent q -> owns q' = owns q ->
  (child (at_ q) = Some i \/ child (at_ q) = None /\ (state c = UNUSED \/ state c = ZOMBIE /\ parent c = Some t)) ->
  (child (at_ q') = Some i /\ state c' = EMBRYO /\ stage t (at_ q') c' \/
   child (at_ q') = None /\ (state c' = UNUSED /\ slot_ok c' \/ state c' = RUNNABLE /\ kstack c' <> 0 /\ parent c' = Some t)) ->
  at_ c' = User -> vm_has m F K S -> res_ok (<[i := owns c']> (owns <$> procs k)) K S -> (forall p, p ∈ T <-> held F K S p) ->
  inv T (mkK (<[t := q']> (<[i := c']> (procs k))) n (initproc k) m (crashed k)).
Proof.
  intros Hcr Ht Hq Hc Hr Hr' Hp Ho Hold Hnew Hat Hm Hres HT. assert (kstack q' = kstack q) as Hk by (by injection Ho).
  assert (i <> t) as Hne by (by destruct (two_ne (procs k) (initproc k) t i q q' c c')). split_and!; [done|by eapply tree_two|].
  exists F, K, S. simpl. rewrite (owns_two _ t i q) by done. split; [done|]. by split.
Qed.

(** ** The operations *)

Section handlers.
Context (T : gset Z) (k : kst (mt := mt)) (t : nat) (q : proc).
Context (Hinv : inv T k) (Hq : procs k !! t = Some q) (Hrun : state q = RUNNING).

(** The updates of process [t] and of slot [i], in either order of writing. *)
Lemma upd_two (kk : kst (mt := mt)) i c f g : procs kk !! t = Some q -> procs kk !! i = Some c -> i <> t ->
  upd t f (upd i g kk) = mkK (<[t := f q]> (<[i := g c]> (procs kk))) (nextpid kk) (initproc kk) (mm kk) (crashed kk).
Proof.
  intros Ht Hi Hne. rewrite (upd_with kk i g c) by done. rewrite (upd_with _ t f q); [done|]. simpl. by rewrite list_lookup_insert_ne.
Qed.

Lemma schedule_inv q0 : procs k !! t = Some q0 -> state q0 = RUNNABLE -> inv T (schedule t q0 k).
Proof.
  intros Hq0 Hst. destruct Hinv as (_ & Ht & F & K & S & Hm & Hr & _).
  pose proof (t_slot _ _ Ht t q0 Hq0) as Hs. unfold slot_ok in Hs. rewrite Hst in Hs.
  assert (pgdir q0 <> 0) as Hd.
  { intros E. destruct (r_dir _ _ _ Hr t (kstack q0) (pgdir q0) (sz q0)) as [ps HS].
    - rewrite list_lookup_fmap, Hq0. unfold owns, has_dir. simpl. by rewrite Hst.
    - rewrite E in HS. destruct (vm_disjoint _ _ _ _ Hm) as (_ & _ & ? & _). congruence. }
  unfold schedule. rewrite (proj2 (Z.eqb_neq _ _) Hs), (proj2 (Z.eqb_neq _ _) Hd). simpl.
  rewrite (upd_with k t _ q0) by done. apply (inv_one _ _ t q0); try done.
  - apply owns_run; simpl; try done; left; [by right|by left].
  - apply g_run; simpl; [by right|by left|by left].
Qed.

Lemma yield_inv : inv T (yield t k).
Proof.
  unfold yield. rewrite (upd_with k t _ q) by done. apply (inv_one _ _ t q); try done.
  - apply owns_run; simpl; try done; left; [by left|by right].
  - apply g_run; simpl; [by left|by right|by left].
Qed.

Lemma sleep_inv a : at_ q = User -> inv T (sleep_on t (OnAddr a) User k).
Proof.
  intros Hu. unfold sleep_on. rewrite (upd_with k t _ q) by done. apply (inv_one _ _ t q); try done.
  - apply owns_run; simpl; try done; [by left; left|by right].
  - apply (g_sleep _ _ _ _ a); simpl; try done; [by left|by rewrite Hu].
Qed.

Lemma kill_inv p : at_ q = User -> inv T (kill t p k).
Proof.
  intros Hu. unfold kill. assert (child (at_ q) = None) as Hch by (by rewrite Hu).
  destruct (find_proc _ k) as [i|] eqn:Hf; [|by apply (inv_return _ _ _ _ q); [..|left|]].
  apply find_proc_Some in Hf as (c & Hc & _). rewrite (upd_with k i _ c) by done.
  match goal with |- inv T (return_ t 0 (with_procs (<[i := ?e]> _) k)) => set (c' := e) end.
  assert (inv T (with_procs (<[i := c']> (procs k)) k)) as Hi'.
  { apply (inv_one _ _ i c); try done.
    - unfold owns, has_dir. subst c'. simpl. case_decide as E; [by rewrite E|done].
    - destruct (decide (state c = SLEEPING)) as [E|E].
      + apply g_wake; subst c'; simpl; [done|by right|done].
      + apply g_same; subst c'; simpl; try done; by right. }
  destruct (decide (i = t)) as [-> | Hne].
  - simplify_eq. apply (inv_return _ _ t 0 c'); [done| | |done].
    + simpl. rewrite list_lookup_insert_eq; [done|]. by eapply lookup_lt_Some.
    + subst c'. simpl. rewrite decide_False by congruence. by left.
  - apply (inv_return _ _ t 0 q); [done| |by left|done]. simpl. by rewrite list_lookup_insert_ne.
Qed.

Lemma own_space K S : res_ok (owns <$> procs k) K S -> exists pg, S !! pgdir q = Some (sz q, pg).
Proof.
  intros Hr. apply (r_dir _ _ _ Hr t (kstack q)). rewrite list_lookup_fmap, Hq. unfold owns, has_dir. simpl. by rewrite Hrun.
Qed.

(** A change of the size of the address space of [t]. *)
Lemma inv_resize F F' K S m d s pg s' pg' v : vm_has (mm k) F K S -> res_ok (owns <$> procs k) K S -> (forall p, p ∈ T <-> held F K S p) ->
  pgdir q = d -> sz q = s -> S !! d = Some (s, pg) -> at_ q = User ->
  vm_has m F' K (<[d := (s', pg')]> S) -> F' ∪ pg' = F ∪ pg -> inv T (return_ t v (upd t (set_sz s') (set_mm m k))).
Proof.
  intros Hm Hr HT Hd Hs HS Hu Hm' Heq. destruct Hinv as (Hc & Ht & _).
  apply (inv_return _ _ t v (set_sz s' q)); [| |by left|by simpl; rewrite Hu].
  2: { rewrite (upd_with (set_mm m k) t _ q) by done. simpl. rewrite list_lookup_insert_eq; [done|]. by eapply lookup_lt_Some. }
  rewrite (upd_with (set_mm m k) t _ q) by done. split_and!; [done| |].
  - apply (gentle_one _ _ t q); try done. apply g_run; simpl; [by left..|by left].
  - exists F', K, (<[d := (s', pg')]> S). split_and!; [done| |].
    + simpl. rewrite list_fmap_insert. replace (owns (set_sz s' q)) with (kstack q, Some (d, s')).
      * apply (res_size _ _ _ Hr t _ d s). rewrite (owns_lookup _ t q) by done. unfold owns, has_dir. by rewrite Hrun, Hd, Hs.
      * unfold owns, has_dir. simpl. by rewrite Hrun, Hd.
    + intros p. rewrite HT, (held_split F K S d s pg), held_insert by done.
      assert (p ∈ F' \/ p ∈ pg' <-> p ∈ F \/ p ∈ pg) by (rewrite <- !elem_of_union; by rewrite Heq). tauto.
Qed.

(** The address space of [t] keeps its size. *)
Lemma inv_remap F F' K S m pg pg' v : vm_has (mm k) F K S -> res_ok (owns <$> procs k) K S -> (forall p, p ∈ T <-> held F K S p) ->
  S !! pgdir q = Some (sz q, pg) -> at_ q = User -> vm_has m F' K (<[pgdir q := (sz q, pg')]> S) -> F' ∪ pg' = F ∪ pg ->
  inv T (return_ t v (set_mm m k)).
Proof.
  intros Hm Hr HT HS Hu Hm' Heq. pose proof (inv_resize F F' K S m _ _ pg (sz q) pg' v Hm Hr HT eq_refl eq_refl HS Hu Hm' Heq) as Hi.
  revert Hi. unfold return_. rewrite (upd_with (set_mm m k) t _ q) by done.
  replace (<[t := set_sz (sz q) q]> (procs (set_mm m k))) with (procs k); [done|].
  symmetry. apply list_insert_id. rewrite Hq. by destruct q.
Qed.

Lemma growproc_inv n : at_ q = User -> -(2^31) <= n < 2^31 -> u32 (sz q + n) <> 0 -> inv T (growproc t q n k).
Proof.
  intros Hu Hn H0'. pose proof Hinv as (Hc & Ht & F & K & S & Hm & Hr & HT). destruct (own_space K S Hr) as [pg HS].
  unfold growproc. destruct (0 <? n) eqn:E1; [|destruct (n <? 0) eqn:E2].
  - apply Z.ltb_lt in E1. destruct (allocuvm_law _ F K S _ _ _ n Hm HS) as (r & m' & s' & pg' & -> & Hr1 & Hr0 & F' & Hm' & Heq); [lia|].
    destruct (r =? 0) eqn:E; [apply Z.eqb_eq in E|apply Z.eqb_neq in E].
    + rewrite (Hr0 E) in Hm'. by eapply (inv_remap F F').
    + rewrite (Hr1 E). by eapply (inv_resize F F').
  - apply Z.ltb_lt in E2. destruct (deallocuvm_law _ F K S _ _ _ n Hm HS) as (r & m' & pg' & -> & Hrr & F' & Hm' & Heq); [lia|].
    destruct (r =? 0) eqn:E; [|by eapply (inv_resize F F')].
    apply Z.eqb_eq in E. assert (r = sz q) as -> by (destruct (u32 (sz q + n) <? sz q); congruence). by eapply (inv_remap F F').
  - apply (inv_return _ _ t 0 q); [done..|by left|by rewrite Hu].
Qed.

Lemma allocproc_inv : at_ q = User -> inv T (allocproc t k).
Proof.
  intros Hu. unfold allocproc. destruct (find_proc _ k) as [i|] eqn:Hf.
  2: { apply (inv_return _ _ t (-1) q); [done..|by left|by rewrite Hu]. }
  apply find_proc_Some in Hf as (c & Hc & Hst). apply bool_decide_eq_true in Hst.
  pose proof Hinv as (Hcr & Ht & F & K & S & Hm & Hr & HT). pose proof (t_slot _ _ Ht i c Hc) as Hs. unfold slot_ok in Hs. rewrite Hst in Hs.
  destruct Hs as [Hk Hp]. assert (i <> t) as Hne by (intros ->; congruence).
  rewrite (upd_with k i _ c) by done. simpl. rewrite (upd_with _ t _ q); [|simpl; by rewrite list_lookup_insert_ne]. unfold with_procs. simpl.
  eapply (inv_two T k t i q _ c); simpl; try done; [by left..|by rewrite Hu; auto|by left| |].
  - apply (dead_user (procs k) (initproc k) i c); [done..|]. rewrite Hst. states.
  - rewrite list_insert_id; [done|]. rewrite list_lookup_fmap, Hc. unfold owns, has_dir. simpl. rewrite Hst. by rewrite bool_decide_eq_false_2 by (rewrite Hp; auto).
Qed.

(** The child in progress. *)
Lemma forked i : child (at_ q) = Some i -> exists c, procs k !! i = Some c /\ state c = EMBRYO /\ stage t (at_ q) c /\ i <> t /\ at_ c = User.
Proof.
  intros Hch. destruct Hinv as (_ & Ht & _). destruct (t_fork _ _ Ht t q i Hq Hch) as (_ & c & Hc & He & Hst).
  exists c. split_and!; try done; [intros ->; congruence|]. apply (dead_user (procs k) (initproc k) i c); [done..|]. rewrite He. states.
Qed.

Lemma owns_embryo c : state c = EMBRYO -> parent c = None -> owns c = (kstack c, None).
Proof. intros Hs Hp. unfold owns, has_dir. by rewrite Hs, Hp. Qed.

Lemma alloc_stack_inv i : at_ q = ForkStack i -> inv T (alloc_stack t i k).
Proof.
  intros Hat. destruct (forked i) as (c & Hc & He & Hsg & Hne & Hcu); [by rewrite Hat|]. rewrite Hat in Hsg. destruct Hsg as [Hk Hp].
  pose proof Hinv as (Hcr & Ht & F & K & S & Hm & Hr & HT). pose proof (owns_lookup _ _ _ Hc) as Ho. rewrite (owns_embryo c) in Ho by done.
  unfold alloc_stack. destruct (kalloc_law _ F K S Hm) as (v & m' & -> & Hv).
  destruct (v =? 0) eqn:E; [apply Z.eqb_eq in E|apply Z.eqb_neq in E]; rewrite (upd_with (set_mm m' k) i _ c) by done.
  - unfold return_. rewrite (upd_two _ i (set_kstack v c)); simpl; [|by rewrite list_lookup_insert_ne|by rewrite list_lookup_insert_eq by (by eapply lookup_lt_Some)|done].
    rewrite list_insert_insert_eq. destruct Hv as [(_ & _ & Hm') | (_ & ? & _)]; [|done].
    eapply (inv_two T k t i q _ c); simpl; try done; [by left..|left; by rewrite Hat|right; split; [done|left; split; [done|by split]]|].
    rewrite list_insert_id; [done|]. rewrite Ho. unfold owns, has_dir. simpl. congruence.
  - rewrite (upd_with _ t _ q); [|simpl; by rewrite list_lookup_insert_ne]. unfold with_procs. simpl.
    destruct Hv as [(? & _) | (HvF & _ & Hm')]; [done|]. destruct (vm_disjoint _ _ _ _ Hm) as (Hd & _).
    eapply (inv_two T k t i q _ c); simpl; try done; [by left..|left; by rewrite Hat|by left| |].
    + rewrite owns_embryo by done. simpl. apply res_set_stack; [done|rewrite <- Hk; done|set_solver|done].
    + intros p. rewrite HT. unfold held. destruct (decide (p = v)); set_solver.
Qed.

Lemma fork_copy_inv i : at_ q = ForkCopy i -> inv T (fork_copy t i q k).
Proof.
  intros Hat. destruct (forked i) as (c & Hc & He & Hsg & Hne & Hcu); [by rewrite Hat|]. rewrite Hat in Hsg. destruct Hsg as [Hk Hp].
  pose proof Hinv as (Hcr & Ht & F & K & S & Hm & Hr & HT). pose proof (owns_lookup _ _ _ Hc) as Ho. rewrite (owns_embryo c) in Ho by done.
  assert (kstack c ∈ K) as HcK by (apply (r_stack _ _ _ Hr); eauto).
  destruct (own_space K S Hr) as [pg HS]. unfold fork_copy.
  destruct (copyuvm_law _ F K S _ _ _ Hm HS) as (d & m' & -> & Hd).
  assert (forall x, <[i := x]> (procs k) !! i = Some x) as Hii by (intros; rewrite list_lookup_insert_eq; [done|by eapply lookup_lt_Some]).
  destruct (d =? 0) eqn:E; [apply Z.eqb_eq in E|apply Z.eqb_neq in E]; rewrite (upd_with (set_mm m' k) i _ c) by done.
  - destruct Hd as [(_ & Hm') | (? & ? & _)]; [|done]. simpl. rewrite Hii. simpl.
    destruct (kfree_law _ F K S (kstack c) Hm' HcK) as (m'' & -> & Hm''). unfold return_.
    erewrite (upd_two _ i); [|simpl; by rewrite list_lookup_insert_ne|apply Hii|done]. simpl. rewrite list_insert_insert_eq.
    eapply (inv_two T k t i q _ c); simpl; try done; [by left..|left; by rewrite Hat|right; split; [done|left; split; [done|by split]]| |].
    + apply (res_drop_stack _ _ _ Hr i None (kstack c) Ho Hk).
    + intros p. rewrite HT. unfold held. destruct (decide (p = kstack c)); set_solver.
  - erewrite (upd_two _ i); [|simpl; by rewrite list_lookup_insert_ne|apply Hii|done]. simpl. rewrite list_insert_insert_eq.
    destruct Hd as [(? & _) | (pg' & _ & Hsub & Hd & Hm')]; [done|].
    eapply (inv_two T k t i q _ c); simpl; try done; [by left..|left; by rewrite Hat|by left| |].
    + replace (owns _) with (kstack c, Some (d, sz q)) by (unfold owns, has_dir; simpl; by rewrite He).
      by apply res_set_dir.
    + intros p. rewrite HT, (held_none F K S d), held_insert by done. destruct (decide (p ∈ pg')); set_solver.
Qed.

Lemma fork_run_inv i : at_ q = ForkRun i -> inv T (fork_run t i k).
Proof.
  intros Hat. destruct (forked i) as (c & Hc & He & Hsg & Hne & Hcu); [by rewrite Hat|]. rewrite Hat in Hsg. destruct Hsg as [Hk Hp].
  pose proof Hinv as (Hcr & Ht & F & K & S & Hm & Hr & HT). unfold fork_run. rewrite Hc. unfold return_. rewrite (upd_two k i c) by done.
  eapply (inv_two T k t i q _ c); simpl; try done; [by left..|left; by rewrite Hat|right; split; [done|by right]|].
  rewrite list_insert_id; [done|]. rewrite (owns_lookup _ _ _ Hc). unfold owns, has_dir. simpl. rewrite He, Hp. done.
Qed.

(** wait with a zombie: its stack and its address space are free again. *)
Lemma wait_reaps i c : child (at_ q) = None -> procs k !! i = Some c -> parent c = Some t -> state c = ZOMBIE ->
  exists m1 m2, vm_kfree (kstack c) (mm k) = Some m1 /\ vm_freevm (pgdir c) m1 = Some m2 /\
  forall v, inv T (return_ t v (upd i (fun c => mkProc (sz c) (pgdir c) 0 UNUSED 0 None (chan c) false (eax c) (at_ c)) (set_mm m2 k))).
Proof.
  intros Hch Hc Hp Hz. pose proof Hinv as (Hcr & Ht & F & K & S & Hm & Hr & HT).
  assert (owns c = (kstack c, Some (pgdir c, sz c))) as Ho by (unfold owns, has_dir; by rewrite Hz).
  pose proof (owns_lookup _ _ _ Hc) as Hoc. rewrite Ho in Hoc.
  pose proof (t_slot _ _ Ht i c Hc) as Hk. unfold slot_ok in Hk. rewrite Hz in Hk.
  assert (kstack c ∈ K) as HcK by (apply (r_stack _ _ _ Hr); eauto).
  destruct (r_dir _ _ _ Hr i _ _ _ Hoc) as [pg HS].
  destruct (kfree_law _ F K S (kstack c) Hm HcK) as (m1 & Hm1 & Hv1).
  destruct (freevm_law _ _ _ _ _ _ _ Hv1 HS) as (m2 & Hm2 & Hv2). exists m1, m2. split_and!; [done..|]. intros v.
  assert (i <> t) as Hne by (intros ->; congruence). unfold return_. rewrite (upd_two (set_mm m2 k) i c) by done.
  eapply (inv_two T k t i q _ c); simpl; try done; [by left..|by right; auto|right; split; [done|left; split; [done|by split]]| | |].
  - apply (dead_user (procs k) (initproc k) i c); [done..|]. rewrite Hz. states.
  - pose proof (res_drop_dir _ _ _ (res_drop_stack _ _ _ Hr i _ _ Hoc Hk) i 0 (pgdir c) (sz c)) as Hr'.
    rewrite list_insert_insert_eq in Hr'. apply Hr'. rewrite list_lookup_insert_eq; [done|]. by eapply lookup_lt_Some.
  - intros p. rewrite HT, (held_split F K S _ _ _ _ HS), held_delete. destruct (decide (p = kstack c)); set_solver.
Qed.

Lemma wait_inv : child (at_ q) = None -> inv T (wait t q k).
Proof.
  intros Hch. unfold wait. destruct (find_proc _ k) as [i|] eqn:Hf.
  - apply find_proc_Some in Hf as (c & Hc & Hcz). apply bool_decide_eq_true in Hcz as [Hp Hz]. rewrite Hc.
    destruct (wait_reaps i c Hch Hc Hp Hz) as (m1 & m2 & -> & -> & Hi). apply Hi.
  - destruct (existsb _ _) eqn:Hkids; simpl; [|by apply (inv_return _ _ t (-1) q); [..|left|]].
    destruct (killed q) eqn:Hkl; [by apply (inv_return _ _ t (-1) q); [..|left|]|].
    apply existsb_exists in Hkids as (c & Hc & Hp). apply list_elem_of_In, list_elem_of_lookup in Hc as [n Hn]. apply bool_decide_eq_true in Hp.
    unfold sleep_on. rewrite (upd_with k t _ q) by done. apply (inv_one _ _ t q); try done.
    + apply owns_run; simpl; try done; [by left; left|by right].
    + apply g_wait; simpl; try done; [by left|eauto|]. intros n' c' Hn' Hp' Hz'.
      pose proof (find_proc_None _ _ Hf n' c' Hn') as Hb. apply bool_decide_eq_false in Hb. by apply Hb.
Qed.

(** After a wake up nobody sleeps on the channel, and who ran still runs. *)
Lemma wakeup_gone c kk i x : procs (wakeup1 (mt := mt) c kk) !! i = Some x -> state x = SLEEPING -> chan x <> Some c.
Proof.
  simpl. rewrite list_lookup_fmap. intros Hx Hs Hch. apply fmap_Some in Hx as (y & Hy & ->). case_decide as E; [done|]. by apply E.
Qed.

Lemma wakeup_keeps c kk i x : procs kk !! i = Some x -> state x <> SLEEPING -> procs (wakeup1 (mt := mt) c kk) !! i = Some x.
Proof. intros Hx Hs. simpl. rewrite list_lookup_fmap, Hx. simpl. rewrite decide_False; [done|]. by intros [? _]. Qed.

Lemma wakeup_stays c kk i x : procs (wakeup1 (mt := mt) c kk) !! i = Some x -> exists y, procs kk !! i = Some y /\ parent x = parent y /\ chan x = chan y /\
  (state x = state y \/ state x = RUNNABLE /\ state y = SLEEPING).
Proof.
  simpl. rewrite list_lookup_fmap. intros Hx. apply fmap_Some in Hx as (y & Hy & ->). exists y. split; [done|].
  case_decide as E; split_and!; try done; [right; by destruct E|by left].
Qed.

End handlers.

(** The end of exit, when nobody who should be woken sleeps any more. *)
Lemma exit_table T k t q : inv T k -> procs k !! t = Some q -> state q = RUNNING -> at_ q = User -> t <> initproc k ->
  (forall p x, parent q = Some p -> procs k !! p = Some x -> state x = SLEEPING -> chan x <> Some (OnProc p)) ->
  (forall n c x, procs k !! n = Some c -> parent c = Some t -> state c = ZOMBIE -> procs k !! initproc k = Some x ->
    state x = SLEEPING -> chan x <> Some (OnProc (initproc k))) ->
  inv T (upd t (set_state ZOMBIE) (map_procs (fun x => if decide (parent x = Some t) then set_parent (Some (initproc k)) x else x) k)).
Proof.
  intros Hi Hq Hr Hu Hne Hpar Hz. pose proof Hi as (_ & Ht & _). apply (inv_table T k); [done| |].
  - apply (tree_exit (procs k) _ _ t q Ht Hq); try done; [by left|]. intros j. simpl. destruct (decide (j = t)) as [-> | Hj].
    + rewrite list_lookup_alter_eq, list_lookup_fmap, Hq. simpl. by rewrite decide_False by (by apply (t_noself _ _ Ht)).
    + by rewrite list_lookup_alter_ne, list_lookup_fmap by done.
  - apply list_eq. intros j. rewrite !list_lookup_fmap. simpl. destruct (decide (j = t)) as [-> | Hj].
    + rewrite list_lookup_alter_eq, list_lookup_fmap, Hq. simpl. rewrite decide_False by (by apply (t_noself _ _ Ht)).
      f_equal. unfold owns, has_dir. simpl. by rewrite Hr.
    + rewrite list_lookup_alter_ne, list_lookup_fmap by done. destruct (procs k !! j) as [x|] eqn:Hx; [|done]. simpl. f_equal.
      case_decide as E; [|done]. unfold owns, has_dir. simpl. rewrite E. done.
Qed.

Lemma reparent_wakeup c f k : (forall q, state (f q) = state q /\ chan (f q) = chan q /\ forall x, f (set_state x q) = set_state x (f q)) ->
  wakeup1 c (map_procs f k) = map_procs f (wakeup1 c k).
Proof.
  intros Hf. unfold wakeup1, map_procs. simpl. f_equal. rewrite <- !list_fmap_compose. apply list_fmap_ext. intros i q _. simpl.
  destruct (Hf q) as (-> & -> & Hs). case_decide; [by rewrite Hs|done].
Qed.

Lemma exit_inv T k t q : inv T k -> procs k !! t = Some q -> state q = RUNNING -> at_ q = User -> t <> initproc k -> inv T (exit t q k).
Proof.
  intros Hi Hq Hr Hu Hne. unfold exit. rewrite decide_False by done.
  set (k1 := match parent q with Some p => wakeup1 (OnProc p) k | None => k end).
  assert (inv T k1 /\ procs k1 !! t = Some q /\ initproc k1 = initproc k /\
    forall p x, parent q = Some p -> procs k1 !! p = Some x -> state x = SLEEPING -> chan x <> Some (OnProc p)) as (Hi1 & Hq1 & Hin & Hpar).
  { subst k1. destruct (parent q) as [p|] eqn:Hp; [|done]. split_and!; [by apply inv_wakeup|apply wakeup_keeps; [done|congruence]|done|].
    intros p' x ? Hx Hs. simplify_eq. by eapply wakeup_gone. }
  clearbody k1. rewrite <- Hin in Hne. clear Hi Hq Hin. unfold reparent. destruct (existsb _ _) eqn:Hkids.
  - rewrite reparent_wakeup.
    2: { intros x. split_and!; [by case_decide..|]. intros y. simpl. by case_decide. }
    apply (exit_table T (wakeup1 (OnProc (initproc k1)) k1) t q); try done; [by apply inv_wakeup|apply wakeup_keeps; [done|congruence]| |].
    + intros p x Hp Hx Hs. destruct (wakeup_stays _ _ _ _ Hx) as (y & Hy & _ & -> & [Hsy | [Hsy _]]); [|congruence]. apply (Hpar p y); congruence.
    + intros n c x _ _ _ Hx Hs. by eapply wakeup_gone.
  - apply (exit_table T k1 t q); try done. intros n c x Hn Hp Hz _ _ _. apply not_true_iff_false in Hkids. apply Hkids, existsb_exists.
    exists c. split; [apply list_elem_of_In; by eapply list_elem_of_lookup_2|]. by apply bool_decide_eq_true.
Qed.

(** ** Every step *)

(** What the steps exclude: init never exits, and no process gives back all of
    its memory with sbrk. *)
Definition proper (e : event) k : Prop :=
  match e with
  | Exit t => t <> initproc k
  | Grow t n => forall q, procs k !! t = Some q -> u32 (sz q + n) <> 0
  | _ => True
  end.

Lemma proc_step_inv T e k k' : inv T k -> proper e k -> pstep e k = Some k' -> inv T k'.
Proof.
  intros Hi Hpr Hs. unfold pstep in Hs. destruct (procs k !! actor e) as [q|] eqn:Hq; [|done]. simpl in Hs.
  unfold act in Hs. destruct e as [t|t|t|t|t|t|t p|t a|t a|t n]; simpl in *; destruct (state q) eqn:Hst; try done; simplify_eq; try by eapply schedule_inv.
  - by eapply yield_inv.
  - destruct (at_ q) eqn:Hat; simplify_eq; [by eapply alloc_stack_inv|by eapply fork_copy_inv|by eapply fork_run_inv|].
    eapply wait_inv; try done. by rewrite Hat.
  - destruct (at_ q) eqn:Hat; simplify_eq. by eapply allocproc_inv.
  - destruct (at_ q) eqn:Hat; simplify_eq. by eapply exit_inv.
  - destruct (at_ q) eqn:Hat; simplify_eq. eapply wait_inv; try done. by rewrite Hat.
  - destruct (at_ q) eqn:Hat; simplify_eq. by eapply kill_inv.
  - destruct (at_ q) eqn:Hat; simplify_eq. by eapply sleep_inv.
  - destruct (at_ q) eqn:Hat; simplify_eq. by eapply inv_wakeup.
  - destruct (at_ q) eqn:Hat; simplify_eq. case_decide; simplify_eq. by eapply growproc_inv; eauto.
Qed.
End inv.

(** ** Runs *)

Section runs.
Context {mt : Type} `{VmLaws mt}.
Implicit Types (k : kst (mt := mt)) (T : gset Z).

Fixpoint run (es : list event) k : option kst :=
  match es with [] => Some k | e :: es => k' ← pstep e k; run es k' end.

Fixpoint all_proper (es : list event) k : Prop :=
  match es with [] => True | e :: es => proper e k /\ forall k', pstep e k = Some k' -> all_proper es k' end.

Lemma run_inv T es : forall k k', inv T k -> all_proper es k -> run es k = Some k' -> inv T k'.
Proof.
  induction es as [|e es IH]; intros k k' Hi Hp Hr; [by injection Hr as <-|]. simpl in *. destruct (pstep e k) as [k1|] eqn:E; [|done].
  destruct Hp as [Hp1 Hp2]. exact (IH k1 k' (proc_step_inv T e k k1 Hi Hp1 E) (Hp2 _ eq_refl) Hr).
Qed.

Lemma pstep_at e k q : procs k !! actor e = Some q -> pstep e k = act e (actor e) q k.
Proof. intros Hq. unfold pstep. by rewrite Hq. Qed.

Lemma fork_proper n t k : all_proper (Fork t :: replicate n (Continue t)) k.
Proof.
  split; [done|]. intros k' _. revert k'. induction n as [|n IH]; [done|]. split; [done|]. intros k'' _. apply IH.
Qed.

(** The table with new contents in the slots [t] and [i]. *)
Section pair.
Context (k : kst (mt := mt)) (t i : nat) (q c : proc).
Context (Hq : procs k !! t = Some q) (Hc : procs k !! i = Some c) (Hne : i <> t).

Definition pair_ (q' c' : proc) (n : Z) (m : mt) : kst := mkK (<[t := q']> (<[i := c']> (procs k))) n (initproc k) m (crashed k).

Lemma pair_t q' c' n m : procs (pair_ q' c' n m) !! t = Some q'.
Proof. simpl. rewrite list_lookup_insert_eq; [done|]. rewrite length_insert. by eapply lookup_lt_Some. Qed.
Lemma pair_i q' c' n m : procs (pair_ q' c' n m) !! i = Some c'.
Proof. simpl. rewrite list_lookup_insert_ne by done. apply list_lookup_insert_eq. by eapply lookup_lt_Some. Qed.
Lemma pair_upd_t f q' c' n m : upd t f (pair_ q' c' n m) = pair_ (f q') c' n m.
Proof. rewrite (upd_with _ t f q') by apply pair_t. unfold with_procs, pair_. simpl. by rewrite list_insert_insert_eq. Qed.
Lemma pair_upd_i f q' c' n m : upd i f (pair_ q' c' n m) = pair_ q' (f c') n m.
Proof.
  rewrite (upd_with _ i f c') by apply pair_i. unfold with_procs, pair_. simpl. f_equal.
  rewrite (list_insert_insert_ne _ i t) by done. by rewrite list_insert_insert_eq.
Qed.
Lemma pair_mm q' c' n m m' : set_mm m' (pair_ q' c' n m) = pair_ q' c' n m'.
Proof. done. Qed.

Lemma pair_start f g : upd t f (mkK (procs (upd i g k)) (s32 (nextpid k + 1)) (initproc k) (mm k) (crashed k)) =
  pair_ (f q) (g c) (s32 (nextpid k + 1)) (mm k).
Proof.
  rewrite (upd_with k i g c) by done. rewrite (upd_with _ t f q); [done|]. simpl. by rewrite list_lookup_insert_ne.
Qed.

(** The steps of fork on it. *)
Context (Hr : state q = RUNNING).

Lemma pstep_alloc : at_ q = User -> find_proc (fun q => bool_decide (state q = UNUSED)) k = Some i ->
  pstep (Fork t) k = Some (pair_ (set_at (ForkStack i) q)
    (mkProc (sz c) (pgdir c) (kstack c) EMBRYO (nextpid k) (parent c) (chan c) (killed c) (eax c) (at_ c)) (s32 (nextpid k + 1)) (mm k)).
Proof.
  intros Hu Hf. rewrite (pstep_at (Fork t) k q) by done. simpl. rewrite Hr, Hu. unfold allocproc. rewrite Hf. f_equal.
  exact (pair_start (set_at (ForkStack i))
    (fun q => mkProc (sz q) (pgdir q) (kstack q) EMBRYO (nextpid k) (parent q) (chan q) (killed q) (eax q) (at_ q))).
Qed.

Lemma pstep_stack c1 n m v m' : vm_kalloc m = Some (v, m') ->
  pstep (Continue t) (pair_ (set_at (ForkStack i) q) c1 n m) =
    Some (if v =? 0 then pair_ (set_eax (-1) q) (set_state UNUSED (set_kstack 0 c1)) n m' else pair_ (set_at (ForkCopy i) q) (set_kstack v c1) n m').
Proof.
  intros Ek. rewrite (pstep_at (Continue t) _ (set_at (ForkStack i) q)) by apply pair_t. simpl. rewrite Hr. f_equal. unfold alloc_stack. cbn [pair_ mm].
  rewrite Ek. fold (pair_ (set_at (ForkStack i) q) c1 n m). rewrite pair_mm, pair_upd_i. destruct (Z.eqb_spec v 0) as [-> | _].
  - rewrite pair_upd_i. unfold return_. by rewrite pair_upd_t.
  - by rewrite pair_upd_t.
Qed.

Lemma pstep_copy c1 n m d m' : vm_copyuvm (pgdir q) (sz q) m = Some (d, m') -> d <> 0 ->
  pstep (Continue t) (pair_ (set_at (ForkCopy i) q) c1 n m) =
    Some (pair_ (set_at (ForkRun i) q) (mkProc (sz q) d (kstack c1) (state c1) (pid c1) (Some t) (chan c1) (killed c1) 0 User) n m').
Proof.
  intros Ek Hd. rewrite (pstep_at (Continue t) _ (set_at (ForkCopy i) q)) by apply pair_t. simpl. rewrite Hr. f_equal. unfold fork_copy. cbn [set_at pgdir sz pair_ mm].
  rewrite Ek. fold (pair_ (set_at (ForkCopy i) q) c1 n m). rewrite pair_mm, pair_upd_i. destruct (Z.eqb_spec d 0) as [-> | _]; [done|].
  by rewrite pair_upd_i, pair_upd_t.
Qed.

Lemma pstep_copy_fail c1 n m m' m'' : vm_copyuvm (pgdir q) (sz q) m = Some (0, m') -> vm_kfree (kstack c1) m' = Some m'' ->
  pstep (Continue t) (pair_ (set_at (ForkCopy i) q) c1 n m) =
    Some (pair_ (set_eax (-1) q) (mkProc (sz c1) 0 0 UNUSED (pid c1) (parent c1) (chan c1) (killed c1) (eax c1) (at_ c1)) n m'').
Proof.
  intros Ek Ef. rewrite (pstep_at (Continue t) _ (set_at (ForkCopy i) q)) by apply pair_t. simpl. rewrite Hr. f_equal. unfold fork_copy. cbn [set_at pgdir sz pair_ mm].
  rewrite Ek. fold (pair_ (set_at (ForkCopy i) q) c1 n m). rewrite pair_mm, pair_upd_i. cbn [Z.eqb].
  rewrite pair_i. cbn [kstack pair_ mm]. rewrite Ef. fold (pair_ (set_at (ForkCopy i) q) (mkProc (sz c1) 0 (kstack c1) (state c1) (pid c1) (parent c1) (chan c1) (killed c1) (eax c1) (at_ c1)) n m').
  rewrite pair_mm, pair_upd_i. unfold return_. by rewrite pair_upd_t.
Qed.

Lemma pstep_copy_crash c1 n m : vm_copyuvm (pgdir q) (sz q) m = None ->
  pstep (Continue t) (pair_ (set_at (ForkCopy i) q) c1 n m) = Some (crash (pair_ (set_at (ForkCopy i) q) c1 n m)).
Proof.
  intros Ek. rewrite (pstep_at (Continue t) _ (set_at (ForkCopy i) q)) by apply pair_t. simpl. rewrite Hr. f_equal. unfold fork_copy. cbn [set_at pgdir sz pair_ mm].
  by rewrite Ek.
Qed.

Lemma pstep_run c1 n m : pstep (Continue t) (pair_ (set_at (ForkRun i) q) c1 n m) = Some (pair_ (set_eax (pid c1) q) (set_state RUNNABLE c1) n m).
Proof.
  rewrite (pstep_at (Continue t) _ (set_at (ForkRun i) q)) by apply pair_t. simpl. rewrite Hr. f_equal. unfold fork_run.
  fold (pair_ (set_at (ForkRun i) q) c1 n m). rewrite pair_i, pair_upd_i. unfold return_. by rewrite pair_upd_t.
Qed.
End pair.

(** fork, when no other process runs in between. *)
Lemma fork_ok T k t q i c : inv T k -> procs k !! t = Some q -> state q = RUNNING -> at_ q = User ->
  find_proc (fun q => bool_decide (state q = UNUSED)) k = Some i -> procs k !! i = Some c ->
  exists n k', run (Fork t :: replicate n (Continue t)) k = Some k' /\
    ((exists c', procs k' = <[t := set_eax (-1) q]> (<[i := c']> (procs k)) /\ state c' = UNUSED /\ killed c' = killed c) \/
     (exists v d m, vm_kalloc (mm k) = Some (v, m) /\ vm_copyuvm (pgdir q) (sz q) m = Some (d, mm k') /\
        procs k' = <[t := set_eax (nextpid k) q]>
          (<[i := mkProc (sz q) d v RUNNABLE (nextpid k) (Some t) (chan c) (killed c) 0 User]> (procs k)))).
Proof.
  intros Hi Hq Hr Hu Hf Hc. destruct (find_proc_Some _ _ _ Hf) as (c0 & Hc0 & Hcu). simplify_eq. apply bool_decide_eq_true in Hcu.
  assert (i <> t) as Hne by (intros ->; congruence). pose proof Hi as (_ & Ht & F & K & S & Hm & Hres & _).
  assert (pstep (Fork t) k = _) as E1 by (by apply (pstep_alloc k t i q c)).
  destruct (kalloc_law _ F K S Hm) as (v & m & Ek & Hv). set (c1 := mkProc _ _ _ EMBRYO _ _ _ _ _ _) in E1.
  pose proof (pstep_stack k t i q c Hq Hc Hne Hr c1 (s32 (nextpid k + 1)) (mm k) v m Ek) as E2. destruct (Z.eqb_spec v 0) as [-> | Hv0].
  { exists 1%nat. eexists. cbn [run replicate]. rewrite E1. cbn [mbind option_bind]. rewrite E2. split; [done|]. left. eexists. by split. }
  destruct Hv as [(? & _) | (_ & _ & Hm1)]; [done|]. destruct (own_space k t q Hq Hr K S Hres) as [pg HS].
  destruct (copyuvm_law _ _ _ _ _ _ _ Hm1 HS) as (d & m2 & Ec & Hd). destruct (decide (d = 0)) as [-> | Hd0].
  - destruct Hd as [(_ & Hm2) | (? & ? & _)]; [|done]. destruct (kfree_law _ _ _ _ v Hm2) as (m3 & Ef & _); [set_solver|].
    exists 2%nat. eexists. cbn [run replicate]. rewrite E1. cbn [mbind option_bind]. rewrite E2. cbn [mbind option_bind].
    rewrite (pstep_copy_fail k t i q c Hq Hc Hne Hr (set_kstack v c1) _ m m2 m3 Ec Ef). split; [done|]. left. eexists. by split.
  - exists 3%nat. eexists. cbn [run replicate]. rewrite E1. cbn [mbind option_bind]. rewrite E2. cbn [mbind option_bind].
    rewrite (pstep_copy k t i q c Hq Hc Hne Hr _ _ _ _ _ Ec Hd0). cbn [mbind option_bind]. rewrite (pstep_run k t i q c Hq Hc Hne Hr). split; [done|].
    right. exists v, d, m. by split_and!.
Qed.
End runs.
