(* ===== verification/Xv6ProcVm.v ===== *)
(** * kalloc.c and vm.c as the memory of the processes

    The instance of the interface of [Xv6Proc]: the operations are those of
    [Xv6Vm], and their lemmas give the laws.  Pages are named by their kernel
    address. *)
From S2P Require Import Prelude Mem Mmu Xv6Vm Xv6VmRep Xv6VmOps Xv6VmUser Xv6Proc.

Definition done_ {A} (m : V A) (s : vmst) : option (A * vmst) := match m s with Ok r s' => Some (r, s') | _ => None end.

Lemma done_ends {A} (m : V A) Q s : wp m Q s -> exists r s', done_ m s = Some (r, s') /\ Q r s'.
Proof. intros Hw. destruct (wp_ends _ _ _ Hw) as (r & s' & E & HQ). exists r, s'. unfold done_. by rewrite E. Qed.

Section instance.
Context (kend kdata : Z) (LAY : layout_ok kend kdata).

Local Instance xv6_vm : Vm vmst := {
  vm_kalloc := done_ kalloc;
  vm_kfree v s := snd <$> done_ (kfree kend v) s;
  vm_copyuvm d n := done_ (copyuvm kend kdata d n);
  vm_freevm d s := snd <$> done_ (freevm kend d) s;
  vm_allocuvm d o n := done_ (allocuvm kend d o n);
  vm_deallocuvm d o n := done_ (deallocuvm kend d o n) }.

(** An address space of size [n] with the pages [pg]: everything below the size
    is mapped, and no other user page. *)
Definition space (s : vmst) (a n : Z) (pg : gset Z) : Prop :=
  exists d T M, a = kva d /\ as_ok kend (mem s) d T M /\ (forall x, x ∈ pg <-> exists p, owned d T M p /\ x = kva p) /\
    0 <= n < KERNBASE /\ (forall v, 0 <= v < pgup n -> is_Some (M !! v)) /\ (forall v, pgup n <= v < UPAGE -> M !! v = None).

Definition frees (s : vmst) (F : gset Z) (l : list Z) : Prop := free_ok kend s l /\ forall x, x ∈ F <-> exists p, p ∈ l /\ x = kva p.

Record has (s : vmst) (F K : gset Z) (S : gmap Z (Z * gset Z)) : Prop := mk_has {
  h_free : exists l, frees s F l;
  h_kern x : x ∈ K -> exists p, avail kend p /\ x = kva p;
  h_space a n pg : S !! a = Some (n, pg) -> space s a n pg;
  h_fk : F ## K;
  h_sp a n pg : S !! a = Some (n, pg) -> pg ## F /\ pg ## K;
  h_ss a a' n n' pg pg' : S !! a = Some (n, pg) -> S !! a' = Some (n', pg') -> a <> a' -> pg ## pg' }.

Lemma kva_inj p p' : kva p = kva p' -> p = p'.
Proof. unfold kva. lia. Qed.

Lemma in_frees s F l p : frees s F l -> kva p ∈ F <-> p ∈ l.
Proof. intros [_ HF]. rewrite HF. split; [intros (p' & ? & E%kva_inj); by subst|eauto]. Qed.

Lemma frees_list s l : free_ok kend s l -> frees s (list_to_set (kva <$> l)) l.
Proof. intros Hf. split; [done|]. intros x. rewrite elem_of_list_to_set, list_elem_of_fmap. naive_solver. Qed.

Lemma space_dir s a n pg : space s a n pg -> a ∈ pg /\ a <> 0.
Proof.
  intros (d & T & M & -> & Has & Hpg & _). split; [apply Hpg; exists d; split; [left; by left|done]|].
  apply Z.eqb_neq, (kva_nonzero kend kdata LAY), (as_d _ _ _ _ _ Has).
Qed.

Lemma space_same s s' a n pg : space s a n pg -> same_on (fun p => kva p ∈ pg) (mem s) (mem s') -> space s' a n pg.
Proof.
  intros (d & T & M & -> & Has & Hpg & Hr) Hs. exists d, T, M. split_and!; try apply Hr; try done.
  eapply as_same; [exact Has|]. eapply same_on_weaken; [exact Hs|]. intros p Hp. apply Hpg. exists p. split; [by left|done].
Qed.

(** The memory may change outside the address spaces that stay. *)
Lemma has_spaces s s' F K S : has s F K S -> same_on (fun p => exists a n pg, S !! a = Some (n, pg) /\ kva p ∈ pg) (mem s) (mem s') ->
  forall a n pg, S !! a = Some (n, pg) -> space s' a n pg.
Proof.
  intros Hh Hs a n pg HS. eapply space_same; [by eapply h_space|]. eapply same_on_weaken; [exact Hs|]. intros p Hp. by exists a, n, pg.
Qed.

Lemma kalloc_vm s F K S : has s F K S -> exists r s', done_ kalloc s = Some (r, s') /\
  ((r = 0 /\ F = ∅ /\ has s' F K S) \/ (r ∈ F /\ r <> 0 /\ has s' (F ∖ {[r]}) ({[r]} ∪ K) S)).
Proof.
  intros Hh. destruct (h_free _ _ _ _ Hh) as [l Hl]. pose proof Hl as [Hf HF].
  destruct (done_ends _ _ _ (kalloc_ok kend kdata LAY s l Hf)) as (r & s' & E & Hm & Hr). exists r, s'. split; [done|]. destruct l as [|p l].
  - left. destruct Hr as [-> ->]. split_and!; try done. apply set_eq. intros x. rewrite HF. set_solver.
  - right. destruct Hr as (-> & Hp & Hpl & Hf'). assert (kva p ∈ F) as HpF by (apply (in_frees s F (p :: l)); [done|by left]).
    pose proof (kva_nonzero kend kdata LAY p Hp) as H0%Z.eqb_neq. split_and!; [done..|]. destruct Hh as [_ Hk Hsp Hfk Hspd Hss]. constructor; try done.
    + exists l. split; [done|]. intros x. rewrite elem_of_difference, HF, elem_of_singleton. split.
      * intros [(p' & [-> | Hp']%elem_of_cons & ->) Hne]; [done|eauto].
      * intros (p' & Hp' & ->). split; [exists p'; split; [by right|done]|]. intros ->%kva_inj. done.
    + intros x [->%elem_of_singleton | Hx]%elem_of_union; eauto.
    + intros a n pg HS. eapply space_same; [by apply Hsp|]. rewrite Hm. apply same_on_refl.
    + set_solver.
    + intros a n pg HS. destruct (Hspd a n pg HS). split; set_solver.
Qed.

Lemma kfree_vm s F K S x : has s F K S -> x ∈ K -> exists s', snd <$> done_ (kfree kend x) s = Some s' /\ has s' ({[x]} ∪ F) (K ∖ {[x]}) S.
Proof.
  intros Hh Hx. destruct (h_free _ _ _ _ Hh) as [l Hl]. pose proof Hl as [Hf HF]. destruct (h_kern _ _ _ _ Hh x Hx) as (p & Hp & ->).
  pose proof (h_fk _ _ _ _ Hh) as Hfk. assert (p ∉ l) as Hpl by (rewrite <- (in_frees s F l) by done; set_solver).
  destruct (done_ends _ _ _ (kfree_ok kend kdata LAY s l p Hf Hp Hpl)) as (r & s' & -> & Hf' & Hs). exists s'. split; [done|].
  constructor; try apply Hh.
  - exists (p :: l). split; [done|]. intros x. rewrite elem_of_union, elem_of_singleton, HF. split.
    + intros [-> | (p' & ? & ->)]; [exists p; split; [by left|done]|exists p'; split; [by right|done]].
    + intros (p' & [-> | ?]%elem_of_cons & ->); [by left|right; eauto].
  - intros y Hy. apply (h_kern _ _ _ _ Hh). set_solver.
  - apply (has_spaces s s' F K S Hh). eapply same_on_weaken; [exact Hs|]. intros q (a & n & pg & HS & Hq) ->.
    destruct (h_sp _ _ _ _ Hh a n pg HS). set_solver.
  - set_solver.
  - intros a n pg HS. destruct (h_sp _ _ _ _ Hh a n pg HS). split; set_solver.
Qed.

Lemma freevm_vm s F K S a n pg : has s F K S -> S !! a = Some (n, pg) ->
  exists s', snd <$> done_ (freevm kend a) s = Some s' /\ has s' (pg ∪ F) K (delete a S).
Proof.
  intros Hh HS. destruct (h_free _ _ _ _ Hh) as [l Hl]. pose proof Hl as [Hf HF].
  destruct (h_space _ _ _ _ Hh a n pg HS) as (d & T & M & -> & Has & Hpg & _). destruct (h_sp _ _ _ _ Hh _ _ _ HS) as [HpF HpK].
  assert (vm_ok kend s l d T M) as Hvm.
  { constructor; [done..|]. intros p Hp Ho. apply (in_frees s F l) in Hp; [|done]. assert (kva p ∈ pg) by (apply Hpg; eauto). set_solver. }
  destruct (done_ends _ _ _ (freevm_ok kend kdata LAY s l d T M Hvm)) as (r & s' & -> & l' & Hf' & Hl' & Hs). exists s'. split; [done|]. constructor.
  - exists l'. split; [done|]. intros x. rewrite elem_of_union, HF, Hpg. split.
    + intros [(p & ? & ->) | (p & ? & ->)]; exists p; rewrite Hl'; auto.
    + intros (p & Hp & ->). rewrite Hl' in Hp. destruct Hp; eauto.
  - apply (h_kern _ _ _ _ Hh).
  - intros a' n' pg' [Hne HS']%lookup_delete_Some. eapply space_same; [by eapply (h_space _ _ _ _ Hh)|]. eapply same_on_weaken; [exact Hs|].
    intros p Hp. destruct (h_sp _ _ _ _ Hh _ _ _ HS') as [HpF' _]. pose proof (h_ss _ _ _ _ Hh _ _ _ _ _ _ HS HS' Hne) as Hd.
    split; [rewrite <- (in_frees s F l) by done; set_solver|]. intros Ho. assert (kva p ∈ pg) by (apply Hpg; eauto). set_solver.
  - pose proof (h_fk _ _ _ _ Hh). set_solver.
  - intros a' n' pg' [Hne HS']%lookup_delete_Some. destruct (h_sp _ _ _ _ Hh _ _ _ HS'). pose proof (h_ss _ _ _ _ Hh _ _ _ _ _ _ HS HS' Hne). split; set_solver.
  - intros a1 a2 n1 n2 pg1 pg2 [_ H1]%lookup_delete_Some [_ H2]%lookup_delete_Some. by eapply (h_ss _ _ _ _ Hh).
Qed.

Lemma space_vm s F K S a n pg l : has s F K S -> frees s F l -> S !! a = Some (n, pg) ->
  exists d T M, a = kva d /\ vm_ok kend s l d T M /\ (forall x, x ∈ pg <-> exists p, owned d T M p /\ x = kva p) /\
    0 <= n < KERNBASE /\ (forall v, 0 <= v < pgup n -> is_Some (M !! v)) /\ (forall v, pgup n <= v < UPAGE -> M !! v = None).
Proof.
  intros Hh Hl HS. destruct (h_space _ _ _ _ Hh a n pg HS) as (d & T & M & -> & Has & Hpg & Hr). destruct (h_sp _ _ _ _ Hh _ _ _ HS) as [HpF _].
  exists d, T, M. split_and!; try apply Hr; try done. constructor; [apply Hl|done|]. intros p Hp Ho.
  apply (in_frees s F l) in Hp; [|done]. assert (kva p ∈ pg) by (apply Hpg; eauto). set_solver.
Qed.

(** A page of the machine that is free or in the space. *)
Lemma frees_owned s F l d T M pg x : frees s F l -> (forall x, x ∈ pg <-> exists p, owned d T M p /\ x = kva p) ->
  x ∈ F ∪ pg <-> exists p, (p ∈ l \/ owned d T M p) /\ x = kva p.
Proof. intros [_ HF] Hpg. rewrite elem_of_union, HF, Hpg. naive_solver. Qed.

Lemma copyuvm_vm s F K S a n pg : has s F K S -> S !! a = Some (n, pg) -> exists r s', done_ (copyuvm kend kdata a n) s = Some (r, s') /\
  ((r = 0 /\ has s' F K S) \/ exists pg', r <> 0 /\ pg' ⊆ F /\ S !! r = None /\ has s' (F ∖ pg') K (<[r := (n, pg')]> S)).
Proof.
  intros Hh HS. destruct (h_free _ _ _ _ Hh) as [l Hl]. pose proof Hl as [Hf HF].
  destruct (space_vm _ _ _ _ _ _ _ _ Hh Hl HS) as (d & T & M & -> & Hvm & Hpg & Hn & Hpres & _).
  destruct (done_ends _ _ _ (copyuvm_ok kend kdata LAY s l d T M Hvm n Hn Hpres)) as (r & s' & -> & Hr). exists r, s'. split; [done|].
  assert (same_on (fun p => p ∉ l) (mem s) (mem s') -> forall a n pg, S !! a = Some (n, pg) -> space s' a n pg) as Hold.
  { intros Hs. apply (has_spaces s s' F K S Hh). eapply same_on_weaken; [exact Hs|]. intros p (a & n' & pg' & HS' & Hp).
    rewrite <- (in_frees s F l) by done. destruct (h_sp _ _ _ _ Hh _ _ _ HS'). set_solver. }
  destruct Hr as [(-> & (l' & Hf' & Hl' & Hs) & _) | (c & M' & -> & Hc & (l' & T' & Hvm' & Hl' & Hs) & Hkern & Hnone & Hcp)].
  { left. split; [done|]. destruct Hh as [_ ? _ ? ? ?]. constructor; try done; [|by apply Hold]. exists l'. split; [done|]. intros x. rewrite HF.
    split; intros (p & ? & ->); exists p; by rewrite Hl' in *. }
  right. pose proof (frees_list s' l' (vm_free _ _ _ _ _ _ Hvm')) as Hl2. set (F' := list_to_set (kva <$> l') : gset Z) in *.
  assert (F' ⊆ F) as HFF by (intros x Hx; apply Hl2 in Hx as (p & Hp & ->); apply HF; exists p; rewrite Hl'; auto).
  assert (forall x, x ∈ F ∖ F' <-> exists p, owned c T' M' p /\ x = kva p) as Hnew.
  { intros x. rewrite elem_of_difference, HF. split.
    - intros [(p & Hp & ->) Hx]. rewrite (in_frees s' F' l') in Hx by done. apply Hl' in Hp as [? | ?]; [done|eauto].
    - intros (p & Ho & ->). rewrite (in_frees s' F' l') by done. split; [exists p; split; [apply Hl'; by right|done]|].
      intros Hp. by apply (vm_disj _ _ _ _ _ _ Hvm' p). }
  assert (space s' (kva c) n (F ∖ F')) as Hsp.
  { exists c, T', M'. split_and!; try done; [apply (vm_as _ _ _ _ _ _ Hvm')|lia..|]. intros v Hv. destruct (Hpres v Hv) as [e He].
    destruct (Hcp v e Hv He) as (e' & ? & _). by exists e'. }
  destruct (space_dir _ _ _ _ Hsp) as [Hc1 Hc2]. exists (F ∖ F'). split_and!; [done|set_solver| |].
  { destruct (S !! kva c) as [[n' pg']|] eqn:E; [|done]. pose proof (h_space _ _ _ _ Hh _ _ _ E) as [? _]%space_dir.
    destruct (h_sp _ _ _ _ Hh _ _ _ E). set_solver. }
  replace (F ∖ (F ∖ F')) with F' by (apply set_eq; intros x; destruct (decide (x ∈ F')); set_solver).
  pose proof (h_fk _ _ _ _ Hh) as Hfk. constructor; [by exists l'|apply Hh| |set_solver| |].
  - intros a' n' pg' [[<- [= <- <-]] | [_ HS']]%lookup_insert_Some; [done|by apply Hold].
  - intros a' n' pg' [[<- [= <- <-]] | [_ HS']]%lookup_insert_Some; [set_solver|]. destruct (h_sp _ _ _ _ Hh _ _ _ HS'). set_solver.
  - intros a1 a2 n1 n2 pg1 pg2 [[<- [= <- <-]] | [_ H1]]%lookup_insert_Some [[<- [= <- <-]] | [_ H2]]%lookup_insert_Some Hne; try done.
    + destruct (h_sp _ _ _ _ Hh _ _ _ H2). set_solver.
    + destruct (h_sp _ _ _ _ Hh _ _ _ H1). set_solver.
    + by eapply (h_ss _ _ _ _ Hh).
Qed.

(** One address space changes, with pages from and to the free list. *)
Lemma resize_vm s s' F K S a n n' pg l l' d T M T' M' : has s F K S -> frees s F l -> S !! a = Some (n, pg) -> a = kva d ->
  (forall x, x ∈ pg <-> exists p, owned d T M p /\ x = kva p) -> vm_ok kend s' l' d T' M' -> conserve l d T M l' T' M' ->
  same_on (fun p => p ∉ l /\ ~ owned d T M p) (mem s) (mem s') -> 0 <= n' < KERNBASE ->
  (forall v, 0 <= v < pgup n' -> is_Some (M' !! v)) -> (forall v, pgup n' <= v < UPAGE -> M' !! v = None) ->
  exists F' pg', has s' F' K (<[a := (n', pg')]> S) /\ F' ∪ pg' = F ∪ pg /\ frees s' F' l'.
Proof.
  intros Hh Hl HS -> Hpg Hvm' Hc Hs Hn Hpres Hnone. pose proof (frees_list s' l' (vm_free _ _ _ _ _ _ Hvm')) as Hl'.
  set (F' := list_to_set (kva <$> l') : gset Z) in *. exists F', ((F ∪ pg) ∖ F').
  assert (F' ⊆ F ∪ pg) as Hsub.
  { intros x [p [Hp ->]]%Hl'. apply (frees_owned s F l d T M pg _ Hl Hpg). exists p. split; [apply Hc; by left|done]. }
  assert (forall x, x ∈ (F ∪ pg) ∖ F' <-> exists p, owned d T' M' p /\ x = kva p) as Hnew.
  { intros x. rewrite elem_of_difference, (frees_owned s F l d T M pg _ Hl Hpg). split.
    - intros [(p & Hp & ->) Hx]. rewrite (in_frees s' F' l') in Hx by done. apply Hc in Hp as [? | ?]; [done|eauto].
    - intros (p & Ho & ->). rewrite (in_frees s' F' l') by done. split; [exists p; split; [apply Hc; by right|done]|].
      intros Hp. by apply (vm_disj _ _ _ _ _ _ Hvm' p). }
  destruct (h_sp _ _ _ _ Hh _ _ _ HS) as [HpF HpK]. pose proof (h_fk _ _ _ _ Hh) as Hfk.
  assert (forall a1 n1 pg1, S !! a1 = Some (n1, pg1) -> kva d <> a1 -> pg1 ## F ∪ pg /\ pg1 ## K) as Hoth.
  { intros a1 n1 pg1 H1 Hne. destruct (h_sp _ _ _ _ Hh _ _ _ H1). pose proof (h_ss _ _ _ _ Hh _ _ _ _ _ _ HS H1 Hne). set_solver. }
  split; [|split; [apply set_eq; intros x; destruct (decide (x ∈ F')); set_solver|done]]. constructor; [by exists l'|apply Hh| |set_solver| |].
  - intros a1 n1 pg1 [[<- [= <- <-]] | [Hne H1]]%lookup_insert_Some; [exists d, T', M'; split_and!; try done; [apply Hvm'|lia..]|].
    eapply space_same; [by eapply (h_space _ _ _ _ Hh)|]. eapply same_on_weaken; [exact Hs|]. intros p Hp. destruct (Hoth _ _ _ H1 Hne) as [Hd _].
    split; [rewrite <- (in_frees s F l) by done; set_solver|]. intros Ho. assert (kva p ∈ pg) by (apply Hpg; eauto). set_solver.
  - intros a1 n1 pg1 [[<- [= <- <-]] | [Hne H1]]%lookup_insert_Some; [set_solver|]. destruct (Hoth _ _ _ H1 Hne). set_solver.
  - intros a1 a2 n1 n2 pg1 pg2 [[<- [= <- <-]] | [Hn1 H1]]%lookup_insert_Some [[<- [= <- <-]] | [Hn2 H2]]%lookup_insert_Some Hne; try done.
    + destruct (Hoth _ _ _ H2 Hn2). set_solver.
    + destruct (Hoth _ _ _ H1 Hn1). set_solver.
    + by eapply (h_ss _ _ _ _ Hh).
Qed.

Lemma allocuvm_vm s F K S a n pg i : has s F K S -> S !! a = Some (n, pg) -> 0 < i < 2^31 -> exists r s' n' pg',
  done_ (allocuvm kend a n (u32 (n + i))) s = Some (r, s') /\ (r <> 0 -> r = n') /\ (r = 0 -> n' = n) /\
  (exists F', has s' F' K (<[a := (n', pg')]> S) /\ F' ∪ pg' = F ∪ pg).
Proof.
  intros Hh HS Hi. destruct (h_free _ _ _ _ Hh) as [l Hl].
  destruct (space_vm _ _ _ _ _ _ _ _ Hh Hl HS) as (d & T & M & -> & Hvm & Hpg & Hn & Hpres & Hnone).
  rewrite (u32_small (n + i)) by (unfold KERNBASE in Hn; lia). destruct (Z_lt_le_dec (n + i) KERNBASE) as [Hlt | Hge].
  - assert (pgup n <= pgup (n + i) <= UPAGE) as Hup.
    { unfold pgup, UPAGE, KERNBASE in *. split; [apply Z.div_le_mono; lia|]. change (2^19) with (2147483648 / 4096 : Z). Z.div_mod_to_equations; lia. }
    destruct (done_ends _ _ _ (allocuvm_ok kend kdata LAY s l d T M n (n + i) Hvm ltac:(lia) Hlt ltac:(intros w Hw; apply Hnone; lia)))
      as (r & s' & E & Hr). destruct Hr as [(-> & (l' & T' & M' & Hvm' & Hc & HM & Hs) & _) | (-> & l' & T' & M' & Hvm' & Hc & Hg & HM & Hz)].
    + destruct (resize_vm s s' F K S _ n n pg l l' d T M T' M' Hh Hl HS eq_refl Hpg Hvm' Hc) as (F' & pg' & ? & ? & HlF); try done.
      * eapply same_on_weaken; [exact Hs|]. intros p [? Ho]. split; [done|]. intros ?. apply Ho. by left.
      * intros v Hv. rewrite HM. auto.
      * intros v Hv. rewrite HM. auto.
      * exists 0, s', n, pg'. split_and!; try done. by exists F'.
    + destruct (resize_vm s s' F K S _ n (n + i) pg l l' d T M T' M' Hh Hl HS eq_refl Hpg Hvm' Hc) as (F' & pg' & ? & ? & HlF); try done.
      * eapply same_on_weaken; [apply (grow_same _ _ _ _ _ _ _ Hg)|]. intros p [? Ho]. split; [done|]. intros ?. apply Ho. by left.
      * lia.
      * intros v Hv. destruct (decide (pgup n <= v)); [|rewrite HM by lia; apply Hpres; lia]. destruct (Hz v ltac:(lia)) as (p & -> & _). done.
      * intros v Hv. rewrite HM by lia. apply Hnone. lia.
      * exists (n + i), s', (n + i), pg'. split_and!; try done; [lia|]. by exists F'.
  - exists 0, s, n, pg. unfold done_, allocuvm. destruct (Z.leb_spec KERNBASE (n + i)); [|lia]. split_and!; try done.
    exists F. rewrite insert_id by done. done.
Qed.

Lemma deallocuvm_vm s F K S a n pg i : has s F K S -> S !! a = Some (n, pg) -> -(2^31) <= i < 0 -> exists r s' pg',
  done_ (deallocuvm kend a n (u32 (n + i))) s = Some (r, s') /\ r = (if u32 (n + i) <? n then u32 (n + i) else n) /\
  (exists F', has s' F' K (<[a := (r, pg')]> S) /\ F' ∪ pg' = F ∪ pg /\ F ⊆ F').
Proof.
  intros Hh HS Hi. destruct (h_free _ _ _ _ Hh) as [l Hl].
  destruct (space_vm _ _ _ _ _ _ _ _ Hh Hl HS) as (d & T & M & -> & Hvm & Hpg & Hn & Hpres & Hnone).
  pose proof (u32_range (n + i)).
  destruct (Z.ltb_spec (u32 (n + i)) n) as [Hlt | Hge].
  - set (n' := u32 (n + i)) in *.
    destruct (done_ends _ _ _ (deallocuvm_ok kend kdata LAY s l d T M n n' Hvm ltac:(unfold KERNBASE in *; lia) ltac:(lia)))
      as (r & s' & E & -> & l' & M' & Hvm' & Hc & HM & Hsub & Hs).
    assert (pgup n' <= pgup n) as Hle by (apply Z.div_le_mono; lia).
    destruct (resize_vm s s' F K S _ n n' pg l l' d T M T M' Hh Hl HS eq_refl Hpg Hvm' Hc) as (F' & pg' & ? & ? & HlF); try done; [|lia|..].
    + eapply same_on_weaken; [exact Hs|]. intros p [Hp Ho]. split; [intros Hp'; destruct (proj1 (Hc p) (or_introl Hp')); done|]. intros ?. apply Ho. by left.
    + intros v Hv. rewrite HM. rewrite decide_False by lia. apply Hpres. lia.
    + intros v Hv. rewrite HM. case_decide; [done|]. apply Hnone. lia.
    + rewrite Z.min_r in E by lia. exists n', s', pg'. split_and!; try done. exists F'. split_and!; try done.
      intros x [p [Hp ->]]%Hl. apply (in_frees s' F' l'); auto.
  - exists n, s, pg. unfold done_, deallocuvm. destruct (Z.leb_spec n (u32 (n + i))); [|lia]. split_and!; try done.
    exists F. rewrite insert_id by done. done.
Qed.

(** ** An address space without user pages *)

Lemma frees_size s F l : frees s F l -> size F = length l.
Proof.
  intros [[_ Hn] HF]. replace F with (list_to_set (kva <$> l) : gset Z).
  - rewrite size_list_to_set, length_fmap; [done|]. apply NoDup_fmap_2; [|done]. intros x y. apply kva_inj.
  - apply set_eq. intros x. rewrite elem_of_list_to_set, list_elem_of_fmap, HF. naive_solver.
Qed.

(** copyuvm panics at the first page, unless memory is short. *)
Lemma copyuvm_gone s F K S a n pg : has s F K S -> S !! a = Some (0, pg) -> 0 < n -> (1025 < size F)%nat ->
  done_ (copyuvm kend kdata a n) s = None.
Proof.
  intros Hh HS Hn HF. destruct (h_free _ _ _ _ Hh) as [l Hl]. rewrite (frees_size s F l Hl) in HF.
  destruct (space_vm _ _ _ _ _ _ _ _ Hh Hl HS) as (d & T & M & -> & Hvm & Hpg & _ & _ & Hnone).
  destruct (wp_ends _ _ _ (setupkvm_ok kend kdata LAY s l (proj1 Hl))) as (r & s1 & E & [(_ & _ & ?) | (c & M' & -> & Hc & (l' & T' & _ & _ & Hs) & _)]); [lia|].
  pose proof (parent_as kend s l d T M Hvm s1 Hs) as Has. unfold done_, copyuvm, bind at 1. rewrite E. rewrite (kva_nonzero kend kdata LAY) by done.
  assert (exists x, copyuvm_step kend (kva d) n (kva c) 0 s1 = Panic x) as [x Ex].
  { unfold copyuvm_step. destruct (Z.ltb_spec 0 n); [|lia]. unfold bind at 1. destruct (T !! (0 / 1024)) as [tb|] eqn:ET.
    - pose proof (walk_found kend kdata LAY s1 d T M 0 tb false Has ltac:(lia) ET) as W. change (0 * 4096) with 0 in W. change (0 `mod` 1024) with 0 in W. rewrite W.
      destruct (as_T _ _ _ _ _ Has _ _ ET) as [Hi _]. pose proof (as_pde _ _ _ _ _ Has _ Hi) as Hp. rewrite ET in Hp. destruct Hp as (_ & _ & Htb).
      destruct (avail_phys kend kdata LAY tb Htb) as [Htb0 Htb1].
      pose proof (as_pte _ _ _ _ _ Has _ tb 0 ET ltac:(lia)) as Hpte. change (0 / 1024 * 1024 + 0) with 0 in Hpte. rewrite (Hnone 0) in Hpte by done.
      assert ((kva tb + 4 * 0 =? 0) = false) as -> by (apply Z.eqb_neq; unfold kva, KERNBASE; lia).
      unfold bind at 1, ret at 1. unfold bind at 1.
      assert (kread (kva tb + 4 * 0) s1 = Ok (word (mem s1) tb 0) s1) as ->.
      { unfold kread. rewrite mapped_word by done. unfold gets. do 2 f_equal. unfold word, kva. f_equal. lia. }
      rewrite Hpte. eexists. reflexivity.
    - pose proof (walk_none kend kdata LAY s1 d T M 0 Has ltac:(lia) ET) as W. change (0 * 4096) with 0 in W. rewrite W. eexists. reflexivity. }
  rewrite Nat.add_comm. cbn [Nat.add loop]. unfold bind. by rewrite Ex.
Qed.

Local Instance xv6_vm_laws : VmLaws vmst.
Proof.
  refine {| vm_has := has; kalloc_law := kalloc_vm; kfree_law := kfree_vm; copyuvm_law := copyuvm_vm; freevm_law := freevm_vm;
    allocuvm_law := allocuvm_vm; deallocuvm_law := _ |}; swap 1 2.
  { intros s F K S a n pg i Hh HS Hi. destruct (deallocuvm_vm s F K S a n pg i Hh HS Hi) as (r & s' & pg' & H1 & H2 & F' & H3 & H4 & _). eauto 9. }
  intros s F K S Hh. pose proof Hh as [_ Hk Hsp Hfk Hspd Hss]. split_and!; try done.
  - intros H0. destruct (Hk 0 H0) as (p & Hp & E). pose proof (kva_nonzero kend kdata LAY p Hp) as Hz%Z.eqb_neq. congruence.
  - destruct (S !! 0) as [[n pg]|] eqn:E; [|done]. by destruct (space_dir s 0 n pg (Hsp _ _ _ E)).
Defined.
End instance.
