(* ===== verification/Xv6ProcThms.v ===== *)
(** * Theorems about xv6's processes and their memory

    proc.c on top of vm.c and kalloc.c, from the table userinit leaves, under
    every interleaving of the processes. *)
From S2P Require Import Prelude Mem Mmu Xv6Vm Xv6VmRep Xv6VmOps Xv6VmUser Xv6MemThms Xv6Proc Xv6ProcTree Xv6ProcInv Xv6ProcVm.

(** The pages [T] of the machine, each of which is free, or the kernel stack of
    one slot of the table, or in the address space of one slot. *)
Definition pages_ok (kend : Z) (T : gset Z) (k : kst (mt := vmst)) : Prop :=
  exists F K S, has kend (mm k) F K S /\ res_ok (owns <$> procs k) K S /\ forall p, p ∈ T <-> held F K S p.

Definition sane (kend : Z) (T : gset Z) (k : kst (mt := vmst)) : Prop :=
  crashed k = false /\ tree_ok (procs k) (initproc k) /\ pages_ok kend T k.

Lemma sane_inv kend kdata (LAY : layout_ok kend kdata) T k : sane kend T k <-> inv (H0 := xv6_vm_laws kend kdata LAY) T k.
Proof. reflexivity. Qed.

(** ** The first process *)

Lemma booted_slot {mt} stack d (m : mt) i q : procs (booted stack d m) !! i = Some q ->
  (i = 0%nat /\ q = mkProc 4096 d stack RUNNABLE 1 None None false 0 User) \/ (i <> 0%nat /\ q = proc0).
Proof.
  destruct i as [|i]; [intros [= <-]; by left|]. right. split; [done|].
  change (procs (booted stack d m) !! S i) with (replicate (NPROC - 1) proc0 !! i) in H. by apply lookup_replicate in H as [-> _].
Qed.

Lemma booted_tree {mt} stack d (m : mt) : stack <> 0 -> tree_ok (procs (booted stack d m)) 0.
Proof.
  intros Hs. constructor.
  - intros i q [[-> ->] | [_ ->]]%booted_slot; done.
  - intros t q i [[-> ->] | [_ ->]]%booted_slot; done.
  - intros i c [[-> ->] | [_ ->]]%booted_slot; done.
  - intros t t' q q' i [[-> ->] | [_ ->]]%booted_slot; done.
  - intros i q [[-> ->] | [_ ->]]%booted_slot; done.
  - intros i q [[-> ->] | [_ ->]]%booted_slot Hst; [by left|]. destruct Hst as [[[? | ?] | ?] | ?]; done.
  - intros i q [[-> ->] | [_ ->]]%booted_slot; done.
  - eexists. split; [done|]. split; [left; by right|done].
  - intros i q j [[-> ->] | [_ ->]]%booted_slot; done.
Qed.

Lemma booted_res {mt} stack d (m : mt) pg : stack <> 0 -> res_ok (owns <$> procs (booted stack d m)) {[stack]} {[d := (4096, pg)]}.
Proof.
  intros Hs. assert (forall i o, (owns <$> procs (booted stack d m)) !! i = Some o -> (i = 0%nat /\ o = (stack, Some (d, 4096))) \/ o = (0, None)) as Ho.
  { intros i o. rewrite list_lookup_fmap. intros (q & Hq & ->)%fmap_Some. apply booted_slot in Hq as [[-> ->] | [_ ->]]; [by left|by right]. }
  constructor.
  - intros p. rewrite elem_of_singleton. split; [intros ->; split; [done|]; by exists 0%nat, (Some (d, 4096))|].
    intros (Hp & i & o & [[_ ?] | ?]%Ho); congruence.
  - intros i j p o o' Hp [[-> ?] | ?]%Ho [[-> ?] | ?]%Ho; congruence.
  - intros i p d' s [[-> ?] | ?]%Ho; [|congruence]. simplify_eq. exists pg. apply lookup_singleton_eq.
  - intros i j p p' d' s s' [[-> ?] | ?]%Ho [[-> ?] | ?]%Ho; congruence.
  - intros d' v [<- <-]%lookup_singleton_Some. by exists 0%nat, stack, 4096.
Qed.

Lemma booted_sane kend kdata (LAY : layout_ok kend kdata) stack d m F pg : has kend m F {[stack]} {[d := (4096, pg)]} ->
  sane kend (F ∪ {[stack]} ∪ pg) (booted stack d m).
Proof.
  intros Hh. assert (stack <> 0) as Hs.
  { destruct (h_kern _ _ _ _ _ Hh stack) as (p & Hp & ->); [set_solver|]. by apply Z.eqb_neq, (kva_nonzero kend kdata LAY). }
  split_and!; [done|by apply booted_tree|]. exists F, {[stack]}, {[d := (4096, pg)]}. split_and!; [done|by apply booted_res|].
  intros p. unfold held. rewrite !elem_of_union, elem_of_singleton. split.
  - intros [[? | ?] | ?]; auto. do 2 right. exists d, 4096, pg. by rewrite lookup_singleton_eq.
  - intros [? | [? | (d' & s & ps & [<- [= <- <-]]%lookup_singleton_Some & ?)]]; auto.
Qed.

Section processes.
Context (kend kdata : Z) (LAY : layout_ok kend kdata).

Local Instance vm_ops : Vm vmst := xv6_vm kend kdata.
Local Instance vm_laws : VmLaws vmst := xv6_vm_laws kend kdata LAY.

Lemma run_sane stack d m F pg es k : has kend m F {[stack]} {[d := (4096, pg)]} -> all_proper es (booted stack d m) ->
  run es (booted stack d m) = Some k -> sane kend (F ∪ {[stack]} ∪ pg) k.
Proof.
  intros Hh Hp Hr. apply (sane_inv kend kdata LAY). eapply run_inv; [|exact Hp|exact Hr]. apply sane_inv. by apply (booted_sane kend kdata LAY).
Qed.

(** fork with the invariant at the end. *)
Lemma fork_sane T k t q i c : sane kend T k -> procs k !! t = Some q -> state q = RUNNING -> at_ q = User ->
  find_proc (fun q => bool_decide (state q = UNUSED)) k = Some i -> procs k !! i = Some c ->
  exists n k', run (Fork t :: replicate n (Continue t)) k = Some k' /\ sane kend T k' /\
    ((exists c', procs k' = <[t := set_eax (-1) q]> (<[i := c']> (procs k)) /\ state c' = UNUSED /\ killed c' = killed c) \/
     (exists v d m, done_ kalloc (mm k) = Some (v, m) /\ done_ (copyuvm kend kdata (pgdir q) (sz q)) m = Some (d, mm k') /\
        procs k' = <[t := set_eax (nextpid k) q]>
          (<[i := mkProc (sz q) d v RUNNABLE (nextpid k) (Some t) (chan c) (killed c) 0 User]> (procs k)))).
Proof.
  intros Hi Hq Hr Hu Hf Hc. apply (proj1 (sane_inv kend kdata LAY T k)) in Hi. destruct (fork_ok T k t q i c Hi Hq Hr Hu Hf Hc) as (n & k' & Hrun & Hk').
  exists n, k'. split; [done|]. split; [|done]. apply (sane_inv kend kdata LAY). eapply run_inv; [exact Hi|apply fork_proper|exact Hrun].
Qed.

(** kill without a look at the state: a slot that no process uses. *)
Lemma kill_unused T k t q i c : sane kend T k -> procs k !! t = Some q -> state q = RUNNING -> at_ q = User ->
  find_proc (fun c => pid c =? 0) k = Some i -> procs k !! i = Some c -> state c = UNUSED ->
  exists k', pstep (Kill t 0) k = Some k' /\ sane kend T k' /\ nextpid k' = nextpid k /\
    procs k' = <[t := set_eax 0 q]> (<[i := mkProc (sz c) (pgdir c) (kstack c) UNUSED (pid c) (parent c) (chan c) true (eax c) (at_ c)]> (procs k)).
Proof.
  intros Hi Hq Hr Hu Hf Hc Hs. assert (i <> t) as Hne by (intros ->; congruence). apply (proj1 (sane_inv kend kdata LAY T k)) in Hi. eexists.
  assert (pstep (Kill t 0) k = Some (kill t 0 k)) as E by (rewrite (pstep_at (Kill t 0) k q) by done; simpl; by rewrite Hr, Hu).
  split; [exact E|]. split; [apply (sane_inv kend kdata LAY); by eapply proc_step_inv; [exact Hi| |exact E]|].
  unfold kill. rewrite Hf. unfold return_. rewrite (upd_two t q k i c) by done. simpl. by rewrite Hs.
Qed.

(** sbrk of the whole size. *)
Lemma grow_zero k t q F K S : has kend (mm k) F K S -> res_ok (owns <$> procs k) K S -> procs k !! t = Some q -> state q = RUNNING -> at_ q = User -> 0 < sz q ->
  exists m F' pg, pstep (Grow t (- sz q)) k = Some (return_ t (-1) (set_mm m k)) /\
    has kend m F' K (<[pgdir q := (0, pg)]> S) /\ F ⊆ F'.
Proof.
  intros Hh Hres Hq Hr Hu Hsz. destruct (own_space k t q Hq Hr K S Hres) as [pg HS].
  destruct (h_space _ _ _ _ _ Hh _ _ _ HS) as (_ & _ & _ & _ & _ & _ & Hn & _). unfold KERNBASE in Hn.
  destruct (deallocuvm_vm kend kdata LAY _ F K S _ _ _ (- sz q) Hh HS ltac:(lia)) as (r & m & pg' & E & Hrr & F' & Hh' & _ & Hsub).
  replace (sz q + - sz q) with 0 in * by lia. change (u32 0) with 0 in *. destruct (Z.ltb_spec 0 (sz q)); [|lia]. subst r.
  exists m, F', pg'. split_and!; try done. rewrite (pstep_at (Grow t (- sz q)) k q) by done. simpl. rewrite Hr, Hu. rewrite decide_True by lia.
  unfold growproc. destruct (Z.ltb_spec 0 (- sz q)); [lia|]. destruct (Z.ltb_spec (- sz q) 0); [|lia].
  replace (sz q + - sz q) with 0 by lia. change (u32 0) with 0. simpl. by rewrite E.
Qed.

Lemma grow_zero_fork k t q F K S i c : has kend (mm k) F K S -> res_ok (owns <$> procs k) K S -> (1026 < size F)%nat ->
  procs k !! t = Some q -> state q = RUNNING -> at_ q = User -> 0 < sz q ->
  find_proc (fun q => bool_decide (state q = UNUSED)) k = Some i -> procs k !! i = Some c ->
  exists k1 k2, pstep (Grow t (- sz q)) k = Some k1 /\ procs k1 !! t = Some (set_eax (-1) q) /\
    run [Fork t; Continue t; Continue t] k1 = Some k2 /\ crashed k2 = true.
Proof.
  intros Hh Hres HF Hq Hr Hu Hsz Hf Hc. destruct (grow_zero k t q F K S Hh Hres Hq Hr Hu Hsz) as (m & F' & pg & E & Hh' & Hsub).
  set (q1 := set_eax (-1) q). set (k1 := with_procs (<[t := q1]> (procs k)) (set_mm m k)).
  destruct (find_proc_Some _ _ _ Hf) as (c0 & Hc0 & Hcu). simplify_eq. apply bool_decide_eq_true in Hcu.
  assert (i <> t) as Hne by (intros ->; congruence).
  assert (return_ t (-1) (set_mm m k) = k1) as Ek1 by (unfold return_; by rewrite (upd_with (set_mm m k) t _ q)).
  assert (procs k1 !! t = Some q1) as Hq1 by (subst k1; simpl; rewrite list_lookup_insert_eq; [done|by eapply lookup_lt_Some]).
  assert (procs k1 !! i = Some c) as Hc1 by (subst k1; simpl; by rewrite list_lookup_insert_ne).
  assert (find_proc (fun q => bool_decide (state q = UNUSED)) k1 = Some i) as Hf1
    by (rewrite <- Hf; by apply (find_proc_insert _ k _ t q q1)).
  exists k1. rewrite E, Ek1. destruct (kalloc_vm kend kdata LAY _ _ _ _ Hh') as (v & m' & Ek & Hv).
  apply subseteq_size in Hsub. destruct Hv as [(_ & -> & _) | (HvF & Hv0 & Hh'')]; [rewrite size_empty in Hsub; lia|].
  assert (1025 < size (F' ∖ {[v]}))%nat as HF' by (rewrite size_difference, size_singleton by set_solver; lia).
  eexists. split; [done|]. split; [done|]. split.
  - cbn [run]. rewrite (pstep_alloc k1 t i q1 c) by done. cbn [mbind option_bind]. rewrite (pstep_stack (H := vm_ops) k1 t i q1 c Hq1 Hc1 Hne Hr _ _ m v m' Ek).
    destruct (Z.eqb_spec v 0); [done|]. cbn [mbind option_bind]. rewrite (pstep_copy_crash (H := vm_ops) k1 t i q1 Hq1 Hr); [done|].
    apply (copyuvm_gone kend kdata LAY _ _ _ _ _ _ pg Hh''); [apply lookup_insert_eq|done..].
  - done.
Qed.
End processes.

(** ** The theorems *)

Section theorems.
Context (kend kdata : Z).

Local Instance xv6_ops : Vm vmst := xv6_vm kend kdata.

(** C4: from the table userinit leaves, after any interleaving of fork, exit, wait,
    kill, sbrk, sleep and wakeup of all processes, every page of the machine is
    still free, or the kernel stack of exactly one slot of the process table, or
    in the address space of exactly one slot, and no panic has happened: no page
    is lost, freed twice or shared, on the failing paths of fork as well.  The
    steps leave out that init exits and that a process gives back its whole
    memory with sbrk. *)
Theorem processes_conserve_pages stack d m F pg es k :
  layout_ok kend kdata -> has kend m F {[stack]} {[d := (4096, pg)]} -> all_proper es (booted stack d m) -> run es (booted stack d m) = Some k ->
  crashed k = false /\ pages_ok kend (F ∪ {[stack]} ∪ pg) k.
Proof. intros LAY Hh Hp Hr. by destruct (run_sane kend kdata LAY stack d m F pg es k Hh Hp Hr) as (? & _ & ?). Qed.


(** C21: fork, when no other process runs in between: with a full table it returns
    -1 and changes nothing else.  Otherwise it ends; it returns -1 with the slot
    unused again, or it returns the new pid in the parent and 0 in a runnable
    child with the size and parent set, a stack from kalloc and the copy of the
    address space made by copyuvm.  In every case all pages are accounted for. *)
Theorem fork_spec T k t q :
  layout_ok kend kdata -> sane kend T k -> procs k !! t = Some q -> state q = RUNNING -> at_ q = User ->
  match find_proc (fun q => bool_decide (state q = UNUSED)) k with
  | None => pstep (Fork t) k = Some (return_ t (-1) k)
  | Some i => exists c n k', procs k !! i = Some c /\ run (Fork t :: replicate n (Continue t)) k = Some k' /\ sane kend T k' /\
      ((exists c', procs k' = <[t := set_eax (-1) q]> (<[i := c']> (procs k)) /\ state c' = UNUSED /\ killed c' = killed c) \/
       (exists v d m, done_ kalloc (mm k) = Some (v, m) /\ done_ (copyuvm kend kdata (pgdir q) (sz q)) m = Some (d, mm k') /\
          procs k' = <[t := set_eax (nextpid k) q]>
            (<[i := mkProc (sz q) d v RUNNABLE (nextpid k) (Some t) (chan c) (killed c) 0 User]> (procs k))))
  end.
Proof.
  intros LAY Hi Hq Hr Hu. destruct (find_proc _ k) as [i|] eqn:Hf.
  - destruct (find_proc_Some _ _ _ Hf) as (c & Hc & _). destruct (fork_sane kend kdata LAY T k t q i c Hi Hq Hr Hu Hf Hc) as (n & k' & ? & ? & ?).
    exists c, n, k'. by split_and!.
  - rewrite (pstep_at (Fork t) k q) by done. simpl. rewrite Hr, Hu. unfold allocproc. by rewrite Hf.
Qed.

(** kill does not look at the state of the slot it finds.  kill(0) finds the
    first slot that was never used or has been reaped, reports success and sets
    its killed flag, which allocproc and fork do not clear: the next child is
    born killed. *)
Theorem kill_unused_slot T k t q i c :
  layout_ok kend kdata -> sane kend T k -> procs k !! t = Some q -> state q = RUNNING -> at_ q = User ->
  find_proc (fun c => pid c =? 0) k = Some i -> find_proc (fun q => bool_decide (state q = UNUSED)) k = Some i -> procs k !! i = Some c ->
  exists k1 n k2, pstep (Kill t 0) k = Some k1 /\ procs k1 !! t = Some (set_eax 0 q) /\
    run (Fork t :: replicate n (Continue t)) k1 = Some k2 /\
    (procs k2 !! t = Some (set_eax (-1) q) \/
     exists c', procs k2 !! t = Some (set_eax (pid c') q) /\ procs k2 !! i = Some c' /\ parent c' = Some t /\ state c' = RUNNABLE /\ killed c' = true).
Proof.
  intros LAY Hi Hq Hr Hu Hf Hfu Hc. destruct (find_proc_Some _ _ _ Hfu) as (c0 & Hc0 & Hcu). simplify_eq. apply bool_decide_eq_true in Hcu.
  destruct (kill_unused kend kdata LAY T k t q i c Hi Hq Hr Hu Hf Hc Hcu) as (k1 & E & Hi1 & Hn & Hps).
  assert (i <> t) as Hne by (intros ->; congruence). set (c1 := mkProc _ _ _ UNUSED _ _ _ _ _ _) in Hps.
  assert (procs k1 !! t = Some (set_eax 0 q)) as Hq1 by (rewrite Hps; exact (pair_t k t i q Hq _ _ 0 (mm k))).
  assert (procs k1 !! i = Some c1) as Hc1 by (rewrite Hps; exact (pair_i k t i c Hc Hne _ _ 0 (mm k))).
  assert (find_proc (fun q => bool_decide (state q = UNUSED)) k1 = Some i) as Hf1.
  { rewrite <- Hfu. transitivity (find_proc (fun q => bool_decide (state q = UNUSED)) (with_procs (<[i := c1]> (procs k)) k)).
    - unfold find_proc at 1. rewrite Hps. apply (find_proc_insert _ (with_procs (<[i := c1]> (procs k)) k) _ t q (set_eax 0 q)) with (n := 0) (m := mm k);
        [simpl; by rewrite list_lookup_insert_ne|done..].
    - apply (find_proc_insert _ k _ i c c1); [done| |done]. simpl. by rewrite Hcu. }
  destruct (fork_sane kend kdata LAY T k1 t (set_eax 0 q) i c1 Hi1 Hq1 Hr eq_refl Hf1 Hc1) as (n & k2 & Hrun & _ & Hk2).
  exists k1, n, k2. split_and!; try done. destruct Hk2 as [(c' & -> & _) | (v & d & m & _ & _ & ->)].
  - left. exact (pair_t k1 t i _ Hq1 _ _ 0 (mm k)).
  - right. eexists. split; cycle 1; [split; [exact (pair_i k1 t i _ Hc1 Hne _ _ 0 (mm k))|done]|].
    exact (pair_t k1 t i _ Hq1 _ _ 0 (mm k)).
Qed.

End theorems.

(** ** Witnesses *)

Definition wit_pages : gset Z := {[kva 300; kva 301; kva 302]}.

(** The address space of [wit_ok] as that of init, whose stack is page 304. *)
Lemma wit_has s l : free_ok 0x80110000 s l -> as_ok 0x80110000 (mem s) 300 wit_T wit_M -> (forall p, p ∈ l -> 303 <= p /\ p <> 304) ->
  has 0x80110000 s (list_to_set (kva <$> l)) {[kva 304]} {[kva 300 := (4096, wit_pages)]}.
Proof.
  intros Hf Ha Hl. assert (forall x, x ∈ wit_pages <-> exists p, owned 300 wit_T wit_M p /\ x = kva p) as Hpg.
  { intros x. unfold wit_pages. rewrite !elem_of_union, !elem_of_singleton. split.
    - intros [[-> | ->] | ->]; eexists; (split; [|reflexivity]); [left; by left|left; right; by exists 0|right; by exists 0, (302 * 4096 + 7)].
    - intros (p & [[-> | (i & Hi)] | (v & e & Hv & _ & <-)] & ->); [auto| |].
      + unfold wit_T in Hi. apply lookup_insert_Some in Hi as [[_ <-] | [_ Hi]]; [auto|by rewrite lookup_empty in Hi].
      + unfold wit_M in Hv. apply lookup_insert_Some in Hv as [[_ <-] | [_ Hv]]; [auto|by rewrite lookup_empty in Hv]. }
  assert (forall x, x ∈ (list_to_set (kva <$> l) : gset Z) -> exists p, x = kva p /\ 303 <= p /\ p <> 304) as Hx.
  { intros x (p & -> & Hp)%elem_of_list_to_set%list_elem_of_fmap. exists p. split; [done|]. by apply Hl. }
  constructor.
  - exists l. by apply frees_list.
  - intros x ->%elem_of_singleton. exists 304. split; [apply wit_avail; lia|done].
  - intros a n pg [<- [= <- <-]]%lookup_singleton_Some. exists 300, wit_T, wit_M. split_and!; try done; [exact wit_present|].
    intros v Hv. change (pgup 4096) with 1 in Hv. unfold wit_M. rewrite lookup_insert_ne by lia. apply lookup_empty.
  - apply elem_of_disjoint. intros x (p & -> & ?)%Hx E%elem_of_singleton%kva_inj. lia.
  - intros a n pg [<- [= <- <-]]%lookup_singleton_Some. unfold wit_pages. split; apply elem_of_disjoint; intros x Hx1 Hx2.
    + apply Hx in Hx2 as (p & -> & ?). rewrite !elem_of_union, !elem_of_singleton in Hx1. destruct Hx1 as [[E | E] | E]; apply kva_inj in E; lia.
    + apply elem_of_singleton in Hx2 as ->. rewrite !elem_of_union, !elem_of_singleton in Hx1. destruct Hx1 as [[E | E] | E]; apply kva_inj in E; lia.
  - intros a a' n n' pg pg' [<- _]%lookup_singleton_Some [<- _]%lookup_singleton_Some. done.
Qed.

Lemma wit_has1 : has 0x80110000 wit_state {[kva 303]} {[kva 304]} {[kva 300 := (4096, wit_pages)]}.
Proof.
  pose proof (wit_has wit_state [303] (vm_free _ _ _ _ _ _ wit_ok) (vm_as _ _ _ _ _ _ wit_ok)) as H. change (kva <$> [303]) with [kva 303] in H. rewrite (list_to_set_singleton_L (C := gset Z)) in H.
  apply H. intros p ->%list_elem_of_singleton. lia.
Qed.

(** init running, with the memory [m]. *)
Definition wit_k (m : vmst) : kst :=
  mkK (mkProc 4096 (kva 300) (kva 304) RUNNING 1 None None false 0 User :: replicate (NPROC - 1) proc0) 2 0 m false.

Lemma wit_run m : run (H := xv6_ops 0x80110000 0x80108000) [Schedule 0] (booted (kva 304) (kva 300) m) = Some (wit_k m).
Proof. reflexivity. Qed.

Lemma wit_sane : sane 0x80110000 ({[kva 303]} ∪ {[kva 304]} ∪ wit_pages) (wit_k wit_state).
Proof.
  apply (run_sane 0x80110000 0x80108000 wit_layout (kva 304) (kva 300) wit_state {[kva 303]} wit_pages [Schedule 0]); [exact wit_has1|by split|apply wit_run].
Qed.

(** Page 304 for init's stack and the pages 400 to 1499 free. *)
Lemma wit_big : exists s l, has 0x80110000 s (list_to_set (kva <$> l)) {[kva 304]} {[kva 300 := (4096, wit_pages)]} /\
  (1026 < size (list_to_set (kva <$> l) : gset Z))%nat.
Proof.
  destruct (wp_ends _ _ _ (freerange_ok 0x80110000 0x80108000 wit_layout (mkVm wit_mem 0) [] (kva 400) (kva 1500)
    ltac:(split; [done|constructor]) ltac:(done) ltac:(done) ltac:(done) ltac:(done) ltac:(intros q _ _; apply not_elem_of_nil)))
    as (u & s & _ & l & Hf & Hl & Hs).
  assert (forall q, q ∈ l <-> 400 <= q <= 1499) as Hl'.
  { intros q. rewrite Hl, elem_of_nil. unfold kva. lia. }
  exists s, l. split.
  - apply wit_has; [done| |intros p ?%Hl'; lia]. eapply as_same; [exact (vm_as _ _ _ _ _ _ wit_ok)|]. eapply same_on_weaken; [exact Hs|].
    intros p Hp Hq. assert (p <= 302); [|unfold kva in Hq; lia]. destruct Hp as [-> | (i & Hi)]; [done|]. unfold wit_T in Hi.
    apply lookup_insert_Some in Hi as [[_ <-] | [_ Hi]]; [done|by rewrite lookup_empty in Hi].
  - assert ((list_to_set (kva <$> seqZ 400 1100) : gset Z) ⊆ list_to_set (kva <$> l)) as Hsub%subseteq_size.
    { intros x (p & -> & Hp%elem_of_seqZ)%elem_of_list_to_set%list_elem_of_fmap. apply elem_of_list_to_set, list_elem_of_fmap. exists p.
      split; [done|]. apply Hl'. lia. }
    rewrite size_list_to_set in Hsub by (apply NoDup_fmap_2; [intros x y; apply kva_inj|apply NoDup_seqZ]).
    rewrite length_fmap, length_seqZ in Hsub. change (Z.to_nat 1100) with 1100%nat in Hsub. lia.
Qed.

Lemma processes_conserve_pages_witness : exists n k,
  run (H := xv6_ops 0x80110000 0x80108000) (Schedule 0 :: Fork 0 :: replicate n (Continue 0)) (booted (kva 304) (kva 300) wit_state) = Some k /\
  crashed k = false.
Proof.
  destruct (fork_sane 0x80110000 0x80108000 wit_layout _ _ 0%nat _ 1%nat proc0 wit_sane eq_refl eq_refl eq_refl eq_refl eq_refl) as (n & k & Hk & _).
  exists n, k. assert (run (H := xv6_ops 0x80110000 0x80108000) (Schedule 0 :: Fork 0 :: replicate n (Continue 0)) (booted (kva 304) (kva 300) wit_state) = Some k)
    as E by exact Hk.
  split; [exact E|].
  apply (processes_conserve_pages 0x80110000 0x80108000 (kva 304) (kva 300) wit_state {[kva 303]} wit_pages
    (Schedule 0 :: Fork 0 :: replicate n (Continue 0)) k wit_layout wit_has1); [|exact E].
  split; [exact I|]. intros k1 _. apply fork_proper.
Defined.


Lemma fork_spec_witness : exists n k', run (H := xv6_ops 0x80110000 0x80108000) (Fork 0 :: replicate n (Continue 0)) (wit_k wit_state) = Some k'.
Proof.
  pose proof (fork_spec 0x80110000 0x80108000 _ (wit_k wit_state) 0%nat _ wit_layout wit_sane eq_refl eq_refl eq_refl) as H.
  change (find_proc _ (wit_k wit_state)) with (Some 1%nat) in H. destruct H as (c & n & k' & _ & H & _). exists n, k'. exact H.
Defined.

Lemma kill_unused_slot_witness : exists k1, pstep (H := xv6_ops 0x80110000 0x80108000) (Kill 0 0) (wit_k wit_state) = Some k1 /\ (eax <$> procs k1 !! 0%nat) = Some 0.
Proof.
  destruct (kill_unused_slot 0x80110000 0x80108000 _ (wit_k wit_state) 0%nat _ 1%nat proc0 wit_layout wit_sane eq_refl eq_refl eq_refl eq_refl eq_refl eq_refl)
    as (k1 & n & k2 & H & Hq & _). exists k1. split; [exact H|]. rewrite Hq. reflexivity.
Defined.

