(* ===== verification/ShParse.v ===== *)
(** * expansion/sh.c: the parser of the shell

    A command line is a buffer of characters; the parser keeps a position in
    it, the pointer *ps of the code, and its trees hold the arguments and file
    names as pairs of the positions q and eq.  The position is the state of the
    monad.  A failing malloc, which the code does not notice, is left out, and
    so are the functions that run the tree. *)
From S2P Require Import Prelude.

(** ** Trees

    [A] is the type of the strings in the tree. *)

Inductive cmd (A : Type) :=
| EXEC (argv : list A)
| REDIR (c : cmd A) (file : A) (mode fd : Z)
| PIPE (left right : cmd A)
| LIST (left right : cmd A)
| BACK (c : cmd A).
Arguments EXEC {A} argv.
Arguments REDIR {A} c file mode fd.
Arguments PIPE {A} left right.
Arguments LIST {A} left right.
Arguments BACK {A} c.

(** q and eq *)
Definition span : Type := nat * nat.

Definition MAXARGS : nat := 10.
Definition O_RDONLY : Z := 0.
Definition O_WRONLY : Z := 1.
Definition O_CREATE : Z := 0x200.

Definition P := M nat.

(** " \t\r\n\v" and "<|>&;()" *)
Definition whitespace : list Z := [32; 9; 13; 10; 11].
Definition symbols : list Z := [60; 124; 62; 38; 59; 40; 41].

(** strchr as a condition; no string of the code contains a zero byte. *)
Definition strchr (l : list Z) (c : Z) : bool := existsb (fun x => x =? c) l.

Section parse.
Context (buf : list Z) (es : nat).

(** *s *)
Definition ch (s : nat) : Z := default 0 (buf !! s).

(** while(s < es && f(s)) s++, with [n] = es - s. *)
Fixpoint advance (f : Z -> bool) (n s : nat) : nat :=
  match n with O => s | S n => if f (ch s) then advance f n (S s) else s end.

Definition skip_space (s : nat) : nat := advance (strchr whitespace) (es - s) s.
Definition skip_word (s : nat) : nat := advance (fun c => negb (strchr whitespace c) && negb (strchr symbols c)) (es - s) s.

(** The token, with q and eq. *)
Definition gettoken : P (Z * span) :=
  let! s := gets id in
  let q := skip_space s in
  let c := ch q in
  let '(r, eq) :=
    if c =? 0 then (c, q)
    else if strchr [124; 40; 41; 59; 38; 60] c then (c, S q)
    else if c =? 62 then if ch (S q) =? 62 then (43, S (S q)) else (c, S q)
    else (97, skip_word q) in
  modify (fun _ => skip_space eq) ;;;
  ret (r, (q, eq)).

Definition peek (toks : list Z) : P bool :=
  modify skip_space ;;;
  let! s := gets id in
  ret (negb (ch s =? 0) && strchr toks (ch s)).

Definition parseredirs_step (c : cmd span) : P (cmd span + cmd span) :=
  let! more := peek [60; 62] in
  if more then
    let! (tok, _) := gettoken in
    let! (t, f) := gettoken in
    if negb (t =? 97) then panic "missing file for redirection"
    else if tok =? 60 then ret (inl (REDIR c f O_RDONLY 0))
    else if tok =? 62 then ret (inl (REDIR c f (Z.lor O_WRONLY O_CREATE) 1))
    else if tok =? 43 then ret (inl (REDIR c f (Z.lor O_WRONLY O_CREATE) 1))
    else ret (inl c)
  else ret (inr c).

(** Every round of the loops takes a token, so [S es] rounds are enough. *)
Definition parseredirs : cmd span -> P (cmd span) := loop (S es) parseredirs_step.

(** The tree ret of parseexec is the node cmd of type EXEC inside redirections;
    the arguments are stored in that node. *)
Fixpoint store_args (argv : list span) (c : cmd span) : cmd span :=
  match c with
  | EXEC _ => EXEC argv
  | REDIR c f m d => REDIR (store_args argv c) f m d
  | c => c
  end.

Definition parseexec_step (st : list span * cmd span) : P ((list span * cmd span) + cmd span) :=
  let '(argv, c) := st in
  let! stop := peek [124; 41; 38; 59] in
  if stop then ret (inr (store_args argv c))
  else
    let! (tok, a) := gettoken in
    if tok =? 0 then ret (inr (store_args argv c))
    else if negb (tok =? 97) then panic "syntax"
    else
      let argv := argv ++ [a] in
      if (MAXARGS <=? length argv)%nat then panic "too many args"
      else
        let! c := parseredirs c in
        ret (inl (argv, c)).

(** The rest of parseexec when the command is not a block. *)
Definition parsesimple : P (cmd span) :=
  let! c := parseredirs (EXEC []) in
  loop (S es) parseexec_step ([], c).

(** ** The recursive functions

    [line] is the recursive call of parseline. *)

Definition parseblock (line : P (cmd span)) : P (cmd span) :=
  let! open := peek [40] in
  if negb open then panic "parseblock"
  else
    gettoken ;;;
    let! c := line in
    let! close := peek [41] in
    if negb close then panic "syntax - missing )"
    else
      gettoken ;;;
      parseredirs c.

Definition parseexec (line : P (cmd span)) : P (cmd span) :=
  let! block := peek [40] in
  if block then parseblock line else parsesimple.

Fixpoint parsepipe (fuel : nat) (line : P (cmd span)) : P (cmd span) :=
  match fuel with
  | O => fun _ => Diverge
  | S fuel =>
      let! c := parseexec line in
      let! more := peek [124] in
      if more then
        gettoken ;;;
        let! rest := parsepipe fuel line in
        ret (PIPE c rest)
      else ret c
  end.

Definition back_step (c : cmd span) : P (cmd span + cmd span) :=
  let! more := peek [38] in
  if more then gettoken ;;; ret (inl (BACK c)) else ret (inr c).

Fixpoint parseline (fuel : nat) : P (cmd span) :=
  match fuel with
  | O => fun _ => Diverge
  | S fuel =>
      let! c := parsepipe (S es) (parseline fuel) in
      let! c := loop (S es) back_step c in
      let! more := peek [59] in
      if more then
        gettoken ;;;
        let! rest := parseline fuel in
        ret (LIST c rest)
      else ret c
  end.
End parse.

(** ** nulterminate and parsecmd *)

Fixpoint nulterminate (c : cmd span) (buf : list Z) : list Z :=
  match c with
  | EXEC argv => fold_left (fun b a => <[snd a := 0]> b) argv buf
  | REDIR c f _ _ => <[snd f := 0]> (nulterminate c buf)
  | PIPE l r => nulterminate r (nulterminate l buf)
  | LIST l r => nulterminate r (nulterminate l buf)
  | BACK c => nulterminate c buf
  end.

Fixpoint strlen (buf : list Z) : nat :=
  match buf with
  | [] => O
  | c :: buf => if c =? 0 then O else S (strlen buf)
  end.

(** The state is the buffer. *)
Definition parsecmd : M (list Z) (cmd span) := fun buf =>
  let es := strlen buf in
  let parse :=
    let! c := parseline buf es (S es) in
    peek buf es [] ;;;
    let! s := gets id in
    if negb (s =? es)%nat then panic "syntax" else ret c in
  match parse 0%nat with
  | Ok c _ => Ok c (nulterminate c buf)
  | Panic msg => Panic msg
  | Leave _ => Leave buf
  | Undef => Undef
  | Diverge => Diverge
  end.
