(* ===== verification/ShGrammar.v ===== *)
(** * Tokens and grammar of the shell

    What gettoken and peek do to the text that remains, stated with the list of
    its tokens.  The rest of the parser is then about lists of tokens; the second
    part has the grammar. *)
From S2P Require Import Prelude ShParse.

(** ** Text to tokens *)

Inductive token := Word (w : list Z) | Sym (c : Z) | Append.

(** What gettoken returns for the token. *)
Definition code (t : token) : Z := match t with Word _ => 97 | Sym c => c | Append => 43 end.

Definition space (c : Z) : bool := strchr whitespace c.
Definition wordchar (c : Z) : bool := negb (strchr whitespace c) && negb (strchr symbols c).

Fixpoint take_while (f : Z -> bool) (l : list Z) : list Z :=
  match l with [] => [] | c :: l => if f c then c :: take_while f l else [] end.
Fixpoint drop_while (f : Z -> bool) (l : list Z) : list Z :=
  match l with [] => [] | c :: l' => if f c then drop_while f l' else l end.

(** The first token and what follows it. *)
Definition next (l : list Z) : option (token * list Z) :=
  match drop_while space l with
  | [] => None
  | c :: r =>
      if strchr symbols c then
        match r with
        | d :: r' => Some (if (c =? 62) && (d =? 62) then (Append, r') else (Sym c, r))
        | [] => Some (Sym c, r)
        end
      else Some (Word (take_while wordchar (c :: r)), drop_while wordchar (c :: r))
  end.

Fixpoint lexn (n : nat) (l : list Z) : list token :=
  match n with
  | O => []
  | S n => match next l with None => [] | Some (t, r) => t :: lexn n r end
  end.

Definition lex (l : list Z) : list token := lexn (length l) l.

(** ** Facts about texts *)

Lemma take_drop_while f l : take_while f l ++ drop_while f l = l.
Proof. induction l as [|c l IH]; [done|]. cbn. destruct (f c); [cbn; by rewrite IH|done]. Qed.

Lemma drop_while_length f l : (length (drop_while f l) <= length l)%nat.
Proof. rewrite <- (take_drop_while f l) at 2. rewrite length_app. lia. Qed.

Lemma take_while_all f l : Forall (fun c => f c = true) (take_while f l).
Proof. induction l as [|c l IH]; [done|]. cbn. destruct (f c) eqn:E; [by constructor|done]. Qed.

Lemma drop_while_head f l c r : drop_while f l = c :: r -> f c = false.
Proof. induction l as [|x l IH]; [done|]. cbn. destruct (f x) eqn:E; [done|]. intros H. by simplify_eq. Qed.

Lemma drop_while_idem f l : drop_while f (drop_while f l) = drop_while f l.
Proof. destruct (drop_while f l) as [|c r] eqn:E; [done|]. cbn. by rewrite (drop_while_head f l c r E). Qed.

Lemma next_skip l : next (drop_while space l) = next l.
Proof. unfold next. by rewrite drop_while_idem. Qed.

Lemma symbol_not_space c : strchr symbols c = true -> space c = false.
Proof.
  unfold strchr at 1. intros (x & Hx & ->%Z.eqb_eq)%existsb_exists. repeat destruct Hx as [<- | Hx]; done.
Qed.

Lemma next_shorter l t r : next l = Some (t, r) -> (length r < length l)%nat.
Proof.
  unfold next. pose proof (drop_while_length space l) as Hl. destruct (drop_while space l) as [|c r'] eqn:E; [done|]. cbn [length] in Hl.
  destruct (strchr symbols c) eqn:Es.
  - destruct r' as [|d r'']; [intros [= <- <-]; cbn; lia|]. destruct (_ && _); intros [= <- <-]; cbn [length] in *; lia.
  - intros [= <- <-]. cbn [drop_while]. assert (wordchar c = true) as ->.
    { unfold wordchar. rewrite Es. pose proof (drop_while_head _ _ _ _ E) as H. unfold space in H. by rewrite H. }
    pose proof (drop_while_length wordchar r'). lia.
Qed.

Lemma lexn_enough n l : (length l <= n)%nat -> lexn n l = lex l.
Proof.
  unfold lex. revert l. induction n as [n IH] using lt_wf_ind. intros l Hl. destruct n as [|n]; [by destruct l; cbn in *; [|lia]|].
  cbn [lexn]. destruct (next l) as [[t r]|] eqn:E.
  - pose proof (next_shorter l t r E) as Hr. destruct (length l) as [|k] eqn:Ek; [lia|]. cbn [lexn]. rewrite E. f_equal.
    rewrite (IH n) by lia. symmetry. destruct (decide (k = n)) as [-> |]; [apply IH; lia|]. apply IH; lia.
  - destruct (length l); [done|]. cbn [lexn]. by rewrite E.
Qed.

Lemma lex_next l : lex l = match next l with None => [] | Some (t, r) => t :: lex r end.
Proof.
  rewrite <- (lexn_enough (S (length l))) by lia. cbn [lexn]. destruct (next l) as [[t r]|] eqn:E; [|done].
  f_equal. apply lexn_enough. pose proof (next_shorter l t r E). lia.
Qed.

Lemma lex_skip l : lex (drop_while space l) = lex l.
Proof. by rewrite (lex_next l), lex_next, next_skip. Qed.

(** Tokens that a text can have. *)
Definition tok_ok (t : token) : Prop :=
  match t with Word w => w <> [] /\ Forall (fun c => wordchar c = true) w | Sym c => strchr symbols c = true | Append => True end.

Lemma next_ok l t r : next l = Some (t, r) -> tok_ok t.
Proof.
  unfold next. destruct (drop_while space l) as [|c r'] eqn:E; [done|]. destruct (strchr symbols c) eqn:Es.
  - destruct r' as [|d r'']; [by intros [= <- <-]|]. destruct (_ && _); by intros [= <- <-].
  - intros [= <- <-]. split; [|exact (take_while_all wordchar (c :: r'))]. cbn [take_while]. assert (wordchar c = true) as ->; [|done].
    unfold wordchar. rewrite Es. pose proof (drop_while_head _ _ _ _ E) as H. unfold space in H. by rewrite H.
Qed.

Lemma lex_ok l : Forall tok_ok (lex l).
Proof.
  unfold lex. generalize (length l) as n. intros n. revert l. induction n as [|n IH]; intros l; [constructor|]. cbn [lexn].
  destruct (next l) as [[t r]|] eqn:E; [|constructor]. constructor; [by eapply next_ok|apply IH].
Qed.

(** The result of gettoken tells the kind of token. *)
Lemma code_word t : tok_ok t -> code t = 97 -> exists w, t = Word w.
Proof. destruct t as [w|c|]; cbn; [eauto| |done]. intros H ->. done. Qed.

Lemma code_nonzero t : tok_ok t -> code t <> 0.
Proof. destruct t as [w|c|]; cbn; [done| |done]. by intros H ->. Qed.

(** ** The position in the buffer *)

Section text.
Context (buf : list Z) (es : nat).
Context (Hes : (es <= length buf)%nat) (Hnz : Forall (fun c => c <> 0) (take es buf)) (Hend : ch buf es = 0).

Definition rest (s : nat) : list Z := drop s (take es buf).
Definition toks (s : nat) : list token := lex (rest s).

Lemma rest_cons s : (s < es)%nat -> rest s = ch buf s :: rest (S s).
Proof.
  intros Hs. unfold rest, ch. destruct (lookup_lt_is_Some_2 buf s) as [c Hc]; [lia|]. rewrite Hc.
  apply drop_S. by rewrite lookup_take_lt.
Qed.

Lemma rest_end s : (es <= s)%nat -> rest s = [].
Proof. intros Hs. unfold rest. apply drop_ge. rewrite length_take. lia. Qed.

Lemma rest_length s : length (rest s) = (es - s)%nat.
Proof. unfold rest. rewrite length_drop, length_take. lia. Qed.

Lemma ch_nonzero s : (s < es)%nat -> ch buf s <> 0.
Proof.
  intros Hs. unfold ch. destruct (lookup_lt_is_Some_2 buf s) as [c Hc]; [lia|]. rewrite Hc. cbn. rewrite Forall_lookup in Hnz.
  apply (Hnz s). by rewrite lookup_take_lt.
Qed.

(** The characters from [s] to [s'] *)
Definition sub (a : span) : list Z := take (a.2 - a.1) (drop a.1 buf).

Lemma advance_spec f n : forall s, (s <= es)%nat -> n = (es - s)%nat -> let s' := advance buf f n s in
  (s <= s' <= es)%nat /\ rest s' = drop_while f (rest s) /\ sub (s, s') = take_while f (rest s).
Proof.
  induction n as [|n IH]; intros s Hs Hn s'; subst s'; cbn [advance].
  - assert (s = es) as -> by lia. split; [lia|]. unfold sub. cbn. by rewrite Nat.sub_diag, rest_end by lia.
  - rewrite (rest_cons s) by lia. cbn [drop_while take_while]. destruct (f (ch buf s)) eqn:E.
    + destruct (IH (S s)) as ([H1 H2] & H3 & H4); [lia..|]. split; [lia|]. split; [done|]. unfold sub in *. cbn in *. rewrite <- H4.
      destruct (lookup_lt_is_Some_2 buf s) as [c Hc]; [lia|]. unfold ch. rewrite Hc. cbn. rewrite (drop_S buf c s Hc).
      replace (advance buf f n (S s) - s)%nat with (S (advance buf f n (S s) - S s)) by lia. done.
    + split; [lia|]. rewrite rest_cons by lia. split; [done|]. unfold sub. cbn. by rewrite Nat.sub_diag.
Qed.

(** An argument or file name: the characters of a word, up to a character that
    is in no word. *)
Definition spans (a : span) (w : list Z) : Prop :=
  sub a = w /\ (a.1 < a.2 <= es)%nat /\ Forall (fun c => wordchar c = true) w /\ (a.2 = es \/ wordchar (ch buf a.2) = false).

Lemma skip_space_spec s : (s <= es)%nat -> (s <= skip_space buf es s <= es)%nat /\ rest (skip_space buf es s) = drop_while space (rest s).
Proof. intros Hs. destruct (advance_spec (strchr whitespace) _ s Hs eq_refl) as (? & ? & _). done. Qed.

Lemma toks_skip s : (s <= es)%nat -> toks (skip_space buf es s) = toks s.
Proof. intros Hs. unfold toks. destruct (skip_space_spec s Hs) as [_ ->]. apply lex_skip. Qed.

Lemma ch_rest s : (s <= es)%nat -> ch buf s = match rest s with [] => 0 | c :: _ => c end.
Proof. intros Hs. destruct (decide (s = es)) as [-> |]; [by rewrite rest_end|]. by rewrite rest_cons by lia. Qed.

Lemma rest_S s c r : (s <= es)%nat -> rest s = c :: r -> (s < es)%nat /\ ch buf s = c /\ rest (S s) = r.
Proof.
  intros Hs E. destruct (decide (s = es)) as [-> |]; [by rewrite rest_end in E|]. rewrite rest_cons in E by lia. simplify_eq. split; [lia|done].
Qed.

Lemma skip_word_spec q c r : (q <= es)%nat -> rest q = c :: r -> wordchar c = true ->
  (q < skip_word buf es q <= es)%nat /\ rest (skip_word buf es q) = drop_while wordchar (c :: r) /\ spans (q, skip_word buf es q) (take_while wordchar (c :: r)).
Proof.
  intros Hq E Hc. destruct (advance_spec wordchar _ q Hq eq_refl) as (H1 & H2 & H3). rewrite E in H2, H3.
  change (advance buf wordchar (es - q) q) with (skip_word buf es q) in *.
  assert (q < skip_word buf es q)%nat as Hlt.
  { destruct (decide (skip_word buf es q = q)) as [E'|]; [|lia]. rewrite E' in H3. unfold sub in H3. cbn in H3. rewrite Nat.sub_diag, Hc in H3. done. }
  split; [lia|]. split; [done|]. split; [done|]. split; [cbn; lia|]. split; [apply take_while_all|]. cbn.
  rewrite ch_rest by lia. destruct (rest (skip_word buf es q)) as [|d r'] eqn:Er.
  - left. pose proof (rest_length (skip_word buf es q)) as Hl. rewrite Er in Hl. cbn in Hl. lia.
  - right. by eapply (drop_while_head wordchar (c :: r)).
Qed.

(** ** gettoken and peek on tokens *)

Lemma gettoken_at s : (s <= es)%nat -> exists r a s', gettoken buf es s = Ok (r, a) s' /\
  match next (rest s) with
  | None => r = 0 /\ s' = es
  | Some (t, l) => r = code t /\ rest s' = drop_while space l /\ (s < s' <= es)%nat /\ forall w, t = Word w -> spans a w
  end.
Proof.
  intros Hs. destruct (skip_space_spec s Hs) as [Hq Er]. unfold gettoken, bind, gets, modify, id. set (q := skip_space buf es s) in *.
  unfold next. rewrite <- Er. rewrite (ch_rest q) by lia.
  destruct (rest q) as [|c r] eqn:Eq.
  { exists 0, (q, q), (skip_space buf es q). split; [done|]. split; [done|]. destruct (skip_space_spec q ltac:(lia)) as [H _].
    pose proof (rest_length q) as Hl. rewrite Eq in Hl. cbn in Hl. lia. }
  destruct (rest_S q c r ltac:(lia) Eq) as (Hlt & Hch & HrS).
  assert (c <> 0) as Hc0 by (rewrite <- Hch; by apply ch_nonzero). rewrite (proj2 (Z.eqb_neq c 0) Hc0).
  assert (forall eq, (q < eq <= es)%nat -> (s < skip_space buf es eq <= es)%nat) as Hgo.
  { intros eq Heq. destruct (skip_space_spec eq ltac:(lia)). lia. }
  destruct (strchr symbols c) eqn:Esym.
  - destruct (Z.eqb_spec c 62) as [-> | Hne].
    + replace (strchr [124; 40; 41; 59; 38; 60] 62) with false by done. rewrite (ch_rest (S q)), HrS by lia. destruct r as [|d r].
      * exists 62, (q, S q), (skip_space buf es (S q)). split; [done|]. split; [done|]. destruct (skip_space_spec (S q) ltac:(lia)) as [_ ->].
        rewrite HrS. split; [done|]. split; [apply Hgo; lia|done].
      * destruct (rest_S (S q) d r ltac:(lia) HrS) as (Hlt2 & _ & HrSS). destruct (Z.eqb_spec d 62) as [-> | Hd]; cbn [andb].
        -- exists 43, (q, S (S q)), (skip_space buf es (S (S q))). split; [done|]. split; [done|]. destruct (skip_space_spec (S (S q)) ltac:(lia)) as [_ ->].
           rewrite HrSS. split; [done|]. split; [apply Hgo; lia|done].
        -- exists 62, (q, S q), (skip_space buf es (S q)). split; [done|]. split; [done|]. destruct (skip_space_spec (S q) ltac:(lia)) as [_ ->].
           rewrite HrS. split; [done|]. split; [apply Hgo; lia|done].
    + assert (strchr [124; 40; 41; 59; 38; 60] c = true) as ->.
      { unfold strchr in *. apply existsb_exists in Esym as (x & Hx & ->%Z.eqb_eq). apply existsb_exists. exists c. split; [|apply Z.eqb_refl].
        cbn in Hx |- *. intuition congruence. }
      exists c, (q, S q), (skip_space buf es (S q)). split; [done|].
      destruct (skip_space_spec (S q) ltac:(lia)) as [_ Hsk]. rewrite HrS in Hsk.
      destruct r; (split; [done|]; split; [done|]; split; [apply Hgo; lia|done]).
  - assert (wordchar c = true) as Hwc.
    { unfold wordchar. rewrite Esym. pose proof (drop_while_head space (rest s) c r (eq_sym Er)) as H. unfold space in H. by rewrite H. }
    assert (strchr [124; 40; 41; 59; 38; 60] c = false /\ (c =? 62) = false) as [-> ->].
    { unfold strchr, symbols in *. cbn [existsb] in *. rewrite !orb_false_iff in *. rewrite (Z.eqb_sym c 62). tauto. }
    destruct (skip_word_spec q c r ltac:(lia) Eq Hwc) as (Hw & Hwr & Hsp).
    exists 97, (q, skip_word buf es q), (skip_space buf es (skip_word buf es q)). split; [done|]. split; [done|].
    destruct (skip_space_spec (skip_word buf es q) ltac:(lia)) as [_ ->]. rewrite Hwr. split; [done|]. split; [apply Hgo; lia|]. intros w [= <-]. done.
Qed.

Lemma gettoken_toks s : (s <= es)%nat -> exists r a s', gettoken buf es s = Ok (r, a) s' /\
  match toks s with
  | [] => r = 0 /\ s' = es
  | t :: ts => r = code t /\ toks s' = ts /\ (s < s' <= es)%nat /\ tok_ok t /\ forall w, t = Word w -> spans a w
  end.
Proof.
  intros Hs. destruct (gettoken_at s Hs) as (r & a & s' & E & H). exists r, a, s'. split; [done|]. unfold toks. rewrite (lex_next (rest s)).
  destruct (next (rest s)) as [[t l]|] eqn:En; [|done]. destruct H as (? & Hr & ? & ?). split_and!; try done; [by rewrite Hr, lex_skip|lia..|by eapply next_ok].
Qed.

(** Does a token begin with one of the symbols [ks]? *)
Definition starts (ks : list Z) (ts : list token) : bool :=
  match ts with Sym c :: _ => strchr ks c | Append :: _ => strchr ks 62 | _ => false end.

Lemma peek_toks ks s : (s <= es)%nat -> Forall (fun c => strchr symbols c = true) ks ->
  exists s', peek buf es ks s = Ok (starts ks (toks s)) s' /\ toks s' = toks s /\ (s <= s' <= es)%nat /\ rest s' = drop_while space (rest s).
Proof.
  intros Hs Hks. exists (skip_space buf es s). destruct (skip_space_spec s Hs) as [Hq Er]. split_and!; [|by apply toks_skip|lia..|done].
  unfold peek, bind, modify, gets, id, ret. f_equal. rewrite (ch_rest (skip_space buf es s)) by lia.
  unfold toks. rewrite lex_next. unfold next. rewrite Er. destruct (drop_while space (rest s)) as [|c r] eqn:E; [done|].
  destruct (rest_S _ c r (proj2 Hq) Er) as (Hlt & Hch & _). assert (c <> 0) as Hc0 by (rewrite <- Hch; by apply ch_nonzero).
  rewrite (proj2 (Z.eqb_neq c 0) Hc0). cbn [negb andb]. destruct (strchr symbols c) eqn:Esym.
  - destruct r as [|d r]; [done|]. destruct (Z.eqb_spec c 62) as [-> |]; [|done]. by destruct (d =? 62).
  - cbn [starts]. unfold strchr. apply not_true_iff_false. intros (x & Hx & ->%Z.eqb_eq)%existsb_exists.
    rewrite List.Forall_forall in Hks. specialize (Hks c Hx). congruence.
Qed.
End text.

(** * The grammar of the shell

    The grammar as a relation between tokens and trees, and that the parser
    accepts exactly the lines of the grammar, with its trees: [line_sound] and
    [line_complete].  The parser always ends, with a tree or with panic. *)

Notation tree := (cmd (list Z)).

(** ** The grammar *)

(** The mode and the descriptor of a redirection. *)
Definition redir_op (t : token) : option (Z * Z) :=
  match t with
  | Sym c => if c =? 60 then Some (O_RDONLY, 0) else if c =? 62 then Some (Z.lor O_WRONLY O_CREATE, 1) else None
  | Append => Some (Z.lor O_WRONLY O_CREATE, 1)
  | Word _ => None
  end.

(** The parts of a simple command: arguments and redirections, in any order. *)
Inductive item := Arg (w : list Z) | Redir (op : token) (f : list Z).

Definition item_toks (i : item) : list token := match i with Arg w => [Word w] | Redir op f => [op; Word f] end.
Definition is_redir (i : item) : Prop := match i with Arg _ => False | Redir op _ => is_Some (redir_op op) end.
Definition item_ok (i : item) : Prop := match i with Arg _ => True | Redir op _ => is_Some (redir_op op) end.

Definition args (its : list item) : list (list Z) := omap (fun i => match i with Arg w => Some w | _ => None end) its.

Definition apply_redir (c : tree) (i : item) : tree :=
  match i with
  | Arg _ => c
  | Redir op f => match redir_op op with Some (m, d) => REDIR c f m d | None => c end
  end.
Definition apply_redirs (its : list item) (c : tree) : tree := fold_left apply_redir its c.

Definition items_toks (its : list item) : list token := its ≫= item_toks.

Definition backs (n : nat) (c : tree) : tree := Nat.iter n BACK c.

Inductive g_exec : list token -> tree -> Prop :=
| g_simple its : Forall item_ok its -> (length (args its) < MAXARGS)%nat ->
    g_exec (items_toks its) (apply_redirs its (EXEC (args its)))
| g_block ts c its : g_line ts c -> Forall is_redir its ->
    g_exec (Sym 40 :: ts ++ Sym 41 :: items_toks its) (apply_redirs its c)
with g_pipe : list token -> tree -> Prop :=
| g_one ts c : g_exec ts c -> g_pipe ts c
| g_more ts c ts' c' : g_exec ts c -> g_pipe ts' c' -> g_pipe (ts ++ Sym 124 :: ts') (PIPE c c')
with g_line : list token -> tree -> Prop :=
| g_last ts n c : g_pipe ts c -> g_line (ts ++ replicate n (Sym 38)) (backs n c)
| g_list ts n c ts' c' : g_pipe ts c -> g_line ts' c' ->
    g_line (ts ++ replicate n (Sym 38) ++ Sym 59 :: ts') (LIST (backs n c) c').

(** Trees of the same shape whose strings are related. *)
Inductive cmd_rel {A B} (R : A -> B -> Prop) : cmd A -> cmd B -> Prop :=
| d_exec argv ws : Forall2 R argv ws -> cmd_rel R (EXEC argv) (EXEC ws)
| d_redir c d f w m n : cmd_rel R c d -> R f w -> cmd_rel R (REDIR c f m n) (REDIR d w m n)
| d_pipe c1 d1 c2 d2 : cmd_rel R c1 d1 -> cmd_rel R c2 d2 -> cmd_rel R (PIPE c1 c2) (PIPE d1 d2)
| d_list c1 d1 c2 d2 : cmd_rel R c1 d1 -> cmd_rel R c2 d2 -> cmd_rel R (LIST c1 c2) (LIST d1 d2)
| d_back c d : cmd_rel R c d -> cmd_rel R (BACK c) (BACK d).

(** ** Runs that end: with a result or with panic *)

Definition ends {S A} (m : M S A) (Q : A -> S -> Prop) (s : S) : Prop :=
  match m s with Ok a s' => Q a s' | Panic _ => True | _ => False end.

Lemma ends_bind {S A B} (m : M S A) (k : A -> M S B) Q s : ends m (fun a s' => ends (k a) Q s') s -> ends (bind m k) Q s.
Proof. unfold ends, bind. by destruct (m s). Qed.

Lemma ends_mono {S A} (m : M S A) (Q Q' : A -> S -> Prop) s : ends m Q s -> (forall a s', Q a s' -> Q' a s') -> ends m Q' s.
Proof. unfold ends. destruct (m s); auto. Qed.

Lemma ends_ok {S A} (m : M S A) (Q : A -> S -> Prop) s a s' : m s = Ok a s' -> Q a s' -> ends m Q s.
Proof. unfold ends. by intros ->. Qed.

Lemma wp_ok {S A} (m : M S A) (Q : A -> S -> Prop) s a s' : m s = Ok a s' -> Q a s' -> wp m Q s.
Proof. unfold wp, wpe. by intros ->. Qed.

Lemma wp_bind {S A B} (m : M S A) (k : A -> M S B) Q s : wp m (fun a s' => wp (k a) Q s') s -> wp (bind m k) Q s.
Proof. apply wpe_bind. Qed.

Lemma ends_loop {S A B} (body : A -> M S (A + B)) (I : A -> S -> Prop) (mu : S -> nat) (Q : B -> S -> Prop) :
  (forall a s, I a s -> ends (body a) (fun r s' => match r with inl a' => I a' s' /\ (mu s' < mu s)%nat | inr b => Q b s' end) s) ->
  forall fuel a s, I a s -> (mu s < fuel)%nat -> ends (loop fuel body a) Q s.
Proof.
  intros Hbody fuel. induction fuel as [|n IH]; intros a s HI Hmu; [lia|]. cbn [loop]. apply ends_bind.
  eapply ends_mono; [by apply Hbody|]. intros [a'|b] s' H; [|done]. destruct H. apply IH; [done|lia].
Qed.

(** ** Items *)

Lemma args_app its its' : args (its ++ its') = args its ++ args its'.
Proof. apply omap_app. Qed.

Lemma apply_app its its' c : apply_redirs (its ++ its') c = apply_redirs its' (apply_redirs its c).
Proof. apply fold_left_app. Qed.

Lemma items_app its its' : items_toks (its ++ its') = items_toks its ++ items_toks its'.
Proof. apply bind_app. Qed.

Lemma redirs_no_args its : Forall is_redir its -> args its = [].
Proof. induction 1 as [|[w|op f] its H _ IH]; [done..|]. exact IH. Qed.

Lemma redirs_items its : Forall is_redir its -> Forall item_ok its.
Proof. intros H. eapply Forall_impl; [exact H|]. by intros []. Qed.

(** The redirections in front. *)
Lemma lead_redirs its : Forall item_ok its -> exists rs its', its = rs ++ its' /\ Forall is_redir rs /\
  (its' = [] \/ exists w its'', its' = Arg w :: its'').
Proof.
  induction 1 as [|[w|op f] its H Hok IH]; [exists [], []; auto|exists [], (Arg w :: its); split_and!; eauto|].
  destruct IH as (rs & its' & -> & Hrs & Hl). exists (Redir op f :: rs), its'. split_and!; [done|by constructor|done].
Qed.

Section parser.
Context (buf : list Z) (es : nat).
Context (Hes : (es <= length buf)%nat) (Hnz : Forall (fun c => c <> 0) (take es buf)) (Hend : ch buf es = 0).

Notation toks := (toks buf es).
Notation spans := (spans buf es).

(** The tree with its strings. *)
Notation denotes := (cmd_rel spans).

(** What a parser does that returns at [s'] with the tree [c]: the tokens it took
    are [ts] and the tree denotes [d]. *)
Definition took (s s' : nat) (ts : list token) (c : cmd span) (d : tree) : Prop :=
  (s <= s' <= es)%nat /\ toks s = ts ++ toks s' /\ denotes c d.

Lemma peek_at ks s : (s <= es)%nat -> Forall (fun c => strchr symbols c = true) ks ->
  exists s', peek buf es ks s = Ok (starts ks (toks s)) s' /\ toks s' = toks s /\ (s <= s' <= es)%nat.
Proof. intros Hs Hks. destruct (peek_toks buf es Hes Hnz Hend ks s Hs Hks) as (s' & ? & ? & ? & _). by exists s'. Qed.

Ltac symbol_list := repeat constructor.
Tactic Notation "ends_peek" ident(s') simple_intropattern(p) :=
  apply ends_bind; match goal with |- ends (peek buf es ?ks) _ ?s =>
    let E := fresh in destruct (peek_at ks s) as (s' & E & p); [lia|symbol_list|eapply ends_ok; [exact E|]; clear E] end.
Tactic Notation "ends_token" ident(r) ident(a) ident(s') simple_intropattern(p) :=
  apply ends_bind; match goal with |- ends (gettoken buf es) _ ?s =>
    let E := fresh in destruct (gettoken_toks buf es Hes Hnz Hend s) as (r & a & s' & E & p); [lia|eapply ends_ok; [exact E|]; clear E] end.
Tactic Notation "wp_peek" ident(s') simple_intropattern(p) :=
  apply wp_bind; match goal with |- wp (peek buf es ?ks) _ ?s =>
    let E := fresh in destruct (peek_at ks s) as (s' & E & p); [lia|symbol_list|eapply wp_ok; [exact E|]; clear E] end.
Tactic Notation "wp_token" ident(r) ident(a) ident(s') simple_intropattern(p) :=
  apply wp_bind; match goal with |- wp (gettoken buf es) _ ?s =>
    let E := fresh in destruct (gettoken_toks buf es Hes Hnz Hend s) as (r & a & s' & E & p); [lia|eapply wp_ok; [exact E|]; clear E] end.

(** ** Redirections *)

Lemma redirs_sound c d s : (s <= es)%nat -> denotes c d ->
  ends (parseredirs buf es c) (fun c' s' => exists its, Forall is_redir its /\ took s s' (items_toks its) c' (apply_redirs its d)) s.
Proof.
  intros Hs Hd. unfold parseredirs.
  apply (ends_loop _ (fun c1 s1 => exists its, Forall is_redir its /\ took s s1 (items_toks its) c1 (apply_redirs its d)) (fun s1 => es - s1)%nat); [|exists []; by split_and!|lia].
  intros c1 s1 (its & Hr & H1 & H2 & H3). unfold parseredirs_step. ends_peek s2 (Ht & Hs2). destruct (starts [60; 62] (toks s1)) eqn:Est.
  2: { exists its. split; [done|]. split; [lia|]. by rewrite Ht. }
  ends_token r1 a1 s3 Htok. rewrite Ht in Htok. destruct (toks s1) as [|t ts] eqn:Et; [done|]. destruct Htok as (-> & Ht3 & Hs3 & Hok1 & _).
  ends_token r2 a2 s4 Htok. rewrite Ht3 in Htok. destruct ts as [|t2 ts]; [by destruct Htok as [-> _]|].
  destruct Htok as (-> & Ht4 & Hs4 & Hok2 & Hw). destruct (Z.eqb_spec (code t2) 97) as [E97 | _]; [|done]. cbn [negb].
  destruct (code_word _ Hok2 E97) as [w ->]. specialize (Hw w eq_refl).
  assert (forall m n, redir_op t = Some (m, n) -> 
    (exists its, Forall is_redir its /\ took s s4 (items_toks its) (REDIR c1 a2 m n) (apply_redirs its d)) /\ (es - s4 < es - s1)%nat) as Hgo.
  { intros m n Eop. split; [|lia]. exists (its ++ [Redir t w]). split; [apply Forall_app; split; [done|]; constructor; [by eexists|constructor]|].
    split; [lia|]. rewrite items_app, apply_app. split; [rewrite H2, Ht4, <- app_assoc; done|]. cbn [apply_redirs fold_left apply_redir]. rewrite Eop. by constructor. }
  destruct t as [w'|x|]; [done| |by apply Hgo]. cbn [starts code] in *. unfold strchr in Est. cbn [existsb] in Est.
  destruct (Z.eqb_spec x 60) as [-> | H60]; [by apply Hgo|]. destruct (Z.eqb_spec x 62) as [-> | H62]; [by apply Hgo|].
  exfalso. rewrite !(Z.eqb_sym _ x) in Est. by rewrite (proj2 (Z.eqb_neq x 60) H60), (proj2 (Z.eqb_neq x 62) H62) in Est.
Qed.

(** ** Simple commands *)

(** The arguments go into the node inside the redirections. *)
Lemma store_denotes its : forall argv ws c, Forall item_ok its -> denotes c (apply_redirs its (EXEC [])) -> Forall2 spans argv ws ->
  denotes (store_args argv c) (apply_redirs its (EXEC ws)).
Proof.
  induction its as [|i its IH] using rev_ind; intros argv ws c Hok Hd Hw.
  - cbn in Hd. inversion Hd; subst. by constructor.
  - apply Forall_app in Hok as [Hok Hi]. rewrite Forall_singleton in Hi. rewrite apply_app in *. destruct i as [w|op f]; cbn [apply_redirs fold_left apply_redir item_ok] in *; [by apply IH|].
    destruct Hi as [[m n] Hi]. rewrite Hi in *. inversion Hd; subst. cbn. constructor; [by apply IH|done].
Qed.

Lemma simple_sound s : (s <= es)%nat ->
  ends (parsesimple buf es) (fun c s' => exists ts d, took s s' ts c d /\ g_exec ts d) s.
Proof.
  intros Hs. unfold parsesimple. apply ends_bind. eapply ends_mono; [apply (redirs_sound (EXEC []) (EXEC [])); [done|by constructor]|].
  intros c0 s0 (its0 & Hr0 & H01 & H02 & H03).
  eapply (ends_loop _ (fun st s1 => exists its, Forall item_ok its /\ (length (args its) < MAXARGS)%nat /\
    took s s1 (items_toks its) st.2 (apply_redirs its (EXEC [])) /\ Forall2 spans st.1 (args its)) (fun s1 => es - s1)%nat); [| |cbn; lia].
  2: { exists its0. rewrite redirs_no_args by done. split_and!; try done; [by apply redirs_items|unfold MAXARGS; cbn; lia]. }
  clear c0 s0 its0 Hr0 H01 H02 H03. intros [argv c] s1 (its & Hok & Hlen & (H1 & H2 & H3) & Hargs). cbn [fst snd] in *. unfold parseexec_step.
  assert (forall s', (s1 <= s' <= es)%nat -> toks s' = toks s1 -> exists ts d, took s s' ts (store_args argv c) d /\ g_exec ts d) as Hstop.
  { intros s' Hs' Ht'. exists (items_toks its), (apply_redirs its (EXEC (args its))). split; [|by constructor]. split; [lia|]. rewrite Ht'. split; [done|].
    by apply store_denotes. }
  ends_peek s2 (Ht & Hs2). destruct (starts _ _) eqn:Est; [by apply Hstop|].
  ends_token r a s3 Htok. rewrite Ht in Htok. destruct (toks s1) as [|t ts] eqn:Et.
  { destruct Htok as [-> ->]. cbn [Z.eqb]. apply Hstop; [lia|]. unfold ShGrammar.toks. by rewrite rest_end. }
  destruct Htok as (-> & Ht3 & Hs3 & Hok1 & Hw). rewrite (proj2 (Z.eqb_neq _ _) (code_nonzero t Hok1)).
  destruct (Z.eqb_spec (code t) 97) as [E97 | _]; [|done]. cbn [negb]. destruct (code_word _ Hok1 E97) as [w ->]. specialize (Hw w eq_refl).
  pose proof (Forall2_length _ _ _ Hargs) as Hl.
  destruct (Nat.leb_spec MAXARGS (length (argv ++ [a]))) as [_ | Hmax]; [done|]. rewrite length_app in Hmax. cbn in Hmax.
  apply ends_bind. eapply ends_mono; [apply (redirs_sound c (apply_redirs its (EXEC [])) s3); [lia|exact H3]|].
  intros c' s4 (its' & Hr & H4 & H5 & H6). split; [|lia]. exists (its ++ Arg w :: its').
  rewrite args_app, items_app, apply_app. cbn [args omap list_omap]. fold (args its'). rewrite (redirs_no_args its') by done. split_and!.
  - apply Forall_app. split; [done|]. constructor; [done|by apply redirs_items].
  - rewrite length_app. cbn. lia.
  - split; [lia|]. split; [|exact H6]. by rewrite H2, <- app_assoc, <- Ht3, H5.
  - apply Forall2_app; [done|]. constructor; [done|constructor].
Qed.

(** ** Blocks, pipes and lines *)

Definition line_sound (line : P (cmd span)) (n : nat) : Prop := forall s, (s <= es)%nat -> (es - s < n)%nat ->
  ends line (fun c s' => exists ts d, took s s' ts c d /\ g_line ts d) s.

(** A token that begins with the symbol [x], other than >, is the symbol. *)
Lemma starts_sym x s : x <> 62 -> starts [x] (toks s) = true -> exists ts, toks s = Sym x :: ts.
Proof.
  intros Hx. destruct (toks s) as [|[w|y|] ts]; cbn; try done; unfold strchr; cbn [existsb]; rewrite orb_false_r, Z.eqb_eq; [intros ->; eauto|done].
Qed.

Lemma exec_sound line n s : line_sound line n -> (s <= es)%nat -> (es - s < S n)%nat ->
  ends (parseexec buf es line) (fun c s' => exists ts d, took s s' ts c d /\ g_exec ts d) s.
Proof.
  intros HL Hs Hn. unfold parseexec. ends_peek s1 (Ht1 & Hs1). destruct (starts [40] (toks s)) eqn:Est.
  2: { eapply ends_mono; [apply simple_sound; lia|]. intros c s' (ts & d & (H1 & H2 & H3) & Hg). exists ts, d. split; [|done]. split; [lia|]. by rewrite <- Ht1. }
  destruct (starts_sym 40 s ltac:(done) Est) as [ts0 Es]. unfold parseblock. ends_peek s2 (Ht2 & Hs2). rewrite Ht1, Est. cbn [negb].
  ends_token r a s3 Htok. rewrite Ht2, Ht1, Es in Htok. destruct Htok as (_ & Ht3 & Hs3 & _).
  apply ends_bind. eapply ends_mono; [apply (HL s3); lia|]. intros c s4 (ts & d & (H1 & H2 & H3) & Hg). ends_peek s5 (Ht5 & Hs5).
  destruct (starts [41] (toks s4)) eqn:Est4; [|done]. cbn [negb]. destruct (starts_sym 41 s4 ltac:(done) Est4) as [ts4 Es4].
  ends_token r' a' s6 Htok. rewrite Ht5, Es4 in Htok. destruct Htok as (_ & Ht6 & Hs6 & _).
  eapply ends_mono; [apply (redirs_sound c d s6); [lia|done]|]. intros c' s7 (its & Hr & H4 & H5 & H6).
  exists (Sym 40 :: ts ++ Sym 41 :: items_toks its), (apply_redirs its d). split; [|by constructor]. split; [lia|]. split; [|done].
  rewrite Es, <- Ht3, H2, Es4, <- Ht6, H5. cbn. f_equal. by rewrite <- app_assoc.
Qed.

Lemma pipe_sound line n fuel : line_sound line n -> forall s, (s <= es)%nat -> (es - s < S n)%nat -> (es - s < fuel)%nat ->
  ends (parsepipe buf es fuel line) (fun c s' => exists ts d, took s s' ts c d /\ g_pipe ts d) s.
Proof.
  intros HL. induction fuel as [|fuel IH]; intros s Hs Hn Hf; [lia|]. cbn [parsepipe]. apply ends_bind.
  eapply ends_mono; [by apply (exec_sound line n)|]. intros c s1 (ts & d & (H1 & H2 & H3) & Hg). ends_peek s2 (Ht2 & Hs2).
  destruct (starts [124] (toks s1)) eqn:Est.
  2: { exists ts, d. split; [|by constructor]. split; [lia|]. by rewrite Ht2. }
  destruct (starts_sym 124 s1 ltac:(done) Est) as [ts1 Es]. ends_token r a s3 Htok. rewrite Ht2, Es in Htok. destruct Htok as (_ & Ht3 & Hs3 & _).
  apply ends_bind. eapply ends_mono; [apply (IH s3); lia|]. intros c' s4 (ts' & d' & (H4 & H5 & H6) & Hg').
  exists (ts ++ Sym 124 :: ts'), (PIPE d d'). split; [|by constructor]. split; [lia|]. split; [|by constructor].
  rewrite H2, Es, <- Ht3, H5. by rewrite <- app_assoc.
Qed.

Lemma backs_sound s ts d : forall c s1, took s s1 ts c d ->
  ends (loop (S es) (back_step buf es) c) (fun c' s' => exists n, took s s' (ts ++ replicate n (Sym 38)) c' (backs n d)) s1.
Proof.
  intros c s1 H. apply (ends_loop _ (fun c' s' => exists n, took s s' (ts ++ replicate n (Sym 38)) c' (backs n d)) (fun s' => es - s')%nat); [| |destruct H; lia].
  2: { exists 0%nat. by rewrite app_nil_r. }
  clear c s1 H. intros c s1 (n & H1 & H2 & H3). unfold back_step. ends_peek s2 (Ht2 & Hs2). destruct (starts [38] (toks s1)) eqn:Est.
  2: { exists n. split; [lia|]. by rewrite Ht2. }
  destruct (starts_sym 38 s1 ltac:(done) Est) as [ts1 Es]. ends_token r a s3 Htok. rewrite Ht2, Es in Htok. destruct Htok as (_ & Ht3 & Hs3 & _).
  split; [|lia]. exists (S n). split; [lia|]. split; [|by constructor]. rewrite H2, Es, <- Ht3, replicate_S_end, <- !app_assoc. done.
Qed.

Lemma line_sound_ok fuel : line_sound (parseline buf es fuel) fuel.
Proof.
  induction fuel as [|fuel IH]; intros s Hs Hf; [lia|]. cbn [parseline]. apply ends_bind.
  eapply ends_mono; [apply (pipe_sound _ fuel _ IH s); lia|]. intros c s1 (ts & d & Htk & Hg). apply ends_bind.
  eapply ends_mono; [by apply (backs_sound s ts d)|]. intros c1 s2 (n & H1 & H2 & H3). ends_peek s3 (Ht3 & Hs3).
  destruct (starts [59] (toks s2)) eqn:Est.
  2: { exists (ts ++ replicate n (Sym 38)), (backs n d). split; [|by constructor]. split; [lia|]. by rewrite Ht3. }
  destruct (starts_sym 59 s2 ltac:(done) Est) as [ts2 Es]. ends_token r a s4 Htok. rewrite Ht3, Es in Htok. destruct Htok as (_ & Ht4 & Hs4 & _).
  apply ends_bind. eapply ends_mono; [apply (IH s4); lia|]. intros c' s5 (ts' & d' & (H4 & H5 & H6) & Hg').
  exists (ts ++ replicate n (Sym 38) ++ Sym 59 :: ts'), (LIST (backs n d) d'). split; [|by constructor]. split; [lia|]. split; [|by constructor].
  rewrite H2, Es, <- Ht4, H5, <- !app_assoc. done.
Qed.

(** ** Every line of the grammar is parsed *)

(** What may follow a simple command, a pipe and a line. *)
Definition stop (ts : list token) : Prop := ts = [] \/ starts [124; 41; 38; 59] ts = true.

Lemma stop_no_redir ts : stop ts -> starts [60; 62] ts = false.
Proof.
  intros [-> | H]; [done|]. destruct ts as [|[w|c|] ts]; cbn [starts] in *; try done. unfold strchr in *.
  apply existsb_exists in H as (x & Hx & ->%Z.eqb_eq). repeat destruct Hx as [<- | Hx]; done.
Qed.

Lemma stop_sym c ts : In c [124; 41; 38; 59] -> stop (Sym c :: ts).
Proof. intros H. right. cbn [starts]. unfold strchr. apply existsb_exists. exists c. split; [done|apply Z.eqb_refl]. Qed.

Lemma redirs_complete fuel : forall its c d s ts, Forall is_redir its -> (s <= es)%nat -> (es - s < fuel)%nat -> denotes c d ->
  toks s = items_toks its ++ ts -> starts [60; 62] ts = false ->
  wp (loop fuel (parseredirs_step buf es) c) (fun c' s' => (s <= s' <= es)%nat /\ toks s' = ts /\ denotes c' (apply_redirs its d)) s.
Proof.
  induction fuel as [|fuel IH]; intros its c d s ts Hr Hs Hf Hd Ht Hn; [lia|]. cbn [loop]. apply wp_bind. unfold parseredirs_step.
  wp_peek s1 (Ht1 & Hs1). destruct Hr as [|[w|op f] its Hop Hr].
  { cbn in Ht. rewrite Ht, Hn. apply wpe_ret, wpe_ret. split; [lia|]. by rewrite Ht1. }
  { done. }
  change (items_toks (Redir op f :: its)) with (op :: Word f :: items_toks its) in Ht. destruct Hop as [[m n] Hop].
  assert (starts [60; 62] (toks s) = true) as ->.
  { rewrite Ht. destruct op as [w|c1|]; cbn [redir_op starts app] in *; [done| |done]. unfold strchr. cbn [existsb].
    destruct (Z.eqb_spec c1 60) as [-> |]; [done|]. destruct (Z.eqb_spec c1 62) as [-> |]; done. }
  wp_token r a s2 Htok. rewrite Ht1, Ht in Htok. destruct Htok as (-> & Ht2 & Hs2 & _).
  wp_token r' a' s3 Htok. rewrite Ht2 in Htok. destruct Htok as (-> & Ht3 & Hs3 & _ & Hw). specialize (Hw f eq_refl). cbn [code Z.eqb Pos.eqb negb].
  assert (wp (loop fuel (parseredirs_step buf es) (REDIR c a' m n)) (fun c' s' => (s <= s' <= es)%nat /\ toks s' = ts /\ denotes c' (apply_redirs (Redir op f :: its) d)) s3) as Hgo.
  { eapply wp_mono; [apply (IH its (REDIR c a' m n) (REDIR d f m n) s3 ts); try done; [lia..|by constructor]|].
    intros c' s' (H1 & H2 & H3). split; [lia|]. split; [done|]. cbn [apply_redirs fold_left apply_redir]. by rewrite Hop. }
  destruct op as [w|c1|]; cbn [code redir_op] in *; [done| |injection Hop as <- <-; apply wpe_ret, Hgo].
  destruct (Z.eqb_spec c1 60) as [-> |]; [injection Hop as <- <-; apply wpe_ret, Hgo|].
  destruct (Z.eqb_spec c1 62) as [-> |]; [injection Hop as <- <-; apply wpe_ret, Hgo|done].
Qed.

Lemma args_complete fuel : forall its0 its argv c s ts, Forall item_ok (its0 ++ its) -> (its = [] \/ exists w its', its = Arg w :: its') ->
  (length (args (its0 ++ its)) < MAXARGS)%nat -> denotes c (apply_redirs its0 (EXEC [])) -> Forall2 spans argv (args its0) ->
  toks s = items_toks its ++ ts -> stop ts -> (s <= es)%nat -> (es - s < fuel)%nat ->
  wp (loop fuel (parseexec_step buf es) (argv, c)) (fun c' s' => (s <= s' <= es)%nat /\ toks s' = ts /\
    denotes c' (apply_redirs (its0 ++ its) (EXEC (args (its0 ++ its))))) s.
Proof.
  induction fuel as [|fuel IH]; intros its0 its argv c s ts Hok Hl Hlen Hd Hw Ht Hst Hs Hf; [lia|]. cbn [loop]. apply wp_bind. unfold parseexec_step.
  wp_peek s1 (Ht1 & Hs1). destruct Hl as [-> | (w & its' & ->)].
  { rewrite app_nil_r in *. cbn in Ht. rewrite Ht. assert (denotes (store_args argv c) (apply_redirs its0 (EXEC (args its0)))) as Hden by (by apply store_denotes).
    destruct Hst as [-> | Hst]; [|rewrite Hst; apply wpe_ret, wpe_ret; split; [lia|]; by rewrite Ht1].
    cbn [starts]. wp_token r a s2 Htok. rewrite Ht1, Ht in Htok. destruct Htok as [-> ->]. apply wpe_ret, wpe_ret. split; [lia|].
    split; [|done]. unfold ShGrammar.toks. by rewrite rest_end. }
  rewrite Ht. change (items_toks (Arg w :: its') ++ ts) with (Word w :: items_toks its' ++ ts) in *. cbn [starts].
  wp_token r a s2 Htok. rewrite Ht1, Ht in Htok. destruct Htok as (-> & Ht2 & Hs2 & _ & Hsp). specialize (Hsp w eq_refl). cbn [code Z.eqb Pos.eqb negb].
  pose proof (Forall2_length _ _ _ Hw) as Hlw. rewrite args_app, length_app in Hlen. cbn in Hlen. fold (args its') in Hlen.
  destruct (Nat.leb_spec MAXARGS (length (argv ++ [a]))) as [Hle | _]; [rewrite length_app in Hle; cbn in Hle; lia|].
  apply Forall_app in Hok as [Hok0 Hok]. apply Forall_cons in Hok as [_ Hok]. destruct (lead_redirs its' Hok) as (rs & its'' & -> & Hrs & Hlead).
  apply wp_bind. eapply wp_mono; [apply (redirs_complete (S es) rs c (apply_redirs its0 (EXEC [])) s2 (items_toks its'' ++ ts)); try done; try lia|].
  { rewrite Ht2, items_app, <- app_assoc. done. }
  { destruct Hlead as [-> | (w' & x & ->)]; [by apply stop_no_redir|done]. }
  intros c' s3 (H1 & H2 & H3). apply wpe_ret.
  eapply wp_mono; [apply (IH (its0 ++ Arg w :: rs) its'' (argv ++ [a]) c' s3 ts); try done; try lia|].
  - rewrite <- app_assoc. apply Forall_app. split; [done|]. constructor; [done|]. done.
  - rewrite <- app_assoc. cbn [app]. rewrite args_app, length_app. cbn. fold (args (rs ++ its'')). lia.
  - rewrite apply_app. done.
  - rewrite args_app. change (args (Arg w :: rs)) with (w :: args rs). rewrite (redirs_no_args rs) by done. apply Forall2_app; [done|]. constructor; [done|constructor].
  - intros c'' s4 (H4 & H5 & H6). rewrite <- app_assoc in H6. cbn [app] in H6. split; [lia|]. done.
Qed.

Definition line_complete (line : P (cmd span)) (n : nat) : Prop := forall ts d s rest, g_line ts d -> (s <= es)%nat -> (es - s < n)%nat ->
  toks s = ts ++ rest -> (rest = [] \/ exists r, rest = Sym 41 :: r) ->
  wp line (fun c s' => (s <= s' <= es)%nat /\ toks s' = rest /\ denotes c d) s.

Lemma exec_complete line n : line_complete line n -> forall ts d s rest, g_exec ts d -> (s <= es)%nat -> (es - s < S n)%nat ->
  toks s = ts ++ rest -> stop rest ->
  wp (parseexec buf es line) (fun c s' => (s <= s' <= es)%nat /\ toks s' = rest /\ denotes c d) s.
Proof.
  intros HL ts d s rest Hg Hs Hn Ht Hst. unfold parseexec. wp_peek s1 (Ht1 & Hs1). destruct Hg as [its Hok Hlen|ts c its Hg Hr].
  - destruct (lead_redirs its Hok) as (rs & its' & -> & Hrs & Hlead).
    assert (starts [40] (toks s) = false) as ->.
    { rewrite Ht. destruct rs as [|[w|op f] rs].
      - destruct Hlead as [-> | (w & its'' & ->)]; [|done]. cbn. destruct Hst as [-> | Hst]; [done|]. destruct rest as [|[w|c|] r]; cbn [starts] in *; try done.
        unfold strchr in *. apply existsb_exists in Hst as (x & Hx & ->%Z.eqb_eq). repeat destruct Hx as [<- | Hx]; done.
      - by inversion Hrs.
      - apply Forall_cons in Hrs as [[[m k] Hop] _]. destruct op as [w|c|]; cbn [redir_op] in Hop; [done| |done]. cbn. unfold strchr. cbn [existsb].
        destruct (Z.eqb_spec c 60) as [-> |]; [done|]. destruct (Z.eqb_spec c 62) as [-> |]; done. }
    unfold parsesimple. apply wp_bind.
    eapply wp_mono; [apply (redirs_complete (S es) rs (EXEC []) (EXEC []) s1 (items_toks its' ++ rest)); try done; try lia|].
    { constructor. constructor. }
    { rewrite Ht1, Ht, items_app, <- app_assoc. done. }
    { destruct Hlead as [-> | (w' & x & ->)]; [by apply stop_no_redir|done]. }
    intros c s2 (H1 & H2 & H3). eapply wp_mono; [apply (args_complete (S es) rs its' [] c s2 rest); try done; try lia|].
    { rewrite redirs_no_args by done. constructor. }
    intros c' s3 (H4 & H5 & H6). split; [lia|]. done.
  - assert (starts [40] (toks s) = true) as Est by (by rewrite Ht). rewrite Est. unfold parseblock. wp_peek s2 (Ht2 & Hs2). rewrite Ht1, Est. cbn [negb].
    wp_token r a s3 Htok. rewrite Ht2, Ht1, Ht in Htok. destruct Htok as (_ & Ht3 & Hs3 & _). rewrite <- app_assoc in Ht3. apply wp_bind.
    eapply wp_mono; [apply (HL ts c s3 (Sym 41 :: items_toks its ++ rest)); try done; [lia..|by right; eexists]|]. intros c1 s4 (H1 & H2 & H3).
    wp_peek s5 (Ht5 & Hs5). rewrite H2. cbn [starts]. cbn [strchr existsb Z.eqb Pos.eqb orb negb].
    wp_token r' a' s6 Htok. rewrite Ht5, H2 in Htok. destruct Htok as (_ & Ht6 & Hs6 & _).
    eapply wp_mono; [apply (redirs_complete (S es) its c1 c s6 rest); try done; [lia..|by apply stop_no_redir]|].
    intros c' s7 (H4 & H5 & H6). split; [lia|]. done.
Qed.

Lemma pipe_complete line n fuel : line_complete line n -> forall ts d s rest, g_pipe ts d -> (s <= es)%nat -> (es - s < S n)%nat -> (es - s < fuel)%nat ->
  toks s = ts ++ rest -> stop rest -> starts [124] rest = false ->
  wp (parsepipe buf es fuel line) (fun c s' => (s <= s' <= es)%nat /\ toks s' = rest /\ denotes c d) s.
Proof.
  intros HL. induction fuel as [|fuel IH]; intros ts d s rest Hg Hs Hn Hf Ht Hst Hnp; [lia|]. cbn [parsepipe]. apply wp_bind.
  destruct Hg as [ts c He|ts c ts' c' He Hg].
  - eapply wp_mono; [by eapply (exec_complete line n HL ts)|]. intros c1 s1 (H1 & H2 & H3). wp_peek s2 (Ht2 & Hs2). rewrite H2, Hnp.
    apply wpe_ret. split; [lia|]. by rewrite Ht2.
  - rewrite <- app_assoc in Ht. eapply wp_mono; [eapply (exec_complete line n HL ts); [done..|apply stop_sym; cbn; auto]|].
    intros c1 s1 (H1 & H2 & H3). wp_peek s2 (Ht2 & Hs2). rewrite H2. cbn [starts app]. cbn [strchr existsb Z.eqb Pos.eqb orb].
    wp_token r a s3 Htok. rewrite Ht2, H2 in Htok. destruct Htok as (_ & Ht3 & Hs3 & _). apply wp_bind.
    eapply wp_mono; [apply (IH ts' c' s3 rest); try done; lia|]. intros c2 s4 (H4 & H5 & H6). apply wpe_ret. split; [lia|]. split; [done|by constructor].
Qed.

Lemma backs_complete fuel : forall n c d s rest, (s <= es)%nat -> (es - s < fuel)%nat -> denotes c d ->
  toks s = replicate n (Sym 38) ++ rest -> starts [38] rest = false ->
  wp (loop fuel (back_step buf es) c) (fun c' s' => (s <= s' <= es)%nat /\ toks s' = rest /\ denotes c' (backs n d)) s.
Proof.
  induction fuel as [|fuel IH]; intros n c d s rest Hs Hf Hd Ht Hn; [lia|]. cbn [loop]. apply wp_bind. unfold back_step. wp_peek s1 (Ht1 & Hs1).
  destruct n as [|n]; [cbn in Ht; rewrite Ht, Hn; apply wpe_ret, wpe_ret; split; [lia|]; by rewrite Ht1|].
  rewrite Ht. cbn [replicate app starts]. cbn [strchr existsb Z.eqb Pos.eqb orb]. wp_token r a s2 Htok. rewrite Ht1, Ht in Htok. destruct Htok as (_ & Ht2 & Hs2 & _).
  apply wpe_ret. eapply wp_mono; [apply (IH n (BACK c) (BACK d) s2 rest); try done; [lia..|by constructor]|]. intros c' s' (H1 & H2 & H3).
  split; [lia|]. split; [done|]. unfold backs in *. by rewrite Nat.iter_succ_r.
Qed.

Lemma line_complete_ok fuel : line_complete (parseline buf es fuel) fuel.
Proof.
  induction fuel as [|fuel IH]; intros ts d s rest Hg Hs Hf Ht Hst; [lia|]. cbn [parseline]. apply wp_bind.
  destruct Hg as [ts n c Hp|ts n c ts' c' Hp Hg].
  - rewrite <- app_assoc in Ht. eapply wp_mono; [apply (pipe_complete _ fuel _ IH ts c s (replicate n (Sym 38) ++ rest)); try done; try lia|].
    { destruct n; [|apply stop_sym; cbn; auto]. destruct Hst as [-> | [r ->]]; [by left|apply stop_sym; cbn; auto]. }
    { destruct n; [|done]. by destruct Hst as [-> | [r ->]]. }
    intros c1 s1 (H1 & H2 & H3). apply wp_bind. eapply wp_mono; [apply (backs_complete (S es) n c1 c s1 rest); try done; try lia; by destruct Hst as [-> | [r ->]]|].
    intros c2 s2 (H4 & H5 & H6). wp_peek s3 (Ht3 & Hs3). rewrite H5. replace (starts [59] rest) with false by (by destruct Hst as [-> | [r ->]]).
    apply wpe_ret. split; [lia|]. by rewrite Ht3.
  - rewrite <- !app_assoc in Ht. eapply wp_mono; [apply (pipe_complete _ fuel _ IH ts c s (replicate n (Sym 38) ++ Sym 59 :: ts' ++ rest)); try done; try lia|].
    { destruct n; apply stop_sym; cbn; auto. }
    { by destruct n. }
    intros c1 s1 (H1 & H2 & H3). apply wp_bind. eapply wp_mono; [apply (backs_complete (S es) n c1 c s1 (Sym 59 :: ts' ++ rest)); try done; lia|].
    intros c2 s2 (H4 & H5 & H6). wp_peek s3 (Ht3 & Hs3). rewrite H5. cbn [starts]. cbn [strchr existsb Z.eqb Pos.eqb orb].
    wp_token r a s4 Htok. rewrite Ht3, H5 in Htok. destruct Htok as (_ & Ht4 & Hs4 & _). apply wp_bind.
    eapply wp_mono; [apply (IH ts' c' s4 rest); try done; lia|]. intros c3 s5 (H7 & H8 & H9). apply wpe_ret. split; [lia|]. split; [done|by constructor].
Qed.
End parser.
