(* ===== verification/ShThms.v ===== *)
(** * Theorems about the parser of the shell

    parsecmd accepts exactly the lines of the grammar, its trees are well formed
    and their strings are in place in the buffer, and it inverts printing. *)
From S2P Require Import Prelude ShParse ShGrammar.

(** ** Strings in the buffer after nulterminate *)

(** The C string at [q]. *)
Definition cstring (buf : list Z) (q : nat) : list Z := take (strlen (drop q buf)) (drop q buf).

Lemma strlen_le buf : (strlen buf <= length buf)%nat.
Proof. induction buf as [|c buf IH]; [done|]. cbn. destruct (c =? 0); lia. Qed.

Lemma strlen_nonzero buf : Forall (fun c => c <> 0) (take (strlen buf) buf).
Proof. induction buf as [|c buf IH]; [constructor|]. cbn. destruct (Z.eqb_spec c 0); [constructor|]. by constructor. Qed.

Lemma strlen_end buf : ch buf (strlen buf) = 0.
Proof. unfold ch. induction buf as [|c buf IH]; [done|]. cbn. destruct (Z.eqb_spec c 0); [done|exact IH]. Qed.

Lemma strlen_app l r : Forall (fun c => c <> 0) l -> strlen (l ++ 0 :: r) = length l.
Proof. induction 1 as [|c l Hc _ IH]; [done|]. cbn. rewrite (proj2 (Z.eqb_neq c 0) Hc). by rewrite IH. Qed.

(** The positions where nulterminate writes. *)
Fixpoint span_ends (c : cmd span) : list nat :=
  match c with
  | EXEC argv => snd <$> argv
  | REDIR c f _ _ => span_ends c ++ [snd f]
  | PIPE l r | LIST l r => span_ends l ++ span_ends r
  | BACK c => span_ends c
  end.

Lemma writes_length l : forall buf : list Z, length (fold_left (fun b p => <[p := 0]> b) l buf) = length buf.
Proof. induction l as [|p l IH]; intros buf; [done|]. cbn. by rewrite IH, length_insert. Qed.

Lemma nulterminate_writes c : forall buf, nulterminate c buf = fold_left (fun b p => <[p := 0]> b) (span_ends c) buf.
Proof.
  induction c as [argv|c IH f m n|l IHl r IHr|l IHl r IHr|c IH]; intros buf; cbn [nulterminate span_ends].
  - revert buf. induction argv as [|a argv IH]; intros buf; [done|]. cbn. apply IH.
  - by rewrite fold_left_app, IH.
  - by rewrite fold_left_app, IHl, IHr.
  - by rewrite fold_left_app, IHl, IHr.
  - apply IH.
Qed.

Lemma writes_lookup l : forall (buf : list Z) p, (p < length buf)%nat ->
  fold_left (fun b p => <[p := 0]> b) l buf !! p = if decide (p ∈ l) then Some 0 else buf !! p.
Proof.
  induction l as [|x l IH]; intros buf p Hp; [by rewrite decide_False by apply not_elem_of_nil|]. cbn. rewrite IH by (by rewrite length_insert).
  destruct (decide (p ∈ l)) as [Hl | Hl]; [by rewrite decide_True by (by right)|]. destruct (decide (p = x)) as [-> | Hne].
  - rewrite decide_True by left. by apply list_lookup_insert_eq.
  - rewrite decide_False by (rewrite elem_of_cons; tauto). by apply list_lookup_insert_ne.
Qed.

Lemma cstring_at buf q e w : (q <= e < length buf)%nat -> buf !! e = Some 0 -> take (e - q) (drop q buf) = w -> Forall (fun c => c <> 0) w -> cstring buf q = w.
Proof.
  intros Hq He Hw Hnz. unfold cstring. assert (drop q buf = w ++ 0 :: drop (S e) buf) as ->.
  { rewrite <- Hw. rewrite <- (take_drop (e - q) (drop q buf)) at 1. f_equal. rewrite drop_drop. replace (q + (e - q))%nat with e by lia. by apply drop_S. }
  rewrite strlen_app by done. by rewrite take_app_length.
Qed.

Section strings.
Context (buf : list Z).
Notation es := (strlen buf).
Context (Hlt : (es < length buf)%nat).

(** Every string of the tree is in the new buffer what it was in the old. *)
Lemma span_string a w l : spans buf es a w -> (forall p, p ∈ l -> p = es \/ wordchar (ch buf p) = false) -> a.2 ∈ l ->
  cstring (fold_left (fun b p => <[p := 0]> b) l buf) a.1 = w.
Proof.
  intros (Hsub & Hr & Hw & _) Hl Ha. apply (cstring_at _ _ a.2); [rewrite writes_length; lia|rewrite writes_lookup by lia; by rewrite decide_True| |].
  - rewrite <- Hsub. unfold sub. apply list_eq. intros i. destruct (decide (i < a.2 - a.1)%nat) as [Hi|Hi].
    2: { rewrite !lookup_take_ge by lia. done. }
    rewrite !lookup_take_lt, !lookup_drop, writes_lookup by lia. rewrite decide_False; [done|]. intros Hin%Hl. destruct Hin as [Hin | Hin]; [lia|].
    rewrite Forall_lookup in Hw. unfold ch in Hin. destruct (lookup_lt_is_Some_2 buf (a.1 + i)) as [c Hc]; [lia|]. rewrite Hc in Hin. cbn in Hin.
    rewrite (Hw i c) in Hin; [done|]. rewrite <- Hsub. unfold sub. rewrite lookup_take_lt, lookup_drop by lia. done.
  - rewrite <- Hsub. unfold sub. apply Forall_lookup. intros i c Hc. apply lookup_take_Some in Hc as [Hc Hi]. rewrite lookup_drop in Hc.
    pose proof (strlen_nonzero buf) as Hnz. rewrite Forall_lookup in Hnz. apply (Hnz (a.1 + i)%nat). rewrite lookup_take_lt by lia. done.
Qed.

Lemma tree_ends c d : cmd_rel (spans buf es) c d -> forall p, p ∈ span_ends c -> p = es \/ wordchar (ch buf p) = false.
Proof.
  induction 1 as [argv ws H|c d f w m n H IH Hf| | |]; intros p Hp; cbn [span_ends] in Hp.
  - apply list_elem_of_fmap in Hp as (a & -> & Ha). apply list_elem_of_lookup in Ha as [i Hi]. destruct (Forall2_lookup_l _ _ _ _ _ H Hi) as (w & _ & _ & _ & _ & ?). done.
  - apply elem_of_app in Hp as [Hp | ->%list_elem_of_singleton]; [by apply IH|]. by destruct Hf as (_ & _ & _ & ?).
  - apply elem_of_app in Hp as [Hp | Hp]; auto.
  - apply elem_of_app in Hp as [Hp | Hp]; auto.
  - auto.
Qed.

Lemma tree_strings c d l : cmd_rel (spans buf es) c d -> (forall p, p ∈ l -> p = es \/ wordchar (ch buf p) = false) -> (forall p, p ∈ span_ends c -> p ∈ l) ->
  cmd_rel (fun a w => cstring (fold_left (fun b p => <[p := 0]> b) l buf) a.1 = w) c d.
Proof.
  intros H Hl. induction H as [argv ws H|c d f w m n H IH Hf| | |]; intros Hin; cbn [span_ends] in Hin; constructor.
  - assert (forall a, a ∈ argv -> a.2 ∈ l) as Ha by (intros a Ha; apply Hin, list_elem_of_fmap; by exists a). clear Hin.
    induction H as [|a w argv ws Haw _ IH]; constructor; [apply span_string; [done..|apply Ha; left]|]. apply IH. intros b Hb. apply Ha. by right.
  - apply IH. intros p Hp. apply Hin, elem_of_app. by left.
  - apply span_string; [done..|]. apply Hin, elem_of_app. right. by left.
  - apply IHcmd_rel1. intros p Hp. apply Hin, elem_of_app. by left.
  - apply IHcmd_rel2. intros p Hp. apply Hin, elem_of_app. by right.
  - apply IHcmd_rel1. intros p Hp. apply Hin, elem_of_app. by left.
  - apply IHcmd_rel2. intros p Hp. apply Hin, elem_of_app. by right.
  - by apply IHcmd_rel.
Qed.
End strings.

(** ** parsecmd *)

(** A tree denotes at most one tree of strings. *)
Lemma Forall2_unique {A B} (R : A -> B -> Prop) : (forall a b b', R a b -> R a b' -> b = b') ->
  forall l k k', Forall2 R l k -> Forall2 R l k' -> k = k'.
Proof. intros HR l k k' H. revert k'. induction H; intros k' H'; inversion H'; subst; f_equal; eauto. Qed.

Lemma denotes_unique buf es c d d' : cmd_rel (spans buf es) c d -> cmd_rel (spans buf es) c d' -> d = d'.
Proof.
  assert (forall a w w', spans buf es a w -> spans buf es a w' -> w = w') as HR by (intros a w w' [<- _] [<- _]; done).
  intros H. revert d'. induction H as [argv ws H|c d f w m n H IH Hf| | |]; intros d' H'; inversion H'; subst; f_equal; eauto.
  by eapply Forall2_unique.
Qed.

Lemma parse_ok buf : (strlen buf < length buf)%nat ->
  match parsecmd buf with
  | Ok c buf' => exists d, g_line (lex (take (strlen buf) buf)) d /\ (forall d', g_line (lex (take (strlen buf) buf)) d' -> d' = d) /\
      cmd_rel (spans buf (strlen buf)) c d /\ buf' = nulterminate c buf
  | Panic _ => forall d, ~ g_line (lex (take (strlen buf) buf)) d
  | _ => False
  end.
Proof.
  intros Hlt. set (es := strlen buf) in *. assert (es <= length buf)%nat as Hes by lia.
  pose proof (strlen_nonzero buf) as Hnz. pose proof (strlen_end buf) as Hend. fold es in Hnz, Hend.
  assert (toks buf es 0 = lex (take es buf)) as H0 by done.
  assert (forall s, (s <= es)%nat -> exists s', peek buf es [] s = Ok (starts [] (toks buf es s)) s' /\ (s' = es <-> toks buf es s = [])) as Hpeek.
  { intros s Hs. destruct (peek_toks buf es Hes Hnz Hend [] s Hs ltac:(constructor)) as (s' & E & Ht & Hs' & Hr). exists s'. split; [done|]. rewrite <- Ht. unfold toks. split.
    - intros ->. by rewrite rest_end.
    - intros Hl. rewrite lex_next in Hl. unfold next in Hl. rewrite Hr, drop_while_idem in Hl.
      destruct (drop_while space (rest buf es s)) as [|c r]; [pose proof (rest_length buf es Hes s') as Hlen; rewrite Hr in Hlen; cbn in Hlen; lia|].
      destruct (strchr symbols c); [destruct r as [|d r]; [done|destruct (_ && _); done]|done]. }
  pose proof (line_sound_ok buf es Hes Hnz Hend (S es) 0%nat ltac:(lia) ltac:(lia)) as Hsound.
  assert (forall d', g_line (lex (take es buf)) d' -> exists c' s', parseline buf es (S es) 0%nat = Ok c' s' /\ toks buf es s' = [] /\ cmd_rel (spans buf es) c' d') as Hcomp'.
  { intros d' Hd'. destruct (wp_ends _ _ _ (line_complete_ok buf es Hes Hnz Hend (S es) (toks buf es 0) d' 0%nat [] Hd' ltac:(lia) ltac:(lia)
      ltac:(by rewrite app_nil_r) ltac:(by left))) as (c' & s' & ? & _ & ? & ?). by exists c', s'. }
  unfold parsecmd. fold es. unfold bind at 1. unfold ends in Hsound.
  destruct (parseline buf es (S es) 0%nat) as [c s1|msg| | |] eqn:Eline; try done.
  - destruct Hsound as (ts & d & (Hs1 & Hts & Hden) & Hg). destruct (Hpeek s1 ltac:(lia)) as (s2 & E2 & Hiff). unfold bind at 1. rewrite E2.
    unfold bind, gets, id. destruct (Nat.eqb_spec s2 es) as [Hs2 | Hs2]; cbn [negb ret].
    + exists d. split; [rewrite <- H0, Hts; apply Hiff in Hs2; by rewrite Hs2, app_nil_r|]. split; [|done].
      intros d' Hd'. destruct (Hcomp' d' Hd') as (c' & s' & [= <- <-] & _ & Hd2). by eapply denotes_unique.
    + intros d' Hd'. destruct (Hcomp' d' Hd') as (c' & s' & [= <- <-] & Hnil & _). by apply Hs2, Hiff.
  - intros d' Hd'. by destruct (Hcomp' d' Hd') as (c' & s' & ? & _).
Qed.

(** ** Well-formed trees *)

Definition good (t : token) : Prop := tok_ok t /\ match t with Word w => Forall (fun c => c <> 0) w | _ => True end.

Lemma drop_while_nonzero f l : Forall (fun c => c <> 0) l -> Forall (fun c => c <> 0) (drop_while f l).
Proof. rewrite <- (take_drop_while f l) at 1. rewrite Forall_app. tauto. Qed.

Lemma next_good l t r : Forall (fun c => c <> 0) l -> next l = Some (t, r) -> good t /\ Forall (fun c => c <> 0) r.
Proof.
  intros Hl E. pose proof (next_ok l t r E) as Hok. unfold next in E. pose proof (drop_while_nonzero space l Hl) as Hd.
  destruct (drop_while space l) as [|c r']; [done|]. destruct (strchr symbols c).
  - apply Forall_cons in Hd as [_ Hd]. destruct r' as [|d r'']; [by injection E as <- <-|]. destruct (_ && _); injection E as <- <-; [|done].
    apply Forall_cons in Hd as [_ Hd]. done.
  - injection E as <- <-. rewrite <- (take_drop_while wordchar (c :: r')) in Hd. apply Forall_app in Hd as [Hw Hr]. done.
Qed.

Lemma lex_good l : Forall (fun c => c <> 0) l -> Forall good (lex l).
Proof.
  unfold lex. generalize (length l) as n. intros n. revert l. induction n as [|n IH]; intros l Hl; [constructor|]. cbn [lexn].
  destruct (next l) as [[t r]|] eqn:E; [|constructor]. destruct (next_good l t r Hl E). constructor; [done|by apply IH].
Qed.

Fixpoint wf (d : tree) : Prop :=
  match d with
  | EXEC ws => (length ws < MAXARGS)%nat /\ Forall (fun w => good (Word w)) ws
  | REDIR d w m n => wf d /\ good (Word w) /\ ((m = O_RDONLY /\ n = 0) \/ (m = Z.lor O_WRONLY O_CREATE /\ n = 1))
  | PIPE l r | LIST l r => wf l /\ wf r
  | BACK d => wf d
  end.

Lemma redir_op_wf op m n : redir_op op = Some (m, n) -> (m = O_RDONLY /\ n = 0) \/ (m = Z.lor O_WRONLY O_CREATE /\ n = 1).
Proof. destruct op as [w|c|]; cbn; [done| |intros [= <- <-]; auto]. destruct (c =? 60); [intros [= <- <-]; auto|]. destruct (c =? 62); [intros [= <- <-]; auto|done]. Qed.

Lemma items_wf its : forall d, Forall good (items_toks its) -> wf d -> wf (apply_redirs its d).
Proof.
  induction its as [|[w|op f] its IH]; intros d Ht Hd; [done|..].
  - apply (IH d); [|done]. by apply Forall_cons in Ht as [_ ?].
  - change (items_toks (Redir op f :: its)) with (op :: Word f :: items_toks its) in Ht. apply Forall_cons in Ht as [_ Ht]. apply Forall_cons in Ht as [Hf Ht].
    change (apply_redirs (Redir op f :: its) d) with (apply_redirs its (apply_redir d (Redir op f))). apply IH; [done|].
    cbn [apply_redir]. destruct (redir_op op) as [[m n]|] eqn:E; [|done]. split; [done|]. split; [done|]. by eapply redir_op_wf.
Qed.

Lemma args_wf its : Forall good (items_toks its) -> Forall (fun w => good (Word w)) (args its).
Proof.
  induction its as [|[w|op f] its IH]; intros Ht; [constructor|..].
  - apply Forall_cons in Ht as [Hw Ht]. constructor; [done|by apply IH].
  - change (items_toks (Redir op f :: its)) with (op :: Word f :: items_toks its) in Ht. apply Forall_cons in Ht as [_ Ht]. apply Forall_cons in Ht as [_ Ht]. by apply IH.
Qed.

Scheme g_exec_ind3 := Induction for g_exec Sort Prop
  with g_pipe_ind3 := Induction for g_pipe Sort Prop
  with g_line_ind3 := Induction for g_line Sort Prop.
Combined Scheme grammar_ind from g_exec_ind3, g_pipe_ind3, g_line_ind3.

Lemma grammar_wf :
  (forall ts d, g_exec ts d -> Forall good ts -> wf d) /\ (forall ts d, g_pipe ts d -> Forall good ts -> wf d) /\
  (forall ts d, g_line ts d -> Forall good ts -> wf d).
Proof.
  assert (forall n d, wf d -> wf (backs n d)) as Hb by (intros n d Hd; by induction n).
  apply grammar_ind; intros.
  - apply items_wf; [done|]. split; [done|by apply args_wf].
  - rewrite Forall_cons, Forall_app, Forall_cons in *. apply items_wf; [tauto|]. tauto.
  - auto.
  - rewrite Forall_app, Forall_cons in *. cbn. tauto.
  - rewrite Forall_app in *. apply Hb. tauto.
  - rewrite !Forall_app, Forall_cons in *. cbn. split; [apply Hb|]; tauto.
Qed.

(** ** Printing *)

Definition op_of (n : Z) : token := if n =? 0 then Sym 60 else Sym 62.

Definition paren (b : bool) (ts : list token) : list token := if b then Sym 40 :: ts ++ [Sym 41] else ts.

(** The tokens of a tree as a line (level 0), without ; (1), without & (2), without | (3). *)
Fixpoint print (level : nat) (d : tree) : list token :=
  match d with
  | EXEC ws => Word <$> ws
  | REDIR d w _ n => print 3 d ++ [op_of n; Word w]
  | PIPE l r => paren (2 <? level)%nat (print 3 l ++ Sym 124 :: print 2 r)
  | BACK d => paren (1 <? level)%nat (print 1 d ++ [Sym 38])
  | LIST l r => paren (0 <? level)%nat (print 1 l ++ Sym 59 :: print 0 r)
  end.

(** The characters of a token, and a text: blanks between the tokens. *)
Definition untok (t : token) : list Z := match t with Word w => w | Sym c => [c] | Append => [62; 62] end.
Definition text (ts : list token) : list Z := ts ≫= (fun t => untok t ++ [32]).

Lemma take_drop_word w r : Forall (fun c => wordchar c = true) w -> take_while wordchar (w ++ 32 :: r) = w /\ drop_while wordchar (w ++ 32 :: r) = 32 :: r.
Proof. induction 1 as [|c w Hc _ [IH1 IH2]]; [done|]. cbn. rewrite Hc. by rewrite IH1, IH2. Qed.

Lemma next_text t r : tok_ok t -> next (untok t ++ 32 :: r) = Some (t, 32 :: r).
Proof.
  destruct t as [w|c|]; cbn [tok_ok untok]; [|intros H|done].
  - intros [Hne Hw]. destruct (take_drop_word w r Hw) as [H1 H2]. destruct w as [|c w]; [done|]. unfold next. pose proof (Forall_inv Hw) as Hc. cbn in Hc.
    assert (space c = false /\ strchr symbols c = false) as [E1 E2].
    { unfold wordchar, space in *. by destruct (strchr whitespace c), (strchr symbols c). }
    cbn [app] in *. assert (drop_while space (c :: w ++ 32 :: r) = c :: w ++ 32 :: r) as -> by (cbn [drop_while]; by rewrite E1).
    by rewrite E2, H1, H2.
  - unfold next. cbn [app drop_while]. rewrite (symbol_not_space c H), H. by rewrite andb_false_r.
Qed.

Lemma lex_text ts : Forall tok_ok ts -> lex (text ts) = ts.
Proof.
  induction 1 as [|t ts Ht _ IH]; [done|]. change (text (t :: ts)) with ((untok t ++ [32]) ++ text ts). rewrite <- app_assoc. cbn [app].
  rewrite lex_next, next_text by done. f_equal. rewrite <- IH at 2. rewrite <- (lex_skip (32 :: text ts)), <- (lex_skip (text ts)). done.
Qed.

Lemma text_nonzero ts : Forall good ts -> Forall (fun c => c <> 0) (text ts).
Proof.
  induction 1 as [|t ts [Ht Hz] _ IH]; [constructor|]. change (text (t :: ts)) with ((untok t ++ [32]) ++ text ts). rewrite !Forall_app. split_and!; [| |done].
  - destruct t as [w|c|]; [done| |by repeat constructor]. cbn in Ht |- *. constructor; [|constructor]. by intros ->.
  - by constructor.
Qed.

Lemma print_good d : forall level, wf d -> Forall good (print level d).
Proof.
  assert (forall b ts, Forall good ts -> Forall good (paren b ts)) as Hp.
  { intros [] ts Hts; [|done]. constructor; [done|]. apply Forall_app. split; [done|]. by constructor. }
  induction d as [ws|d IH w m n|l IHl r IHr|l IHl r IHr|d IH]; intros level Hwf; cbn [print wf] in *.
  - apply Forall_fmap. apply Hwf.
  - apply Forall_app. split; [apply IH, Hwf|]. constructor; [by unfold op_of; destruct (n =? 0)|]. constructor; [apply Hwf|constructor].
  - apply Hp, Forall_app. split; [apply IHl, Hwf|]. constructor; [done|apply IHr, Hwf].
  - apply Hp, Forall_app. split; [apply IHl, Hwf|]. constructor; [done|apply IHr, Hwf].
  - apply Hp, Forall_app. split; [apply IH, Hwf|]. by constructor.
Qed.

(** A redirection behind a command. *)
Lemma exec_redir ts d op w m n : g_exec ts d -> redir_op op = Some (m, n) -> g_exec (ts ++ [op; Word w]) (REDIR d w m n).
Proof.
  intros Hg Hop. assert (forall its d, apply_redirs (its ++ [Redir op w]) d = REDIR (apply_redirs its d) w m n) as Ha.
  { intros its d0. rewrite apply_app. cbn. by rewrite Hop. }
  assert (forall its, items_toks (its ++ [Redir op w]) = items_toks its ++ [op; Word w]) as Hi by (intros its; by rewrite items_app).
  destruct Hg as [its Hok Hlen|ts c its Hg Hr].
  - assert (args (its ++ [Redir op w]) = args its) as Eargs by (rewrite args_app; apply app_nil_r).
    rewrite <- Hi, <- Ha, <- Eargs. constructor; [|by rewrite Eargs]. apply Forall_app. split; [done|]. constructor; [by eexists|constructor].
  - replace ((Sym 40 :: ts ++ Sym 41 :: items_toks its) ++ [op; Word w]) with (Sym 40 :: ts ++ Sym 41 :: items_toks (its ++ [Redir op w])).
    + rewrite <- Ha. constructor; [done|]. apply Forall_app. split; [done|]. constructor; [by eexists|constructor].
    + rewrite Hi. cbn. f_equal. by rewrite <- app_assoc.
Qed.

Lemma words_exec ws : (length ws < MAXARGS)%nat -> g_exec (Word <$> ws) (EXEC ws).
Proof.
  intros H. assert (items_toks (Arg <$> ws) = Word <$> ws /\ args (Arg <$> ws) = ws /\ forall d, apply_redirs (Arg <$> ws) d = d) as (E1 & E2 & E3).
  { clear H. induction ws as [|w ws (IH1 & IH2 & IH3)]; [done|]. split_and!.
    - change (items_toks (Arg <$> w :: ws)) with (Word w :: items_toks (Arg <$> ws)). by rewrite IH1.
    - change (args (Arg <$> w :: ws)) with (w :: args (Arg <$> ws)). by rewrite IH2.
    - intros d. apply IH3. }
  pose proof (g_simple (Arg <$> ws)) as Hg. rewrite E1, E2, E3 in Hg. apply Hg; [|done]. apply Forall_fmap, Forall_true. done.
Qed.


(** What the levels of [print] derive. *)
Definition g_back (ts : list token) (d : tree) : Prop :=
  exists n ts' d', ts = ts' ++ replicate n (Sym 38) /\ d = backs n d' /\ g_pipe ts' d'.

Definition derives (level : nat) (ts : list token) (d : tree) : Prop :=
  match level with O => g_line ts d | 1%nat => g_back ts d | 2%nat => g_pipe ts d | _ => g_exec ts d end.

Lemma derives_below level level' ts d : derives level ts d -> (level' <= level)%nat -> derives level' ts d.
Proof.
  assert (g_exec ts d -> g_pipe ts d) as H3 by (by constructor).
  assert (g_pipe ts d -> g_back ts d) as H2 by (intros H; exists 0%nat, ts, d; by rewrite app_nil_r).
  assert (g_back ts d -> g_line ts d) as H1 by (intros (n & ts' & d' & -> & -> & Hg); by constructor).
  destruct level as [|[|[|]]], level' as [|[|[|]]]; cbn; intros; try lia; auto.
Qed.

(** A construct of level [k], in parentheses where the context binds tighter. *)
Lemma derives_paren k level ts d : (level <= 3)%nat -> derives k ts d -> derives level (paren (k <? level)%nat ts) d.
Proof.
  intros Hl H. destruct (Nat.ltb_spec k level) as [Hlt | Hge]; [|by eapply derives_below].
  apply (derives_below 3); [|done]. apply (derives_below _ 0) in H; [|lia]. exact (g_block ts d [] H (List.Forall_nil _)).
Qed.

Lemma print_derives d : forall level, (level <= 3)%nat -> wf d -> derives level (print level d) d.
Proof.
  induction d as [ws|d IH w m n|l IHl r IHr|l IHl r IHr|d IH]; intros level Hl Hwf; cbn [print wf] in *.
  - apply (derives_below 3); [|done]. apply words_exec, Hwf.
  - apply (derives_below 3); [|done]. destruct Hwf as (Hd & _ & Hmn). apply exec_redir; [by apply (IH 3%nat)|].
    by destruct Hmn as [[-> ->] | [-> ->]].
  - apply derives_paren; [done|]. constructor; [apply (IHl 3%nat)|apply (IHr 2%nat)]; tauto || lia.
  - apply derives_paren; [done|]. destruct (IHl 1%nat) as (n & ts & d' & -> & -> & Hg); [lia|tauto|]. rewrite <- app_assoc. constructor; [done|].
    apply (IHr 0%nat); [lia|tauto].
  - apply derives_paren; [done|]. destruct (IH 1%nat) as (n & ts & d' & -> & -> & Hg); [lia|done|]. exists (S n), ts, d'.
    split_and!; [by rewrite <- app_assoc, <- replicate_S_end|done|done].
Qed.

(** ** The theorems *)

(** C8: parsecmd, on any command line, ends.  It returns a tree exactly when the
    tokens of the line are in the grammar, and then the tree is the one the
    grammar gives, which is unique; otherwise it panics.  In the buffer it
    leaves, the arguments and file names of the tree are C strings with the
    characters of their words: no terminating zero destroys another word. *)
Theorem parsecmd_spec buf : (strlen buf < length buf)%nat ->
  match parsecmd buf with
  | Ok c buf' => exists d, g_line (lex (take (strlen buf) buf)) d /\ (forall d', g_line (lex (take (strlen buf) buf)) d' -> d' = d) /\
      cmd_rel (fun a w => cstring buf' a.1 = w) c d
  | Panic _ => forall d, ~ g_line (lex (take (strlen buf) buf)) d
  | _ => False
  end.
Proof.
  intros Hlt. pose proof (parse_ok buf Hlt) as H. destruct (parsecmd buf) as [c buf'|msg| | |]; try done.
  destruct H as (d & Hg & Hu & Hden & ->). exists d. split_and!; [done..|]. rewrite nulterminate_writes. apply tree_strings; [done..|by eapply tree_ends|done].
Qed.

(** "ls>f;(a b&)|c" *)
Definition wit_line : list Z := [108; 115; 62; 102; 59; 40; 97; 32; 98; 38; 41; 124; 99; 0].

Lemma parsecmd_spec_witness : match parsecmd wit_line with
  | Ok c buf' => exists d, cmd_rel (fun a w => cstring buf' a.1 = w) c d /\
      d = LIST (REDIR (EXEC [[108; 115]]) [102] 0x201 1) (PIPE (BACK (EXEC [[97]; [98]])) (EXEC [[99]]))
  | _ => False
  end.
Proof.
  pose proof (parsecmd_spec wit_line ltac:(vm_compute; lia)) as H. destruct (parsecmd wit_line) as [c buf'|msg| | |] eqn:E; try (vm_compute in E; discriminate E).
  destruct H as (d & _ & _ & Hd). exists d. split; [exact Hd|]. vm_compute in E. injection E as <- <-.
  repeat match goal with H : cmd_rel _ _ _ |- _ => inversion H; subst; clear H | H : Forall2 _ _ _ |- _ => inversion H; subst; clear H end. reflexivity.
Defined.

(** C20: every tree parsecmd returns is well formed: a simple command has fewer
    arguments than the array argv has elements, so that the final null pointer
    fits, its words are not empty and have no blanks, symbols or zero bytes,
    and a redirection opens the standard input for reading or the standard
    output for writing. *)
Theorem parsecmd_wf buf c buf' : (strlen buf < length buf)%nat -> parsecmd buf = Ok c buf' ->
  exists d, wf d /\ cmd_rel (spans buf (strlen buf)) c d.
Proof.
  intros Hlt E. pose proof (parse_ok buf Hlt) as H. rewrite E in H. destruct H as (d & Hg & _ & Hden & _). exists d. split; [|done].
  eapply (proj2 (proj2 grammar_wf)); [exact Hg|]. apply lex_good, strlen_nonzero.
Qed.

Lemma parsecmd_wf_witness : exists c buf' d, parsecmd wit_line = Ok c buf' /\ wf d /\ cmd_rel (spans wit_line 13) c d.
Proof.
  destruct (parsecmd wit_line) as [c buf'|msg| | |] eqn:E; try (vm_compute in E; discriminate E).
  destruct (parsecmd_wf wit_line c buf' ltac:(vm_compute; lia) E) as (d & H1 & H2). exists c, buf', d. split; [reflexivity|]. split; [exact H1|exact H2].
Defined.

(** C19: parsing inverts printing: for every well-formed tree, the text of the tree,
    with parentheses where they are needed, is parsed to that tree. *)
Theorem parse_print d rest : wf d -> exists c buf', parsecmd (text (print 0 d) ++ 0 :: rest) = Ok c buf' /\
  cmd_rel (fun a w => cstring buf' a.1 = w) c d.
Proof.
  intros Hwf. pose proof (print_good d 0 Hwf) as Hgood. pose proof (text_nonzero _ Hgood) as Hnz. set (buf := text (print 0 d) ++ 0 :: rest).
  assert (strlen buf = length (text (print 0 d))) as Hlen by (by apply strlen_app).
  assert (strlen buf < length buf)%nat as Hlt by (rewrite Hlen; unfold buf; rewrite length_app; cbn; lia).
  assert (lex (take (strlen buf) buf) = print 0 d) as Hlex.
  { rewrite Hlen. unfold buf. rewrite take_app_length. apply lex_text. eapply Forall_impl; [exact Hgood|]. by intros t [? _]. }
  pose proof (print_derives d 0%nat ltac:(lia) Hwf) as Hg. cbn in Hg. rewrite <- Hlex in Hg.
  pose proof (parse_ok buf Hlt) as H. destruct (parsecmd buf) as [c buf'|msg| | |]; [|by destruct (H d)|done..].
  destruct H as (d' & _ & Hu & Hden & ->). rewrite <- (Hu d Hg) in Hden. exists c, (nulterminate c buf). split; [done|].
  rewrite nulterminate_writes. apply tree_strings; [done..|by eapply tree_ends|done].
Qed.

Lemma parse_print_witness : exists c buf', parsecmd (text (print 0 (BACK (LIST (EXEC [[97]]) (REDIR (EXEC [[98]]) [99] 0 0)))) ++ [0]) = Ok c buf' /\
  cmd_rel (fun a w => cstring buf' a.1 = w) c (BACK (LIST (EXEC [[97]]) (REDIR (EXEC [[98]]) [99] 0 0))).
Proof. apply (parse_print _ []). repeat (split || constructor); try done; cbn; lia. Defined.
