(* ===== verification/CondVar.v ===== *)
(** * Condition variables (the calls of include/common_threads.h)

    A program is given by what its threads do.  The state of a thread is its
    program counter together with its local variables, the shared variables and
    the mutexes are a record of the program.  [Cond_wait] is three steps: the
    mutex is released and the thread put to sleep in one; [Cond_signal] of
    another thread wakes it; the mutex is taken again.  [Cond_signal] wakes one
    of the threads asleep on the variable, any of them, and does nothing when
    there is none.

    The threads library may wake a thread without a signal.  A configuration
    has the number of times it still does so; the theorems hold for every
    number. *)
From S2P Require Import Prelude.

Notation cond := nat (only parsing).

Record program (G T : Type) := mkProgram {
  act : T -> G -> list (G * T * option cond);   (* the possible steps, with the variable signalled *)
  asleep : T -> option cond;                    (* the variable it is asleep on *)
  wake : T -> T }.                              (* where it goes on when woken *)
Arguments mkProgram {G T}.
Arguments act {G T}.
Arguments asleep {G T}.
Arguments wake {G T}.

Record cconf (G T : Type) := mkConf { glob : G; thr : list T; spur : nat }.
Arguments mkConf {G T}.
Arguments glob {G T}.
Arguments thr {G T}.
Arguments spur {G T}.

Section cond.
Context {G T : Type} (p : program G T).

(** The threads asleep on [cv], by their position. *)
Definition sleepers (cv : cond) (ts : list T) : list nat :=
  filter (fun j => ts !! j ≫= asleep p = Some cv) (seq 0 (length ts)).

Definition wake_at (j : nat) (ts : list T) : list T :=
  match ts !! j with Some t => <[j := wake p t]> ts | None => ts end.

Definition Cond_signal (s : option cond) (ts : list T) : list (list T) :=
  match s with
  | None => [ts]
  | Some cv =>
      match sleepers cv ts with
      | [] => [ts]
      | js => (fun j => wake_at j ts) <$> js
      end
  end.

(** The configurations after a step of thread [i]. *)
Definition moves (i : nat) (c : cconf G T) : list (cconf G T) :=
  match thr c !! i with
  | None => []
  | Some t =>
      '(g', t', s) ← act p t (glob c);
      (fun ts => mkConf g' ts (spur c)) <$> Cond_signal s (<[i := t']> (thr c))
  end.

Inductive cvstep : cconf G T -> cconf G T -> Prop :=
| cv_act i c c' : c' ∈ moves i c -> cvstep c c'
| cv_spurious i t cv g ts n :
    ts !! i = Some t -> asleep p t = Some cv -> cvstep (mkConf g ts (S n)) (mkConf g (wake_at i ts) n).

(** A schedule: which thread moves, and which of its outcomes is taken. *)
Fixpoint cvrun (sched : list (nat * nat)) (c : cconf G T) : option (cconf G T) :=
  match sched with
  | [] => Some c
  | (i, o) :: sched' => moves i c !! o ≫= cvrun sched'
  end.

Lemma cvrun_steps sched c c' : cvrun sched c = Some c' -> rtc cvstep c c'.
Proof.
  revert c. induction sched as [|[i o] sched IH]; intros c; simpl; [by intros [= <-]|].
  destruct (moves i c !! o) as [c1|] eqn:E; [|done]. intros H. eapply rtc_l; [|by apply IH].
  eapply cv_act. by eapply list_elem_of_lookup_2.
Qed.

Lemma elem_sleepers cv ts j : j ∈ sleepers cv ts <-> exists t, ts !! j = Some t /\ asleep p t = Some cv.
Proof.
  unfold sleepers. rewrite list_elem_of_filter, bind_Some. split; [naive_solver|].
  intros (t & Hj & Ht). split; [by exists t|]. apply elem_of_seq. apply lookup_lt_Some in Hj. lia.
Qed.

(** What a signal does: it wakes a sleeper if there is one. *)
Lemma signal_cases cv ts ts' :
  ts' ∈ Cond_signal (Some cv) ts ->
  (ts' = ts /\ forall t, t ∈ ts -> asleep p t <> Some cv) \/
  (exists j t, ts !! j = Some t /\ asleep p t = Some cv /\ ts' = <[j := wake p t]> ts).
Proof.
  unfold Cond_signal. intros H. destruct (sleepers cv ts) as [|j0 js] eqn:E.
  - apply list_elem_of_singleton in H as ->. left. split; [done|]. intros t [j Hj]%list_elem_of_lookup Ht.
    assert (j ∈ sleepers cv ts) as Hs by (apply elem_sleepers; eauto). rewrite E in Hs. by apply elem_of_nil in Hs.
  - rewrite <- E in H. apply list_elem_of_fmap in H as (j & -> & Hj). apply elem_sleepers in Hj as (t & Hj & Ht).
    right. exists j, t. split_and!; [done|done|]. unfold wake_at. by rewrite Hj.
Qed.

Lemma moves_cases i c c' :
  c' ∈ moves i c ->
  exists t g' t' s ts', thr c !! i = Some t /\ (g', t', s) ∈ act p t (glob c) /\
    ts' ∈ Cond_signal s (<[i := t']> (thr c)) /\ c' = mkConf g' ts' (spur c).
Proof.
  unfold moves. destruct (thr c !! i) as [t|] eqn:E; [|by intros ?%elem_of_nil].
  intros ([[g' t'] s] & H & Hin)%list_elem_of_bind. apply list_elem_of_fmap in H as (ts' & -> & Hs).
  by exists t, g', t', s, ts'.
Qed.

(** A thread that has a step has one whatever it signals. *)
Lemma act_moves i c t g' t' s :
  thr c !! i = Some t -> (g', t', s) ∈ act p t (glob c) -> exists c', c' ∈ moves i c.
Proof.
  intros Hi Hin. assert (exists ts', ts' ∈ Cond_signal s (<[i := t']> (thr c))) as [ts' Hs].
  { unfold Cond_signal. destruct s as [cv|]; [|eexists; by left].
    destruct (sleepers _ _) as [|j js]; simpl; eexists; by left. }
  exists (mkConf g' ts' (spur c)). unfold moves. rewrite Hi.
  apply list_elem_of_bind. exists (g', t', s). split; [|done]. apply list_elem_of_fmap. by exists ts'.
Qed.
End cond.
