(* ===== verification/CvProdCons.v ===== *)
(** * Bounded buffer with condition variables (threads-cv/pc.c, pc_single_cv.c)

    One producer puts the numbers 0 to loops-1 and then one end marker -1 for
    each consumer into a circular buffer; every consumer takes numbers until it
    gets a marker.  A mutex protects the buffer; whoever finds it full or empty
    sleeps on a condition variable.  The two programs differ only in the
    variables they sleep on, which are arguments here: [empty] and [fill] are
    two variables in pc.c and one in pc_single_cv.c.

    Every access to a shared variable is a step of its own.  The numbers of the
    program counters are those of the comments in the source.  An access outside
    the buffer has no outcome, which the theorems exclude.  num_full and the two
    indices stay between 0 and [max], an int, so that no sum overflows.  The
    second part has the invariant of all interleavings. *)
From S2P Require Import Prelude Threads ProdCons CondVar.

Record globals := mkGlobals {
  buffer : list Z; use_ptr : Z; fill_ptr : Z; num_full : Z;
  m : bool }.   (* the mutex *)

Definition set_buffer v g := mkGlobals v (use_ptr g) (fill_ptr g) (num_full g) (m g).
Definition set_use_ptr v g := mkGlobals (buffer g) v (fill_ptr g) (num_full g) (m g).
Definition set_fill_ptr v g := mkGlobals (buffer g) (use_ptr g) v (num_full g) (m g).
Definition set_num_full v g := mkGlobals (buffer g) (use_ptr g) (fill_ptr g) v (m g).
Definition set_m v g := mkGlobals (buffer g) (use_ptr g) (fill_ptr g) (num_full g) v.

(** The producer; [vs] are the values of the rounds that follow. *)
Inductive pphase :=
| p1 (vs : list Z)                    (* the test of the for loop, Mutex_lock *)
| p2 (v : Z) (vs : list Z)            (* while (num_full == max) *)
| p3 (v : Z) (vs : list Z)            (* Cond_wait: release and sleep *)
| p_asleep (v : Z) (vs : list Z)
| p_woken (v : Z) (vs : list Z)       (* Cond_wait: take the mutex again *)
| f1 (v : Z) (vs : list Z) | f2 (v : Z) (vs : list Z) (f : Z)   (* buffer[fill_ptr] = value *)
| f3 (v : Z) (vs : list Z) | f4 (v : Z) (vs : list Z) (f : Z)   (* fill_ptr = (fill_ptr + 1) % max *)
| f5 (v : Z) (vs : list Z) | f6 (v : Z) (vs : list Z) (n : Z)   (* num_full++ *)
| p5 (vs : list Z)                    (* Cond_signal *)
| p6 (vs : list Z).                   (* Mutex_unlock *)

(** A consumer; [tmp] is what it got last. *)
Inductive cphase :=
| c1 (tmp : Z)                        (* while (tmp != -1), Mutex_lock *)
| c2 | c3 | c_asleep | c_woken
| g1 | g2 (u : Z)                     (* tmp = buffer[use_ptr] *)
| g3 (tmp : Z) | g4 (tmp u : Z)       (* use_ptr = (use_ptr + 1) % max *)
| g5 (tmp : Z) | g6 (tmp n : Z)       (* num_full-- *)
| c5 (tmp : Z) | c6 (tmp : Z).

Inductive tphase := Prod (x : pphase) | Cons (x : cphase).

Section pc.
Variables (max : Z) (empty fill : cond).

Definition do_fill (x : pphase) (g : globals) : list (globals * pphase) :=
  match x with
  | f1 v vs => [(g, f2 v vs (fill_ptr g))]
  | f2 v vs f =>
      if (0 <=? f) && (f <? Z.of_nat (length (buffer g)))
      then [(set_buffer (<[Z.to_nat f := v]> (buffer g)) g, f3 v vs)] else []
  | f3 v vs => [(g, f4 v vs (fill_ptr g))]
  | f4 v vs f => [(set_fill_ptr (Z.rem (f + 1) max) g, f5 v vs)]
  | f5 v vs => [(g, f6 v vs (num_full g))]
  | f6 v vs n => [(set_num_full (n + 1) g, p5 vs)]
  | _ => []
  end.

Definition do_get (x : cphase) (g : globals) : list (globals * cphase) :=
  match x with
  | g1 => [(g, g2 (use_ptr g))]
  | g2 u =>
      if 0 <=? u
      then match buffer g !! Z.to_nat u with Some tmp => [(g, g3 tmp)] | None => [] end
      else []
  | g3 tmp => [(g, g4 tmp (use_ptr g))]
  | g4 tmp u => [(set_use_ptr (Z.rem (u + 1) max) g, g5 tmp)]
  | g5 tmp => [(g, g6 tmp (num_full g))]
  | g6 tmp n => [(set_num_full (n - 1) g, c5 tmp)]
  | _ => []
  end.

Definition producer (x : pphase) (g : globals) : list (globals * pphase * option cond) :=
  match x with
  | p1 [] => []
  | p1 (v :: vs) => if m g then [] else [(set_m true g, p2 v vs, None)]
  | p2 v vs => [(g, if num_full g =? max then p3 v vs else f1 v vs, None)]
  | p3 v vs => [(set_m false g, p_asleep v vs, None)]
  | p_asleep _ _ => []
  | p_woken v vs => if m g then [] else [(set_m true g, p2 v vs, None)]
  | p5 vs => [(g, p6 vs, Some fill)]
  | p6 vs => [(set_m false g, p1 vs, None)]
  | _ => (fun '(g', y) => (g', y, None)) <$> do_fill x g
  end.

Definition consumer (x : cphase) (g : globals) : list (globals * cphase * option cond) :=
  match x with
  | c1 tmp => if tmp =? -1 then [] else if m g then [] else [(set_m true g, c2, None)]
  | c2 => [(g, if num_full g =? 0 then c3 else g1, None)]
  | c3 => [(set_m false g, c_asleep, None)]
  | c_asleep => []
  | c_woken => if m g then [] else [(set_m true g, c2, None)]
  | c5 tmp => [(g, c6 tmp, Some empty)]
  | c6 tmp => [(set_m false g, c1 tmp, None)]
  | _ => (fun '(g', y) => (g', y, None)) <$> do_get x g
  end.

Definition pc_program : program globals tphase :=
  mkProgram
    (fun t g =>
       match t with
       | Prod x => (fun '(g', y, s) => (g', Prod y, s)) <$> producer x g
       | Cons x => (fun '(g', y, s) => (g', Cons y, s)) <$> consumer x g
       end)
    (fun t =>
       match t with
       | Prod (p_asleep _ _) => Some empty
       | Cons c_asleep => Some fill
       | _ => None
       end)
    (fun t =>
       match t with
       | Prod (p_asleep v vs) => Prod (p_woken v vs)
       | Cons c_asleep => Cons c_woken
       | _ => t
       end).

(** main when all threads are created; [k] spurious wakeups will happen. *)
Definition pc_main (loops : Z) (consumers k : nat) : cconf globals tphase :=
  mkConf (mkGlobals (replicate (Z.to_nat max) 0) 0 0 0 false)
    (Prod (p1 (items loops consumers)) :: replicate consumers (Cons (c1 0))) k.

(** A thread that has returned. *)
Definition returned (t : tphase) : bool :=
  match t with
  | Prod (p1 []) => true
  | Cons (c1 tmp) => tmp =? -1
  | _ => false
  end.
Definition all_joined (c : cconf globals tphase) : bool := forallb returned (thr c).

(** The values do_get returns in a step, and in an execution, in their order. *)
Definition took_one (a b : tphase) : list Z :=
  match a, b with Cons (g6 tmp _), Cons (c5 _) => [tmp] | _, _ => [] end.
Definition took (ts ts' : list tphase) : list Z := concat (zip_with took_one ts ts').

Inductive exec : nat -> cconf globals tphase -> list Z -> cconf globals tphase -> Prop :=
| exec_nil c : exec 0 c [] c
| exec_cons n c c' c'' l :
    cvstep pc_program c c' -> exec n c' l c'' -> exec (S n) c (took (thr c) (thr c') ++ l) c''.

(** A thread can move by itself; without such a thread and with no spurious
    wakeup to come the program has stopped. *)
Definition can_move (c : cconf globals tphase) : Prop := exists i c', c' ∈ moves pc_program i c.
Definition movable (c : cconf globals tphase) : bool :=
  existsb (fun i => match moves pc_program i c with [] => false | _ => true end) (seq 0 (length (thr c))).
End pc.

(** The condition variables of pc.c, and the one of pc_single_cv.c. *)
Definition empty : cond := 0%nat.
Definition fill : cond := 1%nat.
Definition cv : cond := 0%nat.

(** * The invariant of the bounded buffer with two condition variables

    Besides the contents of the buffer the invariant says that no wakeup is
    lost: while consumers sleep, every number in the buffer has a consumer that
    is awake and will look, or the signal for it is still to be sent; while the
    producer sleeps, the buffer is full or a consumer is about to signal.  A
    measure that falls with every step bounds the length of the executions. *)

(** Has the mutex; about to signal; asleep; awake before it has taken a number. *)
Definition pm x : nat := match x with p1 _ | p_asleep _ _ | p_woken _ _ => 0 | _ => 1 end.
Definition psig x : nat := match x with p5 _ => 1 | _ => 0 end.
Definition pasleep x : nat := match x with p_asleep _ _ => 1 | _ => 0 end.
Definition cm x : nat := match x with c1 _ | c_asleep | c_woken => 0 | _ => 1 end.
Definition csig x : nat := match x with c5 _ => 1 | _ => 0 end.
Definition casleep x : nat := match x with c_asleep => 1 | _ => 0 end.
Definition cawake x : nat :=
  match x with c1 t => if t =? -1 then 0 else 1 | c_asleep | c5 _ | c6 _ => 0 | _ => 1 end.

(** Has stepped the index already; has not got its end marker yet. *)
Definition pstepped x : nat := match x with f5 _ _ | f6 _ _ _ => 1 | _ => 0 end.
Definition cstepped x : nat := match x with g5 _ | g6 _ _ => 1 | _ => 0 end.
Definition active x : nat :=
  match x with c1 t | c5 t | c6 t => if t =? -1 then 0 else 1 | _ => 1 end.

(** The values still to be put. *)
Definition pend x : list Z :=
  match x with
  | p1 vs | p5 vs | p6 vs => vs
  | p2 v vs | p3 v vs | p_asleep v vs | p_woken v vs | f1 v vs | f2 v vs _ | f3 v vs | f4 v vs _ | f5 v vs | f6 v vs _ => v :: vs
  end.

Section inv.
Variables (max : Z) (empty fill : cond).
Hypothesis Hmax : 0 < max.
Hypothesis Hcv : empty <> fill.

(** The cell of the [n]-th number ever put. *)
Definition cell (n : nat) : nat := Z.to_nat (Z.of_nat n mod max).

(** What a thread knows of the [q] numbers in the buffer, after [got] were taken. *)
Definition pknows (g : globals) (q got : list Z) x : Prop :=
  let here := (length got + length q)%nat in
  match x with
  | p3 _ _ => Z.of_nat (length q) = max
  | f1 _ _ => Z.of_nat (length q) < max
  | f2 _ _ f => Z.of_nat (length q) < max /\ f = Z.of_nat here mod max
  | f3 v _ | f5 v _ => Z.of_nat (length q) < max /\ buffer g !! cell here = Some v
  | f4 v _ f => Z.of_nat (length q) < max /\ buffer g !! cell here = Some v /\ f = Z.of_nat here mod max
  | f6 v _ n => Z.of_nat (length q) < max /\ buffer g !! cell here = Some v /\ n = Z.of_nat (length q)
  | _ => True
  end.
Definition cknows (q got : list Z) x : Prop :=
  match x with
  | c3 => q = []
  | g1 => q <> []
  | g2 u => q <> [] /\ u = Z.of_nat (length got) mod max
  | g3 t | g5 t => head q = Some t
  | g4 t u => head q = Some t /\ u = Z.of_nat (length got) mod max
  | g6 t n => head q = Some t /\ n = Z.of_nat (length q)
  | _ => True
  end.

Record pinv (its : list Z) (g : globals) (p : pphase) (cs : list cphase) (q got : list Z) : Prop := mk_pinv {
  i_mutex : (pm p + sum_list_with cm cs = if m g then 1 else 0)%nat;
  i_len : Z.of_nat (length (buffer g)) = max;
  i_num : num_full g = Z.of_nat (length q);
  i_max : Z.of_nat (length q) <= max;
  i_buf k v : q !! k = Some v -> buffer g !! cell (length got + k) = Some v;
  i_fill : fill_ptr g = Z.of_nat (length got + length q + pstepped p) mod max;
  i_use : use_ptr g = Z.of_nat (length got + sum_list_with cstepped cs) mod max;
  i_pk : pknows g q got p;
  i_ck c : c ∈ cs -> cknows q got c;
  i_items : got ++ q ++ pend p = its;
  i_act : markers (q ++ pend p) = sum_list_with active cs;
  i_wc : (0 < sum_list_with casleep cs -> length q <= sum_list_with cawake cs + psig p)%nat;
  i_wp : (0 < pasleep p)%nat -> max <= Z.of_nat (length q + sum_list_with csig cs) }.

Lemma cell_lt n : (cell n < Z.to_nat max)%nat.
Proof. unfold cell. pose proof (Z.mod_pos_bound (Z.of_nat n) max Hmax). lia. Qed.

Lemma cell_inj a b : (a < b)%nat -> Z.of_nat b < Z.of_nat a + max -> cell a <> cell b.
Proof.
  intros Hab Hb E. unfold cell in E.
  pose proof (Z.mod_pos_bound (Z.of_nat a) max Hmax). pose proof (Z.mod_pos_bound (Z.of_nat b) max Hmax).
  apply Z2Nat.inj in E; [|lia..].
  assert ((Z.of_nat b - Z.of_nat a) mod max = 0) as Hz.
  { rewrite Zminus_mod, E, Z.sub_diag. apply Z.mod_0_l. lia. }
  rewrite Z.mod_small in Hz by lia. lia.
Qed.

Lemma step_mod n : Z.rem (Z.of_nat n mod max + 1) max = Z.of_nat (n + 1) mod max.
Proof.
  pose proof (Z.mod_pos_bound (Z.of_nat n) max Hmax). rewrite Z.rem_mod_nonneg by lia.
  rewrite Zplus_mod_idemp_l. f_equal. lia.
Qed.

Lemma cv_cknows_free q got c : cm c = 0%nat -> cknows q got c.
Proof. by destruct c. Qed.
Lemma cv_pknows_free g q got p : pm p = 0%nat -> pknows g q got p.
Proof. by destruct p. Qed.

(** A consumer moves without taking a number out. *)
Lemma cv_c_move its g p cs q got j x g' y :
  pinv its g p cs q got -> cs !! j = Some x ->
  ((if m g' then 1 else 0) + cm x = (if m g then 1 else 0) + cm y)%nat ->
  buffer g' = buffer g -> num_full g' = num_full g -> fill_ptr g' = fill_ptr g ->
  use_ptr g' = Z.of_nat (length got + sum_list_with cstepped (<[j := y]> cs)) mod max ->
  cknows q got y -> active y = active x ->
  ((casleep y <= casleep x)%nat /\ (cawake x <= cawake y)%nat \/ q = []) ->
  (csig x <= csig y \/ pasleep p = 0)%nat ->
  pinv its g' p (<[j := y]> cs) q got.
Proof.
  intros [M Le Nu Ma Hb Hf Hus Hpk Hck Hit Hact Hwc Hwp] Hj E1 Eb En Ef Eu Ky Ea Hw Hs.
  pose proof (sum_insert cm cs j x y Hj). pose proof (sum_insert active cs j x y Hj).
  pose proof (sum_insert casleep cs j x y Hj). pose proof (sum_insert cawake cs j x y Hj).
  pose proof (sum_insert csig cs j x y Hj).
  constructor; rewrite ?Eb, ?En, ?Ef; try done; try lia.
  - by destruct p; simpl in *; rewrite ?Eb.
  - intros c Hc. destruct (elem_insert cs j x y c Hj Hc) as [->|(k & _ & Hk)]; [done|].
    apply Hck. by eapply list_elem_of_lookup_2.
  - destruct Hw as [Hw| ->]; simpl; lia.
Qed.

(** The producer moves without putting a number in. *)
Lemma cv_p_move its g p cs q got g' p' :
  pinv its g p cs q got ->
  ((if m g' then 1 else 0) + pm p = (if m g then 1 else 0) + pm p')%nat ->
  length (buffer g') = length (buffer g) ->
  (forall k, (k < length q)%nat -> buffer g' !! cell (length got + k) = buffer g !! cell (length got + k)) ->
  num_full g' = num_full g -> use_ptr g' = use_ptr g ->
  fill_ptr g' = Z.of_nat (length got + length q + pstepped p') mod max ->
  pknows g' q got p' -> pend p' = pend p ->
  (psig p <= psig p' \/ (0 < sum_list_with casleep cs -> length q <= sum_list_with cawake cs))%nat ->
  ((pasleep p' <= pasleep p)%nat \/ Z.of_nat (length q) = max) ->
  pinv its g' p' cs q got.
Proof.
  intros [M Le Nu Ma Hb Hf Hus Hpk Hck Hit Hact Hwc Hwp] E1 El Eb En Eu Ef Kp Ep Hs Ha.
  constructor; rewrite ?Ep, ?En, ?Eu, ?El; try done; try lia.
  intros k v Hk. rewrite Eb by (by eapply lookup_lt_Some). by apply Hb.
Qed.

(** The number [v] is in the buffer. *)
Lemma cv_p_insert its g cs q got v vs n :
  pinv its g (f6 v vs n) cs q got -> pinv its (set_num_full (n + 1) g) (p5 vs) cs (q ++ [v]) got.
Proof.
  intros [M Le Nu Ma Hb Hf Hus (Hlt & Hv & ->) Hck Hit Hact Hwc Hwp]. cbn [pm pend psig pasleep pstepped] in *.
  constructor; cbn [pm pend psig pasleep pstepped pknows set_num_full m buffer num_full fill_ptr use_ptr] in *;
    rewrite ?length_app; simpl length; try done; try lia.
  - intros k w [Hk|[Hge Hk]]%lookup_app_Some; [by apply Hb|].
    apply list_lookup_singleton_Some in Hk as [Hk <-]. by replace k with (length q) by lia.
  - rewrite Hf. f_equal. lia.
  - intros c Hc. apply cv_cknows_free. apply list_elem_of_lookup in Hc as [k Hk].
    pose proof (sum_ge cm cs k c Hk). destruct (m g); lia.
  - by rewrite <- app_assoc.
  - by rewrite <- app_assoc.
Qed.

(** The number [t] is out of the buffer. *)
Lemma cv_c_remove its g p cs q got j t n :
  pinv its g p cs q got -> cs !! j = Some (g6 t n) ->
  exists q', q = t :: q' /\ pinv its (set_num_full (n - 1) g) p (<[j := c5 t]> cs) q' (got ++ [t]).
Proof.
  intros [M Le Nu Ma Hb Hf Hus Hpk Hck Hit Hact Hwc Hwp] Hj.
  destruct (Hck (g6 t n) ltac:(by eapply list_elem_of_lookup_2)) as [Hh ->].
  destruct q as [|t' q']; [done|]. injection Hh as ->. exists q'. split; [done|].
  pose proof (sum_ge cm cs j _ Hj) as Hone. cbn [cm] in Hone.
  assert (pm p = 0)%nat as Hp by (destruct (m g); lia).
  pose proof (sum_insert cm cs j _ (c5 t) Hj). pose proof (sum_insert active cs j _ (c5 t) Hj).
  pose proof (sum_insert casleep cs j _ (c5 t) Hj). pose proof (sum_insert cawake cs j _ (c5 t) Hj).
  pose proof (sum_insert csig cs j _ (c5 t) Hj). pose proof (sum_insert cstepped cs j _ (c5 t) Hj).
  cbn [cm active casleep cawake csig cstepped length] in *.
  constructor; cbn [set_num_full m buffer num_full fill_ptr use_ptr] in *; rewrite ?length_app; simpl length; try lia.
  - intros k v Hk. specialize (Hb (S k) v Hk). by replace (length got + 1 + k)%nat with (length got + S k)%nat by lia.
  - rewrite Hf. do 2 f_equal. lia.
  - rewrite Hus. do 2 f_equal. lia.
  - by apply cv_pknows_free.
  - intros c Hc. destruct (elem_insert cs j _ _ c Hj Hc) as [->|(k & Hne & Hk)]; [done|]. apply cv_cknows_free.
    pose proof (sum_ge2 cm cs j k _ _ Hj Hk ltac:(done)). cbn [cm] in *. destruct (m g); lia.
  - by rewrite <- app_assoc.
  - rewrite <- app_comm_cons, markers_cons in Hact. destruct (Z.eqb_spec t (-1)), (decide (t = -1)); simplify_eq/=; try lia; done.
Qed.

(** ** The steps *)

Definition conf_of (g : globals) (p : pphase) (cs : list cphase) (k : nat) : cconf globals tphase :=
  mkConf g (Prod p :: (Cons <$> cs)) k.

(** [p] and [cs] after the wakeup of thread [Prod] or [Cons]. *)
Inductive pcstep (g : globals) (p : pphase) (cs : list cphase) (k : nat) :
  globals -> pphase -> list cphase -> nat -> Prop :=
| s_prod g' p' : (g', p', None) ∈ producer max fill p g -> pcstep g p cs k g' p' cs k
| s_prod_none vs : p = p5 vs -> sum_list_with casleep cs = 0%nat -> pcstep g p cs k g (p6 vs) cs k
| s_prod_wake vs j : p = p5 vs -> cs !! j = Some c_asleep -> pcstep g p cs k g (p6 vs) (<[j := c_woken]> cs) k
| s_cons j x g' y : cs !! j = Some x -> (g', y, None) ∈ consumer max empty x g -> pcstep g p cs k g' p (<[j := y]> cs) k
| s_cons_none j t : cs !! j = Some (c5 t) -> pasleep p = 0%nat -> pcstep g p cs k g p (<[j := c6 t]> cs) k
| s_cons_wake j t v vs : cs !! j = Some (c5 t) -> p = p_asleep v vs -> pcstep g p cs k g (p_woken v vs) (<[j := c6 t]> cs) k
| s_spur_prod v vs n : p = p_asleep v vs -> k = S n -> pcstep g p cs k g (p_woken v vs) cs n
| s_spur_cons j n : cs !! j = Some c_asleep -> k = S n -> pcstep g p cs k g p (<[j := c_woken]> cs) n.

Lemma elem_pair3 {A B} (f : A -> B) g' t' (s : option cond) (l : list (globals * A * option cond)) :
  (g', t', s) ∈ ((fun '(g, y, z) => (g, f y, z)) <$> l) -> exists y, t' = f y /\ (g', y, s) ∈ l.
Proof. intros ([[g y] z] & [= -> -> ->] & Hin)%list_elem_of_fmap. eauto. Qed.

Lemma silent {A} (x : globals * A * option cond) (l : list (globals * A)) :
  x ∈ ((fun '(g', y) => (g', y, None)) <$> l) -> x.2 = None.
Proof. by intros ([g' y] & -> & _)%list_elem_of_fmap. Qed.

Lemma elem_unless (b : bool) {A} (x y : A) : x ∈ (if b then [] else [y]) -> b = false /\ x = y.
Proof. destruct b; [by intros ?%elem_of_nil|by intros ->%list_elem_of_singleton]. Qed.

(** Only [p5] and [c5] signal. *)
Lemma producer_signals p g g' p' s :
  (g', p', Some s) ∈ producer max fill p g -> exists vs, p = p5 vs /\ p' = p6 vs /\ g' = g /\ s = fill.
Proof.
  intros H. destruct p as [[|v vs]|v vs|v vs|v vs|v vs|v vs|v vs f|v vs|v vs f|v vs|v vs n|vs|vs]; cbn [producer] in H;
    try (by apply silent in H); try (by apply elem_of_nil in H); try (by apply elem_unless in H as [_ ?]);
    apply list_elem_of_singleton in H; simplify_eq. by exists vs.
Qed.

Lemma consumer_signals x g g' y s :
  (g', y, Some s) ∈ consumer max empty x g -> exists t, x = c5 t /\ y = c6 t /\ g' = g /\ s = empty.
Proof.
  intros H. destruct x as [t| | | | | |u|t|t u|t|t n|t|t]; cbn [consumer] in H;
    try (by apply silent in H); try (by apply elem_of_nil in H); try (by apply elem_unless in H as [_ ?]).
  - destruct (_ =? _); [by apply elem_of_nil in H|by apply elem_unless in H as [_ ?]].
  - apply list_elem_of_singleton in H; simplify_eq.
  - apply list_elem_of_singleton in H; simplify_eq.
  - apply list_elem_of_singleton in H; simplify_eq. by exists t.
  - apply list_elem_of_singleton in H; simplify_eq.
Qed.

Lemma asleep_none cs : (forall x, x ∈ cs -> x <> c_asleep) -> sum_list_with casleep cs = 0%nat.
Proof.
  induction cs as [|x cs IH]; intros H; [done|]. simpl. rewrite IH by (intros z Hz; apply H; by right).
  destruct x; try done. exfalso. eapply H; [by left|done].
Qed.

Lemma prog_cons_asleep x cv : asleep (pc_program max empty fill) (Cons x) = Some cv -> x = c_asleep /\ cv = fill.
Proof. by destruct x; intros [= <-]. Qed.
Lemma prog_prod_asleep x cv :
  asleep (pc_program max empty fill) (Prod x) = Some cv -> exists v vs, x = p_asleep v vs /\ cv = empty.
Proof. destruct x; intros [= <-]; eauto. Qed.

(** What a signal of [fill] or [empty] does to the threads. *)
Lemma signal_fill p cs ts' :
  ts' ∈ Cond_signal (pc_program max empty fill) (Some fill) (Prod p :: (Cons <$> cs)) ->
  (ts' = Prod p :: (Cons <$> cs) /\ sum_list_with casleep cs = 0%nat) \/
  exists j, cs !! j = Some c_asleep /\ ts' = Prod p :: (Cons <$> <[j := c_woken]> cs).
Proof.
  intros [[-> Hn]|(j & t & Hj & Ht & ->)]%signal_cases.
  - left. split; [done|]. apply asleep_none. intros x Hx ->. apply (Hn (Cons c_asleep)); [|done].
    right. by apply list_elem_of_fmap_2.
  - destruct j as [|j]; simpl in Hj.
    + injection Hj as <-. apply prog_prod_asleep in Ht as (v & vs & _ & ?). congruence.
    + apply list_lookup_fmap_Some in Hj as (x & -> & Hj). apply prog_cons_asleep in Ht as [-> _].
      right. exists j. by rewrite list_fmap_insert.
Qed.

Lemma signal_empty p cs ts' :
  ts' ∈ Cond_signal (pc_program max empty fill) (Some empty) (Prod p :: (Cons <$> cs)) ->
  (ts' = Prod p :: (Cons <$> cs) /\ pasleep p = 0%nat) \/
  exists v vs, p = p_asleep v vs /\ ts' = Prod (p_woken v vs) :: (Cons <$> cs).
Proof.
  intros [[-> Hn]|(j & t & Hj & Ht & ->)]%signal_cases.
  - left. split; [done|]. destruct p; try done. exfalso. eapply Hn; [by left|done].
  - destruct j as [|j]; simpl in Hj.
    + injection Hj as <-. apply prog_prod_asleep in Ht as (v & vs & -> & _). right. by exists v, vs.
    + apply list_lookup_fmap_Some in Hj as (x & -> & Hj). apply prog_cons_asleep in Ht as [_ ?]. congruence.
Qed.

Lemma pc_cases g p cs k c' :
  cvstep (pc_program max empty fill) (conf_of g p cs k) c' ->
  exists g' p' cs' k', c' = conf_of g' p' cs' k' /\ pcstep g p cs k g' p' cs' k'.
Proof.
  inversion 1 as [i c c1 Hm|i t cv g0 ts n Hi Ht]; subst.
  - apply moves_cases in Hm as (t & g' & t' & s & ts' & Hi & Ha & Hs & ->).
    destruct i as [|i]; simpl in Hi, Ha, Hs.
    + injection Hi as <-. apply elem_pair3 in Ha as (y & -> & Ha). destruct s as [cv|].
      * apply producer_signals in Ha as (vs & -> & -> & -> & ->).
        apply signal_fill in Hs as [[-> H0]|(j & Hj & ->)]; eexists _, _, _, _; (split; [reflexivity|]);
          [by eapply s_prod_none|by eapply s_prod_wake].
      * apply list_elem_of_singleton in Hs as ->. eexists _, _, _, _. split; [reflexivity|]. by apply s_prod.
    + apply list_lookup_fmap_Some in Hi as (x & -> & Hi). apply elem_pair3 in Ha as (y & -> & Ha).
      rewrite <- list_fmap_insert in Hs. destruct s as [cv|].
      * apply consumer_signals in Ha as (t & -> & -> & -> & ->).
        apply signal_empty in Hs as [[-> H0]|(v & vs & -> & ->)]; eexists _, _, _, _; (split; [reflexivity|]);
          [by eapply s_cons_none|by eapply s_cons_wake].
      * apply list_elem_of_singleton in Hs as ->. eexists _, _, _, _. split; [reflexivity|]. by eapply s_cons.
  - destruct i as [|i]; simpl in Hi.
    + injection Hi as <-. apply prog_prod_asleep in Ht as (v & vs & -> & _).
      eexists _, _, _, _. split; [reflexivity|]. by eapply s_spur_prod.
    + apply list_lookup_fmap_Some in Hi as (x & -> & Hi). apply prog_cons_asleep in Ht as [-> _].
      eexists _, _, _, _. split; [|by eapply s_spur_cons]. unfold wake_at, conf_of. simpl.
      rewrite list_lookup_fmap, Hi. simpl. by rewrite list_fmap_insert.
Qed.

(** ** The measure *)

Definition prank (x : pphase) : nat :=
  let rest vs := (50 * length vs)%nat in
  match x with
  | p1 vs => rest vs
  | p_woken _ vs => 50 + rest vs
  | p2 _ vs => 49 + rest vs | p3 _ vs => 48 + rest vs | p_asleep _ vs => 40 + rest vs
  | f1 _ vs => 48 + rest vs | f2 _ vs _ => 47 + rest vs | f3 _ vs => 46 + rest vs | f4 _ vs _ => 45 + rest vs
  | f5 _ vs => 44 + rest vs | f6 _ vs _ => 43 + rest vs
  | p5 vs => 20 + rest vs | p6 vs => 1 + rest vs
  end.
Definition crank (x : cphase) : nat :=
  match x with
  | c1 t => if t =? -1 then 0 else 13
  | c_woken => 13 | c2 => 12 | c3 => 11 | c_asleep => 0
  | g1 => 11 | g2 _ => 10 | g3 _ => 9 | g4 _ _ => 8 | g5 _ => 7 | g6 _ _ => 6
  | c5 _ => 29 | c6 _ => 14
  end.
Definition rank (p : pphase) (cs : list cphase) (q : list Z) (k : nat) : nat :=
  prank p + sum_list_with crank cs + 30 * length (q ++ pend p) + 14 * k.

(** The pairs a step of do_fill or do_get gives. *)
Lemma elem_quiet {A} g' (y : A) (l : list (globals * A)) :
  (g', y, None) ∈ ((fun '(g', y) => (g', y, None : option cond)) <$> l) -> (g', y) ∈ l.
Proof. by intros ([g1' y1] & [= -> ->] & H)%list_elem_of_fmap. Qed.

Ltac one_outcome H :=
  first [ apply list_elem_of_singleton in H; simplify_eq
        | apply elem_unless in H as [? ?]; simplify_eq
        | by apply elem_of_nil in H ].

Ltac p_moves Hi :=
  eapply cv_p_move; [exact Hi|simpl; repeat case_match; simpl in *; try lia; congruence|simpl; rewrite ?length_insert; done|
    done|done|done|simpl; rewrite ?Nat.add_0_r; try done|simpl; try done|done|simpl; try lia|simpl; try lia].

Lemma prod_step its g p cs q got g' p' k :
  pinv its g p cs q got -> (g', p', None) ∈ producer max fill p g ->
  exists q', pinv its g' p' cs q' got /\ (rank p' cs q' k < rank p cs q k)%nat.
Proof.
  intros Hi Hin. pose proof Hi as [M Le Nu Ma Hb Hf Hus Hpk Hck Hit Hact Hwc Hwp].
  destruct p as [[|v vs]|v vs|v vs|v vs|v vs|v vs|v vs f|v vs|v vs f|v vs|v vs n|vs|vs]; cbn [producer] in Hin;
    try (apply elem_quiet in Hin; cbn [do_fill] in Hin); try one_outcome Hin; simpl in M, Hf, Hpk; rewrite ?Nat.add_0_r in Hf.
  - exists q. split; [p_moves Hi|unfold rank; simpl; lia].
  - exists q. destruct (Z.eqb_spec (num_full g) max); (split; [p_moves Hi; lia|unfold rank; simpl; lia]).
  - exists q. split; [p_moves Hi|unfold rank; simpl; lia].
  - exists q. split; [p_moves Hi|unfold rank; simpl; lia].
  - exists q. split; [p_moves Hi|unfold rank; simpl; lia].
  - destruct Hpk as [Hq ->]. pose proof (Z.mod_pos_bound (Z.of_nat (length got + length q)) max Hmax).
    destruct (_ && _); one_outcome Hin. exists q. split; [|unfold rank; simpl; lia].
    eapply cv_p_move; [exact Hi|simpl; lia|simpl; by rewrite length_insert| |done|done|simpl; by rewrite Nat.add_0_r| |done|simpl; lia|simpl; lia].
    + intros j Hj. simpl. rewrite list_lookup_insert_ne; [done|]. apply not_eq_sym, cell_inj; lia.
    + simpl. split; [done|]. apply list_lookup_insert_eq. lia.
  - exists q. split; [p_moves Hi|unfold rank; simpl; lia]. naive_solver.
  - destruct Hpk as (Hq & Hv & ->). exists q. split; [p_moves Hi; by rewrite step_mod|unfold rank; simpl; lia].
  - exists q. split; [p_moves Hi; naive_solver|unfold rank; simpl; lia].
  - exists (q ++ [v]). split; [by apply cv_p_insert|]. unfold rank. simpl. rewrite !length_app. simpl. lia.
  - exists q. split; [p_moves Hi|unfold rank; simpl; lia].
Qed.

(** A consumer inside that has not stepped the index: nobody has. *)
Lemma use_here its g p cs q got j x :
  pinv its g p cs q got -> cs !! j = Some x -> cm x = 1%nat -> cstepped x = 0%nat ->
  sum_list_with cstepped cs = 0%nat.
Proof.
  intros [M Le Nu Ma Hb Hf Hus Hpk Hck Hit Hact Hwc Hwp] Hj Hx Hs.
  destruct (sum_list_with cstepped cs) as [|n] eqn:E; [done|]. exfalso.
  destruct (sum_pos cstepped cs) as (i & z & Hz & Hp); [lia|].
  assert (i <> j) as Hne by (intros ->; simplify_eq; lia).
  pose proof (sum_ge2 cm cs i j z x Hz Hj Hne). assert (cm z = 1%nat) by (by destruct z; simpl in Hp; try lia).
  destruct (m g); lia.
Qed.

(** [cv_c_move] for the steps that leave the index alone. *)
Lemma c_quiet its g p cs q got j x (b : bool) y k :
  pinv its g p cs q got -> cs !! j = Some x ->
  ((if b then 1 else 0) + cm x = (if m g then 1 else 0) + cm y)%nat ->
  cstepped y = cstepped x -> cknows q got y -> active y = active x ->
  ((casleep y <= casleep x)%nat /\ (cawake x <= cawake y)%nat \/ q = []) ->
  (csig x <= csig y \/ pasleep p = 0)%nat -> (crank y < crank x)%nat ->
  pinv its (set_m b g) p (<[j := y]> cs) q got /\ (rank p (<[j := y]> cs) q k < rank p cs q k)%nat.
Proof.
  intros Hi Hj Hm Hst Ky Ha Hw Hs Hr. pose proof (sum_insert cstepped cs j x y Hj).
  pose proof (sum_insert crank cs j x y Hj). split; [|unfold rank; lia].
  eapply cv_c_move; try done. simpl. rewrite (i_use _ _ _ _ _ _ Hi). do 2 f_equal. lia.
Qed.

Lemma set_m_id g : set_m (m g) g = g.
Proof. by destruct g. Qed.

Lemma cons_step its g p cs q got j x g' y k :
  pinv its g p cs q got -> cs !! j = Some x -> (g', y, None) ∈ consumer max empty x g ->
  exists q', pinv its g' p (<[j := y]> cs) q' (got ++ took_one (Cons x) (Cons y)) /\ (rank p (<[j := y]> cs) q' k < rank p cs q k)%nat.
Proof.
  intros Hi Hj Hin. pose proof Hi as [M Le Nu Ma Hb Hf Hus Hpk Hck Hit Hact Hwc Hwp].
  pose proof (Hck x ltac:(by eapply list_elem_of_lookup_2)) as Kx.
  pose proof (sum_ge cm cs j _ Hj) as Hone. pose proof (use_here _ _ _ _ _ _ _ _ Hi Hj) as Hu.
  destruct x as [t| | | | | |u|t|t u|t|t n|t|t]; cbn [consumer] in Hin;
    try (apply elem_quiet in Hin; cbn [do_get] in Hin); cbn [cm cstepped] in *;
    cbn [took_one]; rewrite ?app_nil_r;
    try (rewrite Hu, Nat.add_0_r in Hus by done);
    try (assert (m g = true) as Em by (destruct (m g); [done|lia])).
  - destruct (Z.eqb_spec t (-1)) as [->|Ht]; [by apply elem_of_nil in Hin|]. one_outcome Hin.
    exists q. eapply c_quiet; try done; simpl; rewrite ?H; repeat case_match; lia.
  - one_outcome Hin. exists q.
    destruct (Z.eqb_spec (num_full g) 0); rewrite <- (set_m_id g), Em; (eapply c_quiet; [done|done|rewrite ?Em; done|done| |done|simpl; lia|simpl; lia|simpl; lia]).
    + destruct q; [done|simpl in *; lia].
    + intros ->. simpl in *. lia.
  - one_outcome Hin. exists q. eapply c_quiet; try done; rewrite ?Em; simpl; try lia. by right.
  - one_outcome Hin.
  - one_outcome Hin. exists q. eapply c_quiet; try done; simpl; rewrite ?H; lia.
  - one_outcome Hin. rewrite <- (set_m_id g), Em. exists q. eapply c_quiet; try done; rewrite ?Em; simpl; try done; lia.
  - destruct Kx as [Hq ->]. destruct (0 <=? _); [|by apply elem_of_nil in Hin].
    destruct q as [|v q]; [done|]. pose proof (Hb 0%nat v eq_refl) as Hv. rewrite Nat.add_0_r in Hv. unfold cell in Hv.
    rewrite Hv in Hin. one_outcome Hin. rewrite <- (set_m_id g), Em. exists (v :: q).
    eapply c_quiet; try done; rewrite ?Em; simpl; try done; lia.
  - one_outcome Hin. rewrite <- (set_m_id g), Em. exists q. eapply c_quiet; try done; rewrite ?Em; simpl; try done; lia.
  - destruct Kx as [Hq ->]. one_outcome Hin. exists q.
    pose proof (sum_insert cstepped cs j _ (g5 t) Hj). pose proof (sum_insert crank cs j _ (g5 t) Hj).
    cbn [cstepped crank] in *. split; [|unfold rank; lia].
    eapply cv_c_move; try done; simpl; try lia; try done. rewrite step_mod. do 2 f_equal. lia.
  - one_outcome Hin. rewrite <- (set_m_id g), Em. exists q. eapply c_quiet; try done; rewrite ?Em; simpl; try done; lia.
  - one_outcome Hin. destruct (cv_c_remove _ _ _ _ _ _ _ _ _ Hi Hj) as (q' & -> & Hi'). exists q'.
    split; [done|]. pose proof (sum_insert crank cs j _ (c5 t) Hj). unfold rank. simpl in *. lia.
  - one_outcome Hin.
  - one_outcome Hin. exists q. eapply c_quiet; try done; rewrite ?Em; simpl; repeat case_match; try lia.
Qed.

(** A sleeper wakes up. *)
Lemma wake_cons its g p cs q got j :
  pinv its g p cs q got -> cs !! j = Some c_asleep -> pinv its g p (<[j := c_woken]> cs) q got.
Proof.
  intros Hi Hj. pose proof (sum_insert cstepped cs j _ c_woken Hj). cbn [cstepped] in *.
  eapply cv_c_move; try done; simpl; try lia. rewrite (i_use _ _ _ _ _ _ Hi). do 2 f_equal. lia.
Qed.

Lemma wake_prod its g cs q got v vs :
  pinv its g (p_asleep v vs) cs q got -> pinv its g (p_woken v vs) cs q got.
Proof. intros Hi. eapply cv_p_move; try done; simpl; try lia. apply Hi. Qed.

(** The signal is sent. *)
Lemma sent_fill its g cs q got vs :
  pinv its g (p5 vs) cs q got -> (0 < sum_list_with casleep cs -> length q <= sum_list_with cawake cs)%nat ->
  pinv its g (p6 vs) cs q got.
Proof. intros Hi Hw. eapply cv_p_move; try done; simpl; try lia. apply Hi. Qed.

Lemma sent_empty its g p cs q got j t k :
  pinv its g p cs q got -> cs !! j = Some (c5 t) -> pasleep p = 0%nat ->
  pinv its g p (<[j := c6 t]> cs) q got /\ (rank p (<[j := c6 t]> cs) q k + 14 < rank p cs q k)%nat.
Proof.
  intros Hi Hj Hp. pose proof (sum_insert crank cs j _ (c6 t) Hj). cbn [crank] in *.
  split; [|unfold rank; lia]. rewrite <- (set_m_id g). eapply c_quiet; try done; simpl; lia.
Qed.

Lemma took_cons a b ts ts' : took (a :: ts) (b :: ts') = took_one a b ++ took ts ts'.
Proof. done. Qed.

Lemma took_same cs : took (Cons <$> cs) (Cons <$> cs) = [].
Proof. induction cs as [|x cs IH]; [done|]. rewrite fmap_cons, took_cons, IH. by destruct x. Qed.

Lemma took_insert cs j x y :
  cs !! j = Some x -> took (Cons <$> cs) (Cons <$> <[j := y]> cs) = took_one (Cons x) (Cons y).
Proof.
  revert j. induction cs as [|z cs IH]; intros [|j] Hj; simplify_eq/=.
  - by rewrite took_cons, took_same, app_nil_r.
  - rewrite took_cons, (IH j Hj). by destruct z.
Qed.

Lemma pc_step its g p cs q got k g' p' cs' k' :
  pinv its g p cs q got -> pcstep g p cs k g' p' cs' k' ->
  exists q', pinv its g' p' cs' q' (got ++ took (Cons <$> cs) (Cons <$> cs')) /\ (rank p' cs' q' k' < rank p cs q k)%nat.
Proof.
  intros Hi [y1 y2 Hin|vs -> Ha|vs j -> Hj|j x y1 y Hj Hin|j t Hj Hp|j t v vs Hj ->|v vs n -> ->|j n Hj ->].
  - destruct (prod_step _ _ _ _ _ _ _ _ k Hi Hin) as (q' & Hi' & Hr). rewrite took_same, app_nil_r. eauto.
  - rewrite took_same, app_nil_r. exists q. split; [|unfold rank; simpl; lia]. apply sent_fill; [done|lia].
  - rewrite (took_insert cs j c_asleep), app_nil_r by done. exists q. pose proof (i_wc _ _ _ _ _ _ Hi) as Hw. pose proof (sum_ge casleep cs j _ Hj).
    pose proof (sum_insert cawake cs j _ c_woken Hj). pose proof (sum_insert crank cs j _ c_woken Hj).
    cbn [casleep cawake crank psig] in *.
    split; [|unfold rank; simpl; lia]. apply sent_fill; [by apply wake_cons|lia].
  - rewrite (took_insert cs j x) by done. by eapply cons_step.
  - rewrite (took_insert cs j (c5 t)), app_nil_r by done. destruct (sent_empty _ _ _ _ _ _ j t k Hi Hj Hp) as [Hi' Hr]. exists q. split; [done|lia].
  - rewrite (took_insert cs j (c5 t)), app_nil_r by done. apply wake_prod in Hi. destruct (sent_empty _ _ _ _ _ _ j t k Hi Hj eq_refl) as [Hi' Hr].
    exists q. split; [done|]. unfold rank in *. simpl in *. lia.
  - rewrite took_same, app_nil_r. exists q. split; [by apply wake_prod|]. unfold rank. simpl. lia.
  - rewrite (took_insert cs j c_asleep), app_nil_r by done. exists q. split; [by apply wake_cons|]. pose proof (sum_insert crank cs j _ c_woken Hj). unfold rank.
    cbn [crank] in *. lia.
Qed.

(** ** Nobody waits for ever *)

Lemma producer_enabled its g p cs q got :
  pinv its g p cs q got -> (m g = false \/ pm p = 1%nat) -> pasleep p = 0%nat -> p <> p1 [] ->
  exists o, o ∈ producer max fill p g.
Proof.
  intros [M Le Nu Ma Hb Hf Hus Hpk Hck Hit Hact Hwc Hwp] Hm Ha Hp.
  destruct p as [[|v vs]|v vs|v vs|v vs|v vs|v vs|v vs f|v vs|v vs f|v vs|v vs n|vs|vs]; simpl in *; try done;
    try (destruct Hm as [-> |?]; [|done]); try (eexists; by left).
  destruct Hpk as [_ ->]. pose proof (Z.mod_pos_bound (Z.of_nat (length got + length q)) max Hmax).
  rewrite Le, (proj2 (Z.leb_le _ _)), (proj2 (Z.ltb_lt _ _)) by lia. eexists. by left.
Qed.

Lemma consumer_enabled its g p cs q got x :
  pinv its g p cs q got -> x ∈ cs -> (m g = false \/ cm x = 1%nat) -> casleep x = 0%nat -> x <> c1 (-1) ->
  exists o, o ∈ consumer max empty x g.
Proof.
  intros [M Le Nu Ma Hb Hf Hus Hpk Hck Hit Hact Hwc Hwp] Hx Hm Ha Hd. specialize (Hck x Hx).
  destruct x as [t| | | | | |u|t|t u|t|t n|t|t]; simpl in *; try done;
    try (destruct Hm as [-> |?]; [|done]); try (eexists; by left).
  - destruct (Z.eqb_spec t (-1)) as [->|]; [done|]. eexists. by left.
  - destruct Hck as [Hq ->]. destruct q as [|v q]; [done|].
    specialize (Hb 0%nat v eq_refl). rewrite Nat.add_0_r in Hb. unfold cell in Hb. rewrite Hb.
    pose proof (Z.mod_pos_bound (Z.of_nat (length got)) max Hmax).
    rewrite (proj2 (Z.leb_le _ _)) by lia. eexists. by left.
Qed.

Lemma producer_moves g p cs k o :
  o ∈ producer max fill p g -> exists i c', c' ∈ moves (pc_program max empty fill) i (conf_of g p cs k).
Proof.
  destruct o as [[g' y] s]. intros H. exists 0%nat. apply (act_moves _ 0 _ (Prod p) g' (Prod y) s); [done|].
  simpl. apply list_elem_of_fmap. by exists (g', y, s).
Qed.
Lemma consumer_moves g p cs k j x o :
  cs !! j = Some x -> o ∈ consumer max empty x g ->
  exists i c', c' ∈ moves (pc_program max empty fill) i (conf_of g p cs k).
Proof.
  destruct o as [[g' y] s]. intros Hj H. exists (S j). apply (act_moves _ (S j) _ (Cons x) g' (Cons y) s).
  - simpl. by rewrite list_lookup_fmap, Hj.
  - simpl. apply list_elem_of_fmap. by exists (g', y, s).
Qed.

Definition idle (x : cphase) : bool := match x with c_asleep => true | c1 t => t =? -1 | _ => false end.

Lemma cv_sum_none {A} (f : A -> nat) (h : A -> bool) l :
  (forall x, h x = true -> f x = 0%nat) -> forallb h l = true -> sum_list_with f l = 0%nat.
Proof.
  intros Hf. induction l as [|x l IH]; simpl; [done|]. intros [Hx Hl]%andb_true_iff. rewrite Hf by done. auto.
Qed.

Lemma last_marker (its a b : list Z) : last its = Some (-1) -> a ++ b = its -> b <> [] -> (0 < markers b)%nat.
Proof.
  intros Hl <- Hb. apply markers_pos. rewrite last_app in Hl. destruct (last b) as [v|] eqn:E.
  - injection Hl as ->. by apply last_Some_elem_of.
  - by apply last_None in E.
Qed.

Lemma idle_state its g p cs q got :
  last its = Some (-1) -> pinv its g p cs q got -> forallb idle cs = true -> pasleep p = 1%nat \/ p = p1 [] ->
  p = p1 [] /\ sum_list_with casleep cs = 0%nat.
Proof.
  intros Hl [M Le Nu Ma Hb Hf Hus Hpk Hck Hit Hact Hwc Hwp] Hid Hp.
  assert (sum_list_with cawake cs = 0%nat) as H1.
  { eapply cv_sum_none; [|exact Hid]. by intros []; simpl; try done; intros ->. }
  assert (sum_list_with csig cs = 0%nat) as H2 by (eapply cv_sum_none; [|exact Hid]; by intros []).
  assert (sum_list_with casleep cs <= sum_list_with active cs)%nat as H3.
  { apply sum_le. intros []; simpl; try lia. }
  assert (psig p = 0%nat) as H4 by (destruct Hp as [Hp| ->]; [by destruct p|done]).
  destruct (sum_list_with casleep cs) as [|n] eqn:Ec.
  - split; [|done]. destruct Hp as [Hp|]; [|done]. exfalso.
    assert (sum_list_with active cs = 0%nat) as H5.
    { assert (forall x, idle x = true -> (active x <= casleep x)%nat) as Hx by (intros []; simpl; try done; by intros ->).
      clear -Hid Ec Hx. induction cs as [|x cs IH]; simpl in *; [done|]. apply andb_true_iff in Hid as [Hi1 Hi2].
      specialize (Hx x Hi1). rewrite IH by (done || lia). lia. }
    assert (0 < markers (q ++ pend p))%nat; [|lia].
    apply (last_marker its got); [done|done|]. destruct p; try done. by destruct q.
  - exfalso. assert (length q = 0%nat) as Hq by lia. apply length_zero_iff_nil in Hq as ->.
    destruct Hp as [Hp| ->]; [simpl in *; lia|]. simpl in *. unfold markers in Hact. simpl in Hact. lia.
Qed.

Lemma idle_joined cs :
  forallb idle cs = true -> sum_list_with casleep cs = 0%nat -> forallb returned (Cons <$> cs) = true.
Proof.
  induction cs as [|x cs IH]; [done|]. simpl. intros [Hi1 Hi2]%andb_true_iff Hs.
  apply andb_true_iff. split; [by destruct x|]. apply IH; [done|lia].
Qed.

Lemma joined_inactive cs : forallb returned (Cons <$> cs) = true -> sum_list_with active cs = 0%nat.
Proof.
  induction cs as [|x cs IH]; [done|]. simpl. intros [H1 H2]%andb_true_iff.
  rewrite (IH H2). destruct x; try done. simpl in *. by rewrite H1.
Qed.

(** Some thread moves unless all have returned. *)
Lemma cv_progress its g p cs q got k :
  last its = Some (-1) -> pinv its g p cs q got -> all_joined (conf_of g p cs k) = false ->
  exists i c', c' ∈ moves (pc_program max empty fill) i (conf_of g p cs k).
Proof.
  intros Hl Hi Hj. pose proof (i_mutex _ _ _ _ _ _ Hi) as HM.
  destruct (m g) eqn:Em.
  - destruct (decide (pm p = 1%nat)) as [Hp|Hp].
    + destruct (producer_enabled _ _ _ _ _ _ Hi) as [o Ho]; [by right|by destruct p|by destruct p|]. by eapply producer_moves.
    + destruct (sum_pos cm cs) as (j & x & Hx & Hc); [lia|]. pose proof (sum_ge cm cs j x Hx).
      destruct (consumer_enabled _ _ _ _ _ _ x Hi) as [o Ho]; [by eapply list_elem_of_lookup_2|right; lia|by destruct x; simpl in *; try lia|
        by intros ->; simpl in *; lia|]. by eapply consumer_moves.
  - destruct (forallb idle cs) eqn:Hid.
    + assert ((pasleep p = 1%nat \/ p = p1 []) \/ (pasleep p = 0%nat /\ p <> p1 [])) as [Hp|[Ha Hp]]
        by (destruct p as [[|]| | | | | | | | | | | |]; simpl; auto).
      * destruct (idle_state _ _ _ _ _ _ Hl Hi Hid Hp) as [-> Hs]. exfalso.
        assert (all_joined (conf_of g (p1 []) cs k) = true) as E; [|congruence].
        unfold all_joined. simpl. by apply idle_joined.
      * destruct (producer_enabled _ _ _ _ _ _ Hi) as [o Ho]; [by left|done|done|]. by eapply producer_moves.
    + assert (exists x, x ∈ cs /\ idle x = false) as (x & Hx & Hx').
      { clear -Hid. induction cs as [|x cs IH]; simpl in *; [done|]. destruct (idle x) eqn:E.
        - destruct IH as (z & Hz & ?); [done|]. exists z. split; [by right|done].
        - exists x. split; [by left|done]. }
      destruct (consumer_enabled _ _ _ _ _ _ x Hi) as [o Ho]; [done|by left|by destruct x|by intros ->|].
      apply list_elem_of_lookup in Hx as [j Hx]. by eapply consumer_moves.
Qed.

(** ** The whole program *)

Lemma cv_init_inv loops consumers :
  pinv (items loops consumers) (glob (pc_main max loops consumers 0)) (p1 (items loops consumers))
    (replicate consumers (c1 0)) [] [].
Proof.
  assert (forall f : cphase -> nat, sum_list_with f (replicate consumers (c1 0)) = (consumers * f (c1 0))%nat) as Hs.
  { intros f. induction consumers as [|n IH]; simpl; [done|]. lia. }
  constructor; rewrite ?Hs; simpl; rewrite ?Nat.mul_0_r, ?length_replicate; try done; try lia.
  - by intros c [-> _]%elem_of_replicate.
  - rewrite markers_items. lia.
Qed.

Lemma pc_main_conf loops consumers k :
  pc_main max loops consumers k =
    conf_of (glob (pc_main max loops consumers 0)) (p1 (items loops consumers)) (replicate consumers (c1 0)) k.
Proof. unfold pc_main, conf_of. by rewrite fmap_replicate. Qed.

Lemma pc_reach its n c g p cs q got k l :
  pinv its g p cs q got -> exec max empty fill n (conf_of g p cs k) l c ->
  exists g' p' cs' k' q', c = conf_of g' p' cs' k' /\ pinv its g' p' cs' q' (got ++ l) /\
    (n + rank p' cs' q' k' <= rank p cs q k)%nat.
Proof.
  intros Hi Hn. remember (conf_of g p cs k) as c0 eqn:E0. revert g p cs q got k Hi E0.
  induction Hn as [c|n c c1' c2' l Hst Hn IH]; intros g p cs q got k Hi ->.
  - exists g, p, cs, k, q. rewrite app_nil_r. split_and!; [done|done|lia].
  - apply pc_cases in Hst as (g1' & p1' & cs1 & k1 & -> & Hst).
    destruct (pc_step _ _ _ _ _ _ _ _ _ _ _ Hi Hst) as (q1 & Hi1 & Hr).
    destruct (IH _ _ _ _ _ _ Hi1 eq_refl) as (g' & p' & cs' & k' & q' & -> & Hi' & Hr').
    exists g', p', cs', k', q'. rewrite <- app_assoc in Hi'. split_and!; [done|done|lia].
Qed.

(** Where all have returned everything has been taken. *)
Lemma pc_final its g p cs q got k :
  last its = Some (-1) -> pinv its g p cs q got -> all_joined (conf_of g p cs k) = true -> q = [] /\ got = its.
Proof.
  intros Hl [M Le Nu Ma Hb Hf Hus Hpk Hck Hit Hact Hwc Hwp] Hj. unfold all_joined in Hj. simpl in Hj.
  apply andb_true_iff in Hj as [Hp Hcs]. destruct p as [[|v vs]| | | | | | | | | | | |]; try done. simpl in *.
  pose proof (joined_inactive cs Hcs) as Ha.
  rewrite app_nil_r in *. destruct (decide (q = [])) as [->|Hq]; [by rewrite app_nil_r in Hit|].
  pose proof (last_marker its got q Hl Hit Hq). lia.
Qed.

Lemma joined_free its g p cs q got k : pinv its g p cs q got -> all_joined (conf_of g p cs k) = true -> m g = false.
Proof.
  intros [M _ _ _ _ _ _ _ _ _ _ _ _] [Hp Hcs]%andb_true_iff. simpl in *.
  assert (sum_list_with cm cs = 0%nat) as E.
  { clear -Hcs. induction cs as [|x cs IH]; [done|]. apply andb_true_iff in Hcs as [H1 H2]. simpl. rewrite (IH H2). by destruct x. }
  assert (pm p = 0%nat) by (by destruct p). destruct (m g); [lia|done].
Qed.
End inv.

Lemma initial_rank loops consumers k :
  (rank (p1 (items loops consumers)) (replicate consumers (c1 0)) [] k =
    80 * (Z.to_nat loops + consumers) + 13 * consumers + 14 * k)%nat.
Proof.
  unfold rank. simpl pend. rewrite app_nil_l, length_items. cbn [prank]. rewrite length_items.
  assert (sum_list_with crank (replicate consumers (c1 0)) = (13 * consumers)%nat) as ->; [|lia].
  induction consumers as [|n IH]; [done|]. simpl. lia.
Qed.

(** ** Schedules *)

(** An execution by a schedule: which thread moves, and which of its outcomes is taken. *)
Fixpoint run_exec (max : Z) (empty fill : cond) (sched : list (nat * nat)) (c : cconf globals tphase) :
  option (list Z * cconf globals tphase) :=
  match sched with
  | [] => Some ([], c)
  | (i, o) :: sched' =>
      match moves (pc_program max empty fill) i c !! o with
      | None => None
      | Some c' =>
          match run_exec max empty fill sched' c' with
          | None => None
          | Some (l, c'') => Some (took (thr c) (thr c') ++ l, c'')
          end
      end
  end.

Lemma run_exec_ok max empty fill sched c l c' :
  run_exec max empty fill sched c = Some (l, c') -> exec max empty fill (length sched) c l c'.
Proof.
  revert c l. induction sched as [|[i o] sched IH]; intros c l; simpl; [intros [= <- <-]; constructor|].
  destruct (moves _ i c !! o) as [c1'|] eqn:E; [|done].
  destruct (run_exec _ _ _ sched c1') as [[l1 c2']|] eqn:E1; [|done]. intros [= <- <-].
  econstructor; [|by apply IH]. eapply cv_act. by eapply list_elem_of_lookup_2.
Qed.

Lemma movable_ok max empty fill c : can_move max empty fill c -> movable max empty fill c = true.
Proof.
  intros (i & c' & Hc). apply existsb_exists. exists i. split.
  - apply in_seq. apply moves_cases in Hc as (t & ? & ? & ? & ? & Hi & _). apply lookup_lt_Some in Hi. lia.
  - destruct (moves _ i c); [by apply elem_of_nil in Hc|done].
Qed.

(** A check of the configuration a schedule ends in. *)
Lemma run_exec_check (P : cconf globals tphase -> bool) max empty fill sched c0 l c :
  match run_exec max empty fill sched c0 with Some (_, c') => P c' | None => true end = true ->
  run_exec max empty fill sched c0 = Some (l, c) -> P c = true.
Proof. intros H E. by rewrite E in H. Qed.
