(* ===== verification/Zemaphore.v ===== *)
(** * Semaphores from a mutex and a condition variable (threads-sema/zemaphore.h)

    The type Zem_t and its operations, used by any number of threads.  A client
    is the list of the operations it makes; zemaphore.c is a parent that waits
    and a child that posts.  Every access to [value] is a step of its own.  The
    specification is the counting semaphore of the threads library, on which an
    operation is one step.  [value] is an int, at most the initial value and one
    more for every post: the model is that of programs in which this sum stays
    below 2^31.  The second part has the invariant of all interleavings. *)
From S2P Require Import Prelude Threads ProdCons CondVar.

Record Zem_t := mkZem { value : Z; lock : bool }.
Definition set_value v z := mkZem v (lock z).
Definition set_lock b z := mkZem (value z) b.

Inductive zop := ZWait | ZPost.

(** Where a thread is; [k] are the operations that follow. *)
Inductive zphase :=
| z_start (ops : list zop)             (* between operations; Mutex_lock of the next *)
| w_test (k : list zop)                (* while (z->value <= 0) *)
| w_sleep (k : list zop)               (* Cond_wait: release and sleep *)
| w_asleep (k : list zop)
| w_woken (k : list zop)               (* Cond_wait: take the mutex again *)
| w_load (k : list zop) | w_store (v : Z) (k : list zop)    (* z->value-- *)
| w_unlock (k : list zop)
| q_load (k : list zop) | q_store (v : Z) (k : list zop)    (* z->value++ *)
| q_signal (k : list zop)
| q_unlock (k : list zop).

Definition the_cond : cond := 0%nat.

Definition Zem_init (v : Z) : Zem_t := mkZem v false.

Definition Zem_wait (x : zphase) (z : Zem_t) : list (Zem_t * zphase * option cond) :=
  match x with
  | z_start (ZWait :: k) => if lock z then [] else [(set_lock true z, w_test k, None)]
  | w_test k => [(z, if value z <=? 0 then w_sleep k else w_load k, None)]
  | w_sleep k => [(set_lock false z, w_asleep k, None)]
  | w_woken k => if lock z then [] else [(set_lock true z, w_test k, None)]
  | w_load k => [(z, w_store (value z) k, None)]
  | w_store v k => [(set_value (v - 1) z, w_unlock k, None)]
  | w_unlock k => [(set_lock false z, z_start k, None)]
  | _ => []
  end.

Definition Zem_post (x : zphase) (z : Zem_t) : list (Zem_t * zphase * option cond) :=
  match x with
  | z_start (ZPost :: k) => if lock z then [] else [(set_lock true z, q_load k, None)]
  | q_load k => [(z, q_store (value z) k, None)]
  | q_store v k => [(set_value (v + 1) z, q_signal k, None)]
  | q_signal k => [(z, q_unlock k, Some the_cond)]
  | q_unlock k => [(set_lock false z, z_start k, None)]
  | _ => []
  end.

Definition zem_program : program Zem_t zphase :=
  mkProgram (fun x z => Zem_wait x z ++ Zem_post x z)
    (fun x => match x with w_asleep _ => Some the_cond | _ => None end)
    (fun x => match x with w_asleep k => w_woken k | _ => x end).

(** Threads with the scripts [ss] on a semaphore with initial value [v]. *)
Definition zem_main (v : Z) (ss : list (list zop)) (k : nat) : cconf Zem_t zphase :=
  mkConf (Zem_init v) (z_start <$> ss) k.

(** zemaphore.c: the parent waits for the child. *)
Definition zemaphore_c : list (list zop) := [[ZWait]; [ZPost]].

(** ** Specification *)

(** A semaphore: the operations take effect one after the other. *)
Definition sem_do (o : zop) (v : Z) : option Z :=
  match o with
  | ZWait => if 0 <? v then Some (v - 1) else None
  | ZPost => Some (v + 1)
  end.

Fixpoint sem_run (l : list zop) (v : Z) : option Z :=
  match l with
  | [] => Some v
  | o :: l' => sem_do o v ≫= sem_run l'
  end.

(** The operations that take effect in a step, with their threads: value-- and
    value++ are stored. *)
Definition effect_one (a b : zphase) : list zop :=
  match a, b with
  | w_store _ _, w_unlock _ => [ZWait]
  | q_store _ _, q_signal _ => [ZPost]
  | _, _ => []
  end.

Fixpoint effects (i : nat) (ts ts' : list zphase) : list (nat * zop) :=
  match ts, ts' with
  | a :: r, b :: r' => ((pair i) <$> effect_one a b) ++ effects (S i) r r'
  | _, _ => []
  end.

Inductive zexec : nat -> cconf Zem_t zphase -> list (nat * zop) -> cconf Zem_t zphase -> Prop :=
| zexec_nil c : zexec 0 c [] c
| zexec_cons n c c' c'' l :
    cvstep zem_program c c' -> zexec n c' l c'' -> zexec (S n) c (effects 0 (thr c) (thr c') ++ l) c''.

(** The operations of thread [i]. *)
Fixpoint of_thread (i : nat) (l : list (nat * zop)) : list zop :=
  match l with
  | [] => []
  | (j, o) :: l' => if (j =? i)%nat then o :: of_thread i l' else of_thread i l'
  end.

(** The operations of a thread that have not taken effect yet. *)
Definition todo (x : zphase) : list zop :=
  match x with
  | z_start ops => ops
  | w_test k | w_sleep k | w_asleep k | w_woken k | w_load k | w_store _ k => ZWait :: k
  | q_load k | q_store _ k => ZPost :: k
  | w_unlock k | q_signal k | q_unlock k => k
  end.

Definition zreturned (x : zphase) : Prop := x = z_start [].

(** * The invariant of the semaphore of zemaphore.h

    While threads sleep, the value is at most the number of the threads that are
    awake in Zem_wait and of the signals still to be sent; so no wakeup is lost. *)

Definition holds x : nat := match x with z_start _ | w_asleep _ | w_woken _ => 0 | _ => 1 end.
Definition zasleep x : nat := match x with w_asleep _ => 1 | _ => 0 end.
Definition awake x : nat :=
  match x with w_test _ | w_sleep _ | w_woken _ | w_load _ | w_store _ _ | q_signal _ => 1 | _ => 0 end.

Definition knows (z : Zem_t) x : Prop :=
  match x with
  | w_sleep _ => value z <= 0
  | w_load _ => 0 < value z
  | w_store v _ => 0 < value z /\ v = value z
  | q_store v _ => v = value z
  | _ => True
  end.

Record zinv (v0 : Z) (ss : list (list zop)) (z : Zem_t) (ts : list zphase) (l : list (nat * zop)) : Prop := mk_zinv {
  z_lock : (sum_list_with holds ts = if lock z then 1 else 0)%nat;
  z_value : sem_run l.*2 v0 = Some (value z);
  z_len : length ts = length ss;
  z_script i x : ts !! i = Some x -> ss !! i = Some (of_thread i l ++ todo x);
  z_knows x : x ∈ ts -> knows z x;
  z_wake : (0 < sum_list_with zasleep ts)%nat -> value z <= Z.of_nat (sum_list_with awake ts) }.

Lemma sem_run_app l1 l2 v : sem_run (l1 ++ l2) v = sem_run l1 v ≫= sem_run l2.
Proof. revert v. induction l1 as [|o l1 IH]; intros v; simpl; [done|]. destruct (sem_do o v); simpl; [apply IH|done]. Qed.

Lemma of_thread_app i l1 l2 : of_thread i (l1 ++ l2) = of_thread i l1 ++ of_thread i l2.
Proof. induction l1 as [|[j o] l1 IH]; simpl; [done|]. destruct (_ =? _)%nat; by rewrite IH. Qed.

Lemma of_thread_self i os : of_thread i (pair i <$> os) = os.
Proof. induction os as [|o os IH]; [done|]. rewrite fmap_cons. cbn [of_thread]. by rewrite Nat.eqb_refl, IH. Qed.

Lemma of_thread_other i j os : j <> i -> of_thread i (pair j <$> os) = [].
Proof.
  intros H. induction os as [|o os IH]; [done|]. rewrite fmap_cons. cbn [of_thread].
  by rewrite (proj2 (Nat.eqb_neq j i)).
Qed.

Lemma pairs_snd (i : nat) (os : list zop) : (pair i <$> os).*2 = os.
Proof. induction os as [|o os IH]; [done|]. rewrite !fmap_cons. by rewrite IH. Qed.

Lemma effects_same i ts : effects i ts ts = [].
Proof. revert i. induction ts as [|x ts IH]; intros i; [done|]. simpl. rewrite IH. by destruct x. Qed.

Lemma effects_insert n ts i x y :
  ts !! i = Some x -> effects n ts (<[i := y]> ts) = pair (n + i)%nat <$> effect_one x y.
Proof.
  revert n i. induction ts as [|z ts IH]; intros n [|i] Hi; simplify_eq/=.
  - by rewrite effects_same, app_nil_r, Nat.add_0_r.
  - rewrite (IH (S n) i Hi). replace (n + S i)%nat with (S n + i)%nat by lia. by destruct z.
Qed.

Lemma effects_two ts j i x x' y y' :
  ts !! j = Some x -> ts !! i = Some x' -> j <> i -> effect_one x y = [] -> effect_one x' y' = [] ->
  effects 0 ts (<[i := y']> (<[j := y]> ts)) = [].
Proof.
  generalize 0%nat. revert j i. induction ts as [|z ts IH]; intros [|j] [|i] n Hj Hi Hne E E'; simplify_eq/=.
  - by rewrite E, (effects_insert (S n) ts i x' y' Hi), E'.
  - by rewrite E', (effects_insert (S n) ts j x y Hj), E.
  - rewrite (IH j i (S n)) by (done || congruence). by destruct z.
Qed.

(** A thread moves; the operation it was at may take effect. *)
Lemma z_move v0 ss z ts l i x z' y :
  zinv v0 ss z ts l -> ts !! i = Some x ->
  ((if lock z' then 1 else 0) + holds x = (if lock z then 1 else 0) + holds y)%nat ->
  sem_run (effect_one x y) (value z) = Some (value z') -> todo x = effect_one x y ++ todo y -> knows z' y ->
  (value z' = value z \/ holds x = 1%nat) ->
  ((0 < sum_list_with zasleep (<[i := y]> ts))%nat -> value z' <= Z.of_nat (sum_list_with awake (<[i := y]> ts))) ->
  zinv v0 ss z' (<[i := y]> ts) (l ++ effects 0 ts (<[i := y]> ts)).
Proof.
  intros [L V Le S K W] Hi El Ev Et Ky Ho Hw. rewrite (effects_insert 0 ts i x y Hi). simpl.
  pose proof (sum_insert holds ts i x y Hi). constructor; try done; try lia.
  - rewrite fmap_app, sem_run_app, V. simpl. by rewrite pairs_snd.
  - by rewrite length_insert.
  - intros j t Hj. rewrite of_thread_app. destruct (decide (j = i)) as [->|Hne].
    + rewrite list_lookup_insert_eq in Hj by (by eapply lookup_lt_Some). injection Hj as <-.
      rewrite of_thread_self, <- app_assoc, <- Et. by apply S.
    + rewrite list_lookup_insert_ne in Hj by done. rewrite of_thread_other, app_nil_r by done. by apply S.
  - intros t Ht. destruct (elem_insert ts i x y t Hi Ht) as [->|(j & Hne & Hj)]; [done|].
    pose proof (K t ltac:(by eapply list_elem_of_lookup_2)) as Kt. destruct Ho as [Ho|Ho].
    + by destruct t; simpl in *; rewrite ?Ho.
    + pose proof (sum_ge2 holds ts i j x t Hi Hj ltac:(done)). assert (holds t = 0%nat) by (destruct (lock z); lia).
      by destruct t.
Qed.

(** ** The steps *)

Definition zact (x : zphase) (z : Zem_t) := Zem_wait x z ++ Zem_post x z.

Inductive zstep (z : Zem_t) (ts : list zphase) (k : nat) : Zem_t -> list zphase -> nat -> Prop :=
| zs_act i x z' y : ts !! i = Some x -> (z', y, None) ∈ zact x z -> zstep z ts k z' (<[i := y]> ts) k
| zs_none i r : ts !! i = Some (q_signal r) -> sum_list_with zasleep ts = 0%nat ->
    zstep z ts k z (<[i := q_unlock r]> ts) k
| zs_wake i r j r' : ts !! i = Some (q_signal r) -> ts !! j = Some (w_asleep r') ->
    zstep z ts k z (<[j := w_woken r']> (<[i := q_unlock r]> ts)) k
| zs_spurious j r n : ts !! j = Some (w_asleep r) -> k = S n -> zstep z ts k z (<[j := w_woken r]> ts) n.

Lemma zact_signals x z z' y s : (z', y, Some s) ∈ zact x z -> exists r, x = q_signal r /\ y = q_unlock r /\ z' = z.
Proof.
  unfold zact. intros H.
  destruct x as [[|[] r]|r|r|r|r|r|v r|r|r|v r|r|r]; cbn [Zem_wait Zem_post app] in H; rewrite ?app_nil_r in H;
    try (by apply elem_of_nil in H); try (destruct (lock z); [by apply elem_of_nil in H|]);
    apply list_elem_of_singleton in H; simplify_eq; eauto.
Qed.

Lemma zasleep_none ts : (forall t, t ∈ ts -> asleep zem_program t <> Some the_cond) -> sum_list_with zasleep ts = 0%nat.
Proof.
  induction ts as [|x ts IH]; intros H; [done|]. simpl. rewrite IH by (intros t Ht; apply H; by right).
  destruct x; try done. exfalso. eapply H; [by left|done].
Qed.

Lemma zem_asleep x cv : asleep zem_program x = Some cv -> exists r, x = w_asleep r.
Proof. destruct x; simpl; try done. eauto. Qed.

Lemma zem_cases z ts k c' :
  cvstep zem_program (mkConf z ts k) c' -> exists z' ts' k', c' = mkConf z' ts' k' /\ zstep z ts k z' ts' k'.
Proof.
  inversion 1 as [i c c1 Hm|i t cv g0 ts0 n Hi Ht]; subst.
  - apply moves_cases in Hm as (t & z' & t' & s & ts' & Hi & Ha & Hs & ->). simpl in Hi, Ha, Hs.
    exists z', ts', k. split; [done|]. destruct s as [cv|].
    + pose proof Ha as Ha'. apply zact_signals in Ha' as (r & -> & -> & ->).
      assert (cv = the_cond) as -> by (by apply list_elem_of_singleton in Ha; simplify_eq).
      apply signal_cases in Hs as [[-> Hn]|(j & t & Hj & Ht & ->)].
      * apply zs_none; [done|]. pose proof (sum_insert zasleep ts i _ (q_unlock r) Hi).
        pose proof (zasleep_none _ Hn). simpl in *. lia.
      * apply zem_asleep in Ht as [r' ->]. apply zs_wake; [done|].
        destruct (decide (j = i)) as [->|Hne]; [|by rewrite list_lookup_insert_ne in Hj].
        rewrite list_lookup_insert_eq in Hj by (by eapply lookup_lt_Some). done.
    + apply list_elem_of_singleton in Hs as ->. by eapply zs_act.
  - apply zem_asleep in Ht as [r ->]. exists z, (<[i := w_woken r]> ts), n. split.
    + unfold wake_at. by rewrite Hi.
    + by apply zs_spurious.
Qed.

Definition zrank (x : zphase) : nat :=
  let rest k := (40 * length k)%nat in
  match x with
  | z_start k => rest k
  | w_test k => 39 + rest k | w_sleep k => 38 + rest k | w_asleep k => 20 + rest k | w_woken k => 40 + rest k
  | w_load k => 38 + rest k | w_store _ k => 37 + rest k | w_unlock k => 1 + rest k
  | q_load k => 39 + rest k | q_store _ k => 38 + rest k | q_signal k => 30 + rest k | q_unlock k => 1 + rest k
  end.
Definition zrank_all (ts : list zphase) (k : nat) : nat := sum_list_with zrank ts + 21 * k.

Lemma z_act v0 ss z ts l i x z' y :
  zinv v0 ss z ts l -> ts !! i = Some x -> (z', y, None) ∈ zact x z ->
  zinv v0 ss z' (<[i := y]> ts) (l ++ effects 0 ts (<[i := y]> ts)) /\ (zrank y < zrank x)%nat.
Proof.
  intros Hi Hx Hin. pose proof Hi as [L V Le S K W]. specialize (K x ltac:(by eapply list_elem_of_lookup_2)).
  pose proof (sum_insert zasleep ts i x y Hx). pose proof (sum_insert awake ts i x y Hx).
  pose proof (sum_ge holds ts i x Hx) as Hh. unfold zact in Hin.
  destruct x as [[|[] r]|r|r|r|r|r|v r|r|r|v r|r|r]; cbn [Zem_wait Zem_post app] in Hin; rewrite ?app_nil_r in Hin;
    try (by apply elem_of_nil in Hin);
    try (destruct (lock z) eqn:El; [by apply elem_of_nil in Hin|]); apply list_elem_of_singleton in Hin; simplify_eq;
    cbn [holds zasleep awake knows] in *;
    try match goal with |- context [value z <=? 0] => destruct (Z.leb_spec (value z) 0) end; cbn [holds zasleep awake knows] in *;
    (split; [|simpl; lia]);
    (eapply z_move; [exact Hi|exact Hx| | | | | | ]); simpl; rewrite ?El; try done; try tauto; try lia.
  all: try (destruct (lock z); [done|lia]).
  - destruct K as [Hp ->]. by rewrite (proj2 (Z.ltb_lt _ _)) by done.
  - by rewrite K.
Qed.

(** A sleeper wakes up. *)
Lemma z_wake_up v0 ss z ts l j r :
  zinv v0 ss z ts l -> ts !! j = Some (w_asleep r) ->
  zinv v0 ss z (<[j := w_woken r]> ts) (l ++ effects 0 ts (<[j := w_woken r]> ts)).
Proof.
  intros Hi Hj. pose proof (z_wake _ _ _ _ _ Hi).
  pose proof (sum_insert zasleep ts j _ (w_woken r) Hj). pose proof (sum_insert awake ts j _ (w_woken r) Hj).
  simpl in *. eapply z_move; try done; simpl; lia.
Qed.

(** The signal is sent: to nobody when nobody sleeps, or a sleeper is awake now. *)
Lemma z_sent v0 ss z ts l i r :
  zinv v0 ss z ts l -> ts !! i = Some (q_signal r) ->
  ((0 < sum_list_with zasleep ts)%nat -> value z + 1 <= Z.of_nat (sum_list_with awake ts)) ->
  zinv v0 ss z (<[i := q_unlock r]> ts) (l ++ effects 0 ts (<[i := q_unlock r]> ts)).
Proof.
  intros Hi Hj Hw. pose proof (sum_insert zasleep ts i _ (q_unlock r) Hj).
  pose proof (sum_insert awake ts i _ (q_unlock r) Hj). simpl in *. eapply z_move; try done; simpl; lia.
Qed.

Lemma z_step v0 ss z ts l k z' ts' k' :
  zinv v0 ss z ts l -> zstep z ts k z' ts' k' ->
  zinv v0 ss z' ts' (l ++ effects 0 ts ts') /\ (zrank_all ts' k' < zrank_all ts k)%nat.
Proof.
  intros Hi [i x z1 y Hx Hin|i r Hx Ha|i r j r' Hx Hj|j r n Hj ->]; unfold zrank_all.
  - destruct (z_act _ _ _ _ _ _ _ _ _ Hi Hx Hin) as [Hi' Hr]. pose proof (sum_insert zrank ts i x y Hx).
    split; [done|lia].
  - pose proof (sum_insert zrank ts i _ (q_unlock r) Hx). simpl in *. split; [|lia]. apply z_sent; [done|done|lia].
  - assert (j <> i) as Hne by (intros ->; simplify_eq).
    pose proof (z_wake_up _ _ _ _ _ _ _ Hi Hj) as Hi'.
    pose proof (z_wake _ _ _ _ _ Hi). pose proof (sum_ge zasleep ts j _ Hj).
    pose proof (sum_insert awake ts j _ (w_woken r') Hj). pose proof (sum_insert zrank ts j _ (w_woken r') Hj).
    set (ts1 := <[j := w_woken r']> ts) in *.
    assert (ts1 !! i = Some (q_signal r)) as Hx1 by (subst ts1; by rewrite list_lookup_insert_ne).
    pose proof (sum_insert zrank ts1 i _ (q_unlock r) Hx1). simpl in *.
    rewrite list_insert_insert_ne by done. fold ts1. split; [|lia].
    pose proof (z_sent _ _ _ _ _ _ _ Hi' Hx1 ltac:(lia)) as Hi2.
    assert (effects 0 ts ts1 = []) as E1 by (subst ts1; by rewrite (effects_insert 0 ts j (w_asleep r'))).
    assert (effects 0 ts1 (<[i := q_unlock r]> ts1) = []) as E2 by (by rewrite (effects_insert 0 ts1 i (q_signal r))).
    rewrite E1, E2, !app_nil_r in Hi2. enough (effects 0 ts (<[i := q_unlock r]> ts1) = []) as -> by (by rewrite app_nil_r).
    by apply (effects_two ts j i (w_asleep r') (q_signal r)).
  - pose proof (sum_insert zrank ts j _ (w_woken r) Hj). simpl in *. split; [by apply z_wake_up|lia].
Qed.

Lemma z_enabled z x :
  (lock z = false \/ holds x = 1%nat) -> x <> z_start [] -> zasleep x = 0%nat -> exists o, o ∈ zact x z.
Proof.
  intros Hl Hx Ha. unfold zact.
  destruct x as [[|[] r]|r|r|r|r|r|v r|r|r|v r|r|r]; try done; cbn [Zem_wait Zem_post app];
    try (destruct Hl as [-> |]; [|done]); eexists; by left.
Qed.

Lemma z_moves z ts k i x :
  ts !! i = Some x -> (exists o, o ∈ zact x z) -> exists c', c' ∈ moves zem_program i (mkConf z ts k).
Proof. intros Hi [[[z' y] s] Ho]. by apply (act_moves zem_program i _ x z' y s). Qed.

(** A configuration in which no thread can move. *)
Lemma z_stopped v0 ss z ts l k :
  zinv v0 ss z ts l -> (forall i c', c' ∉ moves zem_program i (mkConf z ts k)) ->
  lock z = false /\ forall i x, ts !! i = Some x -> x = z_start [] \/ (exists r, x = w_asleep r) /\ value z <= 0.
Proof.
  intros [L V Le S K W] Hs.
  assert (forall i x, ts !! i = Some x -> (lock z = false \/ holds x = 1%nat) -> x = z_start [] \/ zasleep x = 1%nat) as Hx.
  { intros i x Hi Hl. destruct (decide (zasleep x = 1%nat)) as [|Ha]; [by right|].
    assert (x = z_start [] \/ x <> z_start []) as [|Hx] by (destruct x as [[]| | | | | | | | | | |]; auto); [by left|].
    exfalso. destruct (z_moves z ts k i x Hi) as [c' Hc]; [|by eapply Hs]. apply z_enabled; [done|done|by destruct x]. }
  assert (lock z = false) as Hl.
  { destruct (lock z) eqn:El; [|done]. destruct (sum_pos holds ts) as (i & x & Hi & Hh); [lia|].
    pose proof (sum_ge holds ts i x Hi). destruct (Hx i x Hi) as [->|Ha]; [right; lia|simpl in *; lia|].
    by destruct x; simpl in *; lia. }
  split; [done|]. intros i x Hi. destruct (Hx i x Hi) as [|Ha]; [by left|by left|].
  right. split; [destruct x; try done; eauto|].
  assert (sum_list_with awake ts = 0%nat) as Ea.
  { destruct (sum_list_with awake ts) eqn:E; [done|]. destruct (sum_pos awake ts) as (j & t & Hj & Ht); [lia|].
    destruct (Hx j t Hj) as [->|Ht']; [by left|simpl in *; lia|]. destruct t; simpl in *; lia. }
  pose proof (sum_ge zasleep ts i x Hi). lia.
Qed.

Lemma z_init v ss : zinv v ss (Zem_init v) (z_start <$> ss) [].
Proof.
  assert (forall f : zphase -> nat, (forall o, f (z_start o) = 0%nat) -> sum_list_with f (z_start <$> ss) = 0%nat) as Hs.
  { intros f Hf. induction ss as [|s ss' IH]; [done|]. rewrite fmap_cons. cbn [sum_list_with]. by rewrite Hf, IH. }
  constructor; rewrite ?Hs by done; try done.
  - by rewrite length_fmap.
  - intros i x (s & -> & Hi)%list_lookup_fmap_Some. done.
  - by intros x (s & -> & _)%list_elem_of_fmap.
  - lia.
Qed.

Lemma z_reach v0 ss n z ts k l0 l c :
  zinv v0 ss z ts l0 -> zexec n (mkConf z ts k) l c ->
  exists z' ts' k', c = mkConf z' ts' k' /\ zinv v0 ss z' ts' (l0 ++ l) /\
    (n + zrank_all ts' k' <= zrank_all ts k)%nat.
Proof.
  intros Hi Hn. remember (mkConf z ts k) as c0 eqn:E0. revert z ts k l0 Hi E0.
  induction Hn as [c|n c c1 c2 l Hst Hn IH]; intros z ts k l0 Hi ->.
  - exists z, ts, k. rewrite app_nil_r. split_and!; [done|done|lia].
  - apply zem_cases in Hst as (z1 & ts1 & k1 & -> & Hst).
    destruct (z_step _ _ _ _ _ _ _ _ _ Hi Hst) as [Hi1 Hr].
    destruct (IH _ _ _ _ Hi1 eq_refl) as (z' & ts' & k' & -> & Hi' & Hr').
    exists z', ts', k'. rewrite <- app_assoc in Hi'. split_and!; [done|done|lia].
Qed.

Lemma z_initial_rank ss k : (zrank_all (z_start <$> ss) k = 40 * length (concat ss) + 21 * k)%nat.
Proof.
  unfold zrank_all. f_equal. induction ss as [|s ss IH]; [done|]. rewrite fmap_cons. cbn [sum_list_with concat zrank].
  rewrite length_app. lia.
Qed.

(** ** Schedules *)

Fixpoint run_zexec (sched : list (nat * nat)) (c : cconf Zem_t zphase) : option (list (nat * zop) * cconf Zem_t zphase) :=
  match sched with
  | [] => Some ([], c)
  | (i, o) :: sched' =>
      match moves zem_program i c !! o with
      | None => None
      | Some c' =>
          match run_zexec sched' c' with
          | None => None
          | Some (l, c'') => Some (effects 0 (thr c) (thr c') ++ l, c'')
          end
      end
  end.

Lemma run_zexec_ok sched c l c' : run_zexec sched c = Some (l, c') -> zexec (length sched) c l c'.
Proof.
  revert c l. induction sched as [|[i o] sched IH]; intros c l; simpl; [intros [= <- <-]; constructor|].
  destruct (moves _ i c !! o) as [c1'|] eqn:E; [|done].
  destruct (run_zexec sched c1') as [[l1 c2']|] eqn:E1; [|done]. intros [= <- <-].
  econstructor; [|by apply IH]. eapply cv_act. by eapply list_elem_of_lookup_2.
Qed.
