(* ===== verification/CvThms.v ===== *)
(** * Theorems on the programs with condition variables

    Every property speaks of all interleavings, of any choice of the thread a
    signal wakes and of any number of spurious wakeups. *)
From S2P Require Import Prelude Threads CondVar ProdCons CvProdCons Zemaphore.

Lemma pc_can_move max its g p cs q got k :
  0 < max -> last its = Some (-1) -> pinv max its g p cs q got -> all_joined (conf_of g p cs k) = false ->
  can_move max empty fill (conf_of g p cs k).
Proof. intros Hm Hl Hi Hj. by eapply (cv_progress max empty fill Hm). Qed.

(** C7: The bounded buffer of pc.c with two condition variables delivers: for
    any size of the buffer, any number of rounds and of consumers and any number
    [k] of spurious wakeups, an execution has a bounded number of steps; as long
    as a thread has not returned some thread can move without a spurious wakeup,
    so no wakeup is lost; do_get returns the numbers in the order in which the
    producer put them; and when all threads have returned every number and
    every end marker has been taken exactly once, the buffer is empty and the
    mutex free. *)
Theorem cv_buffer_delivers max loops consumers k n l c :
  0 < max -> (0 < consumers)%nat -> exec max empty fill n (pc_main max loops consumers k) l c ->
  (n <= 80 * (Z.to_nat loops + consumers) + 13 * consumers + 14 * k)%nat /\
  (all_joined c = false -> can_move max empty fill c) /\
  l `prefix_of` items loops consumers /\
  (all_joined c = true -> l = items loops consumers /\ num_full (glob c) = 0 /\ m (glob c) = false).
Proof.
  intros Hm Hc. rewrite pc_main_conf. intros H.
  assert (empty <> fill) as Hcv by done.
  eapply (pc_reach max empty fill Hm Hcv) in H; [|by apply (cv_init_inv max empty fill)]. destruct H
    as (g & p & cs & k' & q & -> & I & Hr). simpl in I.
  pose proof (last_items loops consumers Hc) as Hl. split_and!.
  - pose proof (initial_rank loops consumers k). lia.
  - intros Hj. by eapply pc_can_move.
  - exists (q ++ pend p). symmetry. apply I.
  - intros Hj. destruct (pc_final max empty fill Hcv _ _ _ _ _ _ _ Hl I Hj) as [-> El]. split_and!; [done|apply I|].
    by eapply (joined_free max empty fill).
Qed.

(** A buffer of one cell, one number, one consumer: the consumer sleeps first
    and the producer's signal wakes it. *)
Definition sleepy : list (nat * nat) :=
  replicate 3 (1, 0)%nat ++ replicate 10 (0, 0)%nat ++ replicate 10 (1, 0)%nat ++
  replicate 10 (0, 0)%nat ++ replicate 10 (1, 0)%nat.

Lemma cv_buffer_delivers_witness :
  exists c, exec 1 empty fill 43 (pc_main 1 1 1 7) [0; -1] c /\ all_joined c = true /\ num_full (glob c) = 0.
Proof.
  destruct (run_exec 1 empty fill sleepy (pc_main 1 1 1 7)) as [[l c]|] eqn:E; [|by vm_compute in E].
  assert (all_joined c = true) as Hj.
  { revert E. apply (run_exec_check (fun c => all_joined c)). by vm_compute. }
  apply run_exec_ok in E. exists c.
  destruct (cv_buffer_delivers 1 1 1 7 43 l c ltac:(lia) ltac:(lia) E) as (_ & _ & _ & H).
  destruct (H Hj) as (-> & Hn & _). done.
Defined.

(** The consumers sleep; the producer puts a number, wakes the first consumer and
    sleeps; that consumer takes the number and wakes the other one. *)
Definition wrong_wakeup : list (nat * nat) :=
  replicate 3 (1, 0)%nat ++ replicate 3 (2, 0)%nat ++ replicate 13 (0, 0)%nat ++
  replicate 8 (1, 0)%nat ++ [(1, 1)%nat] ++ replicate 4 (1, 0)%nat ++ replicate 3 (2, 0)%nat.

(** C36: With the one condition variable of pc_single_cv.c the program deadlocks
    although no two threads ever hold the mutex: with one cell and two consumers
    a consumer's signal can wake the other consumer instead of the producer, and
    then all three threads sleep for ever. *)
Theorem single_cv_deadlocks :
  exists n l c, exec 1 cv cv n (pc_main 1 1 2 0) l c /\ all_joined c = false /\ spur c = 0%nat /\ ~ can_move 1 cv cv c.
Proof.
  destruct (run_exec 1 cv cv wrong_wakeup (pc_main 1 1 2 0)) as [[l c]|] eqn:E; [|by vm_compute in E].
  assert (all_joined c || movable 1 cv cv c || negb (spur c =? 0)%nat = false) as Hj.
  { apply negb_true_iff. revert E. apply (run_exec_check (fun c => negb (all_joined c || movable 1 cv cv c || negb (spur c =? 0)%nat))).
    by vm_compute. }
  apply run_exec_ok in E. exists (length wrong_wakeup), l, c.
  apply orb_false_iff in Hj as [[H1 H2]%orb_false_iff H3%negb_false_iff%Nat.eqb_eq].
  split_and!; [done|done|done|]. intros Hm%movable_ok. congruence.
Qed.

(** C18: Zem_wait and Zem_post of zemaphore.h refine the operations of a
    semaphore.  Whatever operations any number of threads make, the order in
    which their operations take effect is one in which a semaphore with the same
    initial value makes them, a wait only when the value is positive; every
    thread's operations take effect in its own order; the value is that of the
    semaphore.  No wakeup is lost: when no thread can move, the mutex is free and
    every thread has returned or is in a Zem_wait that has to wait, the value
    being 0 or less.  The operations end: the number of steps is bounded. *)
Theorem zemaphore_refines v ss k n l c :
  zexec n (zem_main v ss k) l c ->
  sem_run l.*2 v = Some (value (glob c)) /\
  (forall i x, thr c !! i = Some x -> ss !! i = Some (of_thread i l ++ todo x)) /\
  ((forall i c', c' ∉ moves zem_program i c) ->
    lock (glob c) = false /\
    forall i x, thr c !! i = Some x -> x = z_start [] \/ (exists r, x = w_asleep r) /\ value (glob c) <= 0) /\
  (n <= 40 * length (concat ss) + 21 * k)%nat.
Proof.
  intros H. destruct (z_reach v ss _ _ _ _ _ _ _ (z_init v ss) H) as (z & ts & k' & -> & I & Hr).
  rewrite z_initial_rank in Hr. split_and!; [apply I|apply I| |lia].
  intros Hs. by eapply z_stopped.
Qed.

(** zemaphore.c: the parent sleeps, the child wakes it. *)
Definition parent_first : list (nat * nat) :=
  (replicate 3 (0, 0) ++ replicate 5 (1, 0) ++ replicate 5 (0, 0))%nat.

Lemma zemaphore_refines_witness :
  exists c, zexec 13 (zem_main 0 zemaphore_c 0) [(1%nat, ZPost); (0%nat, ZWait)] c /\
    sem_run [ZPost; ZWait] 0 = Some (value (glob c)) /\ thr c = [z_start []; z_start []].
Proof.
  eexists. match goal with |- ?A /\ _ => assert A as H; [apply (run_zexec_ok parent_first); vm_compute; reflexivity|] end.
  split; [exact H|]. split; [|reflexivity]. exact (proj1 (zemaphore_refines _ _ _ _ _ _ H)).
Defined.
