(* ===== verification/UserFork.v ===== *)
(** * lib/fork.c and lib/pgfault.c of JOS: fork with copy-on-write

    The user library makes the child with system calls and marks the pages that
    both can write as copy-on-write; the page fault handler replaces such a page
    by a private copy.  The code runs in the environment [cur_env], whose
    directory is in CR3, and calls the models of the system calls directly; no
    other environment runs in between.  The local variables are not in memory:
    the faults that fork itself takes on its stack are not part of the model.

    A function that may panic returns [inl] of the message. *)
From S2P Require Import Prelude Mem Mmu Kstate Pmap Env Devices Syscall.

Definition PTE_COW : Z := 0x800.
Definition PTE_SHARE : Z := 0x400.
Definition FEC_WR : Z := 0x2.
Definition UTEXT : Z := 2 * PTSIZE.
Definition UTEMP : Z := PTSIZE.
Definition PFTEMP : Z := UTEMP + PTSIZE - PGSIZE.

(** ** User accesses to memory *)

(** The address an access in user mode reaches; [None] is a page fault. *)
Definition user_pa (s : kst) (va : Z) (store : bool) : option Z :=
  let need := if store then Z.lor (Z.lor PTE_P PTE_W) PTE_U else Z.lor PTE_P PTE_U in
  let pde := read32 (mem s) (PTE_ADDR (cr3 s) + 4 * PDX va) in
  if negb (Z.land pde need =? need) then None
  else
    let pte := read32 (mem s) (PTE_ADDR pde + 4 * PTX va) in
    if negb (Z.land pte need =? need) then None
    else Some (PTE_ADDR pte + PGOFF va).

(** A fault of the library itself does not return here. *)
Definition uload8 (va : Z) : K Z :=
  let! s := gets id in
  match user_pa s va false with
  | Some pa => ret (getb (mem s) pa)
  | None => undef
  end.

Definition ustore8 (va b : Z) : K unit :=
  let! s := gets id in
  match user_pa s va true with
  | Some pa => modify (set_mem (setb (mem s) pa b))
  | None => undef
  end.

Definition uload32 (va : Z) : K Z :=
  let! b0 := uload8 va in
  let! b1 := uload8 (va + 1) in
  let! b2 := uload8 (va + 2) in
  let! b3 := uload8 (va + 3) in
  ret (b0 + 2^8 * b1 + 2^16 * b2 + 2^24 * b3).

(** The page tables as the user sees them (lib/entry.S). *)
Definition uvpt (pn : Z) : K Z := uload32 (UVPT + 4 * pn).
Definition uvpd (i : Z) : K Z := uload32 (UVPT + Z.shiftr UVPT 12 * 4 + 4 * i).

(** memcpy between pages that do not overlap, byte by byte. *)
Fixpoint ucopy (dst src : Z) (n : nat) : K unit :=
  match n with
  | O => ret tt
  | S n' => let! b := uload8 src in ustore8 dst b ;;; ucopy (dst + 1) (src + 1) n'
  end.

(** ** User programs that may panic *)

Definition U (A : Type) : Type := K (string + A).

Definition ubind {A B} (x : U A) (f : A -> U B) : U B :=
  let! r := x in match r with inl msg => ret (inl msg) | inr a => f a end.
Definition uret {A} (a : A) : U A := ret (inr a).
Definition upanic {A} (msg : string) : U A := ret (inl msg).
(** A call, and one whose negative result is a panic. *)
Definition call {A} (x : K A) : U A := let! a := x in uret a.
Definition call_or_panic (x : K Z) (msg : string) : U Z :=
  let! r := x in if r <? 0 then upanic msg else uret r.

Notation "'let?' x := m 'in' k" := (ubind m (fun x => k))
  (at level 200, x pattern, m at level 100, k at level 200).

(** ** lib/fork.c *)

Definition pgfault (utf_fault_va utf_err : Z) : U unit :=
  let addr := utf_fault_va in
  let err := utf_err in
  let? ok := call (
    if negb (flag err FEC_WR) then ret false
    else
      let! pde := uvpd (PDX addr) in
      if negb (flag pde PTE_P) then ret false
      else
        let! pte := uvpt (PGNUM addr) in
        if negb (flag pte PTE_P) then ret false
        else
          let! pte' := uvpt (PGNUM addr) in
          ret (flag pte' PTE_COW)) in
  if negb ok then upanic "Neither the fault is a write nor COW page."
  else
    let? envid := call sys_getenvid in
    let? _ := call_or_panic (sys_page_alloc envid PFTEMP (Z.lor (Z.lor PTE_P PTE_W) PTE_U))
                "pgfault: page allocation fault" in
    let addr := ROUNDDOWN addr PGSIZE in
    let? _ := call (ucopy PFTEMP addr (Z.to_nat PGSIZE)) in
    let? _ := call_or_panic (sys_page_map envid PFTEMP envid addr (Z.lor (Z.lor PTE_P PTE_W) PTE_U))
                "pgfault: page map failed" in
    let? _ := call_or_panic (sys_page_unmap envid PFTEMP) "pgfault: page unmap failed" in
    uret tt.

(** [thisenv->env_id], read from the array of environments at UENVS. *)
Definition thisenv_id (thisenv : Z) : K Z := let! en := get_env thisenv in ret (env_id en).

Definition duppage (thisenv envid pn : Z) : K Z :=
  let va := u32 (pn * PGSIZE) in
  let! e := uvpt pn in
  if flag e PTE_SHARE then
    let! e' := uvpt pn in
    let! r := sys_page_map 0 va envid va (Z.land e' PTE_SYSCALL) in
    if r <? 0 then ret r else ret 0
  else
    let! cow :=
      (let! e := uvpt pn in
       if flag e PTE_W then ret true else let! e := uvpt pn in ret (flag e PTE_COW)) in
    if cow : bool then
      let! id := thisenv_id thisenv in
      let! r := sys_page_map id va envid va (Z.lor (Z.lor PTE_P PTE_U) PTE_COW) in
      if r <? 0 then ret r
      else
        let! id := thisenv_id thisenv in
        let! r := sys_page_map id va 0 va (Z.lor (Z.lor PTE_P PTE_U) PTE_COW) in
        if r <? 0 then ret r else ret 0
    else
      let! id := thisenv_id thisenv in
      let! r := sys_page_map id va envid va (Z.lor PTE_P PTE_U) in
      if r <? 0 then ret r else ret 0.

(** One round of the loop over the pages: [inr] leaves the loop, with the error
    to return if there is one. *)
Definition dup_round (thisenv envid pn : Z) : K (Z + option Z) :=
  if PGNUM USTACKTOP <=? pn then ret (inr None)
  else
    let! pde := uvpd (Z.shiftr pn 10) in
    if negb (flag pde PTE_P) then ret (inl (pn + 1))
    else
      let! pte := uvpt pn in
      if negb (flag pte PTE_P) then ret (inl (pn + 1))
      else
        let! r := duppage thisenv envid pn in
        if r <? 0 then ret (inr (Some r)) else ret (inl (pn + 1)).

Definition dup_loop (thisenv envid : Z) : K (option Z) :=
  loop (Z.to_nat (PGNUM USTACKTOP - PGNUM UTEXT) + 1) (dup_round thisenv envid) (PGNUM UTEXT).

(** lib/pgfault.c: [handler] is the pointer _pgfault_handler, which is 0 before
    the first call; the new one is returned. *)
Definition set_pgfault_handler (upcall handler new : Z) : K Z :=
  (if handler =? 0 then
     let! id := sys_getenvid in
     let! _ := sys_page_alloc id (UXSTACKTOP - PGSIZE) PTE_SYSCALL in
     let! id := sys_getenvid in
     let! _ := sys_env_set_pgfault_upcall id upcall in
     ret tt
   else ret tt) ;;;
  ret new.

(** fork once sys_exofork has returned [envid]; the value of fork and of
    [thisenv].  The child starts here with 0. *)
Definition fork_from (upcall thisenv envid : Z) : U (Z * Z) :=
  if envid <? 0 then upanic "sys_exofork failed"
  else if envid =? 0 then
    let? id := call sys_getenvid in
    uret (0, ENVX id)
  else
    let? e := call (dup_loop thisenv envid) in
    match e with
    | Some r => uret (r, thisenv)
    | None =>
        let? r := call (sys_page_alloc envid (UXSTACKTOP - PGSIZE) (Z.lor (Z.lor PTE_U PTE_P) PTE_W)) in
        if r <? 0 then uret (r, thisenv)
        else
          let? r := call (sys_env_set_pgfault_upcall envid upcall) in
          if r <? 0 then uret (r, thisenv)
          else
            let? _ := call_or_panic (sys_env_set_status envid ENV_RUNNABLE_val) "sys_env_set_status" in
            uret (envid, thisenv)
    end.

(** [pgfault_fn] and [upcall] are the addresses of pgfault and _pgfault_upcall. *)
Definition fork (pgfault_fn upcall handler thisenv : Z) : U (Z * Z) :=
  let? _ := call (set_pgfault_handler upcall handler pgfault_fn) in
  let? envid := call sys_exofork in
  fork_from upcall thisenv envid.
