(* ===== verification/UserForkOk.v ===== *)
(** * Address spaces with permissions, duppage and the loop of fork

    [ent s T d x] is the page that directory [d] maps at page number [x] and the
    permissions it has there.  Every system call on memory changes at most one
    entry of one address space.  The second part has duppage, the third the loop
    over the pages of the parent. *)
From S2P Require Import Prelude Mem Mmu Kstate Pmap PmapRep PmapOps PmapUser Env EnvRep EnvOps EnvFree Devices Syscall.
From S2P Require Import SyscallMem SyscallEnv UserMem UserFork.

(** The number of pages below UTOP. *)
Definition NU : Z := 0xEEC00.

Definition ent (s : kst) (T : gmap (Z * Z) Z) (d x : Z) : option (Z * Z) :=
  let e := pte_of s T d (x * 4096) in
  if present e then Some (PGNUM e, e mod 4096) else None.

Lemma PDX_of_page x : 0 <= x < NU -> PDX (x * 4096) = x / 1024.
Proof.
  unfold NU. intros H. rewrite PDX_small by lia. change (2^22) with (4096 * 1024).
  rewrite <- Z.div_div by lia. by rewrite Z.div_mul by lia.
Qed.
Lemma PTX_of_page x : 0 <= x -> PTX (x * 4096) = x mod 1024.
Proof. intros H. rewrite PTX_div. by rewrite Z.div_mul by lia. Qed.
Lemma vkey_page d x : vkey d (x * 4096) = (d, x).
Proof. unfold vkey. by rewrite PGNUM_page. Qed.
Lemma page_user x : 0 <= x < NU -> 0 <= x * 4096 < UTOP.
Proof. rewrite UTOP_val. unfold NU. lia. Qed.
Lemma page_index x : 0 <= x < NU -> 0 <= x / 1024 < UPDX.
Proof. rewrite UPDX_val. unfold NU. intros H. split; [apply Z.div_pos; lia|apply Z.div_lt_upper_bound; lia]. Qed.

Section view.
Context (KP : gset Z) (kx : Z -> Z) (kd : Z).
Implicit Types (s : kst) (fl el : list Z) (ds : gset Z) (T Mp : gmap (Z * Z) Z).
Local Notation kinv := (kinv KP kx kd).
Local Notation mapped := (mapped KP kx kd).

(** The entry and the abstract map agree. *)
Lemma ent_M s fl ds T Mp el d x :
  kinv s fl ds T Mp el -> d ∈ ds -> 0 <= x < NU -> Mp !! (d, x) = fst <$> ent s T d x.
Proof.
  intros I Hd Hx. pose proof (ki_pm _ _ _ _ _ _ _ _ _ I) as R. unfold ent, pte_of.
  rewrite PDX_of_page, PTX_of_page by lia. destruct (T !! (d, x / 1024)) as [t|] eqn:Ht.
  - pose proof (rep_M _ _ _ _ _ _ R _ _ _ (x mod 1024) Ht ltac:(apply Z.mod_pos_bound; lia)) as HM.
    replace (x / 1024 * 1024 + x mod 1024) with x in HM by (Z.div_mod_to_equations; lia).
    rewrite HM. unfold decode. by destruct (present _).
  - replace (present 0) with false by done. simpl. destruct (Mp !! (d, x)) as [p|] eqn:HM; [|done].
    destruct (rep_Mdom _ _ _ _ _ _ R _ _ _ HM) as [[t' Ht'] _]. congruence.
Qed.

Lemma ent_page s fl ds T Mp el d x p perm :
  kinv s fl ds T Mp el -> d ∈ ds -> 0 <= x < NU -> ent s T d x = Some (p, perm) -> Mp !! (d, x) = Some p.
Proof. intros I Hd Hx E. rewrite (ent_M _ _ _ _ _ _ _ _ I Hd Hx), E. done. Qed.

(** Only the tables matter. *)
Lemma ent_ext s s' fl ds T Mp el d x :
  kinv s fl ds T Mp el -> (forall q j, (exists k, T !! k = Some q) -> 0 <= j < 1024 -> word (mem s') q j = word (mem s) q j) ->
  ent s' T d x = ent s T d x.
Proof.
  intros I Hw. unfold ent, pte_of. destruct (T !! (d, PDX (x * 4096))) as [t|] eqn:Ht; [|done].
  rewrite Hw; [done|eauto|apply PTX_range].
Qed.

Lemma grow_T_lookup T fl d va k t : T !! k = Some t -> grow_T T fl d va !! k = Some t.
Proof.
  intros Hk. unfold grow_T. destruct (T !! (d, PDX va)) eqn:E; [done|]. destruct fl; [done|].
  rewrite lookup_insert_ne; [done|]. intros <-. congruence.
Qed.

Lemma tables_differ s fl ds T Mp el d x d' x' t' :
  kinv s fl ds T Mp el -> 0 <= x < NU -> 0 <= x' < NU -> (d', x') <> (d, x) -> T !! (d', x' / 1024) = Some t' ->
  forall t, T !! (d, PDX (x * 4096)) = Some t -> (t, PTX (x * 4096)) <> (t', x' mod 1024).
Proof.
  intros I Hx Hx' Hne Ht' t Ht [= -> Ej]. rewrite PDX_of_page in Ht by done. rewrite PTX_of_page in Ej by lia.
  pose proof (rep_Tinj _ _ _ _ _ _ (ki_pm _ _ _ _ _ _ _ _ _ I) _ _ _ Ht Ht') as [= -> Ei].
  apply Hne. f_equal. Z.div_mod_to_equations. lia.
Qed.

(** A page is mapped: one entry changes. *)
Lemma ent_mapped s fl ds T Mp el d x pp perm s' d' x' :
  kinv s fl ds T Mp el -> d ∈ ds -> d' ∈ ds -> 0 <= x < NU -> 0 <= x' < NU -> 0 <= perm < 4096 -> 0 <= pp ->
  mapped s fl ds T Mp el d (x * 4096) pp perm s' ->
  ent s' (ins_T T fl d (x * 4096)) d' x' =
    if decide ((d', x') = (d, x)) then Some (pp, Z.lor perm PTE_P) else ent s T d' x'.
Proof.
  intros I Hd Hd' Hx Hx' Hperm Hpp (F & I' & (t & Ht & Hw) & _ & _ & W). case_decide as E.
  - injection E as -> ->. unfold ent, pte_of. rewrite Ht, Hw.
    assert (0 <= Z.lor perm PTE_P < 4096) as Hr by (apply (lor_range _ _ 12); (lia || by vm_compute)).
    assert (present (Z.lor perm PTE_P) = true) as Hp.
    { apply flag_spec. rewrite Z.land_comm, Z.land_lor_distr_r. intros E.
      apply Z.lor_eq_0_iff in E as [_ E]. by vm_compute in E. }
    unfold present, flag in *. rewrite land_page_flags by (done || (unfold PTE_P; lia)). rewrite Hp.
    rewrite PGNUM_flags by done. do 2 f_equal. rewrite Z.add_comm, Z.mod_add by lia. by apply Z.mod_small.
  - destruct (T !! (d', x' / 1024)) as [t'|] eqn:Ht'.
    + unfold ent, pte_of. rewrite PDX_of_page, PTX_of_page by lia. rewrite Ht', (grow_T_lookup T fl _ _ _ t') by done.
      rewrite W; [done|eauto|apply Z.mod_pos_bound; lia|]. by eapply tables_differ.
    + assert (ent s T d' x' = None) as E0.
      { unfold ent, pte_of. by rewrite PDX_of_page, Ht'. }
      pose proof (ent_M _ _ _ _ _ _ d' x' I Hd' Hx') as H0. rewrite E0 in H0.
      pose proof (ent_M _ _ _ _ _ _ d' x' I' Hd' Hx') as H1.
      rewrite vkey_page, lookup_insert_ne, H0 in H1 by congruence. rewrite E0.
      unfold EnvRep.ins_T in *. by destruct (ent s' (grow_T T fl d (x * 4096)) d' x').
Qed.

(** The pages that are mapped keep their bytes. *)
Lemma mapped_bytes s fl ds T Mp el d va pp perm s' :
  kinv s fl ds T Mp el -> d ∈ ds -> mapped s fl ds T Mp el d va pp perm s' ->
  same_bytes (fun q => exists k, Mp !! k = Some q) s s'.
Proof.
  intros I Hd (F & I' & _ & B & _). eapply same_bytes_weaken; [exact B|]. intros q [k Hk].
  destruct (mapped_user_page _ _ _ _ _ _ _ _ _ _ _ I Hk) as [(_ & Hfl & Hds & HT) _].
  split; [congruence|]. intros k'. unfold EnvRep.ins_T, grow_T. destruct (T !! (d, PDX va)); [apply HT|].
  destruct fl as [|t fl]; [apply HT|]. rewrite lookup_insert. case_decide; [|apply HT]. set_solver.
Qed.

(** The view after the removal of a mapping. *)
Lemma ent_removed s fl ds T Mp el d x s' fl' d' x' :
  kinv s fl ds T Mp el -> kinv s' fl' ds T (delete (d, x) Mp) el -> ptes_kept T d (x * 4096) s s' ->
  d ∈ ds -> d' ∈ ds -> 0 <= x < NU -> 0 <= x' < NU ->
  ent s' T d' x' = if decide ((d', x') = (d, x)) then None else ent s T d' x'.
Proof.
  intros I I' W Hd Hd' Hx Hx'. case_decide as E.
  - injection E as -> ->. pose proof (ent_M _ _ _ _ _ _ d x I' Hd Hx) as H1. rewrite lookup_delete_eq in H1.
    by destruct (ent s' T d x).
  - destruct (T !! (d', x' / 1024)) as [t'|] eqn:Ht'.
    + unfold ent, pte_of. rewrite PDX_of_page, PTX_of_page by lia. rewrite Ht'.
      rewrite W; [done|eauto|apply Z.mod_pos_bound; lia|]. by eapply tables_differ.
    + unfold ent, pte_of. by rewrite PDX_of_page, Ht'.
Qed.

(** A page that was free: the entries stay. *)
Lemma ent_alloc s fl ds T Mp el p fl' s' d x :
  kinv s fl ds T Mp el -> fl = p :: fl' -> same_bytes (fun q => q <> p) s s' -> ent s' T d x = ent s T d x.
Proof.
  intros I -> B. eapply ent_ext; [exact I|]. intros q j [k Hq] Hj. eapply same_bytes_word; [exact B| |done].
  destruct (free_no_role _ _ _ _ _ _ p (ki_pm _ _ _ _ _ _ _ _ _ I)) as (_ & HT & _); [by left|].
  simpl. intros ->. by eapply HT.
Qed.

Lemma alloc_bytes s fl ds T Mp el p fl' s' :
  kinv s fl ds T Mp el -> fl = p :: fl' -> same_bytes (fun q => q <> p) s s' ->
  same_bytes (fun q => exists k, Mp !! k = Some q) s s'.
Proof.
  intros I -> B. eapply same_bytes_weaken; [exact B|]. intros q [k Hq] ->.
  destruct (free_no_role _ _ _ _ _ _ p (ki_pm _ _ _ _ _ _ _ _ _ I)) as (_ & _ & HM); [by left|]. by eapply HM.
Qed.

(** ** Reading the page tables through UVPT *)

Lemma UVPT_val : UVPT = 957 * 2^22.
Proof. reflexivity. Qed.

Lemma user_pa_uvpt s fl ds T Mp el d a :
  kinv s fl ds T Mp el -> d ∈ ds -> cr3 s = d * 4096 -> 0 <= a < 2^22 ->
  user_pa s (UVPT + a) false =
    if Z.land (word (mem s) d (a / 4096)) 5 =? 5 then Some (PGNUM (word (mem s) d (a / 4096)) * 4096 + a mod 4096)
    else None.
Proof.
  intros I Hd Hc Ha. pose proof (dir_small _ _ _ _ _ _ _ _ _ _ I Hd) as Hdn.
  assert (PDX (UVPT + a) = 957) as E1.
  { rewrite PDX_small by (rewrite UVPT_val; lia). rewrite UVPT_val. rewrite Z.add_comm, Z.div_add by lia.
    rewrite Z.div_small by lia. done. }
  assert (PTX (UVPT + a) = a / 4096) as E2.
  { rewrite PTX_div, UVPT_val. change (957 * 2^22) with (957 * 1024 * 4096). rewrite Z.add_comm, Z.div_add by lia.
    rewrite Z.mod_add by lia. apply Z.mod_small. split; [apply Z.div_pos; lia|apply Z.div_lt_upper_bound; lia]. }
  assert (PGOFF (UVPT + a) = a mod 4096) as E3.
  { rewrite PGOFF_mod, UVPT_val. change (957 * 2^22) with (957 * 1024 * 4096). by rewrite Z.add_comm, Z.mod_add by lia. }
  unfold user_pa. change (Z.lor PTE_P PTE_U) with 5. rewrite Hc, E1, E2, E3, (cr3_dir d 957) by done.
  rewrite (ki_hi _ _ _ _ _ _ _ _ _ I d 957 Hd) by (rewrite UPDX_val; lia).
  rewrite decide_True by done. rewrite (land_page_flags d 5 5) by lia. change (Z.land 5 5 =? 5) with true. cbn [negb].
  replace (PTE_ADDR (d * 4096 + 5)) with (d * 4096) by (rewrite PTE_ADDR_spec by lia; by rewrite PGNUM_flags by lia).
  fold (word (mem s) d (a / 4096)). destruct (_ =? 5); [|done]. simpl. by rewrite PTE_ADDR_spec by apply word_range.
Qed.

(** A word of the table that the directory [d] has at index [i]. *)
Lemma uvpt_word s fl ds T Mp el d i j t :
  kinv s fl ds T Mp el -> d ∈ ds -> cr3 s = d * 4096 -> 0 <= i < 1024 -> 0 <= j < 1024 ->
  Z.land (word (mem s) d i) 5 = 5 -> PGNUM (word (mem s) d i) = t ->
  wp (uload32 (UVPT + (i * 4096 + 4 * j))) (fun r s' => r = word (mem s) t j /\ s' = s) s.
Proof.
  intros I Hd Hc Hi Hj H5 Ht.
  assert (forall b, 0 <= b < 4 -> user_pa s (UVPT + (i * 4096 + 4 * j) + b) false = Some (t * 4096 + 4 * j + b)) as Hb.
  { intros b Hb. rewrite <- Z.add_assoc. rewrite (user_pa_uvpt _ _ _ _ _ _ d) by (done || lia).
    replace ((i * 4096 + 4 * j + b) / 4096) with i by (Z.div_mod_to_equations; lia).
    replace ((i * 4096 + 4 * j + b) mod 4096) with (4 * j + b) by (Z.div_mod_to_equations; lia).
    rewrite H5, Ht. simpl. f_equal. lia. }
  pose proof (Hb 0 ltac:(lia)) as H0. rewrite !Z.add_0_r in H0.
  unfold wp, uload32, uload8. wp_steps. unfold id. rewrite H0. wp_steps. unfold id.
  rewrite (Hb 1) by lia. wp_steps. unfold id. rewrite (Hb 2) by lia. wp_steps. unfold id. rewrite (Hb 3) by lia. wp_steps.
  unfold word, read32. done.
Qed.

Lemma uvpd_ok s fl ds T Mp el d i :
  kinv s fl ds T Mp el -> d ∈ ds -> cr3 s = d * 4096 -> 0 <= i < 1024 ->
  wp (uvpd i) (fun r s' => r = word (mem s) d i /\ s' = s) s.
Proof.
  intros I Hd Hc Hi. pose proof (dir_small _ _ _ _ _ _ _ _ _ _ I Hd) as Hdn. unfold uvpd.
  replace (UVPT + Z.shiftr UVPT 12 * 4 + 4 * i) with (UVPT + (957 * 4096 + 4 * i)) by (change (Z.shiftr UVPT 12) with (957 * 1024); lia).
  pose proof (ki_hi _ _ _ _ _ _ _ _ _ I d 957 Hd ltac:(rewrite UPDX_val; lia)) as Hw.
  rewrite decide_True in Hw by done. eapply (uvpt_word _ _ _ _ _ _ d); [done|done|done|lia|done| |].
  - rewrite Hw, land_page_flags by lia. done.
  - rewrite Hw. by apply PGNUM_flags.
Qed.

Lemma uvpt_ok s fl ds T Mp el d x t :
  kinv s fl ds T Mp el -> d ∈ ds -> cr3 s = d * 4096 -> 0 <= x < NU -> T !! (d, x / 1024) = Some t ->
  wp (uvpt x) (fun r s' => r = pte_of s T d (x * 4096) /\ s' = s) s.
Proof.
  intros I Hd Hc Hx Ht. pose proof (ki_pm _ _ _ _ _ _ _ _ _ I) as R.
  pose proof (page_index x Hx) as Hi. pose proof UPDX_val.
  unfold uvpt. replace (4 * x) with (x / 1024 * 4096 + 4 * (x mod 1024)) by (Z.div_mod_to_equations; lia).
  unfold pte_of. rewrite PDX_of_page, Ht, PTX_of_page by lia.
  eapply (uvpt_word _ _ _ _ _ _ d); [done|done|done|lia|apply Z.mod_pos_bound; lia| |].
  - eapply land_sub; [by eapply (rep_pde _ _ _ _ _ _ R)|done].
  - pose proof (rep_T _ _ _ _ _ _ R d (x / 1024) Hd Hi) as HT. rewrite Ht in HT. unfold decode in HT.
    destruct (present _); congruence.
Qed.

(** The directory entry says whether there is a table. *)
Lemma pde_present s fl ds T Mp el d x :
  kinv s fl ds T Mp el -> d ∈ ds -> 0 <= x < NU ->
  flag (word (mem s) d (x / 1024)) PTE_P = bool_decide (is_Some (T !! (d, x / 1024))).
Proof.
  intros I Hd Hx. rewrite (rep_T _ _ _ _ _ _ (ki_pm _ _ _ _ _ _ _ _ _ I) d (x / 1024) Hd (page_index x Hx)).
  unfold decode, present. destruct (flag _ _); symmetry; [by apply bool_decide_eq_true|].
  apply bool_decide_eq_false. by intros [? ?].
Qed.
End view.

(** * What duppage and the loop of fork do to the two address spaces *)

(** ** Permissions *)

(** What the child and the parent have after duppage of a page with [perm]. *)
Definition dup_perm (perm : Z) : Z :=
  if flag perm PTE_SHARE then Z.land perm PTE_SYSCALL
  else if flag perm PTE_W || flag perm PTE_COW then Z.lor (Z.lor PTE_P PTE_U) PTE_COW
  else Z.lor PTE_P PTE_U.
Definition own_perm (perm : Z) : Z :=
  if flag perm PTE_SHARE then perm
  else if flag perm PTE_W || flag perm PTE_COW then Z.lor (Z.lor PTE_P PTE_U) PTE_COW
  else perm.

Lemma flag_low e m : 0 <= m < 4096 -> flag (e mod 4096) m = flag e m.
Proof.
  intros Hm. unfold flag. do 2 f_equal. rewrite (Z.div_mod e 4096) at 2 by lia.
  rewrite (Z.mul_comm 4096), land_page_flags; [done|done|]. apply Z.mod_pos_bound. lia.
Qed.

Lemma low_perm perm : 0 <= perm < 4096 -> perm mod 4096 = perm.
Proof. intros H. by apply Z.mod_small. Qed.

(** An entry with its permissions. *)
Lemma ent_entry s T d x p perm :
  ent s T d x = Some (p, perm) ->
  0 <= perm < 4096 /\ flag perm PTE_P = true /\
  (forall m, 0 <= m < 4096 -> flag (pte_of s T d (x * 4096)) m = flag perm m) /\
  pte_of s T d (x * 4096) mod 4096 = perm.
Proof.
  unfold ent. destruct (present _) eqn:Hp; [|done]. intros [= <- <-].
  split; [apply Z.mod_pos_bound; lia|]. split; [|split; [|done]].
  - rewrite flag_low by (by vm_compute). exact Hp.
  - intros m Hm. by rewrite flag_low.
Qed.

Lemma land_low e m : 0 <= m < 4096 -> Z.land e m = Z.land (e mod 4096) m.
Proof.
  intros Hm. rewrite (Z.div_mod e 4096) at 1 by lia.
  rewrite (Z.mul_comm 4096), land_page_flags; [done|done|]. apply Z.mod_pos_bound. lia.
Qed.

Lemma share_perm_ok perm : flag perm PTE_P = true -> bad_perm (Z.land perm PTE_SYSCALL) = false.
Proof.
  intros Hp. unfold bad_perm. apply orb_false_iff. split.
  - apply Z.eqb_neq. rewrite <- Z.land_assoc, Z.land_diag. intros E. apply flag_spec in Hp. apply Hp.
    replace PTE_P with (Z.land PTE_SYSCALL PTE_P) by done. by rewrite Z.land_assoc, E.
  - unfold flag. apply negb_false_iff, Z.eqb_eq. rewrite <- Z.land_assoc.
    replace (Z.land PTE_SYSCALL (Z.lnot PTE_SYSCALL)) with 0 by done. apply Z.land_0_r.
Qed.

Lemma lor_present perm : flag perm PTE_P = true -> Z.lor perm PTE_P = perm.
Proof.
  intros Hp%flag_spec. unfold PTE_P in *. apply Z.bits_inj'. intros n Hn. rewrite Z.lor_spec.
  destruct (Z.eqb_spec n 0) as [->|Hne].
  - destruct (Z.testbit perm 0) eqn:E; [done|]. exfalso. apply Hp. apply Z.bits_inj'. intros m Hm.
    rewrite Z.land_spec, Z.bits_0. destruct (Z.eqb_spec m 0) as [->|Hm0]; [by rewrite E|].
    change 1 with (Z.ones 1). rewrite Z.ones_spec_high by lia. apply andb_false_r.
  - change 1 with (Z.ones 1). rewrite Z.ones_spec_high by lia. apply orb_false_r.
Qed.

Lemma share_lor perm : flag perm PTE_P = true -> Z.lor (Z.land perm PTE_SYSCALL) PTE_P = Z.land perm PTE_SYSCALL.
Proof.
  intros Hp. apply lor_present. apply flag_spec. rewrite <- Z.land_assoc. apply flag_spec in Hp. done.
Qed.

Section fork.
Context (KP : gset Z) (kx : Z -> Z) (kd : Z).
Implicit Types (s : kst) (fl el : list Z) (ds : gset Z) (T Mp : gmap (Z * Z) Z).
Local Notation kinv := (kinv KP kx kd).
Local Notation mapped := (mapped KP kx kd).

(** ** The environments a call names *)

Definition points s ds (id e d : Z) : Prop := exists en, target_at s ds id true e en d.

Lemma dir_kva_inj d1 d2 : dir_kva d1 = dir_kva d2 -> d1 = d2.
Proof. unfold dir_kva. lia. Qed.

Lemma target_det s el id e1 e2 : env_wf s el -> target s id true e1 -> target s id true e2 -> e1 = e2.
Proof.
  intros W. unfold target. case_decide; [congruence|].
  intros (en1 & He1 & Hl1 & Hi1 & _) (en2 & He2 & Hl2 & Hi2 & _).
  rewrite <- (live_id_slot _ _ _ _ W He1 Hl1), <- (live_id_slot _ _ _ _ W He2 Hl2). congruence.
Qed.

Lemma points_det s fl ds T Mp el id e d e' en' d' :
  kinv s fl ds T Mp el -> points s ds id e d -> target_at s ds id true e' en' d' -> e' = e /\ d' = d.
Proof.
  intros I (en & Ht & He & Hl & Hd & Hp) (Ht' & He' & Hl' & Hd' & Hp').
  pose proof (target_det _ _ _ _ _ (ki_env _ _ _ _ _ _ _ _ _ I) Ht Ht') as ->. simplify_eq. split; [done|].
  apply dir_kva_inj. congruence.
Qed.

Lemma points_frame s s' ds id e d : pm_frame s s' -> points s ds id e d -> points s' ds id e d.
Proof.
  intros F (en & Ht & He & Hl & Hd & Hp). exists en. unfold target_at, target, may_use in *.
  by rewrite (pm_frame_envs _ _ F), (pm_frame_cur _ _ F).
Qed.

(** ** One system call *)

(** The page [p] is now at page number [x] of directory [d], with [perm]. *)
Record put ds el s fl T Mp (d x p perm : Z) s' fl' T' : Prop := {
  put_inv : kinv s' fl' ds T' (<[(d, x) := p]> Mp) el;
  put_frame : pm_frame s s';
  put_bytes : same_bytes (fun q => exists k, Mp !! k = Some q) s s';
  put_ent d' x' : d' ∈ ds -> 0 <= x' < NU ->
    ent s' T' d' x' = if decide ((d', x') = (d, x)) then Some (p, Z.lor perm PTE_P) else ent s T d' x';
  put_tables q : refs ds T' Mp q <= refs ds T Mp q \/ refs ds T Mp q = 0 /\ refs ds T' Mp q <= 1;
  put_T k q : T' !! k = Some q -> T !! k = Some q \/ q ∈ fl }.

Lemma grow_refs ds T Mp fl d va q :
  (forall t, t ∈ fl -> refs ds T Mp t = 0) ->
  refs ds (grow_T T fl d va) Mp q <= refs ds T Mp q \/
  refs ds T Mp q = 0 /\ refs ds (grow_T T fl d va) Mp q <= 1.
Proof.
  intros Hfl. unfold grow_T. destruct (T !! (d, PDX va)) eqn:E; [left; lia|]. destruct fl as [|t fl]; [left; lia|].
  specialize (Hfl t ltac:(by left)). unfold refs in *. rewrite count_insert_None by done.
  destruct (decide (t = q)); [subst; right; lia|left; lia].
Qed.

Lemma free_refs s fl ds T Mp el q : kinv s fl ds T Mp el -> q ∈ fl -> refs ds T Mp q = 0.
Proof.
  intros I Hq. pose proof (ki_pm _ _ _ _ _ _ _ _ _ I) as R. pose proof (rep_free _ _ _ _ _ _ R q Hq).
  pose proof (rep_ex _ _ _ _ _ _ R q). pose proof (refs_nonneg ds T Mp q). lia.
Qed.

Lemma mapped_put s fl ds T Mp el d x p perm s' :
  kinv s fl ds T Mp el -> d ∈ ds -> 0 <= x < NU -> 0 <= perm < 4096 -> 0 <= p ->
  mapped s fl ds T Mp el d (x * 4096) p perm s' ->
  put ds el s fl T Mp d x p perm s' (ins_fl kx ds T Mp fl d (x * 4096) p) (ins_T T fl d (x * 4096)).
Proof.
  intros I Hd Hx Hperm Hp Hm. pose proof Hm as (F & I' & _). rewrite vkey_page in I'. constructor; [done|done| | | |].
  - by eapply (mapped_bytes KP kx kd).
  - intros d' x' Hd' Hx'. by eapply (ent_mapped KP kx kd).
  - intros q. apply grow_refs. intros t. by eapply free_refs.
  - intros k q. unfold EnvRep.ins_T, grow_T. destruct (T !! (d, PDX (x * 4096))); [by left|]. destruct fl as [|t fl]; [by left|].
    rewrite lookup_insert. case_decide; [intros [= ->]; right; by left|by left].
Qed.

Lemma page_va_ok x : 0 <= x < NU -> bad_va (x * 4096) = false.
Proof. intros Hx. apply bad_va_false. split; [apply page_user; done|]. by rewrite Z.mod_mul. Qed.

Lemma map_ok s fl ds T Mp el sid se sd did de dd x x' p perm0 perm :
  kinv s fl ds T Mp el -> is_Some (cur_env s) -> few_refs kx ds T Mp ->
  points s ds sid se sd -> points s ds did de dd -> 0 <= x < NU -> 0 <= x' < NU ->
  ent s T sd x = Some (p, perm0) -> bad_perm perm = false -> (flag perm PTE_W = true -> flag perm0 PTE_W = true) ->
  wp (sys_page_map sid (x * 4096) did (x' * 4096) perm) (fun r s' =>
    (r = - E_NO_MEM /\ s' = s /\ T !! (dd, x' / 1024) = None) \/
    (r = 0 /\ exists fl' T', put ds el s fl T Mp dd x' p perm s' fl' T')) s.
Proof.
  intros I Hc Hfew Hs Hd Hx Hx' He Hbp Hw.
  eapply wp_mono; [eapply (sys_page_map_ok KP kx kd); [done|done|done|apply page_user; done|apply page_user; done]|].
  pose proof (ent_entry _ _ _ _ _ _ He) as (_ & _ & Hfl & _).
  intros r s' [(_ & _ & Hn)|[(_ & _ & Hb)|(se' & sen & sd' & de' & den & dd' & Hts & Htd & P)]].
  - exfalso. destruct Hs as (? & Hs & _), Hd as (? & Hd & _). destruct Hn as [Hn|Hn]; by eapply Hn.
  - exfalso. rewrite (page_va_ok x Hx), (page_va_ok x' Hx'), Hbp in Hb. done.
  - destruct (points_det _ _ _ _ _ _ _ _ _ _ _ _ I Hs Hts) as [-> ->].
    destruct (points_det _ _ _ _ _ _ _ _ _ _ _ _ I Hd Htd) as [-> ->].
    pose proof Hts as (_ & _ & _ & Hsd & _). pose proof Htd as (_ & _ & _ & Hdd & _).
    pose proof (ent_page _ _ _ _ _ _ _ _ _ _ _ _ _ I Hsd Hx He) as HM.
    assert (0 <= p) as Hp0 by (destruct (mapped_user_page _ _ _ _ _ _ _ _ _ _ _ I HM) as [[? _] _]; lia).
    destruct P as [(_ & _ & [Hn|[Hw1 Hw2]])|[(-> & -> & HT & _)|(-> & p' & Hp' & _ & Hm)]].
    + rewrite vkey_page in Hn. congruence.
    + rewrite Hfl in Hw2 by (by vm_compute). rewrite Hw in Hw2 by done. done.
    + left. rewrite PDX_of_page in HT by done. done.
    + rewrite vkey_page in Hp'. simplify_eq. right. split; [done|]. eexists _, _. eapply mapped_put; try done. by apply bad_perm_range.
Qed.

(** References after a page that is mapped somewhere is mapped once more. *)
Definition more ds T Mp T' Mp' (p : Z) : Prop := forall q,
  refs ds T' Mp' q <= refs ds T Mp q + (if decide (q = p) then 1 else 0) \/
  refs ds T Mp q = 0 /\ refs ds T' Mp' q <= 1.

Definition roomy (n : Z) ds T Mp : Prop := forall q, refs ds T Mp q + kx q + n < 2^16.

Lemma mapped_refs ds T Mp k p : Mp !! k = Some p -> 0 < refs ds T Mp p.
Proof.
  intros Hk. pose proof (count_pos _ _ _ Hk). pose proof (count_nonneg T p). unfold refs. case_decide; lia.
Qed.

Lemma put_more ds el s fl T Mp d x p perm s' fl' T' k :
  put ds el s fl T Mp d x p perm s' fl' T' -> Mp !! k = Some p -> more ds T Mp T' (<[(d, x) := p]> Mp) p.
Proof.
  intros P Hk q. rewrite refs_insert. pose proof (mapped_refs ds T Mp k p Hk).
  destruct (put_tables _ _ _ _ _ _ _ _ _ _ _ _ _ P q) as [Ht|[H0 H1]].
  - left. destruct (Mp !! (d, x)); repeat case_decide; try lia; congruence.
  - right. split; [done|]. assert (p <> q) by (intros ->; lia). destruct (Mp !! (d, x)); repeat case_decide; try lia; congruence.
Qed.

Lemma put_same ds el s fl T Mp d x p perm s' fl' T' :
  put ds el s fl T Mp d x p perm s' fl' T' -> Mp !! (d, x) = Some p ->
  forall q, refs ds T' (<[(d, x) := p]> Mp) q <= refs ds T Mp q \/ refs ds T Mp q = 0 /\ refs ds T' (<[(d, x) := p]> Mp) q <= 1.
Proof. intros P Hk q. rewrite insert_id by done. apply P. Qed.

Lemma more_roomy n ds T Mp T' Mp' p : 0 <= n -> more ds T Mp T' Mp' p -> roomy (n + 1) ds T Mp -> roomy n ds T' Mp'.
Proof. intros Hn M R q. specialize (R q). destruct (M q) as [H|[H0 H1]]; [case_decide; lia|lia]. Qed.

Lemma roomy_few n ds T Mp : 1 <= n -> roomy n ds T Mp -> few_refs kx ds T Mp.
Proof. intros Hn R q. specialize (R q). lia. Qed.

(** ** Parent and child *)

Record family s ds (c d id ce cd cid : Z) : Prop := {
  fam_cur : cur_env s = Some c;
  fam_self : exists cen, envs s !! c = Some cen /\ env_id cen = id;
  fam_cr3 : cr3 s = d * 4096;
  fam_d : d ∈ ds;
  fam_cd : cd ∈ ds;
  fam_ne : cd <> d;
  fam_zero : points s ds 0 c d;
  fam_id : points s ds id c d;
  fam_child : points s ds cid ce cd }.

Lemma family_frame s s' ds c d id ce cd cid : pm_frame s s' -> family s ds c d id ce cd cid -> family s' ds c d id ce cd cid.
Proof.
  intros F [H1 H2 H3 H4 H5 H6 H7 H8 H9].
  constructor; rewrite ?(pm_frame_cur _ _ F), ?(pm_frame_envs _ _ F), ?(pm_frame_cr3 _ _ F); try done;
    by eapply points_frame.
Qed.

Lemma thisenv_ok s ds c d id ce cd cid :
  family s ds c d id ce cd cid -> wp (thisenv_id c) (fun r s' => r = id /\ s' = s) s.
Proof.
  intros Fm. destruct (fam_self _ _ _ _ _ _ _ _ Fm) as (cen & He & <-). unfold wp, thisenv_id. wp_steps.
  eapply wpe_get_env; [done|]. by wp_steps.
Qed.

(** The page at [x] is in both address spaces. *)
Record dupped ds el s T Mp (d cd x p perm : Z) s' fl' T' Mp' : Prop := {
  du_inv : kinv s' fl' ds T' Mp' el;
  du_frame : pm_frame s s';
  du_bytes : same_bytes (fun q => exists k, Mp !! k = Some q) s s';
  du_sub : Mp ⊆ Mp';
  du_ent d' x' : d' ∈ ds -> 0 <= x' < NU ->
    ent s' T' d' x' =
      if decide ((d', x') = (cd, x)) then Some (p, dup_perm perm)
      else if decide ((d', x') = (d, x)) then Some (p, own_perm perm) else ent s T d' x';
  du_refs : more ds T Mp T' Mp' p }.

(** One call suffices. *)
Lemma dup_single ds el s fl T Mp d cd x p perm perm' s' fl' T' :
  put ds el s fl T Mp cd x p perm' s' fl' T' -> d ∈ ds -> cd <> d -> 0 <= x < NU ->
  ent s T d x = Some (p, perm) -> Mp !! (d, x) = Some p -> Mp !! (cd, x) = None ->
  Z.lor perm' PTE_P = dup_perm perm -> own_perm perm = perm ->
  dupped ds el s T Mp d cd x p perm s' fl' T' (<[(cd, x) := p]> Mp).
Proof.
  intros P Hd Hne Hx He HM Hn Ep Eo. constructor.
  - apply P.
  - apply P.
  - apply P.
  - by apply insert_subseteq.
  - intros d' x' Hd' Hx'. rewrite (put_ent _ _ _ _ _ _ _ _ _ _ _ _ _ P) by done. rewrite Ep.
    destruct (decide ((d', x') = (cd, x))); [done|]. destruct (decide ((d', x') = (d, x))) as [[= -> ->]|]; [|done]. congruence.
  - by eapply put_more.
Qed.

(** The page is copy-on-write in both. *)
Lemma dup_double ds el s fl T Mp d cd x p perm s1 fl1 T1 s2 fl2 T2 :
  put ds el s fl T Mp cd x p (Z.lor (Z.lor PTE_P PTE_U) PTE_COW) s1 fl1 T1 ->
  put ds el s1 fl1 T1 (<[(cd, x) := p]> Mp) d x p (Z.lor (Z.lor PTE_P PTE_U) PTE_COW) s2 fl2 T2 ->
  d ∈ ds -> cd <> d -> 0 <= x < NU -> Mp !! (d, x) = Some p -> Mp !! (cd, x) = None ->
  flag perm PTE_SHARE = false -> flag perm PTE_W || flag perm PTE_COW = true ->
  dupped ds el s T Mp d cd x p perm s2 fl2 T2 (<[(cd, x) := p]> Mp).
Proof.
  intros P1 P2 Hd Hne Hx HM Hn Hsh Hw.
  assert ((<[(cd, x) := p]> Mp) !! (d, x) = Some p) as HM1 by (rewrite lookup_insert_ne by congruence; done).
  assert (<[(d, x) := p]> (<[(cd, x) := p]> Mp) = <[(cd, x) := p]> Mp) as EM by (by apply insert_id).
  constructor.
  - rewrite <- EM. apply P2.
  - etrans; [apply P1|apply P2].
  - eapply same_bytes_trans; [apply P1|]. eapply same_bytes_weaken; [apply P2|]. intros q [k Hk].
    exists k. rewrite lookup_insert_ne; [done|]. congruence.
  - by apply insert_subseteq.
  - intros d' x' Hd' Hx'. rewrite (put_ent _ _ _ _ _ _ _ _ _ _ _ _ _ P2), (put_ent _ _ _ _ _ _ _ _ _ _ _ _ _ P1) by done.
    unfold dup_perm, own_perm. rewrite Hsh, Hw. repeat case_decide; try done; congruence.
  - intros q. pose proof (put_more _ _ _ _ _ _ _ _ _ _ _ _ _ _ P1 HM q) as H1.
    pose proof (put_same _ _ _ _ _ _ _ _ _ _ _ _ _ P2 HM1 q) as H2. rewrite EM in H2.
    pose proof (refs_nonneg ds T Mp q). destruct H2 as [H2|[H2 H2']]; [destruct H1; [left|right]; lia|].
    pose proof (refs_nonneg ds T1 (<[(cd, x):=p]> Mp) q).
    destruct (decide (refs ds T Mp q = 0)); [right; lia|left]. case_decide; lia.
Qed.

Lemma duppage_ok s fl ds T Mp el c d id ce cd cid x p perm :
  kinv s fl ds T Mp el -> family s ds c d id ce cd cid -> roomy 2 ds T Mp -> 0 <= x < NU ->
  ent s T d x = Some (p, perm) -> ent s T cd x = None ->
  wp (duppage c cid x) (fun r s' =>
    (r = - E_NO_MEM /\ s' = s) \/
    (r = 0 /\ exists fl' T' Mp', dupped ds el s T Mp d cd x p perm s' fl' T' Mp')) s.
Proof.
  intros I Fm Hr Hx He Hn.
  pose proof Fm as [Hcur Hself Hcr Hd Hcd Hne Hz Hid Hch].
  pose proof (ent_entry _ _ _ _ _ _ He) as (Hperm & Hpp & Hflag & Hlow).
  pose proof (ent_page _ _ _ _ _ _ _ _ _ _ _ _ _ I Hd Hx He) as HM.
  assert (Mp !! (cd, x) = None) as HMc by (rewrite (ent_M _ _ _ _ _ _ _ _ _ _ _ I Hcd Hx), Hn; done).
  assert (is_Some (cur_env s)) as Hc by (by rewrite Hcur).
  pose proof (roomy_few 2 _ _ _ ltac:(lia) Hr) as Hfew.
  destruct (rep_Mdom _ _ _ _ _ _ (ki_pm _ _ _ _ _ _ _ _ _ I) _ _ _ HM) as ([t Ht] & _).
  pose proof (uvpt_ok KP kx kd s fl ds T Mp el d x t I Hd Hcr Hx Ht) as Hu.
  assert (u32 (x * PGSIZE) = x * 4096) as Eva by (unfold PGSIZE; apply u32_small; unfold NU in Hx; lia).
  unfold wp, duppage. rewrite Eva. wp_steps.
  eapply wp_wpe; [exact Hu|]. intros e s1 [-> ->]. rewrite Hflag by (by vm_compute).
  destruct (flag perm PTE_SHARE) eqn:Hsh.
  { wp_steps. eapply wp_wpe; [exact Hu|]. intros e s1 [-> ->]. wp_steps.
    rewrite (land_low _ PTE_SYSCALL), Hlow by (by vm_compute).
    eapply wp_wpe; [eapply map_ok; try done; [by apply share_perm_ok|]|].
    { unfold flag. rewrite <- Z.land_assoc. done. }
    intros r s1 [(-> & -> & _)|(-> & fl' & T' & P)]; simpl; wp_steps; [by left|right].
    split; [done|]. eexists _, _, _. eapply dup_single; try done; unfold dup_perm, own_perm; rewrite Hsh; [by apply share_lor|done]. }
  wp_steps. eapply wp_wpe; [exact Hu|]. intros e s1 [-> ->]. rewrite Hflag by (by vm_compute).
  eapply (wp_wpe _ (fun b s1 => b = (flag perm PTE_W || flag perm PTE_COW) /\ s1 = s)).
  { unfold wp. destruct (flag perm PTE_W); wp_steps; [done|]. eapply wp_wpe; [exact Hu|]. intros e s1 [-> ->].
    rewrite Hflag by (by vm_compute). by wp_steps. }
  intros b s1 [-> ->]. wp_steps. destruct (flag perm PTE_W || flag perm PTE_COW) eqn:Hw.
  - wp_steps. eapply wp_wpe; [by eapply thisenv_ok|]. intros e s1 [-> ->]. wp_steps.
    eapply wp_wpe; [eapply map_ok; done|].
    intros r s1 [(-> & -> & _)|(-> & fl1 & T1 & P1)]; simpl; wp_steps; [by left|].
    pose proof (put_frame _ _ _ _ _ _ _ _ _ _ _ _ _ P1) as F1. pose proof (family_frame _ _ _ _ _ _ _ _ _ F1 Fm) as Fm1.
    eapply wp_wpe; [by eapply thisenv_ok|]. intros e s2 [-> ->]. wp_steps.
    assert (ent s1 T1 d x = Some (p, perm)) as He1.
    { rewrite (put_ent _ _ _ _ _ _ _ _ _ _ _ _ _ P1) by done. rewrite decide_False; [done|congruence]. }
    eapply wp_wpe; [eapply (map_ok s1 fl1 ds T1); [apply P1|by rewrite (pm_frame_cur _ _ F1)| |apply Fm1|apply Fm1|done|done|exact He1|done|done]|].
    { eapply (roomy_few 1); [lia|]. eapply (more_roomy 1); [lia|by eapply put_more|done]. }
    intros r s2 [(-> & -> & HT)|(-> & fl2 & T2 & P2)]; simpl; wp_steps.
    + exfalso. unfold ent, pte_of in He1. rewrite PDX_of_page, HT in He1 by done. done.
    + right. split; [done|]. eexists _, _, _. by eapply dup_double.
  - apply orb_false_iff in Hw as [Hw1 Hw2]. wp_steps.
    eapply wp_wpe; [by eapply thisenv_ok|]. intros e s1 [-> ->]. wp_steps.
    eapply wp_wpe; [eapply map_ok; done|].
    intros r s1 [(-> & -> & _)|(-> & fl' & T' & P)]; simpl; wp_steps; [by left|right].
    split; [done|]. eexists _, _, _. eapply dup_single; try done; unfold dup_perm, own_perm; by rewrite Hsh, Hw1, Hw2.
Qed.
End fork.

(** * The loop of fork over the pages of the parent *)

(** The pages that fork copies. *)
Definition first_page : Z := 0x800.
Definition last_page : Z := 0xEEBFE.

Lemma first_page_val : PGNUM UTEXT = first_page.
Proof. reflexivity. Qed.
Lemma last_page_val : PGNUM USTACKTOP = last_page.
Proof. reflexivity. Qed.

Definition copied (x : Z) : Prop := first_page <= x < last_page.
#[export] Instance copied_dec x : Decision (copied x).
Proof. unfold copied. apply _. Defined.

Definition dup_ent (o : option (Z * Z)) : option (Z * Z) := (fun '(p, perm) => (p, dup_perm perm)) <$> o.
Definition own_ent (o : option (Z * Z)) : option (Z * Z) := (fun '(p, perm) => (p, own_perm perm)) <$> o.

(** How many page numbers of a list are mapped to [q]. *)
Definition hits (Mp : gmap (Z * Z) Z) (d q : Z) (l : list Z) : nat := length (filter (fun x => Mp !! (d, x) = Some q) l).

Lemma hits_count Mp d q l : NoDup l -> Z.of_nat (hits Mp d q l) <= count Mp q.
Proof.
  intros Hl. unfold hits, count. apply inj_le.
  set (ks := (pair d) <$> filter (fun x => Mp !! (d, x) = Some q) l).
  assert (NoDup ks) as Hks by (apply NoDup_fmap_2; [by intros ? ? [= ->]|by apply NoDup_filter]).
  replace (length (filter (fun x => Mp !! (d, x) = Some q) l)) with (length ks) by (unfold ks; apply length_fmap).
  rewrite <- (size_list_to_set (C := gset (Z * Z)) ks) by done. rewrite <- size_dom.
  apply subseteq_size. intros k Hk. apply elem_of_list_to_set in Hk. unfold ks in Hk.
  apply list_elem_of_fmap in Hk as (x & -> & Hx). apply list_elem_of_filter in Hx as [Hx _].
  apply elem_of_dom. exists q. by apply map_lookup_filter_Some_2.
Qed.

Section loop.
Context (KP : gset Z) (kx : Z -> Z) (kd : Z).
Context (s1 : kst) (ds : gset Z) (T1 Mp1 : gmap (Z * Z) Z) (el : list Z) (c d id ce cd cid : Z).
Implicit Types (s : kst) (fl : list Z) (T Mp : gmap (Z * Z) Z).
Local Notation kinv := (kinv KP kx kd).

Definition own (q v : Z) : Z := Z.of_nat (hits Mp1 d q (seqZ first_page (v - first_page))).

(** The pages below [v] have been copied. *)
Record linv (v : Z) s fl T Mp : Prop := {
  l_inv : kinv s fl ds T Mp el;
  l_frame : pm_frame s1 s;
  l_bytes : same_bytes (fun q => exists k, Mp1 !! k = Some q) s1 s;
  l_sub : Mp1 ⊆ Mp;
  l_par x : 0 <= x < NU ->
    ent s T d x = if decide (first_page <= x < v) then own_ent (ent s1 T1 d x) else ent s1 T1 d x;
  l_chi x : 0 <= x < NU -> ent s T cd x = if decide (first_page <= x < v) then dup_ent (ent s1 T1 d x) else None;
  l_oth d' x : d' ∈ ds -> d' <> d -> d' <> cd -> 0 <= x < NU -> ent s T d' x = ent s1 T1 d' x;
  l_refs q : refs ds T Mp q <= refs ds T1 Mp1 q + own q v \/ refs ds T1 Mp1 q = 0 /\ refs ds T Mp q <= 1 }.

Context (fl1 : list Z).
Hypothesis Hinv1 : kinv s1 fl1 ds T1 Mp1 el.
Hypothesis Hfam : family s1 ds c d id ce cd cid.
Hypothesis Hroom : forall q, 2 * refs ds T1 Mp1 q + kx q + 3 < 2^16.

Lemma own_le q v : own q v <= refs ds T1 Mp1 q.
Proof.
  unfold own. pose proof (hits_count Mp1 d q (seqZ first_page (v - first_page)) (NoDup_seqZ _ _)).
  pose proof (count_nonneg T1 q). unfold refs. case_decide; lia.
Qed.

Lemma own_step q v :
  first_page <= v -> own q (v + 1) = own q v + if decide (Mp1 !! (d, v) = Some q) then 1 else 0.
Proof.
  intros Hv. unfold own, hits. replace (v + 1 - first_page) with ((v - first_page) + 1) by lia.
  rewrite seqZ_app, filter_app, length_app by lia. replace (first_page + (v - first_page)) with v by lia.
  change (seqZ v 1) with [v]. rewrite filter_cons, filter_nil. case_decide; simpl; lia.
Qed.

Lemma linv_roomy v s fl T Mp : linv v s fl T Mp -> roomy kx 2 ds T Mp.
Proof.
  intros L q. pose proof (own_le q v). pose proof (Hroom q). pose proof (refs_nonneg ds T1 Mp1 q).
  destruct (l_refs _ _ _ _ _ L q) as [R1|[R0 R1]]; lia.
Qed.

Lemma linv_skip v s fl T Mp :
  first_page <= v < last_page -> linv v s fl T Mp -> ent s1 T1 d v = None -> linv (v + 1) s fl T Mp.
Proof.
  intros Hv [Hi Hf Hb Hs Hp Hc Ho Hr] He. constructor; try done.
  - intros x Hx. rewrite Hp by done. destruct (decide (x = v)) as [->|]; [rewrite He; repeat case_decide; done|].
    repeat case_decide; try done; lia.
  - intros x Hx. rewrite Hc by done. destruct (decide (x = v)) as [->|]; [rewrite He; repeat case_decide; done|].
    repeat case_decide; try done; lia.
  - intros q. rewrite own_step by lia. destruct (Hr q) as [R1|[R0 R1]]; [left|right; done]. case_decide; lia.
Qed.

Lemma linv_dup v s fl T Mp p perm s' fl' T' Mp' :
  first_page <= v < last_page -> linv v s fl T Mp -> ent s1 T1 d v = Some (p, perm) -> Mp1 !! (d, v) = Some p ->
  dupped KP kx kd ds el s T Mp d cd v p perm s' fl' T' Mp' -> linv (v + 1) s' fl' T' Mp'.
Proof.
  intros Hv [Hi Hf Hb Hs Hp Hc Ho Hr] He HM D. pose proof Hfam as [_ _ _ Hd Hcd Hne _ _ _].
  pose proof (du_ent _ _ _ _ _ _ _ _ _ _ _ _ _ _ _ _ _ D) as De.
  constructor.
  - apply D.
  - etrans; [done|apply D].
  - eapply same_bytes_trans; [exact Hb|]. eapply same_bytes_weaken; [apply D|]. intros q [k Hk]. exists k. by eapply lookup_weaken.
  - etrans; [done|apply D].
  - intros x Hx. rewrite De by done. rewrite (decide_False (P := (d, x) = (cd, v))) by congruence.
    destruct (decide ((d, x) = (d, v))) as [[= ->]|Hx'].
    + rewrite decide_True by lia. by rewrite He.
    + rewrite Hp by done. assert (x <> v) by congruence. repeat case_decide; try done; lia.
  - intros x Hx. rewrite De by done. destruct (decide ((cd, x) = (cd, v))) as [[= ->]|Hx'].
    + rewrite decide_True by lia. by rewrite He.
    + rewrite (decide_False (P := (cd, x) = (d, v))) by congruence. rewrite Hc by done.
      assert (x <> v) by congruence. repeat case_decide; try done; lia.
  - intros d' x Hd' H1 H2 Hx. rewrite De by done. rewrite !decide_False by congruence. by apply Ho.
  - intros q. rewrite own_step by lia. pose proof (refs_nonneg ds T1 Mp1 q). pose proof (refs_nonneg ds T Mp q).
    pose proof (own_le q v). assert (0 <= own q v) by (unfold own; lia).
    assert (Mp1 !! (d, v) = Some q <-> q = p) as Hq by (rewrite HM; naive_solver).
    pose proof (mapped_refs ds T1 Mp1 _ _ HM).
    destruct (du_refs _ _ _ _ _ _ _ _ _ _ _ _ _ _ _ _ _ D q) as [R1|[R1 R1']], (Hr q) as [R2|[R2 R2']].
    + left. repeat case_decide; try tauto; lia.
    + right. assert (q <> p) by (intros ->; lia). rewrite decide_False in R1 by done. lia.
    + destruct (decide (refs ds T1 Mp1 q = 0)); [right; lia|left]. case_decide; lia.
    + right. lia.
Qed.

Lemma dup_round_ok v s fl T Mp :
  first_page <= v <= last_page -> linv v s fl T Mp ->
  wp (dup_round c cid v) (fun r s' =>
    match r with
    | inl v' => v' = v + 1 /\ v < last_page /\ exists fl' T' Mp', linv (v + 1) s' fl' T' Mp'
    | inr None => v = last_page /\ s' = s
    | inr (Some e) => e = - E_NO_MEM /\ s' = s
    end) s.
Proof.
  intros Hv L. pose proof L as [Hi Hf Hb Hs Hp Hc Ho Hr]. pose proof (family_frame _ _ _ _ _ _ _ _ _ Hf Hfam) as Fm.
  pose proof Fm as [_ _ Hcr Hd Hcd Hne _ _ _].
  unfold wp, dup_round. rewrite last_page_val. destruct (Z.leb_spec last_page v) as [Hle|Hlt]; [wp_steps; split; [lia|done]|].
  assert (0 <= v < NU) as Hx by (unfold first_page, last_page, NU in *; lia).
  assert (ent s T d v = ent s1 T1 d v) as Ev by (rewrite Hp by done; case_decide; [lia|done]).
  rewrite Z.shiftr_div_pow2 by lia. change (2^10) with 1024. wp_steps.
  eapply wp_wpe; [eapply (uvpd_ok KP kx kd s fl ds T Mp el d); [done|done|done|]|].
  { pose proof (page_index v Hx). rewrite UPDX_val in *. lia. }
  intros e s' [-> ->]. rewrite (pde_present KP kx kd _ _ _ _ _ _ _ _ Hi Hd Hx).
  destruct (bool_decide_reflect (is_Some (T !! (d, v / 1024)))) as [[t Ht]|Hn]; simpl.
  2:{ wp_steps. split; [done|]. split; [done|]. exists fl, T, Mp. apply linv_skip; [lia|done|]. rewrite <- Ev.
      unfold ent, pte_of. rewrite PDX_of_page by done. destruct (T !! (d, v / 1024)) eqn:E; [|done]. exfalso. apply Hn. eauto. }
  wp_steps. eapply wp_wpe; [by eapply (uvpt_ok KP kx kd s fl ds T Mp el d)|]. intros e s' [-> ->].
  destruct (ent s T d v) as [[p perm]|] eqn:Ee.
  2:{ unfold ent, present in Ee. cbv zeta in Ee. destruct (flag (pte_of s T d (v * 4096)) PTE_P); [done|]. simpl. wp_steps.
      split; [done|]. split; [done|]. exists fl, T, Mp. apply linv_skip; [lia|done|congruence]. }
  pose proof (ent_entry _ _ _ _ _ _ Ee) as (_ & HP & Hfl & _). rewrite Hfl, HP by (by vm_compute). simpl. wp_steps.
  eapply wp_wpe; [eapply duppage_ok; [done|done|by eapply linv_roomy|done|done|]|].
  { rewrite Hc by done. case_decide; [lia|done]. }
  intros r s' [[-> ->]|(-> & fl' & T' & Mp' & D)]; simpl; wp_steps; [done|].
  split; [done|]. split; [done|]. exists fl', T', Mp'. eapply linv_dup; [lia|done|by rewrite <- Ev| |done].
  eapply (ent_page KP kx kd s1); [done|done|done|]. by rewrite <- Ev.
Qed.

Lemma linv_start : (forall x, 0 <= x < NU -> ent s1 T1 cd x = None) -> linv first_page s1 fl1 T1 Mp1.
Proof.
  intros Hn. constructor; try done.
  - intros x Hx. case_decide; [lia|done].
  - intros x Hx. case_decide; [lia|by apply Hn].
  - intros q. left. unfold own. lia.
Qed.

Lemma dup_loop_ok :
  (forall x, 0 <= x < NU -> ent s1 T1 cd x = None) ->
  wp (dup_loop c cid) (fun r s' => exists v fl' T' Mp', first_page <= v <= last_page /\ linv v s' fl' T' Mp' /\
    match r with None => v = last_page | Some e => e = - E_NO_MEM end) s1.
Proof.
  intros Hn. unfold wp, dup_loop. rewrite first_page_val, last_page_val.
  eapply (wpe_loop _ (fun v s => first_page <= v <= last_page /\ exists fl T Mp, linv v s fl T Mp)
    (fun v _ => Z.to_nat (last_page - v))).
  - intros v s (Hv & fl & T & Mp & L). eapply wp_wpe; [by eapply dup_round_ok|].
    intros [v'|[e|]] s'.
    + intros (-> & Hlt & L'). split; [|lia]. split; [lia|done].
    + intros [-> ->]. by exists v, fl, T, Mp.
    + intros [-> ->]. by exists last_page, fl, T, Mp.
  - split; [by vm_compute|]. exists fl1, T1, Mp1. by apply linv_start.
  - lia.
Qed.
End loop.
