(* ===== verification/UserForkBody.v ===== *)
(** * fork as a whole, and its page fault handler *)
From S2P Require Import Prelude Mem Mmu Kstate Pmap PmapRep PmapOps PmapUser Env EnvRep EnvOps EnvFree EnvSched Devices.
From S2P Require Import Syscall SyscallMem SyscallEnv KernelLoop UserMem UserFork UserForkOk.

(** ** Programs that may panic *)

Lemma wp_ubind {A B} (x : U A) (f : A -> U B) Q s :
  wp x (fun r s' => match r with inl msg => Q (inl msg) s' | inr a => wp (f a) Q s' end) s -> wp (ubind x f) Q s.
Proof.
  intros H. unfold ubind. apply wpe_bind. eapply wpe_mono; [exact H| |done]. intros [msg|a] s'; [|done].
  intros HQ. by apply wpe_ret.
Qed.

Lemma wp_call {A} (x : K A) Q s : wp x (fun a s' => Q (inr a) s') s -> wp (call x) Q s.
Proof.
  intros H. unfold call. apply wpe_bind. eapply wpe_mono; [exact H| |done]. intros a s' HQ. by apply wpe_ret.
Qed.

Lemma wp_call_or_panic (x : K Z) msg Q s :
  wp x (fun r s' => if r <? 0 then Q (inl msg) s' else Q (inr r) s') s -> wp (call_or_panic x msg) Q s.
Proof.
  intros H. unfold call_or_panic. apply wpe_bind. eapply wpe_mono; [exact H| |done]. intros r s'.
  unfold upanic, uret. destruct (r <? 0); intros HQ; by wp_steps.
Qed.

(** The page number of the exception stack. *)
Definition xstack_page : Z := 0xEEBFF.
Lemma xstack_val : UXSTACKTOP - PGSIZE = xstack_page * 4096.
Proof. reflexivity. Qed.

Section fork.
Context (KP : gset Z) (kx : Z -> Z) (kd : Z).
Implicit Types (s : kst) (fl el : list Z) (ds : gset Z) (T Mp : gmap (Z * Z) Z).
Local Notation kinv := (kinv KP kx kd).
Local Notation put := (put KP kx kd).

(** ** sys_page_alloc for a page the caller names *)

(** A zeroed page that was free is at [x]; or the call failed, which may lose a page. *)
Definition alloc_result ds el s fl T Mp (d x perm r : Z) s' : Prop :=
  (r = - E_NO_MEM /\ pm_frame s s' /\ same_bytes (fun q => exists k, Mp !! k = Some q) s s' /\
   (forall d' x', ent s' T d' x' = ent s T d' x') /\ exists fl', kinv s' fl' ds T Mp el) \/
  (r = 0 /\ exists p fl' T', refs ds T Mp p = 0 /\ (p ∈ fl) /\
     (forall a, p * 4096 <= a < p * 4096 + 4096 -> getb (mem s') a = 0) /\
     put ds el s fl T Mp d x p perm s' fl' T').

Lemma alloc_ok s fl ds T Mp el id e d x perm :
  kinv s fl ds T Mp el -> is_Some (cur_env s) -> points s ds id e d -> 0 <= x < NU -> bad_perm perm = false ->
  wp (sys_page_alloc id (x * 4096) perm) (fun r s' => alloc_result ds el s fl T Mp d x perm r s') s.
Proof.
  intros I Hc Hp Hx Hbp.
  eapply wp_mono; [eapply (sys_page_alloc_ok KP kx kd); [done|done|apply page_user; done]|].
  intros r s' [(_ & _ & Hn)|[(_ & _ & Hb)|[(-> & -> & _)|(e' & en & d' & p & fl' & s1 & Ht & -> & F & I1 & B & Hz & P)]]].
  - exfalso. destruct Hp as (? & Ht & _). by eapply Hn.
  - exfalso. by rewrite (page_va_ok x Hx), Hbp in Hb.
  - left. split; [done|]. split; [done|]. split; [by intros q a _ _|]. split; [done|]. by exists fl.
  - destruct (points_det _ _ _ _ _ _ _ _ _ _ _ _ _ _ _ I Hp Ht) as [-> ->].
    pose proof (free_refs _ _ _ _ _ _ _ _ _ p I ltac:(by left)) as H0. pose proof Ht as (_ & _ & _ & Hd & _).
    destruct P as [(-> & -> & -> & (_ & I' & _))|(-> & Hm)].
    + left. split; [done|]. split; [done|]. split; [by eapply (alloc_bytes KP kx kd)|].
      split; [intros; by eapply (ent_alloc KP kx kd)|]. by exists [].
    + right. split; [done|]. eexists p, _, _. split; [done|]. split; [by left|]. split; [done|].
      assert (0 <= p) as Hp0.
      { pose proof (rep_chain _ _ _ _ _ _ (ki_pm _ _ _ _ _ _ _ _ _ I)) as Hch. inversion Hch as [|q pi l Hq]; subst.
        assert (is_Some (pages s !! p)) as Hs by eauto. apply (rep_dom _ _ _ _ _ _ (ki_pm _ _ _ _ _ _ _ _ _ I)) in Hs. lia. }
      pose proof (mapped_put KP kx kd _ _ _ _ _ _ _ x p perm _ I1 Hd Hx ltac:(by apply bad_perm_range) Hp0 Hm) as [P1 P2 P3 P4 P5 P6].
      constructor; [exact P1|by etrans| | |exact P5|intros k q Hk; destruct (P6 k q Hk); [by left|right; by right]].
      * eapply same_bytes_trans; [by eapply (alloc_bytes KP kx kd)|exact P3].
      * intros d1 x1 Hd1 Hx1. rewrite P4 by done. case_decide; [done|]. by eapply (ent_alloc KP kx kd).
Qed.

(** ** The result of fork *)

Definition child_env (upcall : Z) (en : Env) (e parent_id pgdir : Z) (tf : Trapframe) : Env :=
  set_env_status ENV_RUNNABLE (set_env_pgfault_upcall upcall (fork_env en e parent_id pgdir tf)).

(** The child [e] with directory [cd] is ready.  [px] is its exception stack. *)
Record forked s ds T Mp (c d upcall : Z) s' (e : Z) (en cen : Env) (cd px : Z) fl' T' Mp' el' : Prop := {
  fk_inv : kinv s' fl' ({[cd]} ∪ ds) T' Mp' el';
  fk_envs : envs s' = <[e := child_env upcall en e (env_id cen) (dir_kva cd) (env_tf cen)]> (envs s);
  fk_cur : cur_env s' = Some c;
  fk_cr3 : cr3 s' = cr3 s;
  fk_new : (cd ∉ ds) /\ forall k, Mp !! k <> Some px;
  fk_bytes : same_bytes (fun q => exists k, Mp !! k = Some q) s s';
  fk_stack : forall a, px * 4096 <= a < px * 4096 + 4096 -> getb (mem s') a = 0;
  fk_parent x : 0 <= x < NU -> ent s' T' d x = if decide (copied x) then own_ent (ent s T d x) else ent s T d x;
  fk_child x : 0 <= x < NU ->
    ent s' T' cd x = if decide (copied x) then dup_ent (ent s T d x)
                     else if decide (x = xstack_page) then Some (px, Z.lor (Z.lor PTE_U PTE_P) PTE_W) else None;
  fk_others d' x : d' ∈ ds -> d' <> d -> 0 <= x < NU -> ent s' T' d' x = ent s T d' x }.

(** The child exists but cannot run; all mappings and all pages are still there. *)
Definition unfinished s ds Mp s' : Prop := exists e en cen cd fl' T' Mp' el',
  kinv s' fl' ({[cd]} ∪ ds) T' Mp' el' /\ (cd ∉ ds) /\ Mp ⊆ Mp' /\ cur_env s' = cur_env s /\
  envs s' = <[e := fork_env en e (env_id cen) (dir_kva cd) (env_tf cen)]> (envs s) /\
  same_bytes (fun q => exists k, Mp !! k = Some q) s s'.

Definition fork_result s fl ds T Mp el (c d upcall : Z) (r : string + Z * Z) s' : Prop :=
  match r with
  | inl msg => msg = "sys_exofork failed"%string /\ s' = s /\ (el = [] \/ fl = [])
  | inr (v, thisenv) => thisenv = c /\
      ((v = - E_NO_MEM /\ unfinished s ds Mp s') \/
       exists e en cen cd px fl' T' Mp' el',
         envs s !! c = Some cen /\ el = e :: el' /\ envs s !! e = Some en /\ v = next_env_id (env_id en) e /\ 0 < v /\
         forked s ds T Mp c d upcall s' e en cen cd px fl' T' Mp' el')
  end.

(** The calls that set a field of the child. *)
Lemma field_set s fl ds T Mp el id e d f r s' :
  kinv s fl ds T Mp el -> points s ds id e d -> field_post s ds id f r s' ->
  exists en, r = 0 /\ envs s !! e = Some en /\ s' = set_envs (<[e := f en]> (envs s)) s.
Proof.
  intros I Hp [(_ & _ & Hn)|(-> & e' & en & d' & Ht & ->)].
  - exfalso. destruct Hp as (? & Ht & _). by eapply Hn.
  - destruct (points_det _ _ _ _ _ _ _ _ _ _ _ _ _ _ _ I Hp Ht) as [-> ->]. exists en. destruct Ht as (_ & He & _). done.
Qed.

(** A field that the invariant does not speak of keeps what an identifier names. *)
Lemma points_upd s ds id e d e' en f :
  points s ds id e d -> envs s !! e' = Some en -> (live en -> live (f en)) -> env_id (f en) = env_id en ->
  env_parent_id (f en) = env_parent_id en -> env_pgdir (f en) = env_pgdir en ->
  points (set_envs (<[e' := f en]> (envs s)) s) ds id e d.
Proof.
  intros (en0 & Ht & He & Hl & Hd & Hp) He' Hlv Hid Hpar Hpg.
  assert (exists en1, (<[e' := f en]> (envs s)) !! e = Some en1 /\ live en1 /\ env_id en1 = env_id en0 /\
    env_parent_id en1 = env_parent_id en0 /\ env_pgdir en1 = env_pgdir en0) as (en1 & L1 & L2 & L3 & L4 & L5).
  { destruct (decide (e' = e)) as [->|Hne].
    - simplify_eq. exists (f en0). rewrite lookup_insert_eq. auto.
    - exists en0. rewrite lookup_insert_ne by done. auto. }
  exists en1. unfold target_at. simpl. rewrite L5. split; [|auto]. unfold target in *. simpl. case_decide; [done|].
  destruct Ht as (en2 & He2 & Hl2 & Hi2 & Hc2). simplify_eq. exists en1. simpl. rewrite L3, L4. split; [done|].
  split; [done|]. split; [done|]. intros Hck. destruct (Hc2 Hck) as [?|(c & cen & Hc & Hcen & Hpe)]; [by left|]. right.
  destruct (decide (e' = c)) as [->|Hne].
  - simplify_eq. exists c, (f en). rewrite lookup_insert_eq. split_and!; [done|done|congruence].
  - exists c, cen. rewrite lookup_insert_ne by done. done.
Qed.

(** ** After sys_exofork *)

Lemma exofork_family s fl ds T Mp el c cen d e el' p fl' en s1 :
  kinv s fl ds T Mp el -> cur_env s = Some c -> envs s !! c = Some cen -> env_pgdir cen = dir_kva d -> d ∈ ds ->
  cr3 s = d * 4096 -> el = e :: el' -> envs s !! e = Some en -> (p ∉ ds) ->
  kinv s1 fl' ({[p]} ∪ ds) T Mp el' ->
  envs s1 = <[e := fork_env en e (env_id cen) (dir_kva p) (env_tf cen)]> (envs s) -> cur_env s1 = Some c -> cr3 s1 = cr3 s ->
  family s1 ({[p]} ∪ ds) c d (env_id cen) e p (next_env_id (env_id en) e) /\ 0 < next_env_id (env_id en) e.
Proof.
  intros I Hc Hcen Hpg Hd Hcr -> He Hp I1 Es Ec Ecr. pose proof (ki_env _ _ _ _ _ _ _ _ _ I) as W.
  destruct (ew_cur _ _ W c Hc) as (cen' & Hcen' & Hcl). simplify_eq.
  destruct (ew_id _ _ W e en He) as (Hid & _). destruct (ew_id _ _ W c cen Hcen) as (_ & _ & Hidc). specialize (Hidc Hcl).
  assert (0 <= e < NENV) as Hen by (apply (ew_dom _ _ W); eauto).
  destruct (next_env_id_ok (env_id en) e Hid Hen) as (Hn & _). split; [|lia].
  assert (c <> e) as Hce.
  { intros ->. assert (e ∈ e :: el') as Hin by (by left). by apply (ew_free _ _ W _ _ Hcen) in Hin. }
  assert (envs s1 !! c = Some cen) as Hc1 by (rewrite Es, lookup_insert_ne; done).
  assert (forall id, id = 0 \/ id = env_id cen -> points s1 ({[p]} ∪ ds) id c d) as Hself.
  { intros id Hi. exists cen. split; [|split_and!; [done|done|set_solver|done]]. unfold target. case_decide; [done|].
    destruct Hi as [|Hi]; [done|]. exists cen. rewrite Ec. auto. }
  constructor; [done|eauto|congruence|set_solver|set_solver|set_solver|apply Hself; auto|apply Hself; auto|].
  exists (fork_env en e (env_id cen) (dir_kva p) (env_tf cen)).
  assert (live (fork_env en e (env_id cen) (dir_kva p) (env_tf cen))) as Hlf by done.
  split; [|split_and!; [rewrite Es; apply lookup_insert_eq|done|set_solver|done]].
  unfold target. rewrite decide_False by lia. eexists. split; [rewrite Es; apply lookup_insert_eq|].
  split; [done|]. split; [done|]. intros _. right. exists c, cen. auto.
Qed.

(** The view just after sys_exofork. *)
Lemma exofork_view s fl ds T Mp el p fl' s1 :
  kinv s fl ds T Mp el -> fl = p :: fl' -> (p ∉ ds) -> same_bytes (fun q => q <> p) s s1 ->
  (forall d x, ent s1 T d x = ent s T d x) /\ (forall x, 0 <= x < NU -> ent s1 T p x = None) /\
  same_bytes (fun q => exists k, Mp !! k = Some q) s s1.
Proof.
  intros I E Hp B. split; [intros; by eapply (ent_alloc KP kx kd)|]. split; [|by eapply (alloc_bytes KP kx kd)].
  intros x Hx. unfold ent, pte_of. rewrite PDX_of_page by done. destruct (T !! (p, x / 1024)) as [t|] eqn:Ht; [|done].
  destruct (rep_Tdom _ _ _ _ _ _ (ki_pm _ _ _ _ _ _ _ _ _ I) _ _ _ Ht) as (? & _). done.
Qed.

Lemma exofork_room ds T Mp p :
  (p ∉ ds) -> refs ds T Mp p = 0 -> (forall q, 2 * refs ds T Mp q + kx q + 5 < 2^16) ->
  forall q, 2 * refs ({[p]} ∪ ds) T Mp q + kx q + 3 < 2^16.
Proof.
  intros Hp H0 H q. specialize (H q). rewrite refs_add_dir by done. case_decide; [subst|]; lia.
Qed.

(** The last calls of fork, on the state the loop ends in. *)
Lemma finish_ok s fl ds T Mp el c d upcall id ce cd cid :
  kinv s fl ds T Mp el -> family s ds c d id ce cd cid -> 0 < cid -> ent s T cd xstack_page = None ->
  wp (let? r := call (sys_page_alloc cid (UXSTACKTOP - PGSIZE) (Z.lor (Z.lor PTE_U PTE_P) PTE_W)) in
      if r <? 0 then uret (r, c)
      else
        let? r := call (sys_env_set_pgfault_upcall cid upcall) in
        if r <? 0 then uret (r, c)
        else
          let? _ := call_or_panic (sys_env_set_status cid ENV_RUNNABLE_val) "sys_env_set_status" in
          uret (cid, c))
     (fun r s' =>
        (r = inr (- E_NO_MEM, c) /\ pm_frame s s' /\ same_bytes (fun q => exists k, Mp !! k = Some q) s s' /\
          exists fl', kinv s' fl' ds T Mp el) \/
        (r = inr (cid, c) /\ exists cen p fl' T' s2, envs s !! ce = Some cen /\
          put ds el s fl T Mp cd xstack_page p (Z.lor (Z.lor PTE_U PTE_P) PTE_W) s2 fl' T' /\ refs ds T Mp p = 0 /\
          (forall a, p * 4096 <= a < p * 4096 + 4096 -> getb (mem s2) a = 0) /\
          s' = set_envs (<[ce := set_env_status ENV_RUNNABLE (set_env_pgfault_upcall upcall cen)]> (envs s)) s2 /\
          kinv s' fl' ds T' (<[(cd, xstack_page) := p]> Mp) el)) s.
Proof.
  intros I Fm Hcid Hn. pose proof Fm as [Hcur _ _ _ _ _ _ _ Hch].
  assert (is_Some (cur_env s)) as Hc by (by rewrite Hcur).
  rewrite xstack_val. apply wp_ubind, wp_call. eapply wp_mono; [eapply alloc_ok; [done|done|done|done|done]|].
  intros r s1 [(-> & F & B & _ & I1)|(-> & p & fl1 & T1 & H0 & Hp & Hz & P)]; simpl.
  { unfold wp, uret. wp_steps. by left. }
  pose proof (put_inv _ _ _ _ _ _ _ _ _ _ _ _ _ _ _ _ P) as I1. pose proof (put_frame _ _ _ _ _ _ _ _ _ _ _ _ _ _ _ _ P) as F1.
  pose proof (points_frame _ _ _ _ _ _ F1 Hch) as Hch1.
  apply wp_ubind, wp_call. eapply wp_mono; [eapply (sys_env_set_pgfault_upcall_ok KP kx kd); [exact I1|by rewrite (pm_frame_cur _ _ F1)]|].
  intros r s2 [Hf I2]. destruct (field_set _ _ _ _ _ _ _ _ _ _ _ _ I1 Hch1 Hf) as (cen & -> & He & ->). simpl.
  apply wp_ubind, wp_call_or_panic. eapply wp_mono.
  { eapply (sys_env_set_status_ok KP kx kd); [exact I2|]. simpl. by rewrite (pm_frame_cur _ _ F1). }
  assert (points (set_envs (<[ce := set_env_pgfault_upcall upcall cen]> (envs s1)) s1) ds cid ce cd) as Hch2 by (by apply points_upd).
  intros r s3 [(_ & _ & Hne & _)|[Hf' I3]]; [by destruct Hne|].
  destruct (field_set _ _ _ _ _ _ _ _ _ _ _ _ I2 Hch2 Hf') as (cen' & -> & He' & ->). simpl in He'. rewrite lookup_insert_eq in He'.
  injection He' as <-. simpl. unfold wp, uret. wp_steps. right. split; [done|]. exists cen, p, fl1, T1, s1.
  rewrite <- (pm_frame_envs _ _ F1). split; [done|]. split; [done|]. split; [done|]. split; [done|].
  simpl in I3 |- *. rewrite insert_insert_eq in I3 |- *. split; [done|exact I3].
Qed.

(** From the end of the loop to the result. *)
Lemma loop_forked s fl ds T Mp el c d upcall e el' p fl' en cen s1 s2 fl2 T2 Mp2 s3 px fl3 T3 s4 :
  kinv s fl ds T Mp el -> d ∈ ds -> fl = p :: fl' -> (p ∉ ds) -> same_bytes (fun q => q <> p) s s1 ->
  envs s1 = <[e := fork_env en e (env_id cen) (dir_kva p) (env_tf cen)]> (envs s) -> cur_env s1 = Some c -> cr3 s1 = cr3 s ->
  linv KP kx kd s1 ({[p]} ∪ ds) T Mp el' d p last_page s2 fl2 T2 Mp2 ->
  put ({[p]} ∪ ds) el' s2 fl2 T2 Mp2 p xstack_page px (Z.lor (Z.lor PTE_U PTE_P) PTE_W) s3 fl3 T3 ->
  refs ({[p]} ∪ ds) T2 Mp2 px = 0 ->
  (forall a, px * 4096 <= a < px * 4096 + 4096 -> getb (mem s3) a = 0) ->
  s4 = set_envs (<[e := set_env_status ENV_RUNNABLE (set_env_pgfault_upcall upcall
         (fork_env en e (env_id cen) (dir_kva p) (env_tf cen)))]> (envs s2)) s3 ->
  kinv s4 fl3 ({[p]} ∪ ds) T3 (<[(p, xstack_page) := px]> Mp2) el' ->
  forked s ds T Mp c d upcall s4 e en cen p px fl3 T3 (<[(p, xstack_page) := px]> Mp2) el'.
Proof.
  intros I Hd Efl Hp B Es Ec Ecr L P H0 Hz -> I4.
  destruct (exofork_view _ _ _ _ _ _ _ _ _ I Efl Hp B) as (V1 & V2 & V3).
  pose proof L as [_ Lf Lb Ls Lp Lc Lo _]. pose proof P as [_ Pf Pb Pe _ _].
  assert (d <> p) as Hdp by (intros ->; done).
  assert (forall d' x, d' ∈ {[p]} ∪ ds -> 0 <= x < NU -> (d', x) <> (p, xstack_page) -> ent s3 T3 d' x = ent s2 T2 d' x) as Pe'.
  { intros d' x Hd' Hx Hne. rewrite Pe by done. by rewrite decide_False. }
  constructor.
  - exact I4.
  - simpl. rewrite (pm_frame_envs _ _ Lf), Es, insert_insert_eq. done.
  - simpl. by rewrite (pm_frame_cur _ _ Pf), (pm_frame_cur _ _ Lf).
  - simpl. by rewrite (pm_frame_cr3 _ _ Pf), (pm_frame_cr3 _ _ Lf).
  - split; [done|]. intros k Hk. apply refs_zero in H0 as (_ & _ & H0). apply (H0 k). by eapply lookup_weaken.
  - eapply same_bytes_trans; [exact V3|]. eapply same_bytes_trans; [exact Lb|].
    eapply same_bytes_weaken; [exact Pb|]. intros q [k Hk]. exists k. by eapply lookup_weaken.
  - exact Hz.
  - intros x Hx. change (ent s3 T3 d x = if decide (copied x) then own_ent (ent s T d x) else ent s T d x).
    rewrite Pe', Lp by (done || set_solver || congruence). by rewrite V1.
  - intros x Hx. change (ent s3 T3 p x = if decide (copied x) then dup_ent (ent s T d x)
      else if decide (x = xstack_page) then Some (px, Z.lor (Z.lor PTE_U PTE_P) PTE_W) else None).
    destruct (decide (x = xstack_page)) as [->|Hne].
    + rewrite Pe by (done || set_solver). rewrite decide_True by done. rewrite decide_False; [done|]. unfold copied. by vm_compute; intros [].
    + rewrite Pe', Lc by (done || set_solver || congruence). by rewrite V1.
  - intros d' x Hd' Hne Hx. change (ent s3 T3 d' x = ent s T d' x).
    assert (d' <> p) as Hne' by (intros ->; done).
    rewrite Pe', Lo by (done || set_solver || congruence). by rewrite V1.
Qed.

Lemma body_ok s fl ds T Mp el c cen d upcall :
  kinv s fl ds T Mp el -> cur_env s = Some c -> envs s !! c = Some cen -> env_pgdir cen = dir_kva d -> d ∈ ds ->
  cr3 s = d * 4096 -> (forall q, 2 * refs ds T Mp q + kx q + 5 < 2^16) ->
  wp (let? envid := call sys_exofork in fork_from upcall c envid) (fork_result s fl ds T Mp el c d upcall) s.
Proof.
  intros I Hc Hcen Hpg Hd Hcr Hroom. apply wp_ubind, wp_call.
  eapply wp_mono; [eapply (sys_exofork_ok KP kx kd); [exact I|by rewrite Hc]|].
  intros r s1 [(-> & -> & ->)|[(-> & -> & ->)|(c' & cen' & e & el' & p & fl' & en & Hc' & Hcen' & -> & -> & He & Hp & I1 & _ & Es & Ec & B & -> & Ecr)]];
    [unfold wp, fork_from, upanic; simpl; wp_steps; simpl; auto..|].
  simplify_eq.
  destruct (exofork_family _ _ _ _ _ _ _ _ _ _ _ _ _ _ _ I Hc Hcen Hpg Hd Hcr eq_refl He Hp I1 Es Ec Ecr) as [Fm Hcid].
  destruct (exofork_view _ _ _ _ _ _ _ _ _ I eq_refl Hp B) as (V1 & V2 & V3).
  pose proof (free_refs _ _ _ _ _ _ _ _ _ p I ltac:(by left)) as Hp0.
  unfold fork_from. destruct (Z.ltb_spec (next_env_id (env_id en) e) 0); [lia|].
  destruct (Z.eqb_spec (next_env_id (env_id en) e) 0); [lia|].
  apply wp_ubind, wp_call. eapply wp_mono.
  { eapply (dup_loop_ok KP kx kd s1 ({[p]} ∪ ds) T Mp el'); [exact I1|exact Fm|by apply exofork_room|exact V2]. }
  assert (forall s2 fl2 T2 Mp2 v, linv KP kx kd s1 ({[p]} ∪ ds) T Mp el' d p v s2 fl2 T2 Mp2 ->
    forall s3 fl3, kinv s3 fl3 ({[p]} ∪ ds) T2 Mp2 el' -> pm_frame s2 s3 ->
    same_bytes (fun q => exists k, Mp2 !! k = Some q) s2 s3 -> unfinished s ds Mp s3) as Hun.
  { intros s2 fl2 T2 Mp2 v L s3 fl3 I3 F3 B3. pose proof L as [_ Lf Lb Ls _ _ _ _].
    exists e, en, cen, p, fl3, T2, Mp2, el'. split; [done|]. split; [done|]. split; [done|].
    split; [rewrite (pm_frame_cur _ _ F3), (pm_frame_cur _ _ Lf); congruence|].
    split; [rewrite (pm_frame_envs _ _ F3), (pm_frame_envs _ _ Lf); done|].
    eapply same_bytes_trans; [exact V3|]. eapply same_bytes_trans; [exact Lb|].
    eapply same_bytes_weaken; [exact B3|]. intros q [k Hk]. exists k. by eapply lookup_weaken. }
  intros r s2 (v & fl2 & T2 & Mp2 & Hv & L & Hr). destruct r as [er|].
  { subst er. unfold wp, uret. wp_steps. simpl. split; [done|]. left. split; [done|]. eapply Hun; [exact L|apply L|done|by intros q a _ _]. }
  subst v. pose proof (family_frame _ _ _ _ _ _ _ _ _ (l_frame _ _ _ _ _ _ _ _ _ _ _ _ _ _ _ L) Fm) as Fm2.
  eapply wp_mono; [eapply finish_ok; [apply L|exact Fm2|exact Hcid|]|].
  { rewrite (l_chi _ _ _ _ _ _ _ _ _ _ _ _ _ _ _ L) by done. rewrite decide_False; [done|]. by vm_compute; intros []. }
  intros r s4 [(-> & F3 & B3 & fl3 & I3)|(-> & cen2 & px & fl3 & T3 & s3 & He2 & P & H0 & Hz & Es4 & I4)]; simpl; (split; [done|]).
  - left. split; [done|]. by eapply Hun.
  - right. rewrite (pm_frame_envs _ _ (l_frame _ _ _ _ _ _ _ _ _ _ _ _ _ _ _ L)), Es, lookup_insert_eq in He2. injection He2 as <-.
    exists e, en, cen, p, px, fl3, T3, (<[(p, xstack_page):=px]> Mp2), el'.
    split; [done|]. split; [done|]. split; [done|]. split; [done|]. split; [done|].
    eapply loop_forked; try done.
Qed.

(** ** set_pgfault_handler *)

(** The state once the handler is installed: the first time the parent gets an
    exception stack, if there is memory, and the upcall. *)
Record prepared s ds T Mp el (c : Z) (cen : Env) (d upcall handler : Z) s0 fl0 T0 Mp0 : Prop := {
  pr_inv : kinv s0 fl0 ds T0 Mp0 el;
  pr_cur : cur_env s0 = cur_env s;
  pr_cr3 : cr3 s0 = cr3 s;
  pr_envs : envs s0 = if handler =? 0 then <[c := set_env_pgfault_upcall upcall cen]> (envs s) else envs s;
  pr_bytes : same_bytes (fun q => exists k, Mp !! k = Some q) s s0;
  pr_ent d' x : d' ∈ ds -> 0 <= x < NU -> (handler = 0 -> (d', x) <> (d, xstack_page)) -> ent s0 T0 d' x = ent s T d' x;
  pr_refs q : refs ds T0 Mp0 q <= refs ds T Mp q \/ refs ds T Mp q = 0 /\ refs ds T0 Mp0 q <= 2 }.

Lemma put_fresh_refs ds el s fl T Mp d x p perm s' fl' T' q :
  put ds el s fl T Mp d x p perm s' fl' T' -> refs ds T Mp p = 0 ->
  refs ds T' (<[(d, x) := p]> Mp) q <= refs ds T Mp q \/
  refs ds T Mp q = 0 /\ refs ds T' (<[(d, x) := p]> Mp) q <= 2.
Proof.
  intros P H0. rewrite refs_insert. destruct (put_tables _ _ _ _ _ _ _ _ _ _ _ _ _ _ _ _ P q) as [Ht|[Hz Ht]].
  - destruct (decide (p = q)) as [->|].
    + right. split; [done|]. destruct (Mp !! (d, x)); repeat case_decide; lia.
    + left. destruct (Mp !! (d, x)); repeat case_decide; lia.
  - right. split; [done|]. destruct (Mp !! (d, x)); repeat case_decide; lia.
Qed.

Lemma getenvid_ok s c cen : cur_env s = Some c -> envs s !! c = Some cen -> wp sys_getenvid (fun r s' => r = env_id cen /\ s' = s) s.
Proof.
  intros Hc Hcen. unfold wp, sys_getenvid, curenv. wp_steps. rewrite Hc. wp_steps.
  eapply wpe_get_env; [done|]. by wp_steps.
Qed.

Lemma self_points s fl ds T Mp el c cen d :
  kinv s fl ds T Mp el -> cur_env s = Some c -> envs s !! c = Some cen -> env_pgdir cen = dir_kva d -> d ∈ ds ->
  points s ds (env_id cen) c d.
Proof.
  intros I Hc Hcen Hpg Hd. pose proof (ki_env _ _ _ _ _ _ _ _ _ I) as W.
  destruct (ew_cur _ _ W c Hc) as (cen' & Hcen' & Hcl). simplify_eq.
  destruct (ew_id _ _ W c cen Hcen) as (_ & _ & Hid). specialize (Hid Hcl).
  exists cen. split; [|done]. unfold target. rewrite decide_False by done. exists cen. auto.
Qed.

Lemma handler_ok s fl ds T Mp el c cen d upcall handler new :
  kinv s fl ds T Mp el -> cur_env s = Some c -> envs s !! c = Some cen -> env_pgdir cen = dir_kva d -> d ∈ ds ->
  wp (set_pgfault_handler upcall handler new) (fun r s0 => r = new /\
    exists fl0 T0 Mp0, prepared s ds T Mp el c cen d upcall handler s0 fl0 T0 Mp0) s.
Proof.
  intros I Hc Hcen Hpg Hd. unfold wp, set_pgfault_handler. destruct (Z.eqb_spec handler 0) as [->|Hh].
  2:{ wp_steps. split; [done|]. exists fl, T, Mp. constructor; try done.
      - by rewrite (proj2 (Z.eqb_neq handler 0)).
      - intros q. left. lia. }
  pose proof (self_points _ _ _ _ _ _ _ _ _ I Hc Hcen Hpg Hd) as Hp.
  wp_steps. eapply wp_wpe; [by eapply getenvid_ok|]. intros id s1 [-> ->]. rewrite xstack_val. wp_steps.
  eapply wp_wpe; [eapply alloc_ok; [exact I|by rewrite Hc|exact Hp|done|done]|]. intros r s1 A.
  assert (exists fl1 T1 Mp1, kinv s1 fl1 ds T1 Mp1 el /\ pm_frame s s1 /\
    same_bytes (fun q => exists k, Mp !! k = Some q) s s1 /\
    (forall d' x, d' ∈ ds -> 0 <= x < NU -> (d', x) <> (d, xstack_page) -> ent s1 T1 d' x = ent s T d' x) /\
    (forall q, refs ds T1 Mp1 q <= refs ds T Mp q \/ refs ds T Mp q = 0 /\ refs ds T1 Mp1 q <= 2)) as
    (fl1 & T1 & Mp1 & I1 & F1 & B1 & E1 & R1).
  { destruct A as [(_ & F & B & E & fl' & I')|(_ & p & fl' & T' & H0 & _ & _ & P)].
    - exists fl', T, Mp. split_and!; auto. intros q. left. lia.
    - eexists fl', T', _. split; [apply P|]. split; [apply P|]. split; [apply P|]. split.
      + intros d' x Hd' Hx Hne. rewrite (put_ent _ _ _ _ _ _ _ _ _ _ _ _ _ _ _ _ P) by done. by rewrite decide_False.
      + intros q. by eapply put_fresh_refs. }
  wp_steps. eapply wp_wpe; [eapply (getenvid_ok _ c cen); [by rewrite (pm_frame_cur _ _ F1)|by rewrite (pm_frame_envs _ _ F1)]|].
  intros id s2 [-> ->]. wp_steps.
  eapply wp_wpe; [eapply (sys_env_set_pgfault_upcall_ok KP kx kd); [exact I1|by rewrite (pm_frame_cur _ _ F1), Hc]|].
  intros r2 s2 [Hf I2]. destruct (field_set _ _ _ _ _ _ _ _ _ _ _ _ I1 (points_frame _ _ _ _ _ _ F1 Hp) Hf) as (en & -> & He & ->).
  rewrite (pm_frame_envs _ _ F1), Hcen in He. injection He as <-. wp_steps. split; [done|]. exists fl1, T1, Mp1.
  constructor; simpl; [exact I2|apply (pm_frame_cur _ _ F1)|apply (pm_frame_cr3 _ _ F1)|by rewrite (pm_frame_envs _ _ F1)|exact B1| |exact R1].
  intros d' x Hd' Hx Hne. apply E1; [done|done|by apply Hne].
Qed.

(** ** All of fork *)

Lemma jos_fork_ok s fl ds T Mp el c cen d pgfault_fn upcall handler :
  kinv s fl ds T Mp el -> cur_env s = Some c -> envs s !! c = Some cen -> env_pgdir cen = dir_kva d -> d ∈ ds ->
  cr3 s = d * 4096 -> (forall q, 2 * refs ds T Mp q + kx q + 9 < 2^16) ->
  wp (fork pgfault_fn upcall handler c) (fun r s' => exists s0 fl0 T0 Mp0,
    prepared s ds T Mp el c cen d upcall handler s0 fl0 T0 Mp0 /\ fork_result s0 fl0 ds T0 Mp0 el c d upcall r s') s.
Proof.
  intros I Hc Hcen Hpg Hd Hcr Hroom. unfold fork. apply wp_ubind, wp_call. eapply wp_mono; [by eapply handler_ok|].
  intros r s0 (-> & fl0 & T0 & Mp0 & P). pose proof P as [I0 Pc Pcr Pe _ _ Pr].
  eapply wp_mono; [eapply (body_ok s0 fl0 ds T0 Mp0 el c (if handler =? 0 then set_env_pgfault_upcall upcall cen else cen) d)|].
  - exact I0.
  - congruence.
  - rewrite Pe. destruct (handler =? 0); [apply lookup_insert_eq|done].
  - by destruct (handler =? 0).
  - done.
  - congruence.
  - intros q. specialize (Hroom q). destruct (Pr q) as [H|[H H']]; lia.
  - intros r s' R. by exists s0, fl0, T0, Mp0.
Qed.

(** ** Pages without write permission *)

Lemma no_write s fl ds T Mp el d x p perm va :
  kinv s fl ds T Mp el -> d ∈ ds -> cr3 s = d * 4096 -> 0 <= x < NU -> ent s T d x = Some (p, perm) ->
  flag perm PTE_W = false -> va / 4096 = x -> user_pa s va true = None.
Proof.
  intros I Hd Hc Hx He Hw Hva. pose proof (dir_small _ _ _ _ _ _ _ _ _ _ I Hd) as Hdn.
  destruct (rep_Mdom _ _ _ _ _ _ (ki_pm _ _ _ _ _ _ _ _ _ I) _ _ _ (ent_page _ _ _ _ _ _ _ _ _ _ _ _ _ I Hd Hx He)) as ([t Ht] & _).
  assert (0 <= va < 2^32) as Hv by (unfold NU in Hx; Z.div_mod_to_equations; lia).
  assert (PDX va = x / 1024 /\ PTX va = x mod 1024) as [E1 E2].
  { rewrite <- Hva. rewrite PTX_div, PDX_small by done. split; [|done]. change (2^22) with (4096 * 1024). by rewrite Z.div_div. }
  pose proof (ent_entry _ _ _ _ _ _ He) as (_ & _ & Hfl & _). unfold ent, pte_of in *. rewrite PDX_of_page, PTX_of_page, Ht in * by lia.
  unfold user_pa. rewrite Hc, cr3_dir by done. rewrite E1, E2. destruct (negb _); [done|].
  pose proof (rep_T _ _ _ _ _ _ (ki_pm _ _ _ _ _ _ _ _ _ I) d (x / 1024) Hd (page_index x Hx)) as HT.
  rewrite Ht in HT. unfold decode in HT. destruct (present (word (mem s) d (x / 1024))); [|done]. injection HT as ->.
  rewrite PTE_ADDR_spec by apply word_range. fold (word (mem s) (PGNUM (word (mem s) d (x / 1024))) (x mod 1024)).
  specialize (Hfl PTE_W ltac:(by vm_compute)). rewrite Hw in Hfl.
  destruct (Z.eqb_spec (Z.land (word (mem s) (PGNUM (word (mem s) d (x / 1024))) (x mod 1024)) (Z.lor (Z.lor PTE_P PTE_W) PTE_U)) (Z.lor (Z.lor PTE_P PTE_W) PTE_U)) as [E|]; [|done].
  exfalso. apply negb_false_iff, Z.eqb_eq in Hfl. apply (land_sub _ _ PTE_W) in E; [|done]. rewrite Hfl in E. done.
Qed.
End fork.

(** * The page fault handler of fork.c: a private copy of the page *)

(** The page number of PFTEMP. *)
Definition pft_page : Z := 0x7FF.
Lemma pft_val : PFTEMP = pft_page * 4096.
Proof. reflexivity. Qed.

(** A flag of one bit. *)
Lemma flag_bit e i : 0 <= i -> flag e (Z.shiftl 1 i) = true -> Z.land e (Z.shiftl 1 i) = Z.shiftl 1 i.
Proof.
  intros Hi. rewrite flag_testbit by done. intros Hb. rewrite Z.shiftl_1_l. apply Z.bits_inj'. intros n Hn.
  rewrite Z.land_spec, Z.pow2_bits_eqb by done. destruct (Z.eqb_spec i n) as [->|]; [by rewrite Hb|apply andb_false_r].
Qed.

Section fault.
Context (KP : gset Z) (kx : Z -> Z) (kd : Z).
Implicit Types (s : kst) (fl el : list Z) (ds : gset Z) (T Mp : gmap (Z * Z) Z).
Local Notation kinv := (kinv KP kx kd).
Local Notation put := (put KP kx kd).

(** ** User accesses *)

Lemma user_pa_ok s fl ds T Mp el d x p perm va st :
  kinv s fl ds T Mp el -> d ∈ ds -> cr3 s = d * 4096 -> 0 <= x < NU -> ent s T d x = Some (p, perm) ->
  flag perm PTE_U = true -> (st = true -> flag perm PTE_W = true) -> va / 4096 = x ->
  user_pa s va st = Some (p * 4096 + va mod 4096).
Proof.
  intros I Hd Hc Hx He Hu Hw Hva. pose proof (dir_small _ _ _ _ _ _ _ _ _ _ I Hd) as Hdn.
  destruct (rep_Mdom _ _ _ _ _ _ (ki_pm _ _ _ _ _ _ _ _ _ I) _ _ _ (ent_page _ _ _ _ _ _ _ _ _ _ _ _ _ I Hd Hx He)) as ([t Ht] & _).
  assert (0 <= va < 2^32) as Hv by (unfold NU in Hx; Z.div_mod_to_equations; lia).
  assert (PDX va = x / 1024 /\ PTX va = x mod 1024) as [E1 E2].
  { rewrite <- Hva. rewrite PTX_div, PDX_small by done. split; [|done]. change (2^22) with (4096 * 1024). by rewrite Z.div_div. }
  pose proof (ent_entry _ _ _ _ _ _ He) as (_ & Hp & Hfl & _). unfold ent, pte_of in *. rewrite PDX_of_page, PTX_of_page, Ht in * by lia.
  unfold user_pa. rewrite Hc, cr3_dir by done. rewrite E1, E2.
  pose proof (rep_T _ _ _ _ _ _ (ki_pm _ _ _ _ _ _ _ _ _ I) d (x / 1024) Hd (page_index x Hx)) as HT.
  pose proof (rep_pde _ _ _ _ _ _ (ki_pm _ _ _ _ _ _ _ _ _ I) d (x / 1024) t Ht) as H7.
  rewrite Ht in HT. unfold decode in HT. destruct (present (word (mem s) d (x / 1024))); [|done]. injection HT as ->.
  set (e := word (mem s) (PGNUM (word (mem s) d (x / 1024))) (x mod 1024)) in *.
  assert (Z.land e PTE_P = PTE_P) as B1 by (apply (flag_bit e 0); [done|]; change (flag e PTE_P = true); rewrite (Hfl PTE_P); done).
  assert (Z.land e PTE_U = PTE_U) as B4 by (apply (flag_bit e 2); [done|]; change (flag e PTE_U = true); rewrite (Hfl PTE_U); done).
  assert (Z.land e (if st then Z.lor (Z.lor PTE_P PTE_W) PTE_U else Z.lor PTE_P PTE_U) =
    if st then Z.lor (Z.lor PTE_P PTE_W) PTE_U else Z.lor PTE_P PTE_U) as Be.
  { destruct st; rewrite !Z.land_lor_distr_r, B1, B4; [|done].
    assert (Z.land e PTE_W = PTE_W) as -> by (apply (flag_bit e 1); [done|]; change (flag e PTE_W = true); rewrite (Hfl PTE_W) by (by vm_compute); auto). done. }
  assert (Z.land (word (mem s) d (x / 1024)) (if st then Z.lor (Z.lor PTE_P PTE_W) PTE_U else Z.lor PTE_P PTE_U) =
    if st then Z.lor (Z.lor PTE_P PTE_W) PTE_U else Z.lor PTE_P PTE_U) as Bd by (eapply land_sub; [exact H7|by destruct st]).
  rewrite Bd, Z.eqb_refl. cbn [negb]. rewrite (PTE_ADDR_spec (word (mem s) d (x / 1024))) by apply word_range.
  fold (word (mem s) (PGNUM (word (mem s) d (x / 1024))) (x mod 1024)). fold e. rewrite Be, Z.eqb_refl. cbn [negb].
  rewrite PTE_ADDR_spec, PGOFF_mod by apply word_range. cbv zeta in He. destruct (present e); [|done]. by injection He as <- _.
Qed.

(** ** Copying the page *)

(** A state that differs in the bytes of page [p'] only. *)
Lemma ent_user_page s m fl ds T Mp el k p' d x :
  kinv s fl ds T Mp el -> Mp !! k = Some p' -> same_bytes (fun q => q <> p') s (set_mem m s) ->
  ent (set_mem m s) T d x = ent s T d x.
Proof.
  intros I Hk B. destruct (mapped_user_page _ _ _ _ _ _ _ _ _ _ _ I Hk) as [(_ & _ & _ & HT) _].
  eapply (ent_ext KP kx kd); [exact I|]. intros q j [k' Hq] Hj. eapply same_bytes_word; [exact B| |done].
  simpl. intros ->. by eapply HT.
Qed.

Lemma copy_ok s fl ds T Mp el d x p perm y p' n o m :
  kinv s fl ds T Mp el -> d ∈ ds -> cr3 s = d * 4096 -> 0 <= x < NU -> 0 <= y < NU ->
  ent s T d x = Some (p, perm) -> flag perm PTE_U = true -> ent s T d y = Some (p', 7) -> p <> p' ->
  same_bytes (fun q => q <> p') s (set_mem m s) -> 0 <= o -> o + Z.of_nat n = 4096 ->
  (forall i, 0 <= i < o -> getb m (p' * 4096 + i) = getb (mem s) (p * 4096 + i)) ->
  wp (ucopy (y * 4096 + o) (x * 4096 + o) n) (fun _ s' => exists m', s' = set_mem m' s /\
    same_bytes (fun q => q <> p') s s' /\ forall i, 0 <= i < 4096 -> getb m' (p' * 4096 + i) = getb (mem s) (p * 4096 + i)) (set_mem m s).
Proof.
  intros I Hd Hc Hx Hy He Hu He' Hne. revert o m. induction n as [|n IH]; intros o m B Ho Hn Hcp; unfold wp; cbn [ucopy]; wp_steps.
  { exists m. split; [done|]. split; [done|]. intros i Hi. apply Hcp. lia. }
  pose proof (ent_page _ _ _ _ _ _ _ _ _ _ _ _ _ I Hd Hy He') as HM.
  pose proof (kinv_user_page _ _ _ _ _ _ _ _ _ _ _ _ I HM B) as I1.
  pose proof (ent_user_page _ _ _ _ _ _ _ _ _ d x I HM B) as Ex. pose proof (ent_user_page _ _ _ _ _ _ _ _ _ d y I HM B) as Ey.
  assert (forall z, (z * 4096 + o) / 4096 = z /\ (z * 4096 + o) mod 4096 = o) as Hz by (intros z; Z.div_mod_to_equations; lia).
  unfold uload8, ustore8. wp_steps. unfold id.
  rewrite (user_pa_ok (set_mem m s) fl ds T Mp el d x p perm) by (done || congruence || apply Hz).
  wp_steps. unfold id. rewrite (user_pa_ok (set_mem m s) fl ds T Mp el d y p' 7) by (done || congruence || apply Hz).
  wp_steps. rewrite (proj2 (Hz x)), (proj2 (Hz y)).
  replace (y * 4096 + o + 1) with (y * 4096 + (o + 1)) by lia. replace (x * 4096 + o + 1) with (x * 4096 + (o + 1)) by lia.
  match goal with |- wpe _ _ _ (set_mem ?m1 (set_mem m s)) => set (m' := m1); change (set_mem m' (set_mem m s)) with (set_mem m' s) end.
  assert (getb m (p * 4096 + o) = getb (mem s) (p * 4096 + o)) as Eb by (apply (B p); [done|lia]).
  apply IH; [|lia|lia|].
  - intros q a Hq Ha. unfold m'. simpl. rewrite getb_setb_ne; [by apply (B q)|]. lia.
  - intros i Hi. unfold m'. simpl. rewrite getb_setb. case_decide as E.
    + assert (i = o) as -> by lia. by rewrite u8_getb.
    + apply Hcp. lia.
Qed.

(** ** The handler *)

(** The fault is a write to a page marked copy-on-write. *)
Definition cow_fault s T (d x err : Z) : bool :=
  flag err FEC_WR && match ent s T d x with Some (_, perm) => flag perm PTE_COW | None => false end.

Lemma va_page va : 0 <= va < UTOP ->
  0 <= va / 4096 < NU /\ PDX va = va / 4096 / 1024 /\ PGNUM va = va / 4096 /\ ROUNDDOWN va PGSIZE = va / 4096 * 4096.
Proof.
  rewrite UTOP_val. intros Hv. split; [unfold NU; Z.div_mod_to_equations; lia|]. split; [|split].
  - rewrite PDX_small by lia. change (2^22) with (4096 * 1024). by rewrite Z.div_div.
  - apply PGNUM_div.
  - unfold ROUNDDOWN, PGSIZE. rewrite u32_small by lia. Z.div_mod_to_equations. lia.
Qed.

(** The tests at the start of pgfault. *)
Lemma check_ok s fl ds T Mp el d va err :
  kinv s fl ds T Mp el -> d ∈ ds -> cr3 s = d * 4096 -> 0 <= va < UTOP ->
  wp (if negb (flag err FEC_WR) then ret false
      else
        let! pde := uvpd (PDX va) in
        if negb (flag pde PTE_P) then ret false
        else
          let! pte := uvpt (PGNUM va) in
          if negb (flag pte PTE_P) then ret false
          else let! pte' := uvpt (PGNUM va) in ret (flag pte' PTE_COW))
     (fun r s' => r = cow_fault s T d (va / 4096) err /\ s' = s) s.
Proof.
  intros I Hd Hc Hva. destruct (va_page va Hva) as (Hx & -> & -> & _). set (x := va / 4096) in *.
  unfold wp, cow_fault. destruct (flag err FEC_WR); simpl; wp_steps; [|done].
  eapply wp_wpe; [eapply (uvpd_ok KP kx kd s fl ds T Mp el d); [done|done|done|]|].
  { pose proof (page_index x Hx). rewrite UPDX_val in *. lia. }
  intros e s' [-> ->]. rewrite (pde_present KP kx kd _ _ _ _ _ _ _ _ I Hd Hx).
  destruct (bool_decide_reflect (is_Some (T !! (d, x / 1024)))) as [[t Ht]|Hn]; simpl; wp_steps.
  2:{ unfold ent, pte_of. rewrite PDX_of_page by done. destruct (T !! (d, x / 1024)); [exfalso; eauto|done]. }
  pose proof (uvpt_ok KP kx kd s fl ds T Mp el d x t I Hd Hc Hx Ht) as Hu.
  eapply wp_wpe; [exact Hu|]. intros e s' [-> ->]. unfold ent. cbv zeta. change (flag (pte_of s T d (x * 4096)) PTE_P) with (present (pte_of s T d (x * 4096))).
  destruct (present (pte_of s T d (x * 4096))); simpl; wp_steps; [|done].
  eapply wp_wpe; [exact Hu|]. intros e s' [-> ->]. wp_steps. split; [|done]. by rewrite flag_low by (by vm_compute).
Qed.

(** The page at [x] of [d] is now the private copy [p'] of [p]. *)
Record private s ds T Mp el (d x p p' : Z) s' fl' T' Mp' : Prop := {
  pv_inv : kinv s' fl' ds T' Mp' el;
  pv_frame : pm_frame s s';
  pv_new : refs ds T Mp p' = 0;
  pv_ent : ent s' T' d x = Some (p', 7);
  pv_copy o : 0 <= o < 4096 -> getb (mem s') (p' * 4096 + o) = getb (mem s) (p * 4096 + o);
  pv_temp : ent s' T' d pft_page = None;
  pv_others d' x' : d' ∈ ds -> 0 <= x' < NU -> (d', x') <> (d, x) -> (d', x') <> (d, pft_page) ->
    ent s' T' d' x' = ent s T d' x';
  pv_bytes : same_bytes (fun q => exists k, k <> (d, pft_page) /\ Mp !! k = Some q) s s' }.

Definition fault_result s ds T Mp el (d x err : Z) (r : string + unit) s' : Prop :=
  if cow_fault s T d x err then
    match r with
    | inl msg => msg = "pgfault: page allocation fault"%string /\ (forall d' x', ent s' T d' x' = ent s T d' x') /\
        same_bytes (fun q => exists k, Mp !! k = Some q) s s' /\ exists fl', kinv s' fl' ds T Mp el
    | inr _ => exists p perm p' fl' T' Mp', ent s T d x = Some (p, perm) /\ private s ds T Mp el d x p p' s' fl' T' Mp'
    end
  else r = inl "Neither the fault is a write nor COW page."%string /\ s' = s.

(** The last two calls, once the copy is made. *)
Lemma replace_ok s fl ds T Mp el d x id c p' perm :
  kinv s fl ds T Mp el -> is_Some (cur_env s) -> points s ds id c d -> few_refs kx ds T Mp -> 0 <= x < NU -> x <> pft_page ->
  ent s T d pft_page = Some (p', 7) -> ent s T d x = Some perm ->
  wp (let? _ := call_or_panic (sys_page_map id PFTEMP id (x * 4096) (Z.lor (Z.lor PTE_P PTE_W) PTE_U)) "pgfault: page map failed" in
      let? _ := call_or_panic (sys_page_unmap id PFTEMP) "pgfault: page unmap failed" in uret tt)
     (fun r s' => r = inr tt /\ exists fl' T' Mp', kinv s' fl' ds T' Mp' el /\ pm_frame s s' /\
        same_bytes (fun q => exists k, Mp !! k = Some q) s s' /\
        (forall d' x', d' ∈ ds -> 0 <= x' < NU ->
          ent s' T' d' x' = if decide ((d', x') = (d, pft_page)) then None
                            else if decide ((d', x') = (d, x)) then Some (p', 7) else ent s T d' x')) s.
Proof.
  intros I Hc Hp Hfew Hx Hne Het Hex. pose proof Hp as (en & Hta). pose proof Hta as (_ & _ & _ & Hd & _). rewrite pft_val.
  apply wp_ubind, wp_call_or_panic. eapply wp_mono; [eapply (map_ok KP kx kd); try done|].
  intros r s1 [(-> & _ & HT)|(-> & fl1 & T1 & P)]; simpl.
  { exfalso. unfold ent, pte_of in Hex. rewrite PDX_of_page, HT in Hex by done. done. }
  pose proof P as [I1 F1 B1 E1 _ P6].
  apply wp_ubind, wp_call_or_panic.
  eapply wp_mono; [eapply (sys_page_unmap_ok KP kx kd); [exact I1|by rewrite (pm_frame_cur _ _ F1)|done]|].
  pose proof (points_frame _ _ _ _ _ _ F1 Hp) as Hp1.
  intros r s2 [(_ & _ & Hn)|[(_ & _ & Hb)|(-> & e2 & en2 & d2 & Ht2 & F2 & I2 & _ & W2 & B2)]].
  { exfalso. destruct Hp1 as (? & Ht1 & _). by eapply Hn. }
  { done. }
  destruct (points_det _ _ _ _ _ _ _ _ _ _ _ _ _ _ _ I1 Hp1 Ht2) as [-> ->]. simpl. unfold wp, uret. wp_steps.
  rewrite vkey_page in I2. split; [done|]. eexists _, T1, _. split; [exact I2|]. split; [by etrans|]. split.
  - eapply same_bytes_trans; [exact B1|]. eapply same_bytes_weaken; [exact B2|]. intros q [k Hk].
    destruct (mapped_user_page _ _ _ _ _ _ _ _ _ _ _ I Hk) as [(_ & Hfl & _ & HT) _].
    intros k' Hk'. destruct (P6 k' q Hk') as [?|?]; [by eapply HT|done].
  - intros d' x' Hd' Hx'. rewrite (ent_removed KP kx kd s1 fl1 ds T1 _ el d pft_page s2 _ d' x' I1 I2 W2) by done.
    case_decide; [done|]. by rewrite E1.
Qed.

Lemma pgfault_ok s fl ds T Mp el c cen d va err :
  kinv s fl ds T Mp el -> cur_env s = Some c -> envs s !! c = Some cen -> env_pgdir cen = dir_kva d -> d ∈ ds ->
  cr3 s = d * 4096 -> (forall q, refs ds T Mp q + kx q + 4 < 2^16) -> 0 <= va < UTOP -> va / 4096 <> pft_page ->
  (forall p perm, ent s T d (va / 4096) = Some (p, perm) -> flag perm PTE_U = true) ->
  wp (pgfault va err) (fault_result s ds T Mp el d (va / 4096) err) s.
Proof.
  intros I Hc Hcen Hpg Hd Hcr Hroom Hva Hne HU. pose proof (va_page va Hva) as (Hx & _ & _ & Er).
  unfold pgfault. rewrite Er. assert (Z.of_nat (Z.to_nat PGSIZE) = 4096) as Hn by (unfold PGSIZE; lia).
  revert Hn. generalize (Z.to_nat PGSIZE). intros n Hn.
  apply wp_ubind, wp_call. eapply wp_mono; [by eapply check_ok|].
  intros ok s1 [-> ->]. unfold fault_result. set (x := va / 4096) in *.
  destruct (cow_fault s T d x err) eqn:Ef; simpl; [|unfold wp, upanic; by wp_steps].
  unfold cow_fault in Ef. apply andb_true_iff in Ef as [_ Ef]. destruct (ent s T d x) as [[p perm]|] eqn:He; [|done].
  specialize (HU p perm eq_refl).
  pose proof (self_points _ _ _ _ _ _ _ _ _ _ _ _ I Hc Hcen Hpg Hd) as Hp.
  apply wp_ubind, wp_call. eapply wp_mono; [by eapply getenvid_ok|]. intros id s1 [-> ->].
  rewrite pft_val. apply wp_ubind, wp_call_or_panic.
  eapply wp_mono; [eapply (alloc_ok KP kx kd); [exact I|by rewrite Hc|exact Hp|done|done]|].
  intros r s1 [(-> & F & B & E & I1)|(-> & p' & fl1 & T1 & H0 & Hpf & Hz & P)]; simpl; [done|].
  pose proof P as [I1 F1 B1 E1 _ P6].
  pose proof (ent_page _ _ _ _ _ _ _ _ _ _ _ _ _ I Hd Hx He) as HM.
  assert (p <> p') as Hpp by (intros ->; pose proof (mapped_refs ds T Mp _ _ HM); lia).
  assert (ent s1 T1 d x = Some (p, perm)) as He1 by (rewrite E1 by done; rewrite decide_False; [done|congruence]).
  assert (ent s1 T1 d pft_page = Some (p', 7)) as Ht1 by (rewrite E1 by done; by rewrite decide_True).
  assert (cr3 s1 = d * 4096) as Hcr1 by (by rewrite (pm_frame_cr3 _ _ F1)).
  apply wp_ubind, wp_call. eapply wp_mono.
  { pose proof (copy_ok s1 fl1 ds T1 _ el d x p perm pft_page p' n 0 (mem s1) I1 Hd Hcr1 Hx ltac:(done) He1 HU Ht1 Hpp) as H.
    rewrite !Z.add_0_r in H. replace (set_mem (mem s1) s1) with s1 in H by (by destruct s1). apply H; [by intros q a _ _|done|done|lia]. }
  intros [] s2 (m2 & -> & B2 & Hcp). set (s2 := set_mem m2 s1) in *.
  assert ((<[(d, pft_page) := p']> Mp) !! (d, pft_page) = Some p') as HMt by apply lookup_insert_eq.
  pose proof (kinv_user_page _ _ _ _ _ _ _ _ _ _ _ _ I1 HMt B2) as I2.
  pose proof (fun d x => ent_user_page _ _ _ _ _ _ _ _ _ d x I1 HMt B2) as E2.
  eapply wp_mono.
  { eapply (replace_ok s2 fl1 ds T1 _ el d x (env_id cen) c p'); [exact I2|simpl; by rewrite (pm_frame_cur _ _ F1), Hc| | |done|done| |].
    - exact (points_frame _ _ _ _ _ _ F1 Hp).
    - intros q. pose proof (Hroom q). destruct (put_fresh_refs _ _ _ _ _ _ _ _ _ _ _ _ _ _ _ _ q P H0) as [R1|[R1 R2]]; lia.
    - by rewrite E2.
    - by rewrite E2. }
  intros r s3 (-> & fl3 & T3 & Mp3 & I3 & F3 & B3 & E3). exists p, perm, p', fl3, T3, Mp3. split; [done|].
  assert (0 <= pft_page < NU) as Hpx by done.
  constructor.
  - exact I3.
  - etrans; [exact F1|]. exact F3.
  - exact H0.
  - rewrite E3 by done. rewrite decide_False by congruence. by rewrite decide_True.
  - intros o Ho. rewrite (B3 p' (p' * 4096 + o)); [|by exists (d, pft_page)|lia].
    rewrite Hcp by done. apply (B1 p); [by eexists|lia].
  - rewrite E3 by done. by rewrite decide_True.
  - intros d' x' Hd' Hx' H1 H2. rewrite E3 by done. rewrite !decide_False by done. rewrite E2, E1 by done. by rewrite decide_False.
  - eapply same_bytes_trans; [eapply same_bytes_weaken; [exact B1|]; intros q (k & _ & Hk); by exists k|].
    eapply same_bytes_trans.
    + eapply same_bytes_weaken; [exact B2|]. intros q (k & _ & Hk) ->. pose proof (mapped_refs ds T Mp _ _ Hk). lia.
    + eapply same_bytes_weaken; [exact B3|]. intros q (k & Hk & Hq). exists k. by rewrite lookup_insert_ne.
Qed.
End fault.
