(* ===== verification/UserForkThms.v ===== *)
(** * Theorems on fork and copy-on-write of the JOS user library

    fork and its page fault handler are programs over the system calls; their
    theorems rest on the contracts of the calls and not on their code. *)
From S2P Require Import Prelude Mem Mmu Kstate Pmap PmapRep PmapOps PmapUser Env EnvRep EnvOps EnvFree EnvSched Devices.
From S2P Require Import Syscall SyscallMem SyscallEnv KernelExample KernelLoop UserMem UserFork UserForkOk UserForkBody.

(** The child with directory [cd] sees the bytes the parent had at [s0] on every
    page that is not shared on purpose, and a store there faults in both. *)
Definition snapshot (s0 : kst) (T0 : gmap (Z * Z) Z) (d : Z) (s' : kst) (cd : Z) : Prop :=
  forall va p perm, copied (va / 4096) -> ent s0 T0 d (va / 4096) = Some (p, perm) -> flag perm PTE_SHARE = false ->
    let child := set_cr3 (cd * 4096) s' in
    user_pa child va false = Some (p * 4096 + va mod 4096) /\
    getb (mem child) (p * 4096 + va mod 4096) = getb (mem s0) (p * 4096 + va mod 4096) /\
    user_pa s' va true = None /\ user_pa child va true = None.

Lemma copied_user x : copied x -> 0 <= x < NU.
Proof. unfold copied, first_page, last_page, NU. lia. Qed.

Lemma dup_perm_private perm :
  flag perm PTE_SHARE = false -> flag (dup_perm perm) PTE_U = true /\ flag (dup_perm perm) PTE_W = false.
Proof. intros H. unfold dup_perm. rewrite H. by destruct (_ || _). Qed.

Lemma own_perm_private perm : flag perm PTE_SHARE = false -> flag (own_perm perm) PTE_W = false.
Proof.
  intros H. unfold own_perm. rewrite H. destruct (flag perm PTE_W) eqn:E; simpl; [done|]. by destruct (flag perm PTE_COW).
Qed.

Lemma forked_snapshot KP kx kd s ds T Mp c d upcall s' e en cen cd px fl' T' Mp' el' :
  forked KP kx kd s ds T Mp c d upcall s' e en cen cd px fl' T' Mp' el' -> d ∈ ds -> cr3 s = d * 4096 ->
  (forall x p perm, copied x -> ent s T d x = Some (p, perm) -> Mp !! (d, x) = Some p) -> snapshot s T d s' cd.
Proof.
  intros [I _ _ Ecr _ B _ Hpar Hchi _] Hd Hc HM va p perm Hx He Hsh child. pose proof (copied_user _ Hx) as Hu.
  assert (kinv KP kx kd child fl' ({[cd]} ∪ ds) T' Mp' el') as Ic.
  { eapply kinv_misc; [exact I|done|done|done|]. apply (ew_cur _ _ (ki_env _ _ _ _ _ _ _ _ _ I)). }
  assert (ent s' T' d (va / 4096) = Some (p, own_perm perm)) as Ep by (rewrite Hpar, decide_True, He by done; done).
  assert (ent child T' cd (va / 4096) = Some (p, dup_perm perm)) as Ec.
  { change (ent s' T' cd (va / 4096) = Some (p, dup_perm perm)). by rewrite Hchi, decide_True, He by done. }
  destruct (dup_perm_private perm Hsh) as [Hpu Hpw]. split_and!.
  - eapply (user_pa_ok KP kx kd); [exact Ic| |done|exact Hu|exact Ec|done|done|done]. set_solver.
  - apply (B p); [exists (d, va / 4096); by eapply HM|]. pose proof (Z.mod_pos_bound va 4096). lia.
  - eapply (no_write KP kx kd); [exact I| |by rewrite Ecr|exact Hu|exact Ep|by apply own_perm_private|done]. set_solver.
  - eapply (no_write KP kx kd); [exact Ic| |done|exact Hu|exact Ec|done|done]. set_solver.
Qed.


Lemma w_room q : 2 * refs w_ds w_T w_M q + w_kx q + 9 < 2^16.
Proof. rewrite w_refs. unfold w_kx. case_decide; lia. Qed.


(** C17: The page fault handler of fork.c, over the system calls.  On a write to
    a page marked copy-on-write it puts in its place a writable page that no one
    else has, with the same bytes; it leaves PFTEMP unmapped, every other entry
    of every address space as it is, and every other page with its bytes, so that
    the other environments that share the old page notice nothing.  Without
    memory for the copy it panics and nothing has changed; on any other fault it
    panics at once. *)
Theorem jos_pgfault_private KP kx kd s fl ds T Mp el c cen d va err :
  kinv KP kx kd s fl ds T Mp el -> cur_env s = Some c -> envs s !! c = Some cen -> env_pgdir cen = dir_kva d -> d ∈ ds ->
  cr3 s = d * 4096 -> (forall q, refs ds T Mp q + kx q + 4 < 2^16) -> 0 <= va < UTOP -> va / 4096 <> pft_page ->
  (forall p perm, ent s T d (va / 4096) = Some (p, perm) -> flag perm PTE_U = true) ->
  wp (pgfault va err) (fault_result KP kx kd s ds T Mp el d (va / 4096) err) s.
Proof. apply pgfault_ok. Qed.

(** The example with the page at 0x800000 copy-on-write. *)
Definition w_cow : kst :=
  match sys_page_map 0 0x800000 0 0x800000 0x805 w_st with Ok _ s => s | _ => w_st end.

Lemma w_cow_run : sys_page_map 0 0x800000 0 0x800000 0x805 w_st = Ok 0 w_cow.
Proof.
  assert (match sys_page_map 0 0x800000 0 0x800000 0x805 w_st with Ok r _ => r =? 0 | _ => false end = true) as H by (by vm_compute).
  unfold w_cow. destruct (sys_page_map _ _ _ _ _ w_st); try done. by apply Z.eqb_eq in H as ->.
Qed.

#[local] Opaque w_cow.

Lemma w_self : points w_st w_ds 0 0 2.
Proof.
  exists w_env0. split; [reflexivity|]. split; [simpl envs; rewrite w_envs_lookup; reflexivity|].
  split; [done|]. split; [apply w_ds_elem; lia|done].
Qed.

Lemma w_cow_put : exists fl' T', put w_KP w_kx 1 w_ds w_el w_st [6; 7] w_T w_M 2 2048 5 0x805 w_cow fl' T'.
Proof.
  assert (wp (sys_page_map 0 (2048 * 4096) 0 (2048 * 4096) 0x805) (fun r s' =>
    (r = - E_NO_MEM /\ s' = w_st /\ w_T !! (2, 2048 / 1024) = None) \/
    (r = 0 /\ exists fl' T', put w_KP w_kx 1 w_ds w_el w_st [6; 7] w_T w_M 2 2048 5 0x805 s' fl' T')) w_st) as H.
  { eapply (map_ok w_KP w_kx 1 w_st [6; 7] w_ds w_T w_M w_el 0 0 2 0 0 2 2048 2048 5 7);
      [apply w_kinv|by eexists|exact w_few|apply w_self|apply w_self|done|done|by vm_compute|done|done]. }
  pose proof (wp_run _ _ _ _ _ H w_cow_run) as [(? & _)|(_ & P)]; [done|exact P].
Qed.

Lemma jos_pgfault_private_witness :
  exists fl T M, cow_fault w_cow T 2 2048 2 = true /\ M !! (2, 2048) = Some 5 /\
    wp (pgfault 0x800123 2) (fault_result w_KP w_kx 1 w_cow w_ds T M w_el 2 2048 2) w_cow /\ kinv w_KP w_kx 1 w_cow fl w_ds T M w_el.
Proof.
  assert (2 ∈ w_ds) as Hd by (apply w_ds_elem; lia). assert (0 <= 2048 < NU) as Hx by done.
  destruct w_cow_put as (fl & T & P). pose proof P as [I F _ E _ _].
  pose proof (E 2 2048 Hd Hx) as He. rewrite (decide_True _ _ eq_refl) in He. change (Z.lor 0x805 PTE_P) with 0x805 in He.
  assert (w_M !! (2, 2048) = Some 5) as HM by (by vm_compute).
  exists fl, T, (<[(2, 2048) := 5]> w_M). split; [unfold cow_fault; by rewrite He|]. split; [apply lookup_insert_eq|].
  split; [|exact I].
  apply (jos_pgfault_private w_KP w_kx 1 w_cow fl w_ds T _ w_el 0 w_env0 2 0x800123 2);
    [exact I|by rewrite (pm_frame_cur _ _ F)| |reflexivity|apply w_ds_elem; lia|by rewrite (pm_frame_cr3 _ _ F)| |done|done|].
  - rewrite (pm_frame_envs _ _ F). simpl envs. rewrite w_envs_lookup. reflexivity.
  - intros q. destruct (put_same _ _ _ _ _ _ _ _ _ _ _ _ _ _ _ _ P HM q) as [R|[_ R]]; [|unfold w_kx; lia].
    pose proof (w_room q). pose proof (refs_nonneg w_ds w_T w_M q). lia.
  - intros p perm. change (0x800123 / 4096) with 2048. rewrite He. by intros [= <- <-].
Defined.
