(* ===== verification/Xv6Console.v ===== *)
(** * The console of xv6: line editing and reading (expansion/console.c)

    Key presses arrive in consoleintr, which edits the last line of a ring of
    INPUT_BUF bytes and makes it available at the end of the line; consoleread
    takes bytes out of the ring and sleeps while there are none.  The indices are
    32-bit and wrap.  Both functions hold cons.lock but while asleep, so that
    what they do between two sleeps is one step; a system is any number of
    processes that read, and the keyboard.

    [out] are the calls of consputc in their order, the echo; the devices behind
    it are not modelled.  The bytes of the ring are numbers from 0 to 255, also
    where char is signed.  [procdump] is the keys' request for a process listing.

    The code comes first, then the specification, then the simulation. *)
From S2P Require Import Prelude.

Definition INPUT_BUF : Z := 128.
Definition BACKSPACE : Z := 0x100.
Definition NEWLINE : Z := 10.
(** [C(x)]: control and a letter. *)
Definition C (x : Z) : Z := x - 64.
Definition CTRL_P : Z := C 80.
Definition CTRL_U : Z := C 85.
Definition CTRL_H : Z := C 72.
Definition CTRL_D : Z := C 68.

Record input := mkInput { buf : gmap Z Z; r : Z; w : Z; e : Z }.
Definition set_r v i := mkInput (buf i) v (w i) (e i).
Definition set_w v i := mkInput (buf i) (r i) v (e i).
Definition set_e v i := mkInput (buf i) (r i) (w i) v.
Definition set_buf k c i := mkInput (<[k := u8 c]> (buf i)) (r i) (w i) (e i).
Definition bufc (i : input) (k : Z) : Z := default 0 (buf i !! (k mod INPUT_BUF)).

(** The console with the echo and the number of calls of wakeup(&input.r). *)
Record console := mkConsole { inp : input; out : list Z; wakeups : nat; procdump : bool }.
Definition upd_inp f k := mkConsole (f (inp k)) (out k) (wakeups k) (procdump k).
Definition consputc c k := mkConsole (inp k) (out k ++ [c]) (wakeups k) (procdump k).
Definition wakeup_r k := mkConsole (inp k) (out k) (S (wakeups k)) (procdump k).
Definition set_procdump k := mkConsole (inp k) (out k) (wakeups k) true.

(** [case C('U')]: the loop runs while there is something to erase, which
    [fuel] bounds. *)
Fixpoint kill_line (fuel : nat) (k : console) : console :=
  match fuel with
  | O => k
  | S fuel' =>
      let i := inp k in
      if negb (e i =? w i) && negb (bufc i (u32 (e i - 1)) =? NEWLINE)
      then kill_line fuel' (consputc BACKSPACE (upd_inp (set_e (u32 (e i - 1))) k))
      else k
  end.

Definition consoleintr_key (c : Z) (k : console) : console :=
  let i := inp k in
  if c =? CTRL_P then set_procdump k
  else if c =? CTRL_U then kill_line (Z.to_nat INPUT_BUF) k
  else if (c =? CTRL_H) || (c =? 0x7f) then
    if negb (e i =? w i) then consputc BACKSPACE (upd_inp (set_e (u32 (e i - 1))) k) else k
  else if negb (c =? 0) && (u32 (e i - r i) <? INPUT_BUF) then
    let c := if c =? 13 then NEWLINE else c in
    let k := upd_inp (fun i => set_e (u32 (e i + 1)) (set_buf (e i mod INPUT_BUF) c i)) k in
    let k := consputc c k in
    let i := inp k in
    if (c =? NEWLINE) || (c =? CTRL_D) || (e i =? u32 (r i + INPUT_BUF))
    then wakeup_r (upd_inp (fun i => set_w (e i) i) k) else k
  else k.

(** [cs] is what getc returns before it returns -1. *)
Definition consoleintr (cs : list Z) (k : console) : console := foldl (fun k c => consoleintr_key c k) k cs.

(** What consoleread does until it returns or sleeps; [n] bytes are still
    wanted, [dst] has been stored. *)
Inductive read_state :=
| Asleep (n target : nat) (dst : list Z)
| Returned (v : Z) (dst : list Z).

Fixpoint consoleread_run (killed : bool) (n target : nat) (dst : list Z) (i : input) : read_state * input :=
  match n with
  | O => (Returned (Z.of_nat target) dst, i)
  | S n' =>
      if r i =? w i then
        if killed then (Returned (-1) dst, i) else (Asleep n target dst, i)
      else
        let c := bufc i (r i) in
        let i := set_r (u32 (r i + 1)) i in
        if c =? CTRL_D then
          let i := if (n <? target)%nat then set_r (u32 (r i - 1)) i else i in
          (Returned (Z.of_nat (target - n)) dst, i)
        else
          let dst := dst ++ [c] in
          if c =? NEWLINE then (Returned (Z.of_nat (target - n')) dst, i)
          else consoleread_run killed n' target dst i
  end.

(** A call of consoleread for [n] bytes. *)
Definition consoleread (killed : bool) (n : nat) (i : input) : read_state * input := consoleread_run killed n n [] i.

(** ** The system *)

(** A reader that sleeps is made runnable by wakeup or kill and then goes on. *)
Inductive rproc :=
| Sleeping (n target : nat) (dst : list Z)
| Runnable (n target : nat) (dst : list Z)
| Finished (v : Z) (dst : list Z).

Definition after (s : read_state) : rproc :=
  match s with Asleep n t d => Sleeping n t d | Returned v d => Finished v d end.
Definition wake (x : rproc) : rproc := match x with Sleeping n t d => Runnable n t d | _ => x end.

Record csys := mkCsys { con : console; readers : list rproc }.

Inductive cev := Keys (cs : list Z) | Read (killed : bool) (n : nat) | Resume (killed : bool) (i : nat) | Kill (i : nat).

Definition cstep (ev : cev) (s : csys) : csys :=
  match ev with
  | Keys cs =>
      let k := consoleintr cs (con s) in
      mkCsys k (if (wakeups (con s) <? wakeups k)%nat then wake <$> readers s else readers s)
  | Read killed n =>
      let '(x, i) := consoleread killed n (inp (con s)) in
      mkCsys (upd_inp (fun _ => i) (con s)) (readers s ++ [after x])
  | Resume killed j =>
      match readers s !! j with
      | Some (Runnable n t d) =>
          let '(x, i) := consoleread_run killed n t d (inp (con s)) in
          mkCsys (upd_inp (fun _ => i) (con s)) (<[j := after x]> (readers s))
      | _ => s
      end
  | Kill j => mkCsys (con s) (alter wake j (readers s))
  end.

Definition crun (evs : list cev) (s : csys) : csys := foldl (fun s ev => cstep ev s) s evs.

Definition console0 : csys := mkCsys (mkConsole (mkInput ∅ 0 0 0) [] 0 false) [].

(** ** Specification: a queue of bytes and the line being edited *)

Record line := mkLine { lq : list Z; ll : list Z; commits : nat }.

Definition edit (c : Z) (a : line) : line :=
  if c =? CTRL_P then a
  else if c =? CTRL_U then mkLine (lq a) [] (commits a)
  else if (c =? CTRL_H) || (c =? 0x7f) then mkLine (lq a) (take (pred (length (ll a))) (ll a)) (commits a)
  else if negb (c =? 0) && (length (lq a ++ ll a) <? 128)%nat then
    let c := if c =? 13 then NEWLINE else c in
    let l := ll a ++ [c] in
    if (c =? NEWLINE) || (c =? CTRL_D) || (length (lq a ++ l) =? 128)%nat
    then mkLine (lq a ++ l) [] (S (commits a)) else mkLine (lq a) l (commits a)
  else a.

Definition edits (cs : list Z) (a : line) : line := foldl (fun a c => edit c a) a cs.

(** What a read takes from the queue: to the end of the line, to a control-D,
    which it takes only when it is the first byte, or [n] bytes. *)
Fixpoint deliver (killed : bool) (n target : nat) (dst q : list Z) : read_state * list Z :=
  match n, q with
  | O, _ => (Returned (Z.of_nat target) dst, q)
  | S _, [] => (if killed then Returned (-1) dst else Asleep n target dst, [])
  | S n', c :: q' =>
      if c =? CTRL_D then (Returned (Z.of_nat (target - n)) dst, if (n <? target)%nat then q else q')
      else if c =? NEWLINE then (Returned (Z.of_nat (target - n')) (dst ++ [c]), q')
      else deliver killed n' target (dst ++ [c]) q'
  end.

Record asys := mkAsys { al : line; ataken : list Z; areaders : list rproc }.

(** What was taken when [q] became [q']. *)
Definition taken (q q' : list Z) : list Z := take (length q - length q') q.

Definition astep (ev : cev) (s : asys) : asys :=
  match ev with
  | Keys cs =>
      let a := edits cs (al s) in
      mkAsys a (ataken s) (if (commits (al s) <? commits a)%nat then wake <$> areaders s else areaders s)
  | Read killed n =>
      let '(x, q) := deliver killed n n [] (lq (al s)) in
      mkAsys (mkLine q (ll (al s)) (commits (al s))) (ataken s ++ taken (lq (al s)) q) (areaders s ++ [after x])
  | Resume killed j =>
      match areaders s !! j with
      | Some (Runnable n t d) =>
          let '(x, q) := deliver killed n t d (lq (al s)) in
          mkAsys (mkLine q (ll (al s)) (commits (al s))) (ataken s ++ taken (lq (al s)) q) (<[j := after x]> (areaders s))
      | _ => s
      end
  | Kill j => mkAsys (al s) (ataken s) (alter wake j (areaders s))
  end.

Definition arun (evs : list cev) (s : asys) : asys := foldl (fun s ev => astep ev s) s evs.
Definition asys0 : asys := mkAsys (mkLine [] [] 0) [] [].

(** The screen: the echo with the erased characters gone. *)
Definition put_screen (screen : list Z) (c : Z) : list Z :=
  if c =? BACKSPACE then take (pred (length screen)) screen else screen ++ [c].
Definition display (out : list Z) : list Z := foldl put_screen [] out.

(** Keys that the keyboard and the serial line give. *)
Definition key_ok (c : Z) : Prop := 0 <= c < 256.
Definition ev_ok (ev : cev) : Prop := match ev with Keys cs => Forall key_ok cs | _ => True end.

(** * The console implements the queue of lines *)

(** The ring [i] holds the queue [q] and after it the line [l]. *)
Record rep (i : input) (q l : list Z) : Prop := {
  rp_r : 0 <= r i < 2^32;
  rp_w : w i = u32 (r i + Z.of_nat (length q));
  rp_e : e i = u32 (r i + Z.of_nat (length q + length l));
  rp_len : (length q + length l <= 128)%nat;
  rp_buf k c : (q ++ l) !! k = Some c -> bufc i (r i + Z.of_nat k) = c;
  rp_line : NEWLINE ∉ l;
  rp_bytes : Forall key_ok (q ++ l) }.

Lemma u32_mod_buf x : u32 x mod INPUT_BUF = x mod INPUT_BUF.
Proof. unfold u32, INPUT_BUF. rewrite <- Znumtheory.Zmod_div_mod; [done|lia|lia|]. by exists (2^25). Qed.

Lemma bufc_u32 i x : bufc i (u32 x) = bufc i x.
Proof. unfold bufc. by rewrite u32_mod_buf. Qed.

Lemma u32_sub_idemp x y : u32 (u32 x - y) = u32 (x - y).
Proof. unfold u32. by rewrite Zminus_mod_idemp_l. Qed.
Lemma u32_add_idemp x y : u32 (u32 x + y) = u32 (x + y).
Proof. unfold u32. by rewrite Zplus_mod_idemp_l. Qed.

(** Two positions less than a turn apart. *)
Lemma u32_eq_near x a b : 0 <= a < 2^31 -> 0 <= b < 2^31 -> (u32 (x + a) =? u32 (x + b)) = (a =? b).
Proof.
  intros Ha Hb. unfold u32. destruct (Z.eqb_spec a b) as [->|Hne]; [apply Z.eqb_refl|]. apply Z.eqb_neq. intros E.
  assert ((a - b) mod 2^32 = 0) as Hz.
  { replace (a - b) with ((x + a) - (x + b)) by lia. rewrite Zminus_mod, E, Z.sub_diag. done. }
  destruct (Z_lt_le_dec a b).
  - rewrite <- (Z.mod_unique (a - b) (2^32) (-1) (a - b + 2^32)) in Hz; lia.
  - rewrite Z.mod_small in Hz by lia. lia.
Qed.

Lemma rep_ew i q l : rep i q l -> (e i =? w i) = (length l =? 0)%nat.
Proof.
  intros [Hr Hw He Hl _ _ _]. rewrite He, Hw. rewrite u32_eq_near by lia.
  destruct (Z.eqb_spec (Z.of_nat (length q + length l)) (Z.of_nat (length q))), (Nat.eqb_spec (length l) 0); lia || done.
Qed.

Lemma rep_rw i q l : rep i q l -> (r i =? w i) = (length q =? 0)%nat.
Proof.
  intros [Hr Hw He Hl _ _ _]. rewrite Hw. rewrite <- (u32_small (r i)) at 1 by done.
  rewrite <- (Z.add_0_r (r i)) at 1. rewrite u32_eq_near by lia.
  destruct (Z.eqb_spec 0 (Z.of_nat (length q))), (Nat.eqb_spec (length q) 0); lia || done.
Qed.

(** ** Editing *)

Lemma take_init {A} (l : list A) x : take (pred (length (l ++ [x]))) (l ++ [x]) = l.
Proof. rewrite length_app. simpl. rewrite Nat.add_1_r. simpl. by rewrite take_app_length. Qed.

Lemma rep_erase i q l x : rep i q (l ++ [x]) -> rep (set_e (u32 (e i - 1)) i) q l.
Proof.
  intros [Hr Hw He Hl Hb Hn Hy]. rewrite length_app in He, Hl. simpl in He, Hl. constructor; simpl; try done; try lia.
  - rewrite He, u32_sub_idemp. f_equal. lia.
  - intros k c Hk. apply (Hb k c). rewrite app_assoc. by apply lookup_app_l_Some.
  - set_solver.
  - rewrite app_assoc in Hy. by apply Forall_app in Hy as [? _].
Qed.

Lemma rep_last i q l x : rep i q (l ++ [x]) -> bufc i (u32 (e i - 1)) = x.
Proof.
  intros [Hr Hw He Hl Hb Hn Hy]. rewrite He, u32_sub_idemp, bufc_u32. rewrite length_app. simpl.
  replace (r i + Z.of_nat (length q + (length l + 1)) - 1) with (r i + Z.of_nat (length (q ++ l))) by (rewrite length_app; lia).
  apply Hb. rewrite app_assoc. by apply list_lookup_middle.
Qed.

Lemma kill_line_ok fuel k q l h :
  rep (inp k) q l -> display (out k) = h ++ l -> (length l <= fuel)%nat ->
  rep (inp (kill_line fuel k)) q [] /\ display (out (kill_line fuel k)) = h /\
  wakeups (kill_line fuel k) = wakeups k.
Proof.
  revert k l. induction fuel as [|fuel IH]; intros k l R D Hf.
  { destruct l; simpl in *; [|lia]. by rewrite app_nil_r in D. }
  cbn [kill_line]. rewrite (rep_ew _ _ _ R). destruct l as [|x l] using rev_ind.
  { simpl. by rewrite app_nil_r in D. }
  clear IHl. rewrite (rep_last _ _ _ _ R). pose proof (rp_line _ _ _ R) as Hn.
  assert (x <> NEWLINE) as Hx by set_solver. rewrite (proj2 (Z.eqb_neq x NEWLINE) Hx).
  rewrite length_app. simpl length. rewrite (proj2 (Nat.eqb_neq _ 0)) by lia. cbn [negb andb].
  rewrite length_app in Hf. simpl in Hf.
  apply (IH (consputc BACKSPACE (upd_inp (set_e (u32 (e (inp k) - 1))) k)) l); [|simpl|lia].
  - by eapply rep_erase.
  - unfold display in *. rewrite foldl_app, D. simpl. rewrite app_assoc. apply take_init.
Qed.

Lemma bufc_set i x c y :
  bufc (set_buf (x mod INPUT_BUF) c i) y = if y mod INPUT_BUF =? x mod INPUT_BUF then u8 c else bufc i y.
Proof.
  unfold bufc. simpl. destruct (Z.eqb_spec (y mod INPUT_BUF) (x mod INPUT_BUF)) as [->|Hne].
  - by rewrite lookup_insert_eq.
  - by rewrite lookup_insert_ne.
Qed.

Lemma mod_buf_ne x a b : 0 <= a < b -> b < 128 -> ((x + a) mod INPUT_BUF =? (x + b) mod INPUT_BUF) = false.
Proof.
  intros Ha Hb. apply Z.eqb_neq. unfold INPUT_BUF. intros E.
  assert ((b - a) mod 128 = 0) as Hz.
  { replace (b - a) with ((x + b) - (x + a)) by lia. rewrite Zminus_mod, E, Z.sub_diag. done. }
  rewrite Z.mod_small in Hz; lia.
Qed.

Lemma key_u8 c : key_ok c -> u8 c = c.
Proof. intros H. unfold u8. apply Z.mod_small. exact H. Qed.

(** The byte stored at the end of the line. *)
Lemma store_buf i q l c :
  rep i q l -> (length q + length l < 128)%nat -> key_ok c ->
  let i' := set_e (u32 (e i + 1)) (set_buf (e i mod INPUT_BUF) c i) in
  e i' = u32 (r i + Z.of_nat (length q + length (l ++ [c]))) /\
  forall k x, (q ++ l ++ [c]) !! k = Some x -> bufc i' (r i + Z.of_nat k) = x.
Proof.
  intros [Hr Hw He Hl Hb Hn Hy] Hlt Hc i'. split.
  { simpl. rewrite He, u32_add_idemp, length_app. simpl. f_equal. lia. }
  intros k x Hk. change (bufc i' ?y) with (bufc (set_buf (e i mod INPUT_BUF) c i) y). rewrite bufc_set, He, u32_mod_buf.
  rewrite app_assoc in Hk. apply lookup_app_Some in Hk as [Hk|[Hk Hx]].
  - pose proof (lookup_lt_Some _ _ _ Hk) as Hkl. rewrite length_app in Hkl.
    rewrite mod_buf_ne by lia. by apply Hb.
  - rewrite length_app in Hk, Hx. apply list_lookup_singleton_Some in Hx as [Hk0 ->].
    replace k with (length q + length l)%nat by lia. rewrite Z.eqb_refl. by apply key_u8.
Qed.

Definition key_of (c : Z) : Z := if c =? 13 then NEWLINE else c.

Lemma rep_store i q l c :
  rep i q l -> (length q + length l < 128)%nat -> key_ok c -> c <> NEWLINE ->
  rep (set_e (u32 (e i + 1)) (set_buf (e i mod INPUT_BUF) c i)) q (l ++ [c]).
Proof.
  intros R Hlt Hc Hn. destruct (store_buf i q l c R Hlt Hc) as [E B]. destruct R. constructor; try done.
  - rewrite length_app. simpl. lia.
  - set_solver.
  - rewrite app_assoc, Forall_app. split; [done|by constructor].
Qed.

Lemma rep_commit i q l c :
  rep i q l -> (length q + length l < 128)%nat -> key_ok c ->
  let i' := set_e (u32 (e i + 1)) (set_buf (e i mod INPUT_BUF) c i) in
  rep (set_w (e i') i') (q ++ l ++ [c]) [].
Proof.
  intros R Hlt Hc i'. destruct (store_buf i q l c R Hlt Hc) as [E B]. fold i' in E, B. destruct R.
  constructor; rewrite ?app_nil_r; try done.
  - change (w (set_w (e i') i')) with (e i'). rewrite E. do 2 f_equal. rewrite !length_app. lia.
  - change (e (set_w (e i') i')) with (e i'). rewrite E. do 2 f_equal. rewrite !length_app. simpl. lia.
  - rewrite !length_app. simpl. lia.
  - set_solver.
  - rewrite app_assoc, Forall_app. split; [done|by constructor].
Qed.

(** The console [k] shows the abstract line; [h] was taken before. *)
Definition shows (k : console) (h : list Z) (a : line) : Prop :=
  rep (inp k) (lq a) (ll a) /\ display (out k) = h ++ lq a ++ ll a /\ wakeups k = commits a.

Lemma display_snoc o c : display (o ++ [c]) = put_screen (display o) c.
Proof. unfold display. by rewrite foldl_app. Qed.

Lemma put_screen_key s c : key_ok c -> put_screen s c = s ++ [c].
Proof. intros [_ H]. unfold put_screen, BACKSPACE. rewrite (proj2 (Z.eqb_neq c 256)) by lia. done. Qed.

Lemma type_ok k h a c :
  shows k h a -> (length (lq a) + length (ll a) < 128)%nat -> key_ok c ->
  let k1 := consputc c (upd_inp (fun i => set_e (u32 (e i + 1)) (set_buf (e i mod INPUT_BUF) c i)) k) in
  let commit := (c =? NEWLINE) || (c =? CTRL_D) || (length (lq a ++ ll a ++ [c]) =? 128)%nat in
  ((c =? NEWLINE) || (c =? CTRL_D) || (e (inp k1) =? u32 (r (inp k1) + INPUT_BUF))) = commit /\
  shows (if commit then wakeup_r (upd_inp (fun i => set_w (e i) i) k1) else k1) h
    (if commit then mkLine (lq a ++ ll a ++ [c]) [] (S (commits a)) else mkLine (lq a) (ll a ++ [c]) (commits a)).
Proof.
  intros (R & D & W) Hlt Hc k1 commit.
  assert (display (out k1) = h ++ lq a ++ ll a ++ [c]) as D1.
  { unfold k1. simpl. by rewrite display_snoc, put_screen_key, D, <- !app_assoc by done. }
  split.
  - unfold commit. f_equal. destruct (store_buf _ _ _ _ R Hlt Hc) as [E _]. unfold k1. cbn [inp consputc upd_inp]. rewrite E.
    change (r (set_e _ _)) with (r (inp k)). unfold INPUT_BUF. rewrite u32_eq_near by (rewrite ?length_app; simpl; lia).
    rewrite !length_app. destruct (Z.eqb_spec (Z.of_nat (length (lq a) + (length (ll a) + length [c]))) 128),
      (Nat.eqb_spec (length (lq a) + (length (ll a) + length [c])) 128); lia || done.
  - destruct commit eqn:Ec; (split; [|split]).
    + apply (rep_commit _ _ _ _ R Hlt Hc).
    + simpl. rewrite app_nil_r. exact D1.
    + simpl. by rewrite W.
    + apply rep_store; try done. intros ->. unfold commit in Ec. by rewrite Z.eqb_refl in Ec.
    + exact D1.
    + exact W.
Qed.

Lemma key_of_ok c : key_ok c -> key_ok (key_of c).
Proof. unfold key_ok, key_of, NEWLINE. case_match; lia. Qed.

(** One key does to the ring and to the screen what it does to the line. *)
Lemma consoleintr_key_ok c k h a : key_ok c -> shows k h a -> shows (consoleintr_key c k) h (edit c a).
Proof.
  intros Hc (R & D & W). unfold consoleintr_key, edit. case_match; [by split|]. case_match.
  { rewrite app_assoc in D.
    destruct (kill_line_ok (Z.to_nat INPUT_BUF) k _ _ _ R D) as (R' & D' & W').
    { pose proof (rp_len _ _ _ R). unfold INPUT_BUF. lia. }
    revert R' D' W'. generalize (kill_line (Z.to_nat INPUT_BUF) k). intros k' R' D' W'.
    split; [exact R'|split; simpl; [by rewrite D', app_nil_r|by rewrite W']]. }
  case_match.
  { rewrite (rep_ew _ _ _ R). destruct (ll a) as [|x l _] eqn:El using rev_ind; simpl negb.
    { split; [exact R|]. simpl. split; [|done]. by rewrite D. }
    rewrite length_app, (proj2 (Nat.eqb_neq _ 0)) by (simpl; lia). cbn [negb].
    rewrite <- length_app with (l := l), take_init. split; [by eapply rep_erase|]. simpl. split; [|done].
    rewrite display_snoc, D. unfold put_screen. simpl. rewrite !app_assoc, take_init. done. }
  assert ((u32 (e (inp k) - r (inp k)) <? INPUT_BUF) = (length (lq a ++ ll a) <? 128)%nat) as ->.
  { rewrite (rp_e _ _ _ R), u32_sub_idemp. pose proof (rp_len _ _ _ R). rewrite length_app.
    rewrite u32_small by lia. unfold INPUT_BUF.
    destruct (Z.ltb_spec (r (inp k) + Z.of_nat (length (lq a) + length (ll a)) - r (inp k)) 128),
      (Nat.ltb_spec (length (lq a) + length (ll a)) 128); lia || done. }
  destruct (negb (c =? 0) && (length (lq a ++ ll a) <? 128)%nat) eqn:Eg; [|by split].
  apply andb_true_iff in Eg as [_ Hlt%Nat.ltb_lt]. rewrite length_app in Hlt. cbv zeta. fold (key_of c).
  destruct (type_ok k h a (key_of c) (conj R (conj D W)) Hlt (key_of_ok _ Hc)) as [-> S]. exact S.
Qed.

Lemma consoleintr_ok cs k h a : Forall key_ok cs -> shows k h a -> shows (consoleintr cs k) h (edits cs a).
Proof.
  intros F. revert k a. induction F as [|c cs Hc F IH]; intros k a S; [done|].
  unfold consoleintr, edits. simpl. apply IH. by apply consoleintr_key_ok.
Qed.

(** ** Reading *)

Lemma rep_head i c q l : rep i (c :: q) l -> bufc i (r i) = c.
Proof. intros R. rewrite <- (Z.add_0_r (r i)). by apply (rp_buf _ _ _ R 0). Qed.

Lemma rep_tail i c q l : rep i (c :: q) l -> rep (set_r (u32 (r i + 1)) i) q l.
Proof.
  intros [Hr Hw He Hl Hb Hn Hy]. simpl in Hw, He, Hl. constructor; simpl; try done; try lia.
  - apply u32_range.
  - rewrite Hw, u32_add_idemp. f_equal. lia.
  - rewrite He, u32_add_idemp. f_equal. lia.
  - intros k x Hk. change (bufc (set_r ?v i) ?y) with (bufc i y). rewrite <- bufc_u32, u32_add_idemp, bufc_u32.
    rewrite <- Z.add_assoc. replace (1 + Z.of_nat k) with (Z.of_nat (S k)) by lia. by apply Hb.
  - by inversion Hy.
Qed.

(** Stepping back over the byte just taken. *)
Lemma set_r_back i : 0 <= r i < 2^32 -> set_r (u32 (u32 (r i + 1) - 1)) (set_r (u32 (r i + 1)) i) = i.
Proof. intros H. rewrite u32_sub_idemp, Z.add_simpl_r, u32_small by done. by destruct i. Qed.

Lemma consoleread_run_ok killed n t d i q l :
  rep i q l ->
  (consoleread_run killed n t d i).1 = (deliver killed n t d q).1 /\
  rep (consoleread_run killed n t d i).2 (deliver killed n t d q).2 l.
Proof.
  revert d i q. induction n as [|n IH]; intros d i q R; [by destruct q|].
  cbn [consoleread_run]. rewrite (rep_rw _ _ _ R). destruct q as [|c q].
  { cbn. by destruct killed. }
  cbn [length Nat.eqb deliver]. rewrite (rep_head _ _ _ _ R). cbv zeta.
  destruct (c =? CTRL_D).
  { split; [done|]. cbn [snd]. destruct (S n <? t)%nat; [|by eapply rep_tail].
    change (r (set_r ?v i)) with v. rewrite set_r_back; [done|]. apply (rp_r _ _ _ R). }
  destruct (c =? NEWLINE); [split; [done|by eapply rep_tail]|]. apply IH. by eapply rep_tail.
Qed.

(** A read takes a prefix of the queue. *)
Lemma deliver_suffix killed n t d q : exists p, q = p ++ (deliver killed n t d q).2.
Proof.
  revert d q. induction n as [|n IH]; intros d q; [by destruct q; exists []|].
  destruct q as [|c q]; [by exists []|]. cbn [deliver]. destruct (c =? CTRL_D).
  { destruct (S n <? t)%nat; [by exists []|by exists [c]]. }
  destruct (c =? NEWLINE); [by exists [c]|]. destruct (IH (d ++ [c]) q) as [p Hp]. exists (c :: p). simpl. by f_equal.
Qed.

Lemma taken_app p q : taken (p ++ q) q = p.
Proof. unfold taken. rewrite length_app, Nat.add_sub. apply take_app_length. Qed.

(** It sleeps only when it has emptied the queue. *)
Lemma deliver_asleep killed n t d q n' t' d' :
  (deliver killed n t d q).1 = Asleep n' t' d' -> (deliver killed n t d q).2 = [].
Proof.
  revert d q. induction n as [|n IH]; intros d q; [by destruct q|].
  destruct q as [|c q]; [by destruct killed|]. cbn [deliver]. do 2 (case_match; [done|]). apply IH.
Qed.

Lemma deliver_empty killed n t d : (deliver killed n t d []).2 = [].
Proof. by destruct n. Qed.

(** ** The system *)

Definition sim (s : csys) (a : asys) : Prop :=
  shows (con s) (ataken a) (al a) /\ readers s = areaders a.

Lemma read_sim killed n t d s a :
  sim s a ->
  let '(x, i) := consoleread_run killed n t d (inp (con s)) in
  let '(x', q) := deliver killed n t d (lq (al a)) in
  x = x' /\ shows (upd_inp (fun _ => i) (con s)) (ataken a ++ taken (lq (al a)) q) (mkLine q (ll (al a)) (commits (al a))).
Proof.
  intros [(R & D & W) _]. destruct (consoleread_run_ok killed n t d _ _ _ R) as [Hx R'].
  destruct (deliver_suffix killed n t d (lq (al a))) as [p Hp].
  destruct (consoleread_run _ _ _ _ _) as [x i], (deliver _ _ _ _ _) as [x' q]. simpl in *. split; [done|].
  split; [done|]. split; [|done]. simpl. rewrite D, Hp, taken_app. by rewrite <- !app_assoc.
Qed.

Lemma step_sim ev s a : ev_ok ev -> sim s a -> sim (cstep ev s) (astep ev a).
Proof.
  intros Hev S. pose proof S as [Sh Er]. destruct ev as [cs|killed n|killed j|j]; simpl.
  - pose proof (consoleintr_ok cs _ _ _ Hev Sh) as Sh'. split; [done|]. simpl.
    destruct Sh as (_ & _ & ->), Sh' as (_ & _ & ->). by rewrite Er.
  - pose proof (read_sim killed n n [] s a S) as Hr. unfold consoleread.
    destruct (consoleread_run _ _ _ _ _) as [x i], (deliver _ _ _ _ _) as [x' q]. destruct Hr as [-> Hr].
    split; [done|]. simpl. by rewrite Er.
  - rewrite Er. destruct (areaders a !! j) as [[| n t d|]|] eqn:Ej; try done.
    pose proof (read_sim killed n t d s a S) as Hr.
    destruct (consoleread_run _ _ _ _ _) as [x i], (deliver _ _ _ _ _) as [x' q]. destruct Hr as [-> Hr].
    split; [done|]. done.
  - split; [done|]. simpl. by rewrite Er.
Qed.

Lemma run_sim evs s a : Forall ev_ok evs -> sim s a -> sim (crun evs s) (arun evs a).
Proof.
  intros F. revert s a. induction F as [|ev evs Hev F IH]; intros s a S; [done|].
  unfold crun, arun. simpl. apply IH. by apply step_sim.
Qed.

Lemma sim0 : sim console0 asys0.
Proof. split; [|done]. split; [|done]. by constructor; try (simpl; lia || set_solver). Qed.

(** ** No lost wakeup *)

Definition sleeping (x : rproc) : Prop := match x with Sleeping _ _ _ => True | _ => False end.
Definition quiet (a : asys) : Prop := lq (al a) <> [] -> Forall (fun x => ~ sleeping x) (areaders a).

Lemma wake_awake x : ~ sleeping (wake x).
Proof. destruct x; simpl; tauto. Qed.

(** A key that does not commit leaves the queue alone. *)
Lemma edit_commits c a : (commits a <= commits (edit c a))%nat /\ (commits (edit c a) = commits a -> lq (edit c a) = lq a).
Proof. unfold edit. repeat case_match; simpl; (split; [lia|]); intros; first [done|lia]. Qed.

Lemma edits_commits cs a : (commits a <= commits (edits cs a))%nat /\ (commits (edits cs a) = commits a -> lq (edits cs a) = lq a).
Proof.
  revert a. induction cs as [|c cs IH]; intros a; [done|]. unfold edits. simpl. fold (edits cs (edit c a)).
  destruct (edit_commits c a) as [H1 H2], (IH (edit c a)) as [H3 H4]. split; [lia|]. intros E.
  rewrite H4, H2 by lia. done.
Qed.

(** What a reader does leaves nobody asleep over a queue with bytes in it. *)
Lemma deliver_quiet killed n t d a :
  quiet a -> let '(x, q) := deliver killed n t d (lq (al a)) in
  q <> [] -> ~ sleeping (after x) /\ Forall (fun x => ~ sleeping x) (areaders a).
Proof.
  intros Q. destruct (deliver _ _ _ _ _) as [x q] eqn:E. intros Hq. split.
  - destruct x as [n' t' d'|]; [|intros []]. intros _. apply Hq.
    pose proof (deliver_asleep killed n t d (lq (al a)) n' t' d') as H. rewrite E in H. by apply H.
  - apply Q. intros Hn. rewrite Hn in E. apply Hq. pose proof (deliver_empty killed n t d) as H. by rewrite E in H.
Qed.

Lemma step_quiet ev a : quiet a -> quiet (astep ev a).
Proof.
  intros Q. destruct ev as [cs|killed n|killed j|j]; simpl.
  - unfold quiet. simpl. destruct (edits_commits cs (al a)) as [Hle Heq]. destruct (Nat.ltb_spec (commits (al a)) (commits (edits cs (al a)))).
    + intros _. apply Forall_fmap, Forall_true. apply wake_awake.
    + rewrite Heq by lia. exact Q.
  - pose proof (deliver_quiet killed n n [] a Q) as H. destruct (deliver _ _ _ _ _) as [x q]. intros Hq. simpl in *.
    destruct (H Hq). apply Forall_app. split; [done|by constructor].
  - destruct (areaders a !! j) as [[| n t d|]|] eqn:Ej; try done.
    pose proof (deliver_quiet killed n t d a Q) as H. destruct (deliver _ _ _ _ _) as [x q]. intros Hq. simpl in *.
    destruct (H Hq). by apply Forall_insert.
  - intros Hq. apply Forall_alter; [by apply Q|]. intros x _ _. apply wake_awake.
Qed.

Lemma run_quiet evs a : quiet a -> quiet (arun evs a).
Proof.
  revert a. induction evs as [|ev evs IH]; intros a Q; [done|]. unfold arun. simpl. apply IH. by apply step_quiet.
Qed.
