(* ===== verification/Xv6ConsoleThms.v ===== *)
(** * The console of xv6: what it promises to readers *)
From S2P Require Import Prelude Xv6Console.

(** C9: Any sequence of key presses, reads, wakeups and kills on the console of
    xv6 does what it does on a queue of finished lines and a line under edit:
    every reader has the bytes and the return value the queue gives it, the
    128-byte ring with its wrapping indices holds exactly the queue and the line,
    the screen with its erased characters gone shows what was taken, the queue
    and the line, and no reader is asleep while the queue has bytes. *)
Theorem console_refines evs :
  Forall ev_ok evs ->
  let s := crun evs console0 in
  let a := arun evs asys0 in
  readers s = areaders a /\
  rep (inp (con s)) (lq (al a)) (ll (al a)) /\
  display (out (con s)) = ataken a ++ lq (al a) ++ ll (al a) /\
  (lq (al a) <> [] -> Forall (fun x => ~ sleeping x) (readers s)).
Proof.
  intros F s a. destruct (run_sim evs _ _ F sim0) as [(R & D & _) E]. split; [exact E|]. split; [exact R|]. split; [exact D|].
  intros Hq. unfold s. rewrite E. apply (run_quiet evs asys0); [by intros []|exact Hq].
Qed.

(** A reader sleeps, "abx" is typed, the x is erased and the line ends; the
    reader goes on. *)
Definition typed : list cev := [Read false 10; Keys [97; 98; 120]; Keys [127; 13]; Resume false 0].

Lemma console_refines_witness :
  Forall ev_ok typed /\ readers (crun typed console0) = [Finished 3 [97; 98; 10]] /\
  display (out (con (crun typed console0))) = [97; 98; 10].
Proof.
  assert (Forall ev_ok typed) as F by (repeat constructor; unfold key_ok; simpl; lia).
  split; [exact F|]. destruct (console_refines typed F) as (E & _ & D & _).
  split; [rewrite E; vm_compute; reflexivity|rewrite D; vm_compute; reflexivity].
Defined.
